(* ===== verification/_CoqProject ===== *)
-Q . S2P
Prelude.v
Mem.v
Printf.v
GfxText.v
Syscall.v
Graphics.v
Lines.v
GraphicsFacts.v
Spinlock.v
Kalloc.v
Vm.v
VmFacts.v
Uvm.v
UvmCopy.v
Pipe.v
Block.v
Bio.v
Log.v
LogFacts.v
LogSpace.v
Fs.v
FsBlocks.v
FsAlloc.v
FsFiles.v
FsInode.v
FsData.v
FsDir.v
FsFacts.v
Mkfs.v
MkfsFacts.v
MkfsImage.v
Proc.v
Sched.v
ProcTable.v
Trap.v
SchedFacts.v
SchedTotal.v
HeldLocks.v
Schedule.v
File.v
FileFacts.v
Exec.v
ExecFacts.v
ExecFiles.v
ExecRun.v
Shell.v
ShellRun.v
Grep.v
Kbd.v
Console.v
Umalloc.v
Ide.v
Vga.v
Screen.v
