(* ===== verification/Prelude.v ===== *)
(** * A verification development for the SysProgAssign2 kernel

    The program is xv6 for the x86, in C, with a graphics subsystem added:
    device contexts and a queue of drawing commands over the VGA memory, and
    text that survives a visit to a graphics mode.  The development models the
    kernel from the byte up to the file system calls, the shell, the user
    allocator, two text tools and the program that makes the disk image.

    ** How the code is modelled

    An integer is a [Z] with the wrap-around of its width written out ([u8],
    [u16], [u32], [s8], [s16], [s32] below).  A pointer is a number.  Where the
    code lives in memory (the free list, page tables, user memory, C strings,
    the drawing queue) the model has a byte memory, a total map of addresses,
    and every access is a load or a store there (Mem.v); where it lives in
    arrays of structs the model has records and maps from the index.

    A routine is a function from a state to an [outcome] (below): [Ok] with a
    result and a state, [Panic] for a call of panic, [Fault] for an access that
    C leaves undefined and the model does not give a meaning to, [NoFuel] when
    a loop with a bound was cut off or the routine would have to sleep.  The
    theorems say which of them can happen; those about a routine that loops say
    that it does return.

    Components that call one another share their state by inclusion: the kernel
    of File.v holds the file system of Fs.v, which holds the log of Log.v, which
    holds the buffer cache of Bio.v; a routine of the inner one is lifted
    ([on_fs], [on_log], ...).  Where a component relies only on what another
    promises, the promise is a class: [Files] with [FilesLaws] (what exec needs
    of the file system; instances are Fs.v and a file system in memory), [Ata]
    with [AtaLaws] (the disk controller), [Ports] with [VgaLaws] (the VGA), and
    [services] (what proc.c calls in the memory and file subsystems).

    Concurrency is a step relation and reachability is [star].  A step is a run
    of a routine from one point that others can see to the next: the accesses
    to the lock word in Spinlock.v, the segments between sleeps in Pipe.v, the
    calls of begin_op, log_write and end_op in LogSpace.v, and in Sched.v the
    runs of proc.c from one acquisition of the process table to where it is
    given up.  A crash is a prefix of the list of disk writes (Log.v).

    ** The parts

    - Foundations.  Prelude.v: integers, outcomes, lists, [star], hint databases
      ([width], [preserving]) and tactics ([bool_cases], [bool_hyps], [kinv]).
      Mem.v: memory and string.c, ulib.c.  Block.v: the bytes of a disk block.
    - Text.  Printf.v: printint and the formatters of console.c and printf.c.
    - System calls.  Syscall.v: syscall.c, arguments fetched from user memory.
    - Graphics.  GfxText.v, Graphics.v, Lines.v, GraphicsFacts.v: graphics.c,
      graphicsQueueables.c, hdc.h, rect.h.
    - Locks.  Spinlock.v: spinlock.c, one CPU at a time, then any number.
    - Memory.  Kalloc.v: kalloc.c.  Vm.v: vm.c.  VmFacts.v: each routine as an
      operation on the map from pages to entries.  Uvm.v and UvmCopy.v: an
      address space as an object that owns its pages.
    - Pipes.  Pipe.v: pipe.c with its readers and writers.
    - Disk.  Bio.v: bio.c, sleeplock.c over memide.c.  Ide.v: ide.c.
      Log.v, LogFacts.v, LogSpace.v: log.c.
    - File system.  Fs.v: fs.c.  FsBlocks.v (a weakest precondition over the
      blocks seen through the cache), FsAlloc.v, FsFiles.v, FsInode.v, FsData.v,
      FsDir.v, FsFacts.v: its theorems, layer by layer.
    - The image.  Mkfs.v, MkfsFacts.v, MkfsImage.v: mkfs.c.
    - Processes.  Proc.v: proc.c, sysproc.c.  Sched.v: the steps of any number
      of CPUs.  ProcTable.v, SchedFacts.v, SchedTotal.v, HeldLocks.v,
      Schedule.v: the theorems.  Trap.v: trap.c, the clock, sys_sleep.
    - Files.  File.v, FileFacts.v: file.c, sysfile.c, pipealloc.
    - Programs.  Exec.v, ExecFacts.v, ExecFiles.v, ExecRun.v: exec.c.
    - User programs.  Shell.v: the parser of sh.c.  ShellRun.v: runcmd and main
      as trees of system calls.  Grep.v: grep.c, wc.c.
      Umalloc.v: umalloc.c.
    - Console.  Kbd.v: kbd.c.  Console.v: the input of console.c.  Vga.v and
      Screen.v: vga.c and the output of console.c.

    A definition has the name of its function; a part of a function that is a
    loop or runs separately has the name with a suffix ([_loop], [_step]).

    ** What is shown

    - The disk survives.  A crash at any write of a commit, and recovery that is
      itself interrupted, leave all or nothing of a transaction (LogFacts.v);
      the space the log reserves is enough, or not, by the size of the log
      (LogSpace.v); bread and the driver give the contents of the block asked
      for and the two disks agree (Bio.v, Ide.v).
    - Files.  Under the invariants [trans] (inside a transaction), [layout_ok]
      (the regions of the disk) and [file_ok] (one file), balloc, iget,
      iupdate, readi, writei, dirlookup, dirlink and the path parser do what
      they should and nothing else (FsFacts.v); the disk of mkfs satisfies the
      invariants (MkfsImage.v).  A panic that the code means, such as a full
      disk, is allowed by name.
    - Descriptors and pipes.  Reference counts equal the descriptors that exist
      through any system calls (FileFacts.v); a pipe delivers its bytes in
      order and loses no wakeup (Pipe.v).
    - Memory.  No page is handed out twice or lost (Kalloc.v); page tables map
      what they are told to (VmFacts.v), an address space keeps to its own
      pages, a copy is equal and apart (Uvm.v, UvmCopy.v), and exec installs
      the image and the arguments or changes nothing (ExecRun.v).  User blocks
      never overlap (Umalloc.v).
    - Processes.  In every reachable state a running process is on one CPU, to
      give up the CPU panics only with a second lock held, no wait is lost
      (Schedule.v);
      mutual exclusion of spin locks (Spinlock.v); a killed process does not
      get back to its program, and no one oversleeps (Trap.v).
    - Drawing, screen and keyboard.  The line plotter rasterises, queued
      commands are the direct calls (Lines.v, GraphicsFacts.v); mode switches
      lose no text (Screen.v); console input is a line editor (Console.v).
    - Languages.  grep matches the language of its pattern (Grep.v); the shell's
      parser ends and keeps its words intact (Shell.v), and its commands run the
      programs they mean, connected as they say and with no descriptor to spare
      (ShellRun.v); numbers printed read back (Printf.v, GfxText.v).

    Several theorems state where the code does not do what it means to; they
    are named after what goes wrong ([reservation_overrun],
    [kill_zero_kills_the_next_process], [malloc_wraps], [read_error_marks_valid],
    [unknown_mode_hides_output], [grep_drops_partial_line], ...).

    ** Bounds

    Recursion that is not structural has fuel, and the caller's definition gives
    enough of it: the buffer list has 31 nodes and a search of it 31 rounds;
    the loops over bytes of a file take at most a block's remainder each round
    and have a round for each block touched; loops over pages have a round for
    each page; a path has an element for each round; malloc has [brk h + 4]
    rounds, more than there are blocks; strlen in the drawing queue is bounded
    by 4096, and its arguments by 50.  That the bound is enough is part of the
    theorem about the routine.  A wait for the disk, in idewait, has a bound
    that the laws of the controller make enough.

    ** What is not modelled

    - The processor and its interrupt controllers: bootasm.S, entry.S, swtch.S,
      trapasm.S, bootmain.c, main.c, mp.c, lapic.c, ioapic.c, picirq.c, uart.c's
      set-up, segment descriptors and the task state (seginit, switchuvm but for
      its checks).  Their effect is on devices that the source does not
      describe.
    - In Sched.v fork after its allocation is one step, and what exit does to
      files is any sequence of lock operations; a CPU that spins on the table
      lock takes no step; the first run of forkret, into iinit and initlog, is
      left out.
    - A call of sysfile.c that has to sleep has no result in File.v; Pipe.v and
      LogSpace.v have the interleavings.
    - The small user programs, Painter.c and usertests.c, which are sequences
      of system calls and printing. *)

From Stdlib Require Export ZArith Lia.
From stdpp Require Export base tactics functions strings gmap numbers option list.

#[local] Open Scope Z_scope.

(** ** Fixed-width integers

    C's integer types as [Z], with the wrap-around of each width written
    out.  [s32] is the two's complement reading that the compiler gives to
    a signed 32-bit result. *)

Definition u8 (x : Z) : Z := x mod 2 ^ 8.
Definition u16 (x : Z) : Z := x mod 2 ^ 16.
Definition u32 (x : Z) : Z := x mod 2 ^ 32.
Definition s8 (x : Z) : Z := (x + 2 ^ 7) mod 2 ^ 8 - 2 ^ 7.
Definition s16 (x : Z) : Z := (x + 2 ^ 15) mod 2 ^ 16 - 2 ^ 15.
Definition s32 (x : Z) : Z := (x + 2 ^ 31) mod 2 ^ 32 - 2 ^ 31.

Definition is_u32 (x : Z) : Prop := 0 <= x < 2 ^ 32.
Definition is_s32 (x : Z) : Prop := - 2 ^ 31 <= x < 2 ^ 31.
Definition is_byte (x : Z) : Prop := 0 <= x < 256.

Lemma u8_small x : 0 <= x < 256 -> u8 x = x.
Proof. intros H. unfold u8. apply Z.mod_small. lia. Qed.

Lemma u8_range x : 0 <= u8 x < 256.
Proof. unfold u8. apply (Z.mod_pos_bound x (2 ^ 8)). lia. Qed.

Lemma u16_small x : 0 <= x < 65536 -> u16 x = x.
Proof. intros H. unfold u16. apply Z.mod_small. lia. Qed.

Lemma u16_range x : 0 <= u16 x < 65536.
Proof. unfold u16. apply (Z.mod_pos_bound x (2 ^ 16)). lia. Qed.

Lemma u32_small x : is_u32 x -> u32 x = x.
Proof. intros H. unfold u32. apply Z.mod_small. exact H. Qed.

Lemma u32_range x : is_u32 (u32 x).
Proof. unfold u32. apply (Z.mod_pos_bound x (2 ^ 32)). lia. Qed.

Lemma s32_small x : is_s32 x -> s32 x = x.
Proof. unfold is_s32, s32. intros H. rewrite Z.mod_small; lia. Qed.

Lemma s32_range x : is_s32 (s32 x).
Proof.
  unfold is_s32, s32.
  pose proof (Z.mod_pos_bound (x + 2 ^ 31) (2 ^ 32) ltac:(lia)). lia.
Qed.

Lemma s8_small x : 0 <= x < 128 -> s8 x = x.
Proof. unfold s8. intros H. rewrite Z.mod_small; lia. Qed.

(** ** Outcomes of kernel code

    A routine that can stop the machine or step outside its arrays is a
    function from a state to an outcome. *)

Inductive outcome (S A : Type) : Type :=
| Ok (a : A) (s : S)       (* the routine returns *)
| Panic (msg : string)     (* it calls panic(msg), which never returns *)
| Fault (why : string)     (* it leaves the bounds of an object *)
| NoFuel.                  (* a loop outlived the bound given to the model *)

Arguments Ok {S A} a s.
Arguments Panic {S A} msg.
Arguments Fault {S A} why.
Arguments NoFuel {S A}.

Definition K (S A : Type) : Type := S -> outcome S A.

Section monad.
Context {S A B : Type}.

Definition kret (a : A) : K S A := fun s => Ok a s.

Definition kbind (m : K S A) (f : A -> K S B) : K S B := fun s =>
  match m s with
  | Ok a s' => f a s'
  | Panic e => Panic e
  | Fault e => Fault e
  | NoFuel => NoFuel
  end.

Definition panic (msg : string) : K S A := fun _ => Panic msg.
Definition fault (why : string) : K S A := fun _ => Fault why.
Definition nofuel : K S A := fun _ => NoFuel.
Definition gets (f : S -> A) : K S A := fun s => Ok (f s) s.
Definition modify (f : S -> S) : K S unit := fun s => Ok tt (f s).

(** An array or partial-map access: leaving its domain is a fault. *)
Definition of_opt (why : string) (o : option A) : K S A :=
  match o with Some a => kret a | None => fault why end.

(** The result and the final state of a run that returns. *)
Definition ok_state (o : outcome S A) : option S :=
  match o with Ok _ s => Some s | _ => None end.
Definition ok_val (o : outcome S A) : option A :=
  match o with Ok a _ => Some a | _ => None end.
End monad.

Declare Scope kernel_scope.
Delimit Scope kernel_scope with kernel.
Notation "x <- m ;; k" := (kbind m (fun x => k))
  (at level 100, m at next level, right associativity) : kernel_scope.
Notation "' p <- m ;; k" := (kbind m (fun x => match x with p => k end))
  (at level 100, p pattern, m at next level, right associativity) : kernel_scope.
Notation "m ;;; k" := (kbind m (fun _ => k))
  (at level 100, right associativity) : kernel_scope.

#[local] Open Scope kernel_scope.

(** [for x in l do f x], leaving the loop early when the body answers. *)
Fixpoint first_of {S A B : Type} (l : list A) (f : A -> K S (option B))
  : K S (option B) :=
  match l with
  | [] => kret None
  | x :: l' =>
      r <- f x ;;
      match r with
      | Some b => kret (Some b)
      | None => first_of l' f
      end
  end.

(** The values of [x] in [for (x = from; x < to; x += by)]. *)
Definition steps (from to by_ : Z) : list Z :=
  map (fun k => from + by_ * Z.of_nat k) (seq 0 (Z.to_nat ((to - from + by_ - 1) / by_))).

(** [for x in l do f x]. *)
Fixpoint for_each {S A : Type} (l : list A) (f : A -> K S unit) : K S unit :=
  match l with
  | [] => kret tt
  | x :: l' => f x ;;; for_each l' f
  end.

Lemma kbind_ok {S A B} (m : K S A) (f : A -> K S B) s a s' :
  m s = Ok a s' -> kbind m f s = f a s'.
Proof. unfold kbind. intros ->. reflexivity. Qed.

Lemma kbind_inv {S A B} (m : K S A) (f : A -> K S B) s b s'' :
  kbind m f s = Ok b s'' -> exists a s', m s = Ok a s' /\ f a s' = Ok b s''.
Proof. unfold kbind. destruct (m s) eqn:E; intros H; try discriminate. eauto. Qed.

Lemma kbind_assoc {S A B C} (m : K S A) (f : A -> K S B) (g : B -> K S C) s :
  kbind (kbind m f) g s = kbind m (fun a => kbind (f a) g) s.
Proof. unfold kbind. destruct (m s); reflexivity. Qed.

(** Two runs that agree on their first part and, after it, on the rest. *)
Lemma kbind_congr {S A B} (m1 m2 : K S A) (f1 f2 : A -> K S B) s :
  m1 s = m2 s -> (forall a s', m2 s = Ok a s' -> f1 a s' = f2 a s') ->
  kbind m1 f1 s = kbind m2 f2 s.
Proof. unfold kbind. intros -> H. destruct (m2 s); auto. Qed.

Lemma for_each_app {S A} (l1 l2 : list A) (f : A -> K S unit) s :
  for_each (l1 ++ l2) f s = kbind (for_each l1 f) (fun _ => for_each l2 f) s.
Proof.
  revert s. induction l1 as [|x l1 IH]; intros s; simpl; [reflexivity|].
  rewrite kbind_assoc. unfold kbind. destruct (f x s); auto.
Qed.

(** An invariant of the body is an invariant of the loop. *)
Lemma for_each_inv {S A} (P : S -> Prop) (l : list A) (f : A -> K S unit) s s' :
  (forall x s s', x ∈ l -> P s -> f x s = Ok tt s' -> P s') ->
  P s -> for_each l f s = Ok tt s' -> P s'.
Proof.
  revert s. induction l as [|x l IH]; intros s Hf HP; simpl.
  - intros [= <-]. exact HP.
  - intros ([] & s1 & H1 & H2)%kbind_inv.
    apply (IH s1); [| |exact H2].
    + intros y t t' Hy. apply Hf. by constructor.
    + apply (Hf x s); auto. constructor.
Qed.

(** The loop [for (k = 0; k < n; k++) f(k)], with an invariant on [k]. *)
Lemma for_each_seq {S} (f : Z -> K S unit) (I : nat -> S -> Prop) n s :
  I O s ->
  (forall k s, (k < n)%nat -> I k s -> exists s', f (Z.of_nat k) s = Ok tt s' /\ I (Datatypes.S k) s') ->
  exists s', for_each (map Z.of_nat (seq 0 n)) f s = Ok tt s' /\ I n s'.
Proof.
  intros H0 Hstep. induction n as [|n IH]; [by exists s|].
  destruct IH as (s1 & E1 & H1); [intros k t Hk; apply Hstep; lia|].
  destruct (Hstep n s1 ltac:(lia) H1) as (s2 & E2 & H2).
  exists s2. split; [|done]. rewrite seq_S, map_app, for_each_app, (kbind_ok _ _ _ _ _ E1).
  cbn. by rewrite (kbind_ok _ _ _ _ _ E2).
Qed.

(** ** Routines that keep a relation between the states before and after *)

Definition preserving {S A} (R : S -> S -> Prop) (m : K S A) : Prop :=
  forall s a s', m s = Ok a s' -> R s s'.

Section preserving.
Context {S : Type} (R : S -> S -> Prop) `{!PreOrder R}.

Lemma preserving_ret {A} (a : A) : preserving R (kret a).
Proof. intros s a' s' [= _ <-]. reflexivity. Qed.
Lemma preserving_gets {A} (f : S -> A) : preserving R (gets f).
Proof. intros s a' s' [= _ <-]. reflexivity. Qed.
Lemma preserving_fault {A} w : preserving R (@fault S A w).
Proof. by intros s a s' ?. Qed.
Lemma preserving_panic {A} w : preserving R (@panic S A w).
Proof. by intros s a s' ?. Qed.
Lemma preserving_nofuel {A} : preserving R (@nofuel S A).
Proof. by intros s a s' ?. Qed.
Lemma preserving_modify f : (forall s, R s (f s)) -> preserving R (modify f).
Proof. by intros H s a' s' [= _ <-]. Qed.
Lemma preserving_bind {A B} (m : K S A) (f : A -> K S B) :
  preserving R m -> (forall a, preserving R (f a)) -> preserving R (kbind m f).
Proof.
  intros Hm Hf s b s'' H. apply kbind_inv in H as (a & s' & H1 & H2). transitivity s'; [by eapply Hm|by eapply Hf].
Qed.
Lemma preserving_for_each {A} (l : list A) (f : A -> K S unit) :
  (forall x, preserving R (f x)) -> preserving R (for_each l f).
Proof. intros Hf. induction l as [|x l IH]; [apply preserving_ret|]. by apply preserving_bind. Qed.
End preserving.

Create HintDb preserving.
#[export] Hint Resolve preserving_ret preserving_gets preserving_fault preserving_panic preserving_nofuel : preserving.

#[export] Hint Extern 1 (PreOrder _) => typeclasses eauto : preserving.

(** Walk through the structure of a routine. *)
Ltac preserving :=
  repeat first [ solve [eauto with preserving]
               | apply preserving_bind; [typeclasses eauto| |intros ?]
               | apply preserving_for_each; [typeclasses eauto|intros ?]
               | case_match ].

(** ** Lists *)

Lemma filter_id {A} (P : A -> Prop) `{!forall x, Decision (P x)} (l : list A) :
  Forall P l -> filter P l = l.
Proof. induction 1 as [|x l Hx _ IH]; [done|]. rewrite filter_cons_True by done. by rewrite IH. Qed.

Lemma find_ext {A} (f g : A -> bool) (l : list A) :
  (forall x, f x = g x) -> List.find f l = List.find g l.
Proof. intros H. induction l as [|x l IH]; [done|]. cbn. rewrite H. by destruct (g x). Qed.

(** ** Reachability *)

Inductive star {A : Type} (R : A -> A -> Prop) : A -> A -> Prop :=
| star_refl a : star R a a
| star_step a b c : R a b -> star R b c -> star R a c.

Lemma star_invariant {A} (R : A -> A -> Prop) (P : A -> Prop) a b :
  (forall x y, R x y -> P x -> P y) -> star R a b -> P a -> P b.
Proof. intros HR. induction 1; eauto. Qed.

Lemma star_snoc {A} (R : A -> A -> Prop) a b c : star R a b -> R b c -> star R a c.
Proof.
  induction 1; intros Hc; [|eauto using star_step].
  eapply star_step; [exact Hc|apply star_refl].
Qed.

(** ** Shared automation *)

Create HintDb width.
Create Rewrite HintDb width.
#[export] Hint Resolve u8_range u16_range u32_range s32_range : width.
#[export] Hint Rewrite u8_small u16_small s8_small using lia : width.

(** Case analysis on the boolean comparisons of [Z] in goal and context. *)
Ltac bool_cases :=
  repeat match goal with
  | |- context [?a =? ?b] => destruct (Z.eqb_spec a b)
  | |- context [?a <? ?b] => destruct (Z.ltb_spec a b)
  | |- context [?a <=? ?b] => destruct (Z.leb_spec a b)
  | |- context [?a >? ?b] => rewrite (Z.gtb_ltb a b)
  | |- context [?a >=? ?b] => rewrite (Z.geb_leb a b)
  end.

Ltac bool_hyps :=
  repeat match goal with
  | H : (_ && _)%bool = true |- _ => apply andb_true_iff in H as [??]
  | H : (_ || _)%bool = false |- _ => apply orb_false_iff in H as [??]
  | H : negb _ = true |- _ => apply negb_true_iff in H
  | H : negb _ = false |- _ => apply negb_false_iff in H
  | H : (?a =? ?b) = true |- _ => apply Z.eqb_eq in H
  | H : (?a =? ?b) = false |- _ => apply Z.eqb_neq in H
  | H : (?a <? ?b) = true |- _ => apply Z.ltb_lt in H
  | H : (?a <? ?b) = false |- _ => apply Z.ltb_ge in H
  | H : (?a <=? ?b) = true |- _ => apply Z.leb_le in H
  | H : (?a <=? ?b) = false |- _ => apply Z.leb_gt in H
  | H : (?a >? ?b) = true |- _ => rewrite Z.gtb_ltb in H
  | H : (?a >? ?b) = false |- _ => rewrite Z.gtb_ltb in H
  | H : (?a >=? ?b) = true |- _ => rewrite Z.geb_leb in H
  | H : (?a >=? ?b) = false |- _ => rewrite Z.geb_leb in H
  end.

(** Break a successful run of a [kbind] chain into its steps. *)
Ltac kinv H :=
  let a := fresh "a" in let s := fresh "s" in let H1 := fresh "Hrun" in
  apply kbind_inv in H as (a & s & H1 & H).
