(* ===== verification/Mem.v ===== *)
(** * Byte memory, the C string routines of the kernel (string.c) and of the
    user library (ulib.c)

    Memory is a total map from addresses to bytes; pointers are addresses.
    The string instructions of x86.h ([stosb], [stosl]) and the 16- and
    32-bit little-endian accesses that struct and pointer dereferences
    compile to are defined here, and every component that keeps data in
    memory (free list, page tables, disk inodes, user arguments) uses them. *)

From S2P Require Import Prelude.
#[local] Open Scope Z_scope.

(** ** Memory *)

Definition mem : Type := Z -> Z.

Definition upd (m : mem) (a v : Z) : mem := fun x => if x =? a then v else m x.

Definition zeroed : mem := fun _ => 0.

(** The bytes of the block [d, d+n) replaced by those of [src] from [s]. *)
Definition blit (dst : mem) (d : Z) (src : mem) (s n : Z) : mem :=
  fun x => if (d <=? x) && (x <? d + n) then src (x - d + s) else dst x.

Definition fill (m : mem) (d n v : Z) : mem :=
  fun x => if (d <=? x) && (x <? d + n) then v else m x.

Definition load16 (m : mem) (a : Z) : Z := m a + 256 * m (a + 1).

Definition load32 (m : mem) (a : Z) : Z :=
  m a + 256 * m (a + 1) + 65536 * m (a + 2) + 16777216 * m (a + 3).

Definition store16 (m : mem) (a v : Z) : mem :=
  upd (upd m a (u8 v)) (a + 1) (u8 (Z.shiftr v 8)).

Definition store32 (m : mem) (a v : Z) : mem :=
  upd (upd (upd (upd m a (u8 v)) (a + 1) (u8 (Z.shiftr v 8)))
           (a + 2) (u8 (Z.shiftr v 16)))
      (a + 3) (u8 (Z.shiftr v 24)).

Definition mem_ok (m : mem) : Prop := forall a, is_byte (m a).

Definition mem_eq (m1 m2 : mem) : Prop := forall a, m1 a = m2 a.

#[export] Instance mem_eq_equiv : Equivalence mem_eq.
Proof. split; unfold mem_eq; repeat intro; congruence. Qed.

#[export] Instance upd_proper : Proper (mem_eq ==> eq ==> eq ==> mem_eq) upd.
Proof. intros m1 m2 Hm a ? <- v ? <- x. unfold upd. by rewrite Hm. Qed.

#[export] Instance load32_proper : Proper (mem_eq ==> eq ==> eq) load32.
Proof. intros m1 m2 Hm a ? <-. unfold load32. by rewrite !Hm. Qed.

(** Decide the address tests of [upd], [blit] and [fill]. *)
Ltac mem_unfold :=
  unfold upd, blit, fill, store32, store16, load32, load16, upd in *.
Ltac addr_cases :=
  repeat (match goal with
  | |- context [?a =? ?b] => destruct (Z.eqb_spec a b)
  | |- context [?a <=? ?b] => destruct (Z.leb_spec a b)
  | |- context [?a <? ?b] => destruct (Z.ltb_spec a b)
  end; cbn [andb orb]; try lia).

Lemma upd_eq m a v : upd m a v a = v.
Proof. unfold upd. by rewrite Z.eqb_refl. Qed.

Lemma upd_ne m a v x : x <> a -> upd m a v x = m x.
Proof. intros H. unfold upd. by apply Z.eqb_neq in H as ->. Qed.

Lemma fill_in m d n v x : d <= x < d + n -> fill m d n v x = v.
Proof. intros H. unfold fill. addr_cases; reflexivity. Qed.

Lemma fill_out m d n v x : ~ (d <= x < d + n) -> fill m d n v x = m x.
Proof. intros H. unfold fill. addr_cases; reflexivity. Qed.

Lemma blit_in dst d src s n x : d <= x < d + n -> blit dst d src s n x = src (x - d + s).
Proof. intros H. unfold blit. addr_cases; reflexivity. Qed.

Lemma blit_out dst d src s n x : ~ (d <= x < d + n) -> blit dst d src s n x = dst x.
Proof. intros H. unfold blit. addr_cases; reflexivity. Qed.

Lemma store32_out m a v x : ~ (a <= x < a + 4) -> store32 m a v x = m x.
Proof. intros H. unfold store32. rewrite !upd_ne by lia. reflexivity. Qed.

Lemma store32_bytes m a v :
  store32 m a v a = u8 v /\ store32 m a v (a + 1) = u8 (Z.shiftr v 8)
  /\ store32 m a v (a + 2) = u8 (Z.shiftr v 16)
  /\ store32 m a v (a + 3) = u8 (Z.shiftr v 24).
Proof.
  unfold store32. repeat split;
    repeat (rewrite upd_eq || (rewrite upd_ne by lia)); reflexivity.
Qed.

Lemma store32_byte m a v k : 0 <= k < 4 -> store32 m a v (a + k) = u8 (Z.shiftr v (8 * k)).
Proof.
  intros Hk. destruct (store32_bytes m a v) as (B0 & B1 & B2 & B3).
  assert (k = 0 \/ k = 1 \/ k = 2 \/ k = 3) as [-> | [-> | [-> | ->]]] by lia; try assumption.
  rewrite Z.add_0_r. exact B0.
Qed.

Lemma load32_store32 m a v : load32 (store32 m a v) a = u32 v.
Proof.
  unfold load32. destruct (store32_bytes m a v) as (-> & -> & -> & ->).
  unfold u8, u32. rewrite !Z.shiftr_div_pow2 by lia.
  pose proof (Z.div_mod v (2 ^ 32) ltac:(lia)).
  change (2 ^ 8) with 256. change (2 ^ 16) with 65536. change (2 ^ 24) with 16777216.
  change (2 ^ 32) with 4294967296.
  Z.to_euclidean_division_equations. lia.
Qed.

Lemma load32_store32_ne m a b v :
  a + 4 <= b \/ b + 4 <= a -> load32 (store32 m a v) b = load32 m b.
Proof. intros H. unfold load32. rewrite !store32_out by lia. reflexivity. Qed.

Lemma load32_fill_out m d n v a :
  a + 4 <= d \/ d + n <= a -> load32 (fill m d n v) a = load32 m a.
Proof. intros H. unfold load32. rewrite !fill_out by lia. reflexivity. Qed.

Lemma load32_fill0 m d n a :
  d <= a -> a + 4 <= d + n -> load32 (fill m d n 0) a = 0.
Proof. intros ??. unfold load32. rewrite !fill_in by lia. reflexivity. Qed.

Lemma load32_range m a : mem_ok m -> is_u32 (load32 m a).
Proof.
  intros H. unfold load32, is_u32.
  pose proof (H a). pose proof (H (a + 1)). pose proof (H (a + 2)). pose proof (H (a + 3)).
  unfold is_byte in *. lia.
Qed.

Lemma upd_mem_ok m a v : mem_ok m -> is_byte v -> mem_ok (upd m a v).
Proof. intros Hm Hv x. unfold upd. destruct (x =? a); auto. Qed.

Lemma store32_mem_ok m a v : mem_ok m -> mem_ok (store32 m a v).
Proof.
  intros Hm. unfold store32.
  repeat (apply upd_mem_ok; [|apply u8_range]). exact Hm.
Qed.

Lemma fill_mem_ok m d n v : mem_ok m -> is_byte v -> mem_ok (fill m d n v).
Proof. intros Hm Hv x. unfold fill. destruct (_ && _); auto. Qed.

#[export] Hint Resolve upd_mem_ok store32_mem_ok fill_mem_ok load32_range : width.

(** ** NUL-terminated strings *)

(** [cstr m p l]: the C string at [p] has the characters [l]. *)
Definition cstr (m : mem) (p : Z) (l : list Z) : Prop :=
  (forall i c, l !! i = Some c -> m (p + Z.of_nat i) = c /\ c <> 0)
  /\ m (p + Z.of_nat (length l)) = 0.

Lemma cstr_cons m p c l : cstr m p (c :: l) <-> m p = c /\ c <> 0 /\ cstr m (p + 1) l.
Proof.
  unfold cstr. split.
  - intros [H H0]. destruct (H 0%nat c eq_refl) as [Hc Hn].
    rewrite Z.add_0_r in Hc. split; [exact Hc|]. split; [exact Hn|]. split.
    + intros i x Hi. destruct (H (S i) x Hi) as [Hx ?].
      split; [|done]. rewrite <- Hx. f_equal. lia.
    + rewrite <- H0. f_equal. cbn [length]. lia.
  - intros (Hc & Hn & H & H0). split.
    + intros [|i] x Hi; cbn in Hi.
      * injection Hi as <-. rewrite Z.add_0_r. auto.
      * destruct (H i x Hi) as [Hx ?]. split; [|done]. rewrite <- Hx. f_equal. lia.
    + rewrite <- H0. f_equal. cbn [length]. lia.
Qed.

Lemma cstr_nil m p : cstr m p [] <-> m p = 0.
Proof.
  unfold cstr. cbn. rewrite Z.add_0_r. split; [intros [_ H]; exact H|].
  intros H. split; [|exact H]. intros i c Hi. discriminate Hi.
Qed.

Lemma cstr_frame m m' p l :
  cstr m p l -> (forall x, p <= x <= p + Z.of_nat (length l) -> m' x = m x) -> cstr m' p l.
Proof.
  intros [H H0] Hm. split.
  - intros i c Hi. pose proof (lookup_lt_Some _ _ _ Hi). rewrite Hm by lia. by apply H.
  - rewrite Hm by lia. exact H0.
Qed.

(** ** string.c *)

Module KString.

(** rep stosb and rep stosl of x86.h, [n] stores of [data] from [addr] up. *)
Fixpoint stosb (m : mem) (addr data : Z) (n : nat) : mem :=
  match n with
  | O => m
  | S n' => stosb (upd m addr (u8 data)) (addr + 1) data n'
  end.

Fixpoint stosl (m : mem) (addr data : Z) (n : nat) : mem :=
  match n with
  | O => m
  | S n' => stosl (store32 m addr data) (addr + 4) data n'
  end.

(** [memset(dst, c, n)], [n] unsigned. *)
Definition memset (m : mem) (dst c n : Z) : mem :=
  if (Z.rem dst 4 =? 0) && (n mod 4 =? 0) then
    let c := Z.land c 0xFF in
    stosl m dst
      (Z.lor (Z.lor (Z.lor (Z.shiftl c 24) (Z.shiftl c 16)) (Z.shiftl c 8)) c)
      (Z.to_nat (n / 4))
  else stosb m dst c (Z.to_nat n).

Fixpoint memcmp (m : mem) (s1 s2 : Z) (n : nat) : Z :=
  match n with
  | O => 0
  | S n' => if negb (m s1 =? m s2) then m s1 - m s2 else memcmp m (s1 + 1) (s2 + 1) n'
  end.

(** The two copy loops of [memmove]: [*d++ = *s++] and [*--d = *--s]. *)
Fixpoint copy_up (m : mem) (d s : Z) (n : nat) : mem :=
  match n with
  | O => m
  | S n' => copy_up (upd m d (m s)) (d + 1) (s + 1) n'
  end.

Fixpoint copy_down (m : mem) (d s : Z) (n : nat) : mem :=
  match n with
  | O => m
  | S n' => copy_down (upd m (d - 1) (m (s - 1))) (d - 1) (s - 1) n'
  end.

Definition memmove (m : mem) (dst src n : Z) : mem :=
  if (src <? dst) && (src + n >? dst)
  then copy_down m (dst + n) (src + n) (Z.to_nat n)
  else copy_up m dst src (Z.to_nat n).

Definition memcpy (m : mem) (dst src n : Z) : mem := memmove m dst src n.

Fixpoint strncmp (m : mem) (p q : Z) (n : nat) : Z :=
  match n with
  | O => 0
  | S n' =>
      if negb (m p =? 0) && (m p =? m q) then strncmp m (p + 1) (q + 1) n'
      else m p - m q
  end.

(** [while (n-- > 0 && ( *s++ = *t++) != 0);]: the memory, the new [s] and
    what is left of [n] when the loop stops. *)
Fixpoint strncpy_copy (m : mem) (s t : Z) (n : nat) : mem * Z * nat :=
  match n with
  | O => (m, s, O)
  | S n' =>
      let c := m t in
      if c =? 0 then (upd m s c, s + 1, n')
      else strncpy_copy (upd m s c) (s + 1) (t + 1) n'
  end.

(** [while (n-- > 0) *s++ = 0;] *)
Fixpoint strncpy_pad (m : mem) (s : Z) (n : nat) : mem :=
  match n with
  | O => m
  | S n' => strncpy_pad (upd m s 0) (s + 1) n'
  end.

Definition strncpy (m : mem) (s t n : Z) : mem :=
  let '(m, s, todo) := strncpy_copy m s t (Z.to_nat n) in
  strncpy_pad m s todo.

Definition safestrcpy (m : mem) (s t n : Z) : mem :=
  if n <=? 0 then m
  else
    let '(m, s, _) := strncpy_copy m s t (Z.to_nat (n - 1)) in
    upd m s 0.

(** [for (n = 0; s[n]; n++);], at most [fuel] characters. *)
Fixpoint strlen_loop (m : mem) (s n : Z) (fuel : nat) : option Z :=
  match fuel with
  | O => None
  | S f => if m (s + n) =? 0 then Some n else strlen_loop m s (n + 1) f
  end.

Definition strlen (fuel : nat) (m : mem) (s : Z) : option Z := strlen_loop m s 0 fuel.

End KString.

(** ** ulib.c: the routines that differ from string.c *)

Module Ulib.

(** [while (( *s++ = *t++) != 0);] *)
Fixpoint strcpy (fuel : nat) (m : mem) (s t : Z) : option mem :=
  match fuel with
  | O => None
  | S f =>
      let c := m t in
      if c =? 0 then Some (upd m s c) else strcpy f (upd m s c) (s + 1) (t + 1)
  end.

Fixpoint strcmp (fuel : nat) (m : mem) (p q : Z) : option Z :=
  match fuel with
  | O => None
  | S f =>
      if negb (m p =? 0) && (m p =? m q) then strcmp f m (p + 1) (q + 1)
      else Some (m p - m q)
  end.

(** A found pointer, or 0. *)
Fixpoint strchr (fuel : nat) (m : mem) (s c : Z) : option Z :=
  match fuel with
  | O => None
  | S f =>
      if m s =? 0 then Some 0
      else if m s =? c then Some s
      else strchr f m (s + 1) c
  end.

Definition memset (m : mem) (dst c n : Z) : mem := KString.stosb m dst c (Z.to_nat n).

Definition memmove (m : mem) (dst src n : Z) : mem := KString.copy_up m dst src (Z.to_nat n).

(** [while ('0' <= *s && *s <= '9') n = n * 10 + *s++ - '0';] with int
    wrap-around. *)
Fixpoint atoi_loop (fuel : nat) (m : mem) (s n : Z) : option Z :=
  match fuel with
  | O => None
  | S f =>
      if (48 <=? s8 (m s)) && (s8 (m s) <=? 57)
      then atoi_loop f m (s + 1) (s32 (n * 10 + m s - 48))
      else Some n
  end.

Definition atoi (fuel : nat) (m : mem) (s : Z) : option Z := atoi_loop fuel m s 0.

End Ulib.

(** ** Lemmas on the loops *)

Module StringFacts.
Import KString.

Lemma stosb_fill m a v n : mem_eq (stosb m a v n) (fill m a (Z.of_nat n) (u8 v)).
Proof.
  revert m a. induction n as [|n IH]; intros m a x.
  - simpl. rewrite fill_out by lia. reflexivity.
  - cbn [stosb]. rewrite IH. unfold fill, upd. addr_cases; reflexivity.
Qed.

(** A word whose four bytes are [c]. *)
Definition splat (c : Z) : Z :=
  Z.lor (Z.lor (Z.lor (Z.shiftl c 24) (Z.shiftl c 16)) (Z.shiftl c 8)) c.

Lemma splat_byte c k : is_byte c -> 0 <= k < 4 -> u8 (Z.shiftr (splat c) (8 * k)) = c.
Proof.
  intros Hc Hk. unfold u8, splat. rewrite <- Z.land_ones by lia.
  assert (Hhi : forall i, 8 <= i -> Z.testbit c i = false).
  { intros i Hi. destruct (Z.eq_dec c 0) as [->|]; [apply Z.bits_0|].
    apply Z.bits_above_log2; [unfold is_byte in Hc; lia|].
    apply Z.log2_lt_pow2; [unfold is_byte in Hc; lia|].
    eapply Z.lt_le_trans; [apply Hc|]. change 256 with (2 ^ 8).
    apply Z.pow_le_mono_r; lia. }
  apply Z.bits_inj'. intros i Hi.
  rewrite Z.land_spec, Z.shiftr_spec, !Z.lor_spec by lia.
  rewrite !Z.shiftl_spec by lia.
  destruct (Z.lt_ge_cases i 8) as [Hi8|Hi8].
  - rewrite Z.ones_spec_low, andb_true_r by lia.
    assert (k = 0 \/ k = 1 \/ k = 2 \/ k = 3) as [-> | [-> | [-> | ->]]] by lia;
      repeat match goal with
      | |- context [Z.testbit c ?j] =>
          assert_fails (constr_eq j i);
          first [ replace (Z.testbit c j) with false
                    by (symmetry; first [apply Hhi; lia | apply Z.testbit_neg_r; lia])
                | replace j with i by lia ]
      end; rewrite ?orb_false_r; try reflexivity.
  - rewrite Z.ones_spec_high, andb_false_r by lia. symmetry. by apply Hhi.
Qed.

Lemma stosl_fill m a c n :
  is_byte c -> mem_eq (stosl m a (splat c) n) (fill m a (4 * Z.of_nat n) c).
Proof.
  intros Hc. revert m a. induction n as [|n IH]; intros m a x.
  - simpl. rewrite fill_out by lia. reflexivity.
  - cbn [stosl]. rewrite IH.
    destruct (Z_le_dec a x), (Z_lt_dec x (a + 4)).
    + rewrite fill_out, fill_in by lia. replace x with (a + (x - a)) by lia.
      rewrite store32_byte by lia. apply splat_byte; [done|lia].
    + unfold fill. addr_cases; try reflexivity; by rewrite store32_out by lia.
    + rewrite !fill_out by lia. by rewrite store32_out by lia.
    + lia.
Qed.

Lemma copy_up_blit m d s n :
  ~ (s < d < s + Z.of_nat n) -> mem_eq (copy_up m d s n) (blit m d m s (Z.of_nat n)).
Proof.
  revert m d s. induction n as [|n IH]; intros m d s Hov x.
  - simpl. rewrite blit_out by lia. reflexivity.
  - cbn [copy_up]. rewrite IH by lia. unfold blit, upd.
    addr_cases; try reflexivity; f_equal; lia.
Qed.

Lemma copy_down_blit m d s n :
  s <= d -> mem_eq (copy_down m (d + Z.of_nat n) (s + Z.of_nat n) n) (blit m d m s (Z.of_nat n)).
Proof.
  revert m. induction n as [|n IH]; intros m Hsd x.
  - simpl. rewrite blit_out by lia. reflexivity.
  - cbn [copy_down].
    replace (d + Z.of_nat (S n) - 1) with (d + Z.of_nat n) by lia.
    replace (s + Z.of_nat (S n) - 1) with (s + Z.of_nat n) by lia.
    rewrite IH by lia. unfold blit, upd.
    addr_cases; try reflexivity; f_equal; lia.
Qed.

(** strlen, seen from the middle of the string. *)
Lemma strlen_loop_cstr m p l n fuel :
  cstr m (p + n) l -> (length l < fuel)%nat ->
  strlen_loop m p n fuel = Some (n + Z.of_nat (length l)).
Proof.
  revert n fuel. induction l as [|c l IH]; intros n [|f] Hs Hf; cbn in Hf; try lia.
  - apply cstr_nil in Hs. cbn. rewrite Hs. cbn. f_equal. lia.
  - apply cstr_cons in Hs as (Hc & Hn & Hs). cbn.
    destruct (Z.eqb_spec (m (p + n)) 0); [congruence|].
    rewrite (IH (n + 1)); [f_equal; lia| |lia].
    by replace (p + (n + 1)) with (p + n + 1) by lia.
Qed.

Lemma strlen_cstr fuel m p l :
  cstr m p l -> (length l < fuel)%nat -> strlen fuel m p = Some (Z.of_nat (length l)).
Proof.
  intros Hs Hf. unfold strlen. rewrite (strlen_loop_cstr m p l 0); [done| |done].
  by rewrite Z.add_0_r.
Qed.

Lemma strlen_loop_sound m p n fuel k :
  strlen_loop m p n fuel = Some k ->
  n <= k /\ m (p + k) = 0 /\ (forall j, n <= j < k -> m (p + j) <> 0).
Proof.
  revert n. induction fuel as [|f IH]; intros n; cbn; [discriminate|].
  destruct (Z.eqb_spec (m (p + n)) 0) as [E|E].
  - intros [= <-]. repeat split; [lia|exact E|lia].
  - intros (H1 & H2 & H3)%IH. repeat split; [lia|exact H2|].
    intros j Hj. destruct (Z.eq_dec j n) as [->|]; [exact E|]. apply H3. lia.
Qed.

Lemma strncpy_pad_fill m s n :
  mem_eq (strncpy_pad m s n) (fill m s (Z.of_nat n) 0).
Proof.
  revert m s. induction n as [|n IH]; intros m s x.
  - simpl. rewrite fill_out by lia. reflexivity.
  - cbn [strncpy_pad]. rewrite IH. unfold fill, upd. addr_cases; reflexivity.
Qed.

(** The copy loop over a string of [l] that does not overlap the target:
    either the string and its NUL were copied, or [n] characters were. *)
Lemma strncpy_copy_cstr m s t l n :
  cstr m t l -> (s + Z.of_nat n <= t \/ t + Z.of_nat (length l) < s) ->
  let k := Nat.min n (S (length l)) in
  exists m',
    strncpy_copy m s t n = (m', s + Z.of_nat k, (n - k)%nat)
    /\ mem_eq m' (blit m s m t (Z.of_nat k)).
Proof.
  revert m s t n. induction l as [|c l IH]; intros m s t [|n] Hs Hd k; subst k; cbn [strncpy_copy].
  - exists m. cbn. split; [do 2 f_equal; lia|]. intros x. rewrite blit_out by lia. done.
  - apply cstr_nil in Hs as Hc. rewrite Hc. cbn [Z.eqb length].
    exists (upd m s 0). rewrite Nat.min_r by lia. split; [do 2 f_equal; lia|].
    intros x. unfold upd, blit. addr_cases; try reflexivity.
    rewrite <- Hc. f_equal. lia.
  - exists m. cbn. split; [do 2 f_equal; lia|]. intros x. rewrite blit_out by lia. done.
  - apply cstr_cons in Hs as (Hc & Hn & Hs).
    destruct (Z.eqb_spec (m t) 0) as [|_]; [congruence|]. cbn [length] in *.
    destruct (IH (upd m s (m t)) (s + 1) (t + 1) n) as (m' & E & Em).
    + eapply cstr_frame; [exact Hs|]. intros x Hx. apply upd_ne. lia.
    + lia.
    + exists m'. rewrite E. rewrite <- Nat.succ_min_distr. split.
      { apply (f_equal2 pair); [apply (f_equal2 pair); [done|lia]|lia]. }
      intros x. rewrite Em. unfold blit, upd. addr_cases; try reflexivity; f_equal; lia.
Qed.

End StringFacts.

(** ** What the routines do *)

Module StringSpec.
Import KString StringFacts.

(** memset stores the low byte of [c] in the [n] bytes from [dst], on its
    word-at-a-time path and on its byte path alike, and nothing else. *)
Lemma memset_fill m dst c n :
  0 <= dst -> 0 <= n -> mem_eq (memset m dst c n) (fill m dst n (u8 c)).
Proof.
  intros Hd Hn. unfold memset.
  destruct (_ && _)%bool eqn:E; bool_hyps.
  - set (b := Z.land c 0xFF).
    assert (Hb : b = u8 c) by (unfold b, u8; change 0xFF with (Z.ones 8); by rewrite Z.land_ones).
    fold (splat b). rewrite stosl_fill by (rewrite Hb; apply u8_range).
    replace (4 * Z.of_nat (Z.to_nat (n / 4))) with n
      by (pose proof (Z.div_mod n 4); lia).
    by rewrite Hb.
  - rewrite stosb_fill. by rewrite Z2Nat.id.
Qed.

(** memmove is the simultaneous copy of the source block, whatever the
    overlap of the two blocks. *)
Lemma memmove_blit m dst src n :
  0 <= n -> mem_eq (memmove m dst src n) (blit m dst m src n).
Proof.
  intros Hn. unfold memmove.
  destruct (_ && _)%bool eqn:E; bool_hyps.
  - pose proof (copy_down_blit m dst src (Z.to_nat n) ltac:(lia)) as Hc.
    by rewrite Z2Nat.id in Hc.
  - rewrite copy_up_blit; rewrite Z2Nat.id by lia; [reflexivity|].
    intros [??]. rewrite Z.gtb_ltb in E. apply andb_false_iff in E as [E|E]; lia.
Qed.

(** strncpy writes exactly the [n] bytes from [s]: the string up to [n]
    characters, then zeros. *)
Lemma strncpy_bytes m s t l n :
  cstr m t l -> 0 <= n -> (s + n <= t \/ t + Z.of_nat (length l) < s) ->
  forall x, strncpy m s t n x =
    if (s <=? x) && (x <? s + n)
    then default 0 (l !! Z.to_nat (x - s)) else m x.
Proof.
  intros Hl Hn Hd x. unfold strncpy.
  destruct (strncpy_copy_cstr m s t l (Z.to_nat n) Hl ltac:(lia)) as (m' & -> & Hm').
  rewrite strncpy_pad_fill. unfold fill. rewrite Hm'. unfold blit.
  set (k := Nat.min (Z.to_nat n) (S (length l))) in *.
  destruct Hl as [Hl H0].
  destruct (Z_le_dec s x), (Z_lt_dec x (s + n)); addr_cases; try reflexivity.
  - rewrite lookup_ge_None_2 by lia. reflexivity.
  - destruct (l !! Z.to_nat (x - s)) as [c|] eqn:E; cbn.
    + destruct (Hl _ _ E) as [<- _]. f_equal. lia.
    + apply lookup_ge_None in E. rewrite <- H0. f_equal. lia.
Qed.

(** memmove is the simultaneous copy of the source block whatever the
    overlap of the two blocks, and memset stores the low byte of [c] in the
    [n] bytes from [dst], on its word-at-a-time path and on its byte path
    alike; neither touches another byte. *)
Theorem memmove_memset_spec m dst src c n :
  0 <= dst -> 0 <= n ->
  mem_eq (memmove m dst src n) (blit m dst m src n)
  /\ mem_eq (memset m dst c n) (fill m dst n (u8 c)).
Proof. intros Hd Hn. split; [by apply memmove_blit|by apply memset_fill]. Qed.

(** safestrcpy copies at most [n - 1] characters and always terminates the
    target: the result is the source cut to [n - 1] characters. *)
Theorem safestrcpy_spec m s t l n :
  cstr m t l -> 0 < n -> (s + n <= t \/ t + Z.of_nat (length l) < s) ->
  cstr (safestrcpy m s t n) s (take (Z.to_nat (n - 1)) l)
  /\ (forall x, ~ (s <= x < s + n) -> safestrcpy m s t n x = m x).
Proof.
  intros Hl Hn Hd. unfold safestrcpy. destruct (Z.leb_spec n 0); [lia|].
  destruct (strncpy_copy_cstr m s t l (Z.to_nat (n - 1)) Hl ltac:(lia)) as (m' & -> & Hm').
  set (k := Nat.min (Z.to_nat (n - 1)) (S (length l))) in *.
  destruct Hl as [Hl H0]. split.
  - split.
    + intros i c Hi. pose proof (lookup_lt_Some _ _ _ Hi) as Hlt.
      rewrite length_take in Hlt. apply lookup_take_Some in Hi as [Hi _].
      rewrite upd_ne by lia. rewrite Hm', blit_in by lia.
      destruct (Hl _ _ Hi) as [<- ?]. split; [f_equal; lia|].
      replace (s + Z.of_nat i - s + t) with (t + Z.of_nat i) by lia. done.
    + rewrite length_take. unfold upd. destruct (Z.eqb_spec (s + Z.of_nat (Z.to_nat (n - 1) `min` length l)) (s + Z.of_nat k)); [done|].
      rewrite Hm', blit_in by lia. rewrite <- H0. f_equal. lia.
  - intros x Hx. rewrite upd_ne by lia. rewrite Hm', blit_out by lia. done.
Qed.

(** strncmp answers 0 exactly on strings that agree on their first [n]
    characters. *)
Theorem strncmp_eq m p q l1 l2 n :
  cstr m p l1 -> cstr m q l2 -> (strncmp m p q n = 0 <-> take n l1 = take n l2).
Proof.
  revert p q l1 l2. induction n as [|n IH]; intros p q l1 l2 H1 H2; cbn [strncmp].
  { split; reflexivity. }
  destruct l1 as [|c1 l1], l2 as [|c2 l2]; cbn [take].
  - apply cstr_nil in H1, H2. rewrite H1, H2. cbn. split; reflexivity.
  - apply cstr_nil in H1. apply cstr_cons in H2 as (? & ? & _). rewrite H1. cbn.
    split; [lia|discriminate].
  - apply cstr_nil in H2. apply cstr_cons in H1 as (? & ? & _).
    rewrite H2. bool_cases; cbn; (split; [lia|discriminate]).
  - apply cstr_cons in H1 as (<- & ? & H1), H2 as (<- & ? & H2).
    destruct (Z.eqb_spec (m p) 0); [lia|]. destruct (Z.eqb_spec (m p) (m q)) as [E|E]; cbn.
    + rewrite (IH _ _ _ _ H1 H2), E. split; [congruence|by intros [=]].
    + split; [lia|]. intros [=]. lia.
Qed.
End StringSpec.

(** ** Concrete memories *)

(** The string [hi] at 100. *)
Definition hi100 : mem := upd (upd zeroed 100 104) 101 105.

Lemma hi100_cstr : cstr hi100 100 [104; 105].
Proof. repeat (apply cstr_cons; split; [reflexivity|split; [lia|]]). by apply cstr_nil. Qed.

Lemma memmove_memset_spec_witness :
  KString.memmove hi100 101 100 2 102 = 105 /\ KString.memset hi100 200 (-1) 4 203 = 255.
Proof.
  split.
  - rewrite (proj1 (StringSpec.memmove_memset_spec hi100 101 100 0 2 ltac:(lia) ltac:(lia)) 102). reflexivity.
  - rewrite (proj2 (StringSpec.memmove_memset_spec hi100 200 0 (-1) 4 ltac:(lia) ltac:(lia)) 203). reflexivity.
Defined.

Lemma safestrcpy_spec_witness : cstr (KString.safestrcpy hi100 300 100 2) 300 [104].
Proof.
  apply (StringSpec.safestrcpy_spec hi100 300 100 [104; 105] 2 hi100_cstr); [lia|cbn; lia].
Defined.

Lemma strncmp_eq_witness : KString.strncmp hi100 100 101 1 <> 0.
Proof.
  intros E. assert (H1 : cstr hi100 101 [105]).
  { apply cstr_cons. split; [reflexivity|]. split; [lia|]. by apply cstr_nil. }
  apply (StringSpec.strncmp_eq hi100 100 101 [104; 105] [105] 1 hi100_cstr H1) in E. discriminate E.
Defined.

(** Two arrays of at most 64 bytes side by side in one memory, at 0 and 64. *)
Definition side_by_side (s t : list Z) : mem := fun x =>
  if x <? 64 then default 0 (s !! Z.to_nat x) else default 0 (t !! Z.to_nat (x - 64)).

(** [safestrcpy(dst, src, n)] on two arrays: the [n] bytes of [dst] after it. *)
Definition safestrcpy_list (dst src : list Z) (n : Z) : list Z :=
  let m := KString.safestrcpy (side_by_side dst src) 0 64 n in
  map (fun k => m (Z.of_nat k)) (seq 0 (Z.to_nat n)).
