(* ===== verification/Printf.v ===== *)
(** * Formatted output: printint and cprintf of console.c, printint and
    printf of printf.c

    Both formatters are modelled as the sequence of characters they send
    out, from the format string's characters and the argument words.  The
    theorems: the digit buffer never overflows, the decimal text of a number
    reads back as that number, and the kernel's and the user library's
    formatters agree. *)

From S2P Require Import Prelude Mem.
#[local] Open Scope Z_scope.

(** ** Integers *)

(** [digits[d]] of the kernel ("0123456789abcdef") and of the user library
    ("0123456789ABCDEF"). *)
Definition digit_lower (d : Z) : Z := if d <? 10 then 48 + d else 97 + (d - 10).
Definition digit_upper (d : Z) : Z := if d <? 10 then 48 + d else 65 + (d - 10).

(** [do buf[i++] = digits[x % base]; while ((x /= base) != 0);]: the digits,
    least significant first.  [x] is a 32-bit unsigned, so 32 rounds suffice
    for every base from 2 on. *)
Fixpoint digit_loop (fuel : nat) (digits : Z -> Z) (base x : Z) : list Z :=
  match fuel with
  | O => []
  | S f =>
      digits (x mod base) ::
      (if x / base =? 0 then [] else digit_loop f digits base (x / base))
  end.

Definition DIGITFUEL : nat := 32.

(** The buffer filled by printint, in filling order ([buf[0]] first). *)
Definition printint_buf (digits : Z -> Z) (xx base : Z) (sign : bool) : list Z :=
  let neg := sign && (xx <? 0) in
  let x := if neg then u32 (- xx) else u32 xx in
  digit_loop DIGITFUEL digits base x ++ (if neg then [45] else []).

(** [while (--i >= 0) consputc(buf[i]);] *)
Module Kernel.
Definition printint (xx base : Z) (sign : bool) : list Z :=
  rev (printint_buf digit_lower xx base sign).
End Kernel.

Module User.
Definition printint (xx base : Z) (sgn : bool) : list Z :=
  rev (printint_buf digit_upper xx base sgn).
End User.

(** ** Format strings *)

(** The characters of "(null)". *)
Definition null_chars : list Z := [40; 110; 117; 108; 108; 41].

(** The characters that [%s] prints for the pointer [s]; [strs] reads the
    string at a non-null pointer (the address space of the caller). *)
Definition string_arg (strs : Z -> list Z) (s : Z) : list Z :=
  if s =? 0 then null_chars else strs s.

(** [cprintf(fmt, ...)]: the loop over the characters left of the format and
    the argument words left.  [None] is a read past the arguments. *)
Fixpoint cprintf (strs : Z -> list Z) (fmt : list Z) (argp : list Z)
  : option (list Z) :=
  match fmt with
  | [] => Some []
  | c :: fmt1 =>
      if negb (c =? 37) then app [c] <$> cprintf strs fmt1 argp
      else
        match fmt1 with
        | [] => Some []
        | c :: fmt2 =>
            if c =? 100 then
              match argp with
              | [] => None
              | x :: argp => app (Kernel.printint x 10 true) <$> cprintf strs fmt2 argp
              end
            else if (c =? 120) || (c =? 112) then
              match argp with
              | [] => None
              | x :: argp => app (Kernel.printint x 16 false) <$> cprintf strs fmt2 argp
              end
            else if c =? 115 then
              match argp with
              | [] => None
              | s :: argp => app (string_arg strs s) <$> cprintf strs fmt2 argp
              end
            else if c =? 37 then app [37] <$> cprintf strs fmt2 argp
            else app [37; c] <$> cprintf strs fmt2 argp
        end
  end.

(** [printf(fd, fmt, ...)] of the user library: one character of the format
    per round, [state] is 0 or '%'. *)
Fixpoint printf (strs : Z -> list Z) (state : bool) (fmt : list Z) (ap : list Z)
  : option (list Z) :=
  match fmt with
  | [] => Some []
  | c :: fmt =>
      if negb state then
        if c =? 37 then printf strs true fmt ap
        else app [c] <$> printf strs false fmt ap
      else if c =? 100 then
        match ap with
        | [] => None
        | x :: ap => app (User.printint x 10 true) <$> printf strs false fmt ap
        end
      else if (c =? 120) || (c =? 112) then
        match ap with
        | [] => None
        | x :: ap => app (User.printint x 16 false) <$> printf strs false fmt ap
        end
      else if c =? 115 then
        match ap with
        | [] => None
        | s :: ap => app (string_arg strs s) <$> printf strs false fmt ap
        end
      else if c =? 99 then
        match ap with
        | [] => None
        | x :: ap => app [u8 x] <$> printf strs false fmt ap
        end
      else if c =? 37 then app [c] <$> printf strs false fmt ap
      else app [37; c] <$> printf strs false fmt ap
  end.

(** ** Facts on the digit loop *)

(** The number a digit list (least significant first) denotes. *)
Fixpoint value (base : Z) (ds : list Z) : Z :=
  match ds with [] => 0 | d :: ds => d + base * value base ds end.

(** A decimal character list, most significant first, as a reader sees it:
    an optional '-' and then digits. *)
Definition read_nat (cs : list Z) : Z := foldl (fun n c => n * 10 + (c - 48)) 0 cs.

Definition read_int (cs : list Z) : Z :=
  match cs with 45 :: cs => - read_nat cs | _ => read_nat cs end.

Lemma digit_loop_len fuel dg base x :
  2 <= base -> 0 <= x < base ^ Z.of_nat fuel -> (length (digit_loop fuel dg base x) <= fuel)%nat.
Proof.
  revert x. induction fuel as [|f IH]; intros x Hb Hx; cbn [digit_loop length]; [lia|].
  destruct (_ =? _); cbn [length]; [lia|].
  apply le_n_S, IH; [lia|]. split; [apply Z.div_pos; lia|].
  apply Z.div_lt_upper_bound; [lia|]. rewrite Nat2Z.inj_succ, Z.pow_succ_r in Hx; lia.
Qed.

(** More fuel than digits changes nothing. *)
Lemma digit_loop_fuel f1 f2 dg base x :
  2 <= base -> 0 <= x < base ^ Z.of_nat f1 -> (0 < f1 <= f2)%nat ->
  digit_loop f2 dg base x = digit_loop f1 dg base x.
Proof.
  revert f2 x. induction f1 as [|f1 IH]; intros [|f2] x Hb Hx Hf; cbn [digit_loop]; try lia.
  destruct (Z.eqb_spec (x / base) 0) as [|Hne]; [reflexivity|]. f_equal.
  rewrite Nat2Z.inj_succ, Z.pow_succ_r in Hx by lia.
  assert (0 <= x / base < base ^ Z.of_nat f1)
    by (split; [apply Z.div_pos; lia | apply Z.div_lt_upper_bound; lia]).
  assert (0 < f1)%nat by (destruct f1; [cbn in *; lia|lia]).
  apply IH; [done|done|lia].
Qed.

Lemma read_nat_snoc cs c : read_nat (cs ++ [c]) = read_nat cs * 10 + (c - 48).
Proof. unfold read_nat. by rewrite foldl_app. Qed.

Lemma read_digit_loop fuel x :
  0 <= x < 10 ^ Z.of_nat fuel -> (0 < fuel)%nat ->
  read_nat (rev (digit_loop fuel digit_lower 10 x)) = x.
Proof.
  revert x. induction fuel as [|f IH]; intros x Hx Hf; [lia|].
  cbn [digit_loop rev]. rewrite read_nat_snoc. unfold digit_lower.
  pose proof (Z.mod_pos_bound x 10 ltac:(lia)). pose proof (Z.div_mod x 10 ltac:(lia)).
  destruct (Z.ltb_spec (x mod 10) 10); [|lia].
  destruct (Z.eqb_spec (x / 10) 0) as [E|E]; [cbn; lia|].
  rewrite Nat2Z.inj_succ, Z.pow_succ_r in Hx by lia.
  assert (0 <= x / 10 < 10 ^ Z.of_nat f)
    by (split; [apply Z.div_pos; lia | apply Z.div_lt_upper_bound; lia]).
  assert (0 < f)%nat by (destruct f; [cbn in *; lia|lia]).
  rewrite IH; lia.
Qed.

Lemma digit_loop_digits fuel x d :
  0 <= x -> d ∈ digit_loop fuel digit_lower 10 x -> 48 <= d <= 57.
Proof.
  revert x. induction fuel as [|f IH]; intros x Hx; cbn [digit_loop]; [by intros ?%not_elem_of_nil|].
  rewrite elem_of_cons. intros [->|Hd].
  - unfold digit_lower. pose proof (Z.mod_pos_bound x 10 ltac:(lia)).
    destruct (Z.ltb_spec (x mod 10) 10); lia.
  - destruct (_ =? _); [by apply not_elem_of_nil in Hd|].
    apply (IH (x / 10)); [apply Z.div_pos; lia|exact Hd].
Qed.

Lemma digit_loop_upper fuel x :
  0 <= x -> digit_loop fuel digit_upper 10 x = digit_loop fuel digit_lower 10 x.
Proof.
  revert x. induction fuel as [|f IH]; intros x Hx; cbn [digit_loop]; [reflexivity|].
  rewrite IH by (apply Z.div_pos; lia). f_equal.
  unfold digit_upper, digit_lower. pose proof (Z.mod_pos_bound x 10 ltac:(lia)).
  destruct (Z.ltb_spec (x mod 10) 10); [reflexivity|lia].
Qed.

Lemma printint_dec_users xx sgn : User.printint xx 10 sgn = Kernel.printint xx 10 sgn.
Proof.
  unfold User.printint, Kernel.printint, printint_buf.
  rewrite digit_loop_upper; [reflexivity|]. destruct (_ && _)%bool; apply u32_range.
Qed.

(** ** Theorems *)

(** printint never writes past its [char buf[16]], in base 10 or 16. *)
Theorem printint_buf_fits dg xx base sign :
  10 <= base -> (length (printint_buf dg xx base sign) <= 16)%nat.
Proof.
  intros Hb. unfold printint_buf, DIGITFUEL. rewrite length_app.
  set (x := if (sign && (xx <? 0))%bool then u32 (- xx) else u32 xx).
  assert (Hx : is_u32 x) by (subst x; destruct (_ && _)%bool; apply u32_range).
  assert (Hx10 : 0 <= x < base ^ Z.of_nat 10).
  { split; [apply Hx|]. eapply Z.lt_le_trans; [apply Hx|].
    transitivity (10 ^ 10); [lia|]. apply Z.pow_le_mono_l. lia. }
  rewrite (digit_loop_fuel 10 32) by (lia || exact Hx10).
  pose proof (digit_loop_len 10 dg base x ltac:(lia) Hx10).
  destruct (_ && _)%bool; cbn [length]; lia.
Qed.

(** The decimal text that cprintf's %d prints for an int reads back as that
    int, the most negative one included. *)
Theorem printint_roundtrip xx : is_s32 xx -> read_int (Kernel.printint xx 10 true) = xx.
Proof.
  intros Hx. unfold is_s32 in Hx. unfold Kernel.printint, printint_buf, DIGITFUEL. cbn [andb].
  destruct (Z.ltb_spec xx 0).
  - rewrite rev_app_distr. cbn [rev app]. cbn [read_int].
    rewrite (u32_small (- xx)) by (unfold is_u32; lia).
    rewrite read_digit_loop; lia.
  - rewrite app_nil_r, (u32_small xx) by (unfold is_u32; lia).
    pose proof (read_digit_loop 32 xx ltac:(lia) ltac:(lia)) as Hr.
    unfold read_int. destruct (rev _) as [|c cs] eqn:E; [exact Hr|].
    assert (Hc : c ∈ rev (digit_loop 32 digit_lower 10 xx)) by (rewrite E; by constructor).
    apply list_elem_of_In, in_rev, list_elem_of_In, digit_loop_digits in Hc; [|lia].
    assert (Hne : c <> 45) by lia. clear - Hr Hne.
    destruct c as [|p|p]; try exact Hr.
    do 6 (destruct p as [p|p|]; try exact Hr). done.
Qed.

(** A conversion on which the two formatters differ: %x and %p (case of the
    hexadecimal digits) and %c (unknown to the kernel). *)
Fixpoint common_format (fmt : list Z) : bool :=
  match fmt with
  | 37 :: c :: fmt => negb ((c =? 120) || (c =? 112) || (c =? 99)) && common_format fmt
  | _ :: fmt => common_format fmt
  | [] => true
  end.

Lemma common_format_cons c fmt : c <> 37 -> common_format (c :: fmt) = common_format fmt.
Proof.
  intros Hc. destruct c as [|p|p]; try reflexivity.
  do 6 (destruct p as [p|p|]; try reflexivity). congruence.
Qed.

(** The user library's printf prints what the kernel's cprintf prints, on
    every format that keeps to the conversions they share. *)
Theorem printf_cprintf strs fmt args :
  common_format fmt = true -> printf strs false fmt args = cprintf strs fmt args.
Proof.
  remember (length fmt) as n eqn:Hn. assert (Hle : (length fmt <= n)%nat) by lia. clear Hn.
  revert fmt args Hle. induction n as [|n IH]; intros [|c fmt] args Hle Hc;
    cbn [length] in Hle; try reflexivity; try lia.
  cbn [printf cprintf negb]. destruct (Z.eqb_spec c 37) as [->|Hne]; cbn [negb].
  - destruct fmt as [|c fmt]; [reflexivity|]. cbn [length] in Hle.
    cbn [common_format] in Hc. bool_hyps.
    cbn [printf]. rewrite IH by (lia || assumption).
    rewrite (proj2 (Z.eqb_neq c 120)), (proj2 (Z.eqb_neq c 112)), (proj2 (Z.eqb_neq c 99)) by done.
    cbn [orb].
    destruct (Z.eqb_spec c 100); [destruct args; [done|]; by rewrite printint_dec_users, IH by (lia || done)|].
    destruct (Z.eqb_spec c 115); [destruct args; [done|]; by rewrite IH by (lia || done)|].
    destruct (Z.eqb_spec c 37) as [->|]; reflexivity.
  - rewrite common_format_cons in Hc by done. by rewrite IH by (lia || done).
Qed.

Lemma printint_roundtrip_witness : read_int (Kernel.printint (-2147483648) 10 true) = -2147483648.
Proof. apply printint_roundtrip. unfold is_s32. lia. Defined.

(** "n=%d" *)
Lemma printf_cprintf_witness :
  printf (fun _ => []) false [110; 61; 37; 100] [-7] = cprintf (fun _ => []) [110; 61; 37; 100] [-7].
Proof. apply printf_cprintf. reflexivity. Defined.
