(* ===== verification/GfxText.v ===== *)
(** * Numbers and text in the graphics subsystem (graphicsQueueables.c)

    SimpleAbs, GetIntLength, ParseInt, ParseChar, ValueCapper and
    ValueCapperChar.  Strings live in the byte memory of Mem; ints wrap at
    32 bits; a [char] is signed.  Painter.c carries copies of GetIntLength
    and ParseChar with the same text. *)

From S2P Require Import Prelude Mem Printf.
#[local] Open Scope Z_scope.

Definition SimpleAbs (a : Z) : Z := if a <? 0 then s32 (a * -1) else a.

(** [while (xCh > 0) { iter++; xCh /= 10; }]: an int has at most ten
    decimal digits, so eleven rounds always reach the exit. *)
Fixpoint GetIntLength_loop (fuel : nat) (xCh iter : Z) : Z :=
  match fuel with
  | O => iter
  | S f => if xCh >? 0 then GetIntLength_loop f (Z.quot xCh 10) (iter + 1) else iter
  end.

Definition GetIntLength (x : Z) : Z :=
  let iter := if x =? 0 then 1 else 0 in
  GetIntLength_loop 11 x iter.

(** The loop [for (x = strlen - 1; x >= 0; x--)] with [x + 1] characters
    left. *)
Fixpoint ParseInt_loop (m : mem) (p : Z) (n : nat) (holder offsetMP : Z) : Z :=
  match n with
  | O => holder
  | S x =>
      ParseInt_loop m p x
        (s32 (holder + s32 ((s8 (m (p + Z.of_nat x)) - 48) * offsetMP)))
        (s32 (offsetMP * 10))
  end.

(** [ParseInt(charToInt)]; [fuel] bounds strlen's scan. *)
Definition ParseInt (fuel : nat) (m : mem) (charToInt : Z) : option Z :=
  len ← KString.strlen fuel m charToInt;
  Some (ParseInt_loop m charToInt (Z.to_nat len) 0 1).

(** [power = 1; for (y = 1; y < n; y++) power *= 10;] *)
Fixpoint power_loop (n : nat) (power : Z) : Z :=
  match n with
  | O => power
  | S n' => power_loop n' (s32 (power * 10))
  end.

(** The loop of ParseChar over the positions [x, x + n). *)
Fixpoint ParseChar_loop (m : mem) (intToChar outChar len x : Z) (n : nat) : mem :=
  match n with
  | O => m
  | S n' =>
      let power := power_loop (Z.to_nat (len - x - 1)) 1 in
      ParseChar_loop
        (upd m (outChar + x) (u8 (Z.rem (Z.quot intToChar power) 10 + 48)))
        intToChar outChar len (x + 1) n'
  end.

Definition ParseChar (m : mem) (intToChar outChar : Z) : mem :=
  let len := GetIntLength intToChar in
  upd (ParseChar_loop m intToChar outChar len 0 (Z.to_nat len)) (outChar + len) 0.

(** [ValueCapper(&a, capacity)]: the new value, and whether the message about
    the limited value was printed. *)
Definition ValueCapper (a capacity : Z) : Z * bool :=
  let complaint := (a >? capacity) || (a <? 0) in
  let a := if a >? capacity then capacity else a in
  let a := if a <? 0 then 0 else a in
  (a, complaint).

Definition ValueCapperChar (fuel : nat) (m : mem) (a capacity : Z) : option (Z * bool) :=
  parsed ← ParseInt fuel m a;
  Some (ValueCapper parsed capacity).

(** ** Facts *)

Definition is_digit (c : Z) : Prop := 48 <= c <= 57.

(** The [len] low decimal digits of [n] as characters. *)
Fixpoint dec (n : Z) (len : nat) : list Z :=
  match len with O => [] | S l => dec (n / 10) l ++ [n mod 10 + 48] end.

Lemma length_dec n l : length (dec n l) = l.
Proof. revert n. induction l as [|l IH]; intros n; cbn; [done|]. rewrite length_app, IH. cbn. lia. Qed.

Lemma dec_digits n l : Forall is_digit (dec n l).
Proof.
  revert n. induction l as [|l IH]; intros n; cbn; [constructor|].
  apply Forall_app. split; [apply IH|]. constructor; [|constructor].
  unfold is_digit. pose proof (Z.mod_pos_bound n 10). lia.
Qed.

Lemma read_nat_dec n l : 0 <= n < 10 ^ Z.of_nat l -> read_nat (dec n l) = n.
Proof.
  revert n. induction l as [|l IH]; intros n Hn; cbn [dec].
  - cbn in *. lia.
  - rewrite Nat2Z.inj_succ, Z.pow_succ_r in Hn by lia.
    rewrite read_nat_snoc, IH; [pose proof (Z.div_mod n 10); lia|].
    split; [apply Z.div_pos; lia|apply Z.div_lt_upper_bound; lia].
Qed.

Lemma dec_lookup n l i :
  (i < l)%nat -> dec n l !! i = Some (n / 10 ^ Z.of_nat (l - 1 - i) mod 10 + 48).
Proof.
  revert n i. induction l as [|l IH]; intros n i Hi; [lia|]. cbn [dec].
  destruct (Nat.eq_dec i l) as [->|Hne].
  - rewrite lookup_app_r by (rewrite length_dec; lia). rewrite length_dec.
    replace (l - l)%nat with 0%nat by lia. replace (S l - 1 - l)%nat with 0%nat by lia.
    cbn. by rewrite Z.div_1_r.
  - rewrite lookup_app_l by (rewrite length_dec; lia). rewrite IH by lia.
    rewrite Z.div_div by lia. do 3 f_equal.
    replace (S l - 1 - i)%nat with (S (l - 1 - i)) by lia.
    by rewrite Nat2Z.inj_succ, Z.pow_succ_r by lia.
Qed.

Lemma dec_cstr_digits l : Forall is_digit l -> Forall (fun c => c <> 0) l.
Proof. apply List.Forall_impl. unfold is_digit. lia. Qed.

Lemma GetIntLength_loop_spec fuel x it :
  0 <= x < 10 ^ Z.of_nat fuel ->
  exists k, GetIntLength_loop fuel x it = it + Z.of_nat k
    /\ (x = 0 -> k = 0%nat) /\ (0 < x -> (0 < k)%nat /\ 10 ^ (Z.of_nat k - 1) <= x)
    /\ x < 10 ^ Z.of_nat k /\ (k <= fuel)%nat.
Proof.
  revert x it. induction fuel as [|f IH]; intros x it Hx; cbn [GetIntLength_loop].
  - exists 0%nat. cbn in *. repeat split; lia.
  - rewrite Z.gtb_ltb. destruct (Z.ltb_spec 0 x).
    + rewrite Nat2Z.inj_succ, Z.pow_succ_r in Hx by lia.
      rewrite Z.quot_div_nonneg by lia.
      destruct (IH (x / 10) (it + 1)) as (k & E & Hk0 & Hk1 & Hk2 & Hk3).
      { split; [apply Z.div_pos; lia|apply Z.div_lt_upper_bound; lia]. }
      exists (S k). rewrite E, Nat2Z.inj_succ, Z.pow_succ_r by lia.
      pose proof (Z.div_mod x 10 ltac:(lia)). pose proof (Z.mod_pos_bound x 10 ltac:(lia)).
      repeat split; try lia.
      replace (Z.succ (Z.of_nat k) - 1) with (Z.of_nat k) by lia.
      destruct (Z.eq_dec (x / 10) 0) as [E0|].
      * rewrite (Hk0 E0). cbn. lia.
      * destruct Hk1 as [Hk1 Hp]; [pose proof (Z.div_pos x 10); lia|].
        replace (Z.of_nat k) with (Z.succ (Z.of_nat k - 1)) by lia.
        rewrite Z.pow_succ_r by lia. lia.
    + exists 0%nat. replace x with 0 by lia. cbn. repeat split; lia.
Qed.

(** GetIntLength counts the decimal digits of a non-negative int. *)
Lemma GetIntLength_spec x :
  0 <= x < 2 ^ 31 ->
  exists k, GetIntLength x = Z.of_nat k /\ (1 <= k <= 10)%nat
    /\ x < 10 ^ Z.of_nat k /\ (0 < x -> 10 ^ (Z.of_nat k - 1) <= x) /\ (x = 0 -> k = 1%nat).
Proof.
  intros Hx. unfold GetIntLength.
  destruct (GetIntLength_loop_spec 11 x (if x =? 0 then 1 else 0)) as (k & E & H0 & H1 & H2 & H3);
    [cbn; lia|].
  rewrite E. destruct (Z.eqb_spec x 0) as [->|Hne].
  - rewrite (H0 eq_refl). exists 1%nat. cbn. repeat split; lia.
  - destruct H1 as [Hk Hp]; [lia|]. exists k.
    assert (k <= 10)%nat.
    { destruct (Nat.le_gt_cases k 10); [done|]. exfalso.
      assert (10 ^ 10 <= 10 ^ (Z.of_nat k - 1)) by (apply Z.pow_le_mono_r; lia). lia. }
    repeat split; lia.
Qed.

Lemma power_loop_spec n p :
  0 < p -> p * 10 ^ Z.of_nat n < 2 ^ 31 -> power_loop n p = p * 10 ^ Z.of_nat n.
Proof.
  revert p. induction n as [|n IH]; intros p Hp Hb; cbn [power_loop]; [cbn; lia|].
  rewrite Nat2Z.inj_succ, Z.pow_succ_r in * by lia.
  assert (0 < 10 ^ Z.of_nat n) by (apply Z.pow_pos_nonneg; lia).
  rewrite s32_small by (unfold is_s32; nia). rewrite IH by nia. lia.
Qed.

Lemma ParseChar_loop_spec m i out len x n :
  0 <= i -> 10 ^ (len - 1) < 2 ^ 31 -> 0 <= x -> x + Z.of_nat n = len ->
  forall a, ParseChar_loop m i out len x n a =
    if (out + x <=? a) && (a <? out + len)
    then i / 10 ^ (len - 1 - (a - out)) mod 10 + 48 else m a.
Proof.
  revert m x. induction n as [|n IH]; intros m x Hi Hb Hx Hlen a; cbn [ParseChar_loop].
  - addr_cases; reflexivity.
  - assert (10 ^ (len - x - 1) <= 10 ^ (len - 1)) by (apply Z.pow_le_mono_r; lia).
    assert (0 < 10 ^ (len - x - 1)) by (apply Z.pow_pos_nonneg; lia).
    rewrite power_loop_spec by (rewrite ?Z2Nat.id; lia).
    rewrite Z2Nat.id, Z.mul_1_l by lia.
    rewrite Z.quot_div_nonneg, Z.rem_mod_nonneg by (try apply Z.div_pos; lia).
    pose proof (Z.mod_pos_bound (i / 10 ^ (len - x - 1)) 10 ltac:(lia)).
    rewrite u8_small by lia. rewrite IH by lia. unfold upd.
    addr_cases; try reflexivity. subst a. do 4 f_equal. lia.
Qed.

(** ParseChar leaves the decimal text of a non-negative int, NUL-terminated,
    in at most 11 bytes, and nothing else changes. *)
Lemma ParseChar_text m i out :
  0 <= i < 2 ^ 31 ->
  exists k, (1 <= k <= 10)%nat /\ i < 10 ^ Z.of_nat k /\ (0 < i -> 10 ^ (Z.of_nat k - 1) <= i)
    /\ (i = 0 -> k = 1%nat) /\ GetIntLength i = Z.of_nat k
    /\ cstr (ParseChar m i out) out (dec i k)
    /\ forall a, ~ (out <= a <= out + Z.of_nat k) -> ParseChar m i out a = m a.
Proof.
  intros Hi. destruct (GetIntLength_spec i Hi) as (k & E & Hk & Hlt & Hge & H0).
  assert (Hp : 10 ^ (Z.of_nat k - 1) < 2 ^ 31).
  { eapply Z.le_lt_trans; [apply (Z.pow_le_mono_r 10 _ 9)|]; lia. }
  exists k. split; [done|]. split; [done|]. split; [done|]. split; [done|]. split; [done|].
  unfold ParseChar. rewrite E, Nat2Z.id. split.
  - split.
    + intros j c Hj. pose proof (lookup_lt_Some _ _ _ Hj) as Hjk. rewrite length_dec in Hjk.
      rewrite dec_lookup in Hj by lia. injection Hj as Hj. rewrite upd_ne by lia.
      rewrite ParseChar_loop_spec by lia. addr_cases.
      replace (Z.of_nat k - 1 - (out + Z.of_nat j - out)) with (Z.of_nat (k - 1 - j)) by lia.
      split; [exact Hj|]. pose proof (Z.mod_pos_bound (i / 10 ^ Z.of_nat (k - 1 - j)) 10). lia.
    + rewrite length_dec. apply upd_eq.
  - intros a Ha. rewrite upd_ne by lia. rewrite ParseChar_loop_spec by lia. addr_cases; reflexivity.
Qed.

Lemma s32_mod a b : a mod 2 ^ 32 = b mod 2 ^ 32 -> s32 a = s32 b.
Proof. intros H. unfold s32. rewrite (Z.add_mod a), (Z.add_mod b), H by lia. reflexivity. Qed.

Lemma s32_mul_l a b : s32 (s32 a * b) = s32 (a * b).
Proof.
  apply s32_mod. rewrite Z.mul_mod, (Z.mul_mod a) by lia. do 2 f_equal.
  unfold s32. rewrite Zminus_mod_idemp_l. f_equal. lia.
Qed.

Lemma read_nat_nonneg l : Forall is_digit l -> 0 <= read_nat l.
Proof.
  induction l as [|c l IH] using rev_ind; intros H; [cbn; lia|].
  apply Forall_app in H as [H Hc]. rewrite read_nat_snoc.
  inversion Hc as [|? ? Hd _]; subst. unfold is_digit in Hd. specialize (IH H). lia.
Qed.

Lemma ParseInt_loop_spec m p l n holder k :
  Forall is_digit l -> (forall i c, l !! i = Some c -> m (p + Z.of_nat i) = c) ->
  (n <= length l)%nat -> 0 <= holder ->
  holder + 10 ^ Z.of_nat k * read_nat (take n l) < 2 ^ 31 ->
  ParseInt_loop m p n holder (s32 (10 ^ Z.of_nat k)) =
    holder + 10 ^ Z.of_nat k * read_nat (take n l).
Proof.
  intros Hd Hm. revert holder k. induction n as [|n IH]; intros holder k Hn Hh Hb; cbn [ParseInt_loop].
  - change (read_nat (take 0 l)) with 0. rewrite Z.mul_0_r. lia.
  - destruct (lookup_lt_is_Some_2 l n ltac:(lia)) as [c Hc].
    rewrite (take_S_r _ _ _ Hc), read_nat_snoc in *.
    rewrite (Hm _ _ Hc).
    assert (Hcd : is_digit c) by (eapply Forall_lookup_1; eauto).
    assert (0 <= read_nat (take n l)) by (apply read_nat_nonneg, Forall_take, Hd).
    unfold is_digit in Hcd. rewrite s8_small by lia.
    assert (Hpow : 0 < 10 ^ Z.of_nat k) by (apply Z.pow_pos_nonneg; lia).
    assert (E : s32 ((c - 48) * s32 (10 ^ Z.of_nat k)) = (c - 48) * 10 ^ Z.of_nat k).
    { rewrite Z.mul_comm, s32_mul_l, Z.mul_comm. apply s32_small. unfold is_s32. nia. }
    rewrite E, s32_mul_l. rewrite s32_small by (unfold is_s32; nia).
    replace (10 ^ Z.of_nat k * 10) with (10 ^ Z.of_nat (S k))
      by (rewrite Nat2Z.inj_succ, Z.pow_succ_r by lia; lia).
    rewrite Nat2Z.inj_succ, Z.pow_succ_r by lia.
    rewrite <- Z.pow_succ_r, <- Nat2Z.inj_succ by lia.
    rewrite IH; rewrite ?Nat2Z.inj_succ, ?Z.pow_succ_r by lia; [ring|lia|nia|nia].
Qed.

(** ** Theorems *)

(** ParseInt reads a decimal string (leading zeros allowed) that denotes an
    int to that int. *)
Lemma ParseInt_digits fuel m p l :
  cstr m p l -> Forall is_digit l -> read_nat l < 2 ^ 31 -> (length l < fuel)%nat ->
  ParseInt fuel m p = Some (read_nat l).
Proof.
  intros Hs Hd Hb Hf. unfold ParseInt. rewrite (StringFacts.strlen_cstr _ _ _ _ Hs Hf). cbn.
  rewrite Nat2Z.id. f_equal.
  change 1 with (s32 (10 ^ Z.of_nat 0)).
  rewrite (ParseInt_loop_spec m p l) ; rewrite ?take_ge by lia; cbn; try lia; try done.
  intros i c Hi. by apply Hs.
Qed.

(** The text that ParseChar writes for a non-negative int reads back as that
    int through ParseInt: the encoding of the queue's arguments is lossless. *)
Theorem ParseInt_ParseChar fuel m i out :
  0 <= i < 2 ^ 31 -> (11 <= fuel)%nat ->
  ParseInt fuel (ParseChar m i out) out = Some i.
Proof.
  intros Hi Hf. destruct (ParseChar_text m i out Hi) as (k & Hk & Hlt & _ & _ & _ & Hs & _).
  assert (Hr : read_nat (dec i k) = i) by (apply read_nat_dec; lia).
  rewrite (ParseInt_digits fuel _ _ _ Hs); rewrite ?Hr, ?length_dec; try lia; [done|].
  apply dec_digits.
Qed.

(** ValueCapper clamps to [0, capacity], leaves in-range values alone, and
    complains exactly when it changed the value. *)
Lemma ValueCapper_spec a cap :
  0 <= cap ->
  fst (ValueCapper a cap) = Z.max 0 (Z.min a cap)
  /\ (snd (ValueCapper a cap) = true <-> fst (ValueCapper a cap) <> a).
Proof.
  intros Hc. unfold ValueCapper. cbn. rewrite !Z.gtb_ltb.
  destruct (Z.ltb_spec cap a); [destruct (Z.ltb_spec cap 0)|destruct (Z.ltb_spec a 0)]; cbn;
    repeat split; try lia; done.
Qed.

Lemma ParseInt_ParseChar_witness : ParseInt 11 (ParseChar zeroed 319 500) 500 = Some 319.
Proof. apply ParseInt_ParseChar; lia. Defined.
