(* ===== verification/Syscall.v ===== *)
(** * System call entry and argument fetching (syscall.c)

    The memory of the calling process is the byte memory of Mem, [sz] the
    size of its address space ([curproc->sz]) and [esp] its saved stack
    pointer ([curproc->tf->esp]).  Fetching returns [None] where the code
    returns -1. *)

From S2P Require Import Prelude Mem.
#[local] Open Scope Z_scope.
#[local] Open Scope kernel_scope.

(** First kernel virtual address (memlayout.h). *)
Definition KERNBASE : Z := 0x80000000.

(** The part of [struct proc] and its trap frame that argument fetching
    reads. *)
Record ucontext := { u_sz : Z; u_esp : Z }.

(** [fetchint(addr, &i)]: the int at user address [addr]. *)
Definition fetchint (u : ucontext) (m : mem) (addr : Z) : option Z :=
  if (addr >=? u_sz u) || (u32 (addr + 4) >? u_sz u) then None
  else Some (s32 (load32 m addr)).

(** [for (s = *pp; s < ep; s++) if ( *s == 0) return s - *pp; return -1;]
    with [n] characters left before [ep]. *)
Fixpoint fetchstr_loop (m : mem) (pp s : Z) (n : nat) : option Z :=
  match n with
  | O => None
  | S n' => if m s =? 0 then Some (s - pp) else fetchstr_loop m pp (s + 1) n'
  end.

(** [fetchstr(addr, pp)]: the length of the string; the pointer is [addr]. *)
Definition fetchstr (u : ucontext) (m : mem) (addr : Z) : option Z :=
  if addr >=? u_sz u then None
  else fetchstr_loop m addr addr (Z.to_nat (u_sz u - addr)).

Definition argint (u : ucontext) (m : mem) (n : Z) : option Z :=
  fetchint u m (u32 (u_esp u + 4 + 4 * n)).

(** [argptr(n, pp, size)]: the pointer. *)
Definition argptr (u : ucontext) (m : mem) (n size : Z) : option Z :=
  match argint u m n with
  | None => None
  | Some i =>
      if (size <? 0) || (u32 i >=? u_sz u) || (u32 (u32 i + u32 size) >? u_sz u)
      then None
      else Some (u32 i)
  end.

(** [argstr(n, pp)]: the pointer and the length of the string there. *)
Definition argstr (u : ucontext) (m : mem) (n : Z) : option (Z * Z) :=
  match argint u m n with
  | None => None
  | Some i =>
      match fetchstr u m (u32 i) with
      | None => None
      | Some len => Some (u32 i, len)
      end
  end.

(** ** Dispatch *)

(** The table [syscalls[]]: entry 0 is null, the other entries are the
    handlers in the order of gensyscalls.pl. *)
Inductive sysno :=
| SYS_fork | SYS_exit | SYS_wait | SYS_pipe | SYS_read | SYS_kill | SYS_exec
| SYS_fstat | SYS_chdir | SYS_dup | SYS_getpid | SYS_sbrk | SYS_sleep
| SYS_uptime | SYS_open | SYS_write | SYS_mknod | SYS_unlink | SYS_link
| SYS_mkdir | SYS_close | SYS_getch | SYS_setvideomode | SYS_setpixel
| SYS_moveto | SYS_lineto | SYS_setpencolour | SYS_selectpen | SYS_fillrect
| SYS_beginpaint | SYS_endpaint | SYS_getHDC | SYS_writeQueue.

#[export] Instance sysno_eq_dec : EqDecision sysno.
Proof. solve_decision. Defined.

Definition syscalls : list (option sysno) :=
  [None; Some SYS_fork; Some SYS_exit; Some SYS_wait; Some SYS_pipe;
   Some SYS_read; Some SYS_kill; Some SYS_exec; Some SYS_fstat;
   Some SYS_chdir; Some SYS_dup; Some SYS_getpid; Some SYS_sbrk;
   Some SYS_sleep; Some SYS_uptime; Some SYS_open; Some SYS_write;
   Some SYS_mknod; Some SYS_unlink; Some SYS_link; Some SYS_mkdir;
   Some SYS_close; Some SYS_getch; Some SYS_setvideomode; Some SYS_setpixel;
   Some SYS_moveto; Some SYS_lineto; Some SYS_setpencolour;
   Some SYS_selectpen; Some SYS_fillrect; Some SYS_beginpaint;
   Some SYS_endpaint; Some SYS_getHDC; Some SYS_writeQueue].

(** The handler that a system call number selects. *)
Definition syscall_lookup (num : Z) : option sysno :=
  if (num >? 0) && (num <? Z.of_nat (length syscalls))
  then mjoin (syscalls !! Z.to_nat num) else None.

Section dispatch.
Context {S : Type}.
(** The kernel's handlers, and the [eax] register of the calling process's
    trap frame. *)
Context (handler : sysno -> K S Z) (get_eax : S -> Z) (set_eax : Z -> S -> S).
(** The message "%d %s: unknown sys call %d". *)
Context (unknown : Z -> S -> S).

Definition syscall : K S unit :=
  num <- gets (fun s => s32 (get_eax s)) ;;
  match syscall_lookup num with
  | Some f => r <- handler f ;; modify (set_eax (u32 r))
  | None => modify (unknown num) ;;; modify (set_eax (u32 (-1)))
  end.
End dispatch.

(** ** Theorems *)

Lemma fetchint_spec u m addr :
  0 <= addr -> 0 <= u_sz u <= KERNBASE ->
  fetchint u m addr = if addr + 4 <=? u_sz u then Some (s32 (load32 m addr)) else None.
Proof.
  intros Ha Hsz. unfold fetchint, KERNBASE in *.
  destruct (Z.geb_spec addr (u_sz u)); cbn [orb].
  - destruct (Z.leb_spec (addr + 4) (u_sz u)); lia || reflexivity.
  - rewrite u32_small by (unfold is_u32; lia). rewrite Z.gtb_ltb.
    destruct (Z.ltb_spec (u_sz u) (addr + 4)), (Z.leb_spec (addr + 4) (u_sz u)); (lia || reflexivity).
Qed.

Lemma fetchstr_loop_spec m pp s n k :
  fetchstr_loop m pp s n = Some k ->
  s - pp <= k < s - pp + Z.of_nat n /\ m (pp + k) = 0
  /\ forall x, s <= x < pp + k -> m x <> 0.
Proof.
  revert s. induction n as [|n IH]; intros s; cbn [fetchstr_loop]; [discriminate|].
  destruct (Z.eqb_spec (m s) 0) as [E|E].
  - intros [= <-]. replace (pp + (s - pp)) with s by lia. repeat split; lia || exact E.
  - intros (H1 & H2 & H3)%IH. repeat split; try lia. intros x Hx.
    destruct (Z.eq_dec x s) as [->|]; [exact E|]. apply H3. lia.
Qed.

(** C39: A pointer argument that argptr accepts spans [size] bytes that all lie
    in the caller's address space: the 32-bit additions of the check cannot
    wrap below KERNBASE. *)
Theorem argptr_in_bounds u m n size p :
  0 <= u_sz u <= KERNBASE -> size < 2 ^ 31 ->
  argptr u m n size = Some p -> 0 <= p /\ 0 <= size /\ p + size <= u_sz u.
Proof.
  intros Hsz Hsize. unfold argptr. destruct (argint u m n) as [i|]; [|discriminate].
  destruct (_ || _)%bool eqn:E; [discriminate|]. intros [= <-]. bool_hyps.
  pose proof (u32_range i) as Hi. unfold is_u32, KERNBASE in *.
  rewrite (u32_small size) in * by (unfold is_u32; lia).
  rewrite u32_small in * by (unfold is_u32; lia). lia.
Qed.

(** A string argument that argstr accepts is NUL-terminated inside the
    caller's address space, at the length it reports, and no earlier. *)
Theorem argstr_terminated u m n p len :
  argstr u m n = Some (p, len) ->
  0 <= p /\ 0 <= len /\ p + len < u_sz u /\ m (p + len) = 0
  /\ forall x, p <= x < p + len -> m x <> 0.
Proof.
  unfold argstr. destruct (argint u m n) as [i|]; [|discriminate].
  unfold fetchstr. destruct (Z.geb_spec (u32 i) (u_sz u)); [discriminate|].
  destruct (fetchstr_loop _ _ _ _) as [k|] eqn:E; [|discriminate]. intros [= <- <-].
  apply fetchstr_loop_spec in E as (H1 & H2 & H3).
  pose proof (u32_range i). unfold is_u32 in *. repeat split; try lia; assumption.
Qed.

(** A number outside the table runs no handler and answers -1; a number in
    the table runs its handler and stores the handler's result. *)
Theorem syscall_dispatch {S} (handler : sysno -> K S Z) get_eax set_eax unknown s :
  syscall handler get_eax set_eax unknown s =
    match syscall_lookup (s32 (get_eax s)) with
    | Some f =>
        match handler f s with
        | Ok r s' => Ok tt (set_eax (u32 r) s')
        | Panic e => Panic e | Fault e => Fault e | NoFuel => NoFuel
        end
    | None => Ok tt (set_eax (2 ^ 32 - 1) (unknown (s32 (get_eax s)) s))
    end
  /\ (syscall_lookup (s32 (get_eax s)) = None
      <-> ~ (1 <= s32 (get_eax s) <= 33)).
Proof.
  split.
  - unfold syscall, kbind, gets. destruct (syscall_lookup _) as [f|]; [|reflexivity].
    unfold kbind. destruct (handler f s); reflexivity.
  - set (n := s32 (get_eax s)). clearbody n. unfold syscall_lookup.
    change (Z.of_nat (length syscalls)) with 34. rewrite Z.gtb_ltb.
    destruct (Z.ltb_spec 0 n), (Z.ltb_spec n 34); cbn [andb]; try (split; [lia|done]).
    split; [|lia]. intros Hn. exfalso.
    assert (Hk : (1 <= Z.to_nat n < 34)%nat) by lia. revert Hn Hk. generalize (Z.to_nat n).
    intros k Hn Hk. do 34 (destruct k as [|k]; [first [discriminate Hn|lia]|]). lia.
Qed.

(** A process of 0x1000 bytes whose first argument is the address 0x200. *)
Definition ctx1 : ucontext := {| u_sz := 0x1000; u_esp := 0x100 |}.
Definition mem1 : mem := upd (upd zeroed 0x105 2) 0x200 65.

Lemma argptr_in_bounds_witness :
  argptr ctx1 mem1 0 16 = Some 0x200 /\ 0 <= 0x200 /\ 0 <= 16 /\ 0x200 + 16 <= 0x1000.
Proof. split; [reflexivity|]. apply (argptr_in_bounds ctx1 mem1 0 16 0x200); [cbn; unfold KERNBASE; lia|lia|reflexivity]. Defined.

Lemma argstr_terminated_witness : mem1 0x201 = 0 /\ 0x200 + 1 < 0x1000.
Proof.
  assert (E : argstr ctx1 mem1 0 = Some (0x200, 1)) by reflexivity.
  destruct (argstr_terminated ctx1 mem1 0 0x200 1 E) as (_ & _ & H1 & H2 & _).
  split; [exact H2|exact H1].
Defined.
