(* ===== verification/Graphics.v ===== *)
(** * Device contexts, drawing and the command queue
    (rect.h, hdc.h, graphicsQueueables.c, graphics.c)

    The state holds what these files touch: the address space of the calling
    process and the kernel stack (one byte memory), the static [hdcVals], the
    video memory behind [P2V(0xA0000)], the bytes sent to I/O ports, the
    messages printed, and the static spin lock.  Two pieces of uninitialised
    stack are state components, because the code reads or copies them:
    [g_frame], the slot of the local [commandItemTemp], and [g_junkq], the
    command queue of the local [item].

    Indexing [hdcObjects], [commandQueue] or [args] outside its bounds is a
    fault: the C program reads or overwrites neighbouring memory there. *)

From S2P Require Import Prelude Mem GfxText Syscall.
From Stdlib Require Import String.
#[local] Open Scope Z_scope.
#[local] Open Scope kernel_scope.

(** ** Data (hdc.h) *)

(** The functions whose address [queuedAction] can hold. *)
Inductive qaction :=
| PixelSetterFuncQueue | LineDrawFunc | MovePosFunc | DeclarePenFunc
| GetPenFunc | DrawRect.

(** [struct commandBuffer]: [args] is the array of 20 [struct argVal] of 100
    bytes, argument [k] at offset [100 * k]. *)
Record commandBuffer := {
  queuedAction : qaction;
  args : mem;
  lastArgSet : Z;
  buffset : Z }.

Record hdc := {
  h_init : Z;
  h_x : Z;
  h_y : Z;
  h_penIndex : Z;
  h_commandQueue : list commandBuffer;
  h_queueEnd : Z }.

Definition NHDC : Z := 5.
Definition NQUEUE : Z := 50.
Definition NARGS : Z := 20.
Definition ARGSIZE : Z := 100.

Record gstate := {
  g_mem : mem;
  hdcVals : list hdc;
  g_vram : mem;
  g_ports : list (Z * Z);
  g_console : list string;
  g_frame : commandBuffer;
  g_junkq : list commandBuffer;
  g_locked : bool;
  lockinit : Z }.

Definition set_mem m s := {| g_mem := m; hdcVals := hdcVals s; g_vram := g_vram s;
  g_ports := g_ports s; g_console := g_console s; g_frame := g_frame s;
  g_junkq := g_junkq s; g_locked := g_locked s; lockinit := lockinit s |}.
Definition set_hdcVals h s := {| g_mem := g_mem s; hdcVals := h; g_vram := g_vram s;
  g_ports := g_ports s; g_console := g_console s; g_frame := g_frame s;
  g_junkq := g_junkq s; g_locked := g_locked s; lockinit := lockinit s |}.
Definition set_vram v s := {| g_mem := g_mem s; hdcVals := hdcVals s; g_vram := v;
  g_ports := g_ports s; g_console := g_console s; g_frame := g_frame s;
  g_junkq := g_junkq s; g_locked := g_locked s; lockinit := lockinit s |}.
Definition set_ports p s := {| g_mem := g_mem s; hdcVals := hdcVals s; g_vram := g_vram s;
  g_ports := p; g_console := g_console s; g_frame := g_frame s;
  g_junkq := g_junkq s; g_locked := g_locked s; lockinit := lockinit s |}.
Definition set_console c s := {| g_mem := g_mem s; hdcVals := hdcVals s; g_vram := g_vram s;
  g_ports := g_ports s; g_console := c; g_frame := g_frame s;
  g_junkq := g_junkq s; g_locked := g_locked s; lockinit := lockinit s |}.
Definition set_frame f s := {| g_mem := g_mem s; hdcVals := hdcVals s; g_vram := g_vram s;
  g_ports := g_ports s; g_console := g_console s; g_frame := f;
  g_junkq := g_junkq s; g_locked := g_locked s; lockinit := lockinit s |}.
Definition set_lock l i s := {| g_mem := g_mem s; hdcVals := hdcVals s; g_vram := g_vram s;
  g_ports := g_ports s; g_console := g_console s; g_frame := g_frame s;
  g_junkq := g_junkq s; g_locked := l; lockinit := i |}.

Abbreviation G := (K gstate).

Definition cprintf (msg : string) : G unit := modify (fun s => set_console (g_console s ++ [msg]) s).

Definition outb (port data : Z) : G unit := modify (fun s => set_ports (g_ports s ++ [(port, u8 data)]) s).

(** [hdcVals.hdcObjects[i]] read, and written through [f]. *)
Definition hdcObject (i : Z) : G hdc := fun s =>
  match (if (0 <=? i) && (i <? NHDC) then hdcVals s !! Z.to_nat i else None) with
  | Some h => Ok h s
  | None => Fault "hdcObjects"
  end.

Definition set_hdcObject (i : Z) (h : hdc) : G unit := fun s =>
  if (0 <=? i) && (i <? NHDC) then Ok tt (set_hdcVals (<[Z.to_nat i := h]> (hdcVals s)) s)
  else Fault "hdcObjects".

Definition with_pos (x y : Z) (h : hdc) : hdc :=
  {| h_init := h_init h; h_x := x; h_y := y; h_penIndex := h_penIndex h;
     h_commandQueue := h_commandQueue h; h_queueEnd := h_queueEnd h |}.
Definition with_pen (p : Z) (h : hdc) : hdc :=
  {| h_init := h_init h; h_x := h_x h; h_y := h_y h; h_penIndex := p;
     h_commandQueue := h_commandQueue h; h_queueEnd := h_queueEnd h |}.
Definition with_queue (q : list commandBuffer) (e : Z) (h : hdc) : hdc :=
  {| h_init := h_init h; h_x := h_x h; h_y := h_y h; h_penIndex := h_penIndex h;
     h_commandQueue := q; h_queueEnd := e |}.

(** ** Drawing (graphicsQueueables.c) *)

(** strlen's scan in ParseInt; a page is more than any argument string. *)
Definition STRFUEL : nat := 4096.

Definition parse (m : mem) (p : Z) : G Z := fun s =>
  match ParseInt STRFUEL m p with Some v => Ok v s | None => NoFuel end.

Definition PixelSetterFunc (hdc x y : Z) : G unit :=
  let offset := u16 (s32 (s32 (320 * y) + x)) in
  h <- hdcObject hdc ;;
  modify (fun s => set_vram (upd (g_vram s) offset (u8 (h_penIndex h))) s).

Definition MovePos (hdc x y : Z) : G unit :=
  h <- hdcObject hdc ;; set_hdcObject hdc (with_pos x y h).

(** The loop of XIncPlotter with [n] columns left. *)
Fixpoint XInc_loop (hdc xInc yInc direc : Z) (curX curY D : Z) (n : nat) : G unit :=
  match n with
  | O => kret tt
  | S n' =>
      PixelSetterFunc hdc curX curY ;;;
      let '(curY, D) :=
        if D >=? 0 then (curY + direc, s32 (D - 2 * xInc)) else (curY, D) in
      XInc_loop hdc xInc yInc direc (curX + 1) curY (s32 (D + 2 * yInc)) n'
  end.

Definition XIncPlotter (x0 y0 x1 y1 hdc : Z) : G unit :=
  let xInc := SimpleAbs (s32 (x1 - x0)) in
  let yInc := SimpleAbs (s32 (y1 - y0)) in
  let direc := if y0 >? y1 then -1 else 1 in
  XInc_loop hdc xInc yInc direc x0 y0 (s32 (2 * yInc - xInc)) (Z.to_nat (x1 - x0 + 1)).

Fixpoint YInc_loop (hdc xInc yInc direc : Z) (curX curY D : Z) (n : nat) : G unit :=
  match n with
  | O => kret tt
  | S n' =>
      PixelSetterFunc hdc curX curY ;;;
      let '(curX, D) :=
        if D >=? 0 then (curX + direc, s32 (D - 2 * yInc)) else (curX, D) in
      YInc_loop hdc xInc yInc direc curX (curY + 1) (s32 (D + 2 * xInc)) n'
  end.

Definition YIncPlotter (x0 y0 x1 y1 hdc : Z) : G unit :=
  let xInc := SimpleAbs (s32 (x1 - x0)) in
  let yInc := SimpleAbs (s32 (y1 - y0)) in
  let direc := if x0 >? x1 then -1 else 1 in
  YInc_loop hdc xInc yInc direc x0 y0 (s32 (2 * xInc - yInc)) (Z.to_nat (y1 - y0 + 1)).

Definition LineDraw (x0 y0 x1 y1 hdc : Z) : G unit :=
  let xDif := s32 (x1 - x0) in
  let yDif := s32 (y1 - y0) in
  if SimpleAbs yDif <? SimpleAbs xDif then
    if xDif <=? 0 then XIncPlotter x1 y1 x0 y0 hdc else XIncPlotter x0 y0 x1 y1 hdc
  else
    if yDif <=? 0 then YIncPlotter x1 y1 x0 y0 hdc else YIncPlotter x0 y0 x1 y1 hdc.

(** *** The queued actions; [a] is the argument array they receive *)

Definition arg (a : mem) (k : Z) : G Z := parse a (ARGSIZE * k).

Definition PixelSetterFuncQueue_run (a : mem) : G Z :=
  hdc <- arg a 0 ;; x <- arg a 1 ;; y <- arg a 2 ;;
  let offset := u16 (s32 (s32 (320 * y) + x)) in
  h <- hdcObject hdc ;;
  modify (fun s => set_vram (upd (g_vram s) offset (u8 (h_penIndex h))) s) ;;;
  kret 0.

Definition LineDrawFunc_run (a : mem) : G Z :=
  hdc <- arg a 0 ;;
  h <- hdcObject hdc ;;
  let x0 := h_x h in
  let y0 := h_y h in
  x1 <- arg a 1 ;; y1 <- arg a 2 ;;
  let xDif := s32 (x1 - x0) in
  let yDif := s32 (y1 - y0) in
  (if SimpleAbs yDif <? SimpleAbs xDif then
     if xDif <=? 0 then XIncPlotter x1 y1 x0 y0 hdc else XIncPlotter x0 y0 x1 y1 hdc
   else
     if yDif <=? 0 then YIncPlotter x1 y1 x0 y0 hdc else YIncPlotter x0 y0 x1 y1 hdc) ;;;
  MovePos hdc x1 y1 ;;;
  kret 0.

Definition MovePosFunc_run (a : mem) : G Z :=
  hdc <- arg a 0 ;; x <- arg a 1 ;; y <- arg a 2 ;;
  h <- hdcObject hdc ;; set_hdcObject hdc (with_pos x y h) ;;;
  kret 0.

Definition DeclarePenFunc_run (a : mem) : G Z :=
  index <- arg a 1 ;; r <- arg a 2 ;; g <- arg a 3 ;; b <- arg a 4 ;;
  outb 0x3C8 index ;;; outb 0x3C9 r ;;; outb 0x3C9 g ;;; outb 0x3C9 b ;;;
  kret 0.

Definition GetPenFunc_run (a : mem) : G Z :=
  hdc <- arg a 0 ;; index <- arg a 1 ;;
  h <- hdcObject hdc ;; set_hdcObject hdc (with_pen index h) ;;;
  kret 0.

(** [for (y = bottom; y <= top; y++) LineDraw(left, y, right, y, hdc)] with
    [n] rows left. *)
Fixpoint DrawRect_loop (left right hdc y : Z) (n : nat) : G unit :=
  match n with
  | O => kret tt
  | S n' => LineDraw left y right y hdc ;;; DrawRect_loop left right hdc (y + 1) n'
  end.

Definition DrawRect_run (a : mem) : G Z :=
  hdc <- arg a 0 ;; top <- arg a 1 ;; left <- arg a 2 ;; bottom <- arg a 3 ;; right <- arg a 4 ;;
  DrawRect_loop left right hdc bottom (Z.to_nat (top - bottom + 1)) ;;;
  kret 0.

(** A call through the function pointer. *)
Definition run_action (c : commandBuffer) : G Z :=
  match queuedAction c with
  | PixelSetterFuncQueue => PixelSetterFuncQueue_run (args c)
  | LineDrawFunc => LineDrawFunc_run (args c)
  | MovePosFunc => MovePosFunc_run (args c)
  | DeclarePenFunc => DeclarePenFunc_run (args c)
  | GetPenFunc => GetPenFunc_run (args c)
  | DrawRect => DrawRect_run (args c)
  end.

(** ** Queuing (graphicsQueueables.c) *)

Section queue.
(** Stack addresses of the locals [str] (of the Append functions) and
    [tmpArg] (of AppendArg). *)
Context (STR TMP : Z).

(** [AppendArg(argument, &commandItemTemp)]; [sizeof(argument)] is the size
    of a pointer. *)
Definition SIZEOF_PTR : Z := 4.

Definition with_arg (a : mem) (last set : Z) (c : commandBuffer) : commandBuffer :=
  {| queuedAction := queuedAction c; args := a; lastArgSet := last; buffset := set |}.

Definition AppendArg (argument : Z) : G unit :=
  modify (fun s =>
    let c := g_frame s in
    if negb (buffset c =? 1) then set_frame (with_arg (args c) 0 1 c) s else s) ;;;
  modify (fun s => set_mem (KString.strncpy (g_mem s) TMP argument SIZEOF_PTR) s) ;;;
  c <- gets g_frame ;;
  if (0 <=? lastArgSet c) && (lastArgSet c <? NARGS) then
    modify (fun s =>
      set_frame (with_arg (blit (args c) (ARGSIZE * lastArgSet c) (g_mem s) TMP ARGSIZE)
                          (s32 (lastArgSet c + 1)) (buffset c) c) s)
  else fault "args".

(** [commandItemTemp.queuedAction = f;] and [ParseChar(hdc, str);] *)
Definition start_command (f : qaction) (hdc : Z) : G unit :=
  modify (fun s =>
    let c := g_frame s in
    set_frame {| queuedAction := f; args := args c; lastArgSet := lastArgSet c;
                 buffset := buffset c |} s) ;;;
  modify (fun s => set_mem (ParseChar (g_mem s) hdc STR) s).

(** [ParseChar(ValueCapperChar(a, capacity), a);] *)
Definition cap_arg (a capacity : Z) : G unit :=
  v <- (fun s => match ValueCapperChar STRFUEL (g_mem s) a capacity with
                 | Some v => Ok v s | None => NoFuel end) ;;
  (if snd v : bool then cprintf "A supplied value exceeded its capacity and was limited"
   else kret tt) ;;;
  modify (fun s => set_mem (ParseChar (g_mem s) (fst v) a) s).

(** [commandItemTemp.buffset = 0;] and the copy into the queue. *)
Definition push_command (hdc : Z) : G Z :=
  modify (fun s => let c := g_frame s in set_frame (with_arg (args c) (lastArgSet c) 0 c) s) ;;;
  h <- hdcObject hdc ;;
  let lastIndex := h_queueEnd h in
  c <- gets g_frame ;;
  if (0 <=? lastIndex) && (lastIndex <? NQUEUE) then
    set_hdcObject hdc
      (with_queue (<[Z.to_nat lastIndex := c]> (h_commandQueue h)) (s32 (lastIndex + 1)) h) ;;;
    kret 0
  else fault "commandQueue".

Definition AppendPixel (hdc x y : Z) : G Z :=
  start_command PixelSetterFuncQueue hdc ;;;
  cap_arg x 319 ;;; cap_arg y 199 ;;;
  AppendArg STR ;;; AppendArg x ;;; AppendArg y ;;;
  push_command hdc.

Definition AppendLineTo (hdc x1 y1 : Z) : G Z :=
  start_command LineDrawFunc hdc ;;;
  cap_arg x1 319 ;;; cap_arg y1 199 ;;;
  AppendArg STR ;;; AppendArg x1 ;;; AppendArg y1 ;;;
  push_command hdc.

Definition AppendCursorMove (hdc x1 y1 : Z) : G Z :=
  start_command MovePosFunc hdc ;;;
  cap_arg x1 319 ;;; cap_arg y1 199 ;;;
  AppendArg STR ;;; AppendArg x1 ;;; AppendArg y1 ;;;
  push_command hdc.

Definition AppendDeclarePen (hdc index r g b : Z) : G Z :=
  start_command DeclarePenFunc hdc ;;;
  cap_arg index 50 ;;; cap_arg r 63 ;;; cap_arg g 63 ;;; cap_arg b 63 ;;;
  AppendArg STR ;;; AppendArg index ;;; AppendArg r ;;; AppendArg g ;;; AppendArg b ;;;
  push_command hdc.

Definition AppendGetPen (hdc index : Z) : G Z :=
  start_command GetPenFunc hdc ;;;
  cap_arg index 50 ;;;
  AppendArg STR ;;; AppendArg index ;;;
  push_command hdc.

Definition AppendDrawRect (hdc topY botY topX botX : Z) : G Z :=
  start_command DrawRect hdc ;;;
  cap_arg topY 199 ;;; cap_arg botY 199 ;;; cap_arg topX 319 ;;; cap_arg botX 319 ;;;
  AppendArg STR ;;; AppendArg topY ;;; AppendArg botX ;;; AppendArg botY ;;; AppendArg topX ;;;
  push_command hdc.

(** [sys_writeQueue]: the results of the fetches are not looked at, so a
    failed fetch leaves the local's stack junk; [sizeof( *set) < 0] passes
    the size 0 to argptr. *)
Definition sys_writeQueue (u : ucontext) (junk_hdc junk_op junk_set : Z) : G Z :=
  m <- gets g_mem ;;
  let hdc := default junk_hdc (argint u m 0) in
  let opType := default junk_op (argint u m 1) in
  let set := default junk_set (argptr u m 2 0) in
  let arg0 := load32 m set in
  let arg1 := load32 m (set + 4) in
  let arg2 := load32 m (set + 8) in
  let arg3 := load32 m (set + 12) in
  (if opType =? 0 then AppendPixel hdc arg0 arg1 ;;; kret tt
   else if opType =? 1 then AppendLineTo hdc arg0 arg1 ;;; kret tt
   else if opType =? 2 then AppendCursorMove hdc arg0 arg1 ;;; kret tt
   else if opType =? 3 then AppendDeclarePen hdc arg0 arg1 arg2 arg3 ;;; kret tt
   else if opType =? 4 then AppendGetPen hdc arg0 ;;; kret tt
   else if opType =? 5 then AppendDrawRect hdc arg0 arg1 arg2 arg3 ;;; kret tt
   else kret tt) ;;;
  kret 1.
End queue.

(** ** System calls (graphics.c) *)

Definition clear320x200x256 : G unit :=
  modify (fun s => set_vram (KString.memset (g_vram s) 0 0 (320 * 200)) s).

(** [ValueCapper(&v, capacity)] on a local. *)
Definition capped (v capacity : Z) : G Z :=
  (if snd (ValueCapper v capacity) : bool
   then cprintf "A supplied value exceeded its capacity and was limited" else kret tt) ;;;
  kret (fst (ValueCapper v capacity)).

Definition fail (msg : string) : G Z := cprintf msg ;;; kret (-1).

Definition sys_setpixel (u : ucontext) : G Z :=
  m <- gets g_mem ;;
  match argint u m 0, argint u m 1, argint u m 2 with
  | Some hdc, Some x, Some y =>
      if hdc <? 0 then fail "Invalid HDC value"
      else
        x <- capped x 319 ;; y <- capped y 199 ;;
        PixelSetterFunc hdc x y ;;; kret 0
  | _, _, _ => fail "An error occured in the pixel setter function"
  end.

Definition sys_moveto (u : ucontext) : G Z :=
  m <- gets g_mem ;;
  match argint u m 0, argint u m 1, argint u m 2 with
  | Some hdc, Some x, Some y =>
      if hdc <? 0 then fail "Invalid HDC value"
      else
        x <- capped x 319 ;; y <- capped y 199 ;;
        MovePos hdc x y ;;; kret 0
  | _, _, _ => fail "An error occured in the movement function"
  end.

Definition sys_lineto (u : ucontext) : G Z :=
  m <- gets g_mem ;;
  match argint u m 0, argint u m 1, argint u m 2 with
  | Some hdc, Some nx, Some ny =>
      if hdc <? 0 then fail "Invalid HDC value"
      else
        nx <- capped nx 319 ;; ny <- capped ny 199 ;;
        h <- hdcObject hdc ;;
        LineDraw (h_x h) (h_y h) nx ny hdc ;;;
        MovePos hdc nx ny ;;; kret 0
  | _, _, _ => fail "An error occured in the line function"
  end.

Definition sys_setpencolour (u : ucontext) : G Z :=
  m <- gets g_mem ;;
  match argint u m 0, argint u m 1, argint u m 2, argint u m 3 with
  | Some index, Some r, Some g, Some b =>
      r <- capped r 63 ;; g <- capped g 63 ;; b <- capped b 63 ;;
      if index <? 16 then fail "This operation would overwrite a system pen"
      else if index >? 255 then fail "This operation would write to a pen outside of the allocated memory"
      else
        outb 0x3C8 index ;;; outb 0x3C9 r ;;; outb 0x3C9 g ;;; outb 0x3C9 b ;;;
        kret 0
  | _, _, _, _ => fail "An error occured in the pen creator function"
  end.

Definition sys_selectpen (u : ucontext) : G Z :=
  m <- gets g_mem ;;
  match argint u m 0, argint u m 1 with
  | Some hdc, Some index =>
      if hdc <? 0 then fail "Invalid HDC value"
      else if index >? 255 then fail "This operation would get a pen outside of the allocated memory"
      else
        h <- hdcObject hdc ;; set_hdcObject hdc (with_pen index h) ;;; kret 0
  | _, _ => fail "An error occured in the pen selector function"
  end.

(** Fields of the user's [struct rect] (rect.h), by offset. *)
Definition RECT_top : Z := 0.
Definition RECT_left : Z := 4.
Definition RECT_bottom : Z := 8.
Definition RECT_right : Z := 12.

Definition load_int (m : mem) (a : Z) : Z := s32 (load32 m a).

(** [ValueCapper(&p->field, capacity)], in the user's memory. *)
Definition cap_field (a capacity : Z) : G unit :=
  v <- gets (fun s => load_int (g_mem s) a) ;;
  v <- capped v capacity ;;
  modify (fun s => set_mem (store32 (g_mem s) a v) s).

(** The loop of sys_fillrect reads the rectangle again on every round. *)
Fixpoint fillrect_loop (fuel : nat) (p hdc y : Z) : G unit :=
  match fuel with
  | O => nofuel
  | S f =>
      m <- gets g_mem ;;
      if y <=? load_int m (p + RECT_top) then
        LineDraw (load_int m (p + RECT_left)) y (load_int m (p + RECT_right)) y hdc ;;;
        fillrect_loop f p hdc (y + 1)
      else kret tt
  end.

(** The rows are capped to 0..199, so 201 rounds reach the exit. *)
Definition sys_fillrect (u : ucontext) : G Z :=
  m <- gets g_mem ;;
  match argint u m 0, argptr u m 1 0 with
  | Some hdc, Some p =>
      if hdc <? 0 then fail "Invalid HDC value"
      else
        cap_field (p + RECT_top) 199 ;;; cap_field (p + RECT_bottom) 199 ;;;
        cap_field (p + RECT_left) 319 ;;; cap_field (p + RECT_right) 319 ;;;
        y0 <- gets (fun s => load_int (g_mem s) (p + RECT_bottom)) ;;
        fillrect_loop 201 p hdc y0 ;;;
        kret 0
  | _, _ => kret (-1)
  end.

(** The static spin lock, as one thread sees it: acquiring a lock it already
    holds panics. *)
Definition acquire : G unit :=
  l <- gets g_locked ;;
  if (l : bool) then panic "acquire" else modify (fun s => set_lock true (lockinit s) s).
Definition release : G unit :=
  l <- gets g_locked ;;
  if (l : bool) then modify (fun s => set_lock false (lockinit s) s) else panic "release".

(** [struct hdc item;] with its first fields set; the queue is the stack's. *)
Definition fresh_item (init : Z) (q : list commandBuffer) : hdc :=
  {| h_init := init; h_x := 0; h_y := 0; h_penIndex := 15;
     h_commandQueue := q; h_queueEnd := 0 |}.

Definition sys_beginpaint (u : ucontext) : G Z :=
  li <- gets lockinit ;;
  (if negb (li =? 1) then modify (fun s => set_lock false 1 s) else kret tt) ;;;
  m <- gets g_mem ;;
  match argint u m 0 with
  | None => kret (-1)
  | Some _ =>
      acquire ;;;
      r <- first_of [0; 1; 2; 3; 4] (fun index =>
        h <- hdcObject index ;;
        if h_init h =? 0 then
          q <- gets g_junkq ;;
          set_hdcObject index (fresh_item 1 q) ;;;
          release ;;;
          kret (Some index)
        else kret None) ;;
      match r with
      | Some index => kret index
      | None => release ;;; kret (-1)
      end
  end.

(** [for (i = 0; i < queueEnd; i++) commandQueue[i].queuedAction(...)]: the
    bound and the command are read again on every round; the queue has 50
    entries, so 51 rounds reach the exit or leave the array. *)
Fixpoint exec_loop (fuel : nat) (hdc i : Z) : G unit :=
  match fuel with
  | O => nofuel
  | S f =>
      h <- hdcObject hdc ;;
      if i <? h_queueEnd h then
        c <- of_opt "commandQueue" (h_commandQueue h !! Z.to_nat i) ;;
        run_action c ;;;
        exec_loop f hdc (i + 1)
      else kret tt
  end.

Definition sys_endpaint (u : ucontext) : G Z :=
  m <- gets g_mem ;;
  match argint u m 0, argint u m 1 with
  | Some hdc, Some executeQueue =>
      if hdc <? 0 then kret (-1)
      else
        acquire ;;;
        (if executeQueue =? 1 then exec_loop 51 hdc 0 else kret tt) ;;;
        h <- hdcObject hdc ;;
        if h_init h =? 1 then
          q <- gets g_junkq ;;
          set_hdcObject hdc (fresh_item 0 q) ;;;
          release ;;;
          kret 0
        else
          release ;;;
          kret (-1)
  | _, _ => kret (-1)
  end.

Definition sys_getHDC (u : ucontext) : G Z :=
  m <- gets g_mem ;;
  match argint u m 0 with
  | None => kret (-1)
  | Some hdc =>
      if (hdc >? 5) || (hdc <? 0) then kret (-1)
      else
        h <- hdcObject hdc ;;
        if h_init h =? 1 then kret 0 else kret (-1)
  end.
