(* ===== verification/Lines.v ===== *)
(** * Line drawing: the plotters draw Bresenham lines

    The two plotters of graphicsQueueables.c are shown to paint a list of
    points with the pen of the device context, and the list to be a correct
    rasterisation: both end points, one point per step of the longer axis,
    neighbouring points adjacent, and no point further than half a pixel
    from the ideal line, hence none outside the end points' bounding box. *)

From S2P Require Import Prelude Mem GfxText Syscall Graphics.
#[local] Open Scope Z_scope.
#[local] Open Scope kernel_scope.

(** ** Painting a list of points *)

Definition pixel_offset (x y : Z) : Z := u16 (s32 (s32 (320 * y) + x)).

Definition paint (pen : Z) (v : mem) (pts : list (Z * Z)) : mem :=
  foldl (fun v p => upd v (pixel_offset (fst p) (snd p)) pen) v pts.

Definition on_screen (x y : Z) : Prop := 0 <= x < 320 /\ 0 <= y < 200.

(** The device context [i] is inside [hdcObjects] and holds [h]. *)
Definition has_hdc (s : gstate) (i : Z) (h : hdc) : Prop :=
  0 <= i < NHDC /\ hdcVals s !! Z.to_nat i = Some h.

Lemma hdcObject_ok s i h : has_hdc s i h -> hdcObject i s = Ok h s.
Proof.
  intros [Hi Hl]. unfold hdcObject.
  replace ((0 <=? i) && (i <? NHDC))%bool with true by lia. by rewrite Hl.
Qed.

Lemma set_hdcObject_ok s i h :
  0 <= i < NHDC -> set_hdcObject i h s = Ok tt (set_hdcVals (<[Z.to_nat i := h]> (hdcVals s)) s).
Proof. intros Hi. unfold set_hdcObject. by replace ((0 <=? i) && (i <? NHDC))%bool with true by lia. Qed.

Lemma pixel_ok s i h x y :
  has_hdc s i h ->
  PixelSetterFunc i x y s = Ok tt (set_vram (paint (u8 (h_penIndex h)) (g_vram s) [(x, y)]) s).
Proof. intros H. unfold PixelSetterFunc. by rewrite (kbind_ok _ _ _ _ _ (hdcObject_ok _ _ _ H)). Qed.

Lemma MovePos_ok s i h x y :
  has_hdc s i h ->
  MovePos i x y s = Ok tt (set_hdcVals (<[Z.to_nat i := with_pos x y h]> (hdcVals s)) s).
Proof.
  intros H. unfold MovePos. rewrite (kbind_ok _ _ _ _ _ (hdcObject_ok _ _ _ H)).
  apply set_hdcObject_ok, H.
Qed.

Lemma set_vram_twice v v' s : set_vram v (set_vram v' s) = set_vram v s.
Proof. reflexivity. Qed.

Lemma set_vram_id s : set_vram (g_vram s) s = s.
Proof. by destruct s. Qed.

Lemma has_hdc_vram s v i h : has_hdc (set_vram v s) i h <-> has_hdc s i h.
Proof. reflexivity. Qed.

(** ** The points of a plotter's loop *)

Fixpoint xinc_points (xInc yInc direc curX curY D : Z) (n : nat) : list (Z * Z) :=
  match n with
  | O => []
  | S n' =>
      (curX, curY) ::
      (if D >=? 0
       then xinc_points xInc yInc direc (curX + 1) (curY + direc)
              (s32 (s32 (D - 2 * xInc) + 2 * yInc)) n'
       else xinc_points xInc yInc direc (curX + 1) curY (s32 (D + 2 * yInc)) n')
  end.

Definition swap (p : Z * Z) : Z * Z := (snd p, fst p).

Lemma XInc_loop_paint s i h xInc yInc direc curX curY D n :
  has_hdc s i h ->
  XInc_loop i xInc yInc direc curX curY D n s =
    Ok tt (set_vram (paint (u8 (h_penIndex h)) (g_vram s)
                       (xinc_points xInc yInc direc curX curY D n)) s).
Proof.
  revert s curX curY D. induction n as [|n IH]; intros s curX curY D H; cbn [XInc_loop xinc_points].
  - cbn. by rewrite set_vram_id.
  - rewrite (kbind_ok _ _ _ _ _ (pixel_ok s i h curX curY H)).
    destruct (D >=? 0); exact (IH (set_vram _ s) _ _ _ H).
Qed.

Lemma YInc_loop_paint s i h xInc yInc direc curX curY D n :
  has_hdc s i h ->
  YInc_loop i xInc yInc direc curX curY D n s =
    Ok tt (set_vram (paint (u8 (h_penIndex h)) (g_vram s)
                       (map swap (xinc_points yInc xInc direc curY curX D n))) s).
Proof.
  revert s curX curY D. induction n as [|n IH]; intros s curX curY D H;
    cbn [YInc_loop xinc_points map].
  - cbn. by rewrite set_vram_id.
  - rewrite (kbind_ok _ _ _ _ _ (pixel_ok s i h curX curY H)).
    destruct (D >=? 0); exact (IH (set_vram _ s) _ _ _ H).
Qed.

(** Point [j] of the loop, from a state of the loop at step [i] with [k]
    moves made on the short axis. *)
Lemma xinc_points_spec xInc yInc direc x0 y0 n : forall i k D,
  0 <= yInc <= xInc -> xInc < 2 ^ 20 ->
  D = 2 * yInc * (i + 1) - xInc - 2 * xInc * k ->
  2 * yInc - 2 * xInc <= D <= 2 * yInc ->
  forall j p, xinc_points xInc yInc direc (x0 + i) (y0 + direc * k) D n !! j = Some p ->
  exists k', p = (x0 + i + Z.of_nat j, y0 + direc * k') /\ k <= k' <= k + Z.of_nat j
    /\ Z.abs (2 * ((i + Z.of_nat j) * yInc - k' * xInc)) <= xInc.
Proof.
  induction n as [|n IH]; intros i k D Hinc Hbig HD Hb j p Hj; [done|].
  cbn [xinc_points] in Hj. destruct j as [|j].
  - injection Hj as <-. exists k. change (Z.of_nat 0) with 0. rewrite !Z.add_0_r.
    split; [reflexivity|]. lia.
  - destruct (Z.geb_spec D 0) as [Hge|Hlt]; cbn [lookup list_lookup] in Hj.
    + rewrite (s32_small (D - 2 * xInc)) in Hj by (unfold is_s32; lia).
      rewrite s32_small in Hj by (unfold is_s32; lia).
      replace (y0 + direc * k + direc) with (y0 + direc * (k + 1)) in Hj by lia.
      replace (x0 + i + 1) with (x0 + (i + 1)) in Hj by lia.
      apply IH in Hj as (k' & -> & Hk & Hd); try lia.
      exists k'. split; [f_equal; lia|]. split; [lia|].
      by replace (i + Z.of_nat (S j)) with (i + 1 + Z.of_nat j) by lia.
    + rewrite s32_small in Hj by (unfold is_s32; lia).
      replace (x0 + i + 1) with (x0 + (i + 1)) in Hj by lia.
      apply IH in Hj as (k' & -> & Hk & Hd); try lia.
      exists k'. split; [f_equal; lia|]. split; [lia|].
      by replace (i + Z.of_nat (S j)) with (i + 1 + Z.of_nat j) by lia.
Qed.

Lemma length_xinc_points xInc yInc direc x y D n :
  length (xinc_points xInc yInc direc x y D n) = n.
Proof.
  revert x y D. induction n as [|n IH]; intros x y D; cbn [xinc_points]; [done|].
  destruct (D >=? 0); cbn [length]; by rewrite IH.
Qed.

(** ** Rasterised lines *)

Definition adjacent (p q : Z * Z) : Prop :=
  Z.abs (fst q - fst p) <= 1 /\ Z.abs (snd q - snd p) <= 1.

(** The point is within half a pixel of the ideal line, measured along the
    shorter axis, and in the bounding box of the end points. *)
Definition near_line (x0 y0 x1 y1 : Z) (p : Z * Z) : Prop :=
  Z.min x0 x1 <= fst p <= Z.max x0 x1 /\ Z.min y0 y1 <= snd p <= Z.max y0 y1
  /\ Z.abs (2 * ((x1 - x0) * (snd p - y0) - (y1 - y0) * (fst p - x0)))
     <= Z.max (Z.abs (x1 - x0)) (Z.abs (y1 - y0)).

Record rasterises (x0 y0 x1 y1 : Z) (pts : list (Z * Z)) : Prop := {
  r_len : Z.of_nat (length pts) = Z.max (Z.abs (x1 - x0)) (Z.abs (y1 - y0)) + 1;
  r_start : (x0, y0) ∈ pts;
  r_end : (x1, y1) ∈ pts;
  r_near : Forall (near_line x0 y0 x1 y1) pts;
  r_connected : forall j p q, pts !! j = Some p -> pts !! S j = Some q -> adjacent p q }.

Lemma near_line_sym x0 y0 x1 y1 p : near_line x0 y0 x1 y1 p -> near_line x1 y1 x0 y0 p.
Proof.
  unfold near_line. intros (Hx & Hy & Hd). split; [lia|]. split; [lia|].
  replace (2 * ((x0 - x1) * (snd p - y1) - (y0 - y1) * (fst p - x1)))
    with (- (2 * ((x1 - x0) * (snd p - y0) - (y1 - y0) * (fst p - x0)))) by ring.
  rewrite Z.abs_opp. lia.
Qed.

Lemma rasterises_sym x0 y0 x1 y1 pts :
  rasterises x0 y0 x1 y1 pts -> rasterises x1 y1 x0 y0 pts.
Proof.
  intros [Hl Hs He Hn Hc]. split; auto; [lia|].
  eapply List.Forall_impl; [|exact Hn]. intros p. apply near_line_sym.
Qed.

Lemma rasterises_swap x0 y0 x1 y1 pts :
  rasterises y0 x0 y1 x1 pts -> rasterises x0 y0 x1 y1 (map swap pts).
Proof.
  intros [Hl Hs He Hn Hc]. split.
  - rewrite length_map. lia.
  - apply list_elem_of_fmap. by exists (y0, x0).
  - apply list_elem_of_fmap. by exists (y1, x1).
  - apply Forall_fmap. eapply List.Forall_impl; [|exact Hn]. intros [a b] (Ha & Hb & Hd).
    unfold near_line, swap in *; cbn [fst snd compose] in *. split; [lia|]. split; [lia|].
    replace ((x1 - x0) * (a - y0) - (y1 - y0) * (b - x0))
      with (- ((y1 - y0) * (b - x0) - (x1 - x0) * (a - y0))) by ring.
    lia.
  - intros j p q Hp Hq. apply list_lookup_fmap_Some in Hp as (p' & -> & Hp), Hq as (q' & -> & Hq).
    specialize (Hc j p' q' Hp Hq). unfold adjacent, swap in *. cbn [fst snd]. tauto.
Qed.

Lemma xinc_connected xInc yInc direc n : forall x y D,
  Z.abs direc <= 1 ->
  forall j p q, xinc_points xInc yInc direc x y D n !! j = Some p ->
    xinc_points xInc yInc direc x y D n !! S j = Some q -> adjacent p q.
Proof.
  induction n as [|n IH]; intros x y D Hdir j p q Hp Hq; [done|].
  cbn [xinc_points] in Hp, Hq. destruct j as [|j].
  - injection Hp as <-. unfold adjacent.
    destruct n; destruct (D >=? 0); cbn in Hq; try done; injection Hq as <-; cbn; lia.
  - cbn [lookup list_lookup] in Hp, Hq.
    destruct (D >=? 0); [eapply IH in Hp|eapply IH in Hp]; eauto.
Qed.

(** The points that XIncPlotter draws when the x axis is the longer one. *)
Lemma xline_rasterises x0 y0 x1 y1 :
  x0 <= x1 -> Z.abs (y1 - y0) <= x1 - x0 -> x1 - x0 < 2 ^ 20 ->
  rasterises x0 y0 x1 y1
    (xinc_points (x1 - x0) (Z.abs (y1 - y0)) (if y0 >? y1 then -1 else 1) x0 y0
       (2 * Z.abs (y1 - y0) - (x1 - x0)) (Z.to_nat (x1 - x0 + 1))).
Proof.
  intros Hx Hy Hbig. set (dx := x1 - x0) in *. set (dy := Z.abs (y1 - y0)) in *.
  set (dir := if y0 >? y1 then -1 else 1).
  assert (Hdir : dir * dy = y1 - y0 /\ Z.abs dir = 1)
    by (unfold dir, dy; rewrite Z.gtb_ltb; destruct (Z.ltb_spec y1 y0); lia).
  set (pts := xinc_points _ _ _ _ _ _ _).
  assert (Hpt : forall j p, pts !! j = Some p -> Z.of_nat j <= dx /\ exists k,
    p = (x0 + Z.of_nat j, y0 + dir * k) /\ 0 <= k <= dy
    /\ Z.abs (2 * (Z.of_nat j * dy - k * dx)) <= dx).
  { intros j p Hj. assert (Hjx : Z.of_nat j <= dx).
    { apply lookup_lt_Some in Hj. unfold pts in Hj. rewrite length_xinc_points in Hj. lia. }
    split; [exact Hjx|].
    assert (Hj' : xinc_points dx dy dir (x0 + 0) (y0 + dir * 0) (2 * dy - dx)
                    (Z.to_nat (dx + 1)) !! j = Some p)
      by (rewrite Z.mul_0_r, !Z.add_0_r; exact Hj).
    apply xinc_points_spec in Hj' as (k & -> & Hk & Hd); try lia.
    rewrite Z.add_0_l in Hd. exists k. split; [f_equal; lia|]. split; [|exact Hd].
    split; [lia|]. destruct (Z.eq_dec dx 0) as [E|E]; [lia|].
    assert (Z.of_nat j * dy <= dx * dy) by (apply Z.mul_le_mono_nonneg_r; lia).
    destruct (Z_le_gt_dec k dy); [done|]. exfalso.
    assert ((dy + 1) * dx <= k * dx) by (apply Z.mul_le_mono_nonneg_r; lia). lia. }
  assert (Hlen : length pts = Z.to_nat (dx + 1)) by apply length_xinc_points.
  split.
  - rewrite Hlen. lia.
  - destruct (lookup_lt_is_Some_2 pts 0 ltac:(lia)) as [p Hp].
    destruct (Hpt _ _ Hp) as (_ & k & -> & Hk & Hd). apply list_elem_of_lookup. exists 0%nat.
    rewrite Hp. cbn [Z.of_nat] in *. rewrite Z.add_0_r.
    destruct (Z.eq_dec k 0) as [->|]; [do 2 f_equal; lia|]. exfalso.
    destruct (Z.eq_dec dx 0) as [E|]; [lia|nia].
  - destruct (lookup_lt_is_Some_2 pts (Z.to_nat dx) ltac:(lia)) as [p Hp].
    destruct (Hpt _ _ Hp) as (_ & k & -> & Hk & Hd). apply list_elem_of_lookup. exists (Z.to_nat dx).
    rewrite Hp. rewrite Z2Nat.id in * by lia.
    assert (k = dy) as ->; [|f_equal; f_equal; lia].
    destruct (Z.eq_dec dx 0) as [E|]; [lia|nia].
  - apply Forall_lookup. intros j p Hj. destruct (Hpt _ _ Hj) as (Hjx & k & -> & Hk & Hd).
    unfold near_line. cbn [fst snd]. split; [lia|]. split; [destruct Hdir; nia|].
    replace (x0 + Z.of_nat j - x0) with (Z.of_nat j) by lia.
    replace (y0 + dir * k - y0) with (dir * k) by lia.
    destruct Hdir as [<- Habs].
    replace (2 * ((x1 - x0) * (dir * k) - dir * dy * Z.of_nat j))
      with (- dir * (2 * (Z.of_nat j * dy - k * dx))) by (unfold dx; ring).
    rewrite Z.abs_mul, Z.abs_opp, Habs. lia.
  - apply xinc_connected. lia.
Qed.

(** ** The plotters and LineDraw *)

Definition line_points (x0 y0 x1 y1 : Z) : list (Z * Z) :=
  let xline x0 y0 x1 y1 :=
    xinc_points (x1 - x0) (Z.abs (y1 - y0)) (if y0 >? y1 then -1 else 1) x0 y0
      (2 * Z.abs (y1 - y0) - (x1 - x0)) (Z.to_nat (x1 - x0 + 1)) in
  if Z.abs (y1 - y0) <? Z.abs (x1 - x0) then
    if x1 - x0 <=? 0 then xline x1 y1 x0 y0 else xline x0 y0 x1 y1
  else
    if y1 - y0 <=? 0 then map swap (xline y1 x1 y0 x0) else map swap (xline y0 x0 y1 x1).

(** Coordinates far from the limits of an int. *)
Definition small (x : Z) : Prop := 0 <= x < 2 ^ 19.

Lemma SimpleAbs_small a : - 2 ^ 20 < a < 2 ^ 20 -> SimpleAbs a = Z.abs a.
Proof.
  intros H. unfold SimpleAbs. destruct (Z.ltb_spec a 0); [|lia].
  rewrite s32_small by (unfold is_s32; lia). lia.
Qed.

Lemma SimpleAbs_diff a b : small a -> small b -> SimpleAbs (s32 (a - b)) = Z.abs (a - b).
Proof.
  unfold small. intros Ha Hb. rewrite s32_small by (unfold is_s32; lia).
  apply SimpleAbs_small. lia.
Qed.

Lemma XIncPlotter_paint s i h x0 y0 x1 y1 :
  has_hdc s i h -> small x0 -> small y0 -> small x1 -> small y1 -> x0 <= x1 ->
  XIncPlotter x0 y0 x1 y1 i s =
    Ok tt (set_vram (paint (u8 (h_penIndex h)) (g_vram s)
      (xinc_points (x1 - x0) (Z.abs (y1 - y0)) (if y0 >? y1 then -1 else 1) x0 y0
         (2 * Z.abs (y1 - y0) - (x1 - x0)) (Z.to_nat (x1 - x0 + 1)))) s).
Proof.
  intros H ? ? ? ? Hx. unfold XIncPlotter.
  rewrite (XInc_loop_paint _ _ h) by done. rewrite !SimpleAbs_diff by done.
  unfold small in *. rewrite s32_small by (unfold is_s32; lia).
  by replace (Z.abs (x1 - x0)) with (x1 - x0) by lia.
Qed.

Lemma YIncPlotter_paint s i h x0 y0 x1 y1 :
  has_hdc s i h -> small x0 -> small y0 -> small x1 -> small y1 -> y0 <= y1 ->
  YIncPlotter x0 y0 x1 y1 i s =
    Ok tt (set_vram (paint (u8 (h_penIndex h)) (g_vram s)
      (map swap (xinc_points (y1 - y0) (Z.abs (x1 - x0)) (if x0 >? x1 then -1 else 1) y0 x0
         (2 * Z.abs (x1 - x0) - (y1 - y0)) (Z.to_nat (y1 - y0 + 1))))) s).
Proof.
  intros H ? ? ? ? Hx. unfold YIncPlotter.
  rewrite (YInc_loop_paint _ _ h) by done. rewrite !SimpleAbs_diff by done.
  unfold small in *. rewrite s32_small by (unfold is_s32; lia).
  by replace (Z.abs (y1 - y0)) with (y1 - y0) by lia.
Qed.

Lemma LineDraw_paint s i h x0 y0 x1 y1 :
  has_hdc s i h -> small x0 -> small y0 -> small x1 -> small y1 ->
  LineDraw x0 y0 x1 y1 i s =
    Ok tt (set_vram (paint (u8 (h_penIndex h)) (g_vram s) (line_points x0 y0 x1 y1)) s).
Proof.
  intros H Hx0 Hy0 Hx1 Hy1. unfold LineDraw, line_points.
  rewrite !SimpleAbs_diff by done.
  rewrite (s32_small (x1 - x0)) by (unfold small, is_s32 in *; lia).
  rewrite (s32_small (y1 - y0)) by (unfold small, is_s32 in *; lia).
  destruct (Z.ltb_spec (Z.abs (y1 - y0)) (Z.abs (x1 - x0))).
  - destruct (Z.leb_spec (x1 - x0) 0); apply XIncPlotter_paint; auto; lia.
  - destruct (Z.leb_spec (y1 - y0) 0); apply YIncPlotter_paint; auto; lia.
Qed.

Lemma line_points_rasterise x0 y0 x1 y1 :
  small x0 -> small y0 -> small x1 -> small y1 ->
  rasterises x0 y0 x1 y1 (line_points x0 y0 x1 y1).
Proof.
  unfold small, line_points. intros.
  destruct (Z.ltb_spec (Z.abs (y1 - y0)) (Z.abs (x1 - x0))).
  - destruct (Z.leb_spec (x1 - x0) 0).
    + apply rasterises_sym, xline_rasterises; lia.
    + apply xline_rasterises; lia.
  - destruct (Z.leb_spec (y1 - y0) 0).
    + apply rasterises_sym, rasterises_swap, xline_rasterises; lia.
    + apply rasterises_swap, xline_rasterises; lia.
Qed.

(** ** The painted frame buffer *)

Lemma pixel_offset_screen x y : on_screen x y -> pixel_offset x y = 320 * y + x.
Proof.
  intros [Hx Hy]. unfold pixel_offset. rewrite !s32_small by (unfold is_s32; rewrite ?s32_small; unfold is_s32; lia).
  apply u16_small. lia.
Qed.

Lemma paint_lookup pen v pts a :
  paint pen v pts a = if decide (a ∈ map (fun p => pixel_offset (fst p) (snd p)) pts) then pen else v a.
Proof.
  revert v. induction pts as [|p pts IH]; intros v; cbn [paint foldl map].
  - case_decide as H; [by apply not_elem_of_nil in H|done].
  - fold (paint pen (upd v (pixel_offset (fst p) (snd p)) pen) pts). rewrite IH.
    case_decide as H1; case_decide as H2; try done.
    + contradict H2. by constructor.
    + apply elem_of_cons in H2 as [->|H2]; [by rewrite upd_eq|done].
    + rewrite upd_ne; [done|]. intros ->. apply H2. by constructor.
Qed.

Definition all_on_screen (pts : list (Z * Z)) : Prop := Forall (fun p => on_screen (fst p) (snd p)) pts.

(** The pixel at a screen position after painting. *)
Lemma paint_pixel pen v pts x y :
  all_on_screen pts -> on_screen x y ->
  paint pen v pts (320 * y + x) = if decide ((x, y) ∈ pts) then pen else v (320 * y + x).
Proof.
  intros Hp Hs. rewrite paint_lookup.
  case_decide as H1; case_decide as H2; try done.
  - apply list_elem_of_fmap in H1 as ([x' y'] & E & H1).
    pose proof (proj1 (List.Forall_forall _ _) Hp (x', y') (proj1 (list_elem_of_In _ _) H1)) as Hs'. cbn [fst snd] in *.
    rewrite pixel_offset_screen in E by done. contradict H2.
    destruct Hs, Hs'. assert (y = y') as -> by lia. by replace x with x' by lia.
  - contradict H1. apply list_elem_of_fmap. exists (x, y). split; [|done].
    cbn. by rewrite pixel_offset_screen.
Qed.

Lemma paint_off_screen pen v pts a :
  all_on_screen pts -> ~ (0 <= a < 64000) -> paint pen v pts a = v a.
Proof.
  intros Hp Ha. rewrite paint_lookup. case_decide as H; [|done].
  apply list_elem_of_fmap in H as ([x y] & -> & H).
  pose proof (proj1 (List.Forall_forall _ _) Hp (x, y) (proj1 (list_elem_of_In _ _) H)) as Hs. cbn [fst snd] in *.
  rewrite pixel_offset_screen in Ha by done. destruct Hs. lia.
Qed.

Lemma rasterises_on_screen x0 y0 x1 y1 pts :
  on_screen x0 y0 -> on_screen x1 y1 -> rasterises x0 y0 x1 y1 pts -> all_on_screen pts.
Proof.
  intros H0 H1 Hr. eapply List.Forall_impl; [|apply Hr].
  intros [x y] (Hx & Hy & _). unfold on_screen in *. cbn [fst snd] in *. lia.
Qed.

Lemma on_screen_small x y : on_screen x y -> small x /\ small y.
Proof. unfold on_screen, small. lia. Qed.

(** C20: LineDraw, between two points of the screen, paints with the context's
    pen exactly the pixels of a rasterisation of the line: both end points,
    max(|dx|,|dy|) + 1 adjacent points, all within half a pixel of the ideal
    line and inside the end points' bounding box.  Nothing else of the state
    changes, and no byte outside the 320x200 frame buffer is written. *)
Theorem LineDraw_rasterises s i h x0 y0 x1 y1 :
  has_hdc s i h -> on_screen x0 y0 -> on_screen x1 y1 ->
  exists pts v,
    LineDraw x0 y0 x1 y1 i s = Ok tt (set_vram v s)
    /\ rasterises x0 y0 x1 y1 pts
    /\ (forall x y, on_screen x y ->
          v (320 * y + x) = if decide ((x, y) ∈ pts) then u8 (h_penIndex h)
                            else g_vram s (320 * y + x))
    /\ (forall a, ~ (0 <= a < 64000) -> v a = g_vram s a).
Proof.
  intros H H0 H1. destruct (on_screen_small _ _ H0), (on_screen_small _ _ H1).
  pose proof (line_points_rasterise x0 y0 x1 y1 ltac:(done) ltac:(done) ltac:(done) ltac:(done)) as Hr.
  pose proof (rasterises_on_screen _ _ _ _ _ H0 H1 Hr) as Hscr.
  eexists _, _. split; [by apply LineDraw_paint|]. split; [exact Hr|]. split.
  - intros x y Hxy. by apply paint_pixel.
  - intros a Ha. by apply paint_off_screen.
Qed.

(** A horizontal line covers exactly the columns between its end points. *)
Lemma hline_points x0 x1 y x :
  small x0 -> small x1 -> small y ->
  (x, y) ∈ line_points x0 y x1 y <-> Z.min x0 x1 <= x <= Z.max x0 x1.
Proof.
  intros Hx0 Hx1 Hy. pose proof (line_points_rasterise x0 y x1 y Hx0 Hy Hx1 Hy) as Hr.
  split.
  - intros Hin. pose proof (proj1 (List.Forall_forall _ _) (r_near _ _ _ _ _ Hr) _ (proj1 (list_elem_of_In _ _) Hin)) as (Hn & _).
    exact Hn.
  - intros Hx. unfold small in *.
    assert (Hgen : forall a b, a <= x <= b -> a = Z.min x0 x1 -> b = Z.max x0 x1 -> a < b ->
      (x, y) ∈ xinc_points (b - a) (Z.abs (y - y)) (if y >? y then -1 else 1) a y
                 (2 * Z.abs (y - y) - (b - a)) (Z.to_nat (b - a + 1))).
    { intros a b Hab Ea Eb Hlt.
      pose proof (xline_rasterises a y b y ltac:(lia) ltac:(lia) ltac:(lia)) as Hr'.
      destruct (lookup_lt_is_Some_2 (xinc_points (b - a) (Z.abs (y - y)) (if y >? y then -1 else 1) a y
                 (2 * Z.abs (y - y) - (b - a)) (Z.to_nat (b - a + 1))) (Z.to_nat (x - a))) as [[px py] Hp].
      { rewrite length_xinc_points. lia. }
      apply list_elem_of_lookup. exists (Z.to_nat (x - a)). rewrite Hp.
      pose proof (Forall_lookup_1 _ _ _ _ (r_near _ _ _ _ _ Hr') Hp) as (_ & Hpy & _). cbn [fst snd] in Hpy.
      assert (E : xinc_points (b - a) 0 1 (a + 0) (y + 1 * 0) (0 - (b - a)) (Z.to_nat (b - a + 1)) !! Z.to_nat (x - a) = Some (px, py)).
      { rewrite Z.mul_0_r, !Z.add_0_r. rewrite Z.sub_diag in Hp.
        replace (y >? y) with false in Hp by lia. exact Hp. }
      apply xinc_points_spec in E as (k & [= -> _] & _); try lia.
      do 2 f_equal; lia. }
    unfold line_points. rewrite Z.sub_diag. change (Z.abs 0) with 0.
    rewrite Z.sub_diag in Hgen. change (Z.abs 0) with 0 in Hgen.
    destruct (Z.ltb_spec 0 (Z.abs (x1 - x0))).
    + destruct (Z.leb_spec (x1 - x0) 0); apply Hgen; lia.
    + assert (x1 = x0) as -> by lia. assert (x = x0) as -> by lia.
      destruct (_ <=? _); apply list_elem_of_fmap; exists (y, x0); (split; [done|]);
        rewrite Z.sub_diag; cbn; constructor.
Qed.

Definition pen_ctx : hdc :=
  {| h_init := 1; h_x := 0; h_y := 0; h_penIndex := 15; h_commandQueue := []; h_queueEnd := 0 |}.

Definition one_ctx : gstate :=
  {| g_mem := zeroed; hdcVals := [pen_ctx]; g_vram := zeroed; g_ports := []; g_console := [];
     g_frame := {| queuedAction := LineDrawFunc; args := zeroed; lastArgSet := 0; buffset := 0 |};
     g_junkq := []; g_locked := false; lockinit := 1 |}.

Lemma LineDraw_rasterises_witness : exists v,
  LineDraw 10 20 60 40 0 one_ctx = Ok tt (set_vram v one_ctx) /\ v (320 * 20 + 10) = 15.
Proof.
  destruct (LineDraw_rasterises one_ctx 0 pen_ctx 10 20 60 40) as (pts & v & E & R & Hv & _);
    [split; [unfold NHDC; lia|reflexivity]|unfold on_screen; lia|unfold on_screen; lia|].
  exists v. split; [exact E|]. rewrite (Hv 10 20) by (unfold on_screen; lia).
  rewrite decide_True; [reflexivity|]. apply R.
Defined.
