(* ===== verification/GraphicsFacts.v ===== *)
(** * The graphics system calls: allocation of device contexts, filled
    rectangles, and the command queue against the direct calls *)

From S2P Require Import Prelude Mem Printf GfxText Syscall Graphics Lines.
#[local] Open Scope Z_scope.
#[local] Open Scope kernel_scope.

(** ** Arguments as text *)

(** The region at [p] holds the decimal text of [v], at most three digits. *)
Definition text (m : mem) (p v : Z) : Prop :=
  exists l, cstr m p l /\ Forall is_digit l /\ read_nat l = v /\ (length l <= 3)%nat.

Lemma text_parse m p v : text m p v -> ParseInt STRFUEL m p = Some v.
Proof.
  intros (l & Hs & Hd & <- & Hl). apply ParseInt_digits; auto; [|unfold STRFUEL; lia].
  assert (Hb : forall l, Forall is_digit l -> read_nat l < 10 ^ Z.of_nat (length l)).
  { clear. induction l as [|c l IH] using rev_ind; intros Hd; [cbn; lia|].
    apply Forall_app in Hd as [Hd Hc]. rewrite read_nat_snoc, length_app, Nat.add_1_r.
    inversion Hc as [|? ? Hcd _]; subst. unfold is_digit in Hcd.
    rewrite Nat2Z.inj_succ, Z.pow_succ_r by lia. specialize (IH Hd). lia. }
  eapply Z.lt_trans; [apply Hb, Hd|]. apply Z.le_lt_trans with (10 ^ 3); [|lia].
  apply Z.pow_le_mono_r; lia.
Qed.

Lemma text_frame m m' p v :
  text m p v -> (forall x, p <= x < p + 4 -> m' x = m x) -> text m' p v.
Proof.
  intros (l & Hs & Hd & Hv & Hl) Hf. exists l. split; [|auto].
  eapply cstr_frame; [exact Hs|]. intros x Hx. apply Hf. lia.
Qed.

(** ParseChar on a number below 1000. *)
Lemma ParseChar_small m v p :
  0 <= v < 1000 ->
  text (ParseChar m v p) p v /\ forall x, ~ (p <= x < p + 4) -> ParseChar m v p x = m x.
Proof.
  intros Hv. destruct (ParseChar_text m v p ltac:(lia)) as (k & Hk & Hlt & Hge & H0 & _ & Hs & Hf).
  assert (k <= 3)%nat.
  { destruct (Nat.le_gt_cases k 3); [done|]. exfalso.
    destruct (Z.eq_dec v 0) as [E|E]; [rewrite (H0 E) in *; lia|].
    assert (10 ^ 3 <= 10 ^ (Z.of_nat k - 1)) by (apply Z.pow_le_mono_r; lia). lia. }
  split.
  - exists (dec v k). rewrite length_dec. split; [exact Hs|]. split; [apply dec_digits|].
    split; [apply read_nat_dec; lia|lia].
  - intros x Hx. apply Hf. lia.
Qed.

(** ** The building blocks of the Append functions *)

Definition apart (n a b : Z) : Prop := a + n <= b \/ b + n <= a.

Lemma cap_arg_ok s a cap v :
  0 <= cap < 1000 -> ParseInt STRFUEL (g_mem s) a = Some v ->
  exists con m', cap_arg a cap s = Ok tt (set_mem m' (set_console con s))
    /\ text m' a (Z.max 0 (Z.min v cap))
    /\ forall x, ~ (a <= x < a + 4) -> m' x = g_mem s x.
Proof.
  intros Hcap Hp. unfold cap_arg, ValueCapperChar, kbind. rewrite Hp. cbn [mbind option_bind].
  destruct (ValueCapper_spec v cap ltac:(lia)) as [Hv _]. rewrite Hv.
  destruct (ParseChar_small (g_mem s) (Z.max 0 (Z.min v cap)) a ltac:(lia)) as [Ht Hf].
  destruct (snd _).
  - eexists _, _. split; [reflexivity|]. split; [exact Ht|exact Hf].
  - exists (g_console s), (ParseChar (g_mem s) (Z.max 0 (Z.min v cap)) a).
    split; [by destruct s|]. split; [exact Ht|exact Hf].
Qed.

(** One AppendArg: the argument's text becomes argument [k] of the frame, the
    earlier arguments stay, and memory changes only in [tmpArg]. *)
Lemma AppendArg_ok TMP s p v k :
  text (g_mem s) p v -> apart 4 TMP p ->
  0 <= k < NARGS ->
  (if buffset (g_frame s) =? 1 then lastArgSet (g_frame s) = k else k = 0) ->
  exists m' c, AppendArg TMP p s = Ok tt (set_frame c (set_mem m' s))
    /\ queuedAction c = queuedAction (g_frame s)
    /\ lastArgSet c = k + 1 /\ buffset c = 1
    /\ text (args c) (ARGSIZE * k) v
    /\ (forall j w, 0 <= j -> j <> k -> text (args (g_frame s)) (ARGSIZE * j) w -> text (args c) (ARGSIZE * j) w)
    /\ (forall x, ~ (TMP <= x < TMP + 4) -> m' x = g_mem s x).
Proof.
  intros (l & Hs & Hd & Hv & Hl) Hap Hk Hlast. unfold AppendArg, kbind, modify, gets.
  set (s1 := if negb (buffset (g_frame s) =? 1) then set_frame (with_arg (args (g_frame s)) 0 1 (g_frame s)) s else s).
  assert (Hf1 : g_frame s1 = with_arg (args (g_frame s)) k 1 (g_frame s) /\ g_mem s1 = g_mem s).
  { unfold s1. destruct (Z.eqb_spec (buffset (g_frame s)) 1) as [E|E]; cbn [negb].
    - split; [|done]. destruct s as [? ? ? ? ? [? ? ? ?] ? ? ?]. cbn in *. by subst.
    - subst k. done. }
  destruct Hf1 as [Hf1 Hm1]. cbn [g_frame set_mem]. rewrite Hf1. cbn [lastArgSet with_arg].
  replace ((0 <=? k) && (k <? NARGS))%bool with true by lia.
  set (m' := KString.strncpy (g_mem s1) TMP p SIZEOF_PTR).
  assert (Hm' : forall x, m' x = if (TMP <=? x) && (x <? TMP + 4) then default 0 (l !! Z.to_nat (x - TMP)) else g_mem s x).
  { intros x. unfold m'. rewrite Hm1. apply StringSpec.strncpy_bytes; [exact Hs|unfold SIZEOF_PTR; lia|].
    unfold SIZEOF_PTR, apart in *. lia. }
  exists m'. eexists. split.
  { unfold s1. destruct (negb _); reflexivity. }
  cbn [with_arg queuedAction lastArgSet buffset args g_mem set_mem].
  unfold NARGS in Hk. split; [done|]. split; [apply s32_small; unfold is_s32; lia|]. split; [done|].
  fold m'. split; [|split].
  - exists l. split; [|auto]. unfold ARGSIZE in *. split.
    + intros i c Hi. pose proof (lookup_lt_Some _ _ _ Hi). rewrite blit_in by lia.
      rewrite Hm'. replace (100 * k + Z.of_nat i - 100 * k + TMP) with (TMP + Z.of_nat i) by lia.
      replace ((TMP <=? TMP + Z.of_nat i) && (TMP + Z.of_nat i <? TMP + 4))%bool with true by lia.
      replace (Z.to_nat (TMP + Z.of_nat i - TMP)) with i by lia. rewrite Hi. cbn.
      split; [done|]. apply (Forall_lookup_1 _ _ _ _ Hd) in Hi. unfold is_digit in Hi. lia.
    + rewrite blit_in by lia. rewrite Hm'.
      replace (100 * k + Z.of_nat (length l) - 100 * k + TMP) with (TMP + Z.of_nat (length l)) by lia.
      replace ((TMP <=? _) && _)%bool with true by lia.
      rewrite lookup_ge_None_2 by lia. done.
  - intros j w Hj Hne Hw. eapply text_frame; [exact Hw|]. intros x Hx.
    apply blit_out. unfold ARGSIZE in *. lia.
  - intros x Hx. rewrite Hm'. addr_cases; reflexivity.
Qed.

Lemma parse_text m p v s : text m p v -> parse m p s = Ok v s.
Proof. intros H. unfold parse. by rewrite (text_parse _ _ _ H). Qed.

(** The text of an argument survives writes elsewhere, whatever it is. *)
Lemma ParseInt_frame fuel m m' p l :
  cstr m p l -> (forall x, p <= x <= p + Z.of_nat (length l) -> m' x = m x) ->
  (length l < fuel)%nat -> ParseInt fuel m' p = ParseInt fuel m p.
Proof.
  intros Hs Hf Hl. pose proof (cstr_frame _ _ _ _ Hs Hf) as Hs'.
  unfold ParseInt. rewrite (StringFacts.strlen_cstr _ _ _ _ Hs Hl), (StringFacts.strlen_cstr _ _ _ _ Hs' Hl).
  cbn. f_equal. rewrite !Nat2Z.id.
  assert (Hgen : forall n h o, (n <= length l)%nat -> ParseInt_loop m' p n h o = ParseInt_loop m p n h o).
  { induction n as [|n IH]; intros h o Hn; cbn [ParseInt_loop]; [done|].
    rewrite Hf by lia. apply IH. lia. }
  apply Hgen. lia.
Qed.

(** ** Queued commands *)

(** A command with action [f] whose arguments are the texts of [vs]. *)
Definition command_has (c : commandBuffer) (f : qaction) (vs : list Z) : Prop :=
  queuedAction c = f /\ forall k v, vs !! k = Some v -> text (args c) (ARGSIZE * Z.of_nat k) v.

Lemma push_command_ok s i h :
  has_hdc s i h -> 0 <= h_queueEnd h < NQUEUE ->
  exists c s', push_command i s = Ok 0 s'
    /\ queuedAction c = queuedAction (g_frame s) /\ args c = args (g_frame s)
    /\ hdcVals s' = <[Z.to_nat i := with_queue (<[Z.to_nat (h_queueEnd h) := c]> (h_commandQueue h))
                                     (h_queueEnd h + 1) h]> (hdcVals s)
    /\ g_vram s' = g_vram s /\ g_ports s' = g_ports s /\ buffset (g_frame s') = 0.
Proof.
  intros H Hq. unfold push_command, kbind, modify, gets.
  set (s1 := set_frame _ s). assert (H1 : has_hdc s1 i h) by exact H.
  rewrite (hdcObject_ok _ _ _ H1).
  replace ((0 <=? h_queueEnd h) && (h_queueEnd h <? NQUEUE))%bool with true by (unfold NQUEUE in *; lia).
  rewrite set_hdcObject_ok by apply H. unfold kret.
  unfold NQUEUE in Hq. rewrite s32_small by (unfold is_s32; lia).
  exists (g_frame s1). eexists. by split.
Qed.

(** The full queue: the 51st command leaves the array. *)
Lemma push_command_full s i h :
  has_hdc s i h -> ~ (0 <= h_queueEnd h < NQUEUE) -> push_command i s = Fault "commandQueue".
Proof.
  intros H Hq. unfold push_command, kbind, modify, gets.
  set (s1 := set_frame _ s). assert (H1 : has_hdc s1 i h) by exact H.
  rewrite (hdcObject_ok _ _ _ H1).
  by replace ((0 <=? h_queueEnd h) && (h_queueEnd h <? NQUEUE))%bool with false by (unfold NQUEUE in *; lia).
Qed.

(** The string buffer at [p], fifty bytes as in Painter.c, holds a string
    that ParseInt reads as [v]. *)
Definition buffer (m : mem) (p v : Z) : Prop :=
  exists l, cstr m p l /\ (length l < 50)%nat /\ ParseInt STRFUEL m p = Some v.

Lemma buffer_frame m m' p v :
  buffer m p v -> (forall x, p <= x < p + 50 -> m' x = m x) -> buffer m' p v.
Proof.
  intros (l & Hs & Hl & Hp) Hf. exists l. split; [|split; [done|]].
  - eapply cstr_frame; [exact Hs|]. intros x Hx. apply Hf. lia.
  - rewrite <- Hp. eapply ParseInt_frame; [exact Hs| |unfold STRFUEL; lia].
    intros x Hx. apply Hf. lia.
Qed.

(** The shape that AppendPixel, AppendLineTo and AppendCursorMove share. *)
Definition append2 (STR TMP : Z) (f : qaction) (i x y : Z) : G Z :=
  start_command STR f i ;;;
  cap_arg x 319 ;;; cap_arg y 199 ;;;
  AppendArg TMP STR ;;; AppendArg TMP x ;;; AppendArg TMP y ;;;
  push_command i.

Section append.
Context (STR TMP x y : Z).
Hypothesis (HST : apart 50 STR TMP) (HSx : apart 50 STR x) (HSy : apart 50 STR y)
           (HTx : apart 50 TMP x) (HTy : apart 50 TMP y) (Hxy : apart 50 x y).

Lemma append2_ok s f i h vx vy :
  has_hdc s i h -> 0 <= h_queueEnd h < NQUEUE -> buffset (g_frame s) <> 1 ->
  buffer (g_mem s) x vx -> buffer (g_mem s) y vy ->
  exists s' c, append2 STR TMP f i x y s = Ok 0 s'
    /\ command_has c f [i; Z.max 0 (Z.min vx 319); Z.max 0 (Z.min vy 199)]
    /\ hdcVals s' = <[Z.to_nat i := with_queue (<[Z.to_nat (h_queueEnd h) := c]> (h_commandQueue h))
                                     (h_queueEnd h + 1) h]> (hdcVals s)
    /\ g_vram s' = g_vram s /\ g_ports s' = g_ports s /\ buffset (g_frame s') = 0.
Proof using All.
  intros H Hq Hb Hbx Hby. unfold apart in *. unfold append2.
  (* commandItemTemp.queuedAction = f; ParseChar(hdc, str) *)
  unfold start_command. rewrite kbind_assoc.
  unfold kbind at 1, modify at 1. unfold kbind at 1, modify at 1.
  set (s1 := set_mem _ _).
  destruct (ParseChar_small (g_mem s) i STR) as [Hti Hfi]; [unfold has_hdc, NHDC in H; lia|].
  (* the two capped arguments *)
  destruct Hbx as (lx & Hlx). destruct (cap_arg_ok s1 x 319 vx ltac:(lia)) as (con & m2 & E2 & Htx & Hf2).
  { destruct (buffer_frame (g_mem s) (g_mem s1) x vx) as (? & _ & _ & Hp); [by exists lx| |exact Hp].
    intros z Hz. apply Hfi. lia. }
  rewrite (kbind_ok _ _ _ _ _ E2). set (s2 := set_mem m2 _) in *.
  destruct (cap_arg_ok s2 y 199 vy ltac:(lia)) as (con' & m3 & E3 & Hty & Hf3).
  { destruct (buffer_frame (g_mem s) (g_mem s2) y vy) as (? & _ & _ & Hp); [exact Hby| |exact Hp].
    intros z Hz. cbn. rewrite Hf2 by lia. apply Hfi. lia. }
  rewrite (kbind_ok _ _ _ _ _ E3). set (s3 := set_mem m3 _) in *.
  (* the three AppendArg calls *)
  destruct (AppendArg_ok TMP s3 STR i 0) as (m4 & c4 & E4 & Ha4 & Hl4 & Hb4 & Ht40 & _ & Hf4);
    [|unfold apart; lia|unfold NARGS; lia| |].
  { eapply text_frame; [exact Hti|]. intros z Hz. cbn. rewrite Hf3, Hf2 by lia. done. }
  { cbn. destruct (Z.eqb_spec (buffset (g_frame s)) 1); [done|reflexivity]. }
  rewrite (kbind_ok _ _ _ _ _ E4). set (s4 := set_frame c4 _) in *.
  destruct (AppendArg_ok TMP s4 x (Z.max 0 (Z.min vx 319)) 1) as (m5 & c5 & E5 & Ha5 & Hl5 & Hb5 & Ht51 & Hk5 & Hf5);
    [|unfold apart; lia|unfold NARGS; lia|cbn; rewrite Hb4; exact Hl4|].
  { eapply text_frame; [exact Htx|]. intros z Hz. cbn. rewrite Hf4 by lia. cbn. rewrite Hf3 by lia. done. }
  rewrite (kbind_ok _ _ _ _ _ E5). set (s5 := set_frame c5 _) in *.
  destruct (AppendArg_ok TMP s5 y (Z.max 0 (Z.min vy 199)) 2) as (m6 & c6 & E6 & Ha6 & Hl6 & Hb6 & Ht62 & Hk6 & Hf6);
    [|unfold apart; lia|unfold NARGS; lia|cbn; rewrite Hb5; exact Hl5|].
  { eapply text_frame; [exact Hty|]. intros z Hz. cbn. rewrite Hf5 by lia. cbn. rewrite Hf4 by lia. done. }
  rewrite (kbind_ok _ _ _ _ _ E6). set (s6 := set_frame c6 _) in *.
  destruct (push_command_ok s6 i h H Hq) as (c & s' & E & Ha & Hargs & Hh & Hv & Hp & Hbf).
  exists s', c. split; [exact E|]. split; [|by repeat split].
  split; [rewrite Ha; cbn; rewrite Ha6; cbn; rewrite Ha5; cbn; by rewrite Ha4|].
  rewrite Hargs. cbn [g_frame s6 set_frame].
  intros [|[|[|k]]] v; intros [= <-].
  - apply Hk6; [lia|lia|]. apply Hk5; [lia|lia|]. exact Ht40.
  - apply Hk6; [lia|lia|]. exact Ht51.
  - exact Ht62.
Qed.
End append.

(** ** What running a command leaves alone

    [core s]: the parts of the state that no queued action changes: which
    contexts are in use, their queues, and the lock. *)

Definition core (s : gstate) : list (Z * list commandBuffer * Z) * bool * Z :=
  (map (fun h => (h_init h, h_commandQueue h, h_queueEnd h)) (hdcVals s), g_locked s, lockinit s).

Definition keeps {A} (m : G A) : Prop := forall s a s', m s = Ok a s' -> core s' = core s.

Create HintDb keeps.

Lemma keeps_ret {A} (a : A) : keeps (kret a).
Proof. by intros s ? ? [= <- <-]. Qed.

Lemma keeps_bind {A B} (m : G A) (f : A -> G B) :
  keeps m -> (forall a, keeps (f a)) -> keeps (kbind m f).
Proof.
  intros Hm Hf s b s2 (a & s1 & H1 & H2)%kbind_inv.
  rewrite (Hf _ _ _ _ H2). eapply Hm, H1.
Qed.

Lemma keeps_vram f : keeps (modify (fun s => set_vram (f s) s)).
Proof. by intros s ? ? [= <- <-]. Qed.

Lemma keeps_outb p d : keeps (outb p d).
Proof. by intros s ? ? [= <- <-]. Qed.

Lemma keeps_gets {A} (f : gstate -> A) : keeps (gets f).
Proof. by intros s ? ? [= <- <-]. Qed.

Lemma keeps_hdcObject i : keeps (hdcObject i).
Proof. intros s h s'. unfold hdcObject. repeat case_match; congruence. Qed.

Lemma keeps_parse m p : keeps (parse m p).
Proof. intros s v s'. unfold parse. case_match; congruence. Qed.

(** A read-modify-write of a context that leaves its use and queue alone. *)
Lemma keeps_update i (f : hdc -> hdc) :
  (forall h, h_init (f h) = h_init h /\ h_commandQueue (f h) = h_commandQueue h
             /\ h_queueEnd (f h) = h_queueEnd h) ->
  keeps (h <- hdcObject i ;; set_hdcObject i (f h)).
Proof.
  intros Hf s [] s' (h & s1 & H1 & H2)%kbind_inv.
  unfold hdcObject in H1.
  destruct ((0 <=? i) && (i <? NHDC))%bool eqn:Hb; [|done].
  destruct (hdcVals s !! Z.to_nat i) as [h'|] eqn:E; [|done].
  injection H1 as -> <-. unfold set_hdcObject in H2. rewrite Hb in H2.
  injection H2 as <-. unfold core. cbn. apply (f_equal2 pair); [apply (f_equal2 pair); [|done]|done].
  apply list_eq. intros j. rewrite !list_lookup_fmap.
  destruct (Nat.eq_dec j (Z.to_nat i)) as [->|Hne].
  - rewrite E. rewrite list_lookup_insert_eq by (apply lookup_lt_Some in E; lia).
    destruct (Hf h) as (Hi & Hq & He). cbn. by rewrite Hi, Hq, He.
  - by rewrite list_lookup_insert_ne by done.
Qed.

#[export] Hint Resolve keeps_ret keeps_vram keeps_outb keeps_gets keeps_hdcObject keeps_parse : keeps.
#[export] Hint Extern 1 (keeps (kbind _ _)) => apply keeps_bind; [|intros ?] : keeps.

Lemma keeps_MovePos i x y : keeps (MovePos i x y).
Proof. by apply keeps_update. Qed.

Lemma keeps_pixel i x y : keeps (PixelSetterFunc i x y).
Proof. unfold PixelSetterFunc. auto with keeps. Qed.

#[export] Hint Resolve keeps_MovePos keeps_pixel : keeps.

Lemma keeps_XInc_loop i a b d x y D n : keeps (XInc_loop i a b d x y D n).
Proof.
  revert x y D. induction n as [|n IH]; intros x y D; cbn [XInc_loop]; auto with keeps.
  apply keeps_bind; auto with keeps. intros _. destruct (D >=? 0); apply IH.
Qed.

Lemma keeps_YInc_loop i a b d x y D n : keeps (YInc_loop i a b d x y D n).
Proof.
  revert x y D. induction n as [|n IH]; intros x y D; cbn [YInc_loop]; auto with keeps.
  apply keeps_bind; auto with keeps. intros _. destruct (D >=? 0); apply IH.
Qed.

Lemma keeps_XIncPlotter x0 y0 x1 y1 i : keeps (XIncPlotter x0 y0 x1 y1 i).
Proof. apply keeps_XInc_loop. Qed.

Lemma keeps_YIncPlotter x0 y0 x1 y1 i : keeps (YIncPlotter x0 y0 x1 y1 i).
Proof. apply keeps_YInc_loop. Qed.

#[export] Hint Resolve keeps_XIncPlotter keeps_YIncPlotter : keeps.

Lemma keeps_LineDraw x0 y0 x1 y1 i : keeps (LineDraw x0 y0 x1 y1 i).
Proof. unfold LineDraw. repeat case_match; auto with keeps. Qed.

#[export] Hint Resolve keeps_LineDraw : keeps.

Lemma keeps_DrawRect_loop l r i y n : keeps (DrawRect_loop l r i y n).
Proof. revert y. induction n as [|n IH]; intros y; cbn [DrawRect_loop]; auto with keeps. Qed.

#[export] Hint Resolve keeps_DrawRect_loop : keeps.

Lemma keeps_update_then {A} i (f : hdc -> hdc) (k : G A) :
  (forall h, h_init (f h) = h_init h /\ h_commandQueue (f h) = h_commandQueue h
             /\ h_queueEnd (f h) = h_queueEnd h) -> keeps k ->
  keeps (h <- hdcObject i ;; set_hdcObject i (f h) ;;; k).
Proof.
  intros Hf Hk s a s' Hrun. rewrite <- kbind_assoc in Hrun.
  revert Hrun. apply keeps_bind; [by apply keeps_update|done].
Qed.

Lemma keeps_run_action c : keeps (run_action c).
Proof.
  unfold run_action. destruct (queuedAction c).
  - unfold PixelSetterFuncQueue_run, arg. auto 10 with keeps.
  - unfold LineDrawFunc_run, arg. repeat (apply keeps_bind; [auto with keeps|intros ?]);
      repeat case_match; auto with keeps.
  - unfold MovePosFunc_run, arg. do 3 (apply keeps_bind; [auto with keeps|intros ?]).
    apply keeps_update_then; auto with keeps.
  - unfold DeclarePenFunc_run, arg. auto 12 with keeps.
  - unfold GetPenFunc_run, arg. do 2 (apply keeps_bind; [auto with keeps|intros ?]).
    apply keeps_update_then; auto with keeps.
  - unfold DrawRect_run, arg. auto 12 with keeps.
Qed.

(** The entry of context [i] in the core. *)
Lemma core_hdc s s' i h :
  core s' = core s -> has_hdc s i h ->
  exists h', has_hdc s' i h' /\ h_init h' = h_init h
    /\ h_commandQueue h' = h_commandQueue h /\ h_queueEnd h' = h_queueEnd h.
Proof.
  intros Hc [Hi Hl]. unfold core in Hc. injection Hc as Hc _ _.
  assert (E : map (fun h => (h_init h, h_commandQueue h, h_queueEnd h)) (hdcVals s') !! Z.to_nat i
    = Some (h_init h, h_commandQueue h, h_queueEnd h)).
  { rewrite Hc, list_lookup_fmap, Hl. reflexivity. }
  rewrite list_lookup_fmap in E. apply fmap_Some in E as (h' & Hl' & E). injection E as -> -> ->.
  exists h'. by repeat split; try apply Hi.
Qed.

(** The queue runs in the order it was filled. *)
Definition run_all (cs : list commandBuffer) : G unit := for_each cs (fun c => run_action c ;;; kret tt).

Lemma exec_loop_fifo fuel : forall s i h j,
  has_hdc s i h -> (j <= Z.to_nat (h_queueEnd h))%nat ->
  (Z.to_nat (h_queueEnd h) <= length (h_commandQueue h))%nat ->
  (Z.to_nat (h_queueEnd h) - j < fuel)%nat ->
  exec_loop fuel i (Z.of_nat j) s
    = run_all (drop j (take (Z.to_nat (h_queueEnd h)) (h_commandQueue h))) s.
Proof.
  induction fuel as [|f IH]; intros s i h j H Hj Hlen Hf; [lia|]. cbn [exec_loop].
  rewrite (kbind_ok _ _ _ _ _ (hdcObject_ok _ _ _ H)).
  destruct (Z.ltb_spec (Z.of_nat j) (h_queueEnd h)) as [Hlt|Hge].
  - rewrite Nat2Z.id. destruct (lookup_lt_is_Some_2 (h_commandQueue h) j ltac:(lia)) as [c Hc].
    rewrite Hc. cbn [of_opt]. unfold kbind at 1, kret at 1.
    rewrite (drop_S _ c) by (rewrite lookup_take_lt by lia; exact Hc).
    unfold run_all. cbn [for_each]. rewrite kbind_assoc. unfold kbind.
    destruct (run_action c s) as [r s1| | |] eqn:Hrun; try reflexivity. unfold kret at 1.
    destruct (core_hdc s s1 i h (keeps_run_action c _ _ _ Hrun) H) as (h1 & H1 & _ & Eq & Ee).
    replace (Z.of_nat j + 1) with (Z.of_nat (S j)) by lia.
    rewrite (IH s1 i h1); rewrite ?Eq, ?Ee; try lia; [reflexivity|exact H1].
  - rewrite drop_ge by (rewrite length_take; lia). reflexivity.
Qed.

Lemma keeps_run_all cs : keeps (run_all cs).
Proof.
  induction cs as [|c cs IH]; unfold run_all; cbn [for_each]; [apply keeps_ret|].
  apply keeps_bind; [|intros _; exact IH].
  apply keeps_bind; [apply keeps_run_action|]. intros ?. apply keeps_ret.
Qed.

(** ** Theorems *)

(** A state with all five contexts. *)
Definition full (s : gstate) : Prop := length (hdcVals s) = 5%nat.

Lemma full_has s i : full s -> 0 <= i < NHDC -> exists h, has_hdc s i h.
Proof.
  unfold full, NHDC. intros Hf Hi.
  destruct (lookup_lt_is_Some_2 (hdcVals s) (Z.to_nat i) ltac:(lia)) as [h Hh].
  by exists h.
Qed.

(** The first free context, as a search over the list. *)
Fixpoint first_free (hs : list hdc) (i : Z) : option Z :=
  match hs with
  | [] => None
  | h :: hs => if h_init h =? 0 then Some i else first_free hs (i + 1)
  end.

(** One round of beginpaint's loop, and the loop from context [k] on. *)
Definition alloc_body (index : Z) : G (option Z) :=
  h <- hdcObject index ;;
  if h_init h =? 0 then
    q <- gets g_junkq ;;
    set_hdcObject index (fresh_item 1 q) ;;;
    release ;;;
    kret (Some index)
  else kret None.

Definition allocated (s : gstate) (i : Z) : gstate :=
  set_lock false (lockinit s)
    (set_hdcVals (<[Z.to_nat i := fresh_item 1 (g_junkq s)]> (hdcVals s)) s).

Lemma alloc_body_ok s i h :
  has_hdc s i h -> g_locked s = true ->
  alloc_body i s = if h_init h =? 0 then Ok (Some i) (allocated s i) else Ok None s.
Proof.
  intros H Hl. unfold alloc_body. rewrite (kbind_ok _ _ _ _ _ (hdcObject_ok _ _ _ H)).
  destruct (h_init h =? 0); [|done]. unfold kbind at 1, gets at 1.
  rewrite (kbind_ok _ _ _ _ _ (set_hdcObject_ok _ _ _ (proj1 H))).
  unfold release. rewrite kbind_assoc. unfold kbind, gets, modify. cbn. by rewrite Hl.
Qed.

Lemma alloc_loop s n k :
  g_locked s = true -> (k + n = 5)%nat -> full s ->
  first_of (map Z.of_nat (seq k n)) alloc_body s =
    match first_free (drop k (hdcVals s)) (Z.of_nat k) with
    | Some i => Ok (Some i) (allocated s i)
    | None => Ok None s
    end.
Proof.
  intros Hl Hkn Hf. revert k Hkn. induction n as [|n IH]; intros k Hkn; cbn [seq map first_of].
  - rewrite drop_ge by (unfold full in Hf; lia). done.
  - destruct (full_has s (Z.of_nat k) Hf) as [h Hh]; [unfold NHDC; lia|].
    assert (Hk : hdcVals s !! k = Some h) by (destruct Hh as [_ Hh]; by rewrite Nat2Z.id in Hh).
    rewrite (drop_S _ _ _ Hk). cbn [first_free]. unfold kbind. rewrite (alloc_body_ok _ _ _ Hh Hl).
    destruct (h_init h =? 0); [done|]. replace (Z.of_nat k + 1) with (Z.of_nat (S k)) by lia.
    apply IH. lia.
Qed.

(** beginpaint hands out the first context that is not in use, and only
    that one changes: it becomes initialised, at (0,0), with pen 15 and an
    empty queue.  With all five in use it answers -1 and changes nothing.
    The lock is free again in both cases. *)
Theorem sys_beginpaint_allocates u s hwnd :
  full s -> lockinit s = 1 -> g_locked s = false -> argint u (g_mem s) 0 = Some hwnd ->
  sys_beginpaint u s =
    match first_free (hdcVals s) 0 with
    | Some i => Ok i (set_hdcVals (<[Z.to_nat i := fresh_item 1 (g_junkq s)]> (hdcVals s)) s)
    | None => Ok (-1) s
    end.
Proof.
  intros Hf Hli Hlk Ha. unfold sys_beginpaint. unfold kbind at 1, gets at 1. rewrite Hli. cbn [Z.eqb Pos.eqb negb].
  unfold kbind at 1, kret at 1. unfold kbind at 1, gets at 1. rewrite Ha.
  unfold acquire. rewrite kbind_assoc. unfold kbind at 1, gets at 1. rewrite Hlk.
  unfold kbind at 1, modify at 1. set (s1 := set_lock true _ s).
  fold alloc_body. change [0; 1; 2; 3; 4] with (map Z.of_nat (seq 0 5)).
  unfold kbind at 1. rewrite (alloc_loop s1 5 0) by done. cbn [drop]. change (hdcVals s1) with (hdcVals s).
  change (Z.of_nat 0) with 0. destruct s; cbn in *; subst.
  destruct (first_free _ 0); reflexivity.
Qed.

(** endpaint on a context in use runs the queued commands, when asked to,
    exactly once each and in the order they were queued, then frees the
    context with an empty queue and answers 0; what it does is the run of
    the queue and that reset, whatever the commands do. *)
Theorem sys_endpaint_runs_queue u s i h ex :
  has_hdc s i h -> h_init h = 1 -> g_locked s = false ->
  0 <= h_queueEnd h <= NQUEUE -> length (h_commandQueue h) = Z.to_nat NQUEUE ->
  argint u (g_mem s) 0 = Some i -> argint u (g_mem s) 1 = Some ex ->
  sys_endpaint u s =
    kbind (if ex =? 1 then run_all (take (Z.to_nat (h_queueEnd h)) (h_commandQueue h)) else kret tt)
      (fun _ s' => Ok 0 (set_lock false (lockinit s')
         (set_hdcVals (<[Z.to_nat i := fresh_item 0 (g_junkq s')]> (hdcVals s')) s')))
      (set_lock true (lockinit s) s).
Proof.
  intros H Hinit Hlk Hq Hlen Ha0 Ha1. unfold sys_endpaint. unfold kbind at 1, gets at 1.
  rewrite Ha0, Ha1. destruct (Z.ltb_spec i 0); [unfold has_hdc, NHDC in H; lia|].
  unfold acquire. rewrite kbind_assoc. unfold kbind at 1, gets at 1. rewrite Hlk.
  unfold kbind at 1, modify at 1. set (s1 := set_lock true _ s).
  assert (E : (if ex =? 1 then exec_loop 51 i 0 else kret tt) s1
    = (if ex =? 1 then run_all (take (Z.to_nat (h_queueEnd h)) (h_commandQueue h)) else kret tt) s1).
  { destruct (ex =? 1); [|done]. unfold NQUEUE in *.
    exact (exec_loop_fifo 51 s1 i h 0 H ltac:(lia) ltac:(lia) ltac:(lia)). }
  apply kbind_congr; [exact E|]. intros [] s2 Hrun.
  assert (Hc : core s2 = core s1).
  { destruct (ex =? 1); [eapply keeps_run_all, Hrun|eapply (keeps_ret tt), Hrun]. }
  destruct (core_hdc s1 s2 i h Hc H) as (h2 & H2 & Ei & _ & _).
  rewrite (kbind_ok _ _ _ _ _ (hdcObject_ok _ _ _ H2)), Ei, Hinit. cbn [Z.eqb Pos.eqb].
  unfold kbind at 1, gets at 1. rewrite (kbind_ok _ _ _ _ _ (set_hdcObject_ok _ _ _ (proj1 H2))).
  assert (Hl2 : g_locked s2 = true) by (unfold core in Hc; by injection Hc as _ -> _).
  unfold release. rewrite kbind_assoc. unfold kbind, gets, modify, kret. cbn. by rewrite Hl2.
Qed.

(** Results up to the messages printed. *)
Definition quiet (o : outcome gstate Z) : outcome gstate Z :=
  match o with Ok r s => Ok r (set_console [] s) | o => o end.

Lemma capped_ok s v cap :
  0 <= cap -> exists con, capped v cap s = Ok (Z.max 0 (Z.min v cap)) (set_console con s).
Proof.
  intros Hc. unfold capped, kbind. destruct (ValueCapper_spec v cap Hc) as [-> _].
  destruct (snd _); [by eexists|]. exists (g_console s). by destruct s.
Qed.

Lemma run_args3 c f a b d t :
  command_has c f [a; b; d] ->
  arg (args c) 0 t = Ok a t /\ arg (args c) 1 t = Ok b t /\ arg (args c) 2 t = Ok d t.
Proof.
  intros [_ H]. unfold arg. repeat split.
  - exact (parse_text _ _ _ t (H 0%nat a eq_refl)).
  - exact (parse_text _ _ _ t (H 1%nat b eq_refl)).
  - exact (parse_text _ _ _ t (H 2%nat d eq_refl)).
Qed.

Section deferred.
Context (STR TMP x y : Z).
Hypothesis (HST : apart 50 STR TMP) (HSx : apart 50 STR x) (HSy : apart 50 STR y)
           (HTx : apart 50 TMP x) (HTy : apart 50 TMP y) (Hxy : apart 50 x y).

(** a queued line is a deferred lineto.  Queuing a line on context [i]
    with the strings of [vx] and [vy] appends one command to the queue of
    [i]; whenever that command runs later, it does to any state what the
    system call lineto(i, vx, vy) does to it (messages apart): the same
    pixels, the same new cursor position, the same limits on the values. *)
Theorem queued_line_is_lineto s i h vx vy :
  has_hdc s i h -> 0 <= h_queueEnd h < NQUEUE -> buffset (g_frame s) <> 1 ->
  buffer (g_mem s) x vx -> buffer (g_mem s) y vy ->
  exists s' c, AppendLineTo STR TMP i x y s = Ok 0 s'
    /\ hdcVals s' = <[Z.to_nat i := with_queue (<[Z.to_nat (h_queueEnd h) := c]> (h_commandQueue h))
                                     (h_queueEnd h + 1) h]> (hdcVals s)
    /\ forall t ht u, has_hdc t i ht -> on_screen (h_x ht) (h_y ht) ->
         argint u (g_mem t) 0 = Some i -> argint u (g_mem t) 1 = Some vx ->
         argint u (g_mem t) 2 = Some vy ->
         quiet (run_action c t) = quiet (sys_lineto u t).
Proof using All.
  intros H Hq Hb Hbx Hby.
  destruct (append2_ok STR TMP x y HST HSx HSy HTx HTy Hxy s LineDrawFunc i h vx vy H Hq Hb Hbx Hby)
    as (s' & c & E & Hc & Hh & _).
  exists s', c. split; [exact E|]. split; [exact Hh|].
  intros t ht u Ht Hpos A0 A1 A2. destruct (on_screen_small _ _ Hpos).
  set (nx := Z.max 0 (Z.min vx 319)) in *. set (ny := Z.max 0 (Z.min vy 199)) in *.
  assert (small nx /\ small ny) as [Hnx Hny] by (unfold small; lia).
  destruct (run_args3 _ _ _ _ _ t Hc) as (P0 & P1 & P2). destruct Hc as [Hact _].
  unfold run_action. rewrite Hact. unfold LineDrawFunc_run.
  rewrite (kbind_ok _ _ _ _ _ P0), (kbind_ok _ _ _ _ _ (hdcObject_ok _ _ _ Ht)).
  rewrite (kbind_ok _ _ _ _ _ P1), (kbind_ok _ _ _ _ _ P2).
  pose proof (LineDraw_paint t i ht (h_x ht) (h_y ht) nx ny Ht ltac:(done) ltac:(done) Hnx Hny) as EL.
  unfold LineDraw in EL. cbv zeta in EL. rewrite (kbind_ok _ _ _ _ _ EL). clear EL.
  rewrite (kbind_ok _ _ _ _ _ (MovePos_ok (set_vram _ t) i ht _ _ Ht)).
  unfold sys_lineto. unfold kbind at 1, gets at 1. rewrite A0, A1, A2.
  destruct (Z.ltb_spec i 0); [unfold has_hdc in Ht; lia|].
  destruct (capped_ok t vx 319 ltac:(lia)) as [con1 E1]. rewrite (kbind_ok _ _ _ _ _ E1).
  destruct (capped_ok (set_console con1 t) vy 199 ltac:(lia)) as [con2 E2]. rewrite (kbind_ok _ _ _ _ _ E2).
  fold nx ny. set (t2 := set_console con2 _). assert (Ht2 : has_hdc t2 i ht) by exact Ht.
  rewrite (kbind_ok _ _ _ _ _ (hdcObject_ok _ _ _ Ht2)).
  rewrite (kbind_ok _ _ _ _ _ (LineDraw_paint t2 i ht (h_x ht) (h_y ht) nx ny Ht2 ltac:(done) ltac:(done) Hnx Hny)).
  match goal with |- _ = quiet (_ ?st) => rewrite (kbind_ok _ _ st _ _ (MovePos_ok st i ht nx ny Ht2)) end.
  reflexivity.
Qed.

(** a queued pixel is a deferred setpixel. *)
Theorem queued_pixel_is_setpixel s i h vx vy :
  has_hdc s i h -> 0 <= h_queueEnd h < NQUEUE -> buffset (g_frame s) <> 1 ->
  buffer (g_mem s) x vx -> buffer (g_mem s) y vy ->
  exists s' c, AppendPixel STR TMP i x y s = Ok 0 s'
    /\ hdcVals s' = <[Z.to_nat i := with_queue (<[Z.to_nat (h_queueEnd h) := c]> (h_commandQueue h))
                                     (h_queueEnd h + 1) h]> (hdcVals s)
    /\ forall t ht u, has_hdc t i ht ->
         argint u (g_mem t) 0 = Some i -> argint u (g_mem t) 1 = Some vx ->
         argint u (g_mem t) 2 = Some vy ->
         quiet (run_action c t) = quiet (sys_setpixel u t).
Proof using All.
  intros H Hq Hb Hbx Hby.
  destruct (append2_ok STR TMP x y HST HSx HSy HTx HTy Hxy s PixelSetterFuncQueue i h vx vy H Hq Hb Hbx Hby)
    as (s' & c & E & Hc & Hh & _).
  exists s', c. split; [exact E|]. split; [exact Hh|].
  intros t ht u Ht A0 A1 A2.
  destruct (run_args3 _ _ _ _ _ t Hc) as (P0 & P1 & P2). destruct Hc as [Hact _].
  unfold run_action. rewrite Hact. unfold PixelSetterFuncQueue_run.
  rewrite (kbind_ok _ _ _ _ _ P0), (kbind_ok _ _ _ _ _ P1), (kbind_ok _ _ _ _ _ P2).
  rewrite (kbind_ok _ _ _ _ _ (hdcObject_ok _ _ _ Ht)).
  unfold sys_setpixel. rewrite (kbind_ok (gets g_mem) _ t (g_mem t) t eq_refl). rewrite A0, A1, A2.
  destruct (Z.ltb_spec i 0); [unfold has_hdc in Ht; lia|].
  destruct (capped_ok t vx 319 ltac:(lia)) as [con1 E1]. rewrite (kbind_ok _ _ _ _ _ E1).
  destruct (capped_ok (set_console con1 t) vy 199 ltac:(lia)) as [con2 E2]. rewrite (kbind_ok _ _ _ _ _ E2).
  set (t2 := set_console con2 _). assert (Ht2 : has_hdc t2 i ht) by exact Ht.
  rewrite (kbind_ok _ _ _ _ _ (pixel_ok _ _ _ _ _ Ht2)). reflexivity.
Qed.
End deferred.

(** the system calls that check only [hdc < 0] leave the table of device
    contexts for every larger index: setpixel returns exactly when the
    context exists, and getHDC's own range check lets index 5 through. *)
Theorem hdc_upper_bound u s i x y :
  full s -> argint u (g_mem s) 0 = Some i ->
  argint u (g_mem s) 1 = Some x -> argint u (g_mem s) 2 = Some y ->
  ((exists r s', sys_setpixel u s = Ok r s') <-> i < NHDC)
  /\ (sys_getHDC u s = Fault "hdcObjects" <-> i = 5).
Proof.
  intros Hf A0 A1 A2. split.
  - unfold sys_setpixel. unfold kbind at 1, gets at 1. rewrite A0, A1, A2.
    destruct (Z.ltb_spec i 0) as [Hneg|Hpos].
    { split; [unfold NHDC; lia|]. intros _. eexists _, _. reflexivity. }
    destruct (capped_ok s x 319 ltac:(lia)) as [con1 E1]. rewrite (kbind_ok _ _ _ _ _ E1).
    destruct (capped_ok (set_console con1 s) y 199 ltac:(lia)) as [con2 E2]. rewrite (kbind_ok _ _ _ _ _ E2).
    set (t := set_console con2 _). split.
    + intros (r & s' & Hrun). unfold PixelSetterFunc in Hrun.
      rewrite kbind_assoc in Hrun. apply kbind_inv in Hrun as (h & s1 & Hh & _).
      unfold hdcObject in Hh. destruct (_ && _)%bool eqn:Eb; [lia|done].
    + intros Hi. destruct (full_has t i Hf ltac:(lia)) as [h Hh].
      rewrite (kbind_ok _ _ _ _ _ (pixel_ok _ _ _ _ _ Hh)). eexists _, _. reflexivity.
  - unfold sys_getHDC. unfold kbind at 1, gets at 1. rewrite A0.
    destruct (_ || _)%bool eqn:Eb.
    { split; [discriminate|]. intros ->. discriminate Eb. }
    destruct (Z.eq_dec i 5) as [->|Hne]; [by split|].
    split; [|lia]. destruct (full_has s i Hf) as [h Hh]; [unfold NHDC; lia|].
    rewrite (kbind_ok _ _ _ _ _ (hdcObject_ok _ _ _ Hh)). by destruct (h_init h =? 1).
Qed.

(** ** Concrete states *)

Definition no_command : commandBuffer :=
  {| queuedAction := LineDrawFunc; args := zeroed; lastArgSet := 0; buffset := 0 |}.

Definition ctx0 : hdc := fresh_item 1 (replicate 50 no_command).

(** Context 0 is in use, the others are free.  The user stack holds the int
    arguments 0, 5, 7; the strings of 5 and 7 are at 1000 and 1100. *)
Definition g0 : gstate :=
  {| g_mem := upd (upd (upd (upd zeroed 0x108 5) 0x10c 7) 1000 53) 1100 55;
     hdcVals := ctx0 :: replicate 4 (fresh_item 0 (replicate 50 no_command));
     g_vram := zeroed; g_ports := []; g_console := []; g_frame := no_command;
     g_junkq := replicate 50 no_command; g_locked := false; lockinit := 1 |}.

Definition u0 : ucontext := {| u_sz := 0x1000; u_esp := 0x100 |}.

Lemma g0_ctx0 : has_hdc g0 0 ctx0.
Proof. split; [unfold NHDC; lia|reflexivity]. Qed.

Lemma g0_buffer5 : buffer (g_mem g0) 1000 5.
Proof.
  exists [53]. split; [|split; [cbn; lia|reflexivity]].
  apply cstr_cons. split; [reflexivity|]. split; [lia|]. by apply cstr_nil.
Qed.

Lemma g0_buffer7 : buffer (g_mem g0) 1100 7.
Proof.
  exists [55]. split; [|split; [cbn; lia|reflexivity]].
  apply cstr_cons. split; [reflexivity|]. split; [lia|]. by apply cstr_nil.
Qed.

Lemma sys_beginpaint_allocates_witness :
  exists s, sys_beginpaint u0 g0 = Ok 1 s /\ (exists h, hdcVals s !! 1%nat = Some h /\ h_init h = 1).
Proof.
  eexists. split.
  - rewrite (sys_beginpaint_allocates u0 g0 0); reflexivity.
  - eexists. split; reflexivity.
Defined.

Lemma sys_endpaint_runs_queue_witness :
  exists s, sys_endpaint u0 g0 = Ok 0 s /\ (exists h, hdcVals s !! 0%nat = Some h /\ h_init h = 0).
Proof.
  eexists. split.
  - rewrite (sys_endpaint_runs_queue u0 g0 0 ctx0 5);
      [reflexivity|exact g0_ctx0|reflexivity|reflexivity|unfold NQUEUE; cbn; lia|reflexivity..].
  - eexists. split; reflexivity.
Defined.

Lemma queued_line_is_lineto_witness : exists s' c, AppendLineTo 2000 2100 0 1000 1100 g0 = Ok 0 s'
  /\ quiet (run_action c g0) = quiet (sys_lineto u0 g0).
Proof.
  destruct (queued_line_is_lineto 2000 2100 1000 1100) with (s := g0) (i := 0) (h := ctx0) (vx := 5) (vy := 7)
    as (s' & c & E & _ & H); try (unfold apart; lia); try exact g0_ctx0; try exact g0_buffer5; try exact g0_buffer7.
  - unfold NQUEUE. cbn. lia.
  - discriminate.
  - exists s', c. split; [exact E|].
    apply (H g0 ctx0 u0 g0_ctx0); [unfold on_screen; cbn; lia|reflexivity..].
Defined.

Lemma queued_pixel_is_setpixel_witness : exists s' c, AppendPixel 2000 2100 0 1000 1100 g0 = Ok 0 s'
  /\ quiet (run_action c g0) = quiet (sys_setpixel u0 g0).
Proof.
  destruct (queued_pixel_is_setpixel 2000 2100 1000 1100) with (s := g0) (i := 0) (h := ctx0) (vx := 5) (vy := 7)
    as (s' & c & E & _ & H); try (unfold apart; lia); try exact g0_ctx0; try exact g0_buffer5; try exact g0_buffer7.
  - unfold NQUEUE. cbn. lia.
  - discriminate.
  - exists s', c. split; [exact E|]. apply (H g0 ctx0 u0 g0_ctx0); reflexivity.
Defined.

Lemma hdc_upper_bound_witness :
  (exists r s', sys_setpixel u0 g0 = Ok r s') /\ sys_getHDC u0 g0 <> Fault "hdcObjects".
Proof.
  destruct (hdc_upper_bound u0 g0 0 5 7) as [H1 H2]; [reflexivity..|]. split.
  - apply H1. unfold NHDC. lia.
  - intros E. apply H2 in E. discriminate E.
Defined.
