(* ===== verification/Spinlock.v ===== *)
(** * Spin locks (spinlock.c)

    The per-CPU interrupt nesting of pushcli/popcli, and the lock protocol.
    The first part gives each routine as one function of the CPU that runs
    it.  The second part cuts acquire and release at the accesses to the lock
    that other CPUs can see (the xchg, the store of [lk->cpu], the store of
    [lk->locked]) and interleaves any number of CPUs over any set of locks. *)

From S2P Require Import Prelude Mem.
#[local] Open Scope Z_scope.
#[local] Open Scope kernel_scope.

(** The fields of [struct cpu] that the locks use, and the interrupt flag of
    that CPU's eflags. *)
Record cpu := { ncli : Z; intena : bool; FL_IF : bool }.

Record spinlock := { locked : Z; lk_cpu : option nat; pcs : list Z }.

(** The CPUs, the locks by address, and kernel memory (for the call stack). *)
Record machine := { cpus : nat -> cpu; locks : Z -> spinlock; kmemory : mem }.

Definition L : Type -> Type := K machine.

Definition set_cpu (c : nat) (x : cpu) (m : machine) : machine :=
  {| cpus := <[c := x]> (cpus m); locks := locks m; kmemory := kmemory m |}.
Definition set_lock (l : Z) (x : spinlock) (m : machine) : machine :=
  {| cpus := cpus m; locks := <[l := x]> (locks m); kmemory := kmemory m |}.

(** ** Interrupt nesting *)

Definition pushcli (me : nat) : L unit :=
  c <- gets (fun m => cpus m me) ;;
  let eflags := FL_IF c in
  let intena' := if ncli c =? 0 then eflags else intena c in
  modify (set_cpu me {| ncli := ncli c + 1; intena := intena'; FL_IF := false |}).

Definition popcli (me : nat) : L unit :=
  c <- gets (fun m => cpus m me) ;;
  if FL_IF c then panic "popcli - interruptible"
  else
    let n := ncli c - 1 in
    if n <? 0 then panic "popcli"
    else modify (set_cpu me {| ncli := n; intena := intena c;
                               FL_IF := (n =? 0) && intena c |}).

(** ** The lock *)

Definition initlock (l : Z) : L unit :=
  modify (fun m => set_lock l {| locked := 0; lk_cpu := None; pcs := pcs (locks m l) |} m).

Definition holding (me : nat) (l : Z) : L bool :=
  pushcli me ;;;
  k <- gets (fun m => locks m l) ;;
  let r := negb (locked k =? 0) && bool_decide (lk_cpu k = Some me) in
  popcli me ;;;
  kret r.

(** The frame-pointer walk: return addresses while %ebp points into the
    kernel, at most ten of them, then zeros. *)
Fixpoint callerpcs_loop (m : mem) (ebp : Z) (n : nat) : list Z :=
  match n with
  | O => []
  | S n =>
      if (ebp =? 0) || (ebp <? 0x80000000) || (ebp =? 0xffffffff) then repeat 0 (S n)
      else load32 m (u32 (ebp + 4)) :: callerpcs_loop m (load32 m ebp) n
  end.

Definition getcallerpcs (m : mem) (v : Z) : list Z := callerpcs_loop m (u32 (v - 8)) 10.

(** acquire up to its loop, one turn of the loop's xchg, and the rest; [v] is
    the address of acquire's own parameter. *)
Definition acquire_begin (me : nat) (l : Z) : L unit :=
  pushcli me ;;;
  h <- holding me l ;;
  if h : bool then panic "acquire" else kret tt.

Definition xchg (l : Z) (new : Z) : L Z :=
  k <- gets (fun m => locks m l) ;;
  modify (set_lock l {| locked := new; lk_cpu := lk_cpu k; pcs := pcs k |}) ;;;
  kret (locked k).

Definition acquire_end (me : nat) (l v : Z) : L unit :=
  modify (fun m => set_lock l {| locked := locked (locks m l); lk_cpu := Some me;
                                 pcs := getcallerpcs (kmemory m) v |} m).

Fixpoint acquire_loop (fuel : nat) (l : Z) : L unit :=
  match fuel with
  | O => nofuel
  | S fuel =>
      old <- xchg l 1 ;;
      if negb (old =? 0) then acquire_loop fuel l else kret tt
  end.

Definition acquire (fuel : nat) (me : nat) (l v : Z) : L unit :=
  acquire_begin me l ;;; acquire_loop fuel l ;;; acquire_end me l v.

Definition release_begin (me : nat) (l : Z) : L unit :=
  h <- holding me l ;;
  if negb h then panic "release"
  else modify (fun m => set_lock l {| locked := locked (locks m l); lk_cpu := None;
                                      pcs := <[0%nat := 0]> (pcs (locks m l)) |} m).

Definition release_end (me : nat) (l : Z) : L unit :=
  modify (fun m => set_lock l {| locked := 0; lk_cpu := lk_cpu (locks m l);
                                 pcs := pcs (locks m l) |} m) ;;;
  popcli me.

Definition release (me : nat) (l : Z) : L unit :=
  release_begin me l ;;; release_end me l.

(** ** Interleaved CPUs

    Where a CPU stands: outside the lock code, in the loop of acquire, past
    the xchg that won, or past [lk->cpu = 0] in release.  [held] lists the
    locks whose acquire has returned and whose release has not. *)

Inductive where_ := Running | Spinning (l : Z) | Won (l : Z) | Dropping (l : Z).

Record thread := { held : list Z; at_ : where_ }.

Record world := { hw : machine; threads : nat -> thread }.

Definition set_thread (c : nat) (t : thread) (f : nat -> thread) : nat -> thread :=
  <[c := t]> f.

(** The client's discipline is that a CPU releases only a lock it holds;
    which lock it acquires, and when, is free. *)
Inductive step : world -> world -> Prop :=
| step_acquire c l m m' th h :
    th c = {| held := h; at_ := Running |} ->
    acquire_begin c l m = Ok tt m' ->
    step {| hw := m; threads := th |}
         {| hw := m'; threads := set_thread c {| held := h; at_ := Spinning l |} th |}
| step_xchg c l m m' th h old :
    th c = {| held := h; at_ := Spinning l |} ->
    xchg l 1 m = Ok old m' ->
    step {| hw := m; threads := th |}
         {| hw := m'; threads := set_thread c
              {| held := h; at_ := if negb (old =? 0) then Spinning l else Won l |} th |}
| step_acquired c l v m m' th h :
    th c = {| held := h; at_ := Won l |} ->
    acquire_end c l v m = Ok tt m' ->
    step {| hw := m; threads := th |}
         {| hw := m'; threads := set_thread c {| held := l :: h; at_ := Running |} th |}
| step_release c l m m' th h :
    th c = {| held := h; at_ := Running |} -> l ∈ h ->
    release_begin c l m = Ok tt m' ->
    step {| hw := m; threads := th |}
         {| hw := m'; threads := set_thread c {| held := h; at_ := Dropping l |} th |}
| step_released c l m m' th h :
    th c = {| held := h; at_ := Dropping l |} ->
    release_end c l m = Ok tt m' ->
    step {| hw := m; threads := th |}
         {| hw := m'; threads := set_thread c
              {| held := filter (fun x => x <> l) h; at_ := Running |} th |}.

(** The locks a CPU has won and not yet given back. *)
Definition owned (t : thread) : list Z :=
  match at_ t with Won l => l :: held t | _ => held t end.

(** A machine at rest: no lock taken, no nesting, interrupts as given. *)
Definition at_rest (w : world) : Prop :=
  (forall l, locked (locks (hw w) l) = 0 /\ lk_cpu (locks (hw w) l) = None)
  /\ (forall c, ncli (cpus (hw w) c) = 0 /\ threads w c = {| held := []; at_ := Running |}).

(** ** Nesting, one CPU *)

(** A CPU [n] pushclis deep that had interrupts [e] at depth 0. *)
Definition cpu_ok (e : bool) (n : Z) (c : cpu) : Prop :=
  0 <= n /\ ncli c = n /\ (0 < n -> intena c = e) /\ FL_IF c = (n =? 0) && e.

(** Only CPU [me] differs, and it is now [n] deep. *)
Definition moved (e : bool) (me : nat) (n : Z) (m m' : machine) : Prop :=
  cpu_ok e n (cpus m' me) /\ (forall d, d <> me -> cpus m' d = cpus m d)
  /\ locks m' = locks m /\ kmemory m' = kmemory m.

Lemma moved_trans e me n n' m1 m2 m3 :
  moved e me n m1 m2 -> moved e me n' m2 m3 -> moved e me n' m1 m3.
Proof.
  intros (_ & H1 & H2 & H3) (G & G1 & G2 & G3). split; [done|]. split; [|by rewrite G2, G3].
  intros d Hd. by rewrite G1, H1.
Qed.

Lemma moved_set e me n c m : cpu_ok e n c -> moved e me n m (set_cpu me c m).
Proof.
  intros H. unfold moved. cbn. rewrite fn_lookup_insert. split; [done|]. split; [|done].
  intros d Hd. by rewrite fn_lookup_insert_ne.
Qed.

Lemma pushcli_ok e n me m :
  cpu_ok e n (cpus m me) -> exists m', pushcli me m = Ok tt m' /\ moved e me (n + 1) m m'.
Proof.
  intros (H0 & H1 & H2 & H3). unfold pushcli, kbind, gets, modify.
  eexists. split; [reflexivity|]. apply moved_set. unfold cpu_ok. cbn.
  split; [lia|]. split; [lia|]. split.
  - intros _. rewrite H1. destruct (Z.eqb_spec n 0) as [->|]; [by rewrite H3|apply H2; lia].
  - destruct (Z.eqb_spec (n + 1) 0); [lia|done].
Qed.

Lemma popcli_ok e n me m :
  0 <= n -> cpu_ok e (n + 1) (cpus m me) ->
  exists m', popcli me m = Ok tt m' /\ moved e me n m m'.
Proof.
  intros Hn (H0 & H1 & H2 & H3). unfold popcli, kbind, gets, modify, panic.
  rewrite H3, H1. destruct (Z.eqb_spec (n + 1) 0); [lia|]. cbn [andb].
  replace (n + 1 - 1) with n by lia. destruct (Z.ltb_spec n 0); [lia|].
  eexists. split; [reflexivity|]. apply moved_set. unfold cpu_ok. cbn.
  split; [lia|]. split; [lia|]. split.
  - intros _. apply H2. lia.
  - by rewrite (H2 ltac:(lia)).
Qed.

Lemma holding_ok e n me l m :
  cpu_ok e n (cpus m me) ->
  exists m', holding me l m =
      Ok (negb (locked (locks m l) =? 0) && bool_decide (lk_cpu (locks m l) = Some me)) m'
    /\ moved e me n m m'.
Proof.
  intros H. destruct (pushcli_ok e n me m H) as (m1 & E1 & M1).
  destruct (popcli_ok e n me m1 (proj1 H) (proj1 M1)) as (m2 & E2 & M2).
  exists m2. split; [|exact (moved_trans _ _ _ _ _ _ _ M1 M2)].
  unfold holding. rewrite (kbind_ok _ _ _ _ _ E1). unfold kbind, gets. rewrite E2.
  destruct M1 as (_ & _ & -> & _). done.
Qed.

(** ** The invariant of the interleaved CPUs *)

Definition depth (t : thread) : Z :=
  Z.of_nat (length (held t)) + match at_ t with Spinning _ | Won _ => 1 | _ => 0 end.

(** CPU [c] is recorded in lock [l] from [lk->cpu = mycpu()] to [lk->cpu = 0]. *)
Definition recorded (t : thread) (l : Z) : Prop := l ∈ held t /\ at_ t <> Dropping l.

Record good (en : nat -> bool) (w : world) : Prop := {
  good_owner : forall l, locked (locks (hw w) l) <> 0 <-> exists c, l ∈ owned (threads w c);
  good_one : forall l c d, l ∈ owned (threads w c) -> l ∈ owned (threads w d) -> c = d;
  good_nodup : forall c, NoDup (owned (threads w c));
  good_cpu : forall l c, lk_cpu (locks (hw w) l) = Some c <-> recorded (threads w c) l;
  good_cli : forall c, cpu_ok (en c) (depth (threads w c)) (cpus (hw w) c);
  good_drop : forall c l, at_ (threads w c) = Dropping l -> l ∈ held (threads w c) }.

Lemma good_init w : at_rest w -> good (fun c => FL_IF (cpus (hw w) c)) w.
Proof.
  intros [Hl Hc]. split.
  - intros l. destruct (Hl l) as [-> _]. split; [done|]. intros [c H].
    destruct (Hc c) as [_ E]. rewrite E in H. by apply elem_of_nil in H.
  - intros l c d H. destruct (Hc c) as [_ E]. rewrite E in H. by apply elem_of_nil in H.
  - intros c. destruct (Hc c) as [_ ->]. constructor.
  - intros l c. destruct (Hl l) as [_ ->]. split; [done|]. intros [H _].
    destruct (Hc c) as [_ E]. rewrite E in H. by apply elem_of_nil in H.
  - intros c. destruct (Hc c) as [E ->]. repeat split; cbn; try lia; try done.
  - intros c l. destruct (Hc c) as [_ ->]. done.
Qed.

Lemma with_thread c t th d :
  set_thread c t th d = if decide (c = d) then t else th d.
Proof.
  unfold set_thread. case_decide; [subst; by rewrite fn_lookup_insert|by rewrite fn_lookup_insert_ne].
Qed.

(** A step of CPU [c] that leaves the locks alone. *)
Lemma good_local en c t m m' th :
  good en {| hw := m; threads := th |} ->
  moved (en c) c (depth t) m m' ->
  owned t = owned (th c) -> (forall l, recorded t l <-> recorded (th c) l) ->
  (forall l, at_ t = Dropping l -> l ∈ held t) ->
  good en {| hw := m'; threads := set_thread c t th |}.
Proof.
  intros [G1 G2 G3 G4 G5 G6] (M1 & M2 & M3 & M4) Ho Hr Hd. cbn in *.
  assert (Ho' : forall d, owned (set_thread c t th d) = owned (th d)).
  { intros d. rewrite with_thread. case_decide; [by subst|done]. }
  split; cbn; rewrite ?M3.
  - intros l. rewrite G1. by setoid_rewrite Ho'.
  - intros l d e. rewrite !Ho'. apply G2.
  - intros d. rewrite Ho'. apply G3.
  - intros l d. rewrite G4, with_thread. case_decide; [subst; by rewrite Hr|done].
  - intros d. rewrite with_thread. case_decide; [by subst|]. rewrite M2 by done. apply G5.
  - intros d l. rewrite with_thread. case_decide; [apply Hd|apply G6].
Qed.

Lemma length_remove (l : Z) h :
  NoDup h -> l ∈ h -> Z.of_nat (length (filter (fun x => x <> l) h)) + 1 = Z.of_nat (length h).
Proof.
  induction 1 as [|x h Hx Hh IH]; intros Hl; [by apply elem_of_nil in Hl|].
  rewrite filter_cons. case_decide as Hd; cbn [length].
  - apply elem_of_cons in Hl as [->|Hl]; [done|]. specialize (IH Hl). lia.
  - subst x. rewrite filter_id; [lia|].
    apply Forall_forall. intros y Hy ->. done.
Qed.

(** A step that changes lock [l] and the place of CPU [c]: what is left to
    show about that lock and that CPU. *)
Lemma good_update en c l t x m m' th :
  good en {| hw := m; threads := th |} ->
  locks m' = <[l := x]> (locks m) -> (forall d, d <> c -> cpus m' d = cpus m d) ->
  cpu_ok (en c) (depth t) (cpus m' c) ->
  (locked x <> 0 <-> exists d, l ∈ owned (set_thread c t th d)) ->
  (forall l', l' <> l -> l' ∈ owned t <-> l' ∈ owned (th c)) ->
  (forall d, d <> c -> l ∈ owned t -> l ∉ owned (th d)) ->
  (forall d, lk_cpu x = Some d <-> recorded (set_thread c t th d) l) ->
  (forall l', l' <> l -> recorded t l' <-> recorded (th c) l') ->
  NoDup (owned t) -> (forall l', at_ t = Dropping l' -> l' ∈ held t) ->
  good en {| hw := m'; threads := set_thread c t th |}.
Proof.
  intros [G1 G2 G3 G4 G5 G6] Hl Hcpu Hdep Hown Hoth Hne Hrec Hrec' Hnd Hdrop. cbn in *.
  assert (Ho : forall l' d, l' <> l -> l' ∈ owned (set_thread c t th d) <-> l' ∈ owned (th d)).
  { intros l' d Hl'. rewrite with_thread. case_decide; [subst; by apply Hoth|done]. }
  split; cbn; rewrite ?Hl.
  - intros l'. destruct (decide (l = l')) as [<-|Hll]; [by rewrite fn_lookup_insert|].
    rewrite fn_lookup_insert_ne by done. rewrite G1. by setoid_rewrite Ho.
  - intros l' d e H1 H2. destruct (decide (l' = l)) as [->|Hll].
    + rewrite with_thread in H1, H2. repeat case_decide; subst; try done.
      * by destruct (Hne e).
      * by destruct (Hne d).
      * by apply (G2 l).
    + rewrite Ho in H1, H2 by done. by apply (G2 l').
  - intros d. rewrite with_thread. case_decide; [by subst|apply G3].
  - intros l' d. destruct (decide (l = l')) as [<-|Hll]; [by rewrite fn_lookup_insert|].
    rewrite fn_lookup_insert_ne, G4, with_thread by done. case_decide; [subst; symmetry; by apply Hrec'|done].
  - intros d. rewrite with_thread. case_decide; [by subst|]. rewrite Hcpu by done. apply G5.
  - intros d l'. rewrite with_thread. case_decide; [apply Hdrop|apply G6].
Qed.

(** One lemma for each kind of step. *)
Lemma good_acquire en c l m m' th h : th c = {| held := h; at_ := Running |} -> acquire_begin c l m = Ok tt m' ->
  good en {| hw := m; threads := th |} -> good en {| hw := m'; threads := set_thread c {| held := h; at_ := Spinning l |} th |}.
Proof.
  intros Ht Hrun G.
  pose proof (good_cli _ _ G c) as Hc. cbn in Hc. rewrite Ht in Hc.
  unfold acquire_begin in Hrun.
  destruct (pushcli_ok _ _ _ _ Hc) as (m1 & E1 & M1). rewrite (kbind_ok _ _ _ _ _ E1) in Hrun.
  destruct (holding_ok _ _ _ l _ (proj1 M1)) as (m2 & E2 & M2).
  rewrite (kbind_ok _ _ _ _ _ E2) in Hrun. destruct (_ && _) in Hrun; [done|].
  injection Hrun as <-. pose proof (moved_trans _ _ _ _ _ _ _ M1 M2) as M. clear M1 M2.
  eapply (good_local en c _ _ _ _ G); [|by rewrite Ht|..].
  + cbn [held at_]. unfold depth in *. cbn in *. by rewrite Z.add_0_r in M.
  + intros l'. rewrite Ht. unfold recorded. cbn. split; (split; [tauto|done]).
  + done.
Qed.

Lemma good_xchg en c l m m' th h old : th c = {| held := h; at_ := Spinning l |} -> xchg l 1 m = Ok old m' ->
  good en {| hw := m; threads := th |} -> good en {| hw := m'; threads := set_thread c {| held := h; at_ := if negb (old =? 0) then Spinning l else Won l |} th |}.
Proof.
  intros Ht Hrun G.
  unfold xchg, kbind, gets, modify, kret in Hrun. injection Hrun as <- <-.
  pose proof G as [G1 G2 G3 G4 G5 G6]. cbn in *.
  pose proof (G5 c) as Hc. pose proof (G3 c) as Hn. rewrite Ht in Hc, Hn.
  assert (Hrd : forall d l', recorded (set_thread c {| held := h; at_ := if negb (locked (locks m l) =? 0)
    then Spinning l else Won l |} th d) l' <-> recorded (th d) l').
  { intros d l'. rewrite with_thread. case_decide; [subst d; rewrite Ht|done].
    unfold recorded. cbn. destruct (Z.eqb_spec (locked (locks m l)) 0); cbn; (split; intros [? _]; done). }
  pose proof (fun l' => Hrd c l') as Hrc. rewrite with_thread, decide_True in Hrc by done.
  destruct (Z.eqb_spec (locked (locks m l)) 0) as [E|E]; cbn [negb] in *;
    (eapply (good_update en c l); [exact G|reflexivity|done|exact Hc|..]); cbn;
    try (intros; rewrite Hrc; done); try done.
  + split; [|done]. intros _. exists c. rewrite with_thread, decide_True by done. constructor.
  + intros l' Hl'. rewrite Ht. cbn. unfold owned. cbn. rewrite elem_of_cons. tauto.
  + intros d Hd _ Ho. destruct (proj2 (G1 l)); [by exists d|done].
  + intros d. by rewrite G4, Hrd.
  + constructor; [|done]. intros Hin. destruct (proj2 (G1 l)); [exists c; by rewrite Ht|done].
  + split; [|done]. intros _. apply G1 in E as [d Hd]. exists d.
    rewrite with_thread. case_decide; [|done]. subst d. by rewrite Ht in Hd.
  + intros l' _. by rewrite Ht.
  + intros d Hd Ho Ho'. apply Hd. symmetry. apply (G2 l); [by rewrite Ht|done].
  + intros d. by rewrite G4, Hrd.
Qed.

Lemma good_acquired en c l m m' th h v : th c = {| held := h; at_ := Won l |} -> acquire_end c l v m = Ok tt m' ->
  good en {| hw := m; threads := th |} -> good en {| hw := m'; threads := set_thread c {| held := l :: h; at_ := Running |} th |}.
Proof.
  intros Ht Hrun G.
  injection Hrun as <-. pose proof G as [G1 G2 G3 G4 G5 G6]. cbn in *.
  pose proof (G5 c) as Hc. pose proof (G3 c) as Hn. rewrite Ht in Hc, Hn.
  pose proof (G1 l) as G1l. cbn in G1l.
  eapply (good_update en c l); [exact G|reflexivity|done|..]; cbn; try done.
  + unfold depth in *. cbn in *. replace (Z.of_nat (S (length h)) + 0) with (Z.of_nat (length h) + 1) by lia. done.
  + rewrite G1l. split; intros [d Hd]; exists d; rewrite with_thread in *; case_decide; try done; subst d;
      rewrite Ht in *; done.
  + intros l' _. by rewrite Ht.
  + intros d Hd Ho Ho'. apply Hd. symmetry. apply (G2 l); [by rewrite Ht|done].
  + intros d. rewrite with_thread. case_decide; [subst d|].
    * split; [|done]. intros _. split; [constructor|done].
    * split; [congruence|]. intros [Hin _]. exfalso. apply H. apply (G2 l); [rewrite Ht; constructor|].
      unfold owned. destruct (at_ (th d)); try done. by constructor.
  + intros l' Hl'. rewrite Ht. unfold recorded. cbn. rewrite elem_of_cons. split; (intros [? _]; split; [tauto|done]).
Qed.

Lemma good_release en c l m m' th h : th c = {| held := h; at_ := Running |} -> l ∈ h -> release_begin c l m = Ok tt m' ->
  good en {| hw := m; threads := th |} -> good en {| hw := m'; threads := set_thread c {| held := h; at_ := Dropping l |} th |}.
Proof.
  intros Ht Hl Hrun G.
  pose proof G as [G1 G2 G3 G4 G5 G6]. cbn in *.
  pose proof (G5 c) as Hc. pose proof (G3 c) as Hn. rewrite Ht in Hc, Hn.
  unfold release_begin in Hrun.
  destruct (holding_ok _ _ _ l _ Hc) as (m1 & E1 & M1 & M2 & M3 & M4).
  rewrite (kbind_ok _ _ _ _ _ E1) in Hrun. destruct (_ && _) eqn:E in Hrun; [|done].
  injection Hrun as <-. apply andb_prop in E as [E _].
  eapply (good_update en c l); [exact G|cbn; by rewrite M3|done|exact M1|..]; cbn; try rewrite M3.
  + split; [|by intros _ E0; rewrite E0 in E]. intros _. exists c.
    by rewrite with_thread, decide_True by done.
  + intros l' _. by rewrite Ht.
  + intros d Hd Ho Ho'. apply Hd. symmetry. apply (G2 l); [by rewrite Ht|done].
  + intros d. split; [done|]. rewrite with_thread. destruct (decide (c = d)) as [|Hcd].
    { intros [_ Hx]. by destruct Hx. }
    intros [Hin _]. exfalso. apply Hcd. apply (G2 l); [by rewrite Ht|].
    unfold owned. destruct (at_ (th d)); try done. by constructor.
  + intros l' Hl'. rewrite Ht. unfold recorded. cbn. split; (intros [? _]; split; congruence).
  + done.
  + by intros l' [= <-].
Qed.

Lemma good_released en c l m m' th h : th c = {| held := h; at_ := Dropping l |} -> release_end c l m = Ok tt m' ->
  good en {| hw := m; threads := th |} -> good en {| hw := m'; threads := set_thread c {| held := filter (fun x => x <> l) h; at_ := Running |} th |}.
Proof.
  intros Ht Hrun G.
  pose proof G as [G1 G2 G3 G4 G5 G6]. cbn [hw threads] in *.
  pose proof (G5 c) as Hc. pose proof (G3 c) as Hn. pose proof (G6 c l) as Hin.
  rewrite Ht in Hc, Hn, Hin. specialize (Hin eq_refl). cbn [held] in *. unfold owned in Hn; cbn in Hn.
  pose proof (length_remove l h Hn Hin) as Hlen. unfold depth in Hc. cbn in Hc.
  rewrite <- Hlen, Z.add_0_r in Hc.
  unfold release_end, kbind, modify in Hrun.
  match type of Hrun with popcli _ ?m0 = _ =>
    destruct (popcli_ok (en c) (Z.of_nat (length (filter (fun x => x <> l) h))) c m0) as (m1 & E1 & M1 & M2 & M3 & M4)
  end; [lia|exact Hc|]. rewrite E1 in Hrun. injection Hrun as <-.
  eapply (good_update en c l); [exact G|exact M3|exact M2| |..]; cbn.
  + unfold depth. cbn. by rewrite Z.add_0_r.
  + split; [done|]. intros [d Hd]. rewrite with_thread in Hd. case_decide.
    * unfold owned in Hd. cbn in Hd. by apply list_elem_of_filter in Hd as [? _].
    * exfalso. apply H. apply (G2 l); [by rewrite Ht|done].
  + intros l' Hl'. rewrite Ht. unfold owned. cbn. rewrite list_elem_of_filter. tauto.
  + intros d _ Ho. unfold owned in Ho. cbn in Ho. by apply list_elem_of_filter in Ho as [? _].
  + intros d. split.
    * intros E%G4. destruct (decide (d = c)) as [->|Hd].
      { destruct E as [_ E]. by rewrite Ht in E. }
      exfalso. apply Hd. symmetry. destruct E as [E _]. apply (G2 l); [by rewrite Ht|].
      unfold owned. destruct (at_ (th d)); try done. by constructor.
    * rewrite with_thread. case_decide; [|by rewrite <- G4].
      intros [Hd _]. cbn in Hd. by apply list_elem_of_filter in Hd as [? _].
  + intros l' Hl'. rewrite Ht. unfold recorded. cbn. rewrite list_elem_of_filter.
    split; [intros [[_ ?] _]|intros [? _]]; split; try done; congruence.
  + unfold owned. cbn. by apply NoDup_filter.
  + done.
Qed.

Lemma step_good en w w' : step w w' -> good en w -> good en w'.
Proof.
  destruct 1; intros G; [by eapply good_acquire|by eapply good_xchg|by eapply good_acquired|by eapply good_release|by eapply good_released].
Qed.

(** ** Theorems *)

(** C17: any number of CPUs, taking and giving back any locks in any order,
    starting from locks that are all free: at most one CPU at a time is
    between the xchg that won a lock and the store that frees it. *)
Theorem mutual_exclusion w0 w l c d :
  at_rest w0 -> star step w0 w ->
  l ∈ owned (threads w c) -> l ∈ owned (threads w d) -> c = d.
Proof.
  intros H0 Hs. apply (good_one _ _ (star_invariant _ _ _ _ (step_good _) Hs (good_init w0 H0))).
Qed.

(** on every reachable interleaving, while a CPU holds or waits for any
    lock its interrupts are off, and when it holds none they are back to what
    they were at the start; pushcli nesting equals the number of locks. *)
Theorem interrupts_follow_nesting w0 w c :
  at_rest w0 -> star step w0 w ->
  ncli (cpus (hw w) c) = depth (threads w c)
  /\ FL_IF (cpus (hw w) c) = (depth (threads w c) =? 0) && FL_IF (cpus (hw w0) c).
Proof.
  intros H0 Hs.
  pose proof (good_cli _ _ (star_invariant _ _ _ _ (step_good _) Hs (good_init w0 H0)) c) as (_ & ? & _ & ?).
  done.
Qed.

(** the panics of the lock code are exactly its misuse.  A CPU that has no
    half-finished lock operation gets past the check of acquire(l) when it
    does not hold [l] and panics when it does; it gets through release(l)
    when it holds [l] and panics when it does not. *)
Theorem lock_panics w0 w c l :
  at_rest w0 -> star step w0 w -> at_ (threads w c) = Running ->
  if decide (l ∈ held (threads w c))
  then acquire_begin c l (hw w) = Panic "acquire" /\ exists m, release c l (hw w) = Ok tt m
  else (exists m, acquire_begin c l (hw w) = Ok tt m) /\ release c l (hw w) = Panic "release".
Proof.
  intros H0 Hs Hr.
  pose proof (star_invariant _ _ _ _ (step_good _) Hs (good_init w0 H0)) as [G1 G2 _ G4 G5 _].
  destruct (pushcli_ok _ _ _ _ (G5 c)) as (m1 & E1 & M1).
  destruct (holding_ok _ _ _ l _ (proj1 M1)) as (m2 & E2 & M2).
  destruct (holding_ok _ _ _ l _ (G5 c)) as (m3 & E3 & M3).
  unfold acquire_begin, release. rewrite (kbind_ok _ _ _ _ _ E1), (kbind_ok _ _ _ _ _ E2).
  unfold release_begin. rewrite kbind_assoc, (kbind_ok _ _ _ _ _ E3).
  destruct M1 as (_ & _ & -> & _).
  assert (Hh : negb (locked (locks (hw w) l) =? 0) && bool_decide (lk_cpu (locks (hw w) l) = Some c)
    = bool_decide (l ∈ held (threads w c))).
  { assert (Hrec : lk_cpu (locks (hw w) l) = Some c <-> l ∈ held (threads w c)).
    { rewrite G4. unfold recorded. rewrite Hr. split; [tauto|by split]. }
    rewrite (bool_decide_ext _ _ Hrec).
    destruct (Z.eqb_spec (locked (locks (hw w) l)) 0) as [E|E]; cbn; [|done].
    symmetry. apply bool_decide_eq_false. intros Hin. apply (proj2 (G1 l)); [|done].
    exists c. unfold owned. by rewrite Hr. }
  rewrite Hh. destruct (decide (l ∈ held (threads w c))) as [Hin|Hin].
  - rewrite bool_decide_true by done. split; [done|]. cbn [negb].
    unfold release_end, kbind, modify.
    match goal with |- context [popcli _ ?m0] =>
      destruct (popcli_ok (FL_IF (cpus (hw w0) c)) (depth (threads w c) - 1) c m0) as (m4 & E4 & _)
    end; [|rewrite Z.sub_add; apply M3|eauto].
    unfold depth. destruct (held _); [by apply elem_of_nil in Hin|]. rewrite Hr. cbn. lia.
  - rewrite bool_decide_false by done. split; [by exists m2|done].
Qed.

(** ** A concrete run: CPU 0 takes lock 7 while CPU 1 starts to wait for it *)

Definition rest0 : world :=
  {| hw := {| cpus := fun _ => {| ncli := 0; intena := false; FL_IF := true |};
              locks := fun _ => {| locked := 0; lk_cpu := None; pcs := repeat 0 10 |};
              kmemory := fun _ => 0 |};
     threads := fun _ => {| held := []; at_ := Running |} |}.

Lemma rest0_at_rest : at_rest rest0.
Proof. by repeat split. Qed.

Lemma rest0_run : exists w, star step rest0 w
  /\ threads w 0%nat = {| held := [7]; at_ := Running |}
  /\ threads w 1%nat = {| held := []; at_ := Spinning 7 |}.
Proof.
  eexists. split; [|split].
  - eapply star_step; [eapply (step_acquire 0 7); reflexivity|].
    eapply star_step; [eapply (step_xchg 0 7); reflexivity|].
    eapply star_step; [eapply (step_acquired 0 7 0x80001000); reflexivity|].
    eapply star_step; [eapply (step_acquire 1 7); reflexivity|].
    eapply star_step; [eapply (step_xchg 1 7); reflexivity|]. apply star_refl.
  - reflexivity.
  - reflexivity.
Qed.

Lemma mutual_exclusion_witness : exists w, star step rest0 w
  /\ 7 ∈ owned (threads w 0%nat) /\ (forall d, 7 ∈ owned (threads w d) -> 0%nat = d).
Proof.
  destruct rest0_run as (w & Hs & H0 & _). exists w. split; [exact Hs|].
  assert (Hin : 7 ∈ owned (threads w 0%nat)) by (rewrite H0; constructor).
  split; [exact Hin|]. intros d Hd. exact (mutual_exclusion rest0 w 7 0 d rest0_at_rest Hs Hin Hd).
Defined.

Lemma interrupts_follow_nesting_witness : exists w, star step rest0 w
  /\ FL_IF (cpus (hw w) 0%nat) = false /\ FL_IF (cpus (hw w) 2%nat) = (depth (threads w 2%nat) =? 0).
Proof.
  destruct rest0_run as (w & Hs & H0 & _). exists w. split; [exact Hs|]. split.
  - rewrite (proj2 (interrupts_follow_nesting rest0 w 0 rest0_at_rest Hs)), H0. reflexivity.
  - rewrite (proj2 (interrupts_follow_nesting rest0 w 2 rest0_at_rest Hs)). apply andb_true_r.
Defined.

Lemma lock_panics_witness : exists w, star step rest0 w
  /\ acquire_begin 0 7 (hw w) = Panic "acquire" /\ release 0 8 (hw w) = Panic "release".
Proof.
  destruct rest0_run as (w & Hs & H0 & _). exists w. split; [exact Hs|].
  pose proof (lock_panics rest0 w 0 7 rest0_at_rest Hs) as P7.
  pose proof (lock_panics rest0 w 0 8 rest0_at_rest Hs) as P8.
  rewrite H0 in P7, P8. specialize (P7 eq_refl). specialize (P8 eq_refl). split.
  - exact (proj1 P7).
  - exact (proj2 P8).
Defined.
