(* ===== verification/Kalloc.v ===== *)
(** * The physical page allocator (kalloc.c, memlayout.h)

    The free list is threaded through the free pages themselves: the first
    word of a free page is the address of the next.  The model keeps it
    there, in the byte memory, so that a store to a free page does break the
    list.  Addresses are kernel virtual addresses; [END] is the linker's
    symbol [end].  The state is shared with the page tables (Vm.v). *)

From S2P Require Import Prelude Mem.
#[local] Open Scope Z_scope.
#[local] Open Scope kernel_scope.

Definition EXTMEM : Z := 0x100000.
Definition PHYSTOP : Z := 0xE000000.
Definition DEVSPACE : Z := 0xFE000000.
Definition KERNBASE : Z := 0x80000000.
Definition KERNLINK : Z := KERNBASE + EXTMEM.

Definition V2P (a : Z) : Z := u32 (a - KERNBASE).
Definition P2V (a : Z) : Z := u32 (a + KERNBASE).

Definition PGSIZE : Z := 4096.
Definition PGROUNDUP (sz : Z) : Z := Z.land (u32 (sz + PGSIZE - 1)) (Z.lnot (PGSIZE - 1)).
Definition PGROUNDDOWN (a : Z) : Z := Z.land a (Z.lnot (PGSIZE - 1)).

(** Kernel memory, the fields of [kmem], whether its spin lock is held, and
    the messages printed. *)
Record kstate := {
  k_mem : mem;
  freelist : Z;
  use_lock : bool;
  k_locked : bool;
  k_console : list string }.

Definition M : Type -> Type := K kstate.

Definition set_mem (m : mem) (s : kstate) : kstate :=
  {| k_mem := m; freelist := freelist s; use_lock := use_lock s;
     k_locked := k_locked s; k_console := k_console s |}.
Definition set_freelist (f : Z) (s : kstate) : kstate :=
  {| k_mem := k_mem s; freelist := f; use_lock := use_lock s;
     k_locked := k_locked s; k_console := k_console s |}.
Definition set_use_lock (b : bool) (s : kstate) : kstate :=
  {| k_mem := k_mem s; freelist := freelist s; use_lock := b;
     k_locked := k_locked s; k_console := k_console s |}.
Definition set_locked (b : bool) (s : kstate) : kstate :=
  {| k_mem := k_mem s; freelist := freelist s; use_lock := use_lock s;
     k_locked := b; k_console := k_console s |}.
Definition cprintf (msg : string) : M unit := modify (fun s =>
  {| k_mem := k_mem s; freelist := freelist s; use_lock := use_lock s;
     k_locked := k_locked s; k_console := msg :: k_console s |}).

(** [acquire(&kmem.lock)] and [release(&kmem.lock)] as the CPU that runs
    them sees them (Spinlock.v): re-acquiring and stray releases panic. *)
Definition acquire : M unit :=
  l <- gets k_locked ;; if l : bool then panic "acquire" else modify (set_locked true).
Definition release : M unit :=
  l <- gets k_locked ;; if l : bool then modify (set_locked false) else panic "release".

Definition load (a : Z) : M Z := gets (fun s => load32 (k_mem s) a).
Definition store (a v : Z) : M unit := modify (fun s => set_mem (store32 (k_mem s) a v) s).
Definition memset (dst c n : Z) : M unit :=
  modify (fun s => set_mem (KString.memset (k_mem s) dst c n) s).
Definition memmove (dst src n : Z) : M unit :=
  modify (fun s => set_mem (KString.memmove (k_mem s) dst src n) s).

Section kalloc.
Context (END : Z).

Definition kfree (v : Z) : M unit :=
  if negb (v mod PGSIZE =? 0) || (v <? END) || (V2P v >=? PHYSTOP) then panic "kfree"
  else
    memset v 1 PGSIZE ;;;
    ul <- gets use_lock ;;
    (if ul : bool then acquire else kret tt) ;;;
    f <- gets freelist ;;
    store v f ;;;
    modify (set_freelist v) ;;;
    ul <- gets use_lock ;;
    if ul : bool then release else kret tt.

(** Returns 0 if no page is free. *)
Definition kalloc : M Z :=
  ul <- gets use_lock ;;
  (if ul : bool then acquire else kret tt) ;;;
  r <- gets freelist ;;
  (if negb (r =? 0) then n <- load r ;; modify (set_freelist n) else kret tt) ;;;
  ul <- gets use_lock ;;
  (if ul : bool then release else kret tt) ;;;
  kret r.

(** [for (; p + PGSIZE <= vend; p += PGSIZE) kfree(p);] *)
Fixpoint freerange_loop (fuel : nat) (p vend : Z) : M unit :=
  match fuel with
  | O => nofuel
  | S fuel =>
      if u32 (p + PGSIZE) <=? vend
      then kfree p ;;; freerange_loop fuel (u32 (p + PGSIZE)) vend
      else kret tt
  end.

(** A 32-bit address space has 2^20 pages. *)
Definition freerange (vstart vend : Z) : M unit :=
  freerange_loop (Z.to_nat (vend / PGSIZE) + 1) (PGROUNDUP vstart) vend.

Definition kinit1 (vstart vend : Z) : M unit :=
  modify (set_locked false) ;;;
  modify (set_use_lock false) ;;;
  freerange vstart vend.

Definition kinit2 (vstart vend : Z) : M unit :=
  freerange vstart vend ;;;
  modify (set_use_lock true).

(** ** The free list as a list of pages *)

Definition is_page (v : Z) : Prop :=
  v mod PGSIZE = 0 /\ END <= v /\ KERNBASE <= v < KERNBASE + PHYSTOP.

Fixpoint chain (m : mem) (a : Z) (l : list Z) : Prop :=
  match l with
  | [] => a = 0
  | v :: l' => a = v /\ chain m (load32 m v) l'
  end.

(** Memory below is well formed, the lock is free, and the free list is [l]:
    distinct pages of the managed range. *)
Record free (s : kstate) (l : list Z) : Prop := {
  free_mem : mem_ok (k_mem s);
  free_lock : k_locked s = false;
  free_chain : chain (k_mem s) (freelist s) l;
  free_nodup : NoDup l;
  free_pages : Forall is_page l }.

(** [m] and [m'] agree outside the page [v]. *)
Definition same_off_page (v : Z) (m m' : mem) : Prop :=
  forall x, ~ (v <= x < v + PGSIZE) -> m' x = m x.

(** What kfree and kalloc leave alone. *)
Definition same_rest (s s' : kstate) : Prop :=
  use_lock s' = use_lock s /\ k_console s' = k_console s.

(** ** Lemmas *)

Lemma page_apart u v : u mod PGSIZE = 0 -> v mod PGSIZE = 0 -> u <> v -> u + PGSIZE <= v \/ v + PGSIZE <= u.
Proof. unfold PGSIZE. intros Hu Hv Hne. Z.div_mod_to_equations. lia. Qed.

Lemma is_page_aligned v : is_page v -> v mod PGSIZE = 0.
Proof. by intros [? _]. Qed.

Lemma is_page_pos v : is_page v -> 0 < v.
Proof. intros (_ & _ & ?). unfold KERNBASE in *. lia. Qed.

Lemma load32_off_page v m m' u :
  same_off_page v m m' -> u + 4 <= v \/ v + PGSIZE <= u -> load32 m' u = load32 m u.
Proof. intros H Hu. unfold load32. rewrite !H by (unfold PGSIZE in *; lia). done. Qed.

Lemma chain_frame m m' a l :
  (forall u, u ∈ l -> load32 m' u = load32 m u) -> chain m a l -> chain m' a l.
Proof.
  revert a. induction l as [|v l IH]; intros a Hm; cbn; [done|].
  intros [-> Hc]. split; [done|]. rewrite Hm by constructor. apply IH; [|done].
  intros u Hu. apply Hm. by constructor.
Qed.

Lemma chain_off_page m m' a l v :
  same_off_page v m m' -> v mod PGSIZE = 0 -> Forall is_page l -> v ∉ l ->
  chain m a l -> chain m' a l.
Proof.
  intros Hm Hv Hl Hn. apply chain_frame. intros u Hu.
  apply (load32_off_page v); [done|].
  pose proof (proj1 (Forall_forall _ _) Hl u Hu) as Hp.
  assert (u <> v) by (intros ->; done).
  pose proof (page_apart u v (is_page_aligned _ Hp) Hv H). unfold PGSIZE in *. lia.
Qed.

Lemma memset_page s v c :
  0 <= v -> mem_ok (k_mem s) ->
  exists m, memset v c PGSIZE s = Ok tt (set_mem m s)
    /\ mem_eq m (fill (k_mem s) v PGSIZE (u8 c)) /\ mem_ok m.
Proof.
  intros Hv Hm. eexists. split; [reflexivity|].
  pose proof (StringSpec.memset_fill (k_mem s) v c PGSIZE Hv ltac:(unfold PGSIZE; lia)) as E.
  split; [exact E|]. intros x. rewrite E. apply fill_mem_ok; [done|apply u8_range].
Qed.

Lemma kfree_check v :
  is_page v -> negb (v mod PGSIZE =? 0) || (v <? END) || (V2P v >=? PHYSTOP) = false.
Proof.
  intros (H1 & H2 & H3). unfold V2P. rewrite u32_small by (unfold is_u32, KERNBASE, PHYSTOP in *; lia).
  rewrite H1. cbn. rewrite Z.geb_leb. bool_cases; lia || done.
Qed.

(** Freeing a page of the range that is not free puts it on the list. *)
Lemma kfree_ok s l v :
  free s l -> is_page v -> v ∉ l ->
  exists s', kfree v s = Ok tt s' /\ free s' (v :: l)
    /\ same_off_page v (k_mem s) (k_mem s') /\ same_rest s s'.
Proof.
  intros [Hm Hlk Hc Hnd Hp] Hv Hn. pose proof (is_page_pos v Hv). unfold kfree. rewrite kfree_check by done.
  destruct (memset_page s v 1 ltac:(lia) Hm) as (m1 & E1 & F1 & O1). rewrite (kbind_ok _ _ _ _ _ E1).
  assert (Hoff : same_off_page v (k_mem s) (store32 m1 v (freelist s))).
  { intros x Hx. unfold PGSIZE in *. rewrite store32_out, F1, fill_out by lia. done. }
  exists (set_freelist v (set_mem (store32 m1 v (freelist s)) s)). split; [|split; [|split; [exact Hoff|done]]].
  - destruct s as [m f [|] lk con]; cbn in Hlk; subst lk; reflexivity.
  - split; cbn.
    + by apply store32_mem_ok.
    + done.
    + split; [done|]. rewrite load32_store32. rewrite u32_small.
      * apply (chain_off_page (k_mem s) _ _ _ v); try done. by apply is_page_aligned.
      * destruct l as [|w l]; cbn in Hc; [rewrite Hc; unfold is_u32; lia|].
        destruct Hc as [-> _]. apply Forall_cons in Hp as [(_ & _ & ?) _].
        unfold is_u32, KERNBASE, PHYSTOP in *. lia.
    + by constructor.
    + by constructor.
Qed.

(** Allocating takes the first page of the list, or answers 0 when it is
    empty, and writes nothing. *)
Lemma kalloc_ok s l :
  free s l ->
  kalloc s = Ok (default 0 (head l)) (set_freelist (default 0 (head (tail l))) s)
  /\ free (set_freelist (default 0 (head (tail l))) s) (tail l).
Proof.
  intros [Hm Hlk Hc Hnd Hp].
  assert (Hh : freelist s = default 0 (head l)) by (destruct l; [done|by destruct Hc]).
  assert (Ht : chain (k_mem s) (default 0 (head (tail l))) (tail l)).
  { destruct l as [|v [|w l]]; cbn in *; tauto. }
  assert (Hn : if decide (l = []) then True else load32 (k_mem s) (freelist s) = default 0 (head (tail l))).
  { destruct l as [|v [|w l]]; cbn in *; [done| |]; destruct Hc as (-> & ?); tauto. }
  split.
  - rewrite <- Hh. unfold kalloc, kbind, gets, acquire, release, load, kret, modify. cbn.
    destruct s as [m f [|] lk con]; cbn in *; subst lk; cbn;
    (destruct l as [|v l]; cbn in *; [subst f; done|]);
    (apply Forall_cons in Hp as [Hv _]; pose proof (is_page_pos v Hv);
     subst f; destruct (Z.eqb_spec v 0); [lia|]; cbn; by rewrite Hn).
  - split; cbn; try done.
    + destruct l; [done|]. by apply NoDup_cons in Hnd as [_ ?].
    + destruct l; [done|]. by apply Forall_cons in Hp as [_ ?].
Qed.

(** ** freerange *)

Lemma PGROUNDDOWN_div a : PGROUNDDOWN a = PGSIZE * (a / PGSIZE).
Proof.
  unfold PGROUNDDOWN, PGSIZE. change (4096 - 1) with (Z.ones 12).
  rewrite <- Z.ldiff_land, Z.ldiff_ones_r by lia.
  rewrite Z.shiftl_mul_pow2, Z.shiftr_div_pow2 by lia. change (2 ^ 12) with 4096. lia.
Qed.

Lemma PGROUNDUP_div a : 0 <= a -> a + PGSIZE <= 2 ^ 32 -> PGROUNDUP a = PGSIZE * ((a + PGSIZE - 1) / PGSIZE).
Proof.
  intros H0 H1. unfold PGROUNDUP. rewrite u32_small by (unfold is_u32, PGSIZE in *; lia).
  exact (PGROUNDDOWN_div _).
Qed.

(** The [n] pages from [p] up, last one first, as freerange leaves them. *)
Fixpoint freed (p : Z) (n : nat) (l : list Z) : list Z :=
  match n with
  | O => l
  | S n => freed (p + PGSIZE) n (p :: l)
  end.

Lemma elem_freed x p n l :
  x ∈ freed p n l <-> x ∈ l \/ exists i, 0 <= i < Z.of_nat n /\ x = p + PGSIZE * i.
Proof.
  revert p l. induction n as [|n IH]; intros p l; cbn [freed].
  - split; [by left|]. intros [?|(i & ? & _)]; [done|lia].
  - rewrite IH, elem_of_cons. split.
    + intros [[->|?]|(i & ? & ->)]; [right; exists 0; lia|by left|right; exists (i + 1); lia].
    + intros [?|(i & ? & ->)]; [by left; right|].
      destruct (decide (i = 0)) as [->|]; [left; left; lia|right; exists (i - 1); lia].
Qed.

Lemma freerange_loop_ok n fuel s l p vend :
  free s l -> p mod PGSIZE = 0 -> END <= p -> KERNBASE <= p <= KERNBASE + PHYSTOP ->
  vend <= KERNBASE + PHYSTOP -> Z.of_nat n = Z.max 0 ((vend - p) / PGSIZE) -> (n < fuel)%nat ->
  (forall i, 0 <= i < Z.of_nat n -> p + PGSIZE * i ∉ l) ->
  exists s', freerange_loop fuel p vend s = Ok tt s' /\ free s' (freed p n l) /\ same_rest s s'.
Proof.
  revert fuel s l p. induction n as [|n IH]; intros [|fuel] s l p Hf Ha He Hk Hv Hn Hfuel Hd; try lia;
    cbn [freerange_loop freed].
  - exists s. split; [|done].
    destruct (Z.leb_spec (u32 (p + PGSIZE)) vend) as [Hle|]; [|done]. exfalso.
    unfold PGSIZE, KERNBASE, PHYSTOP in *.
    rewrite u32_small in Hle by (unfold is_u32; lia). Z.div_mod_to_equations. lia.
  - assert (Hin : p + PGSIZE <= vend) by (unfold PGSIZE in *; Z.div_mod_to_equations; lia).
    rewrite u32_small by (unfold is_u32, PGSIZE, KERNBASE, PHYSTOP in *; lia).
    destruct (Z.leb_spec (p + PGSIZE) vend); [|lia].
    assert (Hp : is_page p) by (split; [done|unfold PGSIZE in *; lia]).
    destruct (kfree_ok s l p Hf Hp) as (s1 & E1 & F1 & _ & R1).
    { specialize (Hd 0 ltac:(lia)). by rewrite Z.mul_0_r, Z.add_0_r in Hd. }
    rewrite (kbind_ok _ _ _ _ _ E1).
    destruct (IH fuel s1 (p :: l) (p + PGSIZE)) as (s2 & E2 & F2 & R2); try (unfold PGSIZE in *; lia).
    + done.
    + unfold PGSIZE in *. Z.div_mod_to_equations. lia.
    + unfold PGSIZE in *. Z.div_mod_to_equations. lia.
    + intros i Hi [E|Hl]%elem_of_cons; [unfold PGSIZE in *; lia|].
      apply (Hd (i + 1) ltac:(lia)). by replace (p + PGSIZE * (i + 1)) with (p + PGSIZE + PGSIZE * i) by lia.
    + exists s2. split; [done|]. split; [done|]. destruct R1, R2. split; congruence.
Qed.

(** ** A client of the allocator

    Any sequence of calls and stores by a kernel that frees only pages it
    was given and stores only to pages it holds (and outside the managed
    pages [all]). *)

Definition in_page (v x : Z) : Prop := v <= x < v + PGSIZE.

Inductive client (all : list Z) : kstate * list Z -> kstate * list Z -> Prop :=
| client_alloc s h v s' :
    kalloc s = Ok v s' -> client all (s, h) (s', if v =? 0 then h else v :: h)
| client_free s h v s' :
    v ∈ h -> kfree v s = Ok tt s' -> client all (s, h) (s', filter (fun w => w <> v) h)
| client_store s h m' :
    mem_ok m' ->
    (forall x v, m' x <> k_mem s x -> v ∈ all -> in_page v x -> v ∈ h) ->
    client all (s, h) (set_mem m' s, h).

Lemma remove_perm (v : Z) h :
  NoDup h -> v ∈ h -> h ≡ₚ v :: filter (fun w => w <> v) h.
Proof.
  induction 1 as [|w h Hw Hh IH]; intros Hv; [by apply elem_of_nil in Hv|].
  destruct (decide (w = v)) as [->|Hne].
  - rewrite filter_cons_False by (intros H; by apply H). rewrite filter_id; [done|].
    apply Forall_forall. by intros x Hx ->.
  - rewrite filter_cons_True by done. apply elem_of_cons in Hv as [->|Hv]; [done|].
    rewrite (IH Hv) at 1. constructor.
Qed.

(** The free pages and the pages the client holds are together [all]. *)
Definition accounted (all : list Z) (c : kstate * list Z) : Prop :=
  exists l, free (fst c) l /\ l ++ snd c ≡ₚ all.

Lemma client_accounted all c c' :
  NoDup all -> Forall is_page all -> client all c c' -> accounted all c -> accounted all c'.
Proof.
  intros Hnd Hpg Hc (l & Hf & Hp). unfold accounted.
  assert (Hn : NoDup (l ++ snd c)) by (by rewrite Hp).
  apply NoDup_app in Hn as (_ & Hdis & Hh).
  destruct Hc as [s h v s' E|s h v s' Hv E|s h m' Hm Hst]; cbn [fst snd] in *.
  - destruct (kalloc_ok s l Hf) as [E' F]. rewrite E' in E. injection E as <- <-.
    exists (tail l). split; [done|]. destruct l as [|v l]; cbn in *; [done|].
    pose proof (free_pages _ _ Hf) as [Hv _]%Forall_cons. pose proof (is_page_pos v Hv).
    destruct (Z.eqb_spec v 0); [lia|]. rewrite <- Hp. symmetry. apply Permutation_middle.
  - destruct (kfree_ok s l v Hf) as (s1 & E1 & F1 & _).
    + apply (proj1 (Forall_forall _ _) Hpg). rewrite <- Hp. apply elem_of_app. by right.
    + intros Hl. by apply (Hdis v).
    + rewrite E1 in E. injection E as <-. exists (v :: l). split; [done|].
      rewrite <- Hp. rewrite (remove_perm v h Hh Hv) at 2. cbn. apply Permutation_middle.
  - exists l. split; [|done]. destruct Hf as [Hm0 Hlk Hch Hnd' Hp']. split; try done. cbn.
    apply (chain_frame (k_mem s)); [|done]. intros u Hu.
    assert (Hx : forall x, in_page u x -> m' x = k_mem s x).
    { intros x Hx. apply dec_stable. intros Hne. apply (Hdis u Hu).
      apply (Hst x u Hne); [|done]. rewrite <- Hp. apply elem_of_app. by left. }
    unfold load32, in_page, PGSIZE in *. by rewrite !Hx by lia.
Qed.

(** C16: a kernel that frees only what it was given never gets the same page
    twice: after any history of kalloc, kfree and stores to its own pages,
    the pages it holds are distinct pages of the initial list; kalloc
    answers 0 exactly when it holds them all, and otherwise gives one it does
    not hold; kfree accepts each page it holds. *)
Theorem kalloc_exclusive all s0 s h :
  free s0 all -> star (client all) (s0, []) (s, h) ->
  NoDup h /\ h ⊆ all
  /\ (exists v s', kalloc s = Ok v s'
        /\ if decide (length h = length all) then v = 0 else v ∈ all /\ v ∉ h)
  /\ (forall v, v ∈ h -> exists s', kfree v s = Ok tt s').
Proof.
  intros H0 Hs. pose proof (free_nodup _ _ H0) as Hnd. pose proof (free_pages _ _ H0) as Hpg.
  assert (Hacc : accounted all (s, h)).
  { apply (star_invariant _ (accounted all) _ _ (fun c c' => client_accounted all c c' Hnd Hpg) Hs).
    exists all. by rewrite app_nil_r. }
  destruct Hacc as (l & Hf & Hp). cbn in *.
  assert (Hn : NoDup (l ++ h)) by (by rewrite Hp). apply NoDup_app in Hn as (_ & Hdis & Hh).
  assert (Hsub : forall v, v ∈ l \/ v ∈ h -> v ∈ all) by (intros v; by rewrite <- Hp, elem_of_app).
  split; [done|]. split; [intros v; auto|]. split.
  - destruct (kalloc_ok s l Hf) as [E _]. eexists _, _. split; [exact E|].
    pose proof (Permutation_length Hp) as Hlen. rewrite length_app in Hlen.
    destruct l as [|v l]; cbn in *; [by rewrite decide_True by lia|rewrite decide_False by lia].
    split; [apply Hsub; left; constructor|]. apply Hdis. constructor.
  - intros v Hv. destruct (kfree_ok s l v Hf) as (s1 & E1 & _).
    + apply (proj1 (Forall_forall _ _) Hpg). auto.
    + intros Hl. by apply (Hdis v).
    + eauto.
Qed.

(** freerange, on an empty allocator, frees every whole page between its
    bounds and no other address, and returns; the allocator is well formed
    afterwards. *)
Theorem freerange_frees_all s vstart vend :
  free s [] -> KERNBASE <= vstart -> END <= vstart -> vend <= KERNBASE + PHYSTOP ->
  vstart <= KERNBASE + PHYSTOP - PGSIZE ->
  exists s' l, freerange vstart vend s = Ok tt s' /\ free s' l
    /\ (forall v, v ∈ l <-> v mod PGSIZE = 0 /\ vstart <= v /\ v + PGSIZE <= vend).
Proof.
  intros Hf Hk He Hv Hb. unfold freerange.
  rewrite PGROUNDUP_div by (unfold KERNBASE, PHYSTOP, PGSIZE in *; lia).
  set (p := PGSIZE * ((vstart + PGSIZE - 1) / PGSIZE)).
  assert (Hp : p mod PGSIZE = 0 /\ vstart <= p < vstart + PGSIZE).
  { unfold p, PGSIZE. Z.div_mod_to_equations. lia. }
  set (n := Z.to_nat ((vend - p) / PGSIZE)).
  assert (Hn : Z.of_nat n = Z.max 0 ((vend - p) / PGSIZE)) by lia.
  assert (Hf' : (n < Z.to_nat (vend / PGSIZE) + 1)%nat).
  { unfold n, PGSIZE, KERNBASE in *. pose proof (Z.div_le_mono (vend - p) vend 4096 ltac:(lia)). lia. }
  clearbody n p.
  destruct (freerange_loop_ok n (Z.to_nat (vend / PGSIZE) + 1) s [] p vend Hf) as (s' & E & F & _);
    try lia; try tauto.
  - intros i _ Hi. by apply elem_of_nil in Hi.
  - exists s', (freed p n []). split; [done|]. split; [done|]. intros v. rewrite elem_freed. split.
    + intros [Hx|(i & Hi & ->)]; [by apply elem_of_nil in Hx|].
      assert (i + 1 <= (vend - p) / PGSIZE) by lia. clear Hn Hf' E.
      unfold PGSIZE in *. Z.div_mod_to_equations. lia.
    + intros (Ha & Hlo & Hhi). right. exists ((v - p) / PGSIZE). rewrite Hn. clear Hn Hf' E F.
      unfold PGSIZE in *. Z.div_mod_to_equations. lia.
Qed.
End kalloc.

(** ** A concrete allocator with two free pages *)

Definition END0 : Z := 0x80100000.
Definition page1 : Z := 0x80101000.
Definition page2 : Z := 0x80102000.

Definition two_pages : kstate :=
  {| k_mem := store32 zeroed page1 page2; freelist := page1; use_lock := true;
     k_locked := false; k_console := [] |}.

Lemma zeroed_ok : mem_ok zeroed.
Proof. intros a. unfold zeroed, is_byte. lia. Qed.

Lemma two_pages_free : free END0 two_pages [page1; page2].
Proof.
  split.
  - apply store32_mem_ok, zeroed_ok.
  - done.
  - by vm_compute.
  - apply NoDup_cons. split; [|apply NoDup_singleton]. intros Hin%list_elem_of_singleton. discriminate Hin.
  - repeat constructor; unfold KERNBASE, END0, page1, page2, PHYSTOP; lia.
Qed.

Lemma kalloc_exclusive_witness : exists s,
  star (client END0 [page1; page2]) (two_pages, []) (s, [page1])
  /\ exists v s', kalloc s = Ok v s' /\ v ∈ [page1; page2] /\ v ∉ [page1].
Proof.
  eexists. assert (Hs : star (client END0 [page1; page2]) (two_pages, [])
    (set_freelist page2 two_pages, [page1])).
  { eapply star_step; [|apply star_refl]. apply (client_alloc _ _ _ [] page1). vm_compute. reflexivity. }
  split; [exact Hs|].
  destruct (kalloc_exclusive END0 _ _ _ _ two_pages_free Hs) as (_ & _ & (v & s' & E & H) & _).
  exists v, s'. split; [exact E|exact H].
Defined.

Definition no_pages : kstate :=
  {| k_mem := zeroed; freelist := 0; use_lock := false; k_locked := false; k_console := [] |}.

Lemma freerange_frees_all_witness : exists s' l,
  freerange END0 0x80100001 0x80103FFF no_pages = Ok tt s' /\ free END0 s' l
  /\ page1 ∈ l /\ page2 ∈ l /\ 0x80103000 ∉ l.
Proof.
  destruct (freerange_frees_all END0 no_pages 0x80100001 0x80103FFF) as (s' & l & E & F & H);
    try (unfold KERNBASE, PHYSTOP, PGSIZE, END0; lia).
  - split; [apply zeroed_ok|done|done|constructor|constructor].
  - exists s', l. split; [exact E|]. split; [exact F|]. split; [|split].
    + apply H. by vm_compute.
    + apply H. by vm_compute.
    + intros (_ & _ & Hle)%H. unfold PGSIZE in Hle. lia.
Defined.
