(* ===== verification/Vm.v ===== *)
(** * Page tables (vm.c, mmu.h)

    A page directory is a page of 1024 words, each present entry naming a
    page of 1024 page-table entries; both live in the kernel memory of
    Kalloc.v and every access below is a load or a store there.  The linker
    symbols [end] and [data] are parameters.  Dereferencing the null pointer
    that walkpgdir may return is a fault. *)

From S2P Require Import Prelude Mem Kalloc.
#[local] Open Scope Z_scope.
#[local] Open Scope kernel_scope.

Definition NPDENTRIES : Z := 1024.
Definition NPTENTRIES : Z := 1024.
Definition PTE_P : Z := 0x001.
Definition PTE_W : Z := 0x002.
Definition PTE_U : Z := 0x004.
Definition PDX (va : Z) : Z := Z.land (Z.shiftr va 22) 0x3FF.
Definition PTX (va : Z) : Z := Z.land (Z.shiftr va 12) 0x3FF.
Definition PGADDR (d t o : Z) : Z := u32 (Z.lor (Z.lor (Z.shiftl d 22) (Z.shiftl t 12)) o).
Definition PTE_ADDR (pte : Z) : Z := Z.land pte (Z.lnot 0xFFF).
Definition PTE_FLAGS (pte : Z) : Z := Z.land pte 0xFFF.

(** [x & flag] as a condition. *)
Definition has (x flag : Z) : bool := negb (Z.land x flag =? 0).

Section vm.
Context (END DATA : Z).

(** The address of the entry for [va], or 0. *)
Definition walkpgdir (pgdir va : Z) (alloc : bool) : M Z :=
  let pde := pgdir + 4 * PDX va in
  e <- load pde ;;
  if has e PTE_P then kret (P2V (PTE_ADDR e) + 4 * PTX va)
  else if negb alloc then kret 0
  else
    pgtab <- kalloc ;;
    if pgtab =? 0 then kret 0
    else
      memset pgtab 0 PGSIZE ;;;
      store pde (Z.lor (Z.lor (Z.lor (V2P pgtab) PTE_P) PTE_W) PTE_U) ;;;
      kret (pgtab + 4 * PTX va).

Fixpoint mappages_loop (fuel : nat) (pgdir a last pa perm : Z) : M Z :=
  match fuel with
  | O => nofuel
  | S fuel =>
      pte <- walkpgdir pgdir a true ;;
      if pte =? 0 then kret (-1)
      else
        e <- load pte ;;
        if has e PTE_P then panic "remap"
        else
          store pte (Z.lor (Z.lor pa perm) PTE_P) ;;;
          if a =? last then kret 0
          else mappages_loop fuel pgdir (u32 (a + PGSIZE)) last (u32 (pa + PGSIZE)) perm
  end.

(** The loop visits the pages from that of [va] to that of the last byte,
    modulo 2^32. *)
Definition mappages (pgdir va size pa perm : Z) : M Z :=
  let a := PGROUNDDOWN va in
  let last := PGROUNDDOWN (u32 (va + size - 1)) in
  mappages_loop (Z.to_nat (u32 (last - a) / PGSIZE) + 1) pgdir a last pa perm.

(** One pass per page below [oldsz] at most. *)
Fixpoint deallocuvm_loop (fuel : nat) (pgdir a oldsz : Z) : M unit :=
  match fuel with
  | O => nofuel
  | S fuel =>
      if a <? oldsz then
        pte <- walkpgdir pgdir a false ;;
        a' <- (if pte =? 0 then kret (u32 (PGADDR (PDX a + 1) 0 0 - PGSIZE))
               else
                 e <- load pte ;;
                 (if has e PTE_P then
                    let pa := PTE_ADDR e in
                    if pa =? 0 then panic "kfree"
                    else kfree END (P2V pa) ;;; store pte 0
                  else kret tt) ;;;
                 kret a) ;;
        deallocuvm_loop fuel pgdir (u32 (a' + PGSIZE)) oldsz
      else kret tt
  end.

Definition deallocuvm (pgdir oldsz newsz : Z) : M Z :=
  if newsz >=? oldsz then kret oldsz
  else
    deallocuvm_loop (Z.to_nat (oldsz / PGSIZE) + 2) pgdir (PGROUNDUP newsz) oldsz ;;;
    kret newsz.

Definition freevm (pgdir : Z) : M unit :=
  if pgdir =? 0 then panic "freevm: no pgdir"
  else
    deallocuvm pgdir KERNBASE 0 ;;;
    for_each (seq 0 (Z.to_nat NPDENTRIES)) (fun i =>
      e <- load (pgdir + 4 * Z.of_nat i) ;;
      if has e PTE_P then kfree END (P2V (PTE_ADDR e)) else kret tt) ;;;
    kfree END pgdir.

(** The kernel mappings of every page table: virtual address, physical
    start and end, permissions. *)
Definition kmap : list (Z * Z * Z * Z) :=
  [ (KERNBASE, 0, EXTMEM, PTE_W);
    (KERNLINK, V2P KERNLINK, V2P DATA, 0);
    (DATA, V2P DATA, PHYSTOP, PTE_W);
    (DEVSPACE, DEVSPACE, 0, PTE_W) ].

(** Returns 0 when memory runs out. *)
Definition setupkvm : M Z :=
  pgdir <- kalloc ;;
  if pgdir =? 0 then kret 0
  else
    memset pgdir 0 PGSIZE ;;;
    if P2V PHYSTOP >? DEVSPACE then panic "PHYSTOP too high"
    else
      r <- first_of kmap (fun '(virt, phys_start, phys_end, perm) =>
        r <- mappages pgdir virt (u32 (phys_end - phys_start)) phys_start perm ;;
        if r <? 0 then freevm pgdir ;;; kret (Some 0) else kret None) ;;
      kret (default pgdir r).

(** [init] is the address of the [sz] bytes to load. *)
Definition inituvm (pgdir init sz : Z) : M unit :=
  if sz >=? PGSIZE then panic "inituvm: more than a page"
  else
    mem <- kalloc ;;
    memset mem 0 PGSIZE ;;;
    mappages pgdir 0 PGSIZE (V2P mem) (Z.lor PTE_W PTE_U) ;;;
    memmove mem init sz.

(** loaduvm calls the file system, so it runs on the state [S] of both: [vm]
    lifts the routines of this file.  [readi dst off n] is the readi of fs.c
    on the inode being loaded, to the kernel address [dst]. *)
Section loaduvm.
Context {S : Type} (vm : forall A, M A -> K S A) (readi : Z -> Z -> Z -> K S Z).

Fixpoint loaduvm_loop (fuel : nat) (pgdir addr offset i sz : Z) : K S Z :=
  match fuel with
  | O => nofuel
  | Datatypes.S fuel =>
      if i <? sz then
        pte <- vm _ (walkpgdir pgdir (u32 (addr + i)) false) ;;
        if pte =? 0 then panic "loaduvm: address should exist"
        else
          e <- vm _ (load pte) ;;
          let pa := PTE_ADDR e in
          let n := if u32 (sz - i) <? PGSIZE then u32 (sz - i) else PGSIZE in
          r <- readi (P2V pa) (u32 (offset + i)) n ;;
          if negb (r =? n) then kret (-1)
          else loaduvm_loop fuel pgdir addr offset (u32 (i + PGSIZE)) sz
      else kret 0
  end.

Definition loaduvm (pgdir addr offset sz : Z) : K S Z :=
  if negb (addr mod PGSIZE =? 0) then panic "loaduvm: addr must be page aligned"
  else loaduvm_loop (Z.to_nat (sz / PGSIZE) + 2) pgdir addr offset 0 sz.
End loaduvm.

(** [Some 0] when the growth failed and was undone. *)
Fixpoint allocuvm_loop (fuel : nat) (pgdir a oldsz newsz : Z) : M Z :=
  match fuel with
  | O => nofuel
  | S fuel =>
      if a <? newsz then
        mem <- kalloc ;;
        if mem =? 0 then
          cprintf "allocuvm out of memory" ;;;
          deallocuvm pgdir newsz oldsz ;;;
          kret 0
        else
          memset mem 0 PGSIZE ;;;
          r <- mappages pgdir a PGSIZE (V2P mem) (Z.lor PTE_W PTE_U) ;;
          if r <? 0 then
            cprintf "allocuvm out of memory (2)" ;;;
            deallocuvm pgdir newsz oldsz ;;;
            kfree END mem ;;;
            kret 0
          else allocuvm_loop fuel pgdir (u32 (a + PGSIZE)) oldsz newsz
      else kret newsz
  end.

(** The new size, or 0 on error. *)
Definition allocuvm (pgdir oldsz newsz : Z) : M Z :=
  if newsz >=? KERNBASE then kret 0
  else if newsz <? oldsz then kret oldsz
  else allocuvm_loop (Z.to_nat (newsz / PGSIZE) + 2) pgdir (PGROUNDUP oldsz) oldsz newsz.

Definition clearpteu (pgdir uva : Z) : M unit :=
  pte <- walkpgdir pgdir uva false ;;
  if pte =? 0 then panic "clearpteu"
  else e <- load pte ;; store pte (Z.land e (Z.lnot PTE_U)).

Fixpoint copyuvm_loop (fuel : nat) (pgdir d i sz : Z) : M Z :=
  match fuel with
  | O => nofuel
  | S fuel =>
      if i <? sz then
        pte <- walkpgdir pgdir i false ;;
        if pte =? 0 then panic "copyuvm: pte should exist"
        else
          e <- load pte ;;
          if negb (has e PTE_P) then panic "copyuvm: page not present"
          else
            let pa := PTE_ADDR e in
            let flags := PTE_FLAGS e in
            mem <- kalloc ;;
            if mem =? 0 then freevm d ;;; kret 0
            else
              memmove mem (P2V pa) PGSIZE ;;;
              r <- mappages d i PGSIZE (V2P mem) flags ;;
              if r <? 0 then kfree END mem ;;; freevm d ;;; kret 0
              else copyuvm_loop fuel pgdir d (u32 (i + PGSIZE)) sz
      else kret d
  end.

(** The copy's directory, or 0 when memory runs out. *)
Definition copyuvm (pgdir sz : Z) : M Z :=
  d <- setupkvm ;;
  if d =? 0 then kret 0
  else copyuvm_loop (Z.to_nat (sz / PGSIZE) + 2) pgdir d 0 sz.

(** The kernel address of a user page, or 0. *)
Definition uva2ka (pgdir uva : Z) : M Z :=
  pte <- walkpgdir pgdir uva false ;;
  if pte =? 0 then fault "uva2ka: *pte with pte == 0"
  else
    e <- load pte ;;
    if negb (has e PTE_P) then kret 0
    else if negb (has e PTE_U) then kret 0
    else kret (P2V (PTE_ADDR e)).

(** [move dst k n] is the memmove to [dst] of the [n] bytes at [buf + k], for
    the [buf] of the caller. *)
Fixpoint copyout_loop (fuel : nat) (move : Z -> Z -> Z -> M unit) (pgdir va buf len : Z) : M Z :=
  match fuel with
  | O => nofuel
  | S fuel =>
      if len >? 0 then
        let va0 := PGROUNDDOWN va in
        pa0 <- uva2ka pgdir va0 ;;
        if pa0 =? 0 then kret (-1)
        else
          let n := PGSIZE - (va - va0) in
          let n := if n >? len then len else n in
          move (pa0 + (va - va0)) buf n ;;;
          copyout_loop fuel move pgdir (u32 (va0 + PGSIZE)) (buf + n) (len - n)
      else kret 0
  end.

Definition copyout_from (move : Z -> Z -> Z -> M unit) (pgdir va buf len : Z) : M Z :=
  copyout_loop (Z.to_nat (len / PGSIZE) + 3) move pgdir va buf len.

(** [p] is the kernel address of the bytes to copy. *)
Definition copyout (pgdir va p len : Z) : M Z := copyout_from memmove pgdir va p len.
End vm.
