(* ===== verification/VmFacts.v ===== *)
(** * What the page-table code does (vm.c)

    [entry m pgdir va] is the abstract page table: the page-table entry of
    the page of [va], 0 where there is none.  [pt_ok] says that a directory
    and its tables are distinct pages off the free list; under it each
    routine of Vm.v is an operation on [entry]. *)

From S2P Require Import Prelude Mem Kalloc Vm.
#[local] Open Scope Z_scope.
#[local] Open Scope kernel_scope.

(** ** Words and flags *)

Lemma land_ones_mod x n : 0 <= n -> Z.land x (Z.ones n) = x mod 2 ^ n.
Proof. apply Z.land_ones. Qed.

Lemma PDX_div va : is_u32 va -> PDX va = va / 2 ^ 22.
Proof.
  unfold is_u32. intros H. unfold PDX. change 0x3FF with (Z.ones 10).
  rewrite Z.land_ones, Z.shiftr_div_pow2 by lia. apply Z.mod_small.
  change (2 ^ 22) with 4194304. change (2 ^ 10) with 1024. Z.div_mod_to_equations. lia.
Qed.

Lemma PTX_div va : PTX va = (va / 2 ^ 12) mod 2 ^ 10.
Proof.
  unfold PTX. change 0x3FF with (Z.ones 10). by rewrite Z.land_ones, Z.shiftr_div_pow2 by lia.
Qed.

Lemma PDX_range va : is_u32 va -> 0 <= PDX va < 1024.
Proof.
  intros H. rewrite PDX_div by done. unfold is_u32 in H. change (2 ^ 22) with 4194304.
  Z.div_mod_to_equations. lia.
Qed.

Lemma PTX_range va : 0 <= PTX va < 1024.
Proof. rewrite PTX_div. apply (Z.mod_pos_bound _ 1024). lia. Qed.

(** The page number splits into the two indices. *)
Lemma same_page va va' :
  is_u32 va -> is_u32 va' ->
  (PDX va = PDX va' /\ PTX va = PTX va') <-> va / PGSIZE = va' / PGSIZE.
Proof.
  intros H H'. rewrite !PDX_div, !PTX_div by done. unfold is_u32, PGSIZE in *.
  change (2 ^ 22) with 4194304. change (2 ^ 12) with 4096. change (2 ^ 10) with 1024.
  pose proof (Z.div_div va 4096 1024 ltac:(lia) ltac:(lia)) as E.
  pose proof (Z.div_div va' 4096 1024 ltac:(lia) ltac:(lia)) as E'.
  change (4096 * 1024) with 4194304 in *. rewrite <- E, <- E'. clear E E'.
  set (q := va / 4096). set (q' := va' / 4096). clearbody q q'. split; [|by intros ->].
  intros [E1 E2]. pose proof (Z.div_mod q 1024 ltac:(lia)). pose proof (Z.div_mod q' 1024 ltac:(lia)). lia.
Qed.

Lemma PTE_ADDR_div e : PTE_ADDR e = PGSIZE * (e / PGSIZE).
Proof. exact (PGROUNDDOWN_div e). Qed.

Lemma lor_low a b : a mod PGSIZE = 0 -> 0 <= b < PGSIZE -> Z.lor a b = a + b.
Proof.
  unfold PGSIZE. intros Ha Hb. pose proof (Z.add_lor_land a b) as E.
  enough (Z.land a b = 0) by lia. apply Z.bits_inj'. intros n Hn.
  rewrite Z.land_spec, Z.bits_0. destruct (Z.ltb_spec n 12).
  - replace a with (Z.shiftl (a / 4096) 12).
    + by rewrite Z.shiftl_spec_low.
    + rewrite Z.shiftl_mul_pow2 by lia. change (2 ^ 12) with 4096. Z.div_mod_to_equations. lia.
  - replace b with (Z.land b (Z.ones 12)).
    + rewrite Z.land_spec, Z.ones_spec_high by lia. by rewrite !andb_false_r.
    + rewrite Z.land_ones by lia. apply Z.mod_small. lia.
Qed.

Lemma has_low a b f : a mod PGSIZE = 0 -> 0 <= b < PGSIZE -> 0 <= f < PGSIZE -> has (a + b) f = has b f.
Proof.
  intros Ha Hb Hf. rewrite <- lor_low by done. unfold has. rewrite Z.land_lor_distr_l.
  replace (Z.land a f) with 0; [done|]. pose proof (Z.add_lor_land a f). rewrite (lor_low a f) in *; lia || done.
Qed.

(** ** The abstract page table *)

Definition pde (m : mem) (pgdir i : Z) : Z := load32 m (pgdir + 4 * i).
Definition table (e : Z) : Z := P2V (PTE_ADDR e).

Definition entry (m : mem) (pgdir va : Z) : Z :=
  let e := pde m pgdir (PDX va) in
  if has e PTE_P then load32 m (table e + 4 * PTX va) else 0.

Section facts.
Context (END : Z).

(** The directory and its tables are distinct managed pages, none free. *)
Record pt_ok (s : kstate) (l : list Z) (pgdir : Z) : Prop := {
  pt_free : free END s l;
  pt_dir : is_page END pgdir /\ pgdir ∉ l;
  pt_table : forall i, 0 <= i < 1024 -> has (pde (k_mem s) pgdir i) PTE_P = true ->
    (let t := table (pde (k_mem s) pgdir i) in is_page END t /\ t ∉ l /\ t <> pgdir);
  pt_inj : forall i j, 0 <= i < 1024 -> 0 <= j < 1024 ->
    has (pde (k_mem s) pgdir i) PTE_P = true -> has (pde (k_mem s) pgdir j) PTE_P = true ->
    table (pde (k_mem s) pgdir i) = table (pde (k_mem s) pgdir j) -> i = j }.

(** The directory entry that walkpgdir installs for the page [t]. *)
Definition new_pde (t : Z) : Z := Z.lor (Z.lor (Z.lor (V2P t) PTE_P) PTE_W) PTE_U.

Lemma V2P_page t : is_page END t -> V2P t = t - KERNBASE /\ (V2P t) mod PGSIZE = 0 /\ 0 <= V2P t < PHYSTOP.
Proof.
  intros (H1 & _ & H2). unfold V2P. rewrite u32_small by (unfold is_u32, KERNBASE, PHYSTOP in *; lia).
  unfold KERNBASE, PHYSTOP, PGSIZE in *. Z.div_mod_to_equations. lia.
Qed.

Lemma new_pde_ok t : is_page END t ->
  is_u32 (new_pde t) /\ has (new_pde t) PTE_P = true /\ table (new_pde t) = t.
Proof.
  intros H. destruct (V2P_page t H) as (E & Ha & Hr). unfold new_pde.
  rewrite <- !Z.lor_assoc. change (Z.lor PTE_P (Z.lor PTE_W PTE_U)) with 7.
  rewrite lor_low by (unfold PGSIZE; done || lia).
  split; [unfold is_u32, PHYSTOP in *; lia|]. split.
  - rewrite has_low by (unfold PGSIZE, PTE_P; done || lia). done.
  - unfold table. rewrite PTE_ADDR_div. replace (PGSIZE * _) with (V2P t).
    + rewrite E. unfold P2V. rewrite u32_small; unfold is_u32, KERNBASE, PHYSTOP in *; lia.
    + unfold PGSIZE in *. Z.div_mod_to_equations. lia.
Qed.

Lemma page_bound t : is_page END t -> KERNBASE <= t /\ t + PGSIZE <= KERNBASE + PHYSTOP.
Proof. intros (H & _ & H'). unfold PGSIZE, KERNBASE, PHYSTOP in *. Z.div_mod_to_equations. lia. Qed.

(** Entry [k] of a page is a word of that page, and distinct entries are apart. *)
Lemma slot_apart t t' k k' :
  is_page END t -> is_page END t' -> 0 <= k < 1024 -> 0 <= k' < 1024 ->
  t <> t' \/ k <> k' -> t + 4 * k + 4 <= t' + 4 * k' \/ t' + 4 * k' + 4 <= t + 4 * k.
Proof.
  intros Ht Ht' Hk Hk' Hne. destruct (decide (t = t')) as [->|Hn]; [lia|].
  pose proof (page_apart t t' (proj1 Ht) (proj1 Ht') Hn). unfold PGSIZE in *. lia.
Qed.

(** ** Writing an entry *)

Lemma pt_slot s l pgdir va :
  pt_ok s l pgdir -> is_u32 va -> has (pde (k_mem s) pgdir (PDX va)) PTE_P = true ->
  entry (k_mem s) pgdir va = load32 (k_mem s) (table (pde (k_mem s) pgdir (PDX va)) + 4 * PTX va).
Proof. intros _ _ H. unfold entry. by rewrite H. Qed.

(** A store to a page off the free list keeps the list. *)
Lemma free_store s l t k v :
  free END s l -> is_page END t -> t ∉ l -> 0 <= k < 1024 ->
  free END (set_mem (store32 (k_mem s) (t + 4 * k) v) s) l.
Proof.
  intros [H1 H2 H3 H4 H5] Ht Hn Hk. split; cbn; try done; [by apply store32_mem_ok|].
  apply (chain_frame (k_mem s)); [|done]. intros u Hu.
  pose proof (proj1 (Forall_forall _ _) H5 u Hu) as Hp.
  rewrite load32_store32_ne; [done|].
  pose proof (slot_apart t u k 0 Ht Hp Hk ltac:(lia)). rewrite Z.mul_0_r, Z.add_0_r in *.
  apply H. left. by intros ->.
Qed.

Lemma store_pte s l pgdir va v :
  pt_ok s l pgdir -> is_u32 va -> has (pde (k_mem s) pgdir (PDX va)) PTE_P = true ->
  let a := table (pde (k_mem s) pgdir (PDX va)) + 4 * PTX va in
  let s' := set_mem (store32 (k_mem s) a v) s in
  pt_ok s' l pgdir
  /\ (forall i, 0 <= i < 1024 -> pde (k_mem s') pgdir i = pde (k_mem s) pgdir i)
  /\ (forall va', is_u32 va' -> entry (k_mem s') pgdir va' =
       if decide (va' / PGSIZE = va / PGSIZE) then u32 v else entry (k_mem s) pgdir va').
Proof.
  intros [Hf [Hd Hdl] Ht Hi] Hva Hp a s'. pose proof (PDX_range va Hva) as Hx. pose proof (PTX_range va) as Hy.
  destruct (Ht _ Hx Hp) as (Htp & Htl & Htd).
  assert (Hpde : forall i, 0 <= i < 1024 -> pde (k_mem s') pgdir i = pde (k_mem s) pgdir i).
  { intros i Hir. unfold pde, s'. cbn. apply load32_store32_ne. apply slot_apart; auto. }
  split; [|split; [done|]].
  - split.
    + by apply free_store.
    + done.
    + intros i Hir. rewrite Hpde by done. by apply Ht.
    + intros i j Hir Hjr. rewrite !Hpde by done. by apply Hi.
  - intros va' Hva'. pose proof (PDX_range va' Hva') as Hx'. pose proof (PTX_range va') as Hy'.
    unfold entry. rewrite Hpde by done.
    destruct (has (pde (k_mem s) pgdir (PDX va')) PTE_P) eqn:Hp'.
    + destruct (Ht _ Hx' Hp') as (Htp' & _). case_decide as Hpg.
      * apply same_page in Hpg as [E1 E2]; [|done..]. rewrite E1, E2. apply load32_store32.
      * unfold s'. cbn. apply load32_store32_ne. apply slot_apart; auto.
        destruct (decide (PDX va = PDX va')) as [E|E]; [|left; intros E'; apply E, Hi; done].
        right. intros E'. apply Hpg. symmetry. by apply same_page.
    + case_decide as Hpg; [|done]. apply same_page in Hpg as [E _]; [|done..]. congruence.
Qed.

(** ** walkpgdir *)

(** kalloc and memset(page, 0, PGSIZE). *)
Lemma zalloc s t l :
  free END s (t :: l) ->
  exists s0 s1, kalloc s = Ok t s0 /\ memset t 0 PGSIZE s0 = Ok tt s1
    /\ is_page END t /\ t <> 0 /\ t ∉ l /\ free END s1 l
    /\ mem_eq (k_mem s1) (fill (k_mem s) t PGSIZE 0) /\ same_rest s s1.
Proof.
  intros Hf. destruct (kalloc_ok END s _ Hf) as [E F]. cbn in E, F.
  pose proof (free_pages _ _ _ Hf) as [Ht _]%Forall_cons.
  pose proof (free_nodup _ _ _ Hf) as [Hn _]%NoDup_cons.
  pose proof (is_page_pos _ _ Ht).
  set (s0 := set_freelist (default 0 (head l)) s) in *.
  destruct (memset_page s0 t 0 ltac:(lia) (free_mem _ _ _ F)) as (m & E1 & M1 & O1).
  exists s0, (set_mem m s0). split; [done|]. split; [done|]. split; [done|]. split; [lia|].
  split; [done|]. split; [|split; [exact M1|done]].
  destruct F as [F1 F2 F3 F4 F5]. split; try done.
  apply (chain_off_page END (k_mem s0) _ _ _ t); try done; [|by apply (is_page_aligned END)].
  intros x Hx. cbn. by rewrite M1, fill_out.
Qed.

(** A page apart from [v] keeps its words when [v] is filled. *)
Lemma load32_fill_page m m' t v k c :
  mem_eq m' (fill m v PGSIZE c) -> is_page END t -> is_page END v -> t <> v -> 0 <= k < 1024 ->
  load32 m' (t + 4 * k) = load32 m (t + 4 * k).
Proof.
  intros Hm Ht Hv Hne Hk. rewrite Hm. apply load32_fill_out.
  pose proof (page_apart t v (proj1 Ht) (proj1 Hv) Hne). unfold PGSIZE in *. lia.
Qed.

(** walkpgdir without allocation, or where the table exists. *)
Lemma walk_present pgdir va al s :
  has (pde (k_mem s) pgdir (PDX va)) PTE_P = true ->
  walkpgdir pgdir va al s = Ok (table (pde (k_mem s) pgdir (PDX va)) + 4 * PTX va) s.
Proof. intros H. unfold walkpgdir, kbind at 1, load, gets. fold (pde (k_mem s) pgdir (PDX va)). by rewrite H. Qed.

Lemma walk_absent pgdir va s :
  has (pde (k_mem s) pgdir (PDX va)) PTE_P = false -> walkpgdir pgdir va false s = Ok 0 s.
Proof. intros H. unfold walkpgdir, kbind at 1, load, gets. fold (pde (k_mem s) pgdir (PDX va)). by rewrite H. Qed.

(** What any of these operations may write: the directory, its tables and
    the pages it takes from the free list. *)
Definition writes_only (pages : list Z) (m m' : mem) : Prop :=
  forall x, (forall v, v ∈ pages -> ~ in_page v x) -> m' x = m x.

(** The table is created when it is missing; no entry changes. *)
Lemma walk_create s t l pgdir va :
  pt_ok s (t :: l) pgdir -> is_u32 va -> has (pde (k_mem s) pgdir (PDX va)) PTE_P = false ->
  exists s', walkpgdir pgdir va true s = Ok (t + 4 * PTX va) s'
    /\ pt_ok s' l pgdir
    /\ (forall i, 0 <= i < 1024 ->
         pde (k_mem s') pgdir i = if decide (i = PDX va) then new_pde t else pde (k_mem s) pgdir i)
    /\ (forall va', is_u32 va' -> entry (k_mem s') pgdir va' = entry (k_mem s) pgdir va')
    /\ writes_only [pgdir; t] (k_mem s) (k_mem s') /\ same_rest s s'.
Proof.
  intros [Hf [Hd Hdl] Ht Hi] Hva Hp. pose proof (PDX_range va Hva) as Hx.
  destruct (zalloc s t l Hf) as (s0 & s1 & E0 & E1 & Htp & Ht0 & Htl & F1 & M1 & R1).
  assert (Htd : pgdir <> t) by (intros ->; apply Hdl; constructor).
  assert (Hdl' : pgdir ∉ l) by (intros H; apply Hdl; by constructor).
  destruct (new_pde_ok t Htp) as (Nu & Np & Nt).
  set (s' := set_mem (store32 (k_mem s1) (pgdir + 4 * PDX va) (new_pde t)) s1).
  assert (Hpde : forall i, 0 <= i < 1024 ->
    pde (k_mem s') pgdir i = if decide (i = PDX va) then new_pde t else pde (k_mem s) pgdir i).
  { intros i Hir. unfold pde, s'. cbn. case_decide as E.
    - subst i. by rewrite load32_store32, u32_small.
    - rewrite load32_store32_ne by (apply slot_apart; auto). by apply (load32_fill_page _ _ _ t _ 0). }
  assert (Hold : forall i, 0 <= i < 1024 -> has (pde (k_mem s') pgdir i) PTE_P = true -> i <> PDX va ->
    pde (k_mem s') pgdir i = pde (k_mem s) pgdir i /\ is_page END (table (pde (k_mem s) pgdir i))
    /\ table (pde (k_mem s) pgdir i) ∉ t :: l /\ table (pde (k_mem s) pgdir i) <> pgdir).
  { intros i Hir Hpi Hne. rewrite Hpde, decide_False in Hpi by done.
    rewrite Hpde, decide_False by done. split; [done|]. by apply Ht. }
  exists s'. split; [|split; [|split; [exact Hpde|split; [|split; [|done]]]]].
  - unfold walkpgdir, kbind at 1, load, gets. fold (pde (k_mem s) pgdir (PDX va)). rewrite Hp. cbn [negb].
    rewrite (kbind_ok _ _ _ _ _ E0). destruct (Z.eqb_spec t 0); [done|]. by rewrite (kbind_ok _ _ _ _ _ E1).
  - split.
    + by apply free_store.
    + done.
    + intros i Hir Hpi. destruct (decide (i = PDX va)) as [->|Hne].
      * rewrite Hpde, decide_True, Nt by done. done.
      * destruct (Hold i Hir Hpi Hne) as (-> & ? & Hnl & ?). cbn. split; [done|]. split; [|done].
        intros H'. apply Hnl. by constructor.
    + intros i j Hir Hjr Hpi Hpj E.
      destruct (decide (i = PDX va)) as [Ei|Hni], (decide (j = PDX va)) as [Ej|Hnj]; [congruence|..].
      * destruct (Hold j Hjr Hpj Hnj) as (Ej & _ & Hnl & _). rewrite Ej in E.
        rewrite (Hpde i), decide_True, Nt in E by done. destruct Hnl. rewrite <- E. constructor.
      * destruct (Hold i Hir Hpi Hni) as (Ei & _ & Hnl & _). rewrite Ei in E.
        rewrite (Hpde j), decide_True, Nt in E by done. destruct Hnl. rewrite E. constructor.
      * destruct (Hold i Hir Hpi Hni) as (Ei & _), (Hold j Hjr Hpj Hnj) as (Ej & _).
        rewrite Ei in *. rewrite Ej in *. by apply Hi.
  - intros va' Hva'. pose proof (PDX_range va' Hva') as Hx'. pose proof (PTX_range va') as Hy'.
    unfold entry. destruct (decide (PDX va' = PDX va)) as [E|Hne].
    + rewrite E, Hp. rewrite Hpde, decide_True, Np, Nt by done. unfold s'. cbn.
      rewrite load32_store32_ne by (apply slot_apart; auto).
      rewrite M1. apply load32_fill0; unfold PGSIZE; lia.
    + rewrite !Hpde, decide_False by done. destruct (has (pde (k_mem s) pgdir (PDX va')) PTE_P) eqn:Hp'; [|done].
      destruct (Ht _ Hx' Hp') as (Hq & Hql & Hqd). unfold s'. cbn.
      rewrite load32_store32_ne by (apply slot_apart; auto).
      apply (load32_fill_page _ _ _ t _ 0); try done. intros Heq. apply Hql. rewrite Heq. constructor.
  - intros x Hx'. unfold s'. cbn.
    assert (Hd' : ~ in_page pgdir x) by (apply Hx'; constructor).
    assert (Ht' : ~ in_page t x) by (apply Hx'; right; constructor).
    unfold in_page, PGSIZE in *. rewrite store32_out by lia. rewrite M1, fill_out; [done|]. unfold PGSIZE. lia.
Qed.

(** ** mappages *)

(** The bytes the page-table code may write: those of the directory, of its
    tables and of the free pages. *)
Definition table_bytes (s : kstate) (l : list Z) (pgdir x : Z) : Prop :=
  in_page pgdir x
  \/ (exists i, 0 <= i < 1024 /\ has (pde (k_mem s) pgdir i) PTE_P = true
        /\ in_page (table (pde (k_mem s) pgdir i)) x)
  \/ (exists v, v ∈ l /\ in_page v x).

(** The tables of a directory, in the order of its entries. *)
Definition tables (m : mem) (pgdir : Z) : list Z :=
  omap (fun i => let e := pde m pgdir i in if has e PTE_P then Some (table e) else None) (seqZ 0 NPDENTRIES).

Lemma omap_eq {A B} (f g : A -> option B) (l : list A) : (forall i x, l !! i = Some x -> g x = f x) -> omap g l = omap f l.
Proof.
  intros H. apply list_omap_ext, Forall2_same_length_lookup_2; [done|]. intros i a c Ha Hc. rewrite Ha in Hc. injection Hc as <-. by eapply H.
Qed.

Lemma omap_changed {A B} (f g : A -> option B) x b (l : list A) :
  NoDup l -> x ∈ l -> (forall y, y <> x -> g y = f y) -> f x = None -> g x = Some b -> omap g l ≡ₚ b :: omap f l.
Proof.
  intros Hnd Hx Ho Hf Hg. induction Hnd as [|y l Hy Hnd IH]; [by apply elem_of_nil in Hx|].
  apply elem_of_cons in Hx as [<-|Hx]; cbn.
  - rewrite Hf, Hg. f_equiv. apply reflexive_eq, omap_eq. intros i a Ha. apply Ho. intros ->. apply Hy. by eapply list_elem_of_lookup_2.
  - rewrite Ho by (intros ->; done). destruct (f y); [|by apply IH]. rewrite (IH Hx). constructor.
Qed.

Lemma tables_same m m' pgdir :
  (forall i, 0 <= i < 1024 -> pde m' pgdir i = pde m pgdir i) -> tables m' pgdir = tables m pgdir.
Proof.
  intros H. apply omap_eq. intros i a [-> Hi]%lookup_seqZ. rewrite H by (unfold NPDENTRIES in *; lia). done.
Qed.

Lemma elem_tables m pgdir t : t ∈ tables m pgdir <->
  exists i, 0 <= i < 1024 /\ has (pde m pgdir i) PTE_P = true /\ table (pde m pgdir i) = t.
Proof.
  unfold tables. rewrite list_elem_of_omap. split.
  - intros (i & Hi%elem_of_seqZ & E). exists i. unfold NPDENTRIES in *. destruct (has _ _); [|done]. injection E as <-. split; [lia|done].
  - intros (i & Hi & Hp & <-). exists i. split; [apply elem_of_seqZ; unfold NPDENTRIES; lia|]. by rewrite Hp.
Qed.

Lemma tables_added m m' pgdir k t :
  0 <= k < 1024 -> has (pde m pgdir k) PTE_P = false -> has (pde m' pgdir k) PTE_P = true -> table (pde m' pgdir k) = t ->
  (forall i, 0 <= i < 1024 -> i <> k -> pde m' pgdir i = pde m pgdir i) -> tables m' pgdir ≡ₚ t :: tables m pgdir.
Proof.
  intros Hk H0 H1 <- Ho. pose (f := fun i => let e := pde m pgdir i in if has e PTE_P then Some (table e) else None).
  pose (g := fun i => if decide (i = k) then Some (table (pde m' pgdir k)) else f i).
  transitivity (omap g (seqZ 0 NPDENTRIES)).
  - apply reflexive_eq, omap_eq. intros i a [-> Hi]%lookup_seqZ. unfold g, f.
    case_decide as E; [by rewrite E, H1|]. rewrite Ho by (unfold NPDENTRIES in *; lia). done.
  - apply (omap_changed f g k); [apply NoDup_seqZ|apply elem_of_seqZ; unfold NPDENTRIES; lia| | |].
    + intros y Hy. unfold g. by rewrite decide_False.
    + unfold f. by rewrite H0.
    + unfold g. by rewrite decide_True.
Qed.

(** What page-table code does to the rest of the state. *)
Record pt_step (pgdir : Z) (s : kstate) (l : list Z) (s' : kstate) (l' : list Z) : Prop := {
  ps_ok : pt_ok s' l' pgdir;
  ps_suffix : l' `suffix_of` l;
  ps_pages : l' ++ tables (k_mem s') pgdir ≡ₚ l ++ tables (k_mem s) pgdir;
  ps_bytes : forall x, table_bytes s' l' pgdir x -> table_bytes s l pgdir x;
  ps_mem : forall x, ~ table_bytes s l pgdir x -> k_mem s' x = k_mem s x;
  ps_rest : same_rest s s' }.

Lemma pt_step_refl pgdir s l : pt_ok s l pgdir -> pt_step pgdir s l s l.
Proof. by split. Qed.

Lemma pt_step_trans pgdir s1 l1 s2 l2 s3 l3 :
  pt_step pgdir s1 l1 s2 l2 -> pt_step pgdir s2 l2 s3 l3 -> pt_step pgdir s1 l1 s3 l3.
Proof.
  intros [A1 A2 A3' A3 A4 A5] [B1 B2 B3' B3 B4 B5]. split; try done.
  - by etrans.
  - by rewrite B3'.
  - auto.
  - intros x Hx. rewrite B4, A4; auto.
  - destruct A5, B5. split; congruence.
Qed.

Lemma walk_alloc s l pgdir va :
  pt_ok s l pgdir -> is_u32 va ->
  (exists s', walkpgdir pgdir va true s = Ok 0 s' /\ l = [] /\ pt_step pgdir s l s' []
     /\ forall va', is_u32 va' -> entry (k_mem s') pgdir va' = entry (k_mem s) pgdir va')
  \/ (exists s' l', walkpgdir pgdir va true s = Ok (table (pde (k_mem s') pgdir (PDX va)) + 4 * PTX va) s'
     /\ pt_step pgdir s l s' l'
     /\ has (pde (k_mem s') pgdir (PDX va)) PTE_P = true
     /\ forall va', is_u32 va' -> entry (k_mem s') pgdir va' = entry (k_mem s) pgdir va').
Proof.
  intros Hok Hva. destruct (has (pde (k_mem s) pgdir (PDX va)) PTE_P) eqn:Hp.
  { right. exists s, l. split; [by apply walk_present|]. split; [by apply pt_step_refl|done]. }
  destruct l as [|t l].
  - left. destruct (kalloc_ok END s _ (pt_free _ _ _ Hok)) as [E F].
    change (kalloc s = Ok 0 (set_freelist 0 s)) in E. change (free END (set_freelist 0 s) []) in F.
    exists (set_freelist 0 s). split; [|split; [done|split; [|done]]].
    + unfold walkpgdir, kbind at 1, load, gets. fold (pde (k_mem s) pgdir (PDX va)). rewrite Hp.
      cbn [negb]. by rewrite (kbind_ok _ _ _ _ _ E).
    + destruct Hok as [_ ? ? ?]. split; try done.
  - right. destruct (walk_create s t l pgdir va Hok Hva Hp) as (s' & E & Hok' & Hpde & Hent & Hw & Hr).
    assert (Epde : pde (k_mem s') pgdir (PDX va) = new_pde t).
    { rewrite Hpde by (by apply PDX_range). by rewrite decide_True. }
    pose proof (free_pages _ _ _ (pt_free _ _ _ Hok)) as [Ht _]%Forall_cons.
    destruct (new_pde_ok t Ht) as (_ & Np & Nt).
    exists s', l. rewrite Epde, Nt, Np. split; [done|]. split; [|done]. split; try done.
    + by exists [t].
    + rewrite (tables_added (k_mem s) (k_mem s') pgdir (PDX va) t); [symmetry; apply Permutation_middle|by apply PDX_range|done|by rewrite Epde|by rewrite Epde|].
      intros i Hi Hne. rewrite Hpde by done. by rewrite decide_False.
    + intros x [Hx|[(i & Hi & Hpi & Hx)|(v & Hv & Hx)]].
      * by left.
      * destruct (decide (i = PDX va)) as [->|Hne].
        { rewrite Epde, Nt in Hx. right; right. exists t. split; [constructor|done]. }
        rewrite Hpde, decide_False in * by done. right; left. by exists i.
      * right; right. exists v. split; [by constructor|done].
    + intros x Hx. apply Hw. intros v [->|Hv%list_elem_of_singleton]%elem_of_cons Hin; apply Hx.
      * by left.
      * subst v. right; right. exists t. split; [constructor|done].
Qed.

(** The page table after mapping the pages from [a] to [last] to the frames
    from [pa] up. *)
Definition mapped (m m' : mem) (pgdir a last pa perm : Z) : Prop :=
  forall va, is_u32 va -> entry m' pgdir va =
    if decide (a <= PGROUNDDOWN va <= last)
    then u32 (Z.lor (Z.lor (u32 (pa + (PGROUNDDOWN va - a))) perm) PTE_P)
    else entry m pgdir va.

Definition unmapped (m : mem) (pgdir a last : Z) : Prop :=
  forall va, is_u32 va -> a <= PGROUNDDOWN va <= last -> has (entry m pgdir va) PTE_P = false.

Lemma u32_add_l x y : u32 (u32 x + y) = u32 (x + y).
Proof. unfold u32. apply Z.add_mod_idemp_l. lia. Qed.

Lemma PGROUNDDOWN_range va : is_u32 va -> va - PGSIZE < PGROUNDDOWN va <= va /\ 0 <= PGROUNDDOWN va.
Proof. unfold is_u32. intros H. rewrite PGROUNDDOWN_div. unfold PGSIZE. Z.div_mod_to_equations. lia. Qed.

(** Two aligned addresses are the same page or a page apart. *)
Lemma rounddown_eq a va : a mod PGSIZE = 0 -> va / PGSIZE = a / PGSIZE <-> PGROUNDDOWN va = a.
Proof. intros Ha. rewrite PGROUNDDOWN_div. unfold PGSIZE in *. Z.div_mod_to_equations. lia. Qed.

Lemma rounddown_mod va : PGROUNDDOWN va mod PGSIZE = 0.
Proof. rewrite PGROUNDDOWN_div. unfold PGSIZE. rewrite Z.mul_comm. apply Z.mod_mul. lia. Qed.

(** One turn of the loop of mappages, at a page that has no mapping. *)
Lemma map_one s l pgdir a v :
  pt_ok s l pgdir -> is_u32 a -> has (entry (k_mem s) pgdir a) PTE_P = false ->
  (exists s', walkpgdir pgdir a true s = Ok 0 s' /\ l = [] /\ pt_step pgdir s l s' []
     /\ forall va', is_u32 va' -> entry (k_mem s') pgdir va' = entry (k_mem s) pgdir va')
  \/ (exists s1 slot l', walkpgdir pgdir a true s = Ok slot s1 /\ slot <> 0
     /\ has (load32 (k_mem s1) slot) PTE_P = false
     /\ (let s' := set_mem (store32 (k_mem s1) slot v) s1 in
         pt_step pgdir s l s' l'
         /\ forall va', is_u32 va' -> entry (k_mem s') pgdir va' =
              if decide (va' / PGSIZE = a / PGSIZE) then u32 v else entry (k_mem s) pgdir va')).
Proof.
  intros Hok Hau Hz. destruct (walk_alloc s l pgdir a Hok Hau) as [H|(s1 & l1 & E & Hst & Hp & Hent)]; [by left|].
  right. pose proof (ps_ok _ _ _ _ _ Hst) as Hok1.
  destruct (store_pte s1 l1 pgdir a v Hok1 Hau Hp) as (Hok2 & Hpde2 & Hent2).
  pose proof (PDX_range a Hau) as Hx. pose proof (PTX_range a) as Hy.
  destruct (pt_table _ _ _ Hok1 _ Hx Hp) as (Ht & _). pose proof (is_page_pos _ _ Ht).
  eexists s1, _, l1. split; [exact E|]. split; [lia|]. split.
  { rewrite <- (pt_slot s1 l1 pgdir a Hok1 Hau Hp), Hent; done. }
  split; [|intros va' Hva'; rewrite Hent2 by done; case_decide; [done|by apply Hent]].
  apply (pt_step_trans _ _ _ _ _ _ _ Hst). split; try done.
  - by rewrite (tables_same (k_mem s1)).
  - intros x [H'|[(i & Hi & Hpi & H')|H']]; [by left| |by right; right].
    right; left. exists i. rewrite <- Hpde2 by done. done.
  - intros x Hx'. cbn. apply store32_out. intros Hin. apply Hx'. right; left.
    exists (PDX a). split; [done|]. split; [done|]. unfold in_page, PGSIZE. lia.
Qed.

Lemma mappages_loop_ok n fuel s l pgdir a last pa perm :
  pt_ok s l pgdir -> a mod PGSIZE = 0 -> 0 <= a -> last = a + PGSIZE * Z.of_nat n ->
  last + PGSIZE <= 2 ^ 32 -> (n < fuel)%nat -> unmapped (k_mem s) pgdir a last ->
  exists r s' l', mappages_loop fuel pgdir a last (u32 pa) perm s = Ok r s' /\ pt_step pgdir s l s' l'
    /\ (r = 0 /\ mapped (k_mem s) (k_mem s') pgdir a last pa perm
        \/ r = -1 /\ l' = [] /\ forall va, is_u32 va -> ~ (a <= PGROUNDDOWN va <= last) ->
             entry (k_mem s') pgdir va = entry (k_mem s) pgdir va).
Proof.
  revert fuel s l a pa. induction n as [|n IH]; intros [|fuel] s l a pa Hok Ha H0 Hlast Hend Hfuel Hun; try lia.
  all: assert (Hau : is_u32 a) by (unfold is_u32, PGSIZE in *; lia).
  all: assert (Hra : PGROUNDDOWN a = a) by (apply rounddown_eq; done).
  all: assert (Hz : has (entry (k_mem s) pgdir a) PTE_P = false)
    by (apply Hun; [done|unfold PGSIZE in *; lia]).
  all: cbn [mappages_loop].
  all: destruct (map_one s l pgdir a (Z.lor (Z.lor (u32 pa) perm) PTE_P) Hok Hau Hz)
    as [(s1 & E & -> & Hst & Hent)|(s1 & slot & l1 & E & Hs0 & Hz1 & Hst & Hent)];
    rewrite (kbind_ok _ _ _ _ _ E);
    [exists (-1), s1, []; split; [done|]; split; [done|]; right; split; [done|]; split; [done|];
     by intros va Hva _; apply Hent|].
  all: destruct (Z.eqb_spec slot 0); [done|].
  all: unfold kbind at 1, load, gets; rewrite Hz1.
  all: unfold kbind at 1, store, modify; set (s2 := set_mem _ s1) in *.
  - rewrite Z.mul_0_r, Z.add_0_r in Hlast. subst last. rewrite Z.eqb_refl.
    exists 0, s2, l1. split; [done|]. split; [done|]. left. split; [done|].
    intros va Hva. rewrite Hent by done. pose proof (rounddown_eq a va Ha).
    destruct (decide (va / PGSIZE = a / PGSIZE)) as [E1|E1].
    + rewrite (proj1 H E1), decide_True by lia. by rewrite Z.sub_diag, Z.add_0_r.
    + rewrite decide_False; [done|]. intros Hb. apply E1, H. lia.
  - destruct (Z.eqb_spec a last); [unfold PGSIZE in *; lia|].
    rewrite (u32_small (a + PGSIZE)) by (unfold is_u32, PGSIZE in *; lia). rewrite u32_add_l.
    destruct (IH fuel s2 l1 (a + PGSIZE) (pa + PGSIZE)) as (r & s' & l' & E' & Hst' & Hres);
      try (unfold PGSIZE in *; lia); try exact (ps_ok _ _ _ _ _ Hst).
    + unfold PGSIZE in *. Z.div_mod_to_equations. lia.
    + intros va Hva Hr. rewrite Hent by done. pose proof (rounddown_eq a va Ha).
      case_decide; [unfold PGSIZE in *; lia|]. apply Hun; [done|unfold PGSIZE in *; lia].
    + exists r, s', l'. split; [done|]. split; [by apply (pt_step_trans _ _ _ _ _ _ _ Hst)|].
      destruct Hres as [[-> Hmap]|(-> & -> & Hmap)]; [left|right]; split; try done; [|split; [done|]].
      * intros va Hva. rewrite Hmap, Hent by done. pose proof (rounddown_eq a va Ha).
        pose proof (rounddown_mod va) as Hm.
        destruct (decide (va / PGSIZE = a / PGSIZE)) as [E1|E1].
        -- rewrite (proj1 H E1), (decide_False (P := _ <= _ <= _)), decide_True by (unfold PGSIZE in *; lia).
           by rewrite Z.sub_diag, Z.add_0_r.
        -- assert (Hne : PGROUNDDOWN va <> a) by (intros Hb; by apply E1, H).
           pose proof (page_apart (PGROUNDDOWN va) a Hm Ha Hne).
           destruct (decide (a + PGSIZE <= PGROUNDDOWN va <= last)) as [Hin|Hin].
           ++ rewrite decide_True by (unfold PGSIZE in *; lia). do 4 f_equal. lia.
           ++ rewrite decide_False; [done|]. unfold PGSIZE in *; lia.
      * intros va Hva Hr. rewrite Hmap by (try done; unfold PGSIZE in *; lia). rewrite Hent by done.
        pose proof (rounddown_eq a va Ha). case_decide; [unfold PGSIZE in *; lia|done].
Qed.

(** The pages of the range [va, va + size). *)
Lemma range_pages va size : 0 <= va -> 0 < size -> va + size <= 2 ^ 32 ->
  let a := PGROUNDDOWN va in let last := PGROUNDDOWN (va + size - 1) in
  0 <= a <= last /\ a <= va /\ last + PGSIZE <= 2 ^ 32 /\ a / PGSIZE = va / PGSIZE /\ last - a = PGSIZE * ((last - a) / PGSIZE).
Proof. intros H0 H1 H2. cbv zeta. rewrite !PGROUNDDOWN_div. unfold PGSIZE in *. Z.div_mod_to_equations. lia. Qed.

Lemma mappages_new s l pgdir va size pa perm :
  pt_ok s l pgdir -> 0 <= va -> 0 < size -> va + size <= 2 ^ 32 -> is_u32 pa ->
  let a := PGROUNDDOWN va in
  let last := PGROUNDDOWN (va + size - 1) in
  unmapped (k_mem s) pgdir a last ->
   exists r s' l', mappages pgdir va size pa perm s = Ok r s' /\ pt_step pgdir s l s' l'
    /\ (r = 0 /\ mapped (k_mem s) (k_mem s') pgdir a last pa perm
        \/ r = -1 /\ l' = [] /\ forall va', is_u32 va' -> ~ (a <= PGROUNDDOWN va' <= last) ->
             entry (k_mem s') pgdir va' = entry (k_mem s) pgdir va').
Proof.
  intros Hok Hva Hsz Hend Hpa a last Hun. destruct (range_pages va size Hva Hsz Hend) as (Hle & _ & Hl & _ & Hq). fold a last in Hle, Hl, Hq.
  unfold mappages. rewrite (u32_small (va + size - 1)) by (unfold is_u32; lia).
  fold a last. rewrite u32_small by (unfold is_u32, PGSIZE in *; lia).
  pose proof (mappages_loop_ok (Z.to_nat ((last - a) / PGSIZE)) (Z.to_nat ((last - a) / PGSIZE) + 1)
    s l pgdir a last pa perm) as Hm. rewrite (u32_small pa Hpa) in Hm.
  apply Hm; try done; try lia.
  - apply rounddown_mod.
  - rewrite Z2Nat.id by (unfold PGSIZE in *; lia). lia.
Qed.

(** C12: mapping a range of unmapped pages either maps exactly those pages, in
    order, to consecutive frames with the given permissions, or answers -1
    once the free list is empty, with no entry outside the range changed.
    In both cases it writes only to the directory, its tables and free pages,
    and they stay well formed.  A page already mapped at the start of the
    range panics instead. *)
Theorem mappages_spec s l pgdir va size pa perm :
  pt_ok s l pgdir -> 0 <= va -> 0 < size -> va + size <= 2 ^ 32 -> is_u32 pa ->
  let a := PGROUNDDOWN va in
  let last := PGROUNDDOWN (va + size - 1) in
  (unmapped (k_mem s) pgdir a last ->
   exists r s' l', mappages pgdir va size pa perm s = Ok r s' /\ pt_step pgdir s l s' l'
    /\ (r = 0 /\ mapped (k_mem s) (k_mem s') pgdir a last pa perm
        \/ r = -1 /\ l' = [] /\ forall va', is_u32 va' -> ~ (a <= PGROUNDDOWN va' <= last) ->
             entry (k_mem s') pgdir va' = entry (k_mem s) pgdir va'))
  /\ (has (entry (k_mem s) pgdir va) PTE_P = true -> mappages pgdir va size pa perm s = Panic "remap").
Proof.
  intros Hok Hva Hsz Hend Hpa a last. split; [by apply mappages_new|]. intros Hp.
  destruct (range_pages va size Hva Hsz Hend) as (Hle & _ & Hl & Epg & _). fold a last in Hle, Hl, Epg.
  unfold mappages. rewrite (u32_small (va + size - 1)) by (unfold is_u32; lia). fold a last. rewrite Nat.add_1_r. cbn [mappages_loop].
  assert (Hva' : is_u32 va) by (unfold is_u32; lia). assert (Hau : is_u32 a) by (unfold is_u32, PGSIZE in *; lia).
  apply same_page in Epg as [E1 E2]; [|done..].
  unfold entry in Hp. rewrite <- E1, <- E2 in Hp.
  destruct (has (pde (k_mem s) pgdir (PDX a)) PTE_P) eqn:Hpde; [|done].
  rewrite (kbind_ok _ _ _ _ _ (walk_present pgdir a true s Hpde)).
  destruct (pt_table _ _ _ Hok _ (PDX_range a Hau) Hpde) as (Ht & _).
  pose proof (is_page_pos _ _ Ht). pose proof (PTX_range a).
  destruct (Z.eqb_spec (table (pde (k_mem s) pgdir (PDX a)) + 4 * PTX a) 0); [lia|].
  unfold kbind at 1, load, gets. by rewrite Hp.
Qed.

(** ** copyout *)

(** The kernel address of the user byte [va]. *)
Definition phys (m : mem) (pgdir va : Z) : Z := table (entry m pgdir va) + va mod PGSIZE.

(** The [len] bytes from [va] lie on user pages, with distinct managed frames
    that hold neither the page table nor the source buffer [p]. *)
Record user_range (s : kstate) (l : list Z) (pgdir va len p : Z) : Prop := {
  ur_bound : 0 <= va /\ va + len <= KERNBASE;
  ur_user : forall x, va <= x < va + len ->
    has (entry (k_mem s) pgdir x) PTE_P = true /\ has (entry (k_mem s) pgdir x) PTE_U = true
    /\ is_page END (table (entry (k_mem s) pgdir x));
  ur_table : forall x y, va <= x < va + len -> in_page (table (entry (k_mem s) pgdir x)) y ->
    ~ table_bytes s l pgdir y;
  ur_buf : forall x y, va <= x < va + len -> p <= y < p + len ->
    ~ in_page (table (entry (k_mem s) pgdir x)) y;
  ur_inj : forall x y, va <= x < va + len -> va <= y < va + len ->
    table (entry (k_mem s) pgdir x) = table (entry (k_mem s) pgdir y) -> x / PGSIZE = y / PGSIZE }.

(** A store that spares the page table and the free pages changes no entry. *)
Lemma pt_ok_frame s l pgdir m' :
  pt_ok s l pgdir -> mem_ok m' -> (forall x, table_bytes s l pgdir x -> m' x = k_mem s x) ->
  let s' := set_mem m' s in
  pt_ok s' l pgdir
  /\ (forall va, is_u32 va -> entry m' pgdir va = entry (k_mem s) pgdir va)
  /\ (forall x, table_bytes s' l pgdir x <-> table_bytes s l pgdir x).
Proof.
  intros [Hf Hd Ht Hi] Hm Hx s'.
  assert (Hpde : forall i, 0 <= i < 1024 -> pde m' pgdir i = pde (k_mem s) pgdir i).
  { intros i Hir. unfold pde, load32. rewrite !Hx; [done|..]; left; unfold in_page, PGSIZE; lia. }
  split; [|split].
  - split; cbn; try done.
    + destruct Hf as [F1 F2 F3 F4 F5]. split; try done. cbn.
      apply (chain_frame (k_mem s)); [|done]. intros u Hu. unfold load32.
      rewrite !Hx; [done|..]; right; right; exists u; (split; [done|unfold in_page, PGSIZE; lia]).
    + intros i Hir. rewrite Hpde by done. by apply Ht.
    + intros i j Hir Hjr. rewrite !Hpde by done. by apply Hi.
  - intros va Hva. unfold entry. pose proof (PDX_range va Hva). pose proof (PTX_range va).
    rewrite Hpde by done. destruct (has _ PTE_P) eqn:Hp; [|done].
    unfold load32. rewrite !Hx; [done|..]; right; left; exists (PDX va);
      (split; [done|split; [done|unfold in_page, PGSIZE; lia]]).
  - intros x. unfold table_bytes, s'. cbn. split; (intros [H|[(i & Hir & Hp & H)|H]]; [by left| |by right; right]);
      right; left; exists i; [rewrite <- Hpde by done|rewrite Hpde by done]; done.
Qed.

Lemma uva2ka_ok s l pgdir va :
  pt_ok s l pgdir -> is_u32 va ->
  has (entry (k_mem s) pgdir va) PTE_P = true -> has (entry (k_mem s) pgdir va) PTE_U = true ->
  uva2ka pgdir va s = Ok (table (entry (k_mem s) pgdir va)) s.
Proof.
  intros Hok Hva Hp Hu. unfold entry in *.
  destruct (has (pde (k_mem s) pgdir (PDX va)) PTE_P) eqn:Hd; [|done].
  unfold uva2ka. rewrite (kbind_ok _ _ _ _ _ (walk_present pgdir va false s Hd)).
  pose proof (PTX_range va). destruct (pt_table _ _ _ Hok _ (PDX_range va Hva) Hd) as (Ht & _).
  pose proof (is_page_pos _ _ Ht).
  destruct (Z.eqb_spec (table (pde (k_mem s) pgdir (PDX va)) + 4 * PTX va) 0) as [E|E]; [lia|].
  unfold kbind, load, gets. by rewrite Hp, Hu.
Qed.

(** The entry depends only on the page. *)
Lemma entry_page m pgdir x y :
  is_u32 x -> is_u32 y -> x / PGSIZE = y / PGSIZE -> entry m pgdir x = entry m pgdir y.
Proof. intros Hx Hy E. apply same_page in E as [E1 E2]; [|done..]. unfold entry. by rewrite E1, E2. Qed.

(** After the bytes of the first page were stored in its frame, the rest of
    the destination is as it was. *)
Section first_page.
Context (s : kstate) (l : list Z) (pgdir va buf len n : Z) (m1 : mem).
Let va0 := PGROUNDDOWN va.
Let s1 := set_mem m1 s.
Hypothesis Hur : user_range s l pgdir va len buf.
Hypothesis Hn : 0 < n <= len /\ (va - va0) + n <= PGSIZE /\ (n < len -> (va - va0) + n = PGSIZE).
Hypothesis Hent : forall x, is_u32 x -> entry m1 pgdir x = entry (k_mem s) pgdir x.
Hypothesis Htb : forall x, table_bytes s1 l pgdir x <-> table_bytes s l pgdir x.

Lemma rounded : 0 <= va0 <= va /\ va0 / PGSIZE = va / PGSIZE /\ va mod PGSIZE = va - va0.
Proof.
  destruct Hur as [[U0 _] _ _ _ _]. pose proof (PGROUNDDOWN_div va) as Hva0. fold va0 in Hva0. unfold PGSIZE in *. Z.div_mod_to_equations. lia.
Qed.

Lemma beyond x : va0 + PGSIZE <= x < va0 + PGSIZE + (len - n) -> va <= x < va + len /\ is_u32 x /\ x / PGSIZE <> va / PGSIZE.
Proof.
  intros Hx. destruct Hur as [[U0 U1] _ _ _ _]. destruct rounded as (H0 & Hpg & Hmod). unfold is_u32, KERNBASE in *. split; [lia|]. split; [lia|].
  rewrite <- Hpg. unfold PGSIZE in *. Z.div_mod_to_equations. lia.
Qed.

Lemma user_range_rest : user_range s1 l pgdir (va0 + PGSIZE) (len - n) (buf + n).
Proof.
  pose proof Hur as [[U0 U1] U2 U3 U4 U5]. destruct rounded as (H0 & Hpg & Hmod). split.
  - unfold PGSIZE, KERNBASE in *. Z.div_mod_to_equations. lia.
  - intros x Hx. destruct (beyond x Hx) as (Hx1 & Hxu & _). cbn. rewrite Hent by done. auto.
  - intros x y Hx. destruct (beyond x Hx) as (Hx1 & Hxu & _). cbn. rewrite Hent, Htb by done. by apply U3.
  - intros x y Hx Hy. destruct (beyond x Hx) as (Hx1 & Hxu & _). cbn. rewrite Hent by done. apply U4; lia.
  - intros x y Hx Hy. destruct (beyond x Hx) as (Hx1 & Hxu & _), (beyond y Hy) as (Hy1 & Hyu & _).
    cbn. rewrite !Hent by done. auto.
Qed.

Lemma phys_first i : 0 <= i < n -> phys (k_mem s) pgdir (va + i) = table (entry (k_mem s) pgdir va) + (va - va0) + i.
Proof.
  intros Hi. destruct Hur as [[U0 U1] _ _ _ _]. destruct rounded as (H0 & Hpg & Hmod). unfold phys. rewrite (entry_page _ _ (va + i) va); try done;
    [|unfold is_u32, KERNBASE in *; lia|unfold is_u32, KERNBASE in *; lia|]; unfold PGSIZE in *; Z.div_mod_to_equations; lia.
Qed.

Lemma phys_rest i : 0 <= i < len - n -> phys (k_mem s1) pgdir (va0 + PGSIZE + i) = phys (k_mem s) pgdir (va + (n + i)).
Proof.
  intros Hi. destruct (beyond (va0 + PGSIZE + i) ltac:(lia)) as (_ & Hu' & _).
  unfold phys. cbn. rewrite Hent by done. by replace (va0 + PGSIZE + i) with (va + (n + i)) by lia.
Qed.

(** The pages that follow have other frames. *)
Lemma phys_apart i j : 0 <= i < n -> 0 <= j < len - n -> phys (k_mem s) pgdir (va + i) <> phys (k_mem s) pgdir (va + (n + j)).
Proof.
  intros Hi Hj E. rewrite phys_first in E by done. pose proof Hur as [_ U2 _ _ U5]. destruct (beyond (va0 + PGSIZE + j) ltac:(lia)) as (Hj1 & _ & Hjp).
  destruct rounded as (H0 & _ & _). replace (va0 + PGSIZE + j) with (va + (n + j)) in * by lia.
  destruct (U2 _ Hj1) as (_ & _ & Hpage'). destruct (U2 va ltac:(lia)) as (_ & _ & Hpage). unfold phys in E.
  apply Hjp. apply U5; [done|lia|]. apply dec_stable. intros Hne.
  pose proof (page_apart _ _ (proj1 Hpage') (proj1 Hpage) Hne).
  pose proof (Z.mod_pos_bound (va + (n + j)) PGSIZE ltac:(unfold PGSIZE; lia)). lia.
Qed.
End first_page.

Lemma copyout_loop_ok fuel s l pgdir va buf len :
  pt_ok s l pgdir -> user_range s l pgdir va len buf -> 0 <= len ->
  (va mod PGSIZE + len + PGSIZE - 1) / PGSIZE < Z.of_nat fuel ->
  exists s', copyout_loop fuel memmove pgdir va buf len s = Ok 0 s' /\ pt_ok s' l pgdir
    /\ (forall i, 0 <= i < len -> k_mem s' (phys (k_mem s) pgdir (va + i)) = k_mem s (buf + i))
    /\ (forall x, (forall i, 0 <= i < len -> x <> phys (k_mem s) pgdir (va + i)) -> k_mem s' x = k_mem s x).
Proof.
  revert s va buf len. induction fuel as [|fuel IH]; intros s va buf len Hok Hur Hlen Hfuel.
  { exfalso. unfold PGSIZE in *. Z.div_mod_to_equations. lia. }
  cbn [copyout_loop]. rewrite Z.gtb_ltb. destruct (Z.ltb_spec 0 len) as [Hpos|Hz].
  2:{ exists s. split; [done|]. split; [done|]. split; [lia|done]. }
  pose proof Hur as [[U0 U1] U2 U3 U4 U5].
  assert (Hvu : is_u32 va) by (unfold is_u32, KERNBASE in *; lia).
  set (va0 := PGROUNDDOWN va) in *.
  destruct (rounded s l pgdir va buf len Hur) as (H0 & Hpg & Hmod). fold va0 in H0, Hpg, Hmod.
  assert (Hv0 : is_u32 va0) by (unfold is_u32 in *; lia).
  assert (Een : entry (k_mem s) pgdir va0 = entry (k_mem s) pgdir va) by (by apply entry_page).
  destruct (U2 va ltac:(lia)) as (Hp & Hu & Hpage). pose proof (is_page_pos _ _ Hpage).
  rewrite (kbind_ok _ _ _ _ _ (uva2ka_ok s l pgdir va0 Hok Hv0 ltac:(by rewrite Een) ltac:(by rewrite Een))).
  rewrite Een. set (f := table (entry (k_mem s) pgdir va)) in *.
  destruct (Z.eqb_spec f 0) as [|Hf0]; [lia|]. cbv zeta. rewrite Z.gtb_ltb.
  set (n := if len <? PGSIZE - (va - va0) then len else PGSIZE - (va - va0)).
  assert (Hn : 0 < n <= len /\ (va - va0) + n <= PGSIZE /\ (n < len -> (va - va0) + n = PGSIZE)).
  { unfold n. unfold PGSIZE in *. Z.div_mod_to_equations. destruct (Z.ltb_spec len (4096 - (va - va0))); lia. }
  clearbody n. unfold kbind at 1, memmove, modify.
  set (m1 := KString.memmove (k_mem s) (f + (va - va0)) buf n).
  assert (Hm1 : mem_eq m1 (blit (k_mem s) (f + (va - va0)) (k_mem s) buf n)) by (apply StringSpec.memmove_blit; lia).
  assert (Hsame : forall x, ~ in_page f x -> m1 x = k_mem s x).
  { intros x Hx. rewrite Hm1. apply blit_out. unfold in_page, PGSIZE in *. lia. }
  destruct (pt_ok_frame s l pgdir m1 Hok) as (Hok1 & Hent & Htb).
  { intros x. rewrite Hm1. unfold blit. destruct (_ && _); apply (free_mem _ _ _ (pt_free _ _ _ Hok)). }
  { intros x Hx. apply Hsame. intros Hin. by apply (U3 va x ltac:(lia) Hin). }
  set (s1 := set_mem m1 s) in *.
  assert (Eva : u32 (va0 + PGSIZE) = va0 + PGSIZE) by (apply u32_small; unfold is_u32, PGSIZE, KERNBASE in *; lia).
  rewrite Eva.
  destruct (IH s1 (va0 + PGSIZE) (buf + n) (len - n) Hok1) as (s' & E' & Hok' & Hcopy & Hrest).
  - by apply (user_range_rest s l pgdir va buf len n m1).
  - lia.
  - unfold PGSIZE in *. Z.div_mod_to_equations. lia.
  - assert (Hph := phys_first s l pgdir va buf len n Hur Hn). assert (Hph' := phys_rest s l pgdir va buf len n m1 Hur Hn Hent).
    fold va0 f s1 in Hph, Hph'. exists s'. split; [exact E'|]. split; [done|]. split.
    + intros i Hi. destruct (Z.ltb_spec i n) as [Hin|Hin].
      * rewrite Hph by lia. rewrite Hrest.
        -- cbn. rewrite Hm1, blit_in by lia. f_equal. lia.
        -- intros j Hj. rewrite Hph', <- Hph by lia. apply (phys_apart s l pgdir va buf len n Hur Hn); lia.
      * specialize (Hcopy (i - n) ltac:(lia)). rewrite Hph' in Hcopy by lia.
        replace (n + (i - n)) with i in Hcopy by lia. rewrite Hcopy.
        replace (buf + n + (i - n)) with (buf + i) by lia. cbn. apply Hsame. apply U4; lia.
    + intros x Hx. rewrite Hrest.
      * cbn. rewrite Hm1. apply blit_out. intros Hin. apply (Hx (x - f - (va - va0)) ltac:(lia)).
        rewrite Hph by lia. lia.
      * intros i Hi. rewrite Hph' by done. apply Hx. lia.
Qed.

(** copyout to user memory that is mapped and user-accessible copies all
    the bytes, page by page, to where the page table puts them, writes
    nothing else, and answers 0; the page table is left as it was. *)
Theorem copyout_spec s l pgdir va p len :
  pt_ok s l pgdir -> user_range s l pgdir va len p -> 0 <= len ->
  exists s', copyout pgdir va p len s = Ok 0 s' /\ pt_ok s' l pgdir
    /\ (forall i, 0 <= i < len -> k_mem s' (phys (k_mem s) pgdir (va + i)) = k_mem s (p + i))
    /\ (forall x, (forall i, 0 <= i < len -> x <> phys (k_mem s) pgdir (va + i)) -> k_mem s' x = k_mem s x).
Proof.
  intros Hok Hur Hlen. unfold copyout, copyout_from. apply (copyout_loop_ok _ _ l); try done.
  pose proof (Z.mod_pos_bound va PGSIZE ltac:(unfold PGSIZE; lia)).
  unfold PGSIZE in *. Z.div_mod_to_equations. lia.
Qed.
End facts.

(** ** Concrete page tables *)

Definition page3 : Z := 0x80103000.

(** An empty directory at [page1], and one free page. *)
Definition empty_dir : kstate :=
  {| k_mem := zeroed; freelist := page2; use_lock := true; k_locked := false; k_console := [] |}.

Lemma is_page_const v : bool_decide (v mod PGSIZE = 0 /\ END0 <= v /\ KERNBASE <= v < KERNBASE + PHYSTOP) = true ->
  is_page END0 v.
Proof. intros H. by apply bool_decide_eq_true in H. Qed.

Lemma empty_dir_ok : pt_ok END0 empty_dir [page2] page1.
Proof.
  split.
  - split; [apply zeroed_ok|done|done|apply NoDup_singleton|].
    apply Forall_singleton, is_page_const. reflexivity.
  - split; [apply is_page_const; reflexivity|]. intros H%list_elem_of_singleton. discriminate H.
  - intros i _ H. discriminate H.
  - intros i j _ _ H. discriminate H.
Qed.

Lemma mappages_spec_witness : exists r s', mappages page1 0x1000 0x2000 0x400000 6 empty_dir = Ok r s'
  /\ (r = 0 \/ r = -1).
Proof.
  destruct (mappages_spec END0 empty_dir [page2] page1 0x1000 0x2000 0x400000 6) as [H _];
    [apply empty_dir_ok|lia|lia|lia|unfold is_u32; lia|].
  destruct H as (r & s' & l' & E & _ & Hr); [intros va _ _; reflexivity|].
  exists r, s'. split; [exact E|]. destruct Hr as [[Hr _]|[Hr _]]; [left|right]; exact Hr.
Defined.

(** One user page: address 0x1000 is the frame [page3], through the table
    [page2]. *)
Definition one_page : kstate :=
  {| k_mem := store32 (store32 zeroed page1 (new_pde page2)) (page2 + 4) (V2P page3 + 7);
     freelist := 0; use_lock := true; k_locked := false; k_console := [] |}.

Lemma one_page_pde i : 0 <= i < 1024 ->
  pde (k_mem one_page) page1 i = if decide (i = 0) then new_pde page2 else 0.
Proof.
  intros Hi. unfold pde, one_page. cbn [k_mem].
  rewrite load32_store32_ne by (unfold page1, page2; lia). case_decide as E; [by subst|].
  rewrite load32_store32_ne by lia. reflexivity.
Qed.

Lemma one_page_present i : 0 <= i < 1024 -> has (pde (k_mem one_page) page1 i) PTE_P = true -> i = 0.
Proof. intros Hi. rewrite one_page_pde by done. by case_decide. Qed.

Lemma one_page_ok : pt_ok END0 one_page [] page1.
Proof.
  split.
  - split; [|done|done|constructor|constructor]. cbn. by apply store32_mem_ok, store32_mem_ok, zeroed_ok.
  - split; [apply is_page_const; reflexivity|]. by intros ?%elem_of_nil.
  - intros i Hi ->%one_page_present; [|done]. rewrite one_page_pde by done. cbn zeta.
    split; [apply is_page_const; reflexivity|]. split; [by intros ?%elem_of_nil|]. intros H. discriminate H.
  - intros i j Hi Hj ->%one_page_present ->%one_page_present; done.
Qed.

Lemma one_page_entry x : 0x1000 <= x < 0x1002 -> entry (k_mem one_page) page1 x = V2P page3 + 7.
Proof.
  intros Hx. rewrite (entry_page _ _ x 0x1000); [reflexivity|unfold is_u32; lia|unfold is_u32; lia|].
  unfold PGSIZE. Z.div_mod_to_equations. lia.
Qed.

Lemma copyout_spec_witness : exists s', copyout page1 0x1000 0x80100000 2 one_page = Ok 0 s'
  /\ k_mem s' page3 = 0.
Proof.
  destruct (copyout_spec END0 one_page [] page1 0x1000 0x80100000 2 one_page_ok) as (s' & E & _ & H & _).
  - split.
    + unfold KERNBASE. lia.
    + intros x Hx. rewrite one_page_entry by lia. split; [reflexivity|]. split; [reflexivity|].
      apply is_page_const. reflexivity.
    + intros x y Hx Hin. rewrite one_page_entry in Hin by lia.
      change (in_page page3 y) in Hin. unfold in_page, page3, PGSIZE in Hin.
      intros [Hd|[(i & Hi & Hp & Ht)|(v & Hv & _)]].
      * unfold in_page, page1, PGSIZE in Hd. lia.
      * apply one_page_present in Hp; [|exact Hi]. subst i. change (in_page page2 y) in Ht.
        unfold in_page, page2, PGSIZE in Ht. lia.
      * apply elem_of_nil in Hv. exact Hv.
    + intros x y Hx Hy. rewrite one_page_entry by lia. change (~ in_page page3 y).
      unfold in_page, page3, PGSIZE. lia.
    + intros x y Hx Hy _. unfold PGSIZE. Z.div_mod_to_equations. lia.
  - lia.
  - exists s'. split; [exact E|]. exact (H 0 ltac:(lia)).
Defined.
