(* ===== verification/Uvm.v ===== *)
(** * Address spaces (vm.c)

    The page table of a process as an object: a directory, its tables and the
    frames of the user pages, which are distinct managed pages off the free
    list.  [pm] maps a user page number to its page-table entry.  Each routine
    of Vm.v that builds, grows, shrinks, fills or destroys an address space is
    a step on [pm] that accounts for every page, keeps the kernel half and
    writes to no page of anyone else. *)

From S2P Require Import Prelude Mem Kalloc Vm VmFacts.
#[local] Open Scope Z_scope.
#[local] Open Scope kernel_scope.

Definition USERPAGES : Z := 0x80000.

Definition frames (pm : gmap Z Z) : list Z := (fun x => table (snd x)) <$> map_to_list pm.

(** The pages of an address space. *)
Definition held (m : mem) (pgdir : Z) (pm : gmap Z Z) : list Z := frames pm ++ tables m pgdir ++ [pgdir].

(** The pages of the user half from byte [a] to byte [b] taken out. *)
Definition cut (a b : Z) (pm : gmap Z Z) : gmap Z Z := filter (fun x => ~ (a <= PGSIZE * fst x < b)) pm.

Lemma frames_empty : frames ∅ = [].
Proof. done. Qed.

Lemma held_empty m pgdir : held m pgdir ∅ = tables m pgdir ++ [pgdir].
Proof. unfold held. by rewrite frames_empty, app_nil_l. Qed.

Lemma frames_insert pm i e : pm !! i = None -> frames (<[i := e]> pm) ≡ₚ table e :: frames pm.
Proof. intros H. unfold frames. by rewrite map_to_list_insert. Qed.

Lemma frames_delete pm i e : pm !! i = Some e -> frames pm ≡ₚ table e :: frames (delete i pm).
Proof. intros H. rewrite <- (insert_delete_id pm i e H) at 1. apply frames_insert, lookup_delete_eq. Qed.

Lemma elem_frames pm t : t ∈ frames pm <-> exists i e, pm !! i = Some e /\ table e = t.
Proof.
  unfold frames. rewrite list_elem_of_fmap. split.
  - intros ([i e] & -> & H%elem_of_map_to_list). by exists i, e.
  - intros (i & e & H & <-). exists (i, e). split; [done|]. by apply elem_of_map_to_list.
Qed.

Lemma cut_lookup a b pm i : cut a b pm !! i = if decide (a <= PGSIZE * i < b) then None else pm !! i.
Proof.
  unfold cut. destruct (pm !! i) as [e|] eqn:E; case_decide as H.
  - apply map_lookup_filter_None_2. right. intros x Hx Hn. cbn in Hn. done.
  - apply map_lookup_filter_Some_2; [done|]. done.
  - apply map_lookup_filter_None_2. by left.
  - apply map_lookup_filter_None_2. by left.
Qed.

Lemma omap_inj {A B} (f : A -> option B) (l : list A) x y v :
  NoDup (omap f l) -> x ∈ l -> y ∈ l -> f x = Some v -> f y = Some v -> x = y.
Proof.
  induction l as [|z l IH]; intros Hnd Hx Hy Ex Ey; [by apply elem_of_nil in Hx|]. cbn in Hnd.
  rewrite elem_of_cons in Hx, Hy. destruct Hx as [<-|Hx], Hy as [<-|Hy]; [done|..].
  - rewrite Ex in Hnd. apply NoDup_cons in Hnd as [Hn _]. destruct Hn. apply list_elem_of_omap. by exists y.
  - rewrite Ey in Hnd. apply NoDup_cons in Hnd as [Hn _]. destruct Hn. apply list_elem_of_omap. by exists x.
  - apply IH; try done. destruct (f z); [by apply NoDup_cons in Hnd as [_ Hnd]|done].
Qed.

Section uvm.
Context (END : Z).

Lemma apart p q x : is_page END p -> is_page END q -> in_page p x -> in_page q x -> p = q.
Proof.
  intros Hp Hq Hx Hy. apply dec_stable. intros Hne. pose proof (page_apart p q (proj1 Hp) (proj1 Hq) Hne).
  unfold in_page, PGSIZE in *. lia.
Qed.

Lemma table_bytes_in s l pgdir x :
  table_bytes s l pgdir x <-> exists p, p ∈ l ++ tables (k_mem s) pgdir ++ [pgdir] /\ in_page p x.
Proof.
  unfold table_bytes. split.
  - intros [H|[(i & Hi & Hp & H)|(v & Hv & H)]].
    + exists pgdir. split; [|done]. apply elem_of_app. right. apply elem_of_app. right. constructor.
    + eexists. split; [|exact H]. apply elem_of_app. right. apply elem_of_app. left. apply elem_tables. by exists i.
    + exists v. split; [|done]. apply elem_of_app. by left.
  - intros (p & [Hp|[(i & Hi & Hpr & <-)%elem_tables| ->%list_elem_of_singleton]%elem_of_app]%elem_of_app & Hx).
    + right; right. by exists p.
    + right; left. by exists i.
    + by left.
Qed.

Lemma tables_inj m pgdir i j :
  NoDup (tables m pgdir) -> 0 <= i < 1024 -> 0 <= j < 1024 -> has (pde m pgdir i) PTE_P = true -> has (pde m pgdir j) PTE_P = true ->
  table (pde m pgdir i) = table (pde m pgdir j) -> i = j.
Proof.
  unfold tables. set (f := fun i => _). intros Hnd Hi Hj Hp Hq E.
  assert (Hf : f i = Some (table (pde m pgdir i)) /\ f j = Some (table (pde m pgdir i))).
  { subst f. cbn. by rewrite Hp, Hq, E. }
  clearbody f. destruct Hf as [Hf1 Hf2]. apply (omap_inj f (seqZ 0 NPDENTRIES) i j (table (pde m pgdir i))); try done.
  all: apply elem_of_seqZ; by rewrite Z.add_0_l.
Qed.

Lemma pt_ok_intro s l pgdir :
  free END s l -> NoDup (l ++ tables (k_mem s) pgdir ++ [pgdir]) ->
  Forall (is_page END) (tables (k_mem s) pgdir ++ [pgdir]) -> pt_ok END s l pgdir.
Proof.
  intros Hf Hnd Hpg. apply NoDup_app in Hnd as (_ & Hl & Hnd). apply NoDup_app in Hnd as (Hnt & Ht & _).
  rewrite Forall_app, Forall_singleton, Forall_forall in Hpg. destruct Hpg as [Hpt Hpd].
  assert (Hin : forall i, 0 <= i < 1024 -> has (pde (k_mem s) pgdir i) PTE_P = true -> table (pde (k_mem s) pgdir i) ∈ tables (k_mem s) pgdir).
  { intros i Hi Hp. apply elem_tables. by exists i. }
  split; [done| | |].
  - split; [done|]. intros H. apply (Hl pgdir H). apply elem_of_app. right. constructor.
  - intros i Hi Hp. split; [by apply Hpt, Hin|]. split.
    + intros H. apply (Hl _ H). apply elem_of_app. left. by apply Hin.
    + intros E. apply (Ht _ (Hin i Hi Hp)). rewrite E. constructor.
  - intros i j Hi Hj Hp Hq E. by apply (tables_inj (k_mem s) pgdir).
Qed.

(** The address space [pm] with directory [pgdir], when the free list is [l]. *)
Record space (s : kstate) (l : list Z) (pgdir : Z) (pm : gmap Z Z) : Prop := {
  sp_free : free END s l;
  sp_nodup : NoDup (l ++ held (k_mem s) pgdir pm);
  sp_pages : Forall (is_page END) (held (k_mem s) pgdir pm);
  sp_range : forall i e, pm !! i = Some e -> 0 <= i < USERPAGES;
  sp_entry : forall i e, pm !! i = Some e -> entry (k_mem s) pgdir (PGSIZE * i) = e /\ has e PTE_P = true;
  sp_none : forall i, 0 <= i < USERPAGES -> pm !! i = None -> has (entry (k_mem s) pgdir (PGSIZE * i)) PTE_P = false }.

Definition owned (s : kstate) (l : list Z) (pgdir : Z) (pm : gmap Z Z) : list Z := l ++ held (k_mem s) pgdir pm.

(** What an operation on an address space does: the pages stay accounted
    for, other pages and the kernel half stay as they are. *)
Record vstep (pgdir : Z) (s : kstate) (l : list Z) (pm : gmap Z Z) (s' : kstate) (l' : list Z) (pm' : gmap Z Z) : Prop := {
  vs_space : space s' l' pgdir pm';
  vs_owned : owned s' l' pgdir pm' ≡ₚ owned s l pgdir pm;
  vs_mem : forall x, (forall p, p ∈ owned s l pgdir pm -> ~ in_page p x) -> k_mem s' x = k_mem s x;
  vs_kernel : forall va, KERNBASE <= va < 2 ^ 32 -> entry (k_mem s') pgdir va = entry (k_mem s) pgdir va }.

(** The bytes of the user pages of [pm] are the same in both states. *)
Definition keeps (pm : gmap Z Z) (s s' : kstate) : Prop :=
  forall i e x, pm !! i = Some e -> in_page (table e) x -> k_mem s' x = k_mem s x.

Lemma vstep_refl pgdir s l pm : space s l pgdir pm -> vstep pgdir s l pm s l pm.
Proof. by split. Qed.

Lemma vstep_trans pgdir s1 l1 p1 s2 l2 p2 s3 l3 p3 :
  vstep pgdir s1 l1 p1 s2 l2 p2 -> vstep pgdir s2 l2 p2 s3 l3 p3 -> vstep pgdir s1 l1 p1 s3 l3 p3.
Proof.
  intros [A1 A2 A3 A4] [B1 B2 B3 B4]. split; [done|by rewrite B2| |].
  - intros x Hx. rewrite B3; [by apply A3|]. intros p Hp. apply Hx. by rewrite <- A2.
  - intros va Hva. rewrite B4 by done. by apply A4.
Qed.

Lemma space_pt s l pgdir pm : space s l pgdir pm -> pt_ok END s l pgdir.
Proof.
  intros [Hf Hnd Hpg _ _ _]. apply pt_ok_intro; [done| |].
  - unfold held in Hnd. rewrite Permutation_app_swap_app in Hnd. by apply NoDup_app in Hnd as (_ & _ & Hnd).
  - unfold held in Hpg. by apply Forall_app in Hpg as [_ Hpg].
Qed.

Lemma owned_pages s l pgdir pm : space s l pgdir pm -> Forall (is_page END) (owned s l pgdir pm).
Proof. intros H. apply Forall_app. split; [apply (free_pages _ _ _ (sp_free _ _ _ _ H))|apply (sp_pages _ _ _ _ H)]. Qed.
(** ** One page at a time *)

Lemma owned_swap s l pgdir pm :
  owned s l pgdir pm ≡ₚ frames pm ++ l ++ tables (k_mem s) pgdir ++ [pgdir].
Proof. unfold owned, held. apply Permutation_app_swap_app. Qed.

Lemma elem_owned s l pgdir pm p :
  p ∈ owned s l pgdir pm <-> p ∈ l \/ p ∈ frames pm \/ p ∈ tables (k_mem s) pgdir \/ p = pgdir.
Proof. unfold owned, held. by rewrite !elem_of_app, list_elem_of_singleton. Qed.

Lemma frame_apart s l pgdir pm i e x :
  space s l pgdir pm -> pm !! i = Some e -> in_page (table e) x -> ~ table_bytes s l pgdir x.
Proof.
  intros Hs Hi Hx (p & Hp & Hpx)%table_bytes_in. pose proof (owned_pages _ _ _ _ Hs) as HF. rewrite Forall_forall in HF.
  pose proof (sp_nodup _ _ _ _ Hs) as Hnd. change (NoDup (owned s l pgdir pm)) in Hnd. rewrite owned_swap in Hnd.
  apply NoDup_app in Hnd as (_ & Hdis & _). assert (Hf : table e ∈ frames pm) by (apply elem_frames; by exists i, e).
  apply (Hdis _ Hf). replace (table e) with p; [done|]. apply (apart p (table e) x); try done.
  - apply HF. rewrite owned_swap. apply elem_of_app. by right.
  - apply HF. rewrite owned_swap. apply elem_of_app. by left.
Qed.

(** The entries depend on the directory and the tables. *)
Lemma entries_frame m m' pgdir :
  (forall x p, p ∈ tables m pgdir ++ [pgdir] -> in_page p x -> m' x = m x) ->
  (forall i, 0 <= i < 1024 -> pde m' pgdir i = pde m pgdir i) /\ (forall va, is_u32 va -> entry m' pgdir va = entry m pgdir va).
Proof.
  intros Hm. assert (Hw : forall p k, p ∈ tables m pgdir ++ [pgdir] -> 0 <= k < 1024 -> load32 m' (p + 4 * k) = load32 m (p + 4 * k)).
  { intros p k Hp Hk. unfold load32. rewrite !(Hm _ p) by (done || unfold in_page, PGSIZE; lia). done. }
  assert (Hpde : forall i, 0 <= i < 1024 -> pde m' pgdir i = pde m pgdir i).
  { intros i Hi. apply Hw; [|done]. apply elem_of_app. right. constructor. }
  split; [done|]. intros va Hva. pose proof (PDX_range va Hva). unfold entry. rewrite Hpde by done. destruct (has _ _) eqn:E; [|done].
  apply Hw; [|apply PTX_range]. apply elem_of_app. left. apply elem_tables. by exists (PDX va).
Qed.

(** An address space depends on its directory and tables and on the free list. *)
Lemma space_frame s l pgdir pm s' l' :
  space s l pgdir pm -> free END s' l' -> NoDup (l' ++ held (k_mem s) pgdir pm) ->
  (forall x p, p ∈ tables (k_mem s) pgdir ++ [pgdir] -> in_page p x -> k_mem s' x = k_mem s x) ->
  space s' l' pgdir pm /\ tables (k_mem s') pgdir = tables (k_mem s) pgdir /\
  (forall va, is_u32 va -> entry (k_mem s') pgdir va = entry (k_mem s) pgdir va).
Proof.
  intros Hs Hf Hnd Hm. destruct (entries_frame _ _ _ Hm) as [Hpde Hent]. pose proof (tables_same _ _ _ Hpde) as Ht.
  assert (Hu : forall i, 0 <= i < USERPAGES -> is_u32 (PGSIZE * i)).
  { unfold USERPAGES, is_u32, PGSIZE. lia. }
  split_and!; [|done|done]. destruct Hs as [S1 S2 S3 S4 S5 S6]. split; try done.
  - unfold held. by rewrite Ht.
  - unfold held. by rewrite Ht.
  - intros i e Hi. rewrite Hent by eauto. by apply S5.
  - intros i Hi Hn. rewrite Hent by auto. by apply S6.
Qed.

(** Bytes of the user pages are written. *)
Lemma write_ok s l pgdir pm m' : space s l pgdir pm -> mem_ok m' ->
  (forall x, (forall i e, pm !! i = Some e -> ~ in_page (table e) x) -> m' x = k_mem s x) ->
  vstep pgdir s l pm (set_mem m' s) l pm.
Proof.
  intros Hs Hok Hm. assert (Hb : forall x, table_bytes s l pgdir x -> m' x = k_mem s x).
  { intros x Hx. apply Hm. intros i e Hi Hin. by apply (frame_apart _ _ _ _ i e x Hs). }
  destruct (pt_ok_frame END s l pgdir m' (space_pt _ _ _ _ Hs) Hok Hb) as (Hpt & _ & _).
  destruct (space_frame s l pgdir pm (set_mem m' s) l Hs) as (Hs' & Ht & Hent).
  - apply (pt_free _ _ _ _ Hpt).
  - apply (sp_nodup _ _ _ _ Hs).
  - intros x p Hp Hx. apply Hb, table_bytes_in. exists p. split; [|done]. apply elem_of_app. by right.
  - split; [done| | |].
    + unfold owned, held. by rewrite Ht.
    + intros x Hx. apply Hm. intros i e Hi. apply Hx, elem_owned. right; left. apply elem_frames. by exists i, e.
    + intros va Hva. apply Hent. unfold is_u32, KERNBASE in *. lia.
Qed.

(** A zeroed page from the free list, not yet in the address space. *)
Lemma take_page s t l pgdir pm : space s (t :: l) pgdir pm ->
  exists s0 s1, kalloc s = Ok t s0 /\ memset t 0 PGSIZE s0 = Ok tt s1 /\ t <> 0 /\ is_page END t /\
    space s1 l pgdir pm /\ t :: owned s1 l pgdir pm ≡ₚ owned s (t :: l) pgdir pm /\ t ∉ owned s1 l pgdir pm /\
    (forall x, ~ in_page t x -> k_mem s1 x = k_mem s x) /\ (forall x, in_page t x -> k_mem s1 x = 0) /\
    (forall va, is_u32 va -> entry (k_mem s1) pgdir va = entry (k_mem s) pgdir va).
Proof.
  intros Hs. destruct (zalloc END s t l (sp_free _ _ _ _ Hs)) as (s0 & s1 & E0 & E1 & Hp & Hne & Hl & Hf & Hm & _).
  pose proof (sp_nodup _ _ _ _ Hs) as Hnd. cbn [app] in Hnd. apply NoDup_cons in Hnd as [Hn Hnd].
  assert (Hoff : forall x, ~ in_page t x -> k_mem s1 x = k_mem s x) by (intros x Hx; rewrite Hm; by apply fill_out).
  assert (Hin : forall x, in_page t x -> k_mem s1 x = 0) by (intros x Hx; rewrite Hm; by apply fill_in).
  assert (Hh : forall p, p ∈ held (k_mem s) pgdir pm -> is_page END p /\ p <> t).
  { intros p Hq. pose proof (sp_pages _ _ _ _ Hs) as HF. rewrite Forall_forall in HF. split; [by apply HF|]. intros ->. apply Hn, elem_of_app. by right. }
  destruct (space_frame s (t :: l) pgdir pm s1 l Hs Hf Hnd) as (Hs1 & Ht & Hent).
  { intros x p Hq Hx. destruct (Hh p) as [Hpp Hpt]; [unfold held; apply elem_of_app; by right|].
    apply Hoff. intros Hy. by apply Hpt, (apart p t x). }
  exists s0, s1. split_and!; try done; unfold owned, held; by rewrite Ht.
Qed.

Lemma entry_slot s l pgdir pm i e :
  space s l pgdir pm -> pm !! i = Some e ->
  let va := PGSIZE * i in
  let slot := table (pde (k_mem s) pgdir (PDX va)) + 4 * PTX va in
  is_u32 va /\ has (pde (k_mem s) pgdir (PDX va)) PTE_P = true /\ walkpgdir pgdir va false s = Ok slot s /\
  slot <> 0 /\ load32 (k_mem s) slot = e /\ in_page (table (pde (k_mem s) pgdir (PDX va))) slot.
Proof.
  intros Hs Hi va slot. pose proof (sp_range _ _ _ _ Hs i e Hi) as Hr. destruct (sp_entry _ _ _ _ Hs i e Hi) as [He Hp].
  assert (Hu : is_u32 va) by (unfold is_u32, va, PGSIZE, USERPAGES in *; lia).
  assert (Hd : has (pde (k_mem s) pgdir (PDX va)) PTE_P = true).
  { fold va in He. unfold entry in He. destruct (has (pde _ _ _) _); [done|]. subst e. done. }
  pose proof (pt_slot END s l pgdir va (space_pt _ _ _ _ Hs) Hu Hd) as Hslot. fold va in He. rewrite He in Hslot.
  pose proof (PTX_range va). destruct (pt_table _ _ _ _ (space_pt _ _ _ _ Hs) _ (PDX_range va Hu) Hd) as (Ht & _).
  pose proof (is_page_pos _ _ Ht). split_and!; try done; [by apply walk_present|unfold slot; lia|].
  unfold in_page, slot, PGSIZE. lia.
Qed.

(** A page outside the address space goes back to the free list. *)
Lemma give_page s t l pgdir pm : space s l pgdir pm -> is_page END t -> t ∉ owned s l pgdir pm ->
  exists s', kfree END t s = Ok tt s' /\ space s' (t :: l) pgdir pm /\ owned s' (t :: l) pgdir pm = t :: owned s l pgdir pm /\
    (forall x, ~ in_page t x -> k_mem s' x = k_mem s x) /\
    (forall va, is_u32 va -> entry (k_mem s') pgdir va = entry (k_mem s) pgdir va).
Proof.
  intros Hs Hp Hn. assert (Hl : t ∉ l) by (intros H; apply Hn, elem_of_app; by left).
  destruct (kfree_ok END s l t (sp_free _ _ _ _ Hs) Hp Hl) as (s' & E & Hf & Hoff & _).
  assert (Hoff' : forall x, ~ in_page t x -> k_mem s' x = k_mem s x) by (intros x Hx; by apply Hoff).
  destruct (space_frame s l pgdir pm s' (t :: l) Hs Hf) as (Hs' & Ht & Hent).
  - cbn. apply NoDup_cons. split; [done|apply (sp_nodup _ _ _ _ Hs)].
  - intros x p Hq Hx. apply Hoff'. intros Hy. apply Hn. unfold owned, held. rewrite !elem_of_app. right; right.
    rewrite <- elem_of_app. replace t with p; [done|]. apply (apart p t x); try done.
    pose proof (sp_pages _ _ _ _ Hs) as HF. rewrite Forall_forall in HF. apply HF. unfold held. apply elem_of_app. by right.
  - exists s'. split_and!; try done. unfold owned, held. by rewrite Ht.
Qed.
(** The pages an address space up to [b] can need: its frames, the tables and
    the directory. *)
Definition needed (b : Z) : Z := (b + PGSIZE - 1) / PGSIZE + 1025.

Lemma tables_length m pgdir : (length (tables m pgdir) <= 1024)%nat.
Proof.
  unfold tables. assert (H : forall (f : Z -> option Z) l, (length (omap f l) <= length l)%nat).
  { intros f l. induction l as [|x l IH]; [done|]. cbn. destruct (f x); cbn; lia. }
  etrans; [apply H|]. rewrite length_seqZ. unfold NPDENTRIES. lia.
Qed.

Lemma size_below (pm : gmap Z Z) b : (forall i e, pm !! i = Some e -> 0 <= i /\ PGSIZE * i < b) -> 0 <= b -> Z.of_nat (size pm) <= (b + PGSIZE - 1) / PGSIZE.
Proof.
  intros H Hb. set (n := (b + PGSIZE - 1) / PGSIZE). assert (0 <= n) by (unfold n, PGSIZE; Z.div_mod_to_equations; lia).
  rewrite <- length_map_to_list, <- (length_fmap fst). assert (Hs : fst <$> map_to_list pm ⊆+ seqZ 0 n).
  { apply NoDup_submseteq; [apply NoDup_fst_map_to_list|]. intros i Hi. apply list_elem_of_fmap in Hi as ([j e] & -> & Hj%elem_of_map_to_list).
    destruct (H j e Hj). apply elem_of_seqZ. cbn. unfold n, PGSIZE in *. Z.div_mod_to_equations. lia. }
  apply submseteq_length in Hs. rewrite length_seqZ in Hs. lia.
Qed.

Lemma owned_short s pgdir (pm : gmap Z Z) b : (forall i e, pm !! i = Some e -> 0 <= i /\ PGSIZE * i < b) -> 0 <= b ->
  Z.of_nat (length (owned s [] pgdir pm)) <= needed b.
Proof.
  intros H Hb. unfold owned, held, needed. rewrite app_nil_l, !length_app. unfold frames. rewrite length_fmap, length_map_to_list. cbn [length].
  pose proof (size_below pm b H Hb). pose proof (tables_length (k_mem s) pgdir). lia.
Qed.

Lemma user_page i : 0 <= i < USERPAGES ->
  is_u32 (PGSIZE * i) /\ PGSIZE * i + PGSIZE <= KERNBASE /\ PGROUNDDOWN (PGSIZE * i) = PGSIZE * i /\ PGSIZE * i / PGSIZE = i.
Proof.
  unfold USERPAGES, is_u32, KERNBASE. intros H. rewrite PGROUNDDOWN_div. unfold PGSIZE. split; [lia|]. split; [lia|].
  rewrite (Z.mul_comm 4096 i), Z.div_mul by lia. lia.
Qed.

(** Page-table code that leaves [pm'] for [pm], with [new] frames. *)
Lemma space_step s l pgdir pm s' l' pm' new :
  space s l pgdir pm -> pt_step END pgdir s l s' l' -> frames pm' ≡ₚ new ++ frames pm ->
  NoDup (new ++ owned s l pgdir pm) -> Forall (is_page END) new ->
  (forall i e, pm' !! i = Some e -> 0 <= i < USERPAGES) ->
  (forall i e, pm' !! i = Some e -> entry (k_mem s') pgdir (PGSIZE * i) = e /\ has e PTE_P = true) ->
  (forall i, 0 <= i < USERPAGES -> pm' !! i = None -> has (entry (k_mem s') pgdir (PGSIZE * i)) PTE_P = false) ->
  space s' l' pgdir pm' /\ owned s' l' pgdir pm' ≡ₚ new ++ owned s l pgdir pm.
Proof.
  intros Hs [Hok _ Hpages _ _ _] Hfr Hnd Hnew Hr He Hn.
  assert (Ho : owned s' l' pgdir pm' ≡ₚ new ++ owned s l pgdir pm).
  { rewrite !owned_swap, Hfr, !app_assoc. f_equiv. rewrite <- !app_assoc. f_equiv. f_equiv. exact Hpages. }
  split; [|done]. pose proof (owned_pages _ _ _ _ Hs) as HF.
  assert (HF' : Forall (is_page END) (owned s' l' pgdir pm')) by (rewrite Ho; by apply Forall_app).
  split; try done.
  - apply (pt_free _ _ _ _ Hok).
  - change (NoDup (owned s' l' pgdir pm')). by rewrite Ho.
  - by apply Forall_app in HF' as [_ HF'].
Qed.

(** The entry that maps the page [t] with the permissions [perm]. *)
Definition pte_of (t perm : Z) : Z := u32 (Z.lor (Z.lor (V2P t) perm) PTE_P).

Lemma pte_of_ok t perm : is_page END t -> 0 <= perm < PGSIZE ->
  is_u32 (pte_of t perm) /\ has (pte_of t perm) PTE_P = true /\ table (pte_of t perm) = t /\ PTE_FLAGS (pte_of t perm) = Z.lor perm PTE_P.
Proof.
  intros Ht Hp. destruct (V2P_page END t Ht) as (E & Ha & Hr). unfold pte_of. rewrite <- Z.lor_assoc.
  assert (Hl : 0 <= Z.lor perm PTE_P < PGSIZE).
  { split; [apply Z.lor_nonneg; unfold PTE_P; lia|]. change PGSIZE with (2 ^ 12). apply Z.log2_lt_cancel. rewrite Z.log2_lor by (unfold PTE_P; lia).
    change (Z.log2 (2 ^ 12)) with 12. unfold PTE_P. change (Z.log2 1) with 0. destruct (Z.eq_dec perm 0) as [->|]; [done|].
    rewrite Z.max_l by apply Z.log2_nonneg. apply Z.log2_lt_pow2; unfold PGSIZE in Hp; lia. }
  assert (HP : has (Z.lor perm PTE_P) PTE_P = true).
  { unfold has. rewrite Z.land_lor_distr_l. change (Z.land PTE_P PTE_P) with 1. apply negb_true_iff, Z.eqb_neq. intros H0. by apply Z.lor_eq_0_iff in H0 as [_ ?]. }
  set (f := Z.lor perm PTE_P) in *. clearbody f. rewrite lor_low by done. rewrite u32_small by (unfold is_u32, PHYSTOP, PGSIZE in *; lia).
  split; [unfold is_u32, PHYSTOP, PGSIZE in *; lia|]. split; [rewrite has_low; try done; unfold PTE_P, PGSIZE; lia|].
  split.
  - unfold table. rewrite PTE_ADDR_div. replace (PGSIZE * _) with (V2P t).
    + rewrite E. unfold P2V. rewrite u32_small; unfold is_u32, KERNBASE, PHYSTOP in *; lia.
    + unfold PGSIZE in *. Z.div_mod_to_equations. lia.
  - unfold PTE_FLAGS. change 0xFFF with (Z.ones 12). rewrite Z.land_ones by lia. change (2 ^ 12) with PGSIZE. unfold PGSIZE in *. Z.div_mod_to_equations. lia.
Qed.

(** The page [t] becomes page [i], or a table for it is missing. *)
Lemma map_page_perm s l pgdir pm i t perm (e := pte_of t perm) :
  space s l pgdir pm -> pm !! i = None -> 0 <= i < USERPAGES -> is_page END t -> t ∉ owned s l pgdir pm -> 0 <= perm < PGSIZE ->
  exists r s' l', mappages pgdir (PGSIZE * i) PGSIZE (V2P t) perm s = Ok r s' /\
    (r = 0 /\ space s' l' pgdir (<[i := e]> pm) /\ owned s' l' pgdir (<[i := e]> pm) ≡ₚ t :: owned s l pgdir pm \/
     r = -1 /\ l' = [] /\ space s' l' pgdir pm /\ owned s' l' pgdir pm ≡ₚ owned s l pgdir pm) /\
    (forall x, ~ table_bytes s l pgdir x -> k_mem s' x = k_mem s x) /\
    (forall va, KERNBASE <= va < 2 ^ 32 -> entry (k_mem s') pgdir va = entry (k_mem s) pgdir va).
Proof.
  intros Hs Hi Hr Ht Hn Hperm. destruct (user_page i Hr) as (Hu & Hk & Hrd & Hdiv). destruct (pte_of_ok t perm Ht Hperm) as (Nu & Np & Nt & _). fold e in Nu, Np, Nt.
  unfold mappages. rewrite Hrd.
  assert (Hlast : PGROUNDDOWN (u32 (PGSIZE * i + PGSIZE - 1)) = PGSIZE * i).
  { rewrite u32_small by (unfold is_u32, PGSIZE, KERNBASE in *; lia). rewrite PGROUNDDOWN_div. unfold PGSIZE in *. Z.div_mod_to_equations. lia. }
  rewrite Hlast, Z.sub_diag. change (Z.to_nat (u32 0 / PGSIZE) + 1)%nat with 1%nat. cbn [mappages_loop].
  destruct (map_one END s l pgdir (PGSIZE * i) (Z.lor (Z.lor (V2P t) perm) PTE_P) (space_pt _ _ _ _ Hs) Hu
    (sp_none _ _ _ _ Hs i Hr Hi)) as [(s1 & E & -> & Hst & Hent)|(s1 & slot & l1 & E & Hs0 & Hz1 & Hst & Hent)]; rewrite (kbind_ok _ _ _ _ _ E).
  - exists (-1), s1, []. split; [done|]. destruct (space_step s [] pgdir pm s1 [] pm [] Hs Hst) as [Hs1 Ho].
    all: try done; try apply Hs.
    + intros j e' Hj. rewrite Hent by (by apply user_page, (sp_range _ _ _ _ Hs j e')). by apply (sp_entry _ _ _ _ Hs).
    + intros j Hj Hjn. rewrite Hent by (by apply user_page). by apply (sp_none _ _ _ _ Hs).
    + split; [by right; split; [|split]|]. split; [apply (ps_mem _ _ _ _ _ _ Hst)|]. intros va Hva. apply Hent. unfold is_u32, KERNBASE in *. lia.
  - destruct (Z.eqb_spec slot 0); [done|]. unfold kbind at 1, load, gets. rewrite Hz1. unfold kbind at 1, store, modify.
    set (s2 := set_mem _ s1) in *. rewrite Z.eqb_refl. exists 0, s2, l1. split; [done|].
    assert (Hpg : forall j, 0 <= j < USERPAGES -> entry (k_mem s2) pgdir (PGSIZE * j) = if decide (j = i) then e else entry (k_mem s) pgdir (PGSIZE * j)).
    { intros j Hj. destruct (user_page j Hj) as (Hju & _ & _ & Hjd). by rewrite Hent, Hjd, Hdiv by done. }
    destruct (space_step s l pgdir pm s2 l1 (<[i := e]> pm) [t] Hs Hst) as [Hs2 Ho].
    + rewrite frames_insert, Nt by done. done.
    + cbn. apply NoDup_cons. split; [done|apply (sp_nodup _ _ _ _ Hs)].
    + by constructor.
    + intros j e'. rewrite lookup_insert. case_decide; [by intros _; subst j|apply (sp_range _ _ _ _ Hs)].
    + intros j e'. rewrite lookup_insert. case_decide as Hji.
      * intros [= <-]. subst j. rewrite Hpg, decide_True by done. done.
      * intros Hj. rewrite Hpg, decide_False by (done || by apply (sp_range _ _ _ _ Hs j e')). by apply (sp_entry _ _ _ _ Hs).
    + intros j Hj. rewrite lookup_insert. case_decide as Hji; [done|]. intros Hjn. rewrite Hpg, decide_False by done. by apply (sp_none _ _ _ _ Hs).
    + split; [by left|]. split; [apply (ps_mem _ _ _ _ _ _ Hst)|]. intros va Hva. rewrite Hent by (unfold is_u32, KERNBASE in *; lia).
      rewrite decide_False; [done|]. rewrite Hdiv. unfold USERPAGES, KERNBASE, PGSIZE in *. Z.div_mod_to_equations. lia.
Qed.

Lemma new_pde_pte t : is_page END t -> pte_of t (Z.lor PTE_W PTE_U) = new_pde t.
Proof.
  intros Ht. destruct (new_pde_ok END t Ht) as (Nu & _ & _). rewrite <- (u32_small (new_pde t)) by done. unfold pte_of, new_pde. f_equal. by rewrite <- !Z.lor_assoc.
Qed.

(** As allocuvm maps it. *)
Lemma map_page s l pgdir pm i t :
  space s l pgdir pm -> pm !! i = None -> 0 <= i < USERPAGES -> is_page END t -> t ∉ owned s l pgdir pm ->
  exists r s' l', mappages pgdir (PGSIZE * i) PGSIZE (V2P t) (Z.lor PTE_W PTE_U) s = Ok r s' /\
    (r = 0 /\ space s' l' pgdir (<[i := new_pde t]> pm) /\ owned s' l' pgdir (<[i := new_pde t]> pm) ≡ₚ t :: owned s l pgdir pm \/
     r = -1 /\ l' = [] /\ space s' l' pgdir pm /\ owned s' l' pgdir pm ≡ₚ owned s l pgdir pm) /\
    (forall x, ~ table_bytes s l pgdir x -> k_mem s' x = k_mem s x) /\
    (forall va, KERNBASE <= va < 2 ^ 32 -> entry (k_mem s') pgdir va = entry (k_mem s) pgdir va).
Proof. intros Hs Hi Hr Ht Hn. rewrite <- (new_pde_pte t Ht). by apply map_page_perm. Qed.

(** Page [i] leaves the address space: its frame is freed, its entry cleared. *)
Lemma unmap_page s l pgdir pm i e :
  space s l pgdir pm -> pm !! i = Some e ->
  let slot := table (pde (k_mem s) pgdir (PDX (PGSIZE * i))) + 4 * PTX (PGSIZE * i) in
  exists s1, kfree END (table e) s = Ok tt s1 /\
    let s2 := set_mem (store32 (k_mem s1) slot 0) s1 in
    vstep pgdir s l pm s2 (table e :: l) (delete i pm) /\ keeps (delete i pm) s s2.
Proof.
  intros Hs Hi slot. pose proof (sp_range _ _ _ _ Hs i e Hi) as Hr. destruct (user_page i Hr) as (Hu & Hk & _ & Hdiv).
  destruct (entry_slot s l pgdir pm i e Hs Hi) as (_ & Hd & _ & _ & _ & Hin). fold slot in Hin. cbv zeta in Hin.
  pose proof (owned_pages _ _ _ _ Hs) as HF. rewrite Forall_forall in HF.
  assert (Hte : table e ∈ frames pm) by (apply elem_frames; by exists i, e).
  assert (Hpe : is_page END (table e)) by (apply HF, elem_owned; by right; left).
  pose proof (sp_nodup _ _ _ _ Hs) as Hnd. change (NoDup (owned s l pgdir pm)) in Hnd. rewrite owned_swap, (frames_delete pm i e Hi) in Hnd.
  cbn [app] in Hnd. apply NoDup_cons in Hnd as [Hne Hnd].
  assert (Hl : table e ∉ l) by (intros H; apply Hne; rewrite !elem_of_app; auto).
  assert (Hdis : forall x p, p ∈ tables (k_mem s) pgdir ++ [pgdir] -> in_page p x -> ~ in_page (table e) x).
  { intros x p Hp Hx Hy. apply Hne. rewrite !(assoc_L (++)), <- (assoc_L (++) (_ ++ l)), elem_of_app. right. replace (table e) with p; [done|].
    apply (apart p (table e) x); try done. apply HF. rewrite owned_swap, !elem_of_app. rewrite elem_of_app in Hp. auto. }
  destruct (kfree_ok END s l (table e) (sp_free _ _ _ _ Hs) Hpe Hl) as (s1 & E & Hf & Hoff & _).
  exists s1. split; [done|]. intros s2.
  assert (Hoff' : forall x, ~ in_page (table e) x -> k_mem s1 x = k_mem s x) by (intros x Hx; by apply Hoff).
  destruct (entries_frame (k_mem s) (k_mem s1) pgdir) as [Hpde1 Hent1]; [intros x p Hp Hx; by apply Hoff', (Hdis x p)|].
  pose proof (tables_same _ _ _ Hpde1) as Ht1.
  assert (Hok1 : pt_ok END s1 (table e :: l) pgdir).
  { apply pt_ok_intro; [done|rewrite Ht1|rewrite Ht1].
    - cbn. rewrite (app_assoc l). apply NoDup_cons. apply NoDup_app in Hnd as (_ & Hdf & Hnd). rewrite app_assoc in Hnd. split; [|done].
      intros H. apply Hne. apply elem_of_app. right. by rewrite app_assoc.
    - apply Forall_forall. intros p Hp. apply HF. rewrite owned_swap, !elem_of_app. rewrite elem_of_app in Hp. auto. }
  assert (Hd1 : has (pde (k_mem s1) pgdir (PDX (PGSIZE * i))) PTE_P = true) by (by rewrite Hpde1 by (by apply PDX_range)).
  destruct (store_pte END s1 (table e :: l) pgdir (PGSIZE * i) 0 Hok1 Hu Hd1) as (Hok2 & Hpde2 & Hent2).
  rewrite Hpde1 in Hok2, Hpde2, Hent2 by (by apply PDX_range). fold slot in Hok2, Hpde2, Hent2. fold s2 in Hok2, Hpde2, Hent2.
  pose proof (tables_same _ _ _ Hpde2) as Ht2. rewrite Ht1 in Ht2.
  assert (Hent : forall va, is_u32 va -> entry (k_mem s2) pgdir va = if decide (va / PGSIZE = i) then 0 else entry (k_mem s) pgdir va).
  { intros va Hva. rewrite Hent2, Hdiv by done. case_decide; [done|]. by apply Hent1. }
  assert (Ho : owned s2 (table e :: l) pgdir (delete i pm) ≡ₚ owned s l pgdir pm).
  { rewrite !owned_swap, Ht2, (frames_delete pm i e Hi). cbn [app]. symmetry. apply Permutation_middle. }
  assert (Hmem : forall x, ~ in_page (table e) x -> ~ in_page (table (pde (k_mem s) pgdir (PDX (PGSIZE * i)))) x -> k_mem s2 x = k_mem s x).
  { intros x Hx Hy. unfold s2. cbn. rewrite store32_out; [by apply Hoff'|]. intros Hz. apply Hy.
    unfold slot, in_page, PGSIZE in *. pose proof (PTX_range (4096 * i)). lia. }
  assert (Htb : table (pde (k_mem s) pgdir (PDX (PGSIZE * i))) ∈ tables (k_mem s) pgdir).
  { apply elem_tables. exists (PDX (PGSIZE * i)). split; [by apply PDX_range|done]. }
  split; [split|].
  - split.
    + apply (pt_free _ _ _ _ Hok2).
    + change (NoDup (owned s2 (table e :: l) pgdir (delete i pm))). rewrite Ho. apply (sp_nodup _ _ _ _ Hs).
    + pose proof (sp_pages _ _ _ _ Hs) as HP. unfold held in *. rewrite Ht2. rewrite (frames_delete pm i e Hi) in HP. by apply Forall_cons in HP as [_ HP].
    + intros j e' [_ Hj]%lookup_delete_Some. by apply (sp_range _ _ _ _ Hs j e').
    + intros j e' [Hji Hj]%lookup_delete_Some. destruct (user_page j (sp_range _ _ _ _ Hs j e' Hj)) as (Hju & _ & _ & Hjd).
      rewrite Hent, Hjd, decide_False by done. by apply (sp_entry _ _ _ _ Hs).
    + intros j Hj Hn. destruct (user_page j Hj) as (Hju & _ & _ & Hjd). rewrite Hent, Hjd by done. case_decide; [done|].
      rewrite lookup_delete_ne in Hn by done. by apply (sp_none _ _ _ _ Hs).
  - done.
  - intros x Hx. apply Hmem; apply Hx, elem_owned; auto.
  - intros va Hva. rewrite Hent by (unfold is_u32, KERNBASE in *; lia). rewrite decide_False; [done|].
    unfold USERPAGES, KERNBASE, PGSIZE in *. Z.div_mod_to_equations. lia.
  - intros j e' x [Hji Hj]%lookup_delete_Some Hx. apply Hmem.
    + intros Hy. assert (table e' ∈ frames (delete i pm)) by (apply elem_frames; exists j, e'; by rewrite lookup_delete_ne).
      apply Hne. apply elem_of_app. left. replace (table e) with (table e'); [done|]. apply (apart (table e') (table e) x); try done.
      apply HF, elem_owned. right; left. apply elem_frames. by exists j, e'.
    + intros Hy. apply (frame_apart _ _ _ _ j e' x Hs Hj Hx). apply table_bytes_in. eexists. split; [|exact Hy].
      rewrite !elem_of_app. auto.
Qed.
(** ** deallocuvm *)

Lemma keeps_trans pm pm' s1 s2 s3 :
  (forall i e, pm' !! i = Some e -> pm !! i = Some e) -> keeps pm s1 s2 -> keeps pm' s2 s3 -> keeps pm' s1 s3.
Proof. intros Hsub H1 H2 i e x Hi Hx. rewrite (H2 i e x Hi Hx). by apply (H1 i e x (Hsub i e Hi)). Qed.

Lemma cut_sub a b pm i e : cut a b pm !! i = Some e -> pm !! i = Some e.
Proof. rewrite cut_lookup. by case_decide. Qed.

Lemma cut_absent a b c pm : a <= b -> (forall i, a <= PGSIZE * i < b -> pm !! i = None) -> cut b c pm = cut a c pm.
Proof.
  intros Hab H. apply map_eq. intros i. rewrite !cut_lookup. repeat case_decide; try done; [lia|].
  apply H. lia.
Qed.

Lemma cut_delete i c pm : PGSIZE * i < c -> cut (PGSIZE * i + PGSIZE) c (delete i pm) = cut (PGSIZE * i) c pm.
Proof.
  intros Hc. apply map_eq. intros j. rewrite !cut_lookup, lookup_delete. unfold PGSIZE in *. repeat case_decide; try done; lia.
Qed.

(** Where a directory entry is missing the loop goes on at the next one. *)
Lemma next_table a : 0 <= a < KERNBASE ->
  u32 (u32 (PGADDR (PDX a + 1) 0 0 - PGSIZE) + PGSIZE) = 2 ^ 22 * (a / 2 ^ 22 + 1) /\
  2 ^ 22 * (a / 2 ^ 22 + 1) <= KERNBASE /\ a + PGSIZE <= 2 ^ 22 * (a / 2 ^ 22 + 1) + (a mod PGSIZE).
Proof.
  intros Ha. rewrite PDX_div by (unfold is_u32, KERNBASE in *; lia). unfold PGADDR. rewrite !Z.shiftl_0_l, !Z.lor_0_r.
  rewrite Z.shiftl_mul_pow2 by lia. assert (Hq : 0 <= a / 2 ^ 22 < 512) by (unfold KERNBASE in *; Z.div_mod_to_equations; lia).
  rewrite (u32_small ((a / 2 ^ 22 + 1) * 2 ^ 22)) by (unfold is_u32; lia).
  rewrite (u32_small (_ - PGSIZE)) by (unfold is_u32, PGSIZE; lia). rewrite u32_small by (unfold is_u32, PGSIZE; lia).
  unfold KERNBASE, PGSIZE in *. split; [lia|]. split; [lia|]. Z.div_mod_to_equations. lia.
Qed.

Lemma absent_table s l pgdir pm a j : space s l pgdir pm -> 0 <= a < KERNBASE ->
  has (pde (k_mem s) pgdir (PDX a)) PTE_P = false -> a <= PGSIZE * j < 2 ^ 22 * (a / 2 ^ 22 + 1) -> pm !! j = None.
Proof.
  intros Hs Ha Hd Hj. apply eq_None_not_Some. intros [e He]. destruct (entry_slot s l pgdir pm j e Hs He) as (Hu & Hd' & _).
  rewrite !PDX_div in * by (done || unfold is_u32, KERNBASE in *; lia). replace (PGSIZE * j / 2 ^ 22) with (a / 2 ^ 22) in Hd'; [congruence|].
  Z.div_mod_to_equations. lia.
Qed.

(** The kernel itself lies at the bottom of the managed memory. *)
Section kernel.
Context (HEND : KERNBASE < END).

Lemma frame_addr e : is_page END (table e) -> PTE_ADDR e <> 0.
Proof. intros (_ & H & _) E. unfold table in H. rewrite E in H. change (P2V 0) with KERNBASE in H. lia. Qed.

Lemma space_frame_page s l pgdir pm i e : space s l pgdir pm -> pm !! i = Some e -> is_page END (table e).
Proof.
  intros Hs Hi. pose proof (owned_pages _ _ _ _ Hs) as HF. rewrite Forall_forall in HF. apply HF, elem_owned.
  right; left. apply elem_frames. by exists i, e.
Qed.

(** One round of the loop of deallocuvm, at the mapped page [i]. *)
Lemma dealloc_round fuel s l pgdir pm i e oldsz s1 :
  space s l pgdir pm -> pm !! i = Some e -> PGSIZE * i < oldsz -> kfree END (table e) s = Ok tt s1 ->
  let slot := table (pde (k_mem s) pgdir (PDX (PGSIZE * i))) + 4 * PTX (PGSIZE * i) in
  deallocuvm_loop END (S fuel) pgdir (PGSIZE * i) oldsz s =
  deallocuvm_loop END fuel pgdir (u32 (PGSIZE * i + PGSIZE)) oldsz (set_mem (store32 (k_mem s1) slot 0) s1).
Proof.
  intros Hs Hpm Hlt Ek slot. cbn [deallocuvm_loop]. rewrite (proj2 (Z.ltb_lt _ _) Hlt).
  destruct (entry_slot s l pgdir pm i e Hs Hpm) as (_ & _ & Ew & Hz & Hload & _). cbv zeta in Ew. rewrite (kbind_ok _ _ _ _ _ Ew).
  fold slot in Hz, Hload |- *. rewrite (proj2 (Z.eqb_neq _ _) Hz). unfold kbind at 1. unfold kbind at 1, load, gets.
  rewrite Hload, (proj2 (sp_entry _ _ _ _ Hs i e Hpm)). cbv zeta. change (P2V (PTE_ADDR e)) with (table e).
  rewrite (proj2 (Z.eqb_neq _ _) (frame_addr e (space_frame_page _ _ _ _ _ _ Hs Hpm))).
  rewrite kbind_assoc, (kbind_ok _ _ _ _ _ Ek). done.
Qed.

Lemma dealloc_loop_ok fuel s l pgdir pm a oldsz :
  space s l pgdir pm -> a mod PGSIZE = 0 -> 0 <= a <= KERNBASE -> oldsz <= KERNBASE ->
  0 < Z.of_nat fuel -> oldsz - a <= PGSIZE * (Z.of_nat fuel - 1) ->
  exists s' l', deallocuvm_loop END fuel pgdir a oldsz s = Ok tt s' /\
    vstep pgdir s l pm s' l' (cut a oldsz pm) /\ keeps (cut a oldsz pm) s s'.
Proof.
  revert s l pm a. induction fuel as [|fuel IH]; intros s l pm a Hs Ha H0 Hk Hf Hfuel; [lia|].
  destruct (Z.ltb_spec a oldsz) as [Hlt|Hge].
  2:{ exists s, l. cbn [deallocuvm_loop]. rewrite (proj2 (Z.ltb_ge a oldsz)) by lia. replace (cut a oldsz pm) with pm; [by split; [|split; [by apply vstep_refl|]]|].
      apply map_eq. intros i. rewrite cut_lookup, decide_False by lia. done. }
  set (i := a / PGSIZE). assert (Ei : a = PGSIZE * i) by (unfold i, PGSIZE in *; Z.div_mod_to_equations; lia).
  assert (Hi : 0 <= i < USERPAGES) by (unfold USERPAGES, PGSIZE, KERNBASE in *; lia).
  destruct (user_page i Hi) as (Hu & Hik & _ & _). clearbody i. subst a.
  assert (Hnext : u32 (PGSIZE * i + PGSIZE) = PGSIZE * i + PGSIZE) by (apply u32_small; unfold is_u32, KERNBASE, PGSIZE in *; lia).
  assert (Halign : (PGSIZE * i + PGSIZE) mod PGSIZE = 0) by (unfold PGSIZE in *; Z.div_mod_to_equations; lia).
  destruct (pm !! i) as [e|] eqn:Hpm.
  - destruct (unmap_page s l pgdir pm i e Hs Hpm) as (s1 & Ek & Hst & Hkp). cbv zeta in Hst, Hkp.
    rewrite (dealloc_round fuel s l pgdir pm i e oldsz s1) by done. cbv zeta. rewrite Hnext.
    destruct (IH _ _ _ (PGSIZE * i + PGSIZE) (vs_space _ _ _ _ _ _ _ Hst)) as (s' & l' & E & Hst' & Hkp'); try (unfold PGSIZE in *; lia).
    rewrite cut_delete in Hst', Hkp' by done. exists s', l'. split; [done|]. split; [by eapply vstep_trans|].
    eapply keeps_trans; [|exact Hkp|exact Hkp']. intros j e'. rewrite <- cut_delete by done. apply cut_sub.
  - cbn [deallocuvm_loop]. rewrite (proj2 (Z.ltb_lt _ _) Hlt). destruct (has (pde (k_mem s) pgdir (PDX (PGSIZE * i))) PTE_P) eqn:Hd.
    + rewrite (kbind_ok _ _ _ _ _ (walk_present pgdir (PGSIZE * i) false s Hd)).
      destruct (pt_table _ _ _ _ (space_pt _ _ _ _ Hs) _ (PDX_range _ Hu) Hd) as (Ht & _). pose proof (is_page_pos _ _ Ht). pose proof (PTX_range (PGSIZE * i)).
      rewrite (proj2 (Z.eqb_neq _ 0)) by lia. unfold kbind at 1. unfold kbind at 1, load, gets.
      rewrite <- (pt_slot END s l pgdir _ (space_pt _ _ _ _ Hs) Hu Hd), (sp_none _ _ _ _ Hs i Hi Hpm). cbn [kbind kret].
      destruct (IH s l pm (PGSIZE * i + PGSIZE) Hs) as (s' & l' & E & Hst & Hkp); try (unfold PGSIZE in *; lia).
      rewrite <- (cut_absent (PGSIZE * i) (PGSIZE * i + PGSIZE)) by (unfold PGSIZE in *; lia || intros j Hj; replace j with i by lia; done).
      exists s', l'. unfold kbind, kret. by rewrite Hnext.
    + rewrite (kbind_ok _ _ _ _ _ (walk_absent pgdir (PGSIZE * i) s Hd)). rewrite Z.eqb_refl. unfold kbind at 1, kret.
      destruct (next_table (PGSIZE * i)) as (-> & Hn1 & Hn2); [unfold PGSIZE, USERPAGES, KERNBASE in *; lia|]. rewrite Ha in Hn2.
      destruct (IH s l pm (2 ^ 22 * (PGSIZE * i / 2 ^ 22 + 1)) Hs) as (s' & l' & E & Hst & Hkp); try (unfold PGSIZE in *; lia).
      { unfold PGSIZE. Z.div_mod_to_equations. lia. }
      rewrite <- (cut_absent (PGSIZE * i) (2 ^ 22 * (PGSIZE * i / 2 ^ 22 + 1))); [by exists s', l'|unfold PGSIZE in *; lia|].
      intros j Hj. apply (absent_table s l pgdir pm (PGSIZE * i) j Hs); [unfold PGSIZE, USERPAGES, KERNBASE in *; lia|done|done].
Qed.
Lemma PGROUNDUP_spec a : 0 <= a <= KERNBASE ->
  PGROUNDUP a mod PGSIZE = 0 /\ a <= PGROUNDUP a < a + PGSIZE /\ PGROUNDUP a <= KERNBASE.
Proof.
  intros H. rewrite PGROUNDUP_div by (unfold KERNBASE, PGSIZE in *; lia). unfold KERNBASE, PGSIZE in *. Z.div_mod_to_equations. lia.
Qed.

(** Shrinking gives back the frames of the whole pages past the new end. *)
Lemma deallocuvm_ok s l pgdir pm oldsz newsz :
  space s l pgdir pm -> 0 <= newsz < oldsz -> oldsz <= KERNBASE ->
  exists s' l', deallocuvm END pgdir oldsz newsz s = Ok newsz s' /\
    vstep pgdir s l pm s' l' (cut (PGROUNDUP newsz) oldsz pm) /\ keeps (cut (PGROUNDUP newsz) oldsz pm) s s'.
Proof.
  intros Hs H0 Hk. unfold deallocuvm. rewrite Z.geb_leb, (proj2 (Z.leb_gt _ _)) by lia.
  pose proof (PGROUNDUP_spec newsz) as Hup. destruct (dealloc_loop_ok (Z.to_nat (oldsz / PGSIZE) + 2) s l pgdir pm (PGROUNDUP newsz) oldsz)
    as (s' & l' & E & Hst & Hkp); try done; try lia.
  { unfold PGSIZE in *. Z.div_mod_to_equations. lia. }
  rewrite (kbind_ok _ _ _ _ _ E). by exists s', l'.
Qed.

(** ** freevm *)

Definition table_at (m : mem) (pgdir : Z) (i : nat) : option Z :=
  let e := pde m pgdir (Z.of_nat i) in if has e PTE_P then Some (table e) else None.

Lemma tables_seq m pgdir : tables m pgdir = omap (table_at m pgdir) (seq 0 (Z.to_nat NPDENTRIES)).
Proof.
  unfold tables, seqZ. generalize (seq 0 (Z.to_nat NPDENTRIES)). intros l. induction l as [|i l IH]; [done|]. cbn.
  rewrite IH, Z.add_0_r. done.
Qed.

(** The loop that frees the tables. *)
Lemma free_tables_ok m pgdir ks s l :
  free END s l -> (forall x, in_page pgdir x -> k_mem s x = m x) -> is_page END pgdir -> (forall i, i ∈ ks -> (i < 1024)%nat) ->
  NoDup (omap (table_at m pgdir) ks ++ l) -> Forall (is_page END) (omap (table_at m pgdir) ks) -> pgdir ∉ omap (table_at m pgdir) ks ->
  exists s' l', for_each ks (fun i =>
      e <- load (pgdir + 4 * Z.of_nat i) ;;
      if has e PTE_P then kfree END (P2V (PTE_ADDR e)) else kret tt) s = Ok tt s' /\
    free END s' l' /\ l' ≡ₚ omap (table_at m pgdir) ks ++ l /\
    (forall x, (forall p, p ∈ omap (table_at m pgdir) ks -> ~ in_page p x) -> k_mem s' x = k_mem s x).
Proof.
  revert s l. induction ks as [|i ks IH]; intros s l Hf Hm Hp Hi Hnd HF Hd; cbn [for_each].
  - exists s, l. split_and!; done.
  - assert (Hl : load32 (k_mem s) (pgdir + 4 * Z.of_nat i) = pde m pgdir (Z.of_nat i)).
    { unfold pde, load32. specialize (Hi i ltac:(constructor)). rewrite !Hm by (unfold in_page, PGSIZE; lia). done. }
    assert (Hi' : forall j, j ∈ ks -> (j < 1024)%nat) by (intros j Hj; apply Hi; by constructor).
    rewrite kbind_assoc. unfold kbind at 1, load, gets. rewrite Hl.
    assert (Et : table_at m pgdir i = if has (pde m pgdir (Z.of_nat i)) PTE_P then Some (table (pde m pgdir (Z.of_nat i))) else None) by done.
    cbn [omap list_omap] in *. destruct (has (pde m pgdir (Z.of_nat i)) PTE_P); rewrite Et in *; cycle 1.
    { unfold kbind at 1, kret. by apply IH. }
    change (P2V (PTE_ADDR (pde m pgdir (Z.of_nat i)))) with (table (pde m pgdir (Z.of_nat i))).
    set (t := table (pde m pgdir (Z.of_nat i))) in *. set (ts := omap (table_at m pgdir) ks) in *.
    cbn [app] in Hnd. apply NoDup_cons in Hnd as [Hn Hnd]. apply Forall_cons in HF as [Ht HF]. rewrite not_elem_of_cons in Hd. destruct Hd as [Hdt Hd].
    rewrite elem_of_app in Hn. destruct (kfree_ok END s l t Hf Ht) as (s1 & E1 & Hf1 & Hoff & _); [tauto|]. rewrite (kbind_ok _ _ _ _ _ E1).
    destruct (IH s1 (t :: l)) as (s' & l' & E' & Hf' & Hl' & Hm'); try done.
    + intros x Hx. rewrite <- Hm by done. apply Hoff. intros Hy. by apply Hdt, (apart pgdir t x).
    + rewrite <- Permutation_middle. apply NoDup_cons. by rewrite elem_of_app.
    + exists s', l'. split_and!; try done.
      * rewrite Hl'. symmetry. apply Permutation_middle.
      * intros x Hx. rewrite Hm', Hoff; [done|apply Hx; constructor|]. intros p Hpt. apply Hx. by constructor.
Qed.

Lemma dealloc_user s l pgdir pm : space s l pgdir pm ->
  exists s1 l1, deallocuvm END pgdir KERNBASE 0 s = Ok 0 s1 /\ vstep pgdir s l pm s1 l1 ∅.
Proof.
  intros Hs. destruct (deallocuvm_ok s l pgdir pm KERNBASE 0 Hs) as (s1 & l1 & E1 & Hst & _); [by unfold KERNBASE|done|].
  exists s1, l1. split; [done|]. replace (∅ : gmap Z Z) with (cut (PGROUNDUP 0) KERNBASE pm); [done|].
  apply map_eq. intros i. rewrite cut_lookup, lookup_empty. case_decide as Hc; [done|].
  destruct (pm !! i) as [e|] eqn:E; [|done]. pose proof (sp_range _ _ _ _ Hs i e E). exfalso. apply Hc.
  change (PGROUNDUP 0) with 0. unfold PGSIZE, KERNBASE, USERPAGES in *. lia.
Qed.

Lemma free_directory ks s l pgdir : space s l pgdir ∅ ->
  tables (k_mem s) pgdir = omap (table_at (k_mem s) pgdir) ks -> (forall i, i ∈ ks -> (i < 1024)%nat) ->
  exists s' l', (for_each ks (fun i =>
      e <- load (pgdir + 4 * Z.of_nat i) ;;
      if has e PTE_P then kfree END (P2V (PTE_ADDR e)) else kret tt) ;;; kfree END pgdir) s = Ok tt s' /\
    free END s' l' /\ l' ≡ₚ owned s l pgdir ∅ /\
    (forall x, (forall p, p ∈ owned s l pgdir ∅ -> ~ in_page p x) -> k_mem s' x = k_mem s x).
Proof.
  intros Hs Hks Hb. pose proof (sp_nodup _ _ _ _ Hs) as Hnd. pose proof (sp_pages _ _ _ _ Hs) as HF.
  unfold owned. rewrite held_empty in *. rewrite Hks in *.
  set (ts := omap (table_at (k_mem s) pgdir) ks) in *. apply Forall_app in HF as [HF Hpd]. rewrite Forall_singleton in Hpd.
  rewrite app_assoc in Hnd. apply NoDup_app in Hnd as (Hnd & Hn & _).
  assert (Hpl : pgdir ∉ l ++ ts) by (intros H; apply (Hn _ H); constructor). rewrite elem_of_app in Hpl.
  destruct (free_tables_ok (k_mem s) pgdir ks s l (sp_free _ _ _ _ Hs)) as (s2 & l2 & E2 & Hf2 & Hl2 & Hm2); try done.
  { by rewrite Permutation_app_comm. }
  { tauto. }
  fold ts in Hl2, Hm2. rewrite (kbind_ok _ _ _ _ _ E2).
  destruct (kfree_ok END s2 l2 pgdir Hf2 Hpd) as (s3 & E3 & Hf3 & Hoff & _); [rewrite Hl2, elem_of_app; tauto|].
  assert (Hl3 : pgdir :: l2 ≡ₚ l ++ ts ++ [pgdir]).
  { rewrite Hl2, (Permutation_app_comm ts l), app_assoc. apply Permutation_cons_append. }
  exists s3, (pgdir :: l2). split_and!; try done. intros x Hx. rewrite Hoff, Hm2; [done| |].
  - intros p Hp. apply Hx. rewrite !elem_of_app. auto.
  - apply Hx. rewrite !elem_of_app. right; right. constructor.
Qed.

(** freevm gives back every page of the address space. *)
Lemma freevm_ok s l pgdir pm : space s l pgdir pm ->
  exists s' l', freevm END pgdir s = Ok tt s' /\ free END s' l' /\ l' ≡ₚ owned s l pgdir pm /\
    (forall x, (forall p, p ∈ owned s l pgdir pm -> ~ in_page p x) -> k_mem s' x = k_mem s x).
Proof.
  intros Hs. unfold freevm. assert (Hpd : is_page END pgdir).
  { pose proof (owned_pages _ _ _ _ Hs) as HF. rewrite Forall_forall in HF. apply HF, elem_owned. auto. }
  pose proof (is_page_pos _ _ Hpd). rewrite (proj2 (Z.eqb_neq pgdir 0)) by lia.
  destruct (dealloc_user s l pgdir pm Hs) as (s1 & l1 & E1 & [Hs1 Ho Hm1 _]). rewrite (kbind_ok _ _ _ _ _ E1).
  destruct (free_directory (seq 0 (Z.to_nat NPDENTRIES)) s1 l1 pgdir Hs1) as (s' & l' & E & Hf & Hl & Hm);
    [apply tables_seq|intros i Hi%elem_of_seq; unfold NPDENTRIES in Hi; lia|]. exists s', l'. split; [exact E|]. split; [done|].
  split; [by rewrite Hl|]. intros x Hx. rewrite Hm; [by apply Hm1|]. intros p Hp. apply Hx. by rewrite <- Ho.
Qed.
(** ** allocuvm *)

Lemma table_owned s l pgdir pm x : table_bytes s l pgdir x -> exists p, p ∈ owned s l pgdir pm /\ in_page p x.
Proof. intros (p & Hp & Hx)%table_bytes_in. exists p. split; [|done]. rewrite owned_swap, elem_of_app. by right. Qed.

(** A page of the free list is zeroed and mapped as page [i], or the tables
    for it are missing and it stays outside. *)
Lemma add_page s t l pgdir pm i : space s (t :: l) pgdir pm -> pm !! i = None -> 0 <= i < USERPAGES ->
  exists s0 s1 r s2 l2, kalloc s = Ok t s0 /\ memset t 0 PGSIZE s0 = Ok tt s1 /\ t <> 0 /\ is_page END t /\
    mappages pgdir (PGSIZE * i) PGSIZE (V2P t) (Z.lor PTE_W PTE_U) s1 = Ok r s2 /\ keeps pm s s2 /\
    (forall x, (forall p, p ∈ owned s (t :: l) pgdir pm -> ~ in_page p x) -> k_mem s2 x = k_mem s x) /\
    (forall va, KERNBASE <= va < 2 ^ 32 -> entry (k_mem s2) pgdir va = entry (k_mem s) pgdir va) /\
    (r = 0 /\ vstep pgdir s (t :: l) pm s2 l2 (<[i := new_pde t]> pm) /\ (forall x, in_page t x -> k_mem s2 x = 0) \/
     r = -1 /\ l2 = [] /\ space s2 l2 pgdir pm /\ t ∉ owned s2 l2 pgdir pm /\ t :: owned s2 l2 pgdir pm ≡ₚ owned s (t :: l) pgdir pm).
Proof.
  intros Hs Hi Hr. destruct (take_page s t l pgdir pm Hs) as (s0 & s1 & E0 & E1 & Hne & Ht & Hs1 & Ho1 & Hn1 & Hoff & Hz & Hent).
  destruct (map_page s1 l pgdir pm i t Hs1 Hi Hr Ht Hn1) as (r & s2 & l2 & E2 & Hres & Hm2 & Hk2).
  assert (Htb : forall x p, in_page p x -> is_page END p -> p ∉ owned s1 l pgdir pm -> ~ table_bytes s1 l pgdir x).
  { intros x p Hx Hp Hn Hb. destruct (table_owned _ _ _ pm _ Hb) as (q & Hq & Hqx). apply Hn. replace p with q; [done|].
    apply (apart q p x); try done. pose proof (owned_pages _ _ _ _ Hs1) as HF. rewrite Forall_forall in HF. by apply HF. }
  assert (Hz2 : forall x, in_page t x -> k_mem s2 x = 0) by (intros x Hx; rewrite Hm2 by (by apply (Htb x t)); by apply Hz).
  assert (Hkp : keeps pm s s2).
  { intros j e x Hj Hx. rewrite Hm2 by (by apply (frame_apart _ _ _ pm j e)). apply Hoff. intros Hy. apply Hn1, elem_owned. right; left.
    apply elem_frames. exists j, e. split; [done|]. apply (apart (table e) t x); try done. by apply (space_frame_page _ _ _ _ _ _ Hs1 Hj). }
  assert (Hm : forall x, (forall p, p ∈ owned s (t :: l) pgdir pm -> ~ in_page p x) -> k_mem s2 x = k_mem s x).
  { intros x Hx. rewrite Hm2; [apply Hoff, Hx; rewrite <- Ho1; constructor|]. intros Hb.
    destruct (table_owned _ _ _ pm _ Hb) as (q & Hq & Hqx). apply (Hx q); [|done]. rewrite <- Ho1. by constructor. }
  assert (Hk : forall va, KERNBASE <= va < 2 ^ 32 -> entry (k_mem s2) pgdir va = entry (k_mem s) pgdir va).
  { intros va Hva. rewrite Hk2 by done. apply Hent. unfold is_u32, KERNBASE in *. lia. }
  exists s0, s1, r, s2, l2. split_and!; try done. destruct Hres as [(-> & Hs2 & Ho2)|(-> & -> & Hs2 & Ho2)]; [left|right].
  - split; [done|]. split; [|done]. split; try done. by rewrite Ho2.
  - split; [done|]. split; [done|]. split; [done|]. by rewrite Ho2.
Qed.

(** The pages from byte [a] to byte [b] are new zeroed user pages. *)
Definition grown (a b : Z) (pm : gmap Z Z) (s' : kstate) (pm' : gmap Z Z) : Prop :=
  forall i, if decide (a <= PGSIZE * i < b)
    then exists t, is_page END t /\ pm' !! i = Some (new_pde t) /\ (forall x, in_page t x -> k_mem s' x = 0)
    else pm' !! i = pm !! i.

Lemma space_quiet s l pgdir pm s' : space s l pgdir pm -> k_mem s' = k_mem s -> free END s' l -> vstep pgdir s l pm s' l pm.
Proof.
  intros Hs Hm Hf. destruct (space_frame s l pgdir pm s' l Hs Hf (sp_nodup _ _ _ _ Hs)) as (Hs' & Ht & Hent); [by intros; rewrite Hm|].
  split; [done|unfold owned; by rewrite Hm|by intros; rewrite Hm|by intros; rewrite Hm].
Qed.

Lemma cprintf_ok msg s l pgdir pm : space s l pgdir pm ->
  exists s', cprintf msg s = Ok tt s' /\ vstep pgdir s l pm s' l pm /\ k_mem s' = k_mem s.
Proof.
  intros Hs. eexists. split; [reflexivity|]. split; [|done]. apply space_quiet; [done|done|].
  destruct (sp_free _ _ _ _ Hs). by split.
Qed.

Lemma no_page s pgdir pm : space s [] pgdir pm ->
  exists s', kalloc s = Ok 0 s' /\ vstep pgdir s [] pm s' [] pm /\ k_mem s' = k_mem s.
Proof.
  intros Hs. destruct (kalloc_ok END s _ (sp_free _ _ _ _ Hs)) as [E F]. eexists. split; [exact E|]. split; [|done].
  by apply space_quiet.
Qed.
Lemma keeps_sub pm pm' s s' : (forall i e, pm' !! i = Some e -> pm !! i = Some e) -> keeps pm s s' -> keeps pm' s s'.
Proof. intros Hsub H i e x Hi. apply H with i. by apply Hsub. Qed.

Lemma keeps_same pm s s' : k_mem s' = k_mem s -> keeps pm s s'.
Proof. intros H i e x _ _. by rewrite H. Qed.

(** The two ways in which a round of allocuvm ends the loop with 0. *)
Lemma alloc_no_page s pgdir pm oldsz newsz : space s [] pgdir pm -> 0 <= oldsz < newsz -> newsz <= KERNBASE ->
  exists s' l', (mem <- kalloc ;; if mem =? 0 then cprintf "allocuvm out of memory" ;;; deallocuvm END pgdir newsz oldsz ;;; kret 0 else nofuel) s
    = Ok 0 s' /\ vstep pgdir s [] pm s' l' (cut (PGROUNDUP oldsz) newsz pm) /\ keeps (cut (PGROUNDUP oldsz) newsz pm) s s'.
Proof.
  intros Hs H0 Hk. destruct (no_page s pgdir pm Hs) as (s1 & E1 & V1 & M1). rewrite (kbind_ok _ _ _ _ _ E1). rewrite Z.eqb_refl.
  destruct (cprintf_ok "allocuvm out of memory" s1 [] pgdir pm (vs_space _ _ _ _ _ _ _ V1)) as (s2 & E2 & V2 & M2).
  rewrite (kbind_ok _ _ _ _ _ E2).
  destruct (deallocuvm_ok s2 [] pgdir pm newsz oldsz (vs_space _ _ _ _ _ _ _ V2) H0 Hk) as (s3 & l3 & E3 & V3 & K3).
  rewrite (kbind_ok _ _ _ _ _ E3). exists s3, l3. split; [done|]. split; [by do 2 (eapply vstep_trans; [done|])|].
  eapply (keeps_trans pm); [intros i e; apply cut_sub| |exact K3]. apply keeps_same. by rewrite M2, M1.
Qed.

Lemma alloc_no_table s t l pgdir pm oldsz newsz :
  space s l pgdir pm -> is_page END t -> t ∉ owned s l pgdir pm -> 0 <= oldsz < newsz -> newsz <= KERNBASE ->
  exists s' l', (cprintf "allocuvm out of memory (2)" ;;; deallocuvm END pgdir newsz oldsz ;;; kfree END t ;;; kret 0) s = Ok 0 s' /\
    space s' l' pgdir (cut (PGROUNDUP oldsz) newsz pm) /\
    owned s' l' pgdir (cut (PGROUNDUP oldsz) newsz pm) ≡ₚ t :: owned s l pgdir pm /\
    (forall x, (forall p, p ∈ t :: owned s l pgdir pm -> ~ in_page p x) -> k_mem s' x = k_mem s x) /\
    (forall va, KERNBASE <= va < 2 ^ 32 -> entry (k_mem s') pgdir va = entry (k_mem s) pgdir va) /\
    keeps (cut (PGROUNDUP oldsz) newsz pm) s s'.
Proof.
  intros Hs Ht Hn H0 Hk. set (pm' := cut (PGROUNDUP oldsz) newsz pm).
  destruct (cprintf_ok "allocuvm out of memory (2)" s l pgdir pm Hs) as (s1 & E1 & V1 & M1). rewrite (kbind_ok _ _ _ _ _ E1).
  destruct (deallocuvm_ok s1 l pgdir pm newsz oldsz (vs_space _ _ _ _ _ _ _ V1) H0 Hk) as (s2 & l2 & E2 & V2 & K2). fold pm' in V2, K2.
  rewrite (kbind_ok _ _ _ _ _ E2). pose proof (vstep_trans _ _ _ _ _ _ _ _ _ _ V1 V2) as V.
  destruct (give_page s2 t l2 pgdir pm' (vs_space _ _ _ _ _ _ _ V2) Ht) as (s3 & E3 & S3 & O3 & M3 & Hent3); [by rewrite (vs_owned _ _ _ _ _ _ _ V)|].
  rewrite (kbind_ok _ _ _ _ _ E3). exists s3, (t :: l2). split; [done|]. split; [done|]. split; [by rewrite O3, (vs_owned _ _ _ _ _ _ _ V)|]. split; [|split].
  - intros x Hx. rewrite M3 by (apply Hx; constructor). apply (vs_mem _ _ _ _ _ _ _ V). intros p Hp. apply Hx. by constructor.
  - intros va Hva. rewrite Hent3 by (unfold is_u32, KERNBASE in *; lia). by apply (vs_kernel _ _ _ _ _ _ _ V).
  - intros i e x Hi Hx. rewrite M3.
    + rewrite (K2 i e x Hi Hx). by rewrite M1.
    + intros Hy. apply Hn. rewrite <- (vs_owned _ _ _ _ _ _ _ V). apply elem_owned. right; left. apply elem_frames. exists i, e. split; [done|].
      apply (apart (table e) t x); try done. by apply (space_frame_page _ _ _ _ _ _ (vs_space _ _ _ _ _ _ _ V) Hi).
Qed.

Lemma alloc_loop_ok fuel s l pgdir pm a oldsz newsz :
  space s l pgdir pm -> a mod PGSIZE = 0 -> 0 <= oldsz -> PGROUNDUP oldsz <= a -> oldsz <= a -> newsz <= KERNBASE ->
  0 < Z.of_nat fuel -> newsz - a <= PGSIZE * (Z.of_nat fuel - 1) -> (forall i, a <= PGSIZE * i < newsz -> pm !! i = None) ->
  (forall i e, pm !! i = Some e -> PGSIZE * i < newsz) ->
  exists r s' l' pm', allocuvm_loop END fuel pgdir a oldsz newsz s = Ok r s' /\ vstep pgdir s l pm s' l' pm' /\
    (r = newsz /\ grown a newsz pm s' pm' /\ keeps pm s s' \/ r = 0 /\ pm' = cut (PGROUNDUP oldsz) newsz pm /\ keeps pm' s s' /\ Z.of_nat (length (owned s l pgdir pm)) <= needed newsz + 1).
Proof.
  revert s l pm a. induction fuel as [|fuel IH]; intros s l pm a Hs Ha H0 Hup Ho Hk Hf Hfuel Hnone Hbelow; [lia|]. cbn [allocuvm_loop].
  assert (Hb : forall i e, pm !! i = Some e -> 0 <= i /\ PGSIZE * i < newsz).
  { intros i e Hi. split; [apply (sp_range _ _ _ _ Hs i e Hi)|by apply (Hbelow i e)]. }
  destruct (Z.ltb_spec a newsz) as [Hlt|Hge].
  2:{ exists newsz, s, l, pm. split; [done|]. split; [by apply vstep_refl|]. left. split; [done|]. split; [|by apply keeps_same].
      intros i. by rewrite decide_False by lia. }
  set (i := a / PGSIZE). assert (Ei : a = PGSIZE * i) by (unfold i, PGSIZE in *; Z.div_mod_to_equations; lia).
  assert (Hi : 0 <= i < USERPAGES) by (unfold USERPAGES, PGSIZE, KERNBASE in *; lia). clearbody i. subst a.
  assert (Hnext : u32 (PGSIZE * i + PGSIZE) = PGSIZE * i + PGSIZE).
  { apply u32_small. destruct (user_page i Hi) as (_ & ? & _). unfold is_u32, KERNBASE, PGSIZE in *; lia. }
  destruct l as [|t l].
  - destruct (alloc_no_page s pgdir pm oldsz newsz Hs ltac:(lia) Hk) as (s' & l' & E & V & K).
    exists 0, s', l', (cut (PGROUNDUP oldsz) newsz pm). split; [|split; [done|right; split_and!; try done; pose proof (owned_short s pgdir pm newsz Hb); lia]].
    destruct (no_page s pgdir pm Hs) as (s1 & E1 & _). rewrite (kbind_ok _ _ _ _ _ E1) in E. rewrite (kbind_ok _ _ _ _ _ E1). by rewrite Z.eqb_refl in *.
  - destruct (add_page s t l pgdir pm i Hs (Hnone i ltac:(lia)) Hi) as (s0 & s1 & r & s2 & l2 & E0 & E1 & Hne & Ht & E2 & Hkp & Hm & Hker & Hres).
    rewrite (kbind_ok _ _ _ _ _ E0), (proj2 (Z.eqb_neq _ _) Hne), (kbind_ok _ _ _ _ _ E1), (kbind_ok _ _ _ _ _ E2).
    destruct Hres as [(-> & V2 & Hz)|(-> & -> & Hs2 & Hn2 & Ho2)]; cbn [Z.ltb Z.compare].
    + rewrite Hnext. destruct (IH s2 l2 (<[i := new_pde t]> pm) (PGSIZE * i + PGSIZE) (vs_space _ _ _ _ _ _ _ V2))
        as (r & s' & l' & pm' & E & V & Hr); try (unfold PGSIZE in *; lia).
      { unfold PGSIZE in *. Z.div_mod_to_equations. lia. }
      { intros j Hj. rewrite lookup_insert_ne by (unfold PGSIZE in *; lia). apply Hnone. unfold PGSIZE in *. lia. }
      { intros j e Hj. destruct (decide (j = i)) as [->|Hji]; [lia|]. rewrite lookup_insert_ne in Hj by done. by apply (Hbelow j e). }
      exists r, s', l', pm'. split; [done|]. split; [by eapply vstep_trans|].
      destruct Hr as [(-> & Hg & K)|(-> & -> & K & Hlen)]; [left|right]; split; try done; [split|split_and!; [| |by rewrite <- (vs_owned _ _ _ _ _ _ _ V2)]].
      * intros j. specialize (Hg j). destruct (decide (j = i)) as [->|Hji].
        -- rewrite decide_True by lia. rewrite decide_False, lookup_insert_eq in Hg by (unfold PGSIZE in *; lia). exists t. split; [done|]. split; [done|].
           intros x Hx. rewrite (K i (new_pde t) x); [by apply Hz|by rewrite lookup_insert_eq|]. by destruct (new_pde_ok END t Ht) as (_ & _ & ->).
        -- rewrite lookup_insert_ne in Hg by done. unfold PGSIZE in *. repeat case_decide; try done; lia.
      * eapply (keeps_trans pm pm); [done|done|]. eapply keeps_sub; [|exact K]. intros j e Hj.
        rewrite lookup_insert_ne; [done|]. intros <-. rewrite (Hnone i) in Hj; [done|lia].
      * apply map_eq. intros j. rewrite !cut_lookup, lookup_insert. unfold PGSIZE in *. repeat case_decide; try done; lia.
      * eapply (keeps_trans pm); [|exact Hkp|exact K]. intros j e. rewrite cut_lookup, lookup_insert. unfold PGSIZE in *. repeat case_decide; try done; lia.
    + destruct (alloc_no_table s2 t [] pgdir pm oldsz newsz Hs2 Ht Hn2 ltac:(lia) Hk) as (s' & l' & E & S' & O' & M' & Hker' & K').
      exists 0, s', l', (cut (PGROUNDUP oldsz) newsz pm). split; [exact E|]. split; [split; try done|right; split; [done|split; [done|split]]].
      * by rewrite O'.
      * intros x Hx. rewrite M'; [by apply Hm|]. intros p. rewrite Ho2. apply Hx.
      * intros va Hva. rewrite Hker' by done. by apply Hker.
      * eapply (keeps_trans pm); [intros j e; apply cut_sub|exact Hkp|exact K'].
      * rewrite <- Ho2. cbn [length]. pose proof (owned_short s2 pgdir pm newsz Hb). lia.
Qed.
(** The user pages are those below [sz]. *)
Definition full (sz : Z) (pm : gmap Z Z) : Prop := forall i, is_Some (pm !! i) <-> 0 <= PGSIZE * i < sz.

Lemma full_cut sz pm a b : full sz pm -> sz <= a -> cut a b pm = pm.
Proof.
  intros Hf Ha. apply map_eq. intros i. rewrite cut_lookup. case_decide as Hc; [|done].
  destruct (pm !! i) as [e|] eqn:E; [|done]. assert (is_Some (pm !! i)) as Hi by (by exists e). apply Hf in Hi. lia.
Qed.

Lemma full_none sz pm i : full sz pm -> sz <= PGSIZE * i -> pm !! i = None.
Proof. intros Hf H. apply eq_None_not_Some. intros Hs. apply Hf in Hs. lia. Qed.

(** allocuvm grows the space to [newsz] with zeroed user pages, or leaves it
    as it was and answers 0. *)
Lemma allocuvm_ok s l pgdir pm oldsz newsz :
  space s l pgdir pm -> full oldsz pm -> 0 <= oldsz <= newsz -> newsz < KERNBASE ->
  exists r s' l' pm', allocuvm END pgdir oldsz newsz s = Ok r s' /\ vstep pgdir s l pm s' l' pm' /\ keeps pm s s' /\
    (r = newsz /\ full newsz pm' /\ grown (PGROUNDUP oldsz) newsz pm s' pm' \/
     r = 0 /\ pm' = pm /\ Z.of_nat (length (owned s l pgdir pm)) <= needed newsz + 1).
Proof.
  intros Hs Hfull H0 Hk. unfold allocuvm. rewrite Z.geb_leb, (proj2 (Z.leb_gt _ _)), (proj2 (Z.ltb_ge _ _)) by lia.
  pose proof (PGROUNDUP_spec oldsz) as Hup.
  destruct (alloc_loop_ok (Z.to_nat (newsz / PGSIZE) + 2) s l pgdir pm (PGROUNDUP oldsz) oldsz newsz) as (r & s' & l' & pm' & E & V & Hr); try done; try lia.
  { unfold PGSIZE in *. Z.div_mod_to_equations. lia. }
  { intros i Hi. apply (full_none oldsz); [done|lia]. }
  { intros i e Hi. assert (is_Some (pm !! i)) as Hi' by (by exists e). apply Hfull in Hi'. lia. }
  exists r, s', l', pm'. split; [done|]. split; [done|]. destruct Hr as [(-> & Hg & K)|(-> & -> & K & Hlen)].
  - split; [done|]. left. split; [done|]. split; [|done]. intros i. specialize (Hg i). destruct (decide (PGROUNDUP oldsz <= PGSIZE * i < newsz)) as [Hin|Hout].
    + destruct Hg as (t & _ & -> & _). split; [lia|done].
    + rewrite Hg, (Hfull i). unfold PGSIZE in *. split; [lia|]. intros Hi. Z.div_mod_to_equations. lia.
  - rewrite (full_cut oldsz) in * by (done || lia). split; [done|by right].
Qed.

(** ** setupkvm *)

(** The mappings of the kernel half: address, size, physical address and
    permissions. *)
Definition region (k : Z * Z * Z * Z) : Z * Z * Z * Z :=
  let '(virt, phys_start, phys_end, perm) := k in (virt, u32 (phys_end - phys_start), phys_start, perm).

Definition inside (va : Z) (r : Z * Z * Z * Z) : bool := let '(virt, size, _, _) := r in (virt <=? va) && (va <? virt + size).

Definition region_pte (rs : list (Z * Z * Z * Z)) (va : Z) : Z :=
  match List.find (inside va) rs with
  | Some (virt, _, pa, perm) => u32 (Z.lor (Z.lor (u32 (pa + (PGROUNDDOWN va - virt))) perm) PTE_P)
  | None => 0
  end.

Definition region_ok (r : Z * Z * Z * Z) : Prop :=
  let '(virt, size, pa, _) := r in
  virt mod PGSIZE = 0 /\ size mod PGSIZE = 0 /\ KERNBASE <= virt /\ 0 < size /\ virt + size <= 2 ^ 32 /\ is_u32 pa.

Definition disjoint_regions (rs : list (Z * Z * Z * Z)) : Prop :=
  forall i j r r' va, rs !! i = Some r -> rs !! j = Some r' -> inside va r = true -> inside va r' = true -> i = j.

Lemma region_pages virt size va : virt mod PGSIZE = 0 -> size mod PGSIZE = 0 -> 0 <= virt -> 0 < size ->
  PGROUNDDOWN virt <= PGROUNDDOWN va <= PGROUNDDOWN (virt + size - 1) <-> virt <= va < virt + size.
Proof. rewrite !PGROUNDDOWN_div. unfold PGSIZE. intros. Z.div_mod_to_equations. lia. Qed.
Lemma region_pte_snoc rs r va : region_pte (rs ++ [r]) va =
  match List.find (inside va) rs with
  | Some _ => region_pte rs va
  | None => if inside va r then let '(virt, _, pa, perm) := r in u32 (Z.lor (Z.lor (u32 (pa + (PGROUNDDOWN va - virt))) perm) PTE_P) else 0
  end.
Proof.
  unfold region_pte. induction rs as [|r' rs IH]; cbn.
  - destruct (inside va r); [|done]. by destruct r as [[[? ?] ?] ?].
  - by destruct (inside va r').
Qed.

Lemma not_inside rs rs' r va : disjoint_regions (rs ++ r :: rs') -> inside va r = true -> List.find (inside va) rs = None.
Proof.
  intros Hd Hr. destruct (List.find (inside va) rs) as [r'|] eqn:E; [|done]. exfalso.
  apply List.find_some in E as [Hin Hr']. apply list_elem_of_In, list_elem_of_lookup in Hin as [i Hi].
  pose proof (lookup_lt_Some _ _ _ Hi). assert (i = length rs); [|lia].
  apply (Hd i (length rs) r' r va); try done; [by apply lookup_app_l_Some|]. apply list_lookup_middle. done.
Qed.

(** One mapping of the kernel half. *)
Lemma map_region s l pgdir rs r rs' : space s l pgdir ∅ -> region_ok r -> disjoint_regions (rs ++ r :: rs') ->
  (forall va, is_u32 va -> entry (k_mem s) pgdir va = region_pte rs va) ->
  let '(virt, size, pa, perm) := r in
  exists v s' l', mappages pgdir virt size pa perm s = Ok v s' /\ space s' l' pgdir ∅ /\ owned s' l' pgdir ∅ ≡ₚ owned s l pgdir ∅ /\
    (forall x, (forall p, p ∈ owned s l pgdir ∅ -> ~ in_page p x) -> k_mem s' x = k_mem s x) /\
    (v = 0 /\ (forall va, is_u32 va -> entry (k_mem s') pgdir va = region_pte (rs ++ [r]) va) \/
     v = -1 /\ Z.of_nat (length (owned s l pgdir ∅)) <= needed 0).
Proof.
  destruct r as [[[virt size] pa] perm]. intros Hs (H1 & H2 & H3 & H4 & H5 & H6) Hd Hent.
  assert (H3' : 0 <= virt) by (unfold KERNBASE in *; lia).
  pose proof (mappages_new END s l pgdir virt size pa perm (space_pt _ _ _ _ Hs) H3' H4 H5 H6) as Hmap. destruct Hmap as (v & s' & l' & E & Hst & Hres).
  { intros va Hva Hr. apply region_pages in Hr; try done. rewrite Hent by done. unfold region_pte.
    rewrite (not_inside _ rs' (virt, size, pa, perm)); [done|done|]. cbn. bool_cases; lia || done. }
  assert (Huser : forall i, 0 <= i < USERPAGES -> has (entry (k_mem s') pgdir (PGSIZE * i)) PTE_P = false).
  { intros i Hi. destruct (user_page i Hi) as (Hu & Hik & _). replace (entry (k_mem s') pgdir (PGSIZE * i)) with (entry (k_mem s) pgdir (PGSIZE * i)).
    - by apply (sp_none _ _ _ _ Hs).
    - destruct Hres as [[_ Hm]|(_ & _ & Hm)].
      + rewrite Hm by done. rewrite decide_False; [done|]. rewrite region_pages by done. unfold PGSIZE, KERNBASE in *. lia.
      + rewrite Hm; [done|done|]. rewrite region_pages by done. unfold PGSIZE, KERNBASE in *. lia. }
  assert (Hfr : frames ∅ ≡ₚ [] ++ frames ∅) by (rewrite app_nil_l; reflexivity).
  assert (Hnd : NoDup ([] ++ owned s l pgdir ∅)) by (rewrite app_nil_l; apply (sp_nodup _ _ _ _ Hs)).
  destruct (space_step s l pgdir ∅ s' l' ∅ [] Hs Hst Hfr Hnd (List.Forall_nil _)) as [Hs' Ho']; rewrite ?app_nil_l in *.
  { intros i e Hi. by rewrite lookup_empty in Hi. }
  { intros i e Hi. by rewrite lookup_empty in Hi. }
  { intros i Hi _. by apply Huser. }
  exists v, s', l'. split; [done|]. split; [done|]. split; [done|]. split.
  - intros x Hx. apply (ps_mem _ _ _ _ _ _ Hst). intros Hb. destruct (table_owned _ _ _ ∅ _ Hb) as (q & Hq & Hqx). by apply (Hx q).
  - destruct Hres as [[-> Hm]|(-> & -> & _)]; [left|right; split; [done|]; rewrite <- Ho'; apply owned_short; [intros i e Hi; by rewrite lookup_empty in Hi|done]]. split; [done|]. intros va Hva. rewrite Hm, region_pte_snoc by done.
    destruct (inside va (virt, size, pa, perm)) eqn:Ei.
    + rewrite (not_inside _ _ _ _ Hd Ei). cbn in Ei. bool_hyps. rewrite decide_True by (rewrite region_pages by done; lia).
      do 5 f_equal. rewrite (PGROUNDDOWN_div virt). unfold PGSIZE in *. Z.div_mod_to_equations. lia.
    + rewrite decide_False by (rewrite region_pages by done; cbn in Ei; bool_hyps; lia). rewrite Hent by done. unfold region_pte.
      by destruct (List.find (inside va) rs).
Qed.
Lemma tables_none m pgdir : (forall i, 0 <= i < 1024 -> has (pde m pgdir i) PTE_P = false) -> tables m pgdir = [].
Proof.
  intros H. destruct (tables m pgdir) as [|t ts] eqn:E; [done|]. assert (Ht : t ∈ tables m pgdir) by (rewrite E; constructor).
  apply elem_tables in Ht as (i & Hi & Hp & _). by rewrite H in Hp.
Qed.

(** A zeroed page is an empty address space. *)
Lemma new_directory s t l : free END s (t :: l) ->
  exists s0 s1, kalloc s = Ok t s0 /\ memset t 0 PGSIZE s0 = Ok tt s1 /\ t <> 0 /\ space s1 l t ∅ /\ owned s1 l t ∅ ≡ₚ t :: l /\
    (forall x, ~ in_page t x -> k_mem s1 x = k_mem s x) /\ (forall va, is_u32 va -> entry (k_mem s1) t va = 0).
Proof.
  intros Hf. destruct (zalloc END s t l Hf) as (s0 & s1 & E0 & E1 & Hp & Hne & Hl & Hf1 & Hm & _).
  assert (Hpde : forall i, 0 <= i < 1024 -> pde (k_mem s1) t i = 0).
  { intros i Hi. unfold pde. rewrite Hm. apply load32_fill0; unfold PGSIZE; lia. }
  assert (Hent : forall va, is_u32 va -> entry (k_mem s1) t va = 0).
  { intros va Hva. unfold entry. by rewrite Hpde by (by apply PDX_range). }
  assert (Hh : held (k_mem s1) t ∅ = [t]) by (rewrite held_empty, tables_none; [done|intros i Hi; by rewrite Hpde]).
  exists s0, s1. split; [done|]. split; [done|]. split; [done|]. split; [|split; [|split; [|done]]].
  - split; try done.
    + rewrite Hh. rewrite <- Permutation_cons_append. apply NoDup_cons. split; [done|apply (free_nodup _ _ _ Hf1)].
    + rewrite Hh. by apply Forall_singleton.
    + intros i Hi _. rewrite Hent by (by apply user_page). done.
  - unfold owned. rewrite Hh. symmetry. apply Permutation_cons_append.
  - intros x Hx. rewrite Hm. by apply fill_out.
Qed.

Definition map_kernel (pgdir : Z) (k : Z * Z * Z * Z) : M (option Z) :=
  let '(virt, phys_start, phys_end, perm) := k in
  r <- mappages pgdir virt (u32 (phys_end - phys_start)) phys_start perm ;;
  if r <? 0 then freevm END pgdir ;;; kret (Some 0) else kret None.

Lemma map_kernel_ok ks rs s l pgdir : space s l pgdir ∅ -> Forall region_ok (map region ks) -> disjoint_regions (rs ++ map region ks) ->
  (forall va, is_u32 va -> entry (k_mem s) pgdir va = region_pte rs va) ->
  exists r s' l', first_of ks (map_kernel pgdir) s = Ok r s' /\
    (forall x, (forall p, p ∈ owned s l pgdir ∅ -> ~ in_page p x) -> k_mem s' x = k_mem s x) /\
    (r = None /\ space s' l' pgdir ∅ /\ owned s' l' pgdir ∅ ≡ₚ owned s l pgdir ∅ /\
       (forall va, is_u32 va -> entry (k_mem s') pgdir va = region_pte (rs ++ map region ks) va) \/
     r = Some 0 /\ free END s' l' /\ l' ≡ₚ owned s l pgdir ∅ /\ Z.of_nat (length (owned s l pgdir ∅)) <= needed 0).
Proof.
  revert rs s l. induction ks as [|k ks IH]; intros rs s l Hs Hok Hd Hent.
  - exists None, s, l. split; [done|]. split; [done|]. left. rewrite app_nil_r. done.
  - apply Forall_cons in Hok as [Hk Hok]. pose proof (map_region s l pgdir rs (region k) (map region ks) Hs Hk Hd Hent) as Hm.
    destruct k as [[[virt phys_start] phys_end] perm]. destruct Hm as (v & s1 & l1 & E & Hs1 & Ho1 & Hm1 & Hv).
    cbn [first_of map_kernel]. rewrite kbind_assoc, (kbind_ok _ _ _ _ _ E). destruct Hv as [[-> Hent1]|[-> Hlen]]; cbn [Z.ltb Z.compare].
    + unfold kbind at 1, kret. destruct (IH (rs ++ [region (virt, phys_start, phys_end, perm)]) s1 l1 Hs1 Hok) as (r & s' & l' & E' & Hm' & Hr).
      { by rewrite <- app_assoc. }
      { done. }
      exists r, s', l'. split; [exact E'|]. rewrite <- app_assoc in Hr. split.
      * intros x Hx. rewrite Hm'; [by apply Hm1|]. intros p. rewrite Ho1. apply Hx.
      * destruct Hr as [(-> & S' & O' & E2)|(-> & F' & O' & L')]; [left|right]; rewrite <- Ho1; done.
    + destruct (freevm_ok s1 l1 pgdir ∅ Hs1) as (s2 & l2 & E2 & F2 & L2 & M2). rewrite kbind_assoc, (kbind_ok _ _ _ _ _ E2).
      exists (Some 0), s2, l2. split; [done|]. split; [|right; split; [done|split; [done|split; [by rewrite <- Ho1|done]]]].
      intros x Hx. rewrite M2; [by apply Hm1|]. intros p. rewrite Ho1. apply Hx.
Qed.

Section kernel_half.
Context (DATA : Z) (HDATA : DATA mod PGSIZE = 0 /\ KERNLINK < DATA < KERNBASE + PHYSTOP).

Definition kernel_pte : Z -> Z := region_pte (map region (kmap DATA)).

Lemma kernel_regions : Forall region_ok (map region (kmap DATA)) /\ disjoint_regions (map region (kmap DATA)).
Proof.
  destruct HDATA as [Ha Hd]. unfold kmap. cbn [map region].
  assert (HV : V2P DATA = DATA - KERNBASE) by (unfold V2P; apply u32_small; unfold is_u32, KERNLINK, KERNBASE, EXTMEM, PHYSTOP in *; lia).
  assert (S1 : u32 (V2P DATA - V2P KERNLINK) = DATA - KERNLINK).
  { rewrite HV. change (V2P KERNLINK) with EXTMEM. rewrite u32_small; unfold is_u32, KERNLINK, KERNBASE, EXTMEM, PHYSTOP in *; lia. }
  assert (S2 : u32 (PHYSTOP - V2P DATA) = KERNBASE + PHYSTOP - DATA).
  { rewrite HV. rewrite u32_small by (unfold is_u32, KERNLINK, KERNBASE, EXTMEM, PHYSTOP in *; lia). lia. }
  rewrite S1, S2, HV. change (u32 (EXTMEM - 0)) with EXTMEM. change (u32 (0 - DEVSPACE)) with 0x2000000. change (V2P KERNLINK) with EXTMEM.
  unfold KERNLINK, KERNBASE, EXTMEM, PHYSTOP, DEVSPACE, PGSIZE in *. split.
  - rewrite !Forall_cons, Forall_nil. unfold region_ok, is_u32, PGSIZE, KERNBASE. split_and!; try done; Z.div_mod_to_equations; lia.
  - intros i j r r' va Hi Hj Hr Hr'.
    destruct i as [|[|[|[|i]]]]; cbn in Hi; try done; injection Hi as <-; destruct j as [|[|[|[|j]]]]; cbn in Hj; try done; injection Hj as <-;
      try done; cbn in Hr, Hr'; bool_hyps; exfalso; lia.
Qed.

(** setupkvm makes an address space without user pages whose kernel half is
    [kernel_pte], or gives back every page and answers 0. *)
Lemma setupkvm_ok s l : free END s l ->
  exists r s' l', setupkvm END DATA s = Ok r s' /\ (forall x, (forall p, p ∈ l -> ~ in_page p x) -> k_mem s' x = k_mem s x) /\
    (r <> 0 /\ space s' l' r ∅ /\ owned s' l' r ∅ ≡ₚ l /\ (forall va, is_u32 va -> entry (k_mem s') r va = kernel_pte va) \/
     r = 0 /\ free END s' l' /\ l' ≡ₚ l /\ Z.of_nat (length l) <= needed 0).
Proof.
  intros Hf. unfold setupkvm. destruct l as [|t l].
  - destruct (kalloc_ok END s _ Hf) as [E F]. cbn [default head tail] in E, F. rewrite (kbind_ok _ _ _ _ _ E).
    eexists 0, _, []. split; [reflexivity|]. split; [done|]. right. split; [done|]. split; [done|]. split; [done|]. by vm_compute.
  - destruct (new_directory s t l Hf) as (s0 & s1 & E0 & E1 & Hne & Hs1 & Ho1 & Hm1 & Hent1).
    rewrite (kbind_ok _ _ _ _ _ E0), (proj2 (Z.eqb_neq _ _) Hne), (kbind_ok _ _ _ _ _ E1).
    change (P2V PHYSTOP >? DEVSPACE) with false. cbn match. fold (map_kernel t). destruct kernel_regions as [Hok Hd].
    destruct (map_kernel_ok (kmap DATA) [] s1 l t Hs1 Hok Hd Hent1) as (r & s2 & l2 & E2 & Hm2 & Hr). rewrite (kbind_ok _ _ _ _ _ E2).
    exists (default t r), s2, l2. split; [done|]. split.
    + intros x Hx. rewrite Hm2, Hm1; [done|apply Hx; constructor|]. intros p. rewrite Ho1. apply Hx.
    + destruct Hr as [(-> & Hs2 & Ho2 & He2)|(-> & F2 & L2 & Hlen)]; [left|right]; cbn [default]; rewrite <- Ho1; done.
Qed.
End kernel_half.
End kernel.

(** ** The contents of the user pages *)

(** The byte at the user address [va]. *)
Definition view (m : mem) (pm : gmap Z Z) (va : Z) : Z :=
  match pm !! (va / PGSIZE) with Some e => m (table e + va mod PGSIZE) | None => 0 end.

Lemma keeps_view pm s s' va : keeps pm s s' -> view (k_mem s') pm va = view (k_mem s) pm va.
Proof.
  intros H. unfold view. destruct (pm !! (va / PGSIZE)) as [e|] eqn:E; [|done]. apply (H (va / PGSIZE) e); [done|].
  unfold in_page, PGSIZE in *. Z.div_mod_to_equations. lia.
Qed.

(** An address space, with the contents of its pages, depends on its pages and
    on the free list. *)
Lemma space_view s l pgdir pm k l' : space s l pgdir pm -> free END k l' -> NoDup (l' ++ held (k_mem s) pgdir pm) ->
  (forall x p, p ∈ held (k_mem s) pgdir pm -> in_page p x -> k_mem k x = k_mem s x) ->
  space k l' pgdir pm /\ held (k_mem k) pgdir pm = held (k_mem s) pgdir pm /\
  (forall va, is_u32 va -> entry (k_mem k) pgdir va = entry (k_mem s) pgdir va) /\ (forall a, view (k_mem k) pm a = view (k_mem s) pm a).
Proof.
  intros Hs Hf Hnd Hm. destruct (space_frame s l pgdir pm k l' Hs Hf Hnd) as (Hs' & Ht & He).
  { intros x p Hp. apply Hm. unfold held. apply elem_of_app. by right. }
  split; [done|]. split; [unfold held; by rewrite Ht|]. split; [done|]. intros a. apply keeps_view. intros i e x Hi. apply Hm.
  unfold held. apply elem_of_app. left. apply elem_frames. by exists i, e.
Qed.

Lemma frame_inj s l pgdir pm i j e e' x : space s l pgdir pm -> pm !! i = Some e -> pm !! j = Some e' ->
  in_page (table e) x -> in_page (table e') x -> i = j.
Proof.
  intros Hs Hi Hj Hx Hy. apply dec_stable. intros Hne.
  pose proof (sp_nodup _ _ _ _ Hs) as Hnd. change (NoDup (owned s l pgdir pm)) in Hnd. rewrite owned_swap, (frames_delete pm i e Hi) in Hnd.
  apply NoDup_cons in Hnd as [Hn _]. apply Hn. apply elem_of_app. left. apply elem_frames. exists j, e'.
  split; [by rewrite lookup_delete_ne|]. apply (apart (table e') (table e) x); try done; by eapply space_frame_page.
Qed.

(** [n] bytes are stored in page [i] at offset [o]. *)
Lemma write_page s l pgdir pm i e o n byte m' : space s l pgdir pm -> pm !! i = Some e -> 0 <= o -> o + n <= PGSIZE ->
  (forall k, is_byte (byte k)) ->
  (forall x, m' x = if decide (table e + o <= x < table e + o + n) then byte (x - (table e + o)) else k_mem s x) ->
  vstep pgdir s l pm (set_mem m' s) l pm /\
  (forall va, view m' pm va = if decide (PGSIZE * i + o <= va < PGSIZE * i + o + n) then byte (va - (PGSIZE * i + o)) else view (k_mem s) pm va).
Proof.
  intros Hs Hi Ho Hn Hb Hm. split.
  - apply write_ok; [done| |].
    + intros x. rewrite Hm. case_decide; [apply Hb|apply (free_mem _ _ _ (sp_free _ _ _ _ Hs))].
    + intros x Hx. rewrite Hm, decide_False; [done|]. intros Hin. apply (Hx i e Hi). unfold in_page. lia.
  - intros va. unfold view. destruct (pm !! (va / PGSIZE)) as [e'|] eqn:E.
    + rewrite Hm. destruct (decide (va / PGSIZE = i)) as [Hpg|Hpg].
      * rewrite Hpg, Hi in E. injection E as <-. assert (Hva : va = PGSIZE * i + va mod PGSIZE) by (unfold PGSIZE in *; Z.div_mod_to_equations; lia).
        destruct (decide (table e + o <= table e + va mod PGSIZE < table e + o + n)); [rewrite decide_True by lia; f_equal; lia|by rewrite decide_False by lia].
      * rewrite decide_False, decide_False; [done| |].
        -- intros Hin. apply Hpg. unfold PGSIZE in *. Z.div_mod_to_equations. lia.
        -- intros Hin. apply Hpg. eapply (frame_inj s l pgdir pm (va / PGSIZE) i e' e (table e' + va mod PGSIZE)); try done; unfold in_page, PGSIZE in *; Z.div_mod_to_equations; lia.
    + rewrite decide_False; [done|]. intros Hin. assert (va / PGSIZE = i) by (unfold PGSIZE in *; Z.div_mod_to_equations; lia). congruence.
Qed.

(** ** copyout *)

(** [move] copies from a buffer of [total] bytes, byte [k] of it being [byte k]. *)
Definition moves (byte : Z -> Z) (total : Z) (move : Z -> Z -> Z -> M unit) : Prop :=
  forall dst k n s, 0 <= k -> 0 <= n -> k + n <= total -> exists m', move dst k n s = Ok tt (set_mem m' s) /\
    (forall x, m' x = if decide (dst <= x < dst + n) then byte (k + (x - dst)) else k_mem s x).

Definition user_pte (pm : gmap Z Z) (i : Z) : bool := match pm !! i with Some e => has e PTE_U | None => false end.

(** copyout to mapped pages: all the bytes, when the pages are the user's, or
    -1. *)
Lemma copyout_pages byte total move fuel s l pgdir pm va k len :
  space s l pgdir pm -> moves byte total move -> k + len <= total -> (forall j, is_byte (byte j)) -> 0 <= va -> 0 <= k -> 0 <= len ->
  (forall a, va <= a < va + len -> is_Some (pm !! (a / PGSIZE))) ->
  (va mod PGSIZE + len + PGSIZE - 1) / PGSIZE < Z.of_nat fuel ->
  exists r s', copyout_loop fuel move pgdir va k len s = Ok r s' /\ vstep pgdir s l pm s' l pm /\
    (r = 0 /\ (forall a, va <= a < va + len -> user_pte pm (a / PGSIZE) = true) /\
       (forall a, view (k_mem s') pm a = if decide (va <= a < va + len) then byte (k + (a - va)) else view (k_mem s) pm a) \/
     r = -1 /\ exists a, va <= a < va + len /\ user_pte pm (a / PGSIZE) = false).
Proof.
  intros Hs Hmv Htot Hb. revert s Hs va k len Htot. induction fuel as [|fuel IH]; intros s Hs va k len Htot H0 Hk Hlen Hall Hfuel.
  { exfalso. unfold PGSIZE in *. Z.div_mod_to_equations. lia. }
  cbn [copyout_loop]. rewrite Z.gtb_ltb. destruct (Z.ltb_spec 0 len) as [Hpos|Hz].
  2:{ exists 0, s. split; [done|]. split; [by apply vstep_refl|]. left. split; [done|]. split.
      - lia.
      - intros a. by rewrite decide_False by lia. }
  assert (Hva : va = PGSIZE * (va / PGSIZE) + va mod PGSIZE /\ 0 <= va mod PGSIZE < PGSIZE) by (clear; unfold PGSIZE in *; Z.div_mod_to_equations; lia).
  set (i := va / PGSIZE) in *. destruct (Hall va) as [e He]; [lia|]. fold i in He.
  pose proof (sp_range _ _ _ _ Hs i e He) as Hr. destruct (user_page i Hr) as (Hu & Hik & _). destruct (sp_entry _ _ _ _ Hs i e He) as [Hent Hp].
  assert (Hva0 : PGROUNDDOWN va = PGSIZE * i) by (by rewrite PGROUNDDOWN_div). rewrite Hva0.
  destruct (has e PTE_U) eqn:HU.
  2:{ exists (-1), s. split; [|split; [by apply vstep_refl|right; split; [done|]]].
      - unfold uva2ka. destruct (entry_slot s l pgdir pm i e Hs He) as (_ & _ & Ew & Hne & Hl & _). cbv zeta in Ew, Hne, Hl.
        rewrite kbind_assoc, (kbind_ok _ _ _ _ _ Ew), (proj2 (Z.eqb_neq _ _) Hne). unfold kbind, load, gets. rewrite Hl, Hp, HU. done.
      - exists va. split; [lia|]. unfold user_pte. fold i. by rewrite He. }
  rewrite (kbind_ok _ _ _ _ _ (uva2ka_ok END s l pgdir (PGSIZE * i) (space_pt _ _ _ _ Hs) Hu ltac:(by rewrite Hent) ltac:(by rewrite Hent))). rewrite Hent.
  pose proof (is_page_pos _ _ (space_frame_page _ _ _ _ _ _ Hs He)). rewrite (proj2 (Z.eqb_neq (table e) 0)) by lia. cbv zeta. rewrite Z.gtb_ltb.
  set (n := if len <? PGSIZE - (va - PGSIZE * i) then len else PGSIZE - (va - PGSIZE * i)).
  assert (Hn : 0 < n <= len /\ va mod PGSIZE + n <= PGSIZE /\ (n < len -> va mod PGSIZE + n = PGSIZE)).
  { unfold n. destruct (Z.ltb_spec len (PGSIZE - (va - PGSIZE * i))); lia. }
  clearbody n. destruct (Hmv (table e + (va - PGSIZE * i)) k n s Hk ltac:(lia) ltac:(lia)) as (m' & Em & Hm'). rewrite (kbind_ok _ _ _ _ _ Em).
  destruct (write_page s l pgdir pm i e (va mod PGSIZE) n (fun x => byte (k + x)) m' Hs He) as [V Hview]; [lia|lia|intros; apply Hb| |].
  { intros x. rewrite Hm'. replace (va - PGSIZE * i) with (va mod PGSIZE) by lia. done. }
  assert (Hnext : u32 (PGSIZE * i + PGSIZE) = PGSIZE * i + PGSIZE) by (apply u32_small; unfold is_u32, KERNBASE, PGSIZE in *; lia).
  assert (Hmod : (PGSIZE * i + PGSIZE) mod PGSIZE = 0) by (unfold PGSIZE in *; clear; Z.div_mod_to_equations; lia). rewrite Hnext.
  destruct (IH (set_mem m' s) (vs_space _ _ _ _ _ _ _ V) (PGSIZE * i + PGSIZE) (k + n) (len - n)) as (r & s' & E & V' & Hr'); try lia.
  { intros a Ha. apply Hall. lia. }
  { rewrite Hmod. assert (n < len \/ n = len) as [?| ->] by lia; unfold PGSIZE in *; Z.div_mod_to_equations; lia. }
  exists r, s'. split; [exact E|]. split; [by eapply vstep_trans|]. destruct Hr' as [(-> & HU' & Hv')|(-> & a & Ha & HUa)]; [left|right].
  - split; [done|]. split.
    + intros a Ha. destruct (Z.lt_ge_cases a (PGSIZE * i + PGSIZE)) as [Hin|Hout]; [|apply HU'; lia].
      replace (a / PGSIZE) with i by (clear -Ha Hva Hin; unfold PGSIZE in *; Z.div_mod_to_equations; lia). unfold user_pte. by rewrite He.
    + intros a. rewrite Hv'. cbn. rewrite Hview, <- (proj1 Hva). destruct (decide (PGSIZE * i + PGSIZE <= a < PGSIZE * i + PGSIZE + (len - n))).
      * rewrite decide_True by lia. f_equal. lia.
      * destruct (decide (va <= a < va + n)); [by rewrite decide_True by lia|]. rewrite decide_False; [done|]. lia.
  - split; [done|]. exists a. split; [lia|done].
Qed.
(** copyout to an address whose page is not the user's copies nothing. *)
Lemma copyout_refused move s l pgdir pm va k len :
  space s l pgdir pm -> is_u32 va -> 0 < len -> has (pde (k_mem s) pgdir (PDX va)) PTE_P = true ->
  has (entry (k_mem s) pgdir va) PTE_P = false \/ has (entry (k_mem s) pgdir va) PTE_U = false ->
  copyout_from move pgdir va k len s = Ok (-1) s.
Proof.
  intros Hs Hva Hlen Hd Hno. unfold copyout_from. rewrite Nat.add_comm. cbn [copyout_loop Nat.add]. rewrite Z.gtb_ltb, (proj2 (Z.ltb_lt 0 len)) by done.
  assert (Hv0 : is_u32 (PGROUNDDOWN va)) by (destruct (PGROUNDDOWN_range va Hva); unfold is_u32 in *; lia).
  assert (Hpg : PGROUNDDOWN va / PGSIZE = va / PGSIZE) by (rewrite PGROUNDDOWN_div; unfold PGSIZE; clear; Z.div_mod_to_equations; lia).
  assert (HP : PDX (PGROUNDDOWN va) = PDX va) by (apply same_page in Hpg as [Hpg _]; done).
  rewrite <- (entry_page (k_mem s) pgdir (PGROUNDDOWN va) va) in Hno by done. rewrite <- HP in Hd. set (v0 := PGROUNDDOWN va) in *.
  unfold uva2ka. rewrite kbind_assoc, (kbind_ok _ _ _ _ _ (walk_present pgdir v0 false s Hd)).
  destruct (pt_table _ _ _ _ (space_pt _ _ _ _ Hs) _ (PDX_range _ Hv0) Hd) as (Ht & _). pose proof (is_page_pos _ _ Ht). pose proof (PTX_range v0).
  rewrite (proj2 (Z.eqb_neq _ 0)) by lia. unfold kbind, load, gets.
  rewrite <- (pt_slot END s l pgdir v0 (space_pt _ _ _ _ Hs) Hv0 Hd). destruct Hno as [-> | ->]; [done|]. by destruct (has (entry (k_mem s) pgdir v0) PTE_P).
Qed.

(** ** clearpteu *)

(** Entry [i] gets other permissions. *)
Lemma set_pte s l pgdir pm i e e' : space s l pgdir pm -> pm !! i = Some e -> is_u32 e' -> has e' PTE_P = true -> table e' = table e ->
  let slot := table (pde (k_mem s) pgdir (PDX (PGSIZE * i))) + 4 * PTX (PGSIZE * i) in
  let s' := set_mem (store32 (k_mem s) slot e') s in
  vstep pgdir s l pm s' l (<[i := e']> pm) /\ keeps pm s s'.
Proof.
  intros Hs Hi Hu' Hp' Ht' slot s'. pose proof (sp_range _ _ _ _ Hs i e Hi) as Hr. destruct (user_page i Hr) as (Hu & Hk & _ & Hdiv).
  destruct (entry_slot s l pgdir pm i e Hs Hi) as (_ & Hd & _ & _ & _ & Hin). fold slot in Hin.
  destruct (store_pte END s l pgdir (PGSIZE * i) e' (space_pt _ _ _ _ Hs) Hu Hd) as (Hok & Hpde & Hent). fold slot in Hok, Hpde, Hent. fold s' in Hok, Hpde, Hent.
  pose proof (tables_same _ _ _ Hpde) as Ht. rewrite Hdiv in Hent.
  assert (Htb : table (pde (k_mem s) pgdir (PDX (PGSIZE * i))) ∈ tables (k_mem s) pgdir).
  { apply elem_tables. exists (PDX (PGSIZE * i)). split; [by apply PDX_range|done]. }
  assert (Hmem : forall x, ~ in_page (table (pde (k_mem s) pgdir (PDX (PGSIZE * i)))) x -> k_mem s' x = k_mem s x).
  { intros x Hx. unfold s'. cbn. apply store32_out. intros Hz. apply Hx.
    unfold slot, in_page, PGSIZE in *. pose proof (PTX_range (4096 * i)). lia. }
  assert (Hfr : frames (<[i := e']> pm) ≡ₚ frames pm).
  { rewrite (frames_delete _ i e'), (frames_delete pm i e), Ht' by (done || apply lookup_insert_eq). by rewrite delete_insert_eq. }
  assert (Ho : owned s' l pgdir (<[i := e']> pm) ≡ₚ owned s l pgdir pm) by (by rewrite !owned_swap, Hfr, Ht).
  split; [split|].
  - split; [apply (pt_free _ _ _ _ Hok)| | | | |].
    + change (NoDup (owned s' l pgdir (<[i := e']> pm))). rewrite Ho. apply (sp_nodup _ _ _ _ Hs).
    + pose proof (sp_pages _ _ _ _ Hs) as HP. unfold held in *. by rewrite Ht, Hfr.
    + intros j ej. rewrite lookup_insert. case_decide; [by intros _; subst j|apply (sp_range _ _ _ _ Hs)].
    + intros j ej Hj. destruct (decide (j = i)) as [->|Hji].
      * rewrite lookup_insert_eq in Hj. injection Hj as <-. rewrite Hent, Hdiv, decide_True by done. by rewrite u32_small.
      * rewrite lookup_insert_ne in Hj by done. destruct (user_page j (sp_range _ _ _ _ Hs j ej Hj)) as (Hju & _ & _ & Hjd).
        rewrite Hent, Hjd, decide_False by done. by apply (sp_entry _ _ _ _ Hs).
    + intros j Hj. rewrite lookup_insert. case_decide as Hji; [done|]. intros Hn. destruct (user_page j Hj) as (Hju & _ & _ & Hjd).
      rewrite Hent, Hjd, decide_False by done. by apply (sp_none _ _ _ _ Hs).
  - done.
  - intros x Hx. apply Hmem, Hx, elem_owned. auto.
  - intros va Hva. rewrite Hent by (unfold is_u32, KERNBASE in *; lia). rewrite decide_False; [done|].
    unfold USERPAGES, KERNBASE, PGSIZE in *. Z.div_mod_to_equations. lia.
  - intros j ej x Hj Hx. apply Hmem. intros Hy. apply (frame_apart _ _ _ _ j ej x Hs Hj Hx). apply table_bytes_in. eexists. split; [|exact Hy].
    rewrite !elem_of_app. auto.
Qed.

Definition no_user (e : Z) : Z := Z.land e (Z.lnot PTE_U).

Lemma no_user_ok e : is_u32 e -> is_u32 (no_user e) /\ has (no_user e) PTE_P = has e PTE_P /\ has (no_user e) PTE_U = false /\ table (no_user e) = table e.
Proof.
  intros He. unfold no_user. split_and!.
  - unfold is_u32 in *. assert (H0 : 0 <= Z.land e (Z.lnot PTE_U)) by (apply Z.land_nonneg; lia).
    assert (Hs : Z.shiftr (Z.land e (Z.lnot PTE_U)) 32 = 0).
    { rewrite Z.shiftr_land, (Z.shiftr_div_pow2 e) by lia. by rewrite Z.div_small, Z.land_0_l by lia. }
    rewrite Z.shiftr_div_pow2 in Hs by lia. apply Z.div_small_iff in Hs; lia.
  - unfold has. by rewrite <- Z.land_assoc.
  - unfold has. rewrite <- Z.land_assoc. change (Z.land (Z.lnot PTE_U) PTE_U) with 0. by rewrite Z.land_0_r.
  - unfold table, PTE_ADDR. by rewrite <- Z.land_assoc.
Qed.

Lemma clearpteu_ok s l pgdir pm i e : space s l pgdir pm -> pm !! i = Some e ->
  exists s', clearpteu pgdir (PGSIZE * i) s = Ok tt s' /\ vstep pgdir s l pm s' l (<[i := no_user e]> pm) /\ keeps pm s s'.
Proof.
  intros Hs Hi. destruct (entry_slot s l pgdir pm i e Hs Hi) as (_ & _ & Ew & Hne & Hl & _). cbv zeta in Ew, Hne, Hl.
  assert (He : is_u32 e) by (rewrite <- Hl; apply load32_range, (free_mem _ _ _ (sp_free _ _ _ _ Hs))).
  destruct (no_user_ok e He) as (Hu & Hp & _ & Ht). rewrite (proj2 (sp_entry _ _ _ _ Hs i e Hi)) in Hp.
  destruct (set_pte s l pgdir pm i e (no_user e) Hs Hi Hu Hp Ht) as [V K]. eexists. split; [|split; [exact V|exact K]].
  unfold clearpteu. rewrite (kbind_ok _ _ _ _ _ Ew), (proj2 (Z.eqb_neq _ _) Hne). unfold kbind, load, gets. by rewrite Hl.
Qed.
End uvm.
