(* ===== verification/UvmCopy.v ===== *)
(** * Copying an address space (vm.c: copyuvm)

    What fork relies on: the copy has its own pages with the same bytes and
    permissions, the original is not touched, and when memory runs out every
    page that was taken is given back. *)

From S2P Require Import Prelude Mem Kalloc Vm VmFacts Uvm.
#[local] Open Scope Z_scope.
#[local] Open Scope kernel_scope.

Section copy.
Context (END : Z) (HEND : KERNBASE < END) (DATA : Z) (HDATA : DATA mod PGSIZE = 0 /\ KERNLINK < DATA < KERNBASE + PHYSTOP).

(** The parent at the call, and its size. *)
Context (s0 : kstate) (l0 : list Z) (pgdir : Z) (pm : gmap Z Z) (sz : Z).
Context (HS : space END s0 l0 pgdir pm) (HF : full sz pm) (HSZ : 0 <= sz < KERNBASE).

(** Nothing but pages that were free is written. *)
Definition off_free (s : kstate) : Prop := forall x, (forall p, p ∈ l0 -> ~ in_page p x) -> k_mem s x = k_mem s0 x.

Lemma parent_held x p : p ∈ held (k_mem s0) pgdir pm -> in_page p x -> forall q, q ∈ l0 -> ~ in_page q x.
Proof.
  intros Hp Hx q Hq Hqx. pose proof (sp_nodup _ _ _ _ _ HS) as Hnd. apply NoDup_app in Hnd as (_ & Hdis & _).
  pose proof (owned_pages _ _ _ _ _ HS) as Hpg. rewrite Forall_forall in Hpg.
  apply (Hdis q Hq). replace q with p; [done|]. apply (apart END p q x); try done; apply Hpg, elem_of_app; auto.
Qed.

(** The parent in a later state, beside a free list that is part of [l0]. *)
Lemma parent_at s l h : off_free s -> free END s l -> l ++ h ≡ₚ l0 ->
  space END s l pgdir pm /\ (forall va, is_u32 va -> entry (k_mem s) pgdir va = entry (k_mem s0) pgdir va) /\
  (forall a, view (k_mem s) pm a = view (k_mem s0) pm a).
Proof.
  intros Hm Hf Hl. destruct (space_view END s0 l0 pgdir pm s l HS Hf) as (Hs & _ & He & Hv); [| |done].
  - pose proof (sp_nodup _ _ _ _ _ HS) as Hnd. rewrite <- Hl in Hnd. rewrite <- app_assoc, (Permutation_app_comm h), app_assoc in Hnd.
    by apply NoDup_app in Hnd as (? & _).
  - intros x p Hp Hx. apply Hm. by apply (parent_held x p).
Qed.

(** The copy [d] has the pages [pc], page by page those of the parent below [b]. *)
Record copied (s : kstate) (l : list Z) (d : Z) (pc : gmap Z Z) (b : Z) : Prop := {
  cp_space : space END s l d pc;
  cp_owned : owned s l d pc ≡ₚ l0;
  cp_mem : off_free s;
  cp_kernel : forall va, KERNBASE <= va < 2 ^ 32 -> entry (k_mem s) d va = kernel_pte DATA va;
  cp_pages : forall i, if decide (0 <= PGSIZE * i < b) then exists e e', pm !! i = Some e /\ pc !! i = Some e' /\ PTE_FLAGS e' = PTE_FLAGS e else pc !! i = None;
  cp_view : forall a, 0 <= a < b -> view (k_mem s) pc a = view (k_mem s0) pm a }.

(** Memory runs out: the copy is freed. *)
Lemma undo s l d pc b : copied s l d pc b -> exists s' l', freevm END d s = Ok tt s' /\ free END s' l' /\ l' ≡ₚ l0 /\ off_free s'.
Proof.
  intros [Hs Ho Hm _ _ _]. destruct (freevm_ok END HEND s l d pc Hs) as (s' & l' & E & Hf & Hl & Hm'). exists s', l'. split; [done|]. split; [done|].
  split; [by rewrite Hl|]. intros x Hx. rewrite Hm'; [by apply Hm|]. intros p. rewrite Ho. apply Hx.
Qed.

(** A page is taken from the free list and filled with the bytes of [src]. *)
Lemma take_copy s t l d pc src : space END s (t :: l) d pc -> (forall x, in_page src x -> ~ in_page t x) ->
  exists s1 s2, kalloc s = Ok t s1 /\ memmove t src PGSIZE s1 = Ok tt s2 /\ t <> 0 /\ is_page END t /\
    space END s2 l d pc /\ t :: owned s2 l d pc ≡ₚ owned s (t :: l) d pc /\ t ∉ owned s2 l d pc /\
    (forall x, ~ in_page t x -> k_mem s2 x = k_mem s x) /\ (forall k, 0 <= k < PGSIZE -> k_mem s2 (t + k) = k_mem s (src + k)) /\
    (forall va, is_u32 va -> entry (k_mem s2) d va = entry (k_mem s) d va).
Proof.
  intros Hs Hsrc. destruct (kalloc_ok END s _ (sp_free _ _ _ _ _ Hs)) as [E F]. cbn [default head tail] in E, F.
  pose proof (owned_pages _ _ _ _ _ Hs) as HP. rewrite Forall_forall in HP. assert (Ht : is_page END t) by (apply HP; by constructor).
  pose proof (sp_nodup _ _ _ _ _ Hs) as Hnd. cbn [app] in Hnd. apply NoDup_cons in Hnd as [Hn Hnd].
  set (s1 := set_freelist _ s) in *. set (s2 := set_mem (KString.memmove (k_mem s1) t src PGSIZE) s1).
  assert (Hm : forall x, k_mem s2 x = if decide (in_page t x) then k_mem s (src + (x - t)) else k_mem s x).
  { intros x. unfold s2. cbn. rewrite StringSpec.memmove_blit by (unfold PGSIZE; lia). change (k_mem s1) with (k_mem s). unfold in_page.
    case_decide; [rewrite blit_in by lia; f_equal; lia|by rewrite blit_out]. }
  assert (Hoff : forall x, ~ in_page t x -> k_mem s2 x = k_mem s x) by (intros x Hx; by rewrite Hm, decide_False).
  assert (Hok : mem_ok (k_mem s2)) by (intros x; rewrite Hm; case_decide; apply (free_mem _ _ _ (sp_free _ _ _ _ _ Hs))).
  assert (Hf2 : free END s2 l).
  { destruct F as [F1 F2 F3 F4 F5]. split; try done. apply (chain_off_page END (k_mem s1) _ _ _ t); try done.
    - by apply (is_page_aligned END).
    - intros H. apply Hn, elem_of_app. by left. }
  destruct (space_frame END s (t :: l) d pc s2 l Hs Hf2 Hnd) as (Hs2 & Htb & Hent).
  { intros x p Hp Hx. apply Hoff. intros Hy. apply Hn. replace t with p; [unfold held; rewrite !elem_of_app in *; auto|].
    apply (apart END p t x); try done. apply HP. unfold owned, held. rewrite !elem_of_app in *. auto. }
  exists s1, s2. split; [done|]. split; [done|]. split; [pose proof (is_page_pos _ _ Ht); lia|]. split; [done|]. split; [done|].
  unfold owned, held. rewrite Htb. split; [done|]. split; [done|]. split; [done|]. split; [|done].
  intros k Hk. rewrite Hm, decide_True by (unfold in_page; lia). f_equal. lia.
Qed.

(** Page [i] of the parent, in the middle of the copy. *)
Lemma parent_page s l d pc b i e : copied s l d pc b -> pm !! i = Some e ->
  let va := PGSIZE * i in let slot := table (pde (k_mem s) pgdir (PDX va)) + 4 * PTX va in
  is_u32 va /\ walkpgdir pgdir va false s = Ok slot s /\ slot <> 0 /\ load32 (k_mem s) slot = e /\ has e PTE_P = true /\ table e ∈ held (k_mem s0) pgdir pm.
Proof.
  intros [Hs Ho Hm _ _ _] Hi. destruct (parent_at s l _ Hm (sp_free _ _ _ _ _ Hs) Ho) as (Hp & _ & _).
  destruct (entry_slot END s l pgdir pm i e Hp Hi) as (Hu & _ & Ew & Hne & Hl & _). cbv zeta in *. split; [done|]. split; [done|]. split; [done|]. split; [done|].
  split; [apply (sp_entry _ _ _ _ _ Hp i e Hi)|]. unfold held. apply elem_of_app. left. apply elem_frames. by exists i, e.
Qed.

Lemma flags_range e : 0 <= PTE_FLAGS e < PGSIZE.
Proof. clear. unfold PTE_FLAGS. change 0xFFF with (Z.ones 12). rewrite Z.land_ones by lia. apply Z.mod_pos_bound. done. Qed.

Lemma flags_present e : has e PTE_P = true -> Z.lor (PTE_FLAGS e) PTE_P = PTE_FLAGS e.
Proof.
  clear. unfold has, PTE_FLAGS, PTE_P. intros H%negb_true_iff%Z.eqb_neq. apply Z.bits_inj'. intros n Hn. rewrite Z.lor_spec, !Z.land_spec.
  change 1 with (2 ^ 0) at 1. rewrite Z.pow2_bits_eqb by lia. destruct (Z.eqb_spec 0 n) as [<-|]; [|by rewrite orb_false_r].
  rewrite orb_true_r. change (Z.testbit 4095 0) with true. rewrite andb_true_r. symmetry. destruct (Z.testbit e 0) eqn:Eb; [done|]. exfalso. apply H.
  apply Z.bits_inj'. intros m Hm. rewrite Z.land_spec, Z.bits_0. change 1 with (2 ^ 0). rewrite Z.pow2_bits_eqb by lia.
  destruct (Z.eqb_spec 0 m) as [<-|]; [by rewrite Eb|by rewrite andb_false_r].
Qed.

(** One round: page [i] is copied. *)
Lemma copy_round s t l d pc i e : copied s (t :: l) d pc (PGSIZE * i) -> pm !! i = Some e -> 0 <= i ->
  exists s1 s2 r s3 l3, kalloc s = Ok t s1 /\ t <> 0 /\ memmove t (table e) PGSIZE s1 = Ok tt s2 /\
    mappages d (PGSIZE * i) PGSIZE (V2P t) (PTE_FLAGS e) s2 = Ok r s3 /\
    (r = 0 /\ copied s3 l3 d (<[i := pte_of t (PTE_FLAGS e)]> pc) (PGSIZE * i + PGSIZE) \/
     r = -1 /\ exists s4, kfree END t s3 = Ok tt s4 /\ copied s4 [t] d pc (PGSIZE * i)).
Proof.
  intros Hc Hi H0. destruct (parent_page _ _ _ _ _ i e Hc Hi) as (Hu & _ & _ & _ & HP & Hheld). destruct Hc as [Hs Ho Hm Hk Hpg Hv].
  assert (Htl : t ∈ l0) by (rewrite <- Ho; constructor).
  destruct (take_copy s t l d pc (table e) Hs) as (s1 & s2 & E1 & E2 & Hne & Ht & Hs2 & Ho2 & Hn2 & Hoff2 & Hcp2 & He2).
  { intros x Hx. by apply (parent_held x (table e)). }
  pose proof (sp_range _ _ _ _ _ HS i e Hi) as Hr. pose proof (Hpg i) as Hnone. rewrite decide_False in Hnone by lia.
  pose proof (flags_range e) as Hfl. destruct (pte_of_ok END t (PTE_FLAGS e) Ht Hfl) as (Nu & Np & Nt & Nf). rewrite flags_present in Nf by done.
  destruct (map_page_perm END s2 l d pc i t (PTE_FLAGS e) Hs2 Hnone Hr Ht Hn2 Hfl) as (r & s3 & l3 & E3 & Hres & Hm3 & Hk3).
  assert (Hin : forall p, p ∈ t :: owned s2 l d pc -> p ∈ l0) by (intros p Hp; by rewrite <- Ho, <- Ho2).
  assert (Htb : forall x, table_bytes s2 l d x -> exists p, p ∈ owned s2 l d pc /\ in_page p x) by (intros x; apply table_owned).
  assert (Hmem : off_free s3).
  { intros x Hx. rewrite Hm3, Hoff2; [by apply Hm|by apply Hx|]. intros (p & Hp & Hpx)%Htb. apply (Hx p); [|done]. apply Hin. by constructor. }
  assert (Htp : forall x, in_page t x -> ~ table_bytes s2 l d x).
  { intros x Hx (p & Hp & Hpx)%Htb. apply Hn2. replace t with p; [done|]. apply (apart END p t x); try done.
    by apply (proj1 (Forall_forall _ _) (owned_pages _ _ _ _ _ Hs2)). }
  assert (Hkp : keeps pc s s3).
  { intros j ej x Hj Hx. rewrite Hm3; [apply Hoff2|by apply (frame_apart END _ _ _ _ j ej x Hs2)].
    intros Hy. apply Hn2. apply elem_owned. right; left. apply elem_frames. exists j, ej. split; [done|].
    apply (apart END (table ej) t x); try done. by apply (space_frame_page END s2 l d pc j). }
  assert (Hker : forall va, KERNBASE <= va < 2 ^ 32 -> entry (k_mem s3) d va = kernel_pte DATA va).
  { intros va Hva. rewrite Hk3, He2 by (done || unfold is_u32, KERNBASE in *; lia). by apply Hk. }
  exists s1, s2, r, s3, l3. split; [done|]. split; [done|]. split; [done|]. split; [done|].
  destruct Hres as [(-> & Hs3 & Ho3)|(-> & -> & Hs3 & Ho3)]; [left|right]; (split; [done|]).
  - split; try done; [by rewrite Ho3, Ho2| |].
    + intros j. destruct (decide (j = i)) as [->|Hji].
      * rewrite decide_True by (unfold PGSIZE in *; lia). exists e, (pte_of t (PTE_FLAGS e)). split; [done|]. split; [by rewrite lookup_insert_eq|done].
      * rewrite lookup_insert_ne by done. specialize (Hpg j). unfold PGSIZE in *. repeat case_decide; try done; lia.
    + intros a Ha. destruct (decide (a / PGSIZE = i)) as [Ea|Ea].
      * unfold view. rewrite Ea, lookup_insert_eq, Nt, Hi. assert (Hmod : 0 <= a mod PGSIZE < PGSIZE) by (apply Z.mod_pos_bound; done).
        rewrite Hm3, Hcp2, Hm; [done| |done|].
        -- apply (parent_held _ (table e)); [done|]. unfold in_page. lia.
        -- apply Htp. unfold in_page. lia.
      * assert (a < PGSIZE * i) by (clear -Ea Ha; unfold PGSIZE in *; Z.div_mod_to_equations; lia).
        rewrite <- Hv by lia. rewrite <- (keeps_view pc s s3 a Hkp). unfold view. by rewrite lookup_insert_ne by done.
  - destruct (give_page END s3 t [] d pc Hs3 Ht) as (s4 & E4 & Hs4 & Ho4 & Hoff4 & He4); [by rewrite Ho3|].
    exists s4. split; [done|]. split; try done; [by rewrite Ho4, Ho3, Ho2| | |].
    + intros x Hx. rewrite Hoff4; [by apply Hmem|by apply Hx].
    + intros va Hva. rewrite He4 by (unfold is_u32, KERNBASE in *; lia). by apply Hker.
    + intros a Ha. rewrite <- Hv by lia. apply keeps_view. intros j ej x Hj Hx. rewrite Hoff4; [by apply (Hkp j ej)|].
      intros Hy. apply Hn2. rewrite <- Ho3. apply elem_owned. right; left. apply elem_frames. exists j, ej. split; [done|].
      apply (apart END (table ej) t x); try done. by apply (space_frame_page END s3 [] d pc j).
Qed.

Lemma copied_below s l d pc b : copied s l d pc b -> forall i e, pc !! i = Some e -> 0 <= i /\ PGSIZE * i < b.
Proof.
  intros Hc i e Hi. pose proof (cp_pages _ _ _ _ _ Hc i) as Hp. case_decide as Hb; [unfold PGSIZE in *; lia|by rewrite Hp in Hi].
Qed.

(** A copy that ran out of pages had almost all of them. *)
Lemma copied_short s l d pc i : copied s l d pc (PGSIZE * i) -> PGSIZE * i < sz -> (length l <= 1)%nat -> Z.of_nat (length l0) <= needed sz + 1.
Proof.
  intros Hc Hi Hl. rewrite <- (cp_owned _ _ _ _ _ Hc). assert (E : length (owned s l d pc) = (length l + length (owned s [] d pc))%nat) by (unfold owned; rewrite !length_app; done).
  rewrite E. pose proof (owned_short s d pc sz) as Hs. rewrite Nat2Z.inj_add. enough (Z.of_nat (length (owned s [] d pc)) <= needed sz) by lia.
  apply Hs; [|lia]. intros j e Hj. destruct (copied_below _ _ _ _ _ Hc j e Hj). split; [done|lia].
Qed.

(** Out of memory: the answer is 0 and the free pages are those of the call. *)
Definition refused (r : Z) (s : kstate) (l : list Z) : Prop :=
  r = 0 /\ free END s l /\ l ≡ₚ l0 /\ off_free s /\ Z.of_nat (length l0) <= needed sz + 1.

Lemma copy_loop_ok fuel s l d pc i : copied s l d pc (PGSIZE * i) -> 0 <= i -> PGSIZE * i < sz + PGSIZE -> 0 < Z.of_nat fuel -> sz - PGSIZE * i <= PGSIZE * (Z.of_nat fuel - 1) ->
  exists r s' l', copyuvm_loop END fuel pgdir d (PGSIZE * i) sz s = Ok r s' /\
    (refused r s' l' \/ r = d /\ exists pc' j, copied s' l' d pc' (PGSIZE * j) /\ sz <= PGSIZE * j < sz + PGSIZE).
Proof.
  revert s l pc i. induction fuel as [|fuel IH]; intros s l pc i Hc H0 Hb Hfu Hfuel; [lia|]. cbn [copyuvm_loop].
  destruct (Z.ltb_spec (PGSIZE * i) sz) as [Hlt|Hge].
  2:{ exists d, s, l. split; [done|]. right. split; [done|]. by exists pc, i. }
  destruct (proj2 (HF i)) as [e He]; [unfold PGSIZE in *; lia|].
  destruct (parent_page _ _ _ _ _ i e Hc He) as (Hu & Ew & Hne & Hl & HP & Hheld).
  rewrite (kbind_ok _ _ _ _ _ Ew), (proj2 (Z.eqb_neq _ _) Hne). unfold kbind at 1, load, gets. rewrite Hl, HP. cbn [negb]. cbv zeta.
  destruct l as [|t l].
  - destruct (kalloc_ok END s _ (sp_free _ _ _ _ _ (cp_space _ _ _ _ _ Hc))) as [E F]. cbn [default head tail] in E, F. rewrite (kbind_ok _ _ _ _ _ E), Z.eqb_refl.
    set (s1 := set_freelist _ s) in *. assert (Hc1 : copied s1 [] d pc (PGSIZE * i)).
    { destruct Hc as [C1 C2 C3 C4 C5 C6]. split; try done. by apply (vs_space _ _ _ _ _ _ _ _ (space_quiet END s [] d pc s1 C1 eq_refl F)). }
    destruct (undo _ _ _ _ _ Hc1) as (s' & l' & E' & Hf & Hl' & Hm). rewrite (kbind_ok _ _ _ _ _ E'). exists 0, s', l'. split; [done|]. left.
    split_and!; try done. by apply (copied_short s1 [] d pc i); [| |cbn; lia].
  - destruct (copy_round s t l d pc i e Hc He H0) as (s1 & s2 & r & s3 & l3 & E1 & Ht & E2 & E3 & Hres).
    rewrite (kbind_ok _ _ _ _ _ E1), (proj2 (Z.eqb_neq _ _) Ht). change (P2V (PTE_ADDR e)) with (table e). rewrite (kbind_ok _ _ _ _ _ E2), (kbind_ok _ _ _ _ _ E3).
    destruct Hres as [(-> & Hc3)|(-> & s4 & E4 & Hc4)]; cbn [Z.ltb Z.compare].
    + assert (Hn : u32 (PGSIZE * i + PGSIZE) = PGSIZE * (i + 1)) by (rewrite u32_small; unfold is_u32, KERNBASE, PGSIZE in *; lia). rewrite Hn.
      replace (PGSIZE * i + PGSIZE) with (PGSIZE * (i + 1)) in Hc3 by lia. apply (IH s3 l3 _ (i + 1) Hc3); unfold PGSIZE in *; lia.
    + rewrite (kbind_ok _ _ _ _ _ E4). destruct (undo _ _ _ _ _ Hc4) as (s' & l' & E' & Hf & Hl' & Hm). rewrite (kbind_ok _ _ _ _ _ E').
      exists 0, s', l'. split; [done|]. left. split_and!; try done. by apply (copied_short s4 [t] d pc i); [| |cbn; lia].
Qed.

Lemma copy_done s l d pc j : copied s l d pc (PGSIZE * j) -> sz <= PGSIZE * j < sz + PGSIZE ->
  (forall i, PTE_FLAGS <$> pc !! i = PTE_FLAGS <$> pm !! i) /\ (forall a, view (k_mem s) pc a = view (k_mem s0) pm a).
Proof.
  intros Hc Hj. assert (Hout : forall i, ~ (0 <= PGSIZE * i < PGSIZE * j) -> pc !! i = None /\ pm !! i = None).
  { intros i Hi. pose proof (cp_pages _ _ _ _ _ Hc i) as Hp. rewrite decide_False in Hp by done. split; [done|]. apply eq_None_not_Some. intros Hs. apply HF in Hs. lia. }
  split.
  - intros i. pose proof (cp_pages _ _ _ _ _ Hc i) as Hp. case_decide as Hi; [|by destruct (Hout i Hi) as [-> ->]].
    destruct Hp as (e & e' & -> & -> & Hf). cbn. by rewrite Hf.
  - intros a. destruct (decide (0 <= a < PGSIZE * j)) as [Ha|Ha]; [by apply (cp_view _ _ _ _ _ Hc)|]. unfold view.
    destruct (Hout (a / PGSIZE)) as [-> ->]; [|done]. intros Hi. apply Ha. clear -Hi. unfold PGSIZE in *. Z.div_mod_to_equations. lia.
Qed.

(** C11: copyuvm, which gives fork the memory of the child, copies the address
    space: the copy has its own pages, taken from the free ones, with the
    bytes and the permissions of the parent's pages and the kernel half, and
    the parent is as it was; or the answer is 0, when the free pages are not
    enough, and they are all free again. *)
Theorem copyuvm_copies : exists r s' l', copyuvm END DATA pgdir sz s0 = Ok r s' /\
  space END s' l' pgdir pm /\ (forall a, view (k_mem s') pm a = view (k_mem s0) pm a) /\
  (r = 0 /\ l' ≡ₚ l0 /\ Z.of_nat (length l0) <= needed sz + 1 \/
   r <> 0 /\ exists pc, space END s' l' r pc /\ owned s' l' r pc ≡ₚ l0 /\
     (forall i, PTE_FLAGS <$> pc !! i = PTE_FLAGS <$> pm !! i) /\ (forall a, view (k_mem s') pc a = view (k_mem s0) pm a) /\
     (forall va, KERNBASE <= va < 2 ^ 32 -> entry (k_mem s') r va = kernel_pte DATA va)).
Proof.
  assert (Hparent : forall s l h, off_free s -> free END s l -> l ++ h ≡ₚ l0 -> space END s l pgdir pm /\ (forall a, view (k_mem s) pm a = view (k_mem s0) pm a)).
  { intros s l h Hm Hf Hl. by destruct (parent_at s l h Hm Hf Hl) as (? & _ & ?). }
  unfold copyuvm. destruct (setupkvm_ok END HEND DATA HDATA s0 l0 (sp_free _ _ _ _ _ HS)) as (d & s1 & l1 & E & Hm & Hr). rewrite (kbind_ok _ _ _ _ _ E).
  destruct Hr as [(Hne & Hs & Ho & He)|(-> & Hf & Hl & Hn)].
  2:{ exists 0, s1, l1. split; [done|]. destruct (Hparent s1 l1 [] Hm Hf) as [? ?]; [by rewrite app_nil_r|]. split; [done|]. split; [done|]. left. split; [done|]. split; [done|].
      enough (needed 0 <= needed sz) by lia. unfold needed, PGSIZE. clear -HSZ. Z.div_mod_to_equations. lia. }
  rewrite (proj2 (Z.eqb_neq _ _) Hne). assert (Hc : copied s1 l1 d ∅ (PGSIZE * 0)).
  { split; try done; [| |lia]; [intros va Hva; apply He; unfold is_u32, KERNBASE in *; lia|]. intros i. rewrite decide_False by lia. apply lookup_empty. }
  destruct (copy_loop_ok (Z.to_nat (sz / PGSIZE) + 2) s1 l1 d ∅ 0 Hc) as (r & s' & l' & E' & Hr); try (clear -HSZ; unfold PGSIZE; Z.div_mod_to_equations; lia).
  exists r, s', l'. split; [done|]. destruct Hr as [(-> & Hf & Hl & Hm' & Hn)|(-> & pc & j & Hc' & Hj)].
  - destruct (Hparent s' l' [] Hm' Hf) as [? ?]; [by rewrite app_nil_r|]. split; [done|]. split; [done|]. by left.
  - destruct Hc' as [C1 C2 C3 C4 C5 C6]. destruct (Hparent s' l' _ C3 (sp_free _ _ _ _ _ C1) C2) as [? ?]. split; [done|]. split; [done|]. right. split; [done|].
    exists pc. split; [done|]. split; [done|]. destruct (copy_done s' l' d pc j) as [? ?]; [by split|done|]. done.
Qed.
End copy.

(** ** An example *)

(** The kernel's free pages after kinit, one of which becomes the directory of
    an empty address space. *)
Lemma ex_pages : exists s l pgdir, space END0 s l pgdir ∅ /\ 3800 <= Z.of_nat (length l).
Proof.
  destruct (freerange_frees_all END0 no_pages 0x80400000 0x8E000000) as (s & l & _ & Hf & Hl); try (unfold KERNBASE, PHYSTOP, PGSIZE, END0; lia).
  { split; [apply zeroed_ok|done|done|constructor|constructor]. }
  assert (Hlen : (4900 <= length l)%nat).
  { set (some := (fun k => 0x80400000 + PGSIZE * Z.of_nat k) <$> seq 0 4900).
    assert (Hsub : some ⊆+ l).
    { apply NoDup_submseteq; [apply NoDup_fmap_2, NoDup_seq; intros a b; unfold PGSIZE; lia|].
      intros x (k & -> & Hk%elem_of_seq)%list_elem_of_fmap. apply Hl. unfold PGSIZE. split; [|lia]. clear -Hk. Z.div_mod_to_equations. lia. }
    apply submseteq_length in Hsub. unfold some in Hsub. by rewrite length_fmap, length_seq in Hsub. }
  destruct (setupkvm_ok END0 ltac:(done) 0x80108000 ltac:(done) s l Hf) as (r & s' & l' & _ & _ & [(_ & Hs & Ho & _)|(_ & _ & _ & Hn)]).
  - exists s', l', r. split; [done|]. apply Permutation_length in Ho. unfold owned in Ho. rewrite held_empty, !length_app in Ho. cbn [length] in Ho.
    pose proof (tables_length (k_mem s') r). lia.
  - change (needed 0) with 1025 in Hn. lia.
Qed.


(** A process of two pages is copied. *)
Lemma copyuvm_copies_witness : exists s l pgdir pm r s' pc l',
  full 5000 pm /\ copyuvm END0 0x80108000 pgdir 5000 s = Ok r s' /\ space END0 s' l' r pc /\ (forall a, view (k_mem s') pc a = view (k_mem s) pm a) /\ space END0 s l pgdir pm.
Proof.
  destruct ex_pages as (s & l & pgdir & Hs & Hl).
  destruct (allocuvm_ok END0 ltac:(done) s l pgdir ∅ 0 5000 Hs) as (r & s1 & l1 & pm & _ & V & _ & Hr); try done.
  { intros i. rewrite lookup_empty. split; [by intros []|lia]. }
  assert (Hlen : 3800 <= Z.of_nat (length (owned s l pgdir ∅))) by (unfold owned; rewrite length_app; lia).
  destruct Hr as [(-> & Hf & _)|(_ & _ & Hn)]; [|change (needed 5000) with 1027 in Hn; lia].
  destruct (copyuvm_copies END0 ltac:(done) 0x80108000 ltac:(done) s1 l1 pgdir pm 5000 (vs_space _ _ _ _ _ _ _ _ V) Hf ltac:(done)) as (r & s' & l' & E & _ & _ & Hr).
  destruct Hr as [(-> & _ & Hn)|(_ & pc & Hs' & _ & _ & Hv & _)].
  - exfalso. change (needed 5000) with 1027 in Hn.
    pose proof (Permutation_length (vs_owned _ _ _ _ _ _ _ _ V)) as Ho. 
    pose proof (owned_short s1 pgdir pm 5000) as Hh. unfold owned in Hh at 1. rewrite app_nil_l in Hh. change (needed 5000) with 1027 in Hh.
    unfold owned in Ho at 1. rewrite length_app in Ho. enough (Z.of_nat (length (held (k_mem s1) pgdir pm)) <= 1027) by lia. apply Hh; [|lia].
    intros i e Hi. assert (is_Some (pm !! i)) as Hx by (by exists e). apply Hf in Hx. unfold PGSIZE in *. lia.
  - exists s1, l1, pgdir, pm, r, s', pc, l'. split_and!; try done. apply (vs_space _ _ _ _ _ _ _ _ V).
Defined.
