(* ===== verification/Pipe.v ===== *)
(** * Pipes (pipe.c)

    A pipe is read and written by processes that hold its lock except while
    they sleep, so a call is a sequence of uninterrupted segments: from the
    acquire, or from the return of sleep, to the next sleep or to the return.
    The first part gives the segments as functions of the pipe; the second
    part interleaves the segments of any number of processes, with the two
    sleep channels [&p->nread] and [&p->nwrite]. *)

From S2P Require Import Prelude Mem.
#[local] Open Scope Z_scope.

Definition PIPESIZE : Z := 512.

Record pipe := {
  data : mem;            (* data[PIPESIZE] *)
  nread : Z;             (* uint *)
  nwrite : Z;            (* uint *)
  readopen : bool;
  writeopen : bool }.

Definition set_read (n : Z) (p : pipe) : pipe :=
  {| data := data p; nread := n; nwrite := nwrite p; readopen := readopen p; writeopen := writeopen p |}.
Definition set_write (d : mem) (n : Z) (p : pipe) : pipe :=
  {| data := d; nread := nread p; nwrite := n; readopen := readopen p; writeopen := writeopen p |}.

(** The pipe of pipealloc; the bytes of the page it sits in are junk. *)
Definition pipe_init (junk : mem) : pipe :=
  {| data := junk; nread := 0; nwrite := 0; readopen := true; writeopen := true |}.

(** The wakeups a segment performs. *)
Inductive channel := Nread | Nwrite.
#[export] Instance channel_eq_dec : EqDecision channel.
Proof. solve_decision. Defined.

(** How a segment ends: asleep on a channel, or returning a result. *)
Inductive segment (A : Type) := Sleep (c : channel) (a : A) | Return (r : Z).
Arguments Sleep {A} c a.
Arguments Return {A} r.

(** ** pipewrite

    The loop from byte [i] on, [todo] being the bytes addr[i..n): the pipe,
    the wakeups and how the segment ends; asleep, it keeps what is left. *)
Fixpoint pipewrite_loop (p : pipe) (killed : bool) (todo : list Z) (n : Z)
  : pipe * list channel * segment (list Z) :=
  match todo with
  | [] => (p, [Nread], Return n)
  | c :: todo' =>
      if nwrite p =? u32 (nread p + PIPESIZE) then
        if negb (readopen p) || killed then (p, [], Return (-1))
        else (p, [Nread], Sleep Nwrite todo)
      else
        pipewrite_loop
          (set_write (upd (data p) (nwrite p mod PIPESIZE) c) (u32 (nwrite p + 1)) p)
          killed todo' n
  end.

(** [pipewrite(p, addr, n)] up to its first sleep or its return; a negative
    [n] writes nothing. *)
Definition pipewrite (p : pipe) (killed : bool) (m : mem) (addr n : Z) :=
  pipewrite_loop p killed (map (fun i => m (addr + Z.of_nat i)) (seq 0 (Z.to_nat n))) n.

(** ** piperead *)

(** The copy loop: at most [n] bytes, stopping when the pipe is empty. *)
Fixpoint piperead_copy (p : pipe) (n : nat) : pipe * list Z :=
  match n with
  | O => (p, [])
  | S n =>
      if nread p =? nwrite p then (p, [])
      else
        let c := data p (nread p mod PIPESIZE) in
        let '(p', cs) := piperead_copy (set_read (u32 (nread p + 1)) p) n in
        (p', c :: cs)
  end.

(** A segment of [piperead(p, addr, n)]: the pipe, the bytes stored from
    [addr] up, the wakeups, and the end. *)
Definition piperead (p : pipe) (killed : bool) (n : Z)
  : pipe * list Z * list channel * segment unit :=
  if (nread p =? nwrite p) && writeopen p then
    if killed then (p, [], [], Return (-1)) else (p, [], [], Sleep Nread tt)
  else
    let '(p', cs) := piperead_copy p (Z.to_nat n) in
    (p', cs, [Nwrite], Return (Z.of_nat (length cs))).

(** [pipeclose(p, writable)]: the pipe, the wakeup, and whether the page is
    given back. *)
Definition pipeclose (p : pipe) (writable : bool) : pipe * list channel * bool :=
  let '(p, w) :=
    if writable
    then ({| data := data p; nread := nread p; nwrite := nwrite p;
             readopen := readopen p; writeopen := false |}, [Nread])
    else ({| data := data p; nread := nread p; nwrite := nwrite p;
             readopen := false; writeopen := writeopen p |}, [Nwrite]) in
  (p, w, negb (readopen p) && negb (writeopen p)).

(** ** The processes that use a pipe *)

(** A process inside pipewrite has [todo] bytes left of [n]; inside piperead
    it asks for [n] bytes.  [asleep] until a wakeup on its channel. *)
Inductive user :=
| Outside
| Writing (asleep : bool) (todo : list Z) (n : Z)
| Reading (asleep : bool) (n : Z).

Record sys := {
  the_pipe : pipe;
  users : nat -> user;
  sent : list Z;        (* the bytes stored in the pipe so far *)
  received : list Z }.  (* the bytes handed to readers so far *)

(** [wakeup(chan)]: every sleeper of that channel runs again. *)
Definition wake1 (c : channel) (u : user) : user :=
  match c, u with
  | Nread, Reading true n => Reading false n
  | Nwrite, Writing true todo n => Writing false todo n
  | _, _ => u
  end.

Definition wake (cs : list channel) (f : nat -> user) : nat -> user :=
  fun i => fold_left (fun u c => wake1 c u) cs (f i).

Definition after_write (s : segment (list Z)) (n : Z) : user :=
  match s with Sleep _ todo => Writing true todo n | Return _ => Outside end.

Definition after_read (s : segment unit) (n : Z) : user :=
  match s with Sleep _ _ => Reading true n | Return _ => Outside end.

(** The bytes a write segment stored: those of [todo] no longer to do. *)
Definition stored (todo : list Z) (p p' : pipe) : list Z :=
  take (Z.to_nat (u32 (nwrite p' - nwrite p))) todo.

(** A process calls piperead or pipewrite through a file it holds open, so an
    end that is in use is not closed and an end that is closed is not used.
    [kills] says whether processes may be killed: a sleeping process then
    wakes up, and a running one finds [myproc()->killed] set. *)
Inductive pstep (kills : bool) : sys -> sys -> Prop :=
| step_enter_write i todo n s :
    users s i = Outside -> writeopen (the_pipe s) = true -> Z.of_nat (length todo) = Z.max 0 n ->
    pstep kills s {| the_pipe := the_pipe s; users := <[i := Writing false todo n]> (users s);
                     sent := sent s; received := received s |}
| step_enter_read i n s :
    users s i = Outside -> readopen (the_pipe s) = true ->
    pstep kills s {| the_pipe := the_pipe s; users := <[i := Reading false n]> (users s);
                     sent := sent s; received := received s |}
| step_write i todo n s killed p' w seg :
    users s i = Writing false todo n -> (killed = true -> kills = true) ->
    pipewrite_loop (the_pipe s) killed todo n = (p', w, seg) ->
    pstep kills s {| the_pipe := p'; users := wake w (<[i := after_write seg n]> (users s));
                     sent := sent s ++ stored todo (the_pipe s) p'; received := received s |}
| step_read i n s killed p' cs w seg :
    users s i = Reading false n -> (killed = true -> kills = true) ->
    piperead (the_pipe s) killed n = (p', cs, w, seg) ->
    pstep kills s {| the_pipe := p'; users := wake w (<[i := after_read seg n]> (users s));
                     sent := sent s; received := received s ++ cs |}
| step_close writable s p' w freed :
    (forall i, match users s i with
               | Outside => True
               | Writing _ _ _ => writable = false
               | Reading _ _ => writable = true
               end) ->
    pipeclose (the_pipe s) writable = (p', w, freed) ->
    pstep kills s {| the_pipe := p'; users := wake w (users s);
                     sent := sent s; received := received s |}
| step_killed i s :
    kills = true ->
    pstep kills s {| the_pipe := the_pipe s;
       users := <[i := match users s i with
                       | Writing _ todo n => Writing false todo n
                       | Reading _ n => Reading false n
                       | Outside => Outside end]> (users s);
       sent := sent s; received := received s |}.

Definition sys_init (junk : mem) : sys :=
  {| the_pipe := pipe_init junk; users := fun _ => Outside; sent := []; received := [] |}.

(** ** The contents of the ring *)

Definition count (p : pipe) : Z := u32 (nwrite p - nread p).

Definition contents (p : pipe) : list Z :=
  map (fun i => data p ((nread p + Z.of_nat i) mod PIPESIZE)) (seq 0 (Z.to_nat (count p))).

Record wf (p : pipe) : Prop := {
  wf_r : is_u32 (nread p);
  wf_w : is_u32 (nwrite p);
  wf_count : count p <= PIPESIZE }.

Lemma count_range p : 0 <= count p < 2 ^ 32.
Proof. apply u32_range. Qed.

Lemma length_contents p : Z.of_nat (length (contents p)) = count p.
Proof. unfold contents. rewrite length_map, length_seq. pose proof (count_range p). lia. Qed.

(** The two comparisons of the code, in terms of the number of bytes. *)
Lemma full_iff p : wf p -> (nwrite p = u32 (nread p + PIPESIZE) <-> count p = PIPESIZE).
Proof.
  intros [Hr Hw _]. unfold count, u32, is_u32, PIPESIZE in *. change (2 ^ 32) with 4294967296 in *.
  Z.div_mod_to_equations. lia.
Qed.

Lemma empty_iff p : wf p -> (nread p = nwrite p <-> count p = 0).
Proof.
  intros [Hr Hw _]. unfold count, u32, is_u32 in *. change (2 ^ 32) with 4294967296 in *.
  Z.div_mod_to_equations. lia.
Qed.

Lemma empty_contents p : wf p -> (nread p = nwrite p <-> contents p = []).
Proof.
  intros H. rewrite empty_iff by done. pose proof (length_contents p).
  destruct (contents p); cbn in *; split; intros; lia || done.
Qed.

Lemma u32_mod_size x : u32 x mod PIPESIZE = x mod PIPESIZE.
Proof.
  unfold u32, PIPESIZE. change (2 ^ 32) with 4294967296. Z.div_mod_to_equations. lia.
Qed.

Lemma put_contents p c :
  wf p -> nwrite p <> u32 (nread p + PIPESIZE) ->
  let p' := set_write (upd (data p) (nwrite p mod PIPESIZE) c) (u32 (nwrite p + 1)) p in
  wf p' /\ contents p' = contents p ++ [c] /\ u32 (nwrite p' - nwrite p) = 1.
Proof.
  intros Hwf Hfull p'. rewrite full_iff in Hfull by done. pose proof (count_range p) as Hc.
  pose proof Hwf as [Hr Hw Hcnt].
  assert (Ec : count p' = count p + 1 /\ u32 (nwrite p' - nwrite p) = 1).
  { unfold p', count, u32, is_u32, PIPESIZE in *; cbn in *. change (2 ^ 32) with 4294967296 in *.
    Z.div_mod_to_equations. lia. }
  destruct Ec as [Ec E1]. split; [|split; [|done]].
  - split; [done|apply u32_range|]. rewrite Ec. lia.
  - unfold contents. rewrite Ec, Z2Nat.inj_add, seq_app, map_app by lia. cbn [plus]. f_equal.
    + apply map_ext_in. intros i [_ Hi]%in_seq. cbn. apply upd_ne.
      intros E. unfold count, u32, is_u32, PIPESIZE in *. change (2 ^ 32) with 4294967296 in *.
      Z.div_mod_to_equations. lia.
    + change (Z.to_nat 1) with 1%nat. cbn [seq map]. f_equal.
      cbn. replace ((nread p + Z.of_nat (Z.to_nat (count p))) mod PIPESIZE) with (nwrite p mod PIPESIZE); [apply upd_eq|].
      unfold count in *. rewrite Z2Nat.id by lia.
      rewrite <- (u32_mod_size (nread p + _)). f_equal.
      unfold u32, is_u32 in *. change (2 ^ 32) with 4294967296 in *. Z.div_mod_to_equations. lia.
Qed.

Lemma get_contents p :
  wf p -> nread p <> nwrite p ->
  let p' := set_read (u32 (nread p + 1)) p in
  wf p' /\ contents p = data p (nread p mod PIPESIZE) :: contents p'.
Proof.
  intros Hwf Hne p'. rewrite empty_iff in Hne by done. pose proof (count_range p) as Hc.
  pose proof Hwf as [Hr Hw Hcnt].
  assert (Ec : count p' = count p - 1).
  { unfold p', count, u32, is_u32, PIPESIZE in *; cbn in *. change (2 ^ 32) with 4294967296 in *.
    Z.div_mod_to_equations. lia. }
  split.
  - split; [apply u32_range|done|]. rewrite Ec. lia.
  - unfold contents. rewrite Ec. replace (Z.to_nat (count p)) with (S (Z.to_nat (count p - 1))) by lia.
    cbn [seq map]. rewrite Z.add_0_r. f_equal. rewrite <- seq_shift, map_map.
    apply map_ext. intros i. cbn. f_equal. rewrite <- u32_mod_size.
    rewrite <- (u32_mod_size (u32 _ + _)). f_equal.
    unfold u32. rewrite Z.add_mod_idemp_l by lia. f_equal. lia.
Qed.

(** ** The loops *)

(** What a write segment did: it stored the first [k] bytes, and then. *)
Record write_end (p : pipe) (killed : bool) (todo : list Z) (n : Z) (k : nat)
    (p' : pipe) (w : list channel) (seg : segment (list Z)) : Prop := {
  we_wf : wf p';
  we_open : readopen p' = readopen p /\ writeopen p' = writeopen p;
  we_k : (k <= length todo)%nat /\ Z.of_nat k = count p' - count p;
  we_nwrite : nwrite p' = u32 (nwrite p + Z.of_nat k);
  we_contents : contents p' = contents p ++ take k todo;
  we_seg : match seg with
           | Sleep c rest => c = Nwrite /\ w = [Nread] /\ count p' = PIPESIZE
                             /\ readopen p = true /\ rest = drop k todo
           | Return r => (r = n /\ w = [Nread] /\ k = length todo)
                         \/ (r = -1 /\ w = [] /\ count p' = PIPESIZE /\ (readopen p = false \/ killed = true))
           end }.

Lemma pipewrite_loop_ok p killed todo n p' w seg :
  wf p -> pipewrite_loop p killed todo n = (p', w, seg) ->
  exists k, write_end p killed todo n k p' w seg.
Proof.
  revert p. induction todo as [|c todo IH]; intros p Hwf; cbn [pipewrite_loop].
  { intros [= <- <- <-]. exists 0%nat. split; try done; cbn; try lia.
    - rewrite Z.add_0_r. symmetry. apply u32_small, Hwf.
    - by rewrite app_nil_r.
    - by left. }
  destruct (Z.eqb_spec (nwrite p) (u32 (nread p + PIPESIZE))) as [E|E].
  - assert (Hfull : count p = PIPESIZE) by (by apply full_iff).
    destruct (negb (readopen p) || killed) eqn:Eb; intros [= <- <- <-]; exists 0%nat;
      (split; try done; cbn; try lia; [rewrite Z.add_0_r; symmetry; apply u32_small, Hwf|by rewrite app_nil_r|]).
    + right. split; [done|]. split; [done|]. split; [done|]. destruct (readopen p); auto.
    + apply orb_false_iff in Eb as [Eb _]. by destruct (readopen p).
  - intros Hrun. destruct (put_contents p c Hwf E) as (Hwf1 & Hc1 & _).
    set (p1 := set_write _ _ p) in *. destruct (IH p1 Hwf1 Hrun) as (k & [K1 K2 [K3 K3'] K4 K5 K6]).
    assert (E1 : count p1 = count p + 1).
    { rewrite <- !length_contents, Hc1, length_app. cbn. lia. }
    exists (S k). split; cbn [length].
    + done.
    + exact K2.
    + lia.
    + rewrite K4. cbn. unfold u32. rewrite Z.add_mod_idemp_l by lia. f_equal. lia.
    + rewrite K5, Hc1, <- app_assoc. done.
    + destruct seg as [ch rest|r]; [exact K6|]. destruct K6 as [(? & ? & ?)|?]; [left|by right]. lia || auto.
Qed.

Lemma stored_take p killed todo n k p' w seg :
  wf p -> write_end p killed todo n k p' w seg -> stored todo p p' = take k todo.
Proof.
  intros Hwf [K1 _ [_ K3] K4 _ _]. unfold stored. f_equal. rewrite K4.
  pose proof (wf_count _ K1). pose proof (count_range p).
  unfold u32. rewrite Zminus_mod_idemp_l. rewrite Z.mod_small; [lia|]. unfold PIPESIZE in *. lia.
Qed.

Lemma piperead_copy_ok p n p' cs :
  wf p -> piperead_copy p n = (p', cs) ->
  wf p' /\ contents p = cs ++ contents p' /\ cs = take n (contents p)
  /\ readopen p' = readopen p /\ writeopen p' = writeopen p.
Proof.
  revert p p' cs. induction n as [|n IH]; intros p p' cs Hwf; cbn [piperead_copy].
  { by intros [= <- <-]. }
  destruct (Z.eqb_spec (nread p) (nwrite p)) as [E|E].
  - intros [= <- <-]. apply empty_contents in E; [|done]. by rewrite E.
  - destruct (get_contents p Hwf E) as (Hwf1 & Hc1). set (p1 := set_read _ p) in *.
    destruct (piperead_copy p1 n) as [p2 cs2] eqn:E2. intros [= <- <-].
    destruct (IH p1 p2 cs2 Hwf1 E2) as (H1 & H2 & H3 & H4 & H5).
    split; [done|]. rewrite Hc1. cbn. split; [by rewrite H2 at 1|]. split; [by rewrite H3|done].
Qed.

(** ** The interleaved processes *)

Lemma wake_reading w f i n :
  wake w f i = Reading true n -> f i = Reading true n /\ Nread ∉ w.
Proof.
  unfold wake. induction w as [|c w IH] using rev_ind; cbn.
  - intros H. split; [done|]. apply not_elem_of_nil.
  - rewrite fold_left_app. cbn. destruct c; destruct (fold_left _ w (f i)) as [|[] ? ?|[] ?] eqn:E; cbn;
      intros H; try done; injection H as ->; destruct (IH eq_refl) as [H1 H2]; (split; [done|]);
      rewrite not_elem_of_app; (split; [done|]); by apply not_elem_of_cons; split; [|apply not_elem_of_nil].
Qed.

Lemma wake_writing w f i todo n :
  wake w f i = Writing true todo n -> f i = Writing true todo n /\ Nwrite ∉ w.
Proof.
  unfold wake. induction w as [|c w IH] using rev_ind; cbn.
  - intros H. split; [done|]. apply not_elem_of_nil.
  - rewrite fold_left_app. cbn. destruct c; destruct (fold_left _ w (f i)) as [|[] ? ?|[] ?] eqn:E; cbn;
      intros H; try done; injection H as -> ->; destruct (IH eq_refl) as [H1 H2]; (split; [done|]);
      rewrite not_elem_of_app; (split; [done|]); by apply not_elem_of_cons; split; [|apply not_elem_of_nil].
Qed.

(** What a process may be while the pipe is as it is: readers hold the read
    end open, sleeping readers have nothing to read, and so on. *)
Definition user_ok (kills : bool) (p : pipe) (u : user) : Prop :=
  match u with
  | Outside => True
  | Reading asleep _ =>
      readopen p = true /\ (asleep = true -> kills = false -> contents p = [] /\ writeopen p = true)
  | Writing asleep _ _ =>
      writeopen p = true /\ (asleep = true -> kills = false -> count p = PIPESIZE /\ readopen p = true)
  end.

Record inv (kills : bool) (s : sys) : Prop := {
  inv_wf : wf (the_pipe s);
  inv_fifo : sent s = received s ++ contents (the_pipe s);
  inv_users : forall i, user_ok kills (the_pipe s) (users s i) }.

Lemma wake_cases w f i :
  wake w f i = f i
  \/ (exists n, f i = Reading true n /\ wake w f i = Reading false n)
  \/ (exists todo n, f i = Writing true todo n /\ wake w f i = Writing false todo n).
Proof.
  unfold wake. induction w as [|c w IH] using rev_ind; cbn; [by left|].
  rewrite fold_left_app. cbn. destruct IH as [->|[(n & E & ->)|(todo & n & E & ->)]].
  - destruct c, (f i) as [|[]|[]]; cbn; eauto 6.
  - right; left. exists n. by destruct c.
  - right; right. exists todo, n. by destruct c.
Qed.

(** A process other than the one that ran keeps its place, or is woken. *)
Lemma user_ok_wake kills p p' w f i :
  user_ok kills p (f i) ->
  (forall a n, f i = Reading a n -> readopen p = true -> readopen p' = true) ->
  (forall a todo n, f i = Writing a todo n -> writeopen p = true -> writeopen p' = true) ->
  (kills = false -> Nread ∉ w -> (exists n, f i = Reading true n) ->
     contents p = [] -> writeopen p = true -> contents p' = [] /\ writeopen p' = true) ->
  (kills = false -> Nwrite ∉ w -> (exists todo n, f i = Writing true todo n) ->
     count p = PIPESIZE -> readopen p = true -> count p' = PIPESIZE /\ readopen p' = true) ->
  user_ok kills p' (wake w f i).
Proof.
  intros Hok Hr Hw Hrs Hws.
  destruct (wake_cases w f i) as [E|[(n & E1 & E2)|(todo & n & E1 & E2)]].
  - rewrite E. destruct (f i) as [|a todo n|a n] eqn:Ef; cbn in *; [done|..]; destruct Hok as [H1 H2].
    + split; [by eapply Hw|]. intros -> Hk. destruct (H2 eq_refl Hk).
      assert (Hnw : Nwrite ∉ w) by (by eapply wake_writing; rewrite E).
      apply Hws; eauto.
    + split; [by eapply Hr|]. intros -> Hk. destruct (H2 eq_refl Hk).
      assert (Hnr : Nread ∉ w) by (by eapply wake_reading; rewrite E).
      apply Hrs; eauto.
  - rewrite E1 in *. rewrite E2. cbn in *. split; [|done]. eapply Hr; [done|]. apply Hok.
  - rewrite E1 in *. rewrite E2. cbn in *. split; [|done]. eapply Hw; [done|]. apply Hok.
Qed.

Lemma wake_outside w f i : f i = Outside -> wake w f i = Outside.
Proof. intros E. destruct (wake_cases w f i) as [->|[(n & E1 & _)|(todo & n & E1 & _)]]; congruence. Qed.

(** The process that ran, once its new place is known to be right. *)
Lemma user_ok_self kills p w f i : user_ok kills p (f i) -> user_ok kills p (wake w f i).
Proof. intros H. by apply (user_ok_wake kills p p). Qed.

Lemma inv_write kills s i todo n killed p' w seg :
  inv kills s -> users s i = Writing false todo n -> (killed = true -> kills = true) ->
  pipewrite_loop (the_pipe s) killed todo n = (p', w, seg) ->
  inv kills {| the_pipe := p'; users := wake w (<[i := after_write seg n]> (users s));
               sent := sent s ++ stored todo (the_pipe s) p'; received := received s |}.
Proof.
  intros [Hwf Hfifo Hu] Hi Hk Hrun.
  destruct (pipewrite_loop_ok _ _ _ _ _ _ _ Hwf Hrun) as (k & K).
  pose proof (stored_take _ _ _ _ _ _ _ _ Hwf K) as Hst. destruct K as [K1 [K2 K2'] [K3 K3'] K4 K5 K6].
  split; cbn [the_pipe users sent received]; [done| |].
  { by rewrite Hst, K5, Hfifo, app_assoc. }
  intros j. destruct (decide (i = j)) as [<-|Hij].
  - apply user_ok_self. rewrite fn_lookup_insert. pose proof (Hu i) as Hi'. rewrite Hi in Hi'.
    destruct seg as [c rest|r]; cbn; [|done]. destruct K6 as (_ & _ & Hful & Hro & _).
    rewrite K2, K2'. split; [apply Hi'|]. done.
  - assert (Hf : <[i:=after_write seg n]> (users s) j = users s j) by (by apply fn_lookup_insert_ne).
    apply (user_ok_wake kills (the_pipe s)); rewrite ?Hf; [exact (Hu j)|by intros; rewrite K2|by intros; rewrite K2'|..].
    + intros Hkl Hw [m Hm] _ _. destruct seg as [c rest|r].
      * destruct K6 as (_ & -> & _). destruct Hw. constructor.
      * destruct K6 as [(_ & -> & _)|(_ & _ & _ & [Hro|Hkd])].
        -- destruct Hw. constructor.
        -- pose proof (Hu j) as Hj. rewrite Hm in Hj. destruct Hj as [Hj _]. congruence.
        -- specialize (Hk Hkd). congruence.
    + intros Hkl _ _ Hfull Hro. rewrite K2. split; [|done].
      pose proof (wf_count _ K1). lia.
Qed.

Lemma inv_read kills s i n killed p' cs w seg :
  inv kills s -> users s i = Reading false n -> (killed = true -> kills = true) ->
  piperead (the_pipe s) killed n = (p', cs, w, seg) ->
  inv kills {| the_pipe := p'; users := wake w (<[i := after_read seg n]> (users s));
               sent := sent s; received := received s ++ cs |}.
Proof.
  intros [Hwf Hfifo Hu] Hi Hk. unfold piperead.
  pose proof (Hu i) as Hi'. rewrite Hi in Hi'. destruct Hi' as [Hro _].
  destruct (Z.eqb_spec (nread (the_pipe s)) (nwrite (the_pipe s))) as [E|E]; cbn [andb];
    [destruct (writeopen (the_pipe s)) eqn:Ew|]; cbn [andb].
  1: { assert (Hsame : forall u, user_ok kills (the_pipe s) u ->
         inv kills {| the_pipe := the_pipe s; users := wake [] (<[i := u]> (users s));
                      sent := sent s; received := received s ++ [] |}).
       { intros u Huok. split; cbn [the_pipe users sent received]; [done|by rewrite app_nil_r|]. intros j. apply user_ok_self.
         destruct (decide (i = j)) as [<-|Hij]; [by rewrite fn_lookup_insert|].
         by rewrite fn_lookup_insert_ne. }
       destruct killed; intros [= <- <- <- <-]; apply Hsame; cbn; [done|].
       split; [done|]. intros _ _. split; [by apply empty_contents|done]. }
  all: destruct (piperead_copy (the_pipe s) (Z.to_nat n)) as [p2 cs2] eqn:Ec; intros [= <- <- <- <-].
  all: destruct (piperead_copy_ok _ _ _ _ Hwf Ec) as (P1 & P2 & P3 & P4 & P5).
  all: split; cbn [the_pipe users sent received after_read]; [done|by rewrite Hfifo, P2, app_assoc|].
  all: intros j; destruct (decide (i = j)) as [<-|Hij];
    [apply user_ok_self; by rewrite fn_lookup_insert|].
  all: assert (Hf : <[i:=Outside]> (users s) j = users s j) by (by apply fn_lookup_insert_ne).
  all: apply (user_ok_wake kills (the_pipe s)); rewrite ?Hf; [exact (Hu j)|by intros; rewrite P4|by intros; rewrite P5|..].
  all: try (intros _ _ _ Hnil Hwo; rewrite P2 in Hnil; apply app_eq_nil in Hnil as [_ Hnil]; by rewrite P5).
  all: intros _ Hw; destruct Hw; constructor.
Qed.

Lemma pstep_inv kills s s' : pstep kills s s' -> inv kills s -> inv kills s'.
Proof.
  destruct 1 as [i todo n s Hi Hw Hn|i n s Hi Hr|i todo n s killed p' w seg Hi Hk Hrun
    |i n s killed p' cs w seg Hi Hk Hrun|writable s p' w freed Huse Hrun|i s Hk]; intros Hinv.
  - destruct Hinv as [H1 H2 H3]. split; cbn; try done. intros j.
    destruct (decide (i = j)) as [<-|Hij]; [by rewrite fn_lookup_insert|by rewrite fn_lookup_insert_ne].
  - destruct Hinv as [H1 H2 H3]. split; cbn; try done. intros j.
    destruct (decide (i = j)) as [<-|Hij]; [by rewrite fn_lookup_insert|by rewrite fn_lookup_insert_ne].
  - by eapply inv_write.
  - by eapply inv_read.
  - destruct Hinv as [[W1 W2 W3] H2 H3]. unfold pipeclose in Hrun.
    destruct writable; injection Hrun as <- <- _; (split; cbn [the_pipe users sent received]; [done|done|]); intros j;
      specialize (Huse j); pose proof (H3 j) as Hj.
    + destruct (users s j) as [| |a n] eqn:E; [by rewrite wake_outside|done|].
      apply (user_ok_wake kills (the_pipe s)); rewrite ?E; try done; intros _ Hw; destruct Hw; constructor.
    + destruct (users s j) as [|a todo n|] eqn:E; [by rewrite wake_outside| |done].
      apply (user_ok_wake kills (the_pipe s)); rewrite ?E; try done; intros _ Hw; destruct Hw; constructor.
  - destruct Hinv as [H1 H2 H3]. split; cbn; try done. intros j. pose proof (H3 j) as Hj.
    destruct (decide (i = j)) as [<-|Hij]; [rewrite fn_lookup_insert|by rewrite fn_lookup_insert_ne].
    destruct (users s i); cbn in *; try done; destruct Hj; done.
Qed.

Lemma sys_init_inv kills junk : inv kills (sys_init junk).
Proof. split; [|done|done]. split; cbn; unfold is_u32; [lia|lia|]. vm_compute. discriminate. Qed.

(** C5: whatever the interleaving of reads, writes, closes and kills, the
    bytes handed to readers are exactly the bytes the writers stored, in
    order, without loss, repetition or reordering, up to the at most 512
    bytes still in the ring; this holds across the wrap-around of the 32-bit
    counters. *)
Theorem pipe_fifo kills junk s :
  star (pstep kills) (sys_init junk) s ->
  sent s = received s ++ contents (the_pipe s) /\ (length (contents (the_pipe s)) <= 512)%nat.
Proof.
  intros Hs. destruct (star_invariant _ (inv kills) _ _ (pstep_inv kills) Hs (sys_init_inv kills junk)) as [Hwf Hf _].
  split; [done|]. pose proof (length_contents (the_pipe s)). pose proof (wf_count _ Hwf). unfold PIPESIZE in *. lia.
Qed.

(** C35: no wakeup is lost: as long as no process is killed, a reader asleep in
    piperead has nothing to read and an open write end, and a writer asleep
    in pipewrite faces a full ring and an open read end; so a reader and a
    writer are never asleep at the same time. *)
Theorem pipe_no_lost_wakeup junk s i j :
  star (pstep false) (sys_init junk) s ->
  match users s i with
  | Reading true _ => contents (the_pipe s) = [] /\ writeopen (the_pipe s) = true
  | Writing true _ _ => length (contents (the_pipe s)) = 512%nat /\ readopen (the_pipe s) = true
  | _ => True
  end
  /\ ~ ((exists n, users s i = Reading true n) /\ (exists todo n, users s j = Writing true todo n)).
Proof.
  intros Hs. destruct (star_invariant _ (inv false) _ _ (pstep_inv false) Hs (sys_init_inv false junk)) as [Hwf _ Hu].
  pose proof (length_contents (the_pipe s)) as Hlen. split.
  - pose proof (Hu i) as Hi. destruct (users s i) as [|[]|[]]; cbn in Hi; try done.
    + destruct Hi as [_ Hi]. destruct (Hi eq_refl eq_refl) as [Hc ?]. split; [|done]. unfold PIPESIZE in *. lia.
    + destruct Hi as [_ Hi]. by apply Hi.
  - intros [[n Ei] (todo & m & Ej)]. pose proof (Hu i) as Hi. pose proof (Hu j) as Hj.
    rewrite Ei in Hi. rewrite Ej in Hj. cbn in *. destruct Hi as [_ Hi], Hj as [_ Hj].
    destruct (Hi eq_refl eq_refl) as [Hc _], (Hj eq_refl eq_refl) as [Hf _].
    rewrite Hc in Hlen. cbn in Hlen. unfold PIPESIZE in *. lia.
Qed.

(** The segment steps as functions of the state, to run the system. *)
Definition do_enter (i : nat) (u : user) (s : sys) : sys :=
  {| the_pipe := the_pipe s; users := <[i := u]> (users s); sent := sent s; received := received s |}.

Definition do_write (i : nat) (todo : list Z) (n : Z) (killed : bool) (s : sys) : sys :=
  let '(p', w, seg) := pipewrite_loop (the_pipe s) killed todo n in
  {| the_pipe := p'; users := wake w (<[i := after_write seg n]> (users s));
     sent := sent s ++ stored todo (the_pipe s) p'; received := received s |}.

Definition do_read (i : nat) (n : Z) (killed : bool) (s : sys) : sys :=
  let '(p', cs, w, seg) := piperead (the_pipe s) killed n in
  {| the_pipe := p'; users := wake w (<[i := after_read seg n]> (users s));
     sent := sent s; received := received s ++ cs |}.

Lemma run_write kills i todo n s killed :
  users s i = Writing false todo n -> (killed = true -> kills = true) ->
  pstep kills s (do_write i todo n killed s).
Proof.
  intros Hi Hk. unfold do_write. destruct (pipewrite_loop _ _ _ _) as [[??]?] eqn:E.
  by eapply step_write.
Qed.

Lemma run_read kills i n s killed :
  users s i = Reading false n -> (killed = true -> kills = true) ->
  pstep kills s (do_read i n killed s).
Proof.
  intros Hi Hk. unfold do_read. destruct (piperead _ _ _) as [[[??]?]?] eqn:E.
  by eapply step_read.
Qed.

(** with kills a wakeup can be lost.  A reader sleeps on the empty pipe; a
    writer that has been killed starts a write of 513 bytes, fills the ring,
    finds it full, and returns -1 without waking the readers: the reader
    stays asleep in front of 512 bytes, with the write end open. *)
Theorem pipe_kill_loses_wakeup :
  exists s, star (pstep true) (sys_init zeroed) s
    /\ users s 0%nat = Reading true 1 /\ users s 1%nat = Outside
    /\ length (contents (the_pipe s)) = 512%nat /\ writeopen (the_pipe s) = true.
Proof.
  eexists. split; [|split; [|split; [|split]]].
  - eapply star_step; [apply (step_enter_read true 0 1); reflexivity|].
    eapply star_step; [apply (step_read true 0 1 _ false); [reflexivity|discriminate|reflexivity]|].
    eapply star_step; [apply (step_enter_write true 1 (replicate 513 7) 513); reflexivity|].
    eapply star_step; [apply (run_write true 1 (replicate 513 7) 513 _ true); [reflexivity|done]|].
    apply star_refl.
  - vm_compute. reflexivity.
  - vm_compute. reflexivity.
  - vm_compute. reflexivity.
  - vm_compute. reflexivity.
Qed.

(** ** A concrete run: three bytes written, two and then one read, and the
    reader asleep *)

Definition demo : sys :=
  do_read 0 5 false (do_enter 0 (Reading false 5) (do_read 0 3 false (do_enter 0 (Reading false 3)
    (do_write 1 [1; 2; 3] 3 false (do_enter 1 (Writing false [1; 2; 3] 3) (sys_init zeroed)))))).

Lemma demo_run : star (pstep false) (sys_init zeroed) demo
  /\ received demo = [1; 2; 3] /\ users demo 0%nat = Reading true 5.
Proof.
  split; [|by vm_compute].
  eapply star_step; [apply (step_enter_write false 1 [1; 2; 3] 3); reflexivity|].
  eapply star_step; [apply (run_write false 1 [1; 2; 3] 3 _ false); [reflexivity|discriminate]|].
  eapply star_step; [apply (step_enter_read false 0 3); vm_compute; reflexivity|].
  eapply star_step; [apply (run_read false 0 3 _ false); [vm_compute; reflexivity|discriminate]|].
  eapply star_step; [apply (step_enter_read false 0 5); vm_compute; reflexivity|].
  eapply star_step; [apply (run_read false 0 5 _ false); [vm_compute; reflexivity|discriminate]|].
  apply star_refl.
Qed.

Lemma pipe_fifo_witness : exists s, star (pstep false) (sys_init zeroed) s
  /\ received s = [1; 2; 3] /\ sent s = [1; 2; 3] ++ contents (the_pipe s).
Proof.
  destruct demo_run as (Hs & Hr & _). exists demo. split; [exact Hs|]. split; [exact Hr|].
  rewrite <- Hr. apply (proj1 (pipe_fifo false zeroed demo Hs)).
Defined.

Lemma pipe_no_lost_wakeup_witness : exists s, star (pstep false) (sys_init zeroed) s
  /\ users s 0%nat = Reading true 5 /\ contents (the_pipe s) = [] /\ writeopen (the_pipe s) = true.
Proof.
  destruct demo_run as (Hs & _ & Hu). exists demo. split; [exact Hs|]. split; [exact Hu|].
  destruct (pipe_no_lost_wakeup zeroed demo 0 0 Hs) as [H _]. revert H. rewrite Hu. intros H. exact H.
Defined.
