(* ===== verification/Block.v ===== *)
(** * Disk blocks

    The 512 bytes of a block as a list, with the 8-, 16- and 32-bit
    little-endian accesses that the file system makes through pointers into
    a buffer.  An access past the end of the list reads 0 and writes nothing;
    the offsets the code computes are shown to be inside. *)

From S2P Require Import Prelude Mem.
#[local] Open Scope Z_scope.

Definition BSIZE : Z := 512.

Notation block := (list Z).

Definition is_block (b : block) : Prop := length b = Z.to_nat BSIZE /\ Forall is_byte b.

Definition zero_block : block := replicate (Z.to_nat BSIZE) 0.

Definition get8 (b : block) (off : Z) : Z := default 0 (b !! Z.to_nat off).
Definition put8 (b : block) (off v : Z) : block := <[Z.to_nat off := u8 v]> b.

Definition get16 (b : block) (off : Z) : Z := get8 b off + 256 * get8 b (off + 1).
Definition put16 (b : block) (off v : Z) : block :=
  put8 (put8 b off v) (off + 1) (Z.shiftr v 8).

Definition get32 (b : block) (off : Z) : Z :=
  get8 b off + 256 * get8 b (off + 1) + 65536 * get8 b (off + 2) + 16777216 * get8 b (off + 3).
Definition put32 (b : block) (off v : Z) : block :=
  put8 (put8 (put8 (put8 b off v) (off + 1) (Z.shiftr v 8)) (off + 2) (Z.shiftr v 16))
       (off + 3) (Z.shiftr v 24).

(** [memmove(dst->data, src->data, BSIZE)] between two buffers, and
    [memset(b->data, 0, BSIZE)]. *)
Definition copy_block (dst src : block) : block := take (Z.to_nat BSIZE) src ++ drop (Z.to_nat BSIZE) dst.
Definition clear_block (b : block) : block := zero_block ++ drop (Z.to_nat BSIZE) b.

(** [memmove] of the bytes [bs] into the block at [off], and of [n] bytes at
    [off] out of it. *)
Definition blit_block (b : block) (off : Z) (bs : list Z) : block :=
  take (Z.to_nat off) b ++ bs ++ drop (Z.to_nat off + length bs) b.
Definition slice (b : block) (off n : Z) : list Z := take (Z.to_nat n) (drop (Z.to_nat off) b).

(** ** Lemmas *)

Lemma zero_block_ok : is_block zero_block.
Proof.
  split; [apply length_replicate|]. apply Forall_replicate. unfold is_byte. lia.
Qed.

Lemma copy_block_eq dst src : is_block dst -> is_block src -> copy_block dst src = src.
Proof.
  intros [Hd _] [Hs _]. unfold copy_block. rewrite drop_ge, take_ge, app_nil_r by lia. done.
Qed.

Lemma clear_block_eq b : is_block b -> clear_block b = zero_block.
Proof. intros [Hb _]. unfold clear_block. by rewrite drop_ge, app_nil_r by lia. Qed.

Lemma get8_byte b off : is_block b -> is_byte (get8 b off).
Proof.
  intros [_ Hb]. unfold get8. destruct (b !! Z.to_nat off) eqn:E; cbn; [|unfold is_byte; lia].
  by apply (proj1 (Forall_lookup _ _) Hb _ _ E).
Qed.

Lemma put8_ok b off v : is_block b -> is_block (put8 b off v).
Proof.
  intros [Hl Hb]. split; unfold put8; [by rewrite length_insert|].
  apply Forall_insert; [done|apply u8_range].
Qed.

Lemma put16_ok b off v : is_block b -> is_block (put16 b off v).
Proof. intros H. by apply put8_ok, put8_ok. Qed.

Lemma put32_ok b off v : is_block b -> is_block (put32 b off v).
Proof. intros H. by apply put8_ok, put8_ok, put8_ok, put8_ok. Qed.

Lemma get8_put8 b off v : is_block b -> 0 <= off < BSIZE -> get8 (put8 b off v) off = u8 v.
Proof.
  intros [Hl _] Ho. unfold get8, put8. rewrite list_lookup_insert_eq; [done|].
  unfold BSIZE in *. lia.
Qed.

Lemma get8_put8_ne b off off' v : 0 <= off -> 0 <= off' -> off <> off' -> get8 (put8 b off v) off' = get8 b off'.
Proof. intros H1 H2 Hne. unfold get8, put8. rewrite list_lookup_insert_ne by lia. done. Qed.

Lemma bytes_u32 v :
  u8 v + 256 * u8 (Z.shiftr v 8) + 65536 * u8 (Z.shiftr v 16) + 16777216 * u8 (Z.shiftr v 24) = u32 v.
Proof.
  unfold u8, u32. rewrite !Z.shiftr_div_pow2 by lia.
  change (2 ^ 8) with 256. change (2 ^ 16) with 65536. change (2 ^ 24) with 16777216.
  change (2 ^ 32) with 4294967296. Z.to_euclidean_division_equations. lia.
Qed.

Lemma get32_put32 b off v : is_block b -> 0 <= off -> off + 4 <= BSIZE -> get32 (put32 b off v) off = u32 v.
Proof.
  intros Hb H0 H1. unfold get32, put32.
  rewrite (get8_put8_ne _ (off + 3) off), (get8_put8_ne _ (off + 2) off), (get8_put8_ne _ (off + 1) off) by lia.
  rewrite (get8_put8_ne _ (off + 3) (off + 1)), (get8_put8_ne _ (off + 2) (off + 1)) by lia.
  rewrite (get8_put8_ne _ (off + 3) (off + 2)) by lia.
  rewrite !get8_put8 by (try lia; repeat apply put8_ok; done). apply bytes_u32.
Qed.

Lemma get32_put32_ne b off off' v :
  0 <= off -> 0 <= off' -> off + 4 <= off' \/ off' + 4 <= off -> get32 (put32 b off v) off' = get32 b off'.
Proof. intros H0 H1 H2. unfold get32, put32. by rewrite !get8_put8_ne by lia. Qed.

Lemma get16_put16 b off v : is_block b -> 0 <= off -> off + 2 <= BSIZE -> get16 (put16 b off v) off = u16 v.
Proof.
  intros Hb H0 H1. unfold get16, put16. rewrite (get8_put8_ne _ (off + 1) off) by lia.
  rewrite !get8_put8 by (try lia; repeat apply put8_ok; done).
  unfold u8, u16. rewrite !Z.shiftr_div_pow2 by lia.
  change (2 ^ 8) with 256. change (2 ^ 16) with 65536. Z.to_euclidean_division_equations. lia.
Qed.

Lemma get16_put16_ne b off off' v :
  0 <= off -> 0 <= off' -> off + 2 <= off' \/ off' + 2 <= off -> get16 (put16 b off v) off' = get16 b off'.
Proof. intros H0 H1 H2. unfold get16, put16. by rewrite !get8_put8_ne by lia. Qed.

Lemma get32_range b off : is_block b -> is_u32 (get32 b off).
Proof.
  intros Hb. unfold get32, is_u32.
  pose proof (get8_byte b off Hb). pose proof (get8_byte b (off + 1) Hb).
  pose proof (get8_byte b (off + 2) Hb). pose proof (get8_byte b (off + 3) Hb).
  unfold is_byte in *. lia.
Qed.

Create HintDb block.
#[export] Hint Resolve put8_ok put16_ok put32_ok zero_block_ok get8_byte get32_range : block.
