(* ===== verification/Bio.v ===== *)
(** * The buffer cache (bio.c, buf.h, sleeplock.c) and the memory disk
    (memide.c)

    The thirty buffers of [bcache.buf] are numbered 0..29 and [bcache.head]
    is node 30; [next] and [prev] are the two link fields of the doubly
    linked LRU list.  Every routine runs as the process [pid].  A sleep lock
    that another process holds makes the caller sleep: the run has no result
    ([NoFuel]) until the holder releases it.  The disk keeps one block per
    block number (disk 1) and remembers the writes in order, latest first. *)

From S2P Require Import Prelude Mem Block.
#[local] Open Scope Z_scope.
#[local] Open Scope kernel_scope.

Definition MAXOPBLOCKS : Z := 10.
Definition NBUF : nat := 30.
Definition HEAD : nat := NBUF.

Record sleeplock := { sl_locked : bool; sl_pid : Z }.

(** [flags] is the pair of bits [B_VALID] and [B_DIRTY]. *)
Record buf := {
  B_VALID : bool;
  B_DIRTY : bool;
  dev : Z;
  blockno : Z;
  lock : sleeplock;
  refcnt : Z;
  bdata : block }.

Record cache := {
  bufs : nat -> buf;
  next : nat -> nat;
  prev : nat -> nat;
  bc_locked : bool;
  disk : Z -> block;
  writes : list (Z * block) }.

Definition C : Type -> Type := K cache.

Definition set_flags (v d : bool) (b : buf) : buf :=
  {| B_VALID := v; B_DIRTY := d; dev := dev b; blockno := blockno b; lock := lock b;
     refcnt := refcnt b; bdata := bdata b |}.
Definition set_id (dv bn : Z) (b : buf) : buf :=
  {| B_VALID := false; B_DIRTY := false; dev := dv; blockno := bn; lock := lock b;
     refcnt := 1; bdata := bdata b |}.
Definition set_lock (l : sleeplock) (b : buf) : buf :=
  {| B_VALID := B_VALID b; B_DIRTY := B_DIRTY b; dev := dev b; blockno := blockno b; lock := l;
     refcnt := refcnt b; bdata := bdata b |}.
Definition set_refcnt (r : Z) (b : buf) : buf :=
  {| B_VALID := B_VALID b; B_DIRTY := B_DIRTY b; dev := dev b; blockno := blockno b; lock := lock b;
     refcnt := r; bdata := bdata b |}.
Definition set_data (d : block) (b : buf) : buf :=
  {| B_VALID := B_VALID b; B_DIRTY := B_DIRTY b; dev := dev b; blockno := blockno b; lock := lock b;
     refcnt := refcnt b; bdata := d |}.

Definition with_buf (i : nat) (b : buf) (s : cache) : cache :=
  {| bufs := <[i := b]> (bufs s); next := next s; prev := prev s; bc_locked := bc_locked s;
     disk := disk s; writes := writes s |}.
Definition with_links (n p : nat -> nat) (s : cache) : cache :=
  {| bufs := bufs s; next := n; prev := p; bc_locked := bc_locked s; disk := disk s; writes := writes s |}.
Definition with_bclock (l : bool) (s : cache) : cache :=
  {| bufs := bufs s; next := next s; prev := prev s; bc_locked := l; disk := disk s; writes := writes s |}.
Definition with_disk (bn : Z) (d : block) (s : cache) : cache :=
  {| bufs := bufs s; next := next s; prev := prev s; bc_locked := bc_locked s;
     disk := <[bn := d]> (disk s); writes := (bn, d) :: writes s |}.

Definition get (i : nat) : C buf := gets (fun s => bufs s i).
Definition upd_buf (i : nat) (f : buf -> buf) : C unit := modify (fun s => with_buf i (f (bufs s i)) s).

(** [acquire(&bcache.lock)], [release(&bcache.lock)] as one CPU sees them. *)
Definition acquire : C unit :=
  l <- gets bc_locked ;; if l : bool then panic "acquire" else modify (with_bclock true).
Definition release : C unit :=
  l <- gets bc_locked ;; if l : bool then modify (with_bclock false) else panic "release".

(** ** sleeplock.c *)

Definition acquiresleep (pid : Z) (i : nat) : C unit :=
  b <- get i ;;
  if sl_locked (lock b) then nofuel
  else upd_buf i (set_lock {| sl_locked := true; sl_pid := pid |}).

Definition releasesleep (i : nat) : C unit :=
  upd_buf i (set_lock {| sl_locked := false; sl_pid := 0 |}).

Definition holdingsleep (pid : Z) (i : nat) : C bool :=
  b <- get i ;; kret (sl_locked (lock b) && (sl_pid (lock b) =? pid)).

Section cache.
Context (disksize pid : Z).

(** ** memide.c *)

Definition iderw (i : nat) : C unit :=
  h <- holdingsleep pid i ;;
  if negb h then panic "iderw: buf not locked"
  else
    b <- get i ;;
    if B_VALID b && negb (B_DIRTY b) then panic "iderw: nothing to do"
    else if negb (dev b =? 1) then panic "iderw: request not for disk 1"
    else if blockno b >=? disksize then panic "iderw: block out of range"
    else
      (if B_DIRTY b then
         upd_buf i (set_flags (B_VALID b) false) ;;;
         modify (with_disk (blockno b) (bdata b))
       else
         modify (fun s => with_buf i (set_data (copy_block (bdata b) (disk s (blockno b))) (bufs s i)) s)) ;;;
      upd_buf i (fun b => set_flags true (B_DIRTY b) b).

(** ** bio.c *)

Definition binit_step (s : cache) (b : nat) : cache :=
  let n0 := next s in let p0 := prev s in
  let n1 := <[b := n0 HEAD]> n0 in
  let p1 := <[b := HEAD]> p0 in
  let p2 := <[n1 HEAD := b]> p1 in
  let n2 := <[HEAD := b]> n1 in
  with_links n2 p2 (with_buf b (set_lock {| sl_locked := false; sl_pid := 0 |} (bufs s b)) s).

Definition binit_state (s : cache) : cache :=
  fold_left binit_step (seq 0 NBUF)
    (with_links (<[HEAD := HEAD]> (next s)) (<[HEAD := HEAD]> (prev s)) (with_bclock false s)).

Definition binit : C unit := modify binit_state.

(** The search of the cached block, from [b] along [next]. *)
Fixpoint bget_cached (fuel : nat) (b : nat) (dv bn : Z) : C (option nat) :=
  match fuel with
  | O => nofuel
  | S fuel =>
      if (b =? HEAD)%nat then kret None
      else
        x <- get b ;;
        if (dev x =? dv) && (blockno x =? bn) then kret (Some b)
        else n <- gets (fun s => next s b) ;; bget_cached fuel n dv bn
  end.

(** The search of a buffer to recycle, from [b] along [prev]. *)
Fixpoint bget_unused (fuel : nat) (b : nat) : C (option nat) :=
  match fuel with
  | O => nofuel
  | S fuel =>
      if (b =? HEAD)%nat then kret None
      else
        x <- get b ;;
        if (refcnt x =? 0) && negb (B_DIRTY x) then kret (Some b)
        else p <- gets (fun s => prev s b) ;; bget_unused fuel p
  end.

Definition bget (dv bn : Z) : C nat :=
  acquire ;;;
  first <- gets (fun s => next s HEAD) ;;
  r <- bget_cached (S NBUF) first dv bn ;;
  match r with
  | Some b =>
      upd_buf b (fun x => set_refcnt (refcnt x + 1) x) ;;;
      release ;;;
      acquiresleep pid b ;;;
      kret b
  | None =>
      last <- gets (fun s => prev s HEAD) ;;
      r <- bget_unused (S NBUF) last ;;
      match r with
      | Some b =>
          upd_buf b (set_id dv bn) ;;;
          release ;;;
          acquiresleep pid b ;;;
          kret b
      | None => panic "bget: no buffers"
      end
  end.

Definition bread (dv bn : Z) : C nat :=
  b <- bget dv bn ;;
  x <- get b ;;
  (if negb (B_VALID x) then iderw b else kret tt) ;;;
  kret b.

Definition bwrite (b : nat) : C unit :=
  h <- holdingsleep pid b ;;
  if negb h then panic "bwrite"
  else
    upd_buf b (fun x => set_flags (B_VALID x) true x) ;;;
    iderw b.

(** [b] unlinked and put back behind the head. *)
Definition to_front (b : nat) (s : cache) : cache :=
  let n := next s in let p := prev s in
  let p1 := <[n b := p b]> p in
  let n1 := <[p1 b := n b]> n in
  let n2 := <[b := n1 HEAD]> n1 in
  let p2 := <[b := HEAD]> p1 in
  let p3 := <[n2 HEAD := b]> p2 in
  let n3 := <[HEAD := b]> n2 in
  with_links n3 p3 s.

Definition brelse (b : nat) : C unit :=
  h <- holdingsleep pid b ;;
  if negb h then panic "brelse"
  else
    releasesleep b ;;;
    acquire ;;;
    upd_buf b (fun x => set_refcnt (refcnt x - 1) x) ;;;
    x <- get b ;;
    (if refcnt x =? 0 then modify (to_front b) else kret tt) ;;;
    release.
End cache.

(** ** The LRU list *)

(** Following [f] from [a] visits [l] and arrives at [b]. *)
Fixpoint path (f : nat -> nat) (a : nat) (l : list nat) (b : nat) : Prop :=
  match l with
  | [] => f a = b
  | x :: l => f a = x /\ path f x l b
  end.

(** [l]: the buffers, most recently used first. *)
Record ring (n p : nat -> nat) (l : list nat) : Prop := {
  ring_next : path n HEAD l HEAD;
  ring_prev : path p HEAD (reverse l) HEAD;
  ring_all : l ≡ₚ seq 0 NBUF }.

Lemma path_app f a l1 x l2 b : path f a (l1 ++ x :: l2) b <-> path f a l1 x /\ path f x l2 b.
Proof.
  revert a. induction l1 as [|y l1 IH]; intros a; cbn; [tauto|]. rewrite IH. tauto.
Qed.

Lemma path_snoc f a l x b : path f a (l ++ [x]) b <-> path f a l x /\ f x = b.
Proof. rewrite path_app. cbn. tauto. Qed.

Lemma path_insert f a l b x v : x <> a -> x ∉ l -> path (<[x:=v]> f) a l b <-> path f a l b.
Proof.
  revert a. induction l as [|y l IH]; intros a Hne Hnin; cbn.
  - by rewrite fn_lookup_insert_ne.
  - apply not_elem_of_cons in Hnin as [Hy Hl]. rewrite fn_lookup_insert_ne by done.
    split; (intros [-> H]; split; [done|]); by apply IH.
Qed.

(** A path whose start is replaced by a node with the same successor. *)
Lemma path_restart f f' a a' l b :
  path f a l b -> f' a' = f a -> (forall x, x ∈ l -> f' x = f x) -> path f' a' l b.
Proof.
  revert a a'. induction l as [|y l IH]; intros a a'; cbn; [intros <- E _; done|].
  intros [<- Hp] E Hag. split; [done|]. apply (IH (f a)); [done|apply Hag; constructor|].
  intros x Hx. apply Hag. by constructor.
Qed.

Lemma last_cons (l : list nat) y a : List.last (y :: l) a = List.last l y.
Proof. revert y a. induction l as [|z l IH]; intros y a; [done|].
  change (List.last (z :: l) a = List.last (z :: l) y). by rewrite !IH.
Qed.

Lemma last_in (l : list nat) a : List.last l a ∈ a :: l.
Proof. revert a. induction l as [|y l IH]; intros a; [constructor|]. rewrite last_cons. right. apply IH. Qed.

Lemma last_reverse (l : list nat) a : List.last (reverse l) a = List.hd a l.
Proof. destruct l as [|x l]; [done|]. rewrite reverse_cons. apply List.last_last. Qed.

(** The last node of a path redirected to [v]. *)
Lemma path_last f a l b v : NoDup (a :: l) -> path f a l b -> path (<[List.last l a := v]> f) a l v.
Proof.
  revert a. induction l as [|y l IH]; intros a Hnd; [intros _; apply fn_lookup_insert|].
  intros [E Hp]. rewrite last_cons. apply NoDup_cons in Hnd as [Ha Hnd]. split; [|by apply IH].
  rewrite fn_lookup_insert_ne; [done|]. intros <-. apply Ha, last_in.
Qed.

(** A node unlinked from a path. *)
Lemma path_skip f a l1 x l2 b :
  NoDup (a :: l1 ++ x :: l2) -> path f a (l1 ++ x :: l2) b ->
  path (<[List.last l1 a := f x]> f) a (l1 ++ l2) b.
Proof.
  revert a. induction l1 as [|y l1 IH]; intros a Hnd.
  - cbn [app]. intros [E Hp]. apply (path_restart f _ x); [done|apply fn_lookup_insert|].
    intros z Hz. apply fn_lookup_insert_ne. intros <-. apply NoDup_cons in Hnd as [Ha _].
    apply Ha. by constructor.
  - cbn [app]. intros [E Hp]. rewrite last_cons. apply NoDup_cons in Hnd as [Ha Hnd]. split; [|by apply IH].
    rewrite fn_lookup_insert_ne; [done|]. intros <-. apply Ha.
    apply elem_of_app. left. apply last_in.
Qed.

Lemma ring_nodup n p l : ring n p l -> NoDup (HEAD :: l).
Proof.
  intros [_ _ Hl]. rewrite Hl. apply NoDup_cons. split; [|apply NoDup_seq].
  rewrite elem_of_seq. unfold HEAD. lia.
Qed.

Lemma path_head f a l b : path f a l b -> f a = List.hd b l.
Proof. destruct l; [done|]. by intros [? _]. Qed.

(** brelse moves its buffer to the front and keeps the order of the others. *)
Lemma to_front_ring s b l1 l2 :
  ring (next s) (prev s) (l1 ++ b :: l2) ->
  ring (next (to_front b s)) (prev (to_front b s)) (b :: l1 ++ l2).
Proof.
  intros Hr. pose proof (ring_nodup _ _ _ Hr) as Hnd. destruct Hr as [Hn Hp Ha].
  assert (Hb : b <> HEAD /\ b ∉ l1 ++ l2 /\ HEAD ∉ l1 ++ l2 /\ NoDup (HEAD :: l1 ++ l2)).
  { rewrite <- Permutation_middle in Hnd. apply NoDup_cons in Hnd as [H1 H2].
    apply NoDup_cons in H2 as [H2 H3]. apply not_elem_of_cons in H1 as [H0 H1].
    split; [done|]. split; [done|]. split; [done|]. by apply NoDup_cons. }
  destruct Hb as (Hbh & Hbl & Hhl & Hnd').
  rewrite reverse_app, reverse_cons, <- app_assoc in Hp. cbn [app] in Hp.
  assert (Hndr : NoDup (HEAD :: reverse l2 ++ b :: reverse l1)).
  { rewrite <- (Permutation_middle (reverse l2)), <- reverse_app, reverse_Permutation, (Permutation_middle l1).
    exact Hnd. }
  pose proof (path_skip _ _ _ _ _ _ Hnd Hn) as Hn1. pose proof (path_skip _ _ _ _ _ _ Hndr Hp) as Hp1.
  rewrite last_reverse in Hp1. rewrite <- reverse_app in Hp1.
  apply path_app in Hn as [_ Hnb]. apply path_head in Hnb.
  apply path_app in Hp as [_ Hpb]. apply path_head in Hpb.
  assert (Epb : prev s b = List.last l1 HEAD) by (rewrite Hpb; rewrite <- (reverse_involutive l1) at 2; by rewrite last_reverse).
  unfold to_front. cbn [next prev with_links]. rewrite <- Hnb in Hp1.
  set (p1 := <[next s b:=prev s b]> (prev s)) in *.
  assert (Hzb : next s b <> b).
  { rewrite Hnb. intros E. apply Hbl. apply elem_of_app. right. destruct l2; cbn in E; [done|]. subst. constructor. }
  assert (Ep1 : p1 b = List.last l1 HEAD) by (unfold p1; by rewrite fn_lookup_insert_ne).
  rewrite Ep1. set (n1 := <[List.last l1 HEAD:=next s b]> (next s)) in *.
  pose proof (path_head _ _ _ _ Hn1) as Hw.
  assert (Ew : (<[b:=n1 HEAD]> n1) HEAD = List.hd HEAD (l1 ++ l2)) by (by rewrite fn_lookup_insert_ne).
  rewrite Ew. set (w := List.hd HEAD (l1 ++ l2)) in *.
  assert (Hwb : w <> b).
  { unfold w. intros E. apply Hbl. destruct (l1 ++ l2); cbn in E; [done|]. subst. constructor. }
  split.
  - split; [apply fn_lookup_insert|]. apply (path_restart n1 _ HEAD); [done|..].
    + rewrite fn_lookup_insert_ne by done. apply fn_lookup_insert.
    + intros x Hx. rewrite !fn_lookup_insert_ne; [done|..]; by intros <-.
  - rewrite reverse_cons. apply path_snoc. split.
    + replace w with (List.last (reverse (l1 ++ l2)) HEAD) by apply last_reverse.
      apply (path_last _ _ _ HEAD).
      * rewrite reverse_Permutation. exact Hnd'.
      * apply path_insert; [done|by rewrite elem_of_reverse|done].
    + rewrite fn_lookup_insert_ne by done. apply fn_lookup_insert.
  - rewrite <- Ha. apply Permutation_middle.
Qed.

Lemma binit_ring s : ring (next (binit_state s)) (prev (binit_state s)) (rev (seq 0 NBUF)).
Proof.
  split.
  - vm_compute. repeat split.
  - vm_compute. repeat split.
  - symmetry. apply Permutation_rev.
Qed.

(** ** What a run may rely on *)

(** The buffer holds block [bn] of disk 1. *)
Definition is_for (b : buf) (bn : Z) : Prop := dev b = 1 /\ blockno b = bn.
#[export] Instance is_for_dec b bn : Decision (is_for b bn).
Proof. unfold is_for. apply _. Defined.

Section facts.
Context (disksize pid : Z).

(** The caches reachable by [pid] alone, which holds the buffers [H]: the
    LRU list is a permutation of the buffers; no block has two buffers; a
    buffer is locked and referenced exactly if held; a clean buffer that is
    not held agrees with the disk. *)
Record cache_ok (s : cache) (H : list nat) : Prop := {
  co_ring : exists l, ring (next s) (prev s) l;
  co_lock : bc_locked s = false;
  co_block : forall i, is_block (bdata (bufs s i));
  co_disk : forall bn, is_block (disk s bn);
  co_unique : forall i j, (i < NBUF)%nat -> (j < NBUF)%nat -> dev (bufs s i) = 1 ->
    is_for (bufs s j) (blockno (bufs s i)) -> i = j;
  co_held : NoDup H /\ forall i, i ∈ H -> (i < NBUF)%nat /\ dev (bufs s i) = 1 /\ B_VALID (bufs s i) = true
    /\ lock (bufs s i) = {| sl_locked := true; sl_pid := pid |} /\ refcnt (bufs s i) = 1;
  co_free : forall i, (i < NBUF)%nat -> i ∉ H ->
    sl_locked (lock (bufs s i)) = false /\ refcnt (bufs s i) = 0
    /\ (dev (bufs s i) = 1 -> B_VALID (bufs s i) = true -> B_DIRTY (bufs s i) = false ->
        bdata (bufs s i) = disk s (blockno (bufs s i)));
  co_dirty : forall i, (i < NBUF)%nat -> B_DIRTY (bufs s i) = true ->
    dev (bufs s i) = 1 /\ B_VALID (bufs s i) = true }.

(** The contents of block [bn] as a reader sees them. *)
Definition view (s : cache) (bn : Z) : block :=
  match List.find (fun i => B_VALID (bufs s i) && bool_decide (is_for (bufs s i) bn)) (seq 0 NBUF) with
  | Some i => bdata (bufs s i)
  | None => disk s bn
  end.

Lemma view_cached s H i bn :
  cache_ok s H -> (i < NBUF)%nat -> is_for (bufs s i) bn -> B_VALID (bufs s i) = true ->
  view s bn = bdata (bufs s i).
Proof.
  intros Hok Hi [Hd Hb] Hv. unfold view. destruct (List.find _ _) as [j|] eqn:E.
  - apply List.find_some in E as [Hj E]. apply in_seq in Hj. bool_hyps. apply bool_decide_eq_true in H1 as [Hdj Hbj].
    f_equal. f_equal. symmetry. apply (co_unique _ _ Hok); [lia|lia|done|]. split; congruence.
  - exfalso. pose proof (List.find_none _ _ E i) as Hn. cbn beta in Hn.
    rewrite Hv, bool_decide_true in Hn by done. discriminate Hn. apply in_seq. lia.
Qed.

Lemma view_uncached s bn :
  (forall i, (i < NBUF)%nat -> is_for (bufs s i) bn -> B_VALID (bufs s i) = false) -> view s bn = disk s bn.
Proof.
  intros Hn. unfold view. destruct (List.find _ _) as [j|] eqn:E; [|done].
  apply List.find_some in E as [Hj E]. apply in_seq in Hj. bool_hyps. apply bool_decide_eq_true in H0.
  rewrite (Hn j) in H; [done|lia|done].
Qed.

(** Either way. *)
Lemma view_cases s H bn :
  cache_ok s H ->
  (exists i, (i < NBUF)%nat /\ is_for (bufs s i) bn /\ B_VALID (bufs s i) = true /\ view s bn = bdata (bufs s i))
  \/ ((forall i, (i < NBUF)%nat -> is_for (bufs s i) bn -> B_VALID (bufs s i) = false) /\ view s bn = disk s bn).
Proof.
  intros Hok. destruct (List.find (fun i => B_VALID (bufs s i) && bool_decide (is_for (bufs s i) bn)) (seq 0 NBUF)) as [j|] eqn:E.
  - left. exists j. apply List.find_some in E as [Hj E]. apply in_seq in Hj. bool_hyps.
    apply bool_decide_eq_true in H1. split; [lia|]. split; [done|]. split; [done|].
    apply (view_cached s H); (done || lia).
  - right. assert (Hn : forall i, (i < NBUF)%nat -> is_for (bufs s i) bn -> B_VALID (bufs s i) = false).
    { intros i Hi Hf. pose proof (List.find_none _ _ E i) as Hn. cbn beta in Hn.
      rewrite bool_decide_true, andb_true_r in Hn by done. apply Hn. apply in_seq. lia. }
    split; [done|]. by apply view_uncached.
Qed.

(** ** The two searches *)

Lemma bget_cached_ok s dv bn l fuel a :
  path (next s) a l HEAD -> HEAD ∉ l -> (length l < fuel)%nat ->
  bget_cached fuel (next s a) dv bn s =
    Ok (List.find (fun i => (dev (bufs s i) =? dv) && (blockno (bufs s i) =? bn)) l) s.
Proof.
  revert fuel a. induction l as [|x l IH]; intros [|fuel] a Hp Hh Hf; cbn in Hf; try lia; cbn [bget_cached].
  - rewrite Hp. cbn. done.
  - destruct Hp as [-> Hp]. apply not_elem_of_cons in Hh as [Hx Hl].
    destruct (Nat.eqb_spec x HEAD); [congruence|]. unfold kbind at 1, get, gets. cbn [List.find].
    destruct (_ && _); [done|]. unfold kbind at 1. apply IH; [done|done|lia].
Qed.

Lemma bget_unused_ok s l fuel a :
  path (prev s) a l HEAD -> HEAD ∉ l -> (length l < fuel)%nat ->
  bget_unused fuel (prev s a) s =
    Ok (List.find (fun i => (refcnt (bufs s i) =? 0) && negb (B_DIRTY (bufs s i))) l) s.
Proof.
  revert fuel a. induction l as [|x l IH]; intros [|fuel] a Hp Hh Hf; cbn in Hf; try lia; cbn [bget_unused].
  - rewrite Hp. cbn. done.
  - destruct Hp as [-> Hp]. apply not_elem_of_cons in Hh as [Hx Hl].
    destruct (Nat.eqb_spec x HEAD); [congruence|]. unfold kbind at 1, get, gets. cbn [List.find].
    destruct (_ && _); [done|]. unfold kbind at 1. apply IH; [done|done|lia].
Qed.

Lemma ring_length n p l : ring n p l -> length l = NBUF.
Proof. intros [_ _ H]. by rewrite (Permutation_length H), length_seq. Qed.

Lemma ring_mem n p l i : ring n p l -> i ∈ l <-> (i < NBUF)%nat.
Proof. intros [_ _ H]. rewrite H, elem_of_seq. lia. Qed.

(** Only buffer [i] differs, and it is now [b]. *)
Record changed (i : nat) (b : buf) (s s' : cache) : Prop := {
  ch_this : bufs s' i = b;
  ch_other : forall j, j <> i -> bufs s' j = bufs s j;
  ch_next : next s' = next s;
  ch_prev : prev s' = prev s;
  ch_lock : bc_locked s' = bc_locked s;
  ch_disk : disk s' = disk s;
  ch_writes : writes s' = writes s }.

Lemma with_buf_changed i b s : changed i b s (with_buf i b s).
Proof. split; cbn; try done; [apply fn_lookup_insert|]. intros j Hj. by apply fn_lookup_insert_ne. Qed.

Lemma changed_trans i b b' s1 s2 s3 : changed i b s1 s2 -> changed i b' s2 s3 -> changed i b' s1 s3.
Proof.
  intros [A1 A2 A3 A4 A5 A6 A7] [B1 B2 B3 B4 B5 B6 B7]. split; try congruence.
  intros j Hj. by rewrite B2, A2.
Qed.

(** A buffer that bget may use for a block that has none. *)
Definition spare (s : cache) (H : list nat) : Prop :=
  exists i, (i < NBUF)%nat /\ i ∉ H /\ B_DIRTY (bufs s i) = false.

Definition held_lock : sleeplock := {| sl_locked := true; sl_pid := pid |}.

Lemma acquiresleep_ok s i :
  sl_locked (lock (bufs s i)) = false ->
  acquiresleep pid i s = Ok tt (with_buf i (set_lock held_lock (bufs s i)) s).
Proof. intros Hl. unfold acquiresleep, get, kbind, gets. by rewrite Hl. Qed.

Lemma upd_buf_ok s i f : upd_buf i f s = Ok tt (with_buf i (f (bufs s i)) s).
Proof. done. Qed.

Lemma acquire_ok s : bc_locked s = false -> acquire s = Ok tt (with_bclock true s).
Proof. intros H. unfold acquire, kbind, gets. by rewrite H. Qed.

Lemma release_ok s : bc_locked s = true -> release s = Ok tt (with_bclock false s).
Proof. intros H. unfold release, kbind, gets. by rewrite H. Qed.

(** The last steps of bget, on a buffer that nobody holds. *)
Lemma bget_take s i f :
  bc_locked s = false -> sl_locked (lock (bufs s i)) = false -> lock (f (bufs s i)) = lock (bufs s i) ->
  exists s', (upd_buf i f ;;; release ;;; acquiresleep pid i ;;; kret i) (with_bclock true s) = Ok i s'
    /\ changed i (set_lock held_lock (f (bufs s i))) s s'.
Proof.
  intros Hb Hl Hf. eexists. split.
  - rewrite (kbind_ok _ _ _ _ _ (upd_buf_ok _ _ _)).
    rewrite (kbind_ok _ _ _ _ _ (release_ok _ (eq_refl : bc_locked (with_buf _ _ (with_bclock true s)) = true))).
    match goal with |- _ ?st = _ =>
      rewrite (kbind_ok _ _ _ _ _ (acquiresleep_ok st i ltac:(cbn; by rewrite fn_lookup_insert, Hf)))
    end. reflexivity.
  - split; cbn; try done.
    + by rewrite !fn_lookup_insert.
    + intros j Hj. by rewrite !fn_lookup_insert_ne.
Qed.

(** The buffer of [bn] with its new holder, or a recycled one. *)
Lemma bget_ok s H bn :
  cache_ok s H -> (forall i, i ∈ H -> ~ is_for (bufs s i) bn) ->
  (exists i, (i < NBUF)%nat /\ is_for (bufs s i) bn) \/ spare s H ->
  exists i s', bget pid 1 bn s = Ok i s' /\ (i < NBUF)%nat /\ i ∉ H
    /\ ((is_for (bufs s i) bn /\ changed i (set_lock held_lock (set_refcnt 1 (bufs s i))) s s')
        \/ ((forall j, (j < NBUF)%nat -> ~ is_for (bufs s j) bn) /\ B_DIRTY (bufs s i) = false
            /\ changed i (set_lock held_lock (set_id 1 bn (bufs s i))) s s')).
Proof.
  intros Hok Hnh Hroom. destruct (co_ring _ _ Hok) as [l Hr].
  pose proof (ring_nodup _ _ _ Hr) as [Hh _]%NoDup_cons. pose proof (ring_length _ _ _ Hr) as Hlen.
  unfold bget, acquire. rewrite kbind_assoc. unfold kbind at 1, gets at 1. rewrite (co_lock _ _ Hok).
  unfold kbind at 1, modify at 1. set (s1 := with_bclock true s).
  unfold kbind at 1, gets at 1.
  rewrite (kbind_ok _ _ _ _ _ (bget_cached_ok s1 1 bn l (S NBUF) HEAD (ring_next _ _ _ Hr) Hh ltac:(lia))).
  change (bufs s1) with (bufs s).
  destruct (List.find _ l) as [i|] eqn:Ef.
  - apply List.find_some in Ef as [Hi Ef]. apply list_elem_of_In in Hi. bool_hyps.
    apply (ring_mem _ _ _ _ Hr) in Hi. assert (Hfor : is_for (bufs s i) bn) by done.
    assert (HiH : i ∉ H) by (intros Hin; by apply (Hnh i Hin)).
    destruct (co_free _ _ Hok i Hi HiH) as (Hl & Hrc & _).
    destruct (bget_take s i (fun x => set_refcnt (refcnt x + 1) x) (co_lock _ _ Hok) Hl eq_refl) as (s' & E & Hch).
    exists i, s'. split; [exact E|]. split; [done|]. split; [done|]. left. split; [done|].
    by rewrite Hrc in Hch.
  - assert (Hno : forall j, (j < NBUF)%nat -> ~ is_for (bufs s j) bn).
    { intros j Hj [Hd Hb]. pose proof (List.find_none _ _ Ef j) as Hn. cbn beta in Hn.
      rewrite Hd, Hb, !Z.eqb_refl in Hn. discriminate Hn. apply list_elem_of_In, (ring_mem _ _ _ _ Hr). done. }
    unfold kbind at 1, gets at 1.
    assert (Hp : path (prev s1) HEAD (reverse l) HEAD) by apply Hr.
    rewrite (kbind_ok _ _ _ _ _ (bget_unused_ok s1 (reverse l) (S NBUF) HEAD Hp
      ltac:(by rewrite elem_of_reverse) ltac:(rewrite length_reverse; lia))).
    change (bufs s1) with (bufs s).
    destruct (List.find _ (reverse l)) as [i|] eqn:Eu.
    + apply List.find_some in Eu as [Hi Eu]. apply list_elem_of_In in Hi. rewrite elem_of_reverse in Hi. bool_hyps.
      apply (ring_mem _ _ _ _ Hr) in Hi.
      assert (HiH : i ∉ H).
      { intros Hin. destruct (co_held _ _ Hok) as [_ Hheld].
        destruct (Hheld i Hin) as (_ & _ & _ & _ & Hrc). congruence. }
      destruct (co_free _ _ Hok i Hi HiH) as (Hl & _ & _).
      destruct (bget_take s i (set_id 1 bn) (co_lock _ _ Hok) Hl eq_refl) as (s' & E & Hch).
      exists i, s'. split; [exact E|]. split; [done|]. split; [done|]. by right.
    + exfalso. destruct Hroom as [(i & Hi & Hf)|(i & Hi & HiH & Hd)]; [by apply (Hno i)|].
      pose proof (List.find_none _ _ Eu i) as Hn. cbn beta in Hn.
      destruct (co_free _ _ Hok i Hi HiH) as (_ & Hrc & _). rewrite Hrc, Hd in Hn. discriminate Hn.
      apply list_elem_of_In. rewrite elem_of_reverse. by apply (ring_mem _ _ _ _ Hr).
Qed.

(** With every buffer held or dirty and the block not cached, bget panics. *)
Lemma bget_panics s H bn :
  cache_ok s H -> (forall j, (j < NBUF)%nat -> ~ is_for (bufs s j) bn) -> ~ spare s H ->
  bget pid 1 bn s = Panic "bget: no buffers".
Proof.
  intros Hok Hno Hns. destruct (co_ring _ _ Hok) as [l Hr].
  pose proof (ring_nodup _ _ _ Hr) as [Hh _]%NoDup_cons. pose proof (ring_length _ _ _ Hr) as Hlen.
  unfold bget, acquire. rewrite kbind_assoc. unfold kbind at 1, gets at 1. rewrite (co_lock _ _ Hok).
  unfold kbind at 1, modify at 1. set (s1 := with_bclock true s).
  unfold kbind at 1, gets at 1.
  rewrite (kbind_ok _ _ _ _ _ (bget_cached_ok s1 1 bn l (S NBUF) HEAD (ring_next _ _ _ Hr) Hh ltac:(lia))).
  change (bufs s1) with (bufs s).
  destruct (List.find _ l) as [i|] eqn:Ef.
  { exfalso. apply List.find_some in Ef as [Hi Ef]. apply list_elem_of_In in Hi. bool_hyps.
    apply (ring_mem _ _ _ _ Hr) in Hi. by apply (Hno i). }
  unfold kbind at 1, gets at 1.
  assert (Hp : path (prev s1) HEAD (reverse l) HEAD) by apply Hr.
  rewrite (kbind_ok _ _ _ _ _ (bget_unused_ok s1 (reverse l) (S NBUF) HEAD Hp
    ltac:(by rewrite elem_of_reverse) ltac:(rewrite length_reverse; lia))).
  change (bufs s1) with (bufs s).
  destruct (List.find _ (reverse l)) as [i|] eqn:Eu; [|done].
  exfalso. apply List.find_some in Eu as [Hi Eu]. apply list_elem_of_In in Hi. rewrite elem_of_reverse in Hi. bool_hyps.
  apply (ring_mem _ _ _ _ Hr) in Hi. apply Hns. exists i. split; [done|]. split; [|done].
  intros Hin. destruct (co_held _ _ Hok) as [_ Hheld].
  destruct (Hheld i Hin) as (_ & _ & _ & _ & Hrc). congruence.
Qed.

Lemma holdingsleep_ok s i :
  lock (bufs s i) = held_lock -> holdingsleep pid i s = Ok true s.
Proof. intros H. unfold holdingsleep, kbind, get, gets, kret. by rewrite H, Z.eqb_refl. Qed.

Lemma iderw_read s i :
  lock (bufs s i) = held_lock -> B_VALID (bufs s i) = false -> B_DIRTY (bufs s i) = false ->
  dev (bufs s i) = 1 -> blockno (bufs s i) < disksize ->
  exists s', iderw disksize pid i s = Ok tt s'
    /\ changed i (set_flags true false (set_data (copy_block (bdata (bufs s i)) (disk s (blockno (bufs s i)))) (bufs s i))) s s'.
Proof.
  intros Hl Hv Hd Hdev Hbn. eexists. split.
  - unfold iderw. rewrite (kbind_ok _ _ _ _ _ (holdingsleep_ok _ _ Hl)). cbn [negb].
    unfold kbind at 1, get, gets. rewrite Hv, Hd, Hdev, Z.geb_leb.
    destruct (Z.leb_spec disksize (blockno (bufs s i))); [lia|]. reflexivity.
  - split; cbn; try done; [rewrite !fn_lookup_insert; by cbn; rewrite Hd|].
    intros j Hj. by rewrite !fn_lookup_insert_ne.
Qed.

Lemma iderw_write s i :
  lock (bufs s i) = held_lock -> B_DIRTY (bufs s i) = true ->
  dev (bufs s i) = 1 -> blockno (bufs s i) < disksize ->
  exists s1, iderw disksize pid i s = Ok tt s1
    /\ changed i (set_flags true false (bufs s i)) (with_disk (blockno (bufs s i)) (bdata (bufs s i)) s) s1.
Proof.
  intros Hl Hd Hdev Hbn. eexists. split.
  - unfold iderw. rewrite (kbind_ok _ _ _ _ _ (holdingsleep_ok _ _ Hl)). cbn [negb].
    unfold kbind at 1, get, gets. rewrite Hd, Hdev, Z.geb_leb, andb_false_r.
    destruct (Z.leb_spec disksize (blockno (bufs s i))); [lia|]. cbn [Z.eqb Pos.eqb negb].
    rewrite kbind_assoc, (kbind_ok _ _ _ _ _ (upd_buf_ok _ _ _)). reflexivity.
  - split; cbn; try done.
    + by rewrite !fn_lookup_insert.
    + intros j Hj. by rewrite !fn_lookup_insert_ne.
Qed.

(** A buffer that becomes held. *)
Lemma cache_ok_hold s H i b s' :
  cache_ok s H -> (i < NBUF)%nat -> i ∉ H -> changed i b s s' ->
  dev b = 1 -> B_VALID b = true -> lock b = held_lock -> refcnt b = 1 -> is_block (bdata b) ->
  (forall j, (j < NBUF)%nat -> j <> i -> ~ is_for (bufs s j) (blockno b)) ->
  cache_ok s' (i :: H).
Proof.
  intros Hok Hi HiH [C1 C2 C3 C4 C5 C6 C7] Hd Hv Hl Hr Hb Hu.
  pose proof (co_held _ _ Hok) as [Hnd Hheld]. split.
  - rewrite C3, C4. apply (co_ring _ _ Hok).
  - rewrite C5. apply (co_lock _ _ Hok).
  - intros j. destruct (decide (j = i)) as [->|Hj]; [by rewrite C1|]. rewrite C2 by done. apply (co_block _ _ Hok).
  - rewrite C6. apply (co_disk _ _ Hok).
  - intros j k Hj Hk. destruct (decide (j = i)) as [->|Hji], (decide (k = i)) as [->|Hki]; [done|..].
    + rewrite C1, C2 by done. intros _ Hf. by destruct (Hu k Hk Hki).
    + rewrite C1, C2 by done. intros Hdj [_ Hf]. destruct (Hu j Hj Hji). done.
    + rewrite !C2 by done. by apply (co_unique _ _ Hok).
  - split; [by constructor|]. intros j [->|Hj]%elem_of_cons.
    + rewrite C1. done.
    + rewrite C2 by (intros ->; done). by apply Hheld.
  - intros j Hj [Hji HjH]%not_elem_of_cons. rewrite C2, C6 by done. by apply (co_free _ _ Hok).
  - intros j Hj. destruct (decide (j = i)) as [->|Hji]; [by rewrite C1|]. rewrite C2 by done. by apply (co_dirty _ _ Hok).
Qed.

(** bread: the buffer of the block, with the block's contents; no block's
    contents, no disk block and no other held buffer changes. *)
(** What bread leaves in its buffer [i], found in the cache or recycled. *)
Record fetched (s : cache) (bn : Z) (i : nat) (s' : cache) : Prop := {
  fe_buf : changed i (set_flags true (B_DIRTY (bufs s i)) (set_data (view s bn) (set_lock held_lock (set_refcnt 1 (set_id 1 bn (bufs s i)))))) s s';
  fe_only : forall j, (j < NBUF)%nat -> j <> i -> ~ is_for (bufs s j) bn;
  fe_clean : is_for (bufs s i) bn \/ B_DIRTY (bufs s i) = false }.

Definition fill_buf (i : nat) : C nat :=
  b <- get i ;; (if negb (B_VALID b) then iderw disksize pid i else kret tt) ;;; kret i.

(** The buffer was there. *)
Lemma fill_found s H i bn s1 : cache_ok s H -> (i < NBUF)%nat -> is_for (bufs s i) bn -> bn < disksize ->
  changed i (set_lock held_lock (set_refcnt 1 (bufs s i))) s s1 -> exists s', fill_buf i s1 = Ok i s' /\ fetched s bn i s'.
Proof.
  intros Hok Hi Hfor Hbn Hch. unfold fill_buf, kbind at 1, get, gets.
  assert (Huq : forall j, (j < NBUF)%nat -> j <> i -> ~ is_for (bufs s j) bn).
  { intros j Hj Hji [Hd Hb]. apply Hji. apply (co_unique _ _ Hok j i Hj Hi Hd). rewrite Hb. by destruct Hfor. }
  rewrite (ch_this _ _ _ _ Hch). cbn. destruct (B_VALID (bufs s i)) eqn:Ev.
  - exists s1. split; [done|]. split; [|done|by left].
    rewrite (view_cached s H i bn Hok Hi Hfor Ev). destruct Hfor as [Hf1 Hf2].
    destruct Hch as [C1 C2 C3 C4 C5 C6 C7]. split; try done. rewrite C1.
    destruct (bufs s i); cbn in *. by subst.
  - assert (Ed : B_DIRTY (bufs s i) = false).
    { destruct (B_DIRTY (bufs s i)) eqn:Ed; [|done]. destruct (co_dirty _ _ Hok i Hi Ed). congruence. }
    pose proof Hfor as [Hf1 Hf2].
    destruct (iderw_read s1 i) as (s2 & E2 & Hch2); try (rewrite (ch_this _ _ _ _ Hch); cbn; done || congruence).
    cbn [negb]. rewrite (kbind_ok _ _ _ _ _ E2). exists s2. split; [done|]. split; [|done|by left].
    pose proof (changed_trans _ _ _ _ _ _ Hch Hch2) as Hc. rewrite (ch_this _ _ _ _ Hch) in Hc.
    cbn in Hc. rewrite (ch_disk _ _ _ _ Hch), Hf2, copy_block_eq in Hc
      by (apply (co_block _ _ Hok) || apply (co_disk _ _ Hok)).
    rewrite view_uncached, Ed.
    + destruct (bufs s i); cbn in *. by subst.
    + intros j Hj Hfj. destruct (decide (j = i)) as [->|Hji]; [done|]. by destruct (Huq j).
Qed.

(** Another block's buffer was taken. *)
Lemma fill_recycled s H i bn s1 : cache_ok s H -> (forall j, (j < NBUF)%nat -> ~ is_for (bufs s j) bn) -> B_DIRTY (bufs s i) = false -> bn < disksize ->
  changed i (set_lock held_lock (set_id 1 bn (bufs s i))) s s1 -> exists s', fill_buf i s1 = Ok i s' /\ fetched s bn i s'.
Proof.
  intros Hok Hno Hcl Hbn Hch. unfold fill_buf, kbind at 1, get, gets. rewrite (ch_this _ _ _ _ Hch). cbn.
  destruct (iderw_read s1 i) as (s2 & E2 & Hch2); try (rewrite (ch_this _ _ _ _ Hch); cbn; done).
  rewrite (kbind_ok _ _ _ _ _ E2). exists s2. split; [done|]. split; [|auto|by right].
  pose proof (changed_trans _ _ _ _ _ _ Hch Hch2) as Hc. rewrite (ch_this _ _ _ _ Hch) in Hc.
  cbn in Hc. rewrite (ch_disk _ _ _ _ Hch), copy_block_eq in Hc
    by (apply (co_block _ _ Hok) || apply (co_disk _ _ Hok)).
  rewrite view_uncached, Hcl; [done|]. intros j Hj Hfj. by destruct (Hno j).
Qed.

(** No block reads as anything else. *)
Lemma fetched_view s H bn i s' : cache_ok s H -> (i < NBUF)%nat -> i ∉ H -> fetched s bn i s' -> cache_ok s' (i :: H) ->
  forall b, view s' b = view s b.
Proof.
  intros Hok Hi HiH [[C1 C2 C3 C4 C5 C6 C7] Huq Hold] Hok'.
  intros b. destruct (view_cases s' _ b Hok') as [(j & Hj & Hf & Hv & ->)|[Hn ->]].
  + destruct (decide (j = i)) as [->|Hji].
    * rewrite C1 in *. destruct Hf as [_ Hf]. cbn in Hf. by subst.
    * rewrite C2 in * by done. symmetry. by apply (view_cached s H).
  + rewrite C6. destruct (view_cases s H b Hok) as [(j & Hj & Hf & Hv & ->)|[Hn' ->]]; [|done].
    destruct (decide (j = i)) as [->|Hji].
    * destruct Hold as [Hfor|Hcl].
      -- specialize (Hn i Hi). rewrite C1 in Hn. destruct Hf as [_ <-], Hfor as [_ Hfb].
         rewrite Hfb in Hn. discriminate Hn. done.
      -- destruct (co_free _ _ Hok i Hi HiH) as (_ & _ & Hd). destruct Hf as [Hf1 Hf2].
         rewrite <- Hf2. symmetry. by apply Hd.
    * specialize (Hn j Hj). rewrite C2 in Hn by done. rewrite Hn in Hv; done.
Qed.

Lemma bread_ok s H bn :
  cache_ok s H -> (forall i, i ∈ H -> ~ is_for (bufs s i) bn) ->
  (exists i, (i < NBUF)%nat /\ is_for (bufs s i) bn) \/ spare s H -> bn < disksize ->
  exists i s', bread disksize pid 1 bn s = Ok i s' /\ cache_ok s' (i :: H) /\ i ∉ H
    /\ is_for (bufs s' i) bn /\ bdata (bufs s' i) = view s bn
    /\ (forall b, view s' b = view s b) /\ disk s' = disk s /\ writes s' = writes s
    /\ (forall j, j <> i -> bufs s' j = bufs s j) /\ B_DIRTY (bufs s' i) = B_DIRTY (bufs s i)
    /\ (B_DIRTY (bufs s i) = true -> is_for (bufs s i) bn)
    /\ (B_DIRTY (bufs s' i) = true \/ bdata (bufs s' i) = disk s' bn).
Proof.
  intros Hok Hnh Hroom Hbn.
  destruct (bget_ok s H bn Hok Hnh Hroom) as (i & s1 & E1 & Hi & HiH & Hcase).
  assert (Hfill : exists s', fill_buf i s1 = Ok i s' /\ fetched s bn i s').
  { destruct Hcase as [[Hfor Hch]|(Hno & Hcl & Hch)]; [by apply (fill_found s H)|by apply (fill_recycled s H)]. }
  destruct Hfill as (s' & E2 & Hf). exists i, s'. split; [unfold bread; by rewrite (kbind_ok _ _ _ _ _ E1)|].
  assert (Hvb : is_block (view s bn)).
  { destruct (view_cases s H bn Hok) as [(j & _ & _ & _ & ->)|[_ ->]]; [apply (co_block _ _ Hok)|apply (co_disk _ _ Hok)]. }
  pose proof Hf as [Hch Huq Hold].
  assert (Hok' : cache_ok s' (i :: H)) by (by eapply cache_ok_hold).
  pose proof (fetched_view s H bn i s' Hok Hi HiH Hf Hok') as Hview. destruct Hch as [C1 C2 C3 C4 C5 C6 C7].
  split_and!; try done; try (by rewrite C1).
  - intros Ed. destruct Hold as [?|?]; [done|congruence].
  - rewrite C1, C6. cbn. destruct (B_DIRTY (bufs s i)) eqn:Ed; [by left|right].
    destruct (view_cases s H bn Hok) as [(j & Hj & Hfj & Hv & ->)|[_ ->]]; [|done].
    destruct (decide (j = i)) as [->|Hji]; [|by destruct (Huq j)].
    destruct (co_free _ _ Hok i Hi HiH) as (_ & _ & Hdd). destruct Hfj as [Hf1 Hf2]. rewrite <- Hf2. by apply Hdd.
Qed.

(** A held buffer that changes while it stays held; [s] may differ from [s1]
    on the disk block of that buffer. *)
Lemma cache_ok_update s s1 H i b s' :
  cache_ok s H -> i ∈ H -> changed i b s1 s' ->
  bufs s1 = bufs s -> next s1 = next s -> prev s1 = prev s -> bc_locked s1 = bc_locked s ->
  (forall bn, bn <> blockno (bufs s i) -> disk s1 bn = disk s bn) -> is_block (disk s1 (blockno (bufs s i))) ->
  dev b = 1 -> blockno b = blockno (bufs s i) -> B_VALID b = true -> lock b = held_lock -> refcnt b = 1 ->
  is_block (bdata b) ->
  cache_ok s' H.
Proof.
  intros Hok HiH [C1 C2 C3 C4 C5 C6 C7] S1 S2 S3 S4 Sd Sb Hd Hbn Hv Hl Hr Hb.
  pose proof (co_held _ _ Hok) as [Hnd Hheld]. destruct (Hheld i HiH) as (Hi & Hid & _).
  assert (Hk : forall j, dev (bufs s' j) = dev (bufs s j) /\ blockno (bufs s' j) = blockno (bufs s j)).
  { intros j. destruct (decide (j = i)) as [->|Hji]; [rewrite C1; split; congruence|by rewrite C2, S1]. }
  split.
  - rewrite C3, C4, S2, S3. apply (co_ring _ _ Hok).
  - rewrite C5, S4. apply (co_lock _ _ Hok).
  - intros j. destruct (decide (j = i)) as [->|Hj]; [by rewrite C1|]. rewrite C2, S1 by done. apply (co_block _ _ Hok).
  - intros bn. rewrite C6. destruct (decide (bn = blockno (bufs s i))) as [->|Hne]; [done|].
    rewrite Sd by done. apply (co_disk _ _ Hok).
  - intros j k Hj Hkk. unfold is_for. rewrite !(proj1 (Hk _)), !(proj2 (Hk _)). by apply (co_unique _ _ Hok).
  - split; [done|]. intros j Hj. destruct (decide (j = i)) as [->|Hji]; [by rewrite C1|].
    rewrite C2, S1 by done. by apply Hheld.
  - intros j Hj HjH. rewrite C2, S1, C6 by (intros ->; done).
    destruct (co_free _ _ Hok j Hj HjH) as (F1 & F2 & F3). split; [done|]. split; [done|].
    intros Hdj Hvj Hcj. rewrite F3 by done. symmetry. apply Sd.
    intros E. apply HjH. rewrite (co_unique _ _ Hok j i Hj Hi Hdj); [done|]. split; congruence.
  - intros j Hj. destruct (decide (j = i)) as [->|Hji]; [by rewrite C1|]. rewrite C2, S1 by done. by apply (co_dirty _ _ Hok).
Qed.

(** The contents after such a change: the buffer's own block has its data. *)
Lemma view_update s H i b s1 s' :
  cache_ok s H -> cache_ok s' H -> i ∈ H -> changed i b s1 s' -> bufs s1 = bufs s ->
  (forall bn, bn <> blockno (bufs s i) -> disk s1 bn = disk s bn) ->
  dev b = 1 -> blockno b = blockno (bufs s i) -> B_VALID b = true ->
  forall bn, view s' bn = if decide (bn = blockno (bufs s i)) then bdata b else view s bn.
Proof.
  intros Hok Hok' HiH [C1 C2 C3 C4 C5 C6 C7] S1 Sd Hd Hbn Hv bn.
  pose proof (co_held _ _ Hok) as [_ Hheld]. destruct (Hheld i HiH) as (Hi & Hid & Hiv & _).
  case_decide as E.
  { rewrite (view_cached s' H i bn Hok' Hi); rewrite C1; [done|split; congruence|done]. }
  assert (Hsame : forall j, j <> i -> bufs s' j = bufs s j) by (intros j Hj; by rewrite C2, S1).
  destruct (view_cases s' H bn Hok') as [(j & Hj & Hf & Hvj & ->)|[Hn ->]].
  - destruct (decide (j = i)) as [->|Hji].
    + rewrite C1 in Hf. destruct Hf as [_ Hf]. congruence.
    + rewrite Hsame in * by done. symmetry. by apply (view_cached s H).
  - rewrite C6, Sd by done. symmetry. apply view_uncached. intros j Hj Hf.
    destruct (decide (j = i)) as [->|Hji]; [destruct Hf; congruence|].
    specialize (Hn j Hj). rewrite Hsame in Hn by done. by apply Hn.
Qed.

(** Changing the data of a held buffer, and pinning it. *)
Definition modify_buf (i : nat) (d : block) (dirt : bool) : C unit :=
  upd_buf i (fun b => set_flags (B_VALID b) (B_DIRTY b || dirt) (set_data d b)).

Lemma modify_buf_ok s H i d dirt :
  cache_ok s H -> i ∈ H -> is_block d ->
  exists s', modify_buf i d dirt s = Ok tt s' /\ cache_ok s' H
    /\ changed i (set_flags true (B_DIRTY (bufs s i) || dirt) (set_data d (bufs s i))) s s'
    /\ (forall bn, view s' bn = if decide (bn = blockno (bufs s i)) then d else view s bn).
Proof.
  intros Hok HiH Hd. pose proof (co_held _ _ Hok) as [_ Hheld].
  destruct (Hheld i HiH) as (Hi & Hid & Hiv & Hil & Hir).
  assert (Hch : changed i (set_flags true (B_DIRTY (bufs s i) || dirt) (set_data d (bufs s i))) s
    (with_buf i (set_flags (B_VALID (bufs s i)) (B_DIRTY (bufs s i) || dirt) (set_data d (bufs s i))) s)).
  { rewrite Hiv. apply with_buf_changed. }
  assert (Hok' : cache_ok (with_buf i (set_flags (B_VALID (bufs s i)) (B_DIRTY (bufs s i) || dirt) (set_data d (bufs s i))) s) H).
  { apply (cache_ok_update s s H i _ _ Hok HiH Hch); try done. apply (co_disk _ _ Hok). }
  eexists. split; [reflexivity|]. split; [exact Hok'|]. split; [exact Hch|].
  apply (view_update s H i _ s _ Hok Hok' HiH Hch); done.
Qed.

(** bwrite: the disk block gets the buffer's data; the contents seen by
    readers do not change, and the buffer is clean. *)
Lemma bwrite_ok s H i :
  cache_ok s H -> i ∈ H -> blockno (bufs s i) < disksize ->
  exists s', bwrite disksize pid i s = Ok tt s' /\ cache_ok s' H
    /\ changed i (set_flags true false (bufs s i)) (with_disk (blockno (bufs s i)) (bdata (bufs s i)) s) s'
    /\ (forall bn, view s' bn = view s bn).
Proof.
  intros Hok HiH Hlt. pose proof (co_held _ _ Hok) as [_ Hheld].
  destruct (Hheld i HiH) as (Hi & Hid & Hiv & Hil & Hir).
  unfold bwrite. rewrite (kbind_ok _ _ _ _ _ (holdingsleep_ok s i Hil)). cbn [negb].
  rewrite (kbind_ok _ _ _ _ _ (upd_buf_ok _ _ _)).
  set (s1 := with_buf i (set_flags (B_VALID (bufs s i)) true (bufs s i)) s).
  pose proof (with_buf_changed i (set_flags (B_VALID (bufs s i)) true (bufs s i)) s) as Hch1. fold s1 in Hch1.
  destruct (iderw_write s1 i) as (s2 & E2 & Hch2); try (rewrite (ch_this _ _ _ _ Hch1); done).
  rewrite (ch_this _ _ _ _ Hch1) in Hch2. cbn in Hch2.
  assert (Hch : changed i (set_flags true false (bufs s i)) (with_disk (blockno (bufs s i)) (bdata (bufs s i)) s) s2).
  { destruct Hch1 as [A1 A2 A3 A4 A5 A6 A7], Hch2 as [B1 B2 B3 B4 B5 B6 B7].
    split; cbn in *; try congruence; [by rewrite B1; destruct (bufs s i)|].
    intros j Hj. by rewrite B2, A2. }
  assert (Hok' : cache_ok s2 H).
  { apply (cache_ok_update s _ H i _ _ Hok HiH Hch); try done; cbn.
    - intros bn Hne. by apply fn_lookup_insert_ne.
    - rewrite fn_lookup_insert. apply (co_block _ _ Hok).
    - apply (co_block _ _ Hok). }
  exists s2. split; [exact E2|]. split; [done|]. split; [done|]. intros bn.
  rewrite (view_update s H i _ _ s2 Hok Hok' HiH Hch); try done.
  - case_decide as E; [|done]. subst bn. cbn. symmetry. by apply (view_cached s H).
  - cbn. intros bn' Hne. by apply fn_lookup_insert_ne.
Qed.

(** brelse of a buffer that is pinned or agrees with the disk. *)
Lemma brelse_ok s H i :
  cache_ok s (i :: H) -> B_DIRTY (bufs s i) = true \/ bdata (bufs s i) = disk s (blockno (bufs s i)) ->
  exists s', brelse pid i s = Ok tt s' /\ cache_ok s' H /\ disk s' = disk s /\ writes s' = writes s
    /\ (forall bn, view s' bn = view s bn)
    /\ (forall j, bdata (bufs s' j) = bdata (bufs s j) /\ B_DIRTY (bufs s' j) = B_DIRTY (bufs s j)
         /\ B_VALID (bufs s' j) = B_VALID (bufs s j)
         /\ dev (bufs s' j) = dev (bufs s j) /\ blockno (bufs s' j) = blockno (bufs s j))
    /\ (forall j, j <> i -> bufs s' j = bufs s j).
Proof.
  intros Hok Hcl. pose proof (co_held _ _ Hok) as [Hnd Hheld].
  destruct (Hheld i ltac:(constructor)) as (Hi & Hid & Hiv & Hil & Hir).
  apply NoDup_cons in Hnd as [HiH Hnd].
  unfold brelse. rewrite (kbind_ok _ _ _ _ _ (holdingsleep_ok s i Hil)). cbn [negb].
  unfold releasesleep. rewrite (kbind_ok _ _ _ _ _ (upd_buf_ok _ _ _)).
  set (s1 := with_buf i _ s).
  assert (Hl1 : bc_locked s1 = false) by apply (co_lock _ _ Hok).
  rewrite (kbind_ok _ _ _ _ _ (acquire_ok s1 Hl1)), (kbind_ok _ _ _ _ _ (upd_buf_ok _ _ _)).
  unfold kbind at 1, get, gets. cbn [bufs with_buf with_bclock s1]. rewrite !fn_lookup_insert.
  cbn [refcnt set_refcnt set_lock]. rewrite Hir. change (1 - 1 =? 0) with true.
  unfold kbind at 1, modify.
  set (b' := set_refcnt (1 - 1) (set_lock {| sl_locked := false; sl_pid := 0 |} (bufs s i))).
  set (s2 := to_front i (with_buf i b' (with_bclock true s1))).
  assert (B2 : forall j, bufs s2 j = if decide (j = i) then b' else bufs s j).
  { intros j. unfold s2. cbn. unfold s1. cbn. case_decide as E.
    - subst j. by rewrite fn_lookup_insert.
    - by rewrite !fn_lookup_insert_ne by done. }
  rewrite (release_ok s2 eq_refl). eexists. split; [reflexivity|].
  set (s3 := with_bclock false s2).
  assert (B3 : forall j, bdata (bufs s3 j) = bdata (bufs s j) /\ B_DIRTY (bufs s3 j) = B_DIRTY (bufs s j)
      /\ B_VALID (bufs s3 j) = B_VALID (bufs s j)
      /\ dev (bufs s3 j) = dev (bufs s j) /\ blockno (bufs s3 j) = blockno (bufs s j)).
  { intros j. change (bufs s3 j) with (bufs s2 j). rewrite B2. case_decide; [subst j|]; done. }
  assert (Hok' : cache_ok s3 H).
  { split.
    - destruct (co_ring _ _ Hok) as [l Hr]. pose proof Hi as Hil'. apply (ring_mem _ _ _ _ Hr) in Hil'.
      apply list_elem_of_split in Hil' as (l1 & l2 & ->). exists (i :: l1 ++ l2).
      apply (to_front_ring (with_bclock true s) i l1 l2) in Hr. exact Hr.
    - done.
    - intros j. destruct (B3 j) as (-> & _). apply (co_block _ _ Hok).
    - apply (co_disk _ _ Hok).
    - intros j k Hj Hk. unfold is_for. destruct (B3 j) as (_ & _ & _ & -> & ->), (B3 k) as (_ & _ & _ & -> & ->).
      by apply (co_unique _ _ Hok).
    - split; [done|]. intros j Hj. change (bufs s3 j) with (bufs s2 j). rewrite B2.
      rewrite decide_False by (intros ->; done). apply Hheld. by constructor.
    - intros j Hj HjH. change (bufs s3 j) with (bufs s2 j). rewrite B2. case_decide as E.
      + subst j. cbn. split; [done|]. split; [done|]. intros _ _ Hd. destruct Hcl as [Hcl|Hcl]; [congruence|done].
      + apply (co_free _ _ Hok j Hj). by apply not_elem_of_cons.
    - intros j Hj. destruct (B3 j) as (_ & -> & -> & -> & _). by apply (co_dirty _ _ Hok). }
  split; [done|]. split; [done|]. split; [done|]. split; [|split; [done|]].
  - intros bn. unfold view. change (disk s3) with (disk s).
    rewrite (find_ext _ (fun j => B_VALID (bufs s j) && bool_decide (is_for (bufs s j) bn))).
    + destruct (List.find _ _) as [j|]; [|done]. apply B3.
    + intros j. destruct (B3 j) as (_ & _ & -> & Ed & Eb). f_equal. apply bool_decide_ext.
      unfold is_for. by rewrite Ed, Eb.
  - intros j Hj. change (bufs s3 j) with (bufs s2 j). rewrite B2. by rewrite decide_False.
Qed.
End facts.

(** C13: bread of a block of the disk that the caller does not hold panics exactly
    when the block has no buffer and every buffer is held or waits for the
    log; otherwise it answers with a buffer, held by the caller, that has the
    contents of the block.  Recycling a buffer never loses contents: no block
    reads differently afterwards, and neither the disk nor another held
    buffer changes. *)
Theorem bread_spec disksize pid s H bn :
  cache_ok pid s H -> (forall i, i ∈ H -> ~ is_for (bufs s i) bn) -> bn < disksize ->
  (bread disksize pid 1 bn s = Panic "bget: no buffers"
   <-> (forall j, (j < NBUF)%nat -> ~ is_for (bufs s j) bn)
       /\ (forall j, (j < NBUF)%nat -> j ∈ H \/ B_DIRTY (bufs s j) = true))
  /\ (bread disksize pid 1 bn s = Panic "bget: no buffers"
      \/ exists i s', bread disksize pid 1 bn s = Ok i s' /\ cache_ok pid s' (i :: H)
         /\ bdata (bufs s' i) = view s bn /\ (forall b, view s' b = view s b)
         /\ disk s' = disk s /\ (forall j, j ∈ H -> bufs s' j = bufs s j)).
Proof.
  intros Hok Hnh Hbn.
  destruct (decide (Exists (fun i => is_for (bufs s i) bn \/ (i ∉ H /\ B_DIRTY (bufs s i) = false)) (seq 0 NBUF))) as [Hex|Hno].
  - apply Exists_exists in Hex as (i & Hi & Hc). rewrite elem_of_seq in Hi.
    destruct (bread_ok disksize pid s H bn Hok Hnh) as (j & s' & E & Hok' & HjH & _ & Hd & Hv & Hdisk & _ & Hj & _); [|done|].
    + destruct Hc as [Hf|[Hh Hdi]]; [left; exists i; split; [lia|done]|right; exists i; split; [lia|done]].
    + rewrite E. split.
      * split; [done|]. intros [H1 H2]. exfalso. destruct Hc as [Hf|[Hh Hdi]]; [by apply (H1 i); [lia|]|].
        destruct (H2 i ltac:(lia)) as [?|?]; [done|congruence].
      * right. exists j, s'. repeat (split; [done|]). intros k Hk. apply Hj. intros ->. done.
  - assert (Hall : forall j, (j < NBUF)%nat -> ~ is_for (bufs s j) bn /\ (j ∈ H \/ B_DIRTY (bufs s j) = true)).
    { intros j Hj. apply not_Exists_Forall in Hno; [|intros; apply _].
      pose proof (proj1 (Forall_forall _ _) Hno j ltac:(rewrite elem_of_seq; lia)) as Hn. cbn in Hn.
      split; [tauto|]. destruct (decide (j ∈ H)); [by left|]. right.
      destruct (B_DIRTY (bufs s j)); [done|]. exfalso. tauto. }
    assert (Hp : bread disksize pid 1 bn s = Panic "bget: no buffers").
    { unfold bread, kbind at 1. rewrite (bget_panics pid s H bn Hok); [done|intros j Hj; by apply Hall|].
      intros (i & Hi & HiH & Hd). destruct (Hall i Hi) as [_ [?|?]]; [done|congruence]. }
    rewrite Hp. split; [|by left]. split; [intros _|done]. split; intros j Hj; by apply Hall.
Qed.

(** The caches after binit, on buffers that are all zero. *)
Lemma binit_ok pid s :
  (forall i, bufs s i = {| B_VALID := false; B_DIRTY := false; dev := 0; blockno := 0;
     lock := {| sl_locked := false; sl_pid := 0 |}; refcnt := 0; bdata := zero_block |}) ->
  (forall bn, is_block (disk s bn)) ->
  exists s', binit s = Ok tt s' /\ cache_ok pid s' [] /\ disk s' = disk s /\ writes s' = writes s
    /\ (forall i, (i < NBUF)%nat -> B_DIRTY (bufs s' i) = false).
Proof.
  intros Hz Hd. pose proof (binit_ring s) as Hr. exists (binit_state s). split; [done|].
  assert (Hfold : forall l s0, (forall i, bufs s0 i = bufs s i) -> disk s0 = disk s -> writes s0 = writes s -> bc_locked s0 = false ->
    let s1 := fold_left binit_step l s0 in
    (forall i, bufs s1 i = bufs s i) /\ disk s1 = disk s /\ writes s1 = writes s /\ bc_locked s1 = false).
  { induction l as [|b l IH]; intros s0 Hb Hdk Hw Hl; [done|]. cbn [fold_left]. apply IH; try done.
    intros i. unfold binit_step. cbn. destruct (decide (b = i)) as [->|Hne].
    - rewrite fn_lookup_insert, Hb, Hz. done.
    - by rewrite fn_lookup_insert_ne. }
  destruct (Hfold (seq 0 NBUF) (with_links (<[HEAD:=HEAD]> (next s)) (<[HEAD:=HEAD]> (prev s)) (with_bclock false s)))
    as (Hb & Hdk & Hw & Hl); try done.
  fold (binit_state s) in Hb, Hdk, Hw, Hl. set (s' := binit_state s) in *. clearbody s'.
  split; [|split; [done|split; [done|]]].
  - split.
    + eauto.
    + done.
    + intros i. rewrite Hb, Hz. apply zero_block_ok.
    + rewrite Hdk. apply Hd.
    + intros i j _ _. by rewrite Hb, Hz.
    + split; [constructor|]. intros i Hi. by apply elem_of_nil in Hi.
    + intros i _ _. by rewrite Hb, Hz.
    + intros i _. by rewrite Hb, Hz.
  - intros i _. by rewrite Hb, Hz.
Qed.

Definition blank : cache :=
  {| bufs := fun _ => {| B_VALID := false; B_DIRTY := false; dev := 0; blockno := 0;
       lock := {| sl_locked := false; sl_pid := 0 |}; refcnt := 0; bdata := zero_block |};
     next := fun _ => O; prev := fun _ => O; bc_locked := false;
     disk := fun _ => zero_block; writes := [] |}.

Lemma bread_spec_witness : exists s i s', binit blank = Ok tt s /\ bread 1000 1 1 7 s = Ok i s'
  /\ bdata (bufs s' i) = view s 7.
Proof.
  destruct (binit_ok 1 blank (fun _ => eq_refl) (fun _ => zero_block_ok)) as (s & E & Hok & _ & _ & Hd).
  exists s. destruct (bread_spec 1000 1 s [] 7 Hok) as [Hiff [Hp|(i & s' & Eb & _ & Hb & _)]].
  - intros i Hi. apply elem_of_nil in Hi. destruct Hi.
  - lia.
  - exfalso. apply Hiff in Hp as [_ Hall]. destruct (Hall 0%nat ltac:(unfold NBUF; lia)) as [Hin|Hdi].
    + apply elem_of_nil in Hin. exact Hin.
    + rewrite Hd in Hdi; [discriminate Hdi|unfold NBUF; lia].
  - exists i, s'. split; [exact E|]. split; [exact Eb|exact Hb].
Defined.

(** ** How many buffers are free *)

Lemma spare_count pid s H bl :
  cache_ok pid s H -> (forall i, (i < NBUF)%nat -> B_DIRTY (bufs s i) = true -> blockno (bufs s i) ∈ bl) ->
  (length bl + length H < NBUF)%nat -> spare s H.
Proof.
  intros Hok Hbl Hlen.
  destruct (decide (Exists (fun i => i ∉ H /\ B_DIRTY (bufs s i) = false) (seq 0 NBUF))) as [Hex|Hno].
  { apply Exists_exists in Hex as (i & Hi & Hh & Hd). rewrite elem_of_seq in Hi. exists i. split; [lia|done]. }
  exfalso. apply not_Exists_Forall in Hno; [|intros; apply _]. rewrite Forall_forall in Hno.
  set (D := filter (fun i => B_DIRTY (bufs s i) = true) (seq 0 NBUF)).
  assert (HD : forall i, i ∈ D -> (i < NBUF)%nat /\ B_DIRTY (bufs s i) = true).
  { intros i Hi. apply list_elem_of_filter in Hi as [Hd Hi]. rewrite elem_of_seq in Hi. split; [lia|done]. }
  assert (Hsub : seq 0 NBUF ⊆ H ++ D).
  { intros i Hi. apply elem_of_app. pose proof (Hno i Hi) as Hn. cbn in Hn.
    destruct (decide (i ∈ H)); [by left|]. right. apply list_elem_of_filter. split; [|done].
    destruct (B_DIRTY (bufs s i)); [done|tauto]. }
  assert (Hmap : (length D <= length bl)%nat).
  { rewrite <- (length_map (fun i => blockno (bufs s i)) D). apply submseteq_length, NoDup_submseteq.
    - apply NoDup_fmap_2_strong; [|apply NoDup_filter, NoDup_seq].
      intros i j Hi Hj E. destruct (HD i Hi) as [Hi1 Hi2], (HD j Hj) as [Hj1 Hj2].
      destruct (co_dirty _ _ _ Hok i Hi1 Hi2) as [Hdi _], (co_dirty _ _ _ Hok j Hj1 Hj2) as [Hdj _].
      apply (co_unique _ _ _ Hok); done.
    - intros x Hx. apply list_elem_of_fmap in Hx as (i & -> & Hi). destruct (HD i Hi). by apply Hbl. }
  assert (Hle : (length (seq 0 NBUF) <= length (H ++ D))%nat).
  { apply submseteq_length, NoDup_submseteq; [apply NoDup_seq|done]. }
  rewrite length_seq, length_app in Hle. lia.
Qed.
