(* ===== verification/Log.v ===== *)
(** * The write-ahead log (log.c)

    The log runs on the buffer cache of Bio.v, for one process at a time
    inside commit (only the end_op that finds no other operation outstanding
    commits) and for any number of interleaved operations outside.  A crash
    loses everything but the disk; the disk's writes are recorded in order,
    so a crash point is a prefix of them. *)

From S2P Require Import Prelude Mem Block Bio.
#[local] Open Scope Z_scope.
#[local] Open Scope kernel_scope.

Definition LOGSIZE : Z := MAXOPBLOCKS * 3.

(** [struct log], its [logheader] [lh] as the count and the array of
    [LOGSIZE] block numbers, and the buffer cache it uses. *)
Record log := {
  lcache : cache;
  log_locked : bool;
  log_start : Z;
  log_size : Z;
  outstanding : Z;
  committing : bool;
  log_dev : Z;
  lh_n : Z;
  lh_block : Z -> Z }.

Definition LG : Type -> Type := K log.

Definition set_cache (c : cache) (s : log) : log :=
  {| lcache := c; log_locked := log_locked s; log_start := log_start s; log_size := log_size s;
     outstanding := outstanding s; committing := committing s; log_dev := log_dev s;
     lh_n := lh_n s; lh_block := lh_block s |}.
Definition set_loglock (b : bool) (s : log) : log :=
  {| lcache := lcache s; log_locked := b; log_start := log_start s; log_size := log_size s;
     outstanding := outstanding s; committing := committing s; log_dev := log_dev s;
     lh_n := lh_n s; lh_block := lh_block s |}.
Definition set_log (start size dv : Z) (s : log) : log :=
  {| lcache := lcache s; log_locked := false; log_start := start; log_size := size;
     outstanding := outstanding s; committing := committing s; log_dev := dv;
     lh_n := lh_n s; lh_block := lh_block s |}.
Definition set_outstanding (o : Z) (c : bool) (s : log) : log :=
  {| lcache := lcache s; log_locked := log_locked s; log_start := log_start s; log_size := log_size s;
     outstanding := o; committing := c; log_dev := log_dev s;
     lh_n := lh_n s; lh_block := lh_block s |}.
Definition set_lh (n : Z) (b : Z -> Z) (s : log) : log :=
  {| lcache := lcache s; log_locked := log_locked s; log_start := log_start s; log_size := log_size s;
     outstanding := outstanding s; committing := committing s; log_dev := log_dev s;
     lh_n := n; lh_block := b |}.

(** A routine of the buffer cache. *)
Definition on_cache {A} (m : C A) : LG A := fun s =>
  match m (lcache s) with
  | Ok a c => Ok a (set_cache c s)
  | Panic e => Panic e
  | Fault e => Fault e
  | NoFuel => NoFuel
  end.

Definition acquire : LG unit :=
  l <- gets log_locked ;; if l : bool then panic "acquire" else modify (set_loglock true).
Definition release : LG unit :=
  l <- gets log_locked ;; if l : bool then modify (set_loglock false) else panic "release".

(** [log.lh.block[i]], an array of [LOGSIZE] ints. *)
Definition get_block (i : Z) : LG Z :=
  if (0 <=? i) && (i <? LOGSIZE) then gets (fun s => lh_block s i) else fault "log.lh.block".
Definition put_block (i v : Z) : LG unit :=
  if (0 <=? i) && (i <? LOGSIZE) then modify (fun s => set_lh (lh_n s) (<[i := v]> (lh_block s)) s)
  else fault "log.lh.block".

(** The fields of the header block: [n] at offset 0, [block[i]] at 4 + 4 i. *)
Definition hb_n (b : block) : Z := s32 (get32 b 0).
Definition hb_block (b : block) (i : Z) : Z := s32 (get32 b (4 + 4 * i)).

(** The superblock, as fs.h lays it out on block 1. *)
Record superblock := {
  sb_size : Z;
  sb_nblocks : Z;
  sb_ninodes : Z;
  sb_nlog : Z;
  sb_logstart : Z;
  sb_inodestart : Z;
  sb_bmapstart : Z }.

Definition sb_of (b : block) : superblock :=
  {| sb_size := get32 b 0; sb_nblocks := get32 b 4; sb_ninodes := get32 b 8; sb_nlog := get32 b 12;
     sb_logstart := get32 b 16; sb_inodestart := get32 b 20; sb_bmapstart := get32 b 24 |}.

Section log.
Context (disksize pid : Z).

Definition bread (bn : Z) : LG nat := dv <- gets log_dev ;; on_cache (Bio.bread disksize pid dv bn).
Definition bwrite (i : nat) : LG unit := on_cache (Bio.bwrite disksize pid i).
Definition brelse (i : nat) : LG unit := on_cache (Bio.brelse pid i).
Definition data_of (i : nat) : LG block := gets (fun s => bdata (bufs (lcache s) i)).
Definition put_data (i : nat) (d : block) : LG unit := on_cache (upd_buf i (set_data d)).

(** [readsb] of fs.c. *)
Definition readsb (dv : Z) : LG superblock :=
  bp <- on_cache (Bio.bread disksize pid dv 1) ;;
  d <- data_of bp ;;
  brelse bp ;;;
  kret (sb_of d).

(** [for (tail = 0; tail < log.lh.n; tail++) body(tail)]. *)
Definition for_tail (body : Z -> LG unit) : LG unit :=
  n <- gets lh_n ;; for_each (map Z.of_nat (seq 0 (Z.to_nat n))) body.

Definition install_trans : LG unit :=
  for_tail (fun tail =>
    start <- gets log_start ;;
    lbuf <- bread (start + tail + 1) ;;
    bn <- get_block tail ;;
    dbuf <- bread bn ;;
    d <- data_of dbuf ;; l <- data_of lbuf ;;
    put_data dbuf (copy_block d l) ;;;
    bwrite dbuf ;;;
    brelse lbuf ;;;
    brelse dbuf).

Definition read_head : LG unit :=
  start <- gets log_start ;;
  b <- bread start ;;
  hb <- data_of b ;;
  modify (fun s => set_lh (hb_n hb) (lh_block s) s) ;;;
  for_tail (fun i => put_block i (hb_block hb i)) ;;;
  brelse b.

Definition write_head : LG unit :=
  start <- gets log_start ;;
  b <- bread start ;;
  n <- gets lh_n ;;
  hb <- data_of b ;;
  put_data b (put32 hb 0 n) ;;;
  for_tail (fun i =>
    v <- get_block i ;;
    hb <- data_of b ;;
    put_data b (put32 hb (4 + 4 * i) v)) ;;;
  bwrite b ;;;
  brelse b.

Definition clear_head : LG unit := modify (fun s => set_lh 0 (lh_block s) s).

Definition recover_from_log : LG unit :=
  read_head ;;;
  install_trans ;;;
  clear_head ;;;
  write_head.

(** sizeof(struct logheader) is 4 + 4 LOGSIZE. *)
Definition initlog (dv : Z) : LG unit :=
  if 4 + 4 * LOGSIZE >=? BSIZE then panic "initlog: too big logheader"
  else
    sb <- readsb dv ;;
    modify (set_log (s32 (sb_logstart sb)) (s32 (sb_nlog sb)) dv) ;;;
    recover_from_log.

Definition write_log : LG unit :=
  for_tail (fun tail =>
    start <- gets log_start ;;
    to <- bread (start + tail + 1) ;;
    bn <- get_block tail ;;
    from <- bread bn ;;
    t <- data_of to ;; f <- data_of from ;;
    put_data to (copy_block t f) ;;;
    bwrite to ;;;
    brelse from ;;;
    brelse to).

Definition commit : LG unit :=
  n <- gets lh_n ;;
  if n >? 0 then
    write_log ;;;
    write_head ;;;
    install_trans ;;;
    clear_head ;;;
    write_head
  else kret tt.

(** One test of begin_op's loop: [true] when the operation is admitted,
    [false] when the process sleeps on [&log]. *)
Definition begin_op_try : LG bool :=
  c <- gets committing ;;
  if c : bool then kret false
  else
    n <- gets lh_n ;;
    o <- gets outstanding ;;
    if n + (o + 1) * MAXOPBLOCKS >? LOGSIZE then kret false
    else
      modify (set_outstanding (o + 1) false) ;;;
      kret true.

Definition begin_op : LG bool := acquire ;;; r <- begin_op_try ;; release ;;; kret r.

(** end_op up to the decision to commit. *)
Definition end_op_begin : LG bool :=
  acquire ;;;
  c <- gets committing ;;
  o <- gets outstanding ;;
  (if c : bool then panic "log.committing" else kret tt) ;;;
  (if o - 1 =? 0 then modify (set_outstanding 0 true)
   else modify (set_outstanding (o - 1) false)) ;;;
  release ;;;
  kret (o - 1 =? 0).

(** The end of commit, and the wakeup of the processes that wait for it. *)
Definition end_op_done : LG unit :=
  acquire ;;;
  o <- gets outstanding ;;
  modify (set_outstanding o false) ;;;
  release.

Definition end_op : LG unit :=
  do_commit <- end_op_begin ;;
  if do_commit : bool then commit ;;; end_op_done else kret tt.

(** The index of the block in the header, or [lh.n]. *)
Fixpoint absorb (block : Z -> Z) (bn i : Z) (todo : nat) : Z :=
  match todo with
  | O => i
  | S todo => if block i =? bn then i else absorb block bn (i + 1) todo
  end.

Definition log_write (b : nat) : LG unit :=
  n <- gets lh_n ;;
  size <- gets log_size ;;
  if (n >=? LOGSIZE) || (n >=? size - 1) then panic "too big a transaction"
  else
    o <- gets outstanding ;;
    if o <? 1 then panic "log_write outside of trans"
    else
      acquire ;;;
      blk <- gets lh_block ;;
      bn <- gets (fun s => blockno (bufs (lcache s) b)) ;;
      let i := absorb blk bn 0 (Z.to_nat n) in
      put_block i bn ;;;
      (if i =? n then modify (fun s => set_lh (lh_n s + 1) (lh_block s) s) else kret tt) ;;;
      on_cache (upd_buf b (fun x => set_flags (B_VALID x) true x)) ;;;
      release.
End log.
