(* ===== verification/LogFacts.v ===== *)
(** * What the log guarantees (log.c)

    The writes of commit in order, what recovery makes of a disk, and from
    the two the atomicity of a transaction across a crash; then the
    reservation of log space by begin_op and end_op. *)

From S2P Require Import Prelude Mem Block Bio Log.
#[local] Open Scope Z_scope.
#[local] Open Scope kernel_scope.

(** The disk after a sequence of writes. *)
Definition apply_writes (ws : list (Z * block)) (d : Z -> block) : Z -> block :=
  fold_left (fun d w => <[w.1 := w.2]> d) ws d.

Lemma apply_writes_app ws1 ws2 d : apply_writes (ws1 ++ ws2) d = apply_writes ws2 (apply_writes ws1 d).
Proof. apply fold_left_app. Qed.

Lemma apply_writes_other ws d b : b ∉ ws.*1 -> apply_writes ws d b = d b.
Proof.
  revert d. induction ws as [|[x y] ws IH]; intros d Hb; [done|]. cbn in *.
  apply not_elem_of_cons in Hb as [Hx Hb]. unfold apply_writes in *. cbn. rewrite IH by done.
  by apply fn_lookup_insert_ne.
Qed.

Lemma apply_writes_in ws d b v :
  (forall v', (b, v') ∈ ws -> v' = v) -> b ∈ ws.*1 -> apply_writes ws d b = v.
Proof.
  intros Hv. induction ws as [|[x y] ws IH] using rev_ind; intros Hb; [by apply elem_of_nil in Hb|].
  rewrite apply_writes_app. cbn. destruct (decide (x = b)) as [->|Hne].
  - rewrite fn_lookup_insert. apply Hv. apply elem_of_app. right. constructor.
  - rewrite fn_lookup_insert_ne by done. apply IH.
    + intros v' Hin. apply Hv, elem_of_app. by left.
    + rewrite fmap_app, elem_of_app in Hb. destruct Hb as [Hb|Hb]; [done|].
      apply list_elem_of_singleton in Hb. cbn in Hb. congruence.
Qed.

(** What a block gets is its last write. *)
Lemma apply_writes_same ws d d' b : b ∈ ws.*1 -> apply_writes ws d b = apply_writes ws d' b.
Proof.
  induction ws as [|[x y] ws IH] using rev_ind; intros Hb; [by apply elem_of_nil in Hb|].
  rewrite !apply_writes_app. cbn. destruct (decide (x = b)) as [->|Hne]; [by rewrite !fn_lookup_insert|].
  rewrite !fn_lookup_insert_ne by done. apply IH.
  rewrite fmap_app, elem_of_app in Hb. destruct Hb as [Hb|Hb]; [done|].
  apply list_elem_of_singleton in Hb. cbn in Hb. congruence.
Qed.

Section facts.
Context (disksize pid : Z).

(** ** Pairs of buffers *)

(** The blocks that wait for the log: exactly those with a dirty buffer. *)
Definition pinned (c : cache) (P : list Z) : Prop :=
  forall bn, bn ∈ P <-> exists i, (i < NBUF)%nat /\ is_for (bufs c i) bn /\ B_DIRTY (bufs c i) = true.

Lemma pinned_spare c H P :
  cache_ok pid c H -> pinned c P -> (length P + length H < NBUF)%nat -> spare c H.
Proof.
  intros Hok HP Hlen. apply (spare_count pid c H P Hok); [|done].
  intros i Hi Hd. apply HP. exists i. split; [done|]. split; [|done].
  split; [|done]. by apply (co_dirty _ _ _ Hok).
Qed.

Lemma cache_ok_perm c H H' : H ≡ₚ H' -> cache_ok pid c H -> cache_ok pid c H'.
Proof.
  intros HP [C1 C2 C3 C4 C5 [C6 C6'] C7 C8]. split; try done.
  - split; [by rewrite <- HP|]. intros i Hi. apply C6'. by rewrite HP.
  - intros i Hi Hn. apply C7; [done|]. by rewrite HP.
Qed.

(** A buffer that was not held and is not dirty agrees with the disk. *)
Lemma view_clean c P bn :
  cache_ok pid c [] -> pinned c P -> bn ∉ P -> view c bn = disk c bn.
Proof.
  intros Hok HP Hn. destruct (view_cases pid c [] bn Hok) as [(i & Hi & Hf & Hv & ->)|[_ ->]]; [|done].
  destruct (co_free _ _ _ Hok i Hi (not_elem_of_nil _)) as (_ & _ & Hd). destruct Hf as [Hf1 Hf2].
  rewrite <- Hf2. apply Hd; [done|done|]. destruct (B_DIRTY (bufs c i)) eqn:Ed; [|done].
  exfalso. apply Hn, HP. exists i. done.
Qed.

(** A buffer held for block [bn] has the contents that readers see; as bread
    leaves it, it is also pinned or equal to the disk. *)
Record held (c : cache) (i : nat) (bn : Z) : Prop := {
  h_for : is_for (bufs c i) bn;
  h_lt : (i < NBUF)%nat;
  h_data : bdata (bufs c i) = view c bn }.
Definition opened (c : cache) (i : nat) (bn : Z) : Prop :=
  held c i bn /\ (B_DIRTY (bufs c i) = true \/ bdata (bufs c i) = disk c bn).

(** From [c] to [c'], where [H'] are held and [P'] pinned: the disk writes
    [ws] were made, first to last, and the buffers outside [mine] are the same. *)
Record cstep (mine : nat -> Prop) (c c' : cache) (H' : list nat) (P' : list Z) (ws : list (Z * block)) : Prop := {
  cs_ok : cache_ok pid c' H';
  cs_pin : pinned c' P';
  cs_disk : disk c' = apply_writes ws (disk c);
  cs_writes : writes c' = reverse ws ++ writes c;
  cs_bufs : forall j, ~ mine j -> bufs c' j = bufs c j }.

Lemma read_one c H P bn :
  cache_ok pid c H -> pinned c P -> (forall i, i ∈ H -> ~ is_for (bufs c i) bn) ->
  bn ∈ P \/ (length P + length H < NBUF)%nat -> bn < disksize ->
  exists i c', Bio.bread disksize pid 1 bn c = Ok i c' /\ cstep (fun j => j ∉ H) c c' (i :: H) P []
    /\ opened c' i bn /\ (forall b, view c' b = view c b).
Proof.
  intros Hok HP Hnh Hroom Hlt.
  destruct (bread_ok disksize pid c H bn Hok Hnh) as (i & c' & E & Hok' & HiH & Hf & Hd & Hv & Hdk & Hw & Hoth & Hdi & Hdf & Hcl);
    [|done|].
  { destruct Hroom as [Hin|Hlen]; [left|right; by eapply pinned_spare].
    apply HP in Hin as (i & Hi & Hf & _). by exists i. }
  exists i, c'. split; [done|].
  assert (Hi : (i < NBUF)%nat) by (apply (proj2 (co_held _ _ _ Hok') i); constructor).
  split; [split; try done|split; [split; [split; try done; by rewrite Hv|done]|done]].
  2: { intros j Hj. apply Hoth. intros ->. apply Hj. done. }
  intros b. rewrite (HP b). split; intros (j & Hj & Hfj & Hdj); exists j; (split; [done|]).
  - destruct (decide (j = i)) as [->|Hji]; [|by rewrite Hoth].
    rewrite Hdi. split; [|done]. destruct (Hdf Hdj) as [_ E1], Hfj as [_ E2]. by rewrite <- E2, E1.
  - destruct (decide (j = i)) as [->|Hji]; [|by rewrite Hoth in Hfj, Hdj].
    rewrite Hdi in Hdj. split; [|done]. destruct Hfj as [_ Hb], Hf as [_ Hb']. rewrite <- Hb, Hb'. by apply Hdf.
Qed.

Lemma held_frame c c' i bn :
  held c i bn -> bufs c' i = bufs c i -> view c' bn = view c bn -> held c' i bn.
Proof. intros [O1 O2 O3] E1 E2. split; rewrite ?E1, ?E2; done. Qed.

Lemma opened_frame c c' i bn :
  opened c i bn -> bufs c' i = bufs c i -> view c' bn = view c bn -> disk c' bn = disk c bn -> opened c' i bn.
Proof. intros [O1 O2] E1 E2 E3. split; [by apply (held_frame c)|by rewrite E1, E3]. Qed.

(** The data of a held buffer replaced. *)
Lemma put_one c H P i bn d :
  cache_ok pid c H -> pinned c P -> i ∈ H -> held c i bn -> is_block d ->
  exists c', upd_buf i (set_data d) c = Ok tt c' /\ cstep (eq i) c c' H P []
    /\ held c' i bn /\ bdata (bufs c' i) = d
    /\ (forall b, view c' b = if decide (b = bn) then d else view c b).
Proof.
  intros Hok HP Hi [[Of1 Of2] O2 O3] Hd.
  destruct (modify_buf_ok pid c H i d false Hok Hi Hd) as (c1 & E1 & Hok1 & Hch1 & Hv1).
  rewrite Of2 in Hv1. exists c1. pose proof (ch_this _ _ _ _ Hch1) as Ht.
  assert (Hb : bdata (bufs c1 i) = d) by (by rewrite Ht).
  split; [|split; [|split; [|split; [done|done]]]].
  - rewrite <- E1. unfold modify_buf. rewrite !upd_buf_ok. f_equal. f_equal. rewrite orb_false_r. by destruct (bufs c i).
  - destruct Hch1 as [C1 C2 C3 C4 C5 C6 C7]. split; try done; [|intros j Hj; apply C2; congruence].
    intros b. rewrite (HP b). apply exist_proper. intros j. destruct (decide (j = i)) as [->|Hji]; [|by rewrite C2].
    rewrite C1. cbn. by rewrite orb_false_r.
  - split; [by rewrite Ht|done|]. by rewrite Hb, Hv1, decide_True.
Qed.

(** A held buffer written to its block of the disk. *)
Lemma flush_one c H P i bn :
  cache_ok pid c H -> pinned c P -> i ∈ H -> held c i bn -> bn < disksize ->
  exists c', Bio.bwrite disksize pid i c = Ok tt c'
    /\ cstep (eq i) c c' H (filter (fun b => b <> bn) P) [(bn, view c bn)]
    /\ opened c' i bn /\ (forall b, view c' b = view c b).
Proof.
  intros Hok HP Hi [[Of1 Of2] O2 O3] Hlt.
  destruct (bwrite_ok disksize pid c H i Hok Hi ltac:(by rewrite Of2)) as (c2 & E2 & Hok2 & Hch2 & Hv2).
  rewrite Of2, O3 in Hch2. exists c2. destruct Hch2 as [C1 C2 C3 C4 C5 C6 C7]. cbn in C2, C6, C7.
  split; [done|]. split; [split; try done|split; [split; [split; rewrite ?C1; try done; by rewrite Hv2|]|done]].
  - intros b. rewrite list_elem_of_filter, (HP b). split.
    + intros (Hne & j & Hj & Hfj & Hdj). exists j. split; [done|].
      rewrite C2; [done|]. intros ->. apply Hne. destruct Hfj as [_ <-]. done.
    + intros (j & Hj & Hfj & Hdj). destruct (decide (j = i)) as [->|Hji]; [by rewrite C1 in Hdj|].
      rewrite C2 in Hfj, Hdj by done. split; [|by exists j].
      intros ->. apply Hji. apply (co_unique _ _ _ Hok j i Hj O2); [apply Hfj|].
      destruct Hfj as [_ ->]. done.
  - intros j Hj. apply C2. congruence.
  - right. rewrite C1, C6. cbn. by rewrite fn_lookup_insert.
Qed.

Lemma close_one c H P i bn :
  cache_ok pid c (i :: H) -> pinned c P -> opened c i bn ->
  exists c', Bio.brelse pid i c = Ok tt c' /\ cstep (eq i) c c' H P [] /\ (forall b, view c' b = view c b).
Proof.
  intros Hok HP [[[Of1 Of2] O2 O3] O4].
  destruct (brelse_ok pid c H i Hok) as (c' & E & Hok' & Hd & Hw & Hv & Hsame & Hoth); [by rewrite Of2|].
  exists c'. split; [done|]. split; [split; try done|done].
  - intros b. rewrite (HP b). split; intros (j & Hj & Hf & Hdj); exists j; (split; [done|]);
      destruct (Hsame j) as (_ & E1 & _ & E2 & E3); unfold is_for in *; (split; [destruct Hf; split|]); congruence.
  - intros j Hj. apply Hoth. congruence.
Qed.

Lemma cstep_trans m1 m2 c c1 c2 H1 H2 P1 P2 ws1 ws2 :
  cstep m1 c c1 H1 P1 ws1 -> cstep m2 c1 c2 H2 P2 ws2 ->
  cstep (fun j => m1 j \/ m2 j) c c2 H2 P2 (ws1 ++ ws2).
Proof.
  intros [A1 A2 A3 A4 A5] [B1 B2 B3 B4 B5]. split; [done|done|..].
  - by rewrite B3, A3, apply_writes_app.
  - by rewrite B4, A4, reverse_app, app_assoc.
  - intros j Hj. rewrite B5, A5 by tauto. done.
Qed.

(** ** Routines of the log *)

Lemma on_cache_ok {A} (m : C A) s a c' :
  m (lcache s) = Ok a c' -> on_cache m s = Ok a (set_cache c' s).
Proof. unfold on_cache. by intros ->. Qed.

Lemma bread_run s bn i c' : log_dev s = 1 ->
  Bio.bread disksize pid 1 bn (lcache s) = Ok i c' -> Log.bread disksize pid bn s = Ok i (set_cache c' s).
Proof. intros Hd E. unfold Log.bread, kbind, gets. rewrite Hd. by apply on_cache_ok. Qed.

(** Two blocks read one after the other, by a routine of the log. *)
Lemma two_reads c P x y :
  cache_ok pid c [] -> pinned c P -> x <> y -> x < disksize -> y < disksize ->
  x ∈ P \/ (length P < NBUF)%nat -> y ∈ P \/ (length P + 1 < NBUF)%nat ->
  exists i c2 j c3,
    Bio.bread disksize pid 1 x c = Ok i c2 /\ Bio.bread disksize pid 1 y c2 = Ok j c3
    /\ cstep (fun _ => True) c c3 [j; i] P [] /\ opened c3 i x /\ opened c3 j y
    /\ (forall b, view c3 b = view c b).
Proof.
  intros Hok HP Hne Hx Hy Rx Ry.
  destruct (read_one c [] P x Hok HP) as (i & c2 & E2 & S2 & O2 & V2).
  { intros i Hi. by apply elem_of_nil in Hi. } { cbn. rewrite Nat.add_0_r. done. } { done. }
  destruct (read_one c2 [i] P y (cs_ok _ _ _ _ _ _ S2) (cs_pin _ _ _ _ _ _ S2)) as (j & c3 & E3 & S3 & O3 & V3).
  { intros k Hk. apply list_elem_of_singleton in Hk as ->. intros [_ Hf].
    destruct O2 as [[[_ Hf2] _ _] _]. congruence. } { done. } { done. }
  exists i, c2, j, c3. split; [done|]. split; [done|]. split; [|split; [|split; [done|]]].
  - pose proof (cstep_trans _ _ _ _ _ _ _ _ _ _ _ S2 S3) as [A1 A2 A3 A4 A5]. by split.
  - apply (opened_frame c2 _ _ _ O2); [|done|by rewrite (cs_disk _ _ _ _ _ _ S3)].
    apply (cs_bufs _ _ _ _ _ _ S3). intros Hn. apply Hn. constructor.
  - intros b. by rewrite V3.
Qed.

(** Contents [d] of one held buffer copied to another, written, and both
    released: the common end of a round of write_log and install_trans. *)
Lemma copy_tail s H P i j src dst :
  let c := lcache s in
  cache_ok pid c H -> H ≡ₚ [i; j] -> pinned c P -> opened c i src -> held c j dst -> src <> dst -> dst < disksize ->
  exists c',
    (put_data j (copy_block (bdata (bufs c j)) (bdata (bufs c i))) ;;; Log.bwrite disksize pid j ;;;
     Log.brelse pid i ;;; Log.brelse pid j) s = Ok tt (set_cache c' s)
    /\ cstep (fun _ => True) c c' [] (filter (fun b => b <> dst) P) [(dst, view c src)]
    /\ (forall b, view c' b = if decide (b = dst) then view c src else view c b).
Proof.
  intros c Hok HH HP Hi Hj Hne Hlt. apply (cache_ok_perm _ _ _ HH) in Hok.
  assert (Hji : j <> i).
  { intros ->. apply Hne. destruct Hi as [[[_ <-] _ _] _], Hj as [[_ <-] _ _]. done. }
  rewrite copy_block_eq by apply (co_block _ _ _ Hok).
  destruct (put_one c [i; j] P j dst (bdata (bufs c i)) Hok HP ltac:(by right; left) Hj (co_block _ _ _ Hok i))
    as (c1 & E1 & S1 & H1 & D1 & V1).
  rewrite (h_data _ _ _ (proj1 Hi)) in D1, V1, E1 |- *.
  destruct (flush_one c1 [i; j] P j dst (cs_ok _ _ _ _ _ _ S1) (cs_pin _ _ _ _ _ _ S1) ltac:(by right; left) H1 Hlt)
    as (c2 & E2 & S2 & O2 & V2).
  pose proof (cstep_trans _ _ _ _ _ _ _ _ _ _ _ S1 S2) as S12. cbn [app] in S12.
  rewrite V1, decide_True in S12 by done.
  assert (Oi : opened c2 i src).
  { apply (opened_frame c _ _ _ Hi).
    - apply (cs_bufs _ _ _ _ _ _ S12). intros [|]; congruence.
    - by rewrite V2, V1, decide_False.
    - rewrite (cs_disk _ _ _ _ _ _ S12). by apply fn_lookup_insert_ne. }
  destruct (close_one c2 [j] _ i src (cs_ok _ _ _ _ _ _ S12) (cs_pin _ _ _ _ _ _ S12) Oi) as (c3 & E3 & S3 & V3).
  assert (Oj : opened c3 j dst).
  { apply (opened_frame c2 _ _ _ O2); [|done|by rewrite (cs_disk _ _ _ _ _ _ S3)].
    apply (cs_bufs _ _ _ _ _ _ S3). congruence. }
  destruct (close_one c3 [] _ j dst (cs_ok _ _ _ _ _ _ S3) (cs_pin _ _ _ _ _ _ S3) Oj) as (c4 & E4 & S4 & V4).
  exists c4. split; [|split].
  - unfold put_data. rewrite (kbind_ok _ _ _ _ _ (on_cache_ok _ _ _ _ E1)).
    rewrite (kbind_ok _ _ _ _ _ (on_cache_ok (Bio.bwrite disksize pid j) (set_cache c1 s) _ _ E2)).
    rewrite (kbind_ok _ _ _ _ _ (on_cache_ok (Bio.brelse pid i) (set_cache c2 s) _ _ E3)).
    apply (on_cache_ok (Bio.brelse pid j) (set_cache c3 s) _ _ E4).
  - pose proof (cstep_trans _ _ _ _ _ _ _ _ _ _ _ (cstep_trans _ _ _ _ _ _ _ _ _ _ _ S12 S3) S4) as [B1 B2 B3 B4 B5].
    by split.
  - intros b. rewrite V4, V3, V2, V1. done.
Qed.

(** A loop over the header whose round [k] makes the write [ws !! k] with the
    contents that block [src k] had before the loop. *)
Lemma copy_loop s P ws (f : Z -> LG unit) (src : nat -> Z) :
  let c := lcache s in
  cache_ok pid c [] -> pinned c P -> lh_n s = Z.of_nat (length ws) ->
  (forall k dst v, ws !! k = Some (dst, v) -> src k ∉ (take k ws).*1 /\ view c (src k) = v) ->
  (forall k dst v c1 P1, ws !! k = Some (dst, v) -> cache_ok pid c1 [] -> pinned c1 P1 ->
     P1 = filter (fun b => b ∉ (take k ws).*1) P ->
     exists c2, f (Z.of_nat k) (set_cache c1 s) = Ok tt (set_cache c2 s)
       /\ cstep (fun _ => True) c1 c2 [] (filter (fun b => b <> dst) P1) [(dst, view c1 (src k))]
       /\ (forall b, view c2 b = if decide (b = dst) then view c1 (src k) else view c1 b)) ->
  exists c', for_tail f s = Ok tt (set_cache c' s)
    /\ cstep (fun _ => True) c c' [] (filter (fun b => b ∉ ws.*1) P) ws
    /\ (forall b, view c' b = apply_writes ws (view c) b).
Proof.
  intros c Hok HP Hn Hsrc Hf. unfold for_tail, kbind at 1, gets. rewrite Hn, Nat2Z.id.
  destruct (for_each_seq f (fun k t => exists c', t = set_cache c' s
    /\ cstep (fun _ => True) c c' [] (filter (fun b => b ∉ (take k ws).*1) P) (take k ws)
    /\ (forall b, view c' b = apply_writes (take k ws) (view c) b)) (length ws) s) as (t & E & c' & -> & Hc).
  - exists c. split; [by destruct s|]. split; [|done]. split; try done.
    rewrite filter_id; [done|]. apply Forall_forall. intros b _. apply not_elem_of_nil.
  - intros k t Hk (c1 & -> & S1 & V1). destruct (lookup_lt_is_Some_2 _ _ Hk) as [[dst v] Hw].
    destruct (Hsrc _ _ _ Hw) as [Hs <-].
    destruct (Hf k dst _ c1 _ Hw (cs_ok _ _ _ _ _ _ S1) (cs_pin _ _ _ _ _ _ S1) eq_refl) as (c2 & E2 & S2 & V2).
    exists (set_cache c2 s). split; [done|]. exists c2. split; [done|].
    rewrite (take_S_r _ _ _ Hw). rewrite V1 in S2, V2. rewrite apply_writes_other in S2, V2 by done. split.
    + pose proof (cstep_trans _ _ _ _ _ _ _ _ _ _ _ S1 S2) as [A1 A2 A3 A4 A5]. split; try done.
      intros b. rewrite <- (A2 b), !list_elem_of_filter, fmap_app, not_elem_of_app. cbn.
      rewrite list_elem_of_singleton. tauto.
    + intros b. rewrite V2, apply_writes_app. cbn. case_decide as Eb.
      * subst. by rewrite fn_lookup_insert.
      * rewrite fn_lookup_insert_ne by done. by rewrite V1.
  - rewrite take_ge in Hc by done. by exists c'.
Qed.

Definition log_area (s : log) (b : Z) : Prop := log_start s <= b < log_start s + log_size s.

(** The header in memory lists the blocks [bl], which lie outside the log. *)
Record header_ok (s : log) (bl : list Z) : Prop := {
  ho_dev : log_dev s = 1;
  ho_n : lh_n s = Z.of_nat (length bl);
  ho_block : forall k b, bl !! k = Some b -> lh_block s (Z.of_nat k) = b;
  ho_size : Z.of_nat (length bl) < log_size s <= LOGSIZE;
  ho_nodup : NoDup bl;
  ho_home : forall b, b ∈ bl -> 2 <= b < disksize /\ ~ log_area s b;
  ho_disk : 2 <= log_start s /\ log_start s + log_size s <= disksize /\ disksize <= 2 ^ 31 }.

(** The writes of write_log and of install_trans. *)
Definition log_writes (start : Z) (v : Z -> block) (bl : list Z) : list (Z * block) :=
  imap (fun k b => (start + Z.of_nat k + 1, v b)) bl.
Definition home_writes (start : Z) (v : Z -> block) (bl : list Z) : list (Z * block) :=
  imap (fun k b => (b, v (start + Z.of_nat k + 1))) bl.

Lemma log_writes_lookup start v bl k dst d :
  log_writes start v bl !! k = Some (dst, d) ->
  exists b, bl !! k = Some b /\ dst = start + Z.of_nat k + 1 /\ d = v b.
Proof. unfold log_writes. rewrite list_lookup_imap. intros (b & Hb & E)%fmap_Some. injection E as -> ->. by exists b. Qed.

Lemma home_writes_lookup start v bl k dst d :
  home_writes start v bl !! k = Some (dst, d) ->
  bl !! k = Some dst /\ d = v (start + Z.of_nat k + 1).
Proof. unfold home_writes. rewrite list_lookup_imap. intros (b & Hb & E)%fmap_Some. by injection E as -> ->. Qed.

Lemma in_log_writes s bl b v k : header_ok s bl ->
  b ∈ (take k (log_writes (log_start s) v bl)).*1 -> log_start s < b /\ log_area s b.
Proof.
  intros Ho Hin. apply list_elem_of_fmap in Hin as ([x y] & -> & Hin). cbn.
  apply list_elem_of_lookup in Hin as (j & Hj). apply lookup_take_Some in Hj as [Hj _].
  apply log_writes_lookup in Hj as (b & Hb & -> & _). apply lookup_lt_Some in Hb.
  destruct Ho. unfold log_area. lia.
Qed.

Lemma in_home_writes start v bl b k : b ∈ (take k (home_writes start v bl)).*1 -> b ∈ bl.
Proof.
  intros Hin. apply list_elem_of_fmap in Hin as ([x y] & -> & Hin). cbn.
  apply list_elem_of_lookup in Hin as (j & Hj). apply lookup_take_Some in Hj as [Hj _].
  apply home_writes_lookup in Hj as [Hj _]. by apply list_elem_of_lookup_2 in Hj.
Qed.

Lemma home_writes_fst start v bl : (home_writes start v bl).*1 = bl.
Proof.
  unfold home_writes. apply list_eq. intros k. rewrite list_lookup_fmap, list_lookup_imap.
  by destruct (bl !! k).
Qed.

Lemma get_block_ok s bl k b : header_ok s bl -> bl !! k = Some b -> get_block (Z.of_nat k) s = Ok b s.
Proof.
  intros Ho Hb. pose proof (lookup_lt_Some _ _ _ Hb) as Hk. pose proof (ho_size _ _ Ho).
  unfold get_block. rewrite (proj2 (Z.leb_le _ _)), (proj2 (Z.ltb_lt _ _)) by lia. cbn.
  unfold gets. by rewrite (ho_block _ _ Ho _ _ Hb).
Qed.

Lemma header_set_cache c s bl : header_ok s bl -> header_ok (set_cache c s) bl.
Proof. by intros []. Qed.

Lemma header_room s bl : header_ok s bl -> (length bl < NBUF)%nat.
Proof. intros []. unfold LOGSIZE, MAXOPBLOCKS, NBUF in *. lia. Qed.

(** write_log copies the contents of the listed blocks to the log. *)
Lemma write_log_ok s bl :
  let c := lcache s in
  header_ok s bl -> cache_ok pid c [] -> pinned c bl ->
  exists c', write_log disksize pid s = Ok tt (set_cache c' s)
    /\ cstep (fun _ => True) c c' [] bl (log_writes (log_start s) (view c) bl)
    /\ (forall b, view c' b = apply_writes (log_writes (log_start s) (view c) bl) (view c) b).
Proof.
  intros c Ho Hok HP. set (ws := log_writes (log_start s) (view c) bl).
  assert (Hfil : forall k, filter (fun b => b ∉ (take k ws).*1) bl = bl).
  { intros k. apply filter_id, Forall_forall. intros b Hb Hin.
    apply in_log_writes in Hin as [_ Hin]; [|done]. by apply (ho_home _ _ Ho b Hb). }
  destruct (copy_loop s bl ws (fun tail => start <- gets log_start ;;
    to <- Log.bread disksize pid (start + tail + 1) ;; bn <- get_block tail ;; from <- Log.bread disksize pid bn ;;
    t <- data_of to ;; f <- data_of from ;; put_data to (copy_block t f) ;;; Log.bwrite disksize pid to ;;;
    Log.brelse pid from ;;; Log.brelse pid to) (fun k => default 0 (bl !! k)) Hok HP) as (c' & E & S & V).
  - unfold ws, log_writes. rewrite length_imap. apply Ho.
  - intros k dst v Hw. apply log_writes_lookup in Hw as (b & Hb & -> & ->). rewrite Hb. cbn. split; [|done].
    intros Hin. apply in_log_writes in Hin as [_ Hin]; [|done].
    by apply (ho_home _ _ Ho b (list_elem_of_lookup_2 _ _ _ Hb)).
  - intros k dst v c1 P1 Hw Hok1 HP1 ->. rewrite Hfil in *.
    apply log_writes_lookup in Hw as (b & Hb & -> & ->). rewrite Hb. cbn [default].
    pose proof (list_elem_of_lookup_2 _ _ _ Hb) as Hin. destruct (ho_home _ _ Ho b Hin) as [Hbd Hbl].
    pose proof (lookup_lt_Some _ _ _ Hb) as Hk. pose proof (ho_size _ _ Ho) as Hsz. pose proof (ho_disk _ _ Ho) as Hds.
    pose proof (header_room _ _ Ho) as Hroom.
    set (dst := log_start s + Z.of_nat k + 1).
    assert (Hdst : log_area s dst) by (unfold log_area, dst; lia).
    assert (Hne : dst <> b) by (intros ->; done).
    destruct (two_reads c1 bl dst b Hok1 HP1) as (j & c2 & i & c3 & E2 & E3 & S3 & O2 & O3 & V3);
      [done|unfold dst; lia|lia|by right|by left|].
    destruct (copy_tail (set_cache c3 s) [i; j] bl i j b dst (cs_ok _ _ _ _ _ _ S3) ltac:(done)
      (cs_pin _ _ _ _ _ _ S3) O3 (proj1 O2)) as (c4 & E4 & S4 & V4); [done|unfold dst; lia|].
    exists c4. cbn [lcache set_cache] in S4, V4, E4. rewrite V3 in S4, V4. split; [|split].
    + rewrite (kbind_ok _ _ _ _ _ (eq_refl : gets log_start (set_cache c1 s) = Ok (log_start s) _)). fold dst.
      rewrite (kbind_ok _ _ _ _ _ (bread_run (set_cache c1 s) dst j c2 (ho_dev _ _ Ho) E2)).
      rewrite (kbind_ok _ _ _ _ _ (get_block_ok _ _ _ _ (header_set_cache c2 s bl Ho) Hb)).
      rewrite (kbind_ok _ _ _ _ _ (bread_run (set_cache c2 s) b i c3 (ho_dev _ _ Ho) E3)).
      exact E4.
    + pose proof (cstep_trans _ _ _ _ _ _ _ _ _ _ _ S3 S4) as [A1 A2 A3 A4 A5]. by split.
    + intros b'. rewrite V4, V3. done.
  - exists c'. split; [exact E|]. split; [|exact V].
    specialize (Hfil (length ws)). rewrite take_ge in Hfil by done. by rewrite Hfil in S.
Qed.

(** install_trans copies the log to the listed blocks, in a commit, where they
    are the pinned ones, or in recovery, where none is. *)
Lemma install_trans_ok s bl P :
  let c := lcache s in
  header_ok s bl -> cache_ok pid c [] -> pinned c P -> P = bl \/ P = [] ->
  exists c', install_trans disksize pid s = Ok tt (set_cache c' s)
    /\ cstep (fun _ => True) c c' [] [] (home_writes (log_start s) (view c) bl)
    /\ (forall b, view c' b = apply_writes (home_writes (log_start s) (view c) bl) (view c) b).
Proof.
  intros c Ho Hok HP HPbl. set (ws := home_writes (log_start s) (view c) bl).
  destruct (copy_loop s P ws (fun tail => start <- gets log_start ;;
    lbuf <- Log.bread disksize pid (start + tail + 1) ;; bn <- get_block tail ;; dbuf <- Log.bread disksize pid bn ;;
    d <- data_of dbuf ;; l <- data_of lbuf ;; put_data dbuf (copy_block d l) ;;; Log.bwrite disksize pid dbuf ;;;
    Log.brelse pid lbuf ;;; Log.brelse pid dbuf) (fun k => log_start s + Z.of_nat k + 1) Hok HP) as (c' & E & S & V).
  - unfold ws, home_writes. rewrite length_imap. apply Ho.
  - intros k dst v Hw. apply home_writes_lookup in Hw as [Hb ->]. split; [|done].
    intros Hin. apply in_home_writes in Hin. apply (ho_home _ _ Ho _ Hin). unfold log_area.
    apply lookup_lt_Some in Hb. pose proof (ho_size _ _ Ho). lia.
  - intros k b v c1 P1 Hw Hok1 HP1 EP.
    apply home_writes_lookup in Hw as [Hb _].
    pose proof (list_elem_of_lookup_2 _ _ _ Hb) as Hin. destruct (ho_home _ _ Ho b Hin) as [Hbd Hbl].
    pose proof (lookup_lt_Some _ _ _ Hb) as Hk. pose proof (ho_size _ _ Ho) as Hsz. pose proof (ho_disk _ _ Ho) as Hds.
    pose proof (header_room _ _ Ho) as Hroom. set (src := log_start s + Z.of_nat k + 1).
    assert (Hsrc : log_area s src) by (unfold log_area, src; lia).
    assert (Hlen : (length P1 <= length P)%nat) by (rewrite EP; apply length_filter).
    assert (Hroom1 : b ∈ P1 \/ (length P1 + 1 < NBUF)%nat).
    { destruct HPbl as [->| ->]; [left|right; cbn in Hlen; unfold NBUF; lia].
      rewrite EP. apply list_elem_of_filter. split; [|done].
      unfold ws. rewrite fmap_take, home_writes_fst. intros Hin'.
      apply list_elem_of_lookup in Hin' as (k' & Hk'). apply lookup_take_Some in Hk' as [Hk' Hlt].
      pose proof (NoDup_lookup _ _ _ _ (ho_nodup _ _ Ho) Hb Hk'). lia. }
    assert (Hne : src <> b) by (intros ->; done).
    destruct (two_reads c1 P1 src b Hok1 HP1) as (i & c2 & j & c3 & E2 & E3 & S3 & O2 & O3 & V3);
      [done|unfold src; lia|lia|right; destruct HPbl as [->| ->]; cbn in *; lia|done|].
    destruct (copy_tail (set_cache c3 s) [j; i] P1 i j src b (cs_ok _ _ _ _ _ _ S3) ltac:(constructor)
      (cs_pin _ _ _ _ _ _ S3) O2 (proj1 O3)) as (c4 & E4 & S4 & V4); [done|lia|].
    exists c4. cbn [lcache set_cache] in S4, V4, E4. rewrite V3 in S4, V4. split; [|split].
    + rewrite (kbind_ok _ _ _ _ _ (eq_refl : gets log_start (set_cache c1 s) = Ok (log_start s) _)). fold src.
      rewrite (kbind_ok _ _ _ _ _ (bread_run (set_cache c1 s) src i c2 (ho_dev _ _ Ho) E2)).
      rewrite (kbind_ok _ _ _ _ _ (get_block_ok _ _ _ _ (header_set_cache c2 s bl Ho) Hb)).
      rewrite (kbind_ok _ _ _ _ _ (bread_run (set_cache c2 s) b j c3 (ho_dev _ _ Ho) E3)).
      exact E4.
    + pose proof (cstep_trans _ _ _ _ _ _ _ _ _ _ _ S3 S4) as [A1 A2 A3 A4 A5]. by split.
    + intros b'. rewrite V4, V3. done.
  - exists c'. split; [exact E|]. split; [|exact V].
    replace (filter _ P) with (@nil Z) in S; [exact S|]. symmetry.
    unfold ws. rewrite home_writes_fst. destruct HPbl as [->| ->]; [|done].
    apply elem_of_nil_inv. intros x. rewrite list_elem_of_filter. tauto.
Qed.

(** ** The header block *)

(** A header block that lists [bl]. *)
Record lists (h : block) (bl : list Z) : Prop := {
  li_block : is_block h;
  li_n : hb_n h = Z.of_nat (length bl);
  li_bl : forall k b, bl !! k = Some b -> hb_block h (Z.of_nat k) = b }.

Lemma s32_u32 x : is_s32 x -> s32 (u32 x) = x.
Proof.
  unfold is_s32, s32, u32. intros Hx. rewrite Z.add_mod_idemp_l by lia.
  rewrite Z.mod_small by lia. lia.
Qed.

(** A word of the header's array stored in a held buffer. *)
Lemma hb_block_put h k v : is_block h -> 0 <= k < LOGSIZE -> is_s32 v ->
  let h' := put32 h (4 + 4 * k) v in
  is_block h' /\ hb_n h' = hb_n h /\ hb_block h' k = v /\ (forall j, 0 <= j -> j <> k -> hb_block h' j = hb_block h j).
Proof.
  intros Hh Hk Hv h'. unfold LOGSIZE, MAXOPBLOCKS in Hk. unfold h'. split; [by apply put32_ok|]. split; [|split].
  - unfold hb_n. rewrite get32_put32_ne by lia. done.
  - unfold hb_block. rewrite get32_put32 by (unfold BSIZE; first [done|lia]). by apply s32_u32.
  - intros j Hj Hne. unfold hb_block. rewrite get32_put32_ne by lia. done.
Qed.

Lemma fill_ok s bl P i c c2 :
  header_ok s bl -> cstep (fun _ => True) c c2 [i] P [] -> held c2 i (log_start s) ->
  is_block (bdata (bufs c2 i)) -> hb_n (bdata (bufs c2 i)) = Z.of_nat (length bl) ->
  exists c', for_tail (fun k => v <- get_block k ;; hb <- data_of i ;; put_data i (put32 hb (4 + 4 * k) v)) (set_cache c2 s)
      = Ok tt (set_cache c' s)
    /\ cstep (fun _ => True) c c' [i] P [] /\ held c' i (log_start s)
    /\ is_block (bdata (bufs c' i)) /\ hb_n (bdata (bufs c' i)) = Z.of_nat (length bl)
    /\ (forall j b, (j < length bl)%nat -> bl !! j = Some b -> hb_block (bdata (bufs c' i)) (Z.of_nat j) = b)
    /\ (forall b, b <> log_start s -> view c' b = view c2 b).
Proof.
  intros Ho S2 H2 B2 N2. pose proof (ho_size _ _ Ho) as Hsz. pose proof (ho_disk _ _ Ho) as Hds. set (st := log_start s) in *.
  unfold for_tail. rewrite (kbind_ok _ _ _ _ _ (eq_refl : gets lh_n (set_cache c2 s) = Ok (lh_n s) _)), (ho_n _ _ Ho), Nat2Z.id.
  destruct (for_each_seq (fun k => v <- get_block k ;; hb <- data_of i ;; put_data i (put32 hb (4 + 4 * k) v))
    (fun k t => exists c', t = set_cache c' s /\ cstep (fun _ => True) c c' [i] P [] /\ held c' i st
       /\ is_block (bdata (bufs c' i)) /\ hb_n (bdata (bufs c' i)) = Z.of_nat (length bl)
       /\ (forall j b, (j < k)%nat -> bl !! j = Some b -> hb_block (bdata (bufs c' i)) (Z.of_nat j) = b)
       /\ (forall b, b <> st -> view c' b = view c2 b)) (length bl) (set_cache c2 s))
    as (t & E3 & c3 & -> & S3 & H3 & Hb3 & Hn3 & Hl3 & V3).
  - exists c2. repeat (split; [done|]). split; [lia|done].
  - intros k t Hk (c3 & -> & S3 & H3 & Hb3 & Hn3 & Hl3 & V3).
    destruct (lookup_lt_is_Some_2 _ _ Hk) as [b Hb].
    destruct (ho_home _ _ Ho b (list_elem_of_lookup_2 _ _ _ Hb)) as [Hbd _].
    destruct (hb_block_put (bdata (bufs c3 i)) (Z.of_nat k) b Hb3) as (Q1 & Q2 & Q3 & Q4); [lia|unfold is_s32; lia|].
    destruct (put_one c3 [i] P i st _ (cs_ok _ _ _ _ _ _ S3) (cs_pin _ _ _ _ _ _ S3) ltac:(constructor) H3 Q1)
      as (c4 & E4 & S4 & H4 & D4 & V4).
    exists (set_cache c4 s). split.
    + rewrite (kbind_ok _ _ _ _ _ (get_block_ok _ _ _ _ (header_set_cache c3 s bl Ho) Hb)).
      apply (on_cache_ok _ (set_cache c3 s) _ _ E4).
    + exists c4. split; [done|].
      pose proof (cstep_trans _ _ _ _ _ _ _ _ _ _ _ S3 S4) as S34. split; [by destruct S34; split|].
      split; [done|]. rewrite D4. split; [done|]. split; [by rewrite Q2|]. split.
      * intros j b' Hj Hb'. destruct (decide (j = k)) as [->|Hne]; [congruence|]. rewrite Q4 by lia. apply Hl3; [lia|done].
      * intros b' Hb'. by rewrite V4, decide_False, V3.
  - exists c3. by repeat (split; [done|]).
Qed.

Lemma write_head_ok s bl P :
  let c := lcache s in
  header_ok s bl -> cache_ok pid c [] -> pinned c P -> (forall b, b ∈ P -> b <> log_start s) -> (length P < NBUF)%nat ->
  exists c' h, write_head disksize pid s = Ok tt (set_cache c' s) /\ lists h bl
    /\ cstep (fun _ => True) c c' [] P [(log_start s, h)]
    /\ (forall b, view c' b = if decide (b = log_start s) then h else view c b).
Proof.
  intros c Ho Hok HP Hst Hroom. pose proof (ho_size _ _ Ho) as Hsz. pose proof (ho_disk _ _ Ho) as Hds.
  set (st := log_start s) in *.
  destruct (read_one c [] P st Hok HP) as (i & c1 & E1 & S1 & O1 & V1);
    [intros j Hj; by apply elem_of_nil in Hj|right; cbn; lia|lia|].
  destruct (put_one c1 [i] P i st (put32 (bdata (bufs c1 i)) 0 (Z.of_nat (length bl)))
    (cs_ok _ _ _ _ _ _ S1) (cs_pin _ _ _ _ _ _ S1) ltac:(constructor) (proj1 O1)
    (put32_ok _ _ _ (co_block _ _ _ (cs_ok _ _ _ _ _ _ S1) i))) as (c2 & E2 & S2 & H2 & D2 & V2).
  pose proof (co_block _ _ _ (cs_ok _ _ _ _ _ _ S1) i) as Hb1.
  pose proof (cstep_trans _ _ _ _ _ _ _ _ _ _ _ S1 S2) as S12.
  destruct (fill_ok s bl P i c c2 Ho ltac:(by destruct S12; split) H2) as (c3 & E3 & S3 & H3 & Hb3 & Hn3 & Hl3 & V3); [..|fold st in H3, V3].
  { rewrite D2. by apply put32_ok. }
  { rewrite D2. unfold hb_n. rewrite get32_put32 by (unfold BSIZE; first [done|lia]). apply s32_u32.
    unfold is_s32. unfold LOGSIZE, MAXOPBLOCKS in Hsz. lia. }
  assert (V3' : forall b, b <> st -> view c3 b = view c b).
  { intros b Hb. by rewrite V3, V2, decide_False, V1. }
  destruct (flush_one c3 [i] P i st (cs_ok _ _ _ _ _ _ S3) (cs_pin _ _ _ _ _ _ S3) ltac:(constructor) H3) as (c4 & E4 & S4 & O4 & V4); [lia|].
  destruct (close_one c4 [] _ i st (cs_ok _ _ _ _ _ _ S4) (cs_pin _ _ _ _ _ _ S4) O4) as (c5 & E5 & S5 & V5).
  pose proof (cstep_trans _ _ _ _ _ _ _ _ _ _ _ (cstep_trans _ _ _ _ _ _ _ _ _ _ _ S3 S4) S5) as S345.
  rewrite <- (h_data _ _ _ H3) in S345. cbn [app] in S345. rewrite filter_id in S345 by (by apply Forall_forall).
  exists c5, (bdata (bufs c3 i)). split; [|split; [split; [done|done|]|split]].
  - unfold write_head. rewrite (kbind_ok _ _ _ _ _ (eq_refl : gets log_start s = Ok st _)).
    rewrite (kbind_ok _ _ _ _ _ (bread_run s st i c1 (ho_dev _ _ Ho) E1)).
    rewrite (kbind_ok _ _ _ _ _ (eq_refl : gets lh_n (set_cache c1 s) = Ok (lh_n s) _)), (ho_n _ _ Ho).
    rewrite (kbind_ok _ _ _ _ _ (eq_refl : data_of i (set_cache c1 s) = Ok (bdata (bufs c1 i)) _)).
    rewrite (kbind_ok _ _ _ _ _ (on_cache_ok _ (set_cache c1 s) _ _ E2)).
    rewrite (kbind_ok _ _ _ _ _ E3).
    rewrite (kbind_ok _ _ _ _ _ (on_cache_ok (Bio.bwrite disksize pid i) (set_cache c3 s) _ _ E4)).
    apply (on_cache_ok _ (set_cache c4 s) _ _ E5).
  - intros k b Hb. apply Hl3; [by apply lookup_lt_Some in Hb|done].
  - by destruct S345; split.
  - intros b. rewrite V5, V4. case_decide as Eb; [subst b; by rewrite <- (h_data _ _ _ H3)|by apply V3'].
Qed.

Lemma read_head_ok s h bl :
  let c := lcache s in
  log_dev s = 1 -> log_start s < disksize -> cache_ok pid c [] -> pinned c [] ->
  view c (log_start s) = h -> lists h bl -> Z.of_nat (length bl) <= LOGSIZE ->
  exists c' blk, read_head disksize pid s = Ok tt (set_cache c' (set_lh (Z.of_nat (length bl)) blk s))
    /\ (forall k b, bl !! k = Some b -> blk (Z.of_nat k) = b)
    /\ cstep (fun _ => True) c c' [] [] [] /\ (forall b, view c' b = view c b).
Proof.
  intros c Hdv Hlt Hok HP Hh [L1 L2 L3] Hsz. set (st := log_start s) in *. set (n := Z.of_nat (length bl)) in *.
  destruct (read_one c [] [] st Hok HP) as (i & c1 & E1 & S1 & O1 & V1);
    [intros j Hj; by apply elem_of_nil in Hj|right; cbn; unfold NBUF; lia|lia|].
  pose proof (h_data _ _ _ (proj1 O1)) as Hd. rewrite V1, Hh in Hd.
  destruct (close_one c1 [] [] i st (cs_ok _ _ _ _ _ _ S1) (cs_pin _ _ _ _ _ _ S1) O1) as (c2 & E2 & S2 & V2).
  destruct (for_each_seq (fun i => put_block i (hb_block h i))
    (fun k t => exists blk, t = set_cache c1 (set_lh n blk s)
       /\ forall j b, (j < k)%nat -> bl !! j = Some b -> blk (Z.of_nat j) = b) (length bl)
    (set_cache c1 (set_lh n (lh_block s) s))) as (t & E & blk & -> & Hblk).
  - exists (lh_block s). split; [done|]. lia.
  - intros k t Hk (blk & -> & Hblk). exists (set_cache c1 (set_lh n (<[Z.of_nat k:=hb_block h (Z.of_nat k)]> blk) s)). split.
    + unfold put_block. rewrite (proj2 (Z.leb_le 0 (Z.of_nat k))), (proj2 (Z.ltb_lt (Z.of_nat k) LOGSIZE)) by lia. done.
    + eexists. split; [done|]. intros j b Hj Hb. destruct (decide (j = k)) as [->|Hne].
      * rewrite fn_lookup_insert. by apply L3.
      * rewrite fn_lookup_insert_ne by lia. apply Hblk; [lia|done].
  - exists c2, blk. split; [|split; [|split; [|intros b; by rewrite V2]]].
    + unfold read_head. rewrite (kbind_ok _ _ _ _ _ (eq_refl : gets log_start s = Ok st _)).
      rewrite (kbind_ok _ _ _ _ _ (bread_run s st i c1 Hdv E1)).
      rewrite (kbind_ok _ _ _ _ _ (eq_refl : data_of i (set_cache c1 s) = Ok (bdata (bufs c1 i)) _)), Hd, L2. fold n.
      rewrite (kbind_ok _ _ _ _ _ (eq_refl : modify (fun s => set_lh n (lh_block s) s) (set_cache c1 s)
        = Ok tt (set_cache c1 (set_lh n (lh_block s) s)))).
      unfold for_tail. rewrite kbind_assoc.
      rewrite (kbind_ok _ _ _ _ _ (eq_refl : gets lh_n (set_cache c1 (set_lh n (lh_block s) s)) = Ok n _)).
      unfold n at 1. rewrite Nat2Z.id, (kbind_ok _ _ _ _ _ E).
      apply (on_cache_ok _ (set_cache c1 (set_lh n blk s)) _ _ E2).
    + intros k b Hb. apply (Hblk k b); [by apply lookup_lt_Some in Hb|done].
    + pose proof (cstep_trans _ _ _ _ _ _ _ _ _ _ _ S1 S2) as S12. by destruct S12; split.
Qed.

Lemma header_clear s bl : header_ok s bl -> header_ok (set_lh 0 (lh_block s) s) [].
Proof.
  intros [H1 H2 H3 H4 H5 H6 H7]. split; try done; [cbn in *; lia|constructor|].
  intros b Hb. by apply elem_of_nil in Hb.
Qed.

(** The end of a commit and of recovery: the log installed and erased. *)
Lemma install_and_clear s bl P :
  let c := lcache s in
  header_ok s bl -> cache_ok pid c [] -> pinned c P -> P = bl \/ P = [] ->
  exists c' h, (install_trans disksize pid ;;; clear_head ;;; write_head disksize pid) s
      = Ok tt (set_cache c' (set_lh 0 (lh_block s) s))
    /\ lists h []
    /\ cstep (fun _ => True) c c' [] [] (home_writes (log_start s) (view c) bl ++ [(log_start s, h)]).
Proof.
  intros c Ho Hok HP HPbl. destruct (install_trans_ok s bl P Ho Hok HP HPbl) as (c1 & E1 & S1 & V1).
  destruct (write_head_ok (set_cache c1 (set_lh 0 (lh_block s) s)) [] []) as (c2 & h & E2 & L2 & S2 & V2).
  - by apply header_set_cache, (header_clear s bl).
  - apply S1.
  - apply S1.
  - intros b Hb. by apply elem_of_nil in Hb.
  - cbn. unfold NBUF. lia.
  - exists c2, h. split; [|split; [done|]].
    + rewrite (kbind_ok _ _ _ _ _ E1).
      rewrite (kbind_ok _ _ _ _ _ (eq_refl : clear_head (set_cache c1 s) = Ok tt (set_cache c1 (set_lh 0 (lh_block s) s)))).
      exact E2.
    + pose proof (cstep_trans _ _ _ _ _ _ _ _ _ _ _ S1 S2) as S12. by destruct S12; split.
Qed.

(** ** Recovery *)

(** The kernel's memory when it starts on the disk [D]: all zero. *)
Definition boot (D : Z -> block) : log :=
  {| lcache := {| bufs := bufs blank; next := next blank; prev := prev blank; bc_locked := false;
       disk := D; writes := [] |};
     log_locked := false; log_start := 0; log_size := 0; outstanding := 0; committing := false;
     log_dev := 0; lh_n := 0; lh_block := fun _ => 0 |}.

Definition reboot (D : Z -> block) : outcome log unit := (on_cache binit ;;; initlog disksize pid 1) (boot D).

(** The superblock of [D] places the log. *)
Definition log_at (D : Z -> block) (start size : Z) : Prop :=
  sb_logstart (sb_of (D 1)) = start /\ sb_nlog (sb_of (D 1)) = size.

(** A disk whose log holds the blocks [bl], and what recovery makes of it. *)
Record logged (D : Z -> block) (start size : Z) (bl : list Z) : Prop := {
  lo_lists : lists (D start) bl;
  lo_block : forall b, is_block (D b);
  lo_super : log_at D start size;
  lo_header : header_ok (set_lh (Z.of_nat (length bl)) (fun k => bl !!! Z.to_nat k) (set_log start size 1 (boot D))) bl }.

Definition recovered (D : Z -> block) (start : Z) (bl : list Z) : Z -> block :=
  apply_writes (home_writes start D bl) D.

Lemma home_writes_ext start v v' bl :
  (forall k b, bl !! k = Some b -> v (start + Z.of_nat k + 1) = v' (start + Z.of_nat k + 1)) ->
  home_writes start v bl = home_writes start v' bl.
Proof.
  intros Hv. apply list_eq. intros k. unfold home_writes. rewrite !list_lookup_imap.
  destruct (bl !! k) eqn:E; [|done]. cbn. by rewrite (Hv _ _ E).
Qed.

Lemma view_nothing c : cache_ok pid c [] -> pinned c [] -> forall b, view c b = disk c b.
Proof. intros Hok HP b. apply (view_clean c []); [done|done|apply not_elem_of_nil]. Qed.

Lemma reboot_ok D start size bl :
  logged D start size bl ->
  exists s h, reboot D = Ok tt s /\ lists h []
    /\ cstep (fun _ => True) (lcache (boot D)) (lcache s) [] [] (home_writes start D bl ++ [(start, h)])
    /\ lh_n s = 0 /\ log_start s = start /\ log_size s = size.
Proof.
  intros [L1 L2 [Lst Lsz] L3].
  destruct (binit_ok pid (lcache (boot D)) (fun _ => eq_refl) L2) as (cb & E0 & Hokb & Db & Wb & Hcl).
  assert (HPb : pinned cb []).
  { intros b. split; [intros Hb; by apply elem_of_nil in Hb|]. intros (i & Hi & _ & Hd). by rewrite Hcl in Hd. }
  pose proof (ho_size _ _ L3) as Hsz. pose proof (ho_disk _ _ L3) as Hds. cbn in Hsz, Hds.
  unfold LOGSIZE, MAXOPBLOCKS in Hsz.
  destruct (read_one cb [] [] 1 Hokb HPb) as (i & ci & Ei & Si & Oi & Vi);
    [intros j Hj; by apply elem_of_nil in Hj|right; cbn; unfold NBUF; lia|lia|].
  destruct (close_one ci [] [] i 1 (cs_ok _ _ _ _ _ _ Si) (cs_pin _ _ _ _ _ _ Si) Oi) as (c0 & Er & Sr & Vr).
  pose proof (cstep_trans _ _ _ _ _ _ _ _ _ _ _ Si Sr) as [Hok HP D0 W0 _]. cbn in D0, W0.
  assert (Hv0 : forall b, view c0 b = D b).
  { intros b. rewrite (view_nothing c0) by done. by rewrite D0, Db. }
  set (s0 := set_log start size 1 (set_cache c0 (boot D))).
  destruct (read_head_ok s0 (D start) bl eq_refl) as (c1 & blk & E1 & Hblk & S1 & V1);
    [cbn; lia|exact Hok|exact HP|by cbn|done|unfold LOGSIZE, MAXOPBLOCKS; lia|].
  assert (Ho : header_ok (set_cache c1 (set_lh (Z.of_nat (length bl)) blk s0)) bl).
  { destruct L3. by split. }
  destruct (install_and_clear (set_cache c1 (set_lh (Z.of_nat (length bl)) blk s0)) bl [] Ho) as (c2 & h & E2 & L & S2);
    [apply S1|apply S1|by right|].
  exists (set_cache c2 (set_lh 0 blk s0)), h.
  rewrite (home_writes_ext _ _ D) in S2 by (intros k b _; cbn; by rewrite V1, Hv0).
  split; [|split; [done|split; [|done]]].
  - unfold reboot. rewrite (kbind_ok _ _ _ _ _ (on_cache_ok _ (boot D) _ _ E0)).
    unfold initlog. change (4 + 4 * LOGSIZE >=? BSIZE) with false. cbn iota.
    assert (Esb : readsb disksize pid 1 (set_cache cb (boot D)) = Ok (sb_of (D 1)) (set_cache c0 (boot D))).
    { unfold readsb. rewrite (kbind_ok _ _ _ _ _ (on_cache_ok _ (set_cache cb (boot D)) _ _ Ei)).
      rewrite (kbind_ok _ _ _ _ _ (eq_refl : data_of i (set_cache ci (boot D)) = Ok (bdata (bufs ci i)) _)).
      rewrite (kbind_ok _ _ _ _ _ (on_cache_ok _ (set_cache ci (boot D)) _ _ Er)).
      by rewrite (h_data _ _ _ (proj1 Oi)), <- Vr, Hv0. }
    rewrite (kbind_ok _ _ _ _ _ Esb), Lst, Lsz, !s32_small by (unfold is_s32; lia).
    rewrite (kbind_ok _ _ _ _ _ (eq_refl : modify (set_log start size 1) (set_cache c0 (boot D)) = Ok tt s0)).
    unfold recover_from_log. rewrite (kbind_ok _ _ _ _ _ E1). exact E2.
  - pose proof (cstep_trans _ _ _ _ _ _ _ _ _ _ _ S1 S2) as [A1 A2 A3 A4 A5]. split; try done.
    + cbn in A3 |- *. by rewrite A3, D0, Db.
    + cbn in A4 |- *. by rewrite A4, W0, Wb.
Qed.

Lemma apply_writes_block ws D :
  (forall b, is_block (D b)) -> (forall b d, (b, d) ∈ ws -> is_block d) -> forall b, is_block (apply_writes ws D b).
Proof.
  intros HD Hws b. induction ws as [|[x d] ws IH] using rev_ind; [done|]. rewrite apply_writes_app. cbn.
  destruct (decide (x = b)) as [->|Hne].
  - rewrite fn_lookup_insert. apply (Hws b). apply elem_of_app. right. constructor.
  - rewrite fn_lookup_insert_ne by done. apply IH. intros b' d' Hin. apply (Hws b'), elem_of_app. by left.
Qed.

Lemma logged_eq D D' start size bl :
  logged D start size bl -> D' start = D start -> D' 1 = D 1 -> (forall b, is_block (D' b)) -> logged D' start size bl.
Proof. intros [L1 L2 Ls L3] E E1 Hb. split; [by rewrite E|done|by unfold log_at in *; rewrite E1|]. by destruct L3. Qed.

Lemma logged_nil D D' start size bl :
  logged D start size bl -> lists (D' start) [] -> D' 1 = D 1 -> (forall b, is_block (D' b)) -> logged D' start size [].
Proof. intros [L1 L2 Ls L3] E E1 Hb. split; [done|done|by unfold log_at in *; rewrite E1|]. apply header_clear in L3. by destruct L3; split. Qed.

Lemma header_start_free s bl v k : header_ok s bl -> log_start s ∉ (take k (log_writes (log_start s) v bl)).*1.
Proof. intros Ho Hin. apply in_log_writes in Hin; [lia|done]. Qed.

(** A stop between two of the writes of install_trans and clear_head, and a
    new recovery, make the same disk. *)
Lemma install_prefix D start size bl h k :
  logged D start size bl -> lists h [] ->
  exists bl', logged (apply_writes (take k (home_writes start D bl ++ [(start, h)])) D) start size bl'
    /\ forall b, ~ start <= b < start + size ->
       recovered (apply_writes (take k (home_writes start D bl ++ [(start, h)])) D) start bl' b = recovered D start bl b.
Proof.
  intros HL Hh. pose proof (lo_header _ _ _ _ HL) as Ho. set (ws := home_writes start D bl).
  assert (Hhome : forall b, b ∈ bl -> ~ start <= b < start + size) by (intros b Hb; apply (ho_home _ _ Ho b Hb)).
  pose proof (ho_size _ _ Ho) as Hsz. cbn in Hsz.
  assert (Hblk : forall j b, is_block (apply_writes (take j (ws ++ [(start, h)])) D b)).
  { intros j. apply apply_writes_block; [apply HL|]. intros b d Hin. apply elem_of_take in Hin as (i & Hin & _).
    apply list_elem_of_lookup_2, elem_of_app in Hin as [Hin|Hin].
    - apply list_elem_of_lookup in Hin as (i' & Hin). apply home_writes_lookup in Hin as [_ ->]. apply HL.
    - apply list_elem_of_singleton in Hin as [= -> ->]. apply Hh. }
  assert (Hsup : apply_writes (take k (ws ++ [(start, h)])) D 1 = D 1).
  { apply apply_writes_other. rewrite fmap_take, fmap_app. intros (i & Hin & _)%elem_of_take.
    apply list_elem_of_lookup_2, elem_of_app in Hin as [Hin|Hin].
    - unfold ws in Hin. rewrite home_writes_fst in Hin. apply (ho_home _ _ Ho) in Hin. lia.
    - apply list_elem_of_singleton in Hin. cbn in Hin. pose proof (ho_disk _ _ Ho) as Hds. cbn in Hds. lia. }
  destruct (decide (k <= length ws)%nat) as [Hk|Hk].
  - exists bl. specialize (Hblk k). rewrite take_app_le in * by done. set (D' := apply_writes (take k ws) D) in *.
    assert (Hlog : forall b, start <= b < start + size -> D' b = D b).
    { intros b Hb. apply apply_writes_other. intros Hin. apply in_home_writes in Hin. by apply (Hhome b Hin). }
    split; [apply (logged_eq D); [done|apply Hlog; lia|done..]|]. intros b Hb.
    unfold recovered. rewrite (home_writes_ext start D' D bl).
    2: { intros j b' Hj. apply lookup_lt_Some in Hj. apply Hlog. lia. }
    fold ws. destruct (decide (b ∈ bl)) as [Hin|Hnin].
    + apply apply_writes_same. unfold ws. by rewrite home_writes_fst.
    + rewrite !(apply_writes_other ws) by (unfold ws; by rewrite home_writes_fst).
      apply apply_writes_other. intros Hin. by apply in_home_writes in Hin.
  - exists []. specialize (Hblk k). rewrite take_ge in * by (rewrite length_app; cbn; lia).
    rewrite apply_writes_app in *. cbn in Hblk |- *. split.
    + apply (logged_nil D _ _ _ _ HL); [|done..]. by rewrite fn_lookup_insert.
    + intros b Hb. unfold recovered. cbn. apply fn_lookup_insert_ne. lia.
Qed.

(** ** Commit *)

Definition commit_writes (st : Z) (v : Z -> block) (bl : list Z) (h1 h0 : block) : list (Z * block) :=
  (log_writes st v bl ++ [(st, h1)]) ++ map (fun b => (b, v b)) bl ++ [(st, h0)].

Lemma logged_writes_view s bl v d k b :
  header_ok s bl -> bl !! k = Some b ->
  apply_writes (log_writes (log_start s) v bl) d (log_start s + Z.of_nat k + 1) = v b.
Proof.
  intros Ho Hb. apply apply_writes_in.
  - intros v' Hin. apply list_elem_of_lookup in Hin as (j & Hj). apply log_writes_lookup in Hj as (b' & Hb' & E & ->).
    assert (j = k) as -> by lia. congruence.
  - apply list_elem_of_fmap. exists (log_start s + Z.of_nat k + 1, v b). split; [done|].
    apply list_elem_of_lookup. exists k. unfold log_writes. by rewrite list_lookup_imap, Hb.
Qed.

Lemma home_writes_map st v v' bl :
  (forall k b, bl !! k = Some b -> v (st + Z.of_nat k + 1) = v' b) ->
  home_writes st v bl = map (fun b => (b, v' b)) bl.
Proof.
  intros Hv. apply list_eq. intros k. unfold home_writes. rewrite list_lookup_imap.
  change (map ?f bl) with (f <$> bl). rewrite list_lookup_fmap.
  destruct (bl !! k) eqn:E; [|done]. cbn. by rewrite (Hv _ _ E).
Qed.

Lemma commit_ok s bl :
  let c := lcache s in
  header_ok s bl -> bl <> [] -> cache_ok pid c [] -> pinned c bl ->
  exists c' h1 h0, commit disksize pid s = Ok tt (set_cache c' (set_lh 0 (lh_block s) s))
    /\ lists h1 bl /\ lists h0 []
    /\ cstep (fun _ => True) c c' [] [] (commit_writes (log_start s) (view c) bl h1 h0).
Proof.
  intros c Ho Hne Hok HP. destruct (write_log_ok s bl Ho Hok HP) as (c1 & E1 & S1 & V1).
  destruct (write_head_ok (set_cache c1 s) bl bl (header_set_cache _ _ _ Ho)) as (c2 & h1 & E2 & L1 & S2 & V2);
    [apply S1|apply S1| |by apply (header_room s)|].
  { intros b Hb ->. apply (ho_home _ _ Ho _ Hb). unfold log_area. pose proof (ho_size _ _ Ho). cbn. lia. }
  destruct (install_and_clear (set_cache c2 s) bl bl (header_set_cache _ _ _ Ho)) as (c3 & h0 & E3 & L0 & S3);
    [apply S2|apply S2|by left|].
  cbn [lcache set_cache] in S2, V2, S3. change (log_start (set_cache _ s)) with (log_start s) in *.
  rewrite (home_writes_map _ _ (view c)) in S3.
  2: { intros k b Hb. rewrite V2, decide_False, V1 by lia. by apply logged_writes_view. }
  exists c3, h1, h0. split; [|split; [done|split; [done|]]].
  - unfold commit. rewrite (kbind_ok _ _ _ _ _ (eq_refl : gets lh_n s = Ok (lh_n s) _)), (ho_n _ _ Ho).
    replace (Z.of_nat (length bl) >? 0) with true by (destruct bl; [done|by cbn]).
    rewrite (kbind_ok _ _ _ _ _ E1), (kbind_ok _ _ _ _ _ E2). exact E3.
  - pose proof (cstep_trans _ _ _ _ _ _ _ _ _ _ _ (cstep_trans _ _ _ _ _ _ _ _ _ _ _ S1 S2) S3) as A.
    by destruct A; split.
Qed.

Lemma header_boot s bl D : header_ok s bl ->
  header_ok (set_lh (Z.of_nat (length bl)) (fun k => bl !!! Z.to_nat k) (set_log (log_start s) (log_size s) 1 (boot D))) bl.
Proof.
  intros []. split; try done. intros j b Hb. cbn. rewrite Nat2Z.id. by apply list_lookup_total_correct.
Qed.

Lemma header_boot_nil s bl D : header_ok s bl ->
  header_ok (set_lh 0 (fun k => [] !!! Z.to_nat k) (set_log (log_start s) (log_size s) 1 (boot D))) [].
Proof. intros Ho. pose proof (header_clear _ _ (header_boot s bl D Ho)) as []. by split. Qed.

Lemma log_start_area s bl : header_ok s bl -> ~ ~ log_area s (log_start s).
Proof. intros Ho Hn. apply Hn. unfold log_area. pose proof (ho_size _ _ Ho). lia. Qed.

Lemma homes_view c bl D b :
  cache_ok pid c [] -> pinned c bl -> D b = disk c b ->
  apply_writes (map (fun b => (b, view c b)) bl) D b = view c b.
Proof.
  intros Hok HP HD. destruct (decide (b ∈ bl)) as [Hin|Hin].
  - apply apply_writes_in.
    + intros v' Hv. apply list_elem_of_In, in_map_iff in Hv as (b' & [= -> <-] & _). done.
    + apply list_elem_of_fmap. exists (b, view c b). split; [done|]. apply list_elem_of_In, in_map_iff. exists b.
      split; [done|]. by apply list_elem_of_In.
  - rewrite (view_clean c bl b Hok HP Hin), apply_writes_other; [done|].
    intros Hin'. apply list_elem_of_fmap in Hin' as ([x y] & -> & Hx).
    apply list_elem_of_In, in_map_iff in Hx as (b' & [= -> <-] & Hx). apply Hin. by apply list_elem_of_In.
Qed.

Lemma commit_writes_home s bl h1 h0 b :
  let c := lcache s in
  header_ok s bl -> cache_ok pid c [] -> pinned c bl -> ~ log_area s b ->
  apply_writes (commit_writes (log_start s) (view c) bl h1 h0) (disk c) b = view c b.
Proof.
  intros c Ho Hok HP Hb. assert (Hs : log_start s <> b) by (intros <-; by apply (log_start_area s bl)).
  unfold commit_writes. rewrite !apply_writes_app. cbn. rewrite fn_lookup_insert_ne by done.
  apply homes_view; [done|done|]. rewrite fn_lookup_insert_ne by done. apply apply_writes_other. intros Hin.
  rewrite <- (take_ge (log_writes _ _ _) (length (log_writes (log_start s) (view c) bl))) in Hin by done.
  by apply in_log_writes in Hin as [_ Hin].
Qed.

(** What recovery finds when the machine stops after [k] writes of a commit. *)
Lemma commit_prefix s bl h1 h0 k :
  let c := lcache s in let st := log_start s in
  let D := apply_writes (take k (commit_writes st (view c) bl h1 h0)) (disk c) in
  header_ok s bl -> cache_ok pid c [] -> pinned c bl -> lists (disk c st) [] -> log_at (disk c) st (log_size s) ->
  lists h1 bl -> lists h0 [] ->
  exists bl', logged D st (log_size s) bl'
    /\ forall b, ~ log_area s b -> recovered D st bl' b = if decide (k <= length bl)%nat then disk c b else view c b.
Proof.
  intros c st D Ho Hok HP Hd Hat L1 L0. set (lw := log_writes st (view c) bl).
  assert (Hlen : length lw = length bl) by apply length_imap.
  assert (Hblk : forall j b, is_block (apply_writes (take j lw) (disk c) b)).
  { intros j. apply apply_writes_block; [apply (co_disk _ _ _ Hok)|]. intros b d Hin.
    apply elem_of_take in Hin as (i & Hin & _). apply log_writes_lookup in Hin as (b' & _ & _ & ->).
    destruct (view_cases pid c [] b' Hok) as [(i' & _ & _ & _ & ->)|[_ ->]]; [apply (co_block _ _ _ Hok)|apply (co_disk _ _ _ Hok)]. }
  assert (Hrange : forall b, ~ log_area s b -> b ∉ lw.*1).
  { intros b Hb Hin. rewrite <- (take_ge lw (length lw)) in Hin by done. by apply in_log_writes in Hin as [_ Hin]. }
  assert (Hsup : forall j, apply_writes (take j lw) (disk c) 1 = disk c 1).
  { intros j. apply apply_writes_other. intros Hin. apply in_log_writes in Hin; [|done]. pose proof (ho_disk _ _ Ho). lia. }
  unfold D, commit_writes. fold lw. case_decide as Hk.
  - exists []. rewrite <- app_assoc, take_app_le by lia. split.
    + split; [|apply Hblk|by unfold log_at; rewrite Hsup|by apply (header_boot_nil s bl)].
      by rewrite apply_writes_other by (by apply header_start_free).
    + intros b Hb. unfold recovered. cbn. apply apply_writes_other. intros Hin. by apply in_log_writes in Hin as [_ Hin].
  - set (D1 := apply_writes (lw ++ [(st, h1)]) (disk c)).
    assert (Hl1 : forall j b, bl !! j = Some b -> D1 (st + Z.of_nat j + 1) = view c b).
    { intros j b Hb. unfold D1. rewrite apply_writes_app. cbn. rewrite fn_lookup_insert_ne by lia. by apply logged_writes_view. }
    assert (HL : logged D1 st (log_size s) bl).
    { split.
      - unfold D1. rewrite apply_writes_app. cbn. by rewrite fn_lookup_insert.
      - intros b. unfold D1. rewrite apply_writes_app. cbn. destruct (decide (st = b)) as [->|Hne].
        + rewrite fn_lookup_insert. apply L1.
        + rewrite fn_lookup_insert_ne by done. specialize (Hblk (length lw) b). by rewrite take_ge in Hblk.
      - unfold log_at, D1. rewrite apply_writes_app. cbn. rewrite fn_lookup_insert_ne by (pose proof (ho_disk _ _ Ho); lia).
        specialize (Hsup (length lw)). rewrite take_ge in Hsup by done. by rewrite Hsup.
      - by apply header_boot. }
    destruct (install_prefix D1 st (log_size s) bl h0 (k - S (length bl)) HL L0) as (bl' & HL' & Hrec).
    rewrite (home_writes_map _ _ (view c)) in HL', Hrec by done.
    rewrite take_app_ge by (rewrite length_app; cbn; lia).
    rewrite apply_writes_app, length_app, Hlen, Nat.add_1_r. exists bl'. split; [done|].
    intros b Hb. fold D1. rewrite Hrec by done. unfold recovered.
    rewrite (home_writes_map _ _ (view c)) by done. apply homes_view; [done|done|].
    unfold D1. rewrite apply_writes_app. cbn. rewrite fn_lookup_insert_ne; [by apply apply_writes_other, Hrange|].
    intros <-. by apply (log_start_area s bl).
Qed.

(** ** log_write *)

Lemma absorb_spec blk bn i todo :
  (exists j, i <= j < i + Z.of_nat todo /\ blk j = bn /\ absorb blk bn i todo = j)
  \/ ((forall j, i <= j < i + Z.of_nat todo -> blk j <> bn) /\ absorb blk bn i todo = i + Z.of_nat todo).
Proof.
  revert i. induction todo as [|todo IH]; intros i; cbn [absorb]; [right; split; lia|].
  destruct (Z.eqb_spec (blk i) bn) as [E|E]; [left; exists i; split; [lia|done]|].
  destruct (IH (i + 1)) as [(j & Hj & Hb & ->)|[Hn ->]]; [left; exists j; split; [lia|done]|].
  right. split; [|lia]. intros j Hj. destruct (decide (j = i)) as [->|]; [done|]. apply Hn. lia.
Qed.

(** Pinning a held buffer. *)
Lemma pin_one c H P i bn :
  cache_ok pid c H -> pinned c P -> i ∈ H -> held c i bn ->
  exists c', upd_buf i (fun x => set_flags (B_VALID x) true x) c = Ok tt c'
    /\ cstep (eq i) c c' H (if decide (bn ∈ P) then P else P ++ [bn]) []
    /\ held c' i bn /\ (forall b, view c' b = view c b).
Proof.
  intros Hok HP Hi [[Of1 Of2] O2 O3].
  destruct (modify_buf_ok pid c H i (bdata (bufs c i)) true Hok Hi (co_block _ _ _ Hok i)) as (c1 & E1 & Hok1 & Hch1 & Hv1).
  rewrite Of2, O3 in Hv1. pose proof (ch_this _ _ _ _ Hch1) as Ht.
  assert (Hv : forall b, view c1 b = view c b) by (intros b; rewrite Hv1; case_decide; congruence).
  exists c1. split; [|split; [|split; [|done]]].
  - rewrite <- E1. unfold modify_buf. rewrite !upd_buf_ok. f_equal. f_equal. rewrite orb_true_r. by destruct (bufs c i).
  - destruct Hch1 as [C1 C2 C3 C4 C5 C6 C7]. split; try done; [|intros j Hj; apply C2; congruence].
    assert (Hpin : forall b, b ∈ P \/ b = bn <-> exists j, (j < NBUF)%nat /\ is_for (bufs c1 j) b /\ B_DIRTY (bufs c1 j) = true).
    { intros b. rewrite (HP b). split.
      - intros [(j & Hj & Hf & Hdj)| ->].
        + exists j. destruct (decide (j = i)) as [->|Hji]; [|by rewrite C2]. rewrite C1. split; [done|]. split; [done|]. apply orb_true_r.
        + exists i. rewrite C1. split; [done|]. split; [by split|]. apply orb_true_r.
      - intros (j & Hj & Hf & Hdj). destruct (decide (j = i)) as [->|Hji]; [right|left; exists j; by rewrite C2 in Hf, Hdj].
        rewrite C1 in Hf. destruct Hf as [_ <-]. done. }
    intros b. rewrite <- Hpin. case_decide; [|rewrite elem_of_app, list_elem_of_singleton; tauto]. naive_solver.
  - split; [by rewrite Ht|done|]. rewrite Ht, Hv. done.
Qed.

(** The panics of log_write. *)
Lemma log_write_full s b :
  lh_n s >= LOGSIZE \/ lh_n s >= log_size s - 1 -> log_write b s = Panic "too big a transaction".
Proof.
  intros Hfull. unfold log_write, kbind, gets.
  replace ((lh_n s >=? LOGSIZE) || (lh_n s >=? log_size s - 1)) with true; [done|].
  symmetry. apply orb_true_iff. destruct Hfull; [left|right]; by apply Z.geb_le, Z.ge_le.
Qed.

Lemma log_write_outside s b :
  lh_n s < LOGSIZE -> lh_n s < log_size s - 1 -> outstanding s < 1 ->
  log_write b s = Panic "log_write outside of trans".
Proof.
  intros H1 H2 H3. unfold log_write, kbind, gets. rewrite !Z.geb_leb.
  rewrite !(proj2 (Z.leb_gt _ _)) by lia. cbn [orb]. by rewrite (proj2 (Z.ltb_lt _ _)) by lia.
Qed.

Lemma log_write_ok s bl H i bn :
  let c := lcache s in let bl' := if decide (bn ∈ bl) then bl else bl ++ [bn] in
  header_ok s bl -> cache_ok pid c H -> i ∈ H -> held c i bn -> pinned c bl ->
  2 <= bn < disksize -> ~ log_area s bn -> lh_n s < log_size s - 1 -> 1 <= outstanding s -> log_locked s = false ->
  exists c' blk, log_write i s = Ok tt (set_cache c' (set_lh (Z.of_nat (length bl')) blk s))
    /\ header_ok (set_lh (Z.of_nat (length bl')) blk s) bl'
    /\ cstep (eq i) c c' H bl' [] /\ held c' i bn /\ (forall b, view c' b = view c b).
Proof.
  intros c bl' Ho Hok Hi Hh HP Hbn Harea Hroom Hout Hlk.
  destruct (pin_one c H bl i bn Hok HP Hi Hh) as (c' & E & S & Hh' & V). fold bl' in S.
  pose proof (ho_size _ _ Ho) as Hsz. pose proof (ho_n _ _ Ho) as Hn.
  set (k := absorb (lh_block s) bn 0 (length bl)).
  assert (Hk : 0 <= k <= Z.of_nat (length bl) /\ (k = Z.of_nat (length bl) <-> bn ∉ bl)
    /\ (k <> Z.of_nat (length bl) -> lh_block s k = bn)).
  { unfold k. destruct (absorb_spec (lh_block s) bn 0 (length bl)) as [(j & Hj & Hb & ->)|[Hno ->]].
    - split; [lia|]. split; [|done]. split; [lia|]. intros Hnin. exfalso. apply Hnin.
      destruct (lookup_lt_is_Some_2 bl (Z.to_nat j)) as [b Hbl]; [lia|].
      pose proof (ho_block _ _ Ho _ _ Hbl) as Hbb. rewrite Z2Nat.id in Hbb by lia.
      apply list_elem_of_lookup. exists (Z.to_nat j). congruence.
    - split; [lia|]. split; [|lia]. split; [|lia]. intros _ Hin. apply list_elem_of_lookup in Hin as (j & Hj).
      apply (Hno (Z.of_nat j)); [apply lookup_lt_Some in Hj; lia|]. by apply (ho_block _ _ Ho). }
  destruct Hk as (Hk1 & Hk2 & Hk3).
  exists c', (<[k := bn]> (lh_block s)). split; [|split; [|done]].
  - unfold log_write, kbind at 1 2, gets at 1 2. rewrite !Z.geb_leb, !(proj2 (Z.leb_gt _ _)) by lia. cbn [orb].
    unfold kbind at 1, gets at 1. rewrite (proj2 (Z.ltb_ge _ _)) by lia.
    unfold acquire, kbind at 1 2, gets at 1. rewrite Hlk. unfold modify at 1, kbind at 1 2, gets at 1 2.
    cbn [lh_block lh_n set_loglock lcache]. rewrite Hn, Nat2Z.id.
    destruct Hh as [[_ Hf] _ _]. fold c. rewrite Hf. fold k.
    unfold put_block. rewrite (proj2 (Z.leb_le _ _)), (proj2 (Z.ltb_lt _ _)) by lia. cbn [andb].
    assert (Hlen : (if k =? Z.of_nat (length bl) then lh_n s + 1 else lh_n s) = Z.of_nat (length bl')).
    { unfold bl'. destruct (Z.eqb_spec k (Z.of_nat (length bl))) as [E1|E1].
      - rewrite decide_False by tauto. rewrite length_app. cbn. lia.
      - rewrite decide_True; [lia|]. destruct (decide (bn ∈ bl)); tauto. }
    rewrite <- Hlen. unfold c in E. clear - E Hlk. unfold kbind, modify, on_cache, release, kret, gets, kbind, modify.
    destruct (k =? Z.of_nat (length bl)); cbn [lcache set_lh set_loglock]; rewrite E; cbn; unfold set_cache, set_lh; cbn; by rewrite Hlk.
  - destruct Ho as [A1 A2 A3 A4 A5 A6 A7]. split; try done.
    + intros j b Hj. cbn. unfold bl' in Hj. destruct (decide (k = Z.of_nat j)) as [Ek|Ek].
      * rewrite <- Ek, fn_lookup_insert. destruct (decide (bn ∈ bl)) as [Hin|Hin].
        -- rewrite <- (A3 _ _ Hj), <- Ek. symmetry. apply Hk3. tauto.
        -- apply Hk2 in Hin. rewrite list_lookup_middle in Hj by lia. congruence.
      * rewrite fn_lookup_insert_ne by done. apply A3. destruct (decide (bn ∈ bl)) as [Hin|Hin]; [done|].
        apply Hk2 in Hin. apply lookup_app_Some in Hj as [Hj|[Hj1 Hj2]]; [done|].
        apply list_lookup_singleton_Some in Hj2 as [Hj2 _]. lia.
    + unfold bl'. cbn. case_decide; [lia|]. rewrite length_app. cbn. lia.
    + unfold bl'. case_decide; [done|]. apply NoDup_app. split; [done|]. split; [|by apply NoDup_singleton].
      intros x Hx ->%list_elem_of_singleton. done.
    + intros b Hb. cbn. unfold bl' in Hb. case_decide; [by apply A6|].
      apply elem_of_app in Hb as [Hb|Hb]; [by apply A6|]. by apply list_elem_of_singleton in Hb as ->.
Qed.
End facts.

(** ** The theorems *)

(** log_write puts the block of a held buffer into the transaction: the
    header lists it once, however often it is written, the buffer is pinned,
    and neither the disk nor what any block reads as changes.  When the header
    is full it panics, and so it does outside of a transaction. *)
Theorem log_write_spec disksize pid s bl H i bn :
  let bl' := if decide (bn ∈ bl) then bl else bl ++ [bn] in
  header_ok disksize s bl -> cache_ok pid (lcache s) H -> i ∈ H -> held (lcache s) i bn -> pinned (lcache s) bl ->
  2 <= bn < disksize -> ~ log_area s bn -> log_locked s = false ->
  (lh_n s >= log_size s - 1 -> log_write i s = Panic "too big a transaction")
  /\ (lh_n s < log_size s - 1 -> outstanding s < 1 -> log_write i s = Panic "log_write outside of trans")
  /\ (lh_n s < log_size s - 1 -> 1 <= outstanding s -> exists s',
       log_write i s = Ok tt s' /\ header_ok disksize s' bl' /\ outstanding s' = outstanding s
       /\ cache_ok pid (lcache s') H /\ held (lcache s') i bn /\ pinned (lcache s') bl'
       /\ disk (lcache s') = disk (lcache s) /\ writes (lcache s') = writes (lcache s)
       /\ (forall b, view (lcache s') b = view (lcache s) b)).
Proof.
  intros bl' Ho Hok Hi Hh HP Hbn Harea Hlk. pose proof (ho_size _ _ _ Ho) as Hsz. pose proof (ho_n _ _ _ Ho) as Hn.
  split; [|split].
  - intros Hfull. apply log_write_full. by right.
  - intros Hroom Hout. apply log_write_outside; [lia|done|done].
  - intros Hroom Hout.
    destruct (log_write_ok disksize pid s bl H i bn Ho Hok Hi Hh HP Hbn Harea Hroom Hout Hlk)
      as (c' & blk & E & Ho' & S & Hh' & V).
    eexists. split; [exact E|]. split; [by apply header_set_cache|]. split; [done|]. destruct S.
    repeat (split; [done|]). done.
Qed.

(** C1: a commit is atomic under a crash.  Stop the machine after any number
    of the disk writes that commit makes and let the new kernel run initlog on
    that disk: outside the log every block is as before the transaction if no
    more than the log's data blocks were written, and from the write of the
    header on every block is as the transaction left it.  An undisturbed
    commit leaves the transaction's contents on the disk and an empty log. *)
Theorem commit_atomic disksize pid s bl :
  header_ok disksize s bl -> cache_ok pid (lcache s) [] -> pinned (lcache s) bl ->
  lists (disk (lcache s) (log_start s)) [] -> log_at (disk (lcache s)) (log_start s) (log_size s) ->
  exists s' W,
    commit disksize pid s = Ok tt s' /\ writes (lcache s') = reverse W ++ writes (lcache s)
    /\ header_ok disksize s' [] /\ cache_ok pid (lcache s') [] /\ pinned (lcache s') []
    /\ lists (disk (lcache s') (log_start s)) []
    /\ (forall b, ~ log_area s b -> disk (lcache s') b = view (lcache s) b)
    /\ (forall k, exists s'',
          reboot disksize pid (apply_writes (take k W) (disk (lcache s))) = Ok tt s''
          /\ forall b, ~ log_area s b ->
             disk (lcache s'') b = if decide (k <= length bl)%nat then disk (lcache s) b else view (lcache s) b).
Proof.
  intros Ho Hok HP Hd Hat. destruct (decide (bl = [])) as [->|Hne].
  - exists s, []. split; [unfold commit, kbind, gets; by rewrite (ho_n _ _ _ Ho)|].
    do 4 (split; [done|]). split; [done|]. pose proof (view_nothing _ _ Hok HP) as Hv. split; [done|].
    intros k. rewrite take_nil. cbn [apply_writes fold_left].
    destruct (reboot_ok disksize pid (disk (lcache s)) (log_start s) (log_size s) []) as (s'' & h & E & _ & S & _).
    { split; [done|apply (co_disk _ _ _ Hok)|done|]. by apply (header_boot disksize s []). }
    exists s''. split; [done|]. intros b Hb. rewrite (cs_disk _ _ _ _ _ _ _ S). cbn.
    rewrite fn_lookup_insert_ne; [|intros <-; apply Hb; unfold log_area; pose proof (ho_size _ _ _ Ho); lia].
    case_decide; by rewrite ?Hv.
  - destruct (commit_ok disksize pid s bl Ho Hne Hok HP) as (c' & h1 & h0 & E & L1 & L0 & S).
    eexists _, _. split; [exact E|]. split; [apply S|]. split; [by apply header_set_cache, (header_clear disksize s bl)|].
    split; [apply S|]. split; [apply S|]. cbn [lcache set_cache].
    pose proof (cs_disk _ _ _ _ _ _ _ S) as Hdisk.
    split; [rewrite Hdisk; unfold commit_writes; rewrite !apply_writes_app; cbn; by rewrite fn_lookup_insert|].
    split; [intros b Hb; rewrite Hdisk; by apply (commit_writes_home disksize pid)|].
    intros k. destruct (commit_prefix disksize pid s bl h1 h0 k Ho Hok HP Hd Hat L1 L0) as (bl' & HL & Hrec).
      destruct (reboot_ok disksize pid _ _ _ _ HL) as (s'' & h & E' & _ & S' & _). exists s''. split; [done|].
      intros b Hb. rewrite <- Hrec by done. rewrite (cs_disk _ _ _ _ _ _ _ S'), apply_writes_app. cbn.
      apply fn_lookup_insert_ne. intros <-. apply Hb. unfold log_area. pose proof (ho_size _ _ _ Ho). lia.
Qed.

(** C2: recovery may itself be cut short.  Started on a disk with a committed
    log, initlog makes the writes [W]; stopped after any number of them and
    started again, it ends with the same contents of every block outside the
    log as an undisturbed recovery. *)
Theorem recovery_idempotent disksize pid D start size bl :
  logged disksize D start size bl ->
  exists s W, reboot disksize pid D = Ok tt s /\ writes (lcache s) = reverse W
    /\ (forall b, b ∈ bl -> exists k, bl !! k = Some b /\ disk (lcache s) b = D (start + Z.of_nat k + 1))
    /\ (forall b, b ∉ bl -> ~ start <= b < start + size -> disk (lcache s) b = D b)
    /\ forall k, exists s', reboot disksize pid (apply_writes (take k W) D) = Ok tt s'
         /\ forall b, ~ start <= b < start + size -> disk (lcache s') b = disk (lcache s) b.
Proof.
  intros HL. pose proof (lo_header _ _ _ _ _ HL) as Ho. pose proof (ho_size _ _ _ Ho) as Hsz. cbn in Hsz.
  assert (Hfin : forall D' bl', logged disksize D' start size bl' -> exists s h,
    reboot disksize pid D' = Ok tt s /\ lists h []
    /\ writes (lcache s) = reverse (home_writes start D' bl' ++ [(start, h)])
    /\ forall b, ~ start <= b < start + size -> disk (lcache s) b = recovered D' start bl' b).
  { intros D' bl' HL'. destruct (reboot_ok disksize pid _ _ _ _ HL') as (s & h & E & L & S & _). exists s, h.
    split; [done|]. split; [done|]. split; [rewrite (cs_writes _ _ _ _ _ _ _ S); apply app_nil_r|].
    intros b Hb. rewrite (cs_disk _ _ _ _ _ _ _ S), apply_writes_app. cbn. apply fn_lookup_insert_ne. lia. }
  destruct (Hfin D bl HL) as (s & h & E & L & HW & Hd). eexists s, _. split; [done|]. split; [exact HW|].
  assert (Hhome : forall b, b ∈ bl -> ~ start <= b < start + size) by (intros b Hb; apply (ho_home _ _ _ Ho b Hb)).
  split; [|split].
  - intros b Hb. pose proof Hb as (k & Hk)%list_elem_of_lookup. exists k. split; [done|]. rewrite Hd by auto.
    unfold recovered. apply apply_writes_in; [|by rewrite home_writes_fst].
    intros v' (k' & Hk')%list_elem_of_lookup. apply home_writes_lookup in Hk' as [Hk' ->].
    by rewrite (NoDup_lookup _ _ _ _ (ho_nodup _ _ _ Ho) Hk Hk').
  - intros b Hb Hout. rewrite Hd by done. apply apply_writes_other. by rewrite home_writes_fst.
  - intros k. destruct (install_prefix disksize D start size bl h k HL L) as (bl' & HL' & Hrec).
    destruct (Hfin _ bl' HL') as (s' & h' & E' & _ & _ & Hd'). exists s'. split; [done|].
    intros b Hb. by rewrite Hd', Hrec, <- Hd.
Qed.

(** ** A transaction on an empty disk *)

Section example.

(** All zero, but for the superblock: a log of 30 blocks from block 2. *)
Definition zero_disk : Z -> block := <[1 := put32 (put32 zero_block 12 30) 16 2]> (fun _ => zero_block).

Lemma zero_disk_logged : logged 1000 zero_disk 2 30 [].
Proof.
  split.
  - split; [apply zero_block_ok|by vm_compute|done].
  - intros b. unfold zero_disk. destruct (decide (1 = b)) as [<-|Hb].
    + rewrite fn_lookup_insert. by apply put32_ok, put32_ok, zero_block_ok.
    + rewrite fn_lookup_insert_ne by done. apply zero_block_ok.
  - split; by vm_compute.
  - split; try done; [constructor|]. intros b Hb. by apply elem_of_nil in Hb.
Qed.

(** The state of a kernel that has started and opened block 100 in a
    transaction: the buffer is held, nothing is pinned. *)
Lemma example_open : exists s i,
  header_ok 1000 s [] /\ cache_ok 1 (lcache s) [i] /\ opened (lcache s) i 100 /\ pinned (lcache s) []
  /\ lh_n s = 0 /\ log_start s = 2 /\ log_size s = 30 /\ outstanding s = 1 /\ log_locked s = false
  /\ lists (disk (lcache s) 2) [] /\ log_at (disk (lcache s)) 2 30.
Proof.
  destruct (reboot_ok 1000 1 zero_disk 2 30 [] zero_disk_logged) as (s0 & h & _ & L & S & Hn & Hst & Hsz).
  destruct (read_one 1000 1 (lcache s0) [] [] 100 (cs_ok _ _ _ _ _ _ _ S) (cs_pin _ _ _ _ _ _ _ S)) as (i & c & E1 & S1 & O1 & _).
  { intros i Hi. by apply elem_of_nil in Hi. } { right. cbn. unfold NBUF. lia. } { lia. }
  exists (set_outstanding 1 false (set_loglock false (set_cache c (set_lh 0 (lh_block s0) (set_log 2 30 1 s0))))), i.
  split.
  { split; try done; [constructor|].
    intros b Hb. by apply elem_of_nil in Hb. }
  split; [apply S1|]. split; [done|]. split; [apply S1|]. do 5 (split; [done|]).
  cbn. rewrite (cs_disk _ _ _ _ _ _ _ S1), (cs_disk _ _ _ _ _ _ _ S). cbn.
  change (lists (<[2 := h]> zero_disk 2) [] /\ log_at (<[2 := h]> zero_disk) 2 30). rewrite fn_lookup_insert.
  split; [done|]. unfold log_at. rewrite fn_lookup_insert_ne by done. split; by vm_compute.
Qed.

Lemma log_write_spec_witness : exists s i s', log_write i s = Ok tt s' /\ lh_n s = 0 /\ lh_n s' = 1 /\ lh_block s' 0 = 100.
Proof.
  destruct example_open as (s & i & Ho & Hok & O & HP & Hn & Hst & Hsz & Hout & Hlk & _).
  destruct (log_write_spec 1000 1 s [] [i] i 100 Ho Hok ltac:(constructor) (proj1 O) HP) as (_ & _ & Hw); [lia| |done|].
  { unfold log_area. rewrite Hst, Hsz. lia. }
  destruct Hw as (s' & E & Ho' & _); [rewrite Hn, Hsz; lia|lia|].
  exists s, i, s'. split; [exact E|]. split; [done|]. split.
  - rewrite (ho_n _ _ _ Ho'). done.
  - apply (ho_block _ _ _ Ho' 0%nat). done.
Defined.

(** The same state after log_write and brelse. *)
Lemma example_ready : exists s,
  header_ok 1000 s [100] /\ cache_ok 1 (lcache s) [] /\ pinned (lcache s) [100] /\ log_start s = 2 /\ log_size s = 30
  /\ lists (disk (lcache s) 2) [] /\ log_at (disk (lcache s)) 2 30.
Proof.
  destruct example_open as (s & i & Ho & Hok & O & HP & Hn & Hst & Hsz & Hout & Hlk & Hd & Hat).
  destruct (log_write_ok 1000 1 s [] [i] i 100 Ho Hok ltac:(constructor) (proj1 O) HP) as (c & blk & _ & Ho' & S & Hh & _);
    [lia|unfold log_area; rewrite Hst, Hsz; lia|lia|lia|done|].
  assert (Oc : opened c i 100).
  { split; [done|]. destruct Hh as [Hf Hlt _]. left.
    destruct (proj1 (cs_pin _ _ _ _ _ _ _ S 100)) as (j & Hj & Hfj & Hdj); [constructor|].
    replace i with j; [done|].
    apply (co_unique _ _ _ (cs_ok _ _ _ _ _ _ _ S) j i Hj Hlt); [apply Hfj|]. destruct Hfj as [_ ->]. done. }
  destruct (close_one 1 c [] _ i 100 (cs_ok _ _ _ _ _ _ _ S) (cs_pin _ _ _ _ _ _ _ S) Oc) as (c' & _ & S' & _).
  exists (set_cache c' (set_lh 1 blk s)). split; [by apply header_set_cache|]. split; [apply S'|]. split; [apply S'|].
  split; [done|]. split; [done|]. cbn. by rewrite (cs_disk _ _ _ _ _ _ _ S'), (cs_disk _ _ _ _ _ _ _ S).
Qed.

Lemma commit_atomic_witness : exists s s' W,
  pinned (lcache s) [100] /\ commit 1000 1 s = Ok tt s' /\ writes (lcache s') = reverse W ++ writes (lcache s)
  /\ disk (lcache s') 100 = view (lcache s) 100.
Proof.
  destruct example_ready as (s & Ho & Hok & HP & Hst & Hsz & Hd & Hat). rewrite <- Hst in Hd. rewrite <- Hst, <- Hsz in Hat.
  destruct (commit_atomic 1000 1 s [100] Ho Hok HP Hd Hat) as (s' & W & E & HW & _ & _ & _ & _ & Hv & _).
  exists s, s', W. split; [exact HP|]. split; [exact E|]. split; [exact HW|]. apply Hv.
  unfold log_area. rewrite Hst, Hsz. lia.
Defined.

(** A disk whose log holds block 100. *)
Lemma example_logged : exists D, logged 1000 D 2 30 [100].
Proof.
  destruct example_ready as (s & Ho & Hok & HP & Hst & Hsz & _ & _).
  destruct (write_head_ok 1000 1 s [100] [100] Ho Hok HP) as (c & h & _ & L & _).
  { intros b Hb. apply list_elem_of_singleton in Hb as ->. by rewrite Hst. } { cbn. unfold NBUF. lia. }
  exists (<[2 := h]> zero_disk). destruct zero_disk_logged as [_ Z1 Z2 _]. split.
  - by rewrite fn_lookup_insert.
  - intros b. destruct (decide (2 = b)) as [<-|Hb]; [rewrite fn_lookup_insert; apply L|rewrite fn_lookup_insert_ne by done; apply Z1].
  - unfold log_at. by rewrite fn_lookup_insert_ne.
  - pose proof (header_boot 1000 s [100] zero_disk Ho) as Hb. rewrite Hst, Hsz in Hb. by destruct Hb; split.
Qed.

Lemma recovery_idempotent_witness : exists D s s',
  reboot 1000 1 D = Ok tt s /\ disk (lcache s) 100 = D 3
  /\ reboot 1000 1 (apply_writes (take 1 (reverse (writes (lcache s)))) D) = Ok tt s' /\ disk (lcache s') 100 = D 3.
Proof.
  destruct example_logged as (D & HL).
  destruct (recovery_idempotent 1000 1 D 2 30 [100] HL) as (s & W & E & HW & Hb & _ & Hk).
  destruct (Hb 100 ltac:(constructor)) as (k & Hk0 & Hd). destruct k; [|destruct k; discriminate Hk0]. change (2 + Z.of_nat 0 + 1) with 3 in Hd.
  destruct (Hk 1%nat) as (s' & E' & Hd'). exists D, s, s'. split; [exact E|]. split; [exact Hd|].
  rewrite HW, reverse_involutive. split; [exact E'|]. rewrite Hd' by lia. exact Hd.
Defined.
End example.
