(* ===== verification/LogSpace.v ===== *)
(** * The log's space (begin_op, end_op)

    begin_op admits an operation when the log has room for [MAXOPBLOCKS]
    blocks for it and for every other outstanding one.  An execution is a
    sequence of begin_op, log_write and end_op of the outstanding operations
    in any order, each operation writing at most [MAXOPBLOCKS] times. *)

From S2P Require Import Prelude Mem Block Bio Log.
#[local] Open Scope Z_scope.
#[local] Open Scope kernel_scope.

(** The log, and for each outstanding operation the writes it still may do. *)
Definition rstate : Type := log * list Z.

Section space.
Context (disksize pid : Z).

Inductive rstep : rstate -> rstate -> Prop :=
| r_begin s s' bs : begin_op s = Ok true s' -> rstep (s, bs) (s', bs ++ [MAXOPBLOCKS])
| r_wait s s' bs : begin_op s = Ok false s' -> rstep (s, bs) (s', bs)
| r_write s s' bs j k b : bs !! j = Some k -> 0 < k -> log_write b s = Ok tt s' ->
    rstep (s, bs) (s', <[j := k - 1]> bs)
| r_cache s c bs : rstep (s, bs) (set_cache c s, bs)
| r_end s s' bs j k last : bs !! j = Some k -> end_op_begin s = Ok last s' -> rstep (s, bs) (s', delete j bs)
| r_commit s s' bs : committing s = true -> commit disksize pid s = Ok tt s' -> rstep (s, bs) (s', bs)
| r_done s s' bs : committing s = true -> end_op_done s = Ok tt s' -> rstep (s, bs) (s', bs).

(** ** What commit leaves alone *)

Record frame (s s' : log) : Prop := {
  fr_locked : log_locked s' = log_locked s;
  fr_size : log_size s' = log_size s;
  fr_out : outstanding s' = outstanding s;
  fr_com : committing s' = committing s;
  fr_n : lh_n s' = lh_n s }.

#[local] Instance frame_preorder : PreOrder frame.
Proof. split; [done|]. intros x y z [] []. split; congruence. Qed.

Lemma on_cache_frame {A} (m : C A) : preserving frame (on_cache m).
Proof. intros s a s'. unfold on_cache. destruct (m (lcache s)); [|done..]. by intros [= _ <-]. Qed.
#[local] Hint Resolve on_cache_frame : preserving.

Lemma write_log_frame : preserving frame (write_log disksize pid).
Proof. unfold write_log, for_tail, get_block, bread, bwrite, brelse, data_of, put_data. preserving. Qed.
Lemma write_head_frame : preserving frame (write_head disksize pid).
Proof. unfold write_head, for_tail, get_block, bread, bwrite, brelse, data_of, put_data. preserving. Qed.
Lemma install_trans_frame : preserving frame (install_trans disksize pid).
Proof. unfold install_trans, for_tail, get_block, bread, bwrite, brelse, data_of, put_data. preserving. Qed.

Lemma commit_frame s s' : 0 <= lh_n s -> commit disksize pid s = Ok tt s' ->
  lh_n s' = 0 /\ frame (set_lh 0 (lh_block s) s) s'.
Proof.
  intros Hn H. unfold commit in H. kinv H. injection Hrun as <- <-. rewrite Z.gtb_ltb in H.
  destruct (Z.ltb_spec 0 (lh_n s)) as [Hp|Hp].
  - kinv H. apply write_log_frame in Hrun as []. kinv H. apply write_head_frame in Hrun as [].
    kinv H. apply install_trans_frame in Hrun as []. kinv H. injection Hrun as <- <-.
    apply write_head_frame in H as []. cbn in *. split; [congruence|]. split; cbn; congruence.
  - injection H as <-. split; [lia|]. split; cbn; lia || done.
Qed.

(** ** The invariant *)

Definition total (bs : list Z) : Z := foldr Z.add 0 bs.

Lemma total_app bs bs' : total (bs ++ bs') = total bs + total bs'.
Proof. induction bs as [|b bs IH]; cbn in *; [done|]. unfold total in *. cbn. lia. Qed.

Lemma total_delete bs j k : bs !! j = Some k -> total bs = k + total (delete j bs).
Proof.
  intros H. apply list_elem_of_split_length in H as (l1 & l2 & -> & ->).
  rewrite delete_middle, !total_app. cbn. unfold total. lia.
Qed.

Lemma total_insert bs j k k' : bs !! j = Some k -> total (<[j := k']> bs) = total bs - k + k'.
Proof.
  intros H. pose proof (lookup_lt_Some _ _ _ H) as Hlt. rewrite (total_delete bs j k H).
  rewrite (total_delete (<[j := k']> bs) j k') by (by apply list_lookup_insert_eq).
  enough (delete j (<[j:=k']> bs) = delete j bs) as -> by lia.
  apply list_elem_of_split_length in H as (l1 & l2 & -> & ->). rewrite insert_app_r_alt, Nat.sub_diag by lia.
  cbn. by rewrite !delete_middle.
Qed.

Record reserved (st : rstate) : Prop := {
  rv_locked : log_locked st.1 = false;
  rv_n : 0 <= lh_n st.1;
  rv_out : outstanding st.1 = Z.of_nat (length st.2);
  rv_bs : Forall (fun k => 0 <= k <= MAXOPBLOCKS) st.2;
  rv_com : committing st.1 = true -> st.2 = [];
  rv_room : lh_n st.1 + total st.2 <= LOGSIZE }.

Lemma total_bound bs : Forall (fun k => 0 <= k <= MAXOPBLOCKS) bs -> 0 <= total bs <= MAXOPBLOCKS * Z.of_nat (length bs).
Proof.
  unfold MAXOPBLOCKS. induction 1 as [|k bs Hk _ IH]; cbn [total foldr length]; [done|].
  unfold total in IH. cbn [foldr]. lia.
Qed.

(** log_write adds at most one block to the header. *)
Lemma log_write_grows b s s' : log_write b s = Ok tt s' ->
  log_locked s = false -> log_locked s' = false /\ log_size s' = log_size s /\ outstanding s' = outstanding s
  /\ committing s' = committing s /\ (lh_n s' = lh_n s \/ lh_n s' = lh_n s + 1).
Proof.
  intros H Hl. unfold log_write in H. do 2 (kinv H; injection Hrun as <- <-).
  destruct (_ || _); [discriminate|]. kinv H; injection Hrun as <- <-. destruct (_ <? 1); [discriminate|].
  kinv H. unfold acquire, kbind, gets in Hrun. rewrite Hl in Hrun. injection Hrun as <- <-.
  do 2 (kinv H; injection Hrun as <- <-). kinv H. unfold put_block in Hrun. destruct (_ && _); [|discriminate].
  injection Hrun as <- <-. kinv H.
  assert (E : s0 = set_loglock true (set_lh (lh_n s0) (lh_block s0) (set_cache (lcache s0) s)) /\ (lh_n s0 = lh_n s \/ lh_n s0 = lh_n s + 1)).
  { destruct (_ =? _); injection Hrun as <- <-; (split; [done|]); cbn; lia. }
  destruct E as [E Hn]. rewrite E in H. kinv H. injection Hrun0 as <- <-.
  injection H as <-. done.
Qed.

Lemma reserved_step st st' : rstep st st' -> reserved st -> reserved st' /\ log_size st'.1 = log_size st.1.
Proof.
  intros Hst [I1 I2 I3 I4 I5 I6]. destruct Hst as [s s' bs H|s s' bs H|s s' bs j k b Hj Hk H|s c bs|s s' bs j k last Hj H|s s' bs Hc H|s s' bs Hc H];
    cbn [fst snd] in *; pose proof (total_bound bs I4) as HT.
  - unfold begin_op, acquire, begin_op_try, kbind, gets in H. rewrite I1 in H. cbn in H.
    destruct (committing s) eqn:Ec; [discriminate|].
    cbn [lh_n outstanding set_loglock] in H. destruct (lh_n s + (outstanding s + 1) * MAXOPBLOCKS >? LOGSIZE) eqn:E; [cbn in H; discriminate|].
    rewrite Z.gtb_ltb in E. apply Z.ltb_ge in E. cbn in H. injection H as <-. split; [|done]. split; cbn.
    + done.
    + done.
    + rewrite length_app. cbn. lia.
    + apply Forall_app. split; [done|]. apply Forall_singleton. unfold MAXOPBLOCKS. lia.
    + congruence.
    + rewrite total_app. cbn. lia.
  - unfold begin_op, acquire, begin_op_try, kbind, gets in H. rewrite I1 in H. cbn in H.
    destruct (committing s) eqn:Ec; cbn in H.
    + injection H as <-. split; [|done]. split; cbn; auto.
    + destruct (_ >? _); cbn in H; [|discriminate]. injection H as <-. split; [|done]. split; cbn; auto; congruence.
  - destruct (log_write_grows _ _ _ H I1) as (L1 & L2 & L3 & L4 & L5). split; [|done].
    pose proof (proj1 (Forall_lookup _ _) I4 _ _ Hj) as Hk'. cbn in Hk'. split; cbn [fst snd].
    + done.
    + lia.
    + by rewrite length_insert, L3.
    + apply Forall_insert; [done|cbn; lia].
    + rewrite L4. intros Hc. rewrite (I5 Hc) in Hj. discriminate.
    + rewrite (total_insert _ _ _ _ Hj). lia.
  - by split.
  - unfold end_op_begin, acquire, kbind, gets in H. rewrite I1 in H. cbn in H.
    destruct (committing s) eqn:Ec; [discriminate|]. pose proof (lookup_lt_Some _ _ _ Hj) as Hlt.
    pose proof (total_delete _ _ _ Hj) as Htot. pose proof (proj1 (Forall_lookup _ _) I4 _ _ Hj) as Hk. cbn in Hk.
    assert (Hl : S (length (delete j bs)) = length bs) by (rewrite length_delete by eauto; lia).
    assert (Hnil : outstanding s - 1 = 0 -> delete j bs = []) by (intros E; apply nil_length_inv; lia).
    destruct (Z.eqb_spec (outstanding s - 1) 0) as [E|E]; cbn in H; injection H as _ <-; (split; [|done]);
      (split; cbn [fst snd]; [done|done|cbn; lia|by apply Forall_delete|cbn; auto; done|change (lh_n s + total (delete j bs) <= LOGSIZE); lia]).
  - destruct (commit_frame _ _ I2 H) as [Hn [F1 F2 F3 F4 F5]]. cbn in F1, F2, F3, F4. split; [|done]. split; cbn [fst snd]; try congruence; try lia; by rewrite F4.
  - unfold end_op_done, acquire, kbind, gets in H. rewrite I1 in H. cbn in H. injection H as <-. split; [|done]. by split.
Qed.
End space.

(** C18: begin_op reserves enough.  When the log has more than [LOGSIZE] blocks,
    in every interleaving of operations that each write at most [MAXOPBLOCKS]
    times, the blocks in the header and those still promised fit, and the next
    log_write of an operation that has writes left never finds the header full. *)
Theorem reservation_spec disksize pid s0 s bs :
  log_locked s0 = false -> lh_n s0 = 0 -> outstanding s0 = 0 -> committing s0 = false -> LOGSIZE < log_size s0 ->
  star (rstep disksize pid) (s0, []) (s, bs) ->
  lh_n s + foldr Z.add 0 bs <= LOGSIZE /\ outstanding s = Z.of_nat (length bs)
  /\ forall j k b, bs !! j = Some k -> 0 < k -> exists s', log_write b s = Ok tt s'.
Proof.
  intros H1 H2 H3 H4 H5 Hst.
  assert (Hinv : reserved (s, bs) /\ LOGSIZE < log_size s).
  { apply (star_invariant (rstep disksize pid) (fun st => reserved st /\ LOGSIZE < log_size st.1) (s0, []) (s, bs)); [|done|].
    - intros x y Hxy [Hx Hs]. destruct (reserved_step _ _ _ _ Hxy Hx) as [Hy ->]. done.
    - split; [|done]. split; cbn; rewrite ?H2, ?H4; try done. }
  destruct Hinv as [[I1 I2 I3 I4 I5 I6] Hs]. cbn [fst snd] in *. split; [exact I6|]. split; [done|].
  intros j k b Hj Hk. pose proof (total_delete _ _ _ Hj) as Htot.
  pose proof (total_bound (delete j bs) (Forall_delete _ _ _ I4)) as [Hd _]. apply lookup_lt_Some in Hj.
  unfold log_write, kbind at 1 2, gets at 1 2. rewrite !Z.geb_leb, !(proj2 (Z.leb_gt _ _)) by lia. cbn [orb].
  unfold kbind at 1, gets at 1. rewrite (proj2 (Z.ltb_ge _ _)) by lia.
  unfold acquire, kbind at 1 2, gets at 1. rewrite I1. unfold modify at 1, kbind at 1 2, gets at 1 2.
  set (i := absorb _ _ 0 _).
  assert (Hi : 0 <= i < LOGSIZE).
  { assert (Ha : forall blk bn i0 todo, i0 <= absorb blk bn i0 todo <= i0 + Z.of_nat todo).
    { intros blk bn i0 todo. revert i0. induction todo as [|todo IH]; intros i0; cbn [absorb]; [lia|].
      case_match; [lia|]. specialize (IH (i0 + 1)). lia. }
    match goal with i := absorb ?blk ?bn 0 ?n |- _ => specialize (Ha blk bn 0 n); fold i in Ha end. lia. }
  unfold put_block. rewrite (proj2 (Z.leb_le _ _)), (proj2 (Z.ltb_lt _ _)) by lia. cbn [andb].
  unfold kbind, modify, on_cache, release, kret, gets, kbind, modify.
  destruct (i =? lh_n s); cbn; eauto.
Qed.

(** A log that has just been recovered, with [size] blocks. *)
Definition empty_log (size : Z) : log :=
  {| lcache := blank; log_locked := false; log_start := 2; log_size := size; outstanding := 0;
     committing := false; log_dev := 1; lh_n := 0; lh_block := fun _ => 0 |}.

Lemma reservation_spec_witness : exists s bs s',
  star (rstep 1000 1) (empty_log 31, []) (s, bs) /\ bs = [10] /\ log_write 0 s = Ok tt s'.
Proof.
  assert (Hst : star (rstep 1000 1) (empty_log 31, []) (set_outstanding 1 false (empty_log 31), [10])).
  { apply (star_step _ _ (set_outstanding 1 false (empty_log 31), [10])); [|apply star_refl]. by apply (r_begin 1000 1 _ _ []). }
  destruct (reservation_spec 1000 1 (empty_log 31) _ _ eq_refl eq_refl eq_refl eq_refl eq_refl Hst) as (_ & _ & Hw).
  destruct (Hw 0%nat 10 0%nat eq_refl eq_refl) as (s' & E). exists (set_outstanding 1 false (empty_log 31)), [10], s'.
  split; [exact Hst|]. split; [reflexivity|exact E].
Defined.

(** ** A log of [LOGSIZE] blocks is too small *)

(** The writes [ws], each an operation and a buffer, one after the other. *)
Fixpoint write_all (ws : list (nat * nat)) (st : rstate) : option rstate :=
  match ws with
  | [] => Some st
  | (j, b) :: ws =>
      match st.2 !! j, log_write b st.1 with
      | Some k, Ok _ s' => if 0 <? k then write_all ws (s', <[j := k - 1]> st.2) else None
      | _, _ => None
      end
  end.

Lemma write_all_star disksize pid ws st st' : write_all ws st = Some st' -> star (rstep disksize pid) st st'.
Proof.
  revert st. induction ws as [|[j b] ws IH]; intros [s bs] H; cbn [write_all fst snd] in H; [injection H as <-; apply star_refl|].
  destruct (bs !! j) as [k|] eqn:Hj; [|discriminate]. destruct (log_write b s) as [[] s'|e|e|] eqn:E; try discriminate.
  destruct (0 <? k) eqn:Hk; [|discriminate]. apply Z.ltb_lt in Hk.
  eapply star_step; [by apply (r_write disksize pid s s' bs j k b)|]. by apply IH.
Qed.

(** Buffer [i] holds block [100 + i]. *)
Definition thirty_buffers : cache :=
  {| bufs := fun i => set_id 1 (100 + Z.of_nat i) (bufs blank i); next := next blank; prev := prev blank;
     bc_locked := false; disk := disk blank; writes := [] |}.

Definition three_ops : rstate := (set_outstanding 3 false (set_cache thirty_buffers (empty_log LOGSIZE)), [10; 10; 10]).

Definition overrun_writes : list (nat * nat) := map (fun b => (b / 10, b)%nat) (seq 0 29).

(** C40: mkfs makes a log of [LOGSIZE] blocks, of which one is the header's, and
    begin_op counts [LOGSIZE].  Three operations are admitted, write 29
    different blocks, the last of them has one of its ten writes left, and the
    kernel panics in that log_write. *)
Theorem reservation_overrun : exists s bs,
  star (rstep 1000 1) (empty_log LOGSIZE, []) (s, bs) /\ bs = [0; 0; 1]
  /\ log_write 29 s = Panic "too big a transaction".
Proof.
  assert (H3 : star (rstep 1000 1) (empty_log LOGSIZE, []) three_ops).
  { eapply star_step; [by apply (r_cache 1000 1 _ thirty_buffers)|].
    eapply star_step; [by apply (r_begin 1000 1 _ (set_outstanding 1 false (set_cache thirty_buffers (empty_log LOGSIZE))))|].
    eapply star_step; [by apply (r_begin 1000 1 _ (set_outstanding 2 false (set_cache thirty_buffers (empty_log LOGSIZE))))|].
    eapply star_step; [by apply (r_begin 1000 1 _ (set_outstanding 3 false (set_cache thirty_buffers (empty_log LOGSIZE))))|].
    apply star_refl. }
  destruct (write_all overrun_writes three_ops) as [[s bs]|] eqn:E.
  - assert (Hck : match write_all overrun_writes three_ops with
      | Some (s, bs) => bool_decide (bs = [0; 0; 1]) && (lh_n s =? 29) && (log_size s =? 30)
      | None => false end = true) by (by vm_compute).
    rewrite E in Hck. apply andb_true_iff in Hck as [[Hbs Hn]%andb_true_iff Hsz].
    apply bool_decide_eq_true in Hbs. apply Z.eqb_eq in Hn, Hsz.
    exists s, bs. split; [|split; [done|]].
    + apply write_all_star with (disksize := 1000) (pid := 1) in E. clear -H3 E.
      induction H3; [done|]. eapply star_step; eauto.
    + unfold log_write, kbind, gets. by rewrite Hn, Hsz.
  - exfalso. assert (Hck : bool_decide (is_Some (write_all overrun_writes three_ops)) = true) by (by vm_compute).
    by rewrite E in Hck.
Qed.
