(* ===== verification/Fs.v ===== *)
(** * Inodes, directories and path names (fs.c, fs.h, file.h, stat.h)

    The layer over the log: the block allocator, the inode cache, the
    contents of files, directories and the walk along a path.  The fifty
    slots of [icache.inode] are numbered; a pointer to an inode is its slot.
    All routines run as the process [pid] with current directory [cwd].  A C
    string or a char array is the list of its bytes.  [devread] and
    [devwrite] are the function pointers of the table [devsw] of file.c. *)

From S2P Require Import Prelude Mem Block Bio Log.
#[local] Open Scope Z_scope.
#[local] Open Scope kernel_scope.

Definition ROOTINO : Z := 1.
Definition ROOTDEV : Z := 1.
Definition NINODE : nat := 50.
Definition NDEV : Z := 10.
Definition NDIRECT : Z := 12.
Definition NINDIRECT : Z := BSIZE / 4.
Definition MAXFILE : Z := NDIRECT + NINDIRECT.
Definition DINODE : Z := 64.           (* sizeof(struct dinode) *)
Definition IPB : Z := BSIZE / DINODE.
Definition BPB : Z := BSIZE * 8.
Definition DIRSIZ : Z := 14.
Definition DIRENT : Z := 16.           (* sizeof(struct dirent) *)
Definition T_DIR : Z := 1.
Definition T_FILE : Z := 2.
Definition T_DEV : Z := 3.

Definition IBLOCK (i : Z) (sb : superblock) : Z := u32 (i / IPB + sb_inodestart sb).
Definition BBLOCK (b : Z) (sb : superblock) : Z := u32 (b / BPB + sb_bmapstart sb).

(** [struct inode]; [addrs] has [NDIRECT + 1] entries. *)
Record inode := {
  i_dev : Z;
  i_inum : Z;
  i_ref : Z;
  i_lock : sleeplock;
  i_valid : bool;
  i_type : Z;
  i_major : Z;
  i_minor : Z;
  i_nlink : Z;
  i_size : Z;
  i_addrs : list Z }.

Record fsys := {
  flog : log;
  icache : nat -> inode;
  ic_locked : bool;
  sb : superblock }.

Definition F : Type -> Type := K fsys.

Definition set_flog (l : log) (s : fsys) : fsys :=
  {| flog := l; icache := icache s; ic_locked := ic_locked s; sb := sb s |}.
Definition set_inode (i : nat) (ip : inode) (s : fsys) : fsys :=
  {| flog := flog s; icache := <[i := ip]> (icache s); ic_locked := ic_locked s; sb := sb s |}.
Definition set_iclock (b : bool) (s : fsys) : fsys :=
  {| flog := flog s; icache := icache s; ic_locked := b; sb := sb s |}.
Definition set_sb (x : superblock) (s : fsys) : fsys :=
  {| flog := flog s; icache := icache s; ic_locked := ic_locked s; sb := x |}.

(** Field updates of an inode. *)
Definition with_ref (r : Z) (ip : inode) : inode :=
  {| i_dev := i_dev ip; i_inum := i_inum ip; i_ref := r; i_lock := i_lock ip; i_valid := i_valid ip;
     i_type := i_type ip; i_major := i_major ip; i_minor := i_minor ip; i_nlink := i_nlink ip;
     i_size := i_size ip; i_addrs := i_addrs ip |}.
Definition with_ident (d n : Z) (ip : inode) : inode :=
  {| i_dev := d; i_inum := n; i_ref := 1; i_lock := i_lock ip; i_valid := false;
     i_type := i_type ip; i_major := i_major ip; i_minor := i_minor ip; i_nlink := i_nlink ip;
     i_size := i_size ip; i_addrs := i_addrs ip |}.
Definition with_lock (l : sleeplock) (ip : inode) : inode :=
  {| i_dev := i_dev ip; i_inum := i_inum ip; i_ref := i_ref ip; i_lock := l; i_valid := i_valid ip;
     i_type := i_type ip; i_major := i_major ip; i_minor := i_minor ip; i_nlink := i_nlink ip;
     i_size := i_size ip; i_addrs := i_addrs ip |}.
Definition with_valid (v : bool) (ip : inode) : inode :=
  {| i_dev := i_dev ip; i_inum := i_inum ip; i_ref := i_ref ip; i_lock := i_lock ip; i_valid := v;
     i_type := i_type ip; i_major := i_major ip; i_minor := i_minor ip; i_nlink := i_nlink ip;
     i_size := i_size ip; i_addrs := i_addrs ip |}.
Definition with_meta (t ma mi nl : Z) (ip : inode) : inode :=
  {| i_dev := i_dev ip; i_inum := i_inum ip; i_ref := i_ref ip; i_lock := i_lock ip; i_valid := i_valid ip;
     i_type := t; i_major := ma; i_minor := mi; i_nlink := nl; i_size := i_size ip; i_addrs := i_addrs ip |}.
Definition with_size (z : Z) (ip : inode) : inode :=
  {| i_dev := i_dev ip; i_inum := i_inum ip; i_ref := i_ref ip; i_lock := i_lock ip; i_valid := i_valid ip;
     i_type := i_type ip; i_major := i_major ip; i_minor := i_minor ip; i_nlink := i_nlink ip;
     i_size := z; i_addrs := i_addrs ip |}.
Definition with_addrs (a : list Z) (ip : inode) : inode :=
  {| i_dev := i_dev ip; i_inum := i_inum ip; i_ref := i_ref ip; i_lock := i_lock ip; i_valid := i_valid ip;
     i_type := i_type ip; i_major := i_major ip; i_minor := i_minor ip; i_nlink := i_nlink ip;
     i_size := i_size ip; i_addrs := a |}.

Definition on_log {A} (m : LG A) : F A := fun s =>
  match m (flog s) with
  | Ok a l => Ok a (set_flog l s)
  | Panic e => Panic e
  | Fault e => Fault e
  | NoFuel => NoFuel
  end.

Definition get (i : nat) : F inode := gets (fun s => icache s i).
Definition upd_inode (i : nat) (f : inode -> inode) : F unit := modify (fun s => set_inode i (f (icache s i)) s).

(** [acquire(&icache.lock)], [release(&icache.lock)]. *)
Definition acquire : F unit :=
  l <- gets ic_locked ;; if l : bool then panic "acquire" else modify (set_iclock true).
Definition release : F unit :=
  l <- gets ic_locked ;; if l : bool then modify (set_iclock false) else panic "release".

(** ** The on-disk inode: short fields at 0, 2, 4 and 6, size at 8, addrs at 12 *)

Definition dinode_off (inum : Z) : Z := inum mod IPB * DINODE.

Definition read_dinode (d : block) (off : Z) (ip : inode) : inode :=
  with_addrs (map (fun k => get32 d (off + 12 + 4 * Z.of_nat k)) (seq 0 13))
    (with_size (get32 d (off + 8))
      (with_meta (s16 (get16 d off)) (s16 (get16 d (off + 2))) (s16 (get16 d (off + 4))) (s16 (get16 d (off + 6))) ip)).

Definition write_addrs (d : block) (off : Z) (addrs : list Z) : block :=
  fold_left (fun d k => put32 d (off + 12 + 4 * Z.of_nat k) (addrs !!! k)) (seq 0 13) d.

Definition write_dinode (d : block) (off : Z) (ip : inode) : block :=
  write_addrs
    (put32 (put16 (put16 (put16 (put16 d off (i_type ip)) (off + 2) (i_major ip)) (off + 4) (i_minor ip))
       (off + 6) (i_nlink ip)) (off + 8) (i_size ip))
    off (i_addrs ip).

Section fs.
Context (disksize pid : Z) (cwd : nat).

Definition bread (dv bn : Z) : F nat := on_log (on_cache (Bio.bread disksize pid dv bn)).
Definition brelse (b : nat) : F unit := on_log (Log.brelse pid b).
Definition log_write (b : nat) : F unit := on_log (Log.log_write b).
Definition data_of (b : nat) : F block := on_log (Log.data_of b).
Definition put_data (b : nat) (d : block) : F unit := on_log (Log.put_data b d).

(** ** Blocks *)

Definition bzero (dv bno : Z) : F unit :=
  bp <- bread dv bno ;;
  d <- data_of bp ;;
  put_data bp (clear_block d) ;;;
  log_write bp ;;;
  brelse bp.

(** The mask [1 << (bi % 8)] and the byte [bi / 8] of a bitmap block. *)
Definition bit_set (d : block) (bi : Z) : bool := negb (Z.land (get8 d (bi / 8)) (Z.shiftl 1 (bi mod 8)) =? 0).
Definition mark (d : block) (bi : Z) : block :=
  put8 d (bi / 8) (Z.lor (get8 d (bi / 8)) (Z.shiftl 1 (bi mod 8))).
Definition unmark (d : block) (bi : Z) : block :=
  put8 d (bi / 8) (Z.land (get8 d (bi / 8)) (Z.lnot (Z.shiftl 1 (bi mod 8)))).

(** The inner loop of balloc, from [bi] for [todo] bits: the first clear bit. *)
Fixpoint free_bit (d : block) (bi : Z) (todo : nat) : option Z :=
  match todo with
  | O => None
  | S todo => if negb (bit_set d bi) then Some bi else free_bit d (bi + 1) todo
  end.

Definition balloc (dv : Z) : F Z :=
  size <- gets (fun s => sb_size (sb s)) ;;
  r <- first_of (steps 0 size BPB) (fun b =>
    bm <- gets (fun s => BBLOCK b (sb s)) ;;
    bp <- bread dv bm ;;
    d <- data_of bp ;;
    match free_bit d 0 (Z.to_nat (Z.min BPB (size - b))) with
    | Some bi =>
        put_data bp (mark d bi) ;;;
        log_write bp ;;;
        brelse bp ;;;
        bzero dv (b + bi) ;;;
        kret (Some (b + bi))
    | None => brelse bp ;;; kret None
    end) ;;
  match r with
  | Some b => kret b
  | None => panic "balloc: out of blocks"
  end.

Definition bfree (dv b : Z) : F unit :=
  bm <- gets (fun s => BBLOCK b (sb s)) ;;
  bp <- bread dv bm ;;
  d <- data_of bp ;;
  if negb (bit_set d (b mod BPB)) then panic "freeing free block"
  else
    put_data bp (unmark d (b mod BPB)) ;;;
    log_write bp ;;;
    brelse bp.

(** ** Inodes *)

Definition unlocked : sleeplock := {| sl_locked := false; sl_pid := 0 |}.

Definition initsleeplock (i : nat) : F unit := upd_inode i (with_lock unlocked).

Fixpoint iinit_locks (i todo : nat) : F unit :=
  match todo with
  | O => kret tt
  | S todo => initsleeplock i ;;; iinit_locks (S i) todo
  end.

(** The line that iinit prints is not part of the state. *)
Definition iinit (dv : Z) : F unit :=
  modify (set_iclock false) ;;;
  iinit_locks 0 NINODE ;;;
  x <- on_log (Log.readsb disksize pid dv) ;;
  modify (set_sb x).

(** The search of iget from slot [i] on: the entry of (dv, inum), or the
    first slot without references. *)
Fixpoint iget_scan (c : nat -> inode) (dv inum : Z) (i todo : nat) (empty : option nat) : nat + option nat :=
  match todo with
  | O => inr empty
  | S todo =>
      if (i_ref (c i) >? 0) && (i_dev (c i) =? dv) && (i_inum (c i) =? inum) then inl i
      else
        iget_scan c dv inum (S i) todo
          (if i_ref (c i) =? 0 then match empty with None => Some i | Some _ => empty end else empty)
  end.

Definition iget (dv inum : Z) : F nat :=
  acquire ;;;
  c <- gets icache ;;
  match iget_scan c dv inum 0 NINODE None with
  | inl ip =>
      upd_inode ip (fun x => with_ref (i_ref x + 1) x) ;;;
      release ;;;
      kret ip
  | inr (Some ip) =>
      upd_inode ip (with_ident dv inum) ;;;
      release ;;;
      kret ip
  | inr None => panic "iget: no inodes"
  end.

Definition ialloc (dv type : Z) : F nat :=
  ninodes <- gets (fun s => sb_ninodes (sb s)) ;;
  r <- first_of (steps 1 ninodes 1) (fun inum =>
    ib <- gets (fun s => IBLOCK inum (sb s)) ;;
    bp <- bread dv ib ;;
    d <- data_of bp ;;
    if get16 d (dinode_off inum) =? 0 then
      put_data bp (put16 (blit_block d (dinode_off inum) (replicate (Z.to_nat DINODE) 0)) (dinode_off inum) type) ;;;
      log_write bp ;;;
      brelse bp ;;;
      ip <- iget dv inum ;;
      kret (Some ip)
    else brelse bp ;;; kret None) ;;
  match r with
  | Some ip => kret ip
  | None => panic "ialloc: no inodes"
  end.

Definition iupdate (ip : nat) : F unit :=
  x <- get ip ;;
  ib <- gets (fun s => IBLOCK (i_inum x) (sb s)) ;;
  bp <- bread (i_dev x) ib ;;
  d <- data_of bp ;;
  put_data bp (write_dinode d (dinode_off (i_inum x)) x) ;;;
  log_write bp ;;;
  brelse bp.

Definition idup (ip : nat) : F nat :=
  acquire ;;;
  upd_inode ip (fun x => with_ref (i_ref x + 1) x) ;;;
  release ;;;
  kret ip.

Definition acquiresleep (ip : nat) : F unit :=
  x <- get ip ;;
  if sl_locked (i_lock x) then nofuel
  else upd_inode ip (with_lock {| sl_locked := true; sl_pid := pid |}).

Definition releasesleep (ip : nat) : F unit := upd_inode ip (with_lock unlocked).

Definition holdingsleep (ip : nat) : F bool :=
  x <- get ip ;; kret (sl_locked (i_lock x) && (sl_pid (i_lock x) =? pid)).

(** A slot is never the null pointer of the test [ip == 0]. *)
Definition ilock (ip : nat) : F unit :=
  x <- get ip ;;
  if i_ref x <? 1 then panic "ilock"
  else
    acquiresleep ip ;;;
    x <- get ip ;;
    if negb (i_valid x) then
      ib <- gets (fun s => IBLOCK (i_inum x) (sb s)) ;;
      bp <- bread (i_dev x) ib ;;
      d <- data_of bp ;;
      upd_inode ip (read_dinode d (dinode_off (i_inum x))) ;;;
      brelse bp ;;;
      upd_inode ip (with_valid true) ;;;
      x <- get ip ;;
      if i_type x =? 0 then panic "ilock: no type" else kret tt
    else kret tt.

Definition iunlock (ip : nat) : F unit :=
  h <- holdingsleep ip ;;
  x <- get ip ;;
  if negb h || (i_ref x <? 1) then panic "iunlock"
  else releasesleep ip.

(** ** Inode content *)

Definition get_addr (ip : nat) (k : Z) : F Z := x <- get ip ;; kret (i_addrs x !!! Z.to_nat k).
Definition put_addr (ip : nat) (k v : Z) : F unit :=
  upd_inode ip (fun x => with_addrs (<[Z.to_nat k := v]> (i_addrs x)) x).

Definition bmap (ip : nat) (bn : Z) : F Z :=
  x <- get ip ;;
  if bn <? NDIRECT then
    addr <- get_addr ip bn ;;
    if addr =? 0 then
      addr <- balloc (i_dev x) ;;
      put_addr ip bn addr ;;;
      kret addr
    else kret addr
  else
    let bn := bn - NDIRECT in
    if bn <? NINDIRECT then
      addr <- get_addr ip NDIRECT ;;
      addr <- (if addr =? 0 then
                 addr <- balloc (i_dev x) ;;
                 put_addr ip NDIRECT addr ;;;
                 kret addr
               else kret addr) ;;
      bp <- bread (i_dev x) addr ;;
      a <- data_of bp ;;
      let addr := get32 a (4 * bn) in
      addr <- (if addr =? 0 then
                 addr <- balloc (i_dev x) ;;
                 a <- data_of bp ;;
                 put_data bp (put32 a (4 * bn) addr) ;;;
                 log_write bp ;;;
                 kret addr
               else kret addr) ;;
      brelse bp ;;;
      kret addr
    else panic "bmap: out of range".

Definition itrunc (ip : nat) : F unit :=
  x <- get ip ;;
  for_each (steps 0 NDIRECT 1) (fun i =>
    addr <- get_addr ip i ;;
    if negb (addr =? 0) then
      bfree (i_dev x) addr ;;;
      put_addr ip i 0
    else kret tt) ;;;
  ind <- get_addr ip NDIRECT ;;
  (if negb (ind =? 0) then
     bp <- bread (i_dev x) ind ;;
     for_each (steps 0 NINDIRECT 1) (fun j =>
       a <- data_of bp ;;
       let addr := get32 a (4 * j) in
       if negb (addr =? 0) then bfree (i_dev x) addr else kret tt) ;;;
     brelse bp ;;;
     bfree (i_dev x) ind ;;;
     put_addr ip NDIRECT 0
   else kret tt) ;;;
  upd_inode ip (with_size 0) ;;;
  iupdate ip.

Definition iput (ip : nat) : F unit :=
  acquiresleep ip ;;;
  x <- get ip ;;
  (if i_valid x && (i_nlink x =? 0) then
     acquire ;;;
     r <- gets (fun s => i_ref (icache s ip)) ;;
     release ;;;
     if r =? 1 then
       itrunc ip ;;;
       upd_inode ip (fun x => with_meta 0 (i_major x) (i_minor x) (i_nlink x) x) ;;;
       iupdate ip ;;;
       upd_inode ip (with_valid false)
     else kret tt
   else kret tt) ;;;
  releasesleep ip ;;;
  acquire ;;;
  upd_inode ip (fun x => with_ref (i_ref x - 1) x) ;;;
  release.

Definition iunlockput (ip : nat) : F unit := iunlock ip ;;; iput ip.

Record stat := { st_type : Z; st_dev : Z; st_ino : Z; st_nlink : Z; st_size : Z }.

Definition stati (ip : nat) : F stat :=
  x <- get ip ;;
  kret {| st_dev := s32 (i_dev x); st_ino := i_inum x; st_type := i_type x; st_nlink := i_nlink x; st_size := i_size x |}.

Context (devread : Z -> option (nat -> Z -> F (Z * list Z))) (devwrite : Z -> option (nat -> list Z -> Z -> F Z)).

(** The bytes that one round of readi and writei moves. *)
Definition chunk (tot off n : Z) : Z := Z.min (u32 (n - tot)) (BSIZE - off mod BSIZE).

Fixpoint readi_loop (fuel : nat) (ip : nat) (off tot n : Z) (dst : list Z) : F (list Z) :=
  if tot <? n then
    match fuel with
    | O => nofuel
    | S fuel =>
        x <- get ip ;;
        bn <- bmap ip (off / BSIZE) ;;
        bp <- bread (i_dev x) bn ;;
        let m := chunk tot off n in
        d <- data_of bp ;;
        brelse bp ;;;
        readi_loop fuel ip (u32 (off + m)) (tot + m) n (dst ++ slice d (off mod BSIZE) m)
    end
  else kret dst.

(** [readi(ip, dst, off, n)]: the value returned and the bytes stored from
    [dst] on.  After the first round [off] is a multiple of [BSIZE], so
    n / BSIZE + 2 rounds are enough. *)
Definition readi (ip : nat) (off n : Z) : F (Z * list Z) :=
  x <- get ip ;;
  if i_type x =? T_DEV then
    match (if (i_major x <? 0) || (i_major x >=? NDEV) then None else devread (i_major x)) with
    | None => kret (-1, [])
    | Some f => f ip (s32 n)
    end
  else if (off >? i_size x) || (u32 (off + n) <? off) then kret (-1, [])
  else
    let n := if u32 (off + n) >? i_size x then u32 (i_size x - off) else n in
    l <- readi_loop (Z.to_nat (n / BSIZE) + 2) ip off 0 n [] ;;
    kret (s32 n, l).

Fixpoint writei_loop (fuel : nat) (ip : nat) (src : list Z) (off tot n : Z) : F Z :=
  if tot <? n then
    match fuel with
    | O => nofuel
    | S fuel =>
        x <- get ip ;;
        bn <- bmap ip (off / BSIZE) ;;
        bp <- bread (i_dev x) bn ;;
        let m := chunk tot off n in
        d <- data_of bp ;;
        put_data bp (blit_block d (off mod BSIZE) (take (Z.to_nat m) src)) ;;;
        log_write bp ;;;
        brelse bp ;;;
        writei_loop fuel ip (drop (Z.to_nat m) src) (u32 (off + m)) (tot + m) n
    end
  else kret off.

(** [writei(ip, src, off, n)], [src] being the bytes from the pointer on. *)
Definition writei (ip : nat) (src : list Z) (off n : Z) : F Z :=
  x <- get ip ;;
  if i_type x =? T_DEV then
    match (if (i_major x <? 0) || (i_major x >=? NDEV) then None else devwrite (i_major x)) with
    | None => kret (-1)
    | Some f => f ip src (s32 n)
    end
  else if (off >? i_size x) || (u32 (off + n) <? off) then kret (-1)
  else if u32 (off + n) >? MAXFILE * BSIZE then kret (-1)
  else
    off <- writei_loop (Z.to_nat (n / BSIZE) + 2) ip src off 0 n ;;
    x <- get ip ;;
    (if (n >? 0) && (off >? i_size x) then
       upd_inode ip (with_size off) ;;;
       iupdate ip
     else kret tt) ;;;
    kret (s32 n).

(** ** Directories *)

(** strncmp of string.c on two arrays. *)
Definition namecmp (s t : list Z) : Z := KString.strncmp (side_by_side s t) 0 64 (Z.to_nat DIRSIZ).

(** A directory entry: [inum] at 0, [name] at 2. *)
Definition de_inum (de : list Z) : Z := get16 de 0.
Definition de_name (de : list Z) : list Z := slice de 2 DIRSIZ.

(** The slot of the inode with that name, and the offset of its entry. *)
Definition dirlookup (dp : nat) (name : list Z) : F (option (nat * Z)) :=
  x <- get dp ;;
  if negb (i_type x =? T_DIR) then panic "dirlookup not DIR"
  else
    first_of (steps 0 (i_size x) DIRENT) (fun off =>
      '(r, de) <- readi dp off DIRENT ;;
      if negb (r =? DIRENT) then panic "dirlookup read"
      else if de_inum de =? 0 then kret None
      else if namecmp name (de_name de) =? 0 then
        ip <- iget (i_dev x) (de_inum de) ;;
        kret (Some (ip, off))
      else kret None).

(** [strncpy(de.name, name, DIRSIZ)]. *)
Definition dirent_name (name : list Z) : list Z :=
  let m := KString.strncpy (side_by_side [] name) 0 64 DIRSIZ in
  map (fun k => m (Z.of_nat k)) (seq 0 (Z.to_nat DIRSIZ)).
Definition dirent (inum : Z) (name : list Z) : list Z := [u8 inum; u8 (Z.shiftr inum 8)] ++ dirent_name name.

Definition dirlink (dp : nat) (name : list Z) (inum : Z) : F Z :=
  r <- dirlookup dp name ;;
  match r with
  | Some (ip, _) => iput ip ;;; kret (-1)
  | None =>
      x <- get dp ;;
      r <- first_of (steps 0 (i_size x) DIRENT) (fun off =>
        '(r, de) <- readi dp off DIRENT ;;
        if negb (r =? DIRENT) then panic "dirlink read"
        else if de_inum de =? 0 then kret (Some off)
        else kret None) ;;
      let off := match r with Some off => off | None => (i_size x + DIRENT - 1) / DIRENT * DIRENT end in
      r <- writei dp (dirent inum name) off DIRENT ;;
      if negb (r =? DIRENT) then panic "dirlink" else kret 0
  end.

(** ** Paths *)

Definition SLASH : Z := 47.

Fixpoint skip_slashes (path : list Z) : list Z :=
  match path with
  | c :: path' => if c =? SLASH then skip_slashes path' else path
  | [] => []
  end.

(** The bytes before the next slash, and the rest from the slash on. *)
Fixpoint elem_end (path : list Z) : list Z * list Z :=
  match path with
  | c :: path' =>
      if c =? SLASH then ([], path)
      else let '(e, rest) := elem_end path' in (c :: e, rest)
  | [] => ([], [])
  end.

(** [skipelem(path, name)]: the rest of the path and the buffer [name]. *)
Definition skipelem (path name : list Z) : option (list Z * list Z) :=
  let path := skip_slashes path in
  match path with
  | [] => None
  | _ =>
      let '(s, rest) := elem_end path in
      let len := Z.of_nat (length s) in
      let name :=
        if len >=? DIRSIZ then take (Z.to_nat DIRSIZ) s ++ drop (Z.to_nat DIRSIZ) name
        else s ++ [0] ++ drop (S (length s)) name in
      Some (skip_slashes rest, name)
  end.

Fixpoint namex_loop (fuel : nat) (ip : nat) (path : list Z) (parent : bool) (name : list Z) : F (option (nat * list Z)) :=
  match fuel with
  | O => nofuel
  | S fuel =>
      match skipelem path name with
      | None =>
          if parent then iput ip ;;; kret None
          else kret (Some (ip, name))
      | Some (path, name) =>
          ilock ip ;;;
          x <- get ip ;;
          if negb (i_type x =? T_DIR) then iunlockput ip ;;; kret None
          else if parent && match path with [] => true | _ => false end then
            iunlock ip ;;; kret (Some (ip, name))
          else
            r <- dirlookup ip name ;;
            match r with
            | None => iunlockput ip ;;; kret None
            | Some (next, _) => iunlockput ip ;;; namex_loop fuel next path parent name
            end
      end
  end.

(** Each element takes at least one byte of the path. *)
Definition namex (path : list Z) (parent : bool) (name : list Z) : F (option (nat * list Z)) :=
  ip <- match path with
        | c :: _ => if c =? SLASH then iget ROOTDEV ROOTINO else idup cwd
        | [] => idup cwd
        end ;;
  namex_loop (S (length path)) ip path parent name.

(** The array [name] of namei is uninitialised: [junk]. *)
Definition namei (junk path : list Z) : F (option nat) :=
  r <- namex path false junk ;;
  kret (match r with Some (ip, _) => Some ip | None => None end).

Definition nameiparent (path name : list Z) : F (option (nat * list Z)) := namex path true name.
End fs.
