(* ===== verification/FsBlocks.v ===== *)
(** * The blocks under the file system

    What fs.c relies on from the log and the buffer cache inside a
    transaction: a block read is the block last written, whichever buffers
    are recycled in between, and log_write changes nothing else.  The
    routines of fs.c are reasoned about with weakest preconditions over this
    view of the disk. *)

From S2P Require Import Prelude Mem Block Bio Log LogFacts Fs.
#[local] Open Scope Z_scope.
#[local] Open Scope kernel_scope.

(** The contents of block [b] as fs.c sees them. *)
Definition fview (s : fsys) (b : Z) : block := view (lcache (flog s)) b.

(** [m] returns from [s], in a state that satisfies [Q], or panics with a
    message that [E] allows; it does not fault and does not run out of fuel. *)
Definition wp {A} (E : string -> Prop) (m : F A) (Q : A -> fsys -> Prop) (s : fsys) : Prop :=
  match m s with Ok a s' => Q a s' | Panic e => E e | Fault _ | NoFuel => False end.

#[global] Arguments wp : simpl never.

Definition no_panic : string -> Prop := fun _ => False.
Definition out_of_blocks : string -> Prop := fun e => e = "balloc: out of blocks"%string.

Section wp.
Context (E : string -> Prop).

Lemma wp_bind {A B} (m : F A) (f : A -> F B) Q s : wp E m (fun a s' => wp E (f a) Q s') s -> wp E (kbind m f) Q s.
Proof. unfold wp, kbind. by destruct (m s). Qed.
Lemma wp_ret {A} (a : A) (Q : A -> fsys -> Prop) s : Q a s -> wp E (kret a) Q s.
Proof. done. Qed.
Lemma wp_gets {A} (f : fsys -> A) (Q : A -> fsys -> Prop) s : Q (f s) s -> wp E (gets f) Q s.
Proof. done. Qed.
Lemma wp_modify f (Q : unit -> fsys -> Prop) s : Q tt (f s) -> wp E (modify f) Q s.
Proof. done. Qed.
Lemma wp_panic {A} e (Q : A -> fsys -> Prop) s : E e -> wp E (panic e) Q s.
Proof. done. Qed.
Lemma wp_mono {A} (m : F A) (Q Q' : A -> fsys -> Prop) s : wp E m Q s -> (forall a s', Q a s' -> Q' a s') -> wp E m Q' s.
Proof. unfold wp. intros H HQ. destruct (m s); auto. Qed.
Lemma wp_panics {A} E' (m : F A) (Q : A -> fsys -> Prop) s : wp E m Q s -> (forall e, E e -> E' e) -> wp E' m Q s.
Proof. unfold wp. intros H HE. destruct (m s); auto. Qed.
Lemma wp_ok {A} (m : F A) (Q : A -> fsys -> Prop) s a s' : m s = Ok a s' -> Q a s' -> wp E m Q s.
Proof. unfold wp. by intros ->. Qed.
Lemma wp_assoc {A B C} (m : F A) (f : A -> F B) (g : B -> F C) Q s :
  wp E (kbind m (fun a => kbind (f a) g)) Q s -> wp E (kbind (kbind m f) g) Q s.
Proof. unfold wp. by rewrite kbind_assoc. Qed.

(** A loop that stops early: [I] holds of the elements passed over. *)
Lemma wp_first_of {A B} (l : list A) (f : A -> F (option B)) (I : list A -> fsys -> Prop) Q s :
  I [] s ->
  (forall pre x rest s, l = pre ++ x :: rest -> I pre s ->
     wp E (f x) (fun r s' => match r with Some b => Q (Some b) s' | None => I (pre ++ [x]) s' end) s) ->
  (forall s, I l s -> Q None s) -> wp E (first_of l f) Q s.
Proof.
  intros H0 Hf Hend. assert (H : forall rest pre s, l = pre ++ rest -> I pre s -> wp E (first_of rest f) Q s); [|by apply (H l [])].
  induction rest as [|x rest IH]; intros pre s' Hl HI.
  - rewrite app_nil_r in Hl. subst pre. by apply Hend.
  - cbn. apply wp_bind. eapply wp_mono; [by apply (Hf pre x rest)|]. intros [b|] s2 H2; [by apply wp_ret|].
    apply (IH (pre ++ [x])); [by rewrite <- app_assoc|done].
Qed.
End wp.

Lemma wp_no_panic {A} (m : F A) Q s : wp no_panic m Q s <-> exists a s', m s = Ok a s' /\ Q a s'.
Proof.
  unfold wp. split; [|by intros (a & s' & -> & H)]. destruct (m s); try done. eauto.
Qed.

Section blocks.
Context (disksize pid : Z) (E : string -> Prop).

(** Inside a transaction: the log lists the blocks [P], and the buffers [hs],
    each with the block it is for, are held. *)
Record trans (P : list Z) (hs : list (nat * Z)) (s : fsys) : Prop := {
  tr_header : header_ok disksize (flog s) P;
  tr_cache : cache_ok pid (lcache (flog s)) (map fst hs);
  tr_pinned : pinned (lcache (flog s)) P;
  tr_out : 1 <= outstanding (flog s);
  tr_lock : log_locked (flog s) = false;
  tr_open : forall i bn, (i, bn) ∈ hs -> opened (lcache (flog s)) i bn;
  tr_nodup : NoDup (map snd hs) }.

(** All but the buffers and the header of the log is the same. *)
Record same_rest (s s' : fsys) : Prop := {
  sr_icache : icache s' = icache s;
  sr_iclock : ic_locked s' = ic_locked s;
  sr_sb : sb s' = sb s;
  sr_start : log_start (flog s') = log_start (flog s);
  sr_size : log_size (flog s') = log_size (flog s) }.

#[export] Instance same_rest_preorder : PreOrder same_rest.
Proof. split; [done|]. intros x y z [] []. split; congruence. Qed.

(** A block that fs.c may log. *)
Definition loggable (s : fsys) (bn : Z) : Prop := 2 <= bn < disksize /\ ~ log_area (flog s) bn.

Lemma loggable_rest s s' bn : same_rest s s' -> loggable s bn -> loggable s' bn.
Proof. intros [_ _ _ H1 H2] [H3 H4]. split; [done|]. unfold log_area in *. by rewrite H1, H2. Qed.

Lemma trans_set_cache P hs c s :
  trans P hs s -> cache_ok pid c (map fst hs) -> pinned c P -> (forall i bn, (i, bn) ∈ hs -> opened c i bn) ->
  trans P hs (set_flog (set_cache c (flog s)) s).
Proof. intros [H1 H2 H3 H4 H5 H6 H7] C1 C2 C3. split; try done. by apply header_set_cache. Qed.

Lemma wp_bread P hs bn (Q : nat -> fsys -> Prop) s :
  trans P hs s -> bn ∉ map snd hs -> bn < disksize -> (length P + length hs < NBUF)%nat ->
  (forall i s', trans P ((i, bn) :: hs) s' -> (forall b, fview s' b = fview s b) -> same_rest s s' -> Q i s') ->
  wp E (bread disksize pid 1 bn) Q s.
Proof.
  intros [H1 H2 H3 H4 H5 H6 H7] Hn Hlt Hroom HQ.
  destruct (read_one disksize pid (lcache (flog s)) (map fst hs) P bn H2 H3) as (i & c & Er & [S1 S2 S3 S4 S5] & O & V); [|right|done|].
  { intros i Hi Hf. apply list_elem_of_fmap in Hi as ([i' b] & -> & Hi). cbn in *. apply Hn. apply list_elem_of_fmap. exists (i', b).
    split; [|done]. destruct (H6 _ _ Hi) as [[[_ Hb] _ _] _]. destruct Hf as [_ Hf]. cbn. congruence. }
  { by rewrite length_map. }
  apply (wp_ok _ _ _ _ i (set_flog (set_cache c (flog s)) s)).
  { unfold bread, on_log. by rewrite (on_cache_ok _ _ _ _ Er). }
  apply HQ; [|done|done]. split; try done; cbn.
  - by apply header_set_cache.
  - intros j b [[= -> ->]|Hj]%elem_of_cons; [done|].
    assert (Hjl : j ∈ map fst hs) by (apply list_elem_of_fmap; by exists (j, b)).
    apply (opened_frame (lcache (flog s))); [by apply H6| |done|].
    + apply S5. tauto.
    + by rewrite S3.
  - by constructor.
Qed.

Lemma wp_data_of P hs i bn (Q : block -> fsys -> Prop) s :
  trans P hs s -> (i, bn) ∈ hs -> Q (fview s bn) s -> wp E (data_of i) Q s.
Proof.
  intros H Hi HQ. destruct (tr_open _ _ _ H _ _ Hi) as [[_ _ Hd] _]. unfold wp, data_of, on_log, Log.data_of, gets. rewrite Hd.
  unfold fview in HQ. by destruct s.
Qed.

(** The bytes of a buffer replaced, and logged. *)
Definition pin (P : list Z) (bn : Z) : list Z := if decide (bn ∈ P) then P else P ++ [bn].

Lemma wp_put_log P hs i bn d (Q : unit -> fsys -> Prop) s :
  trans P ((i, bn) :: hs) s -> is_block d -> loggable s bn -> Z.of_nat (length P) < log_size (flog s) - 1 ->
  (forall s', trans (pin P bn) ((i, bn) :: hs) s' -> (forall b, fview s' b = if decide (b = bn) then d else fview s b) -> same_rest s s' -> Q tt s') ->
  wp E (put_data i d ;;; log_write i) Q s.
Proof.
  intros [H1 H2 H3 H4 H5 H6 H7] Hd [Hl1 Hl2] Hroom HQ. set (c := lcache (flog s)) in *.
  assert (Hin : i ∈ map fst ((i, bn) :: hs)) by left.
  destruct (H6 i bn ltac:(left)) as [Hh Ho].
  destruct (put_one pid c _ P i bn d H2 H3 Hin Hh Hd) as (c1 & E1 & [S1 S2 S3 S4 S5] & Hh1 & D1 & V1).
  set (s1 := set_cache c1 (flog s)).
  assert (Hn : lh_n s1 < log_size s1 - 1) by (cbn; rewrite (ho_n _ _ _ H1); lia).
  destruct (log_write_ok disksize pid s1 P _ i bn (header_set_cache _ _ _ _ H1) S1 Hin Hh1 S2 Hl1 Hl2 Hn H4 H5)
    as (c2 & blk & E2 & Ho2 & [T1 T2 T3 T4 T5] & Hh2 & V2). fold (pin P bn) in *.
  apply (wp_ok _ _ _ _ tt (set_flog (set_cache c2 (set_lh (Z.of_nat (length (pin P bn))) blk s1)) s)).
  { unfold kbind, put_data, Log.put_data, log_write, on_log. rewrite (on_cache_ok _ _ _ _ E1). cbn [flog set_flog]. fold s1. by rewrite E2. }
  apply HQ; [|intros b; unfold fview; cbn; by rewrite V2, V1|done]. split; try done; cbn.
  - by apply header_set_cache.
  - intros j b [[= -> ->]|Hj]%elem_of_cons.
    + split; [done|]. left. destruct (proj1 (T2 bn)) as (k & Hk & Hfk & Hdk).
      { unfold pin. case_decide; [done|]. apply elem_of_app. right. by left. }
      replace i with k; [done|]. destruct Hh2 as [[F1 F2] Hlt _]. apply (co_unique _ _ _ T1 k i Hk Hlt); [apply Hfk|].
      destruct Hfk as [_ ->]. by split.
    + assert (Hjl : j ∈ map fst hs) by (apply list_elem_of_fmap; by exists (j, b)).
      assert (Hji : i <> j). { destruct (co_held _ _ _ H2) as [Hnd _]. cbn in Hnd. apply NoDup_cons in Hnd as [Hnd _]. by intros ->. }
      assert (Hb : b <> bn). { cbn in H7. apply NoDup_cons in H7 as [H7 _]. intros ->. apply H7, list_elem_of_fmap. by exists (j, bn). }
      apply (opened_frame c); [apply H6; by right|by rewrite T5, S5|by rewrite V2, V1, decide_False|rewrite T3; cbn; by rewrite S3].
Qed.

Lemma wp_brelse P hs i bn (Q : unit -> fsys -> Prop) s :
  trans P ((i, bn) :: hs) s ->
  (forall s', trans P hs s' -> (forall b, fview s' b = fview s b) -> same_rest s s' -> Q tt s') -> wp E (brelse pid i) Q s.
Proof.
  intros [H1 H2 H3 H4 H5 H6 H7] HQ. destruct (close_one pid (lcache (flog s)) (map fst hs) P i bn H2 H3) as (c & Er & [S1 S2 S3 S4 S5] & V).
  { apply H6. left. }
  apply (wp_ok _ _ _ _ tt (set_flog (set_cache c (flog s)) s)).
  { unfold brelse, Log.brelse, on_log. by rewrite (on_cache_ok _ _ _ _ Er). }
  apply HQ; [|done|done]. split; try done; cbn.
  - by apply header_set_cache.
  - intros j b Hj. assert (Hjl : j ∈ map fst hs) by (apply list_elem_of_fmap; by exists (j, b)).
    assert (Hji : i <> j). { destruct (co_held _ _ _ H2) as [Hnd _]. cbn in Hnd. apply NoDup_cons in Hnd as [Hnd _]. by intros ->. }
    apply (opened_frame (lcache (flog s))); [apply H6; by right|by apply S5|done|by rewrite S3].
  - cbn in H7. by apply NoDup_cons in H7 as [_ H7].
Qed.

Lemma trans_view_block P hs s b : trans P hs s -> is_block (fview s b).
Proof.
  intros H. unfold fview, view. destruct (List.find _ _); [apply (co_block _ _ _ (tr_cache _ _ _ H))|apply (co_disk _ _ _ (tr_cache _ _ _ H))].
Qed.

Lemma trans_room P hs s : trans P hs s -> (length P < NBUF)%nat.
Proof. intros H. apply (header_room disksize (flog s)), H. Qed.

Lemma trans_log_size P hs s : trans P hs s -> log_size (flog s) <= LOGSIZE.
Proof. intros H. by destruct (ho_size _ _ _ (tr_header _ _ _ H)). Qed.

Lemma trans_inode P hs s i x : trans P hs s -> trans P hs (set_inode i x s).
Proof. by intros []. Qed.

Lemma pin_length P bn : (length P <= length (pin P bn) <= S (length P))%nat.
Proof. unfold pin. case_decide; [lia|]. rewrite length_app. cbn. lia. Qed.

(** ** The common sequences *)

(** [bp = bread(dv, bn)] and a use of [bp->data]. *)
Lemma wp_load {A} P hs bn (k : nat -> block -> F A) (Q : A -> fsys -> Prop) s :
  trans P hs s -> bn ∉ map snd hs -> bn < disksize -> (length P + length hs < NBUF)%nat ->
  (forall i s', trans P ((i, bn) :: hs) s' -> (forall b, fview s' b = fview s b) -> same_rest s s' -> wp E (k i (fview s bn)) Q s') ->
  wp E (bp <- bread disksize pid 1 bn ;; d <- data_of bp ;; k bp d) Q s.
Proof.
  intros Ht Hn Hlt Hroom HQ. apply wp_bind, (wp_bread _ _ _ _ _ Ht Hn Hlt Hroom). intros i s' Ht' Hv Hr.
  apply wp_bind, (wp_data_of _ _ i bn _ _ Ht'); [by left|]. rewrite Hv. by apply HQ.
Qed.

(** [bp->data] changed and [log_write(bp)]. *)
Lemma wp_store {A} P hs i bn d (k : F A) (Q : A -> fsys -> Prop) s :
  trans P ((i, bn) :: hs) s -> is_block d -> loggable s bn -> Z.of_nat (length P) < log_size (flog s) - 1 ->
  (forall s', trans (pin P bn) ((i, bn) :: hs) s' -> (forall b, fview s' b = if decide (b = bn) then d else fview s b) -> same_rest s s' -> wp E k Q s') ->
  wp E (put_data i d ;;; log_write i ;;; k) Q s.
Proof.
  intros Ht Hd Hl Hroom HQ. unfold wp. rewrite <- (kbind_assoc (put_data i d) (fun _ => log_write i) (fun _ => k)).
  change (wp E ((put_data i d ;;; log_write i) ;;; k) Q s). apply wp_bind. by apply (wp_put_log P hs i bn d).
Qed.

(** A block read, changed, logged and given back. *)
Lemma wp_update P hs bn (g : block -> block) (Q : unit -> fsys -> Prop) s :
  trans P hs s -> bn ∉ map snd hs -> loggable s bn -> is_block (g (fview s bn)) ->
  Z.of_nat (length P) < log_size (flog s) - 1 -> (length hs <= 1)%nat ->
  (forall s', trans (pin P bn) hs s' -> (forall b, fview s' b = if decide (b = bn) then g (fview s bn) else fview s b) -> same_rest s s' -> Q tt s') ->
  wp E (bp <- bread disksize pid 1 bn ;; d <- data_of bp ;; put_data bp (g d) ;;; log_write bp ;;; brelse pid bp) Q s.
Proof.
  intros Ht Hn Hl Hg Hroom Hhs HQ. pose proof (trans_log_size _ _ _ Ht) as Hsz. apply (wp_load _ _ _ _ _ _ Ht Hn); [apply Hl| |].
  { unfold LOGSIZE, MAXOPBLOCKS, NBUF in *. lia. }
  intros i s1 Ht1 Hv1 Hr1. apply (wp_store _ _ _ _ _ _ _ _ Ht1 Hg); [by apply (loggable_rest s)|by destruct Hr1 as [_ _ _ _ ->]|].
  intros s2 Ht2 Hv2 Hr2. apply (wp_brelse _ _ _ _ _ _ Ht2). intros s3 Ht3 Hv3 Hr3. apply HQ; [done| |by do 2 etransitivity].
  intros b. by rewrite Hv3, Hv2, Hv1.
Qed.
End blocks.
