(* ===== verification/FsAlloc.v ===== *)
(** * The block allocator

    The bits of the bitmap, the layout of the disk and what balloc promises:
    a zeroed block that was free, with nothing else changed, or a panic when
    every block is in use. *)

From S2P Require Import Prelude Mem Block Bio Log LogFacts Fs FsBlocks.
#[local] Open Scope Z_scope.
#[local] Open Scope kernel_scope.

(** ** Bits *)

Lemma land_bit a k : 0 <= k -> (Z.land a (Z.shiftl 1 k) =? 0) = negb (Z.testbit a k).
Proof.
  intros Hk. rewrite Z.shiftl_1_l. destruct (Z.testbit a k) eqn:E; cbn.
  - apply Z.eqb_neq. intros H. assert (Z.testbit (Z.land a (2 ^ k)) k = true) as Ht; [|by rewrite H, Z.bits_0 in Ht].
    by rewrite Z.land_spec, E, Z.pow2_bits_true.
  - apply Z.eqb_eq, Z.bits_inj'. intros j _. rewrite Z.land_spec, Z.bits_0, Z.pow2_bits_eqb by done.
    destruct (Z.eqb_spec k j) as [->|]; [by rewrite E|apply andb_false_r].
Qed.

Lemma testbit_u8 a k : 0 <= k < 8 -> Z.testbit (u8 a) k = Z.testbit a k.
Proof. intros H. unfold u8. apply Z.mod_pow2_bits_low. lia. Qed.

Lemma bit_set_testbit d bi : bit_set d bi = Z.testbit (get8 d (bi / 8)) (bi mod 8).
Proof. unfold bit_set. rewrite land_bit by (apply Z.mod_pos_bound; lia). apply negb_involutive. Qed.

Lemma bit_place bi : 0 <= bi < BPB -> 0 <= bi / 8 < BSIZE /\ 0 <= bi mod 8 < 8.
Proof. unfold BPB, BSIZE. intros H. Z.to_euclidean_division_equations. lia. Qed.

(** A byte of the map replaced by one that differs in the bit [bi]. *)
Lemma bit_set_put d bi bj v b :
  is_block d -> 0 <= bi < BPB -> 0 <= bj < BPB ->
  (forall k, 0 <= k < 8 -> Z.testbit v k = if k =? bi mod 8 then b else Z.testbit (get8 d (bi / 8)) k) ->
  bit_set (put8 d (bi / 8) v) bj = if bj =? bi then b else bit_set d bj.
Proof.
  intros Hd Hi Hj Hv. destruct (bit_place _ Hi), (bit_place _ Hj). rewrite !bit_set_testbit.
  destruct (decide (bj / 8 = bi / 8)) as [E|Hne].
  - rewrite E, get8_put8, testbit_u8, Hv by done. replace (bj =? bi) with (bj mod 8 =? bi mod 8); [done|].
    apply eq_iff_eq_true. rewrite !Z.eqb_eq. pose proof (Z.div_mod bj 8). pose proof (Z.div_mod bi 8). split; [lia|congruence].
  - rewrite get8_put8_ne by (lia || done). destruct (Z.eqb_spec bj bi); [congruence|done].
Qed.

Lemma testbit_mask i k : 0 <= i -> Z.testbit (Z.shiftl 1 i) k = (k =? i).
Proof. intros Hi. rewrite Z.shiftl_1_l, Z.pow2_bits_eqb by done. apply Z.eqb_sym. Qed.

Lemma bit_set_mark d bi bj :
  is_block d -> 0 <= bi < BPB -> 0 <= bj < BPB -> bit_set (mark d bi) bj = (bj =? bi) || bit_set d bj.
Proof.
  intros Hd Hi Hj. unfold mark. rewrite (bit_set_put _ _ _ _ true); [by destruct (bj =? bi)|done..|].
  intros k Hk. rewrite Z.lor_spec, testbit_mask by apply bit_place, Hi. destruct (k =? bi mod 8); [apply orb_true_r|apply orb_false_r].
Qed.

Lemma bit_set_unmark d bi bj :
  is_block d -> 0 <= bi < BPB -> 0 <= bj < BPB -> bit_set (unmark d bi) bj = negb (bj =? bi) && bit_set d bj.
Proof.
  intros Hd Hi Hj. unfold unmark. rewrite (bit_set_put _ _ _ _ false); [by destruct (bj =? bi)|done..|].
  intros k Hk. rewrite Z.land_spec, Z.lnot_spec, testbit_mask by (apply Hk || apply bit_place, Hi).
  destruct (k =? bi mod 8); [apply andb_false_r|apply andb_true_r].
Qed.

Lemma mark_ok d bi : is_block d -> is_block (mark d bi).
Proof. apply put8_ok. Qed.
Lemma unmark_ok d bi : is_block d -> is_block (unmark d bi).
Proof. apply put8_ok. Qed.
#[export] Hint Resolve mark_ok unmark_ok : block.

Lemma free_bit_some d todo bi r :
  free_bit d bi todo = Some r -> bi <= r < bi + Z.of_nat todo /\ bit_set d r = false.
Proof.
  revert bi. induction todo as [|todo IH]; intros bi; [done|]. cbn [free_bit]. destruct (bit_set d bi) eqn:E; cbn.
  - intros H. apply IH in H as [H1 H2]. split; [lia|done].
  - intros [= <-]. split; [lia|done].
Qed.

Lemma free_bit_none d todo bi j : free_bit d bi todo = None -> bi <= j < bi + Z.of_nat todo -> bit_set d j = true.
Proof.
  revert bi. induction todo as [|todo IH]; intros bi; [lia|]. cbn [free_bit]. destruct (bit_set d bi) eqn:E; cbn; [|done].
  intros H Hj. destruct (decide (j = bi)) as [->|]; [done|]. apply (IH (bi + 1) H). lia.
Qed.

(** ** Layout of the disk *)

(** The block [c] is marked in use. *)
Definition marked (s : fsys) (c : Z) : Prop := bit_set (fview s (BBLOCK c (sb s))) (c mod BPB) = true.
#[export] Instance marked_dec s c : Decision (marked s c) := decide (_ = _).

(** The first data block: as mkfs lays the disk out, the bitmap is last of
    the metadata. *)
Definition data_lo (x : superblock) : Z := sb_bmapstart x + sb_size x / BPB + 1.
Definition is_bitmap (x : superblock) (b : Z) : Prop := sb_bmapstart x <= b < data_lo x.

Record layout_ok (disksize : Z) (s : fsys) : Prop := {
  lo_size : 0 <= sb_size (sb s) <= disksize;
  lo_disk : disksize <= 2 ^ 31;
  lo_log : 2 <= log_start (flog s) /\ log_start (flog s) + log_size (flog s) <= sb_inodestart (sb s);
  lo_log_pos : 0 <= log_size (flog s);
  lo_inodes : sb_inodestart (sb s) + sb_ninodes (sb s) / IPB + 1 <= sb_bmapstart (sb s);
  lo_ninodes : 0 <= sb_ninodes (sb s);
  lo_data : data_lo (sb s) < sb_size (sb s);
  lo_meta : forall c, 0 <= c < data_lo (sb s) -> marked s c }.

Lemma bblock_of x c : 0 <= sb_bmapstart x -> data_lo x < 2 ^ 32 -> 0 <= c < sb_size x ->
  BBLOCK c x = c / BPB + sb_bmapstart x /\ is_bitmap x (BBLOCK c x).
Proof.
  unfold BBLOCK, is_bitmap, data_lo. intros H1 H2 H3.
  assert (0 <= c / BPB <= sb_size x / BPB) by (split; [apply Z.div_pos|apply Z.div_le_mono]; unfold BPB, BSIZE in *; lia).
  rewrite u32_small; unfold is_u32; lia.
Qed.

Section alloc.
Context (disksize pid : Z).



Lemma layout_bblock s c : layout_ok disksize s -> 0 <= c < sb_size (sb s) ->
  BBLOCK c (sb s) = c / BPB + sb_bmapstart (sb s) /\ is_bitmap (sb s) (BBLOCK c (sb s)).
Proof.
  intros [] Hc. apply bblock_of; [|lia|done]. assert (0 <= sb_ninodes (sb s) / IPB); [|lia]. apply Z.div_pos; [done|done].
Qed.

Lemma layout_loggable s c : layout_ok disksize s -> sb_inodestart (sb s) <= c < sb_size (sb s) -> loggable disksize s c.
Proof. intros [] Hc. split; [lia|]. unfold log_area. lia. Qed.

Lemma bitmap_loggable s b : layout_ok disksize s -> is_bitmap (sb s) b -> loggable disksize s b.
Proof.
  intros Hl Hb. apply layout_loggable; [done|]. destruct Hl. unfold is_bitmap in Hb.
  assert (0 <= sb_ninodes (sb s) / IPB) by (by apply Z.div_pos). lia.
Qed.

Lemma layout_pos s : layout_ok disksize s -> 2 <= sb_inodestart (sb s) /\ sb_inodestart (sb s) < sb_bmapstart (sb s) < data_lo (sb s).
Proof.
  intros []. assert (0 <= sb_ninodes (sb s) / IPB) by (by apply Z.div_pos).
  assert (0 <= sb_size (sb s) / BPB) by (apply Z.div_pos; [lia|done]). unfold data_lo. lia.
Qed.

(** ** balloc *)

(** From [s] to [s'] the block [b], free before, was taken. *)
Record taken (s s' : fsys) (b : Z) : Prop := {
  tk_range : data_lo (sb s) <= b < sb_size (sb s);
  tk_free : ~ marked s b;
  tk_mark : forall c, 0 <= c < sb_size (sb s) -> (marked s' c <-> c = b \/ marked s c);
  tk_zero : fview s' b = zero_block;
  tk_view : forall c, ~ is_bitmap (sb s) c -> c <> b -> fview s' c = fview s c;
  tk_rest : same_rest s s' }.

Lemma layout_step s s' :
  same_rest s s' -> (forall c, 0 <= c < sb_size (sb s) -> marked s c -> marked s' c) -> layout_ok disksize s -> layout_ok disksize s'.
Proof.
  intros [_ _ R1 R2 R3] Hm []. split; rewrite ?R1, ?R2, ?R3; try done. intros c Hc. apply Hm; [lia|]. by apply lo_meta0.
Qed.

(** A change of the bitmap block of [b]. *)
Lemma marked_change s s' b d' c :
  layout_ok disksize s -> sb s' = sb s -> 0 <= b < sb_size (sb s) -> 0 <= c < sb_size (sb s) ->
  (forall x, fview s' x = if decide (x = BBLOCK b (sb s)) then d' else fview s x) ->
  (forall j, 0 <= j < BPB -> j <> b mod BPB -> bit_set d' j = bit_set (fview s (BBLOCK b (sb s))) j) ->
  c <> b -> (marked s' c <-> marked s c).
Proof.
  intros Hl Hsb Hb Hc Hv Hd Hne. unfold marked. rewrite Hsb, Hv. case_decide as E; [|done].
  assert (0 <= c mod BPB < BPB) by (by apply Z.mod_pos_bound).
  rewrite Hd; [by rewrite E|done|]. intros E'. destruct (layout_bblock s b Hl Hb) as [Eb _], (layout_bblock s c Hl Hc) as [Ec _].
  apply Hne. rewrite (Z.div_mod c BPB), (Z.div_mod b BPB) by done. rewrite E'. f_equal. f_equal. lia.
Qed.

Lemma steps_elem lo hi by_ x : 0 < by_ -> x ∈ steps lo hi by_ <-> exists k, x = lo + by_ * k /\ 0 <= k /\ x < hi.
Proof.
  intros Hp. unfold steps. rewrite list_elem_of_fmap. split.
  - intros (n & -> & Hn%elem_of_seq). exists (Z.of_nat n). split; [done|]. split; [lia|].
    assert (Z.of_nat n < (hi - lo + by_ - 1) / by_) by lia.
    assert (by_ * (Z.of_nat n + 1) <= by_ * ((hi - lo + by_ - 1) / by_)) by (apply Z.mul_le_mono_nonneg_l; lia).
    pose proof (Z.mul_div_le (hi - lo + by_ - 1) by_ Hp). lia.
  - intros (k & -> & Hk & Hlt). exists (Z.to_nat k). split; [by rewrite Z2Nat.id|]. apply elem_of_seq. split; [lia|].
    cbn. apply Z2Nat.inj_lt; [done|apply Z.div_pos; nia|]. assert (k + 1 <= (hi - lo + by_ - 1) / by_); [|lia].
    apply Z.div_le_lower_bound; [done|]. nia.
Qed.

Lemma wp_bzero E P hs bn (Q : unit -> fsys -> Prop) s :
  trans disksize pid P hs s -> bn ∉ map snd hs -> loggable disksize s bn ->
  Z.of_nat (length P) < log_size (flog s) - 1 -> (length hs <= 1)%nat ->
  (forall s', trans disksize pid (pin P bn) hs s' -> (forall b, fview s' b = if decide (b = bn) then zero_block else fview s b) -> same_rest s s' -> Q tt s') ->
  wp E (bzero disksize pid 1 bn) Q s.
Proof.
  intros Ht Hn Hl Hroom Hhs HQ. pose proof (trans_view_block _ _ _ _ _ bn Ht) as Hb. unfold bzero.
  apply (wp_update _ _ _ P hs bn clear_block); try done; rewrite clear_block_eq by done; [apply zero_block_ok|done].
Qed.

(** A panic of balloc for lack of free blocks. *)
Definition disk_full (s : fsys) (e : string) : Prop :=
  out_of_blocks e /\ forall c, 0 <= c < sb_size (sb s) -> marked s c.

(** One bitmap block of the search, where the free bit [bi] was found. *)
Lemma balloc_take E P hs b bi s i (Q : option Z -> fsys -> Prop) :
  layout_ok disksize s -> (forall x, x ∈ map snd hs -> data_lo (sb s) <= x < sb_size (sb s) /\ marked s x) -> (length hs <= 1)%nat ->
  b mod BPB = 0 -> 0 <= bi < BPB -> 0 <= b + bi < sb_size (sb s) -> bit_set (fview s (BBLOCK b (sb s))) bi = false ->
  trans disksize pid P ((i, BBLOCK b (sb s)) :: hs) s -> Z.of_nat (length P) + 2 < log_size (flog s) ->
  (forall P' s', trans disksize pid P' hs s' -> (length P' <= length P + 2)%nat -> taken s s' (b + bi) -> Q (Some (b + bi)) s') ->
  wp E (put_data i (mark (fview s (BBLOCK b (sb s))) bi) ;;; log_write i ;;; brelse pid i ;;; bzero disksize pid 1 (b + bi) ;;; kret (Some (b + bi))) Q s.
Proof.
  intros Hl Hhs Hlen Hb Hbi Hlt Hfree Ht Hroom HQ. set (bm := BBLOCK b (sb s)) in *.
  assert (Hmod : (b + bi) mod BPB = bi).
  { rewrite (Z.div_mod b BPB), Hb, Z.add_0_r, (Z.mul_comm BPB), Z.add_comm, Z_mod_plus_full by done. by apply Z.mod_small. }
  assert (Hbm : BBLOCK (b + bi) (sb s) = bm).
  { unfold bm, BBLOCK. do 2 f_equal. rewrite (Z.div_mod b BPB), Hb, Z.add_0_r, (Z.mul_comm BPB), Z.div_add_l, Z.div_mul, (Z.div_small bi) by done. lia. }
  assert (Hnm : ~ marked s (b + bi)) by (unfold marked; rewrite Hbm, Hmod, Hfree; done).
  destruct (layout_bblock s (b + bi) Hl Hlt) as [_ Hisb]. rewrite Hbm in Hisb.
  assert (Hdata : data_lo (sb s) <= b + bi) by (apply Z.nlt_ge; intros Hc; apply Hnm, (lo_meta _ _ Hl); lia).
  assert (Hne : b + bi <> bm) by (unfold is_bitmap in Hisb; lia).
  pose proof (trans_view_block _ _ _ _ _ bm Ht) as Hblk. pose proof (pin_length P bm) as [Hp1 Hp2]. pose proof (layout_pos _ Hl) as Hpos.
  apply (wp_store _ _ _ _ _ _ _ _ _ _ _ Ht); [by apply mark_ok|by apply bitmap_loggable|lia|]. intros s1 Ht1 Hv1 Hr1.
  apply wp_bind, (wp_brelse _ _ _ _ _ _ _ _ _ Ht1). intros s2 Ht2 Hv2 Hr2. pose proof (transitivity Hr1 Hr2) as Hr12.
  apply wp_bind. pose proof (pin_length (pin P bm) (b + bi)) as [Hp3 Hp4]. pose proof Hr12 as [_ _ Hsb _ Hsz].
  apply (wp_bzero _ (pin P bm) hs); [done| | | rewrite Hsz; lia |done|].
  { intros Hin. by apply Hhs in Hin as [_ Hin]. }
  { apply (loggable_rest _ s); [done|]. apply layout_loggable; [done|]. lia. }
  intros s3 Ht3 Hv3 Hr3. pose proof (transitivity Hr12 Hr3) as Hr.
  apply wp_ret, (HQ _ _ Ht3); [lia|]. assert (Hv : forall x, fview s3 x = if decide (x = b + bi) then zero_block else if decide (x = bm) then mark (fview s bm) bi else fview s x).
  { intros x. by rewrite Hv3, Hv2, Hv1. }
  split; [lia|done| | | |done].
  - intros c Hc. pose proof Hr as [_ _ Esb _ _]. destruct (layout_bblock s c Hl Hc) as [_ Hcb].
    unfold marked. rewrite Esb, Hv, decide_False by (unfold is_bitmap in Hcb; lia).
    destruct (decide (c = b + bi)) as [->|Hcne].
    { rewrite Hbm, Hmod, decide_True, bit_set_mark, Z.eqb_refl by done. split; [by left|done]. }
    transitivity (marked s c); [|split; [by right|by intros [|]]]. case_decide as Ec; [|done]. unfold marked. rewrite Ec.
    assert (0 <= c mod BPB < BPB) by (by apply Z.mod_pos_bound). rewrite bit_set_mark by done. destruct (Z.eqb_spec (c mod BPB) bi) as [Eb|]; [|done].
    exfalso. apply Hcne. destruct (layout_bblock s c Hl Hc) as [E1 _], (layout_bblock s (b + bi) Hl Hlt) as [E2 _].
    rewrite (Z.div_mod c BPB), (Z.div_mod (b + bi) BPB), Hmod, Eb by done. f_equal. f_equal. lia.
  - by rewrite Hv, decide_True.
  - intros c Hc Hcne. rewrite Hv, !decide_False; [done| |done]. by intros ->.
Qed.

Lemma balloc_wp P hs s (Q : Z -> fsys -> Prop) :
  trans disksize pid P hs s -> layout_ok disksize s -> (forall x, x ∈ map snd hs -> data_lo (sb s) <= x < sb_size (sb s) /\ marked s x) ->
  (length hs <= 1)%nat -> Z.of_nat (length P) + 2 < log_size (flog s) ->
  (forall P' b s', trans disksize pid P' hs s' -> (length P' <= length P + 2)%nat -> taken s s' b -> Q b s') ->
  wp (disk_full s) (balloc disksize pid 1) Q s.
Proof.
  intros Ht Hl Hhs Hlen Hroom HQ. unfold balloc. apply wp_bind, wp_gets, wp_bind.
  apply (wp_first_of _ _ _ (fun pre s' => trans disksize pid P hs s' /\ (forall b, fview s' b = fview s b) /\ same_rest s s'
    /\ forall c, 0 <= c < sb_size (sb s) -> c - c mod BPB ∈ pre -> marked s c)).
  - split; [done|]. split; [done|]. split; [done|]. intros c _ []%not_elem_of_nil.
  - intros pre b rest s1 Hsplit (Ht1 & Hv1 & Hr1 & Hall). pose proof Hr1 as [_ _ Esb Est Esz].
    assert (Hb : b ∈ steps 0 (sb_size (sb s)) BPB) by (rewrite Hsplit; set_solver).
    apply steps_elem in Hb as (k & -> & Hk & Hlt); [|done]. rewrite Z.add_0_l in *. set (b := BPB * k) in *.
    assert (Hbm : b mod BPB = 0) by (unfold b; rewrite Z.mul_comm; by apply Z.mod_mul).
    assert (Hm1 : forall c, marked s1 c <-> marked s c) by (intros c; unfold marked; by rewrite Esb, Hv1).
    assert (Hl1 : layout_ok disksize s1) by (apply (layout_step s); [done| |done]; intros c _; apply Hm1).
    assert (Hbr : 0 <= b < sb_size (sb s)) by (unfold b in *; split; [by apply Z.mul_nonneg_nonneg|done]).
    apply wp_bind, wp_gets. rewrite Esb. destruct (layout_bblock s b Hl Hbr) as [_ Hisb]. pose proof (trans_log_size _ _ _ _ _ Ht) as Hsz.
    apply (wp_load _ _ _ _ _ _ _ _ _ Ht1).
    { intros Hin. destruct (Hhs _ Hin) as [Hx _]. unfold is_bitmap in Hisb. lia. }
    { apply bitmap_loggable in Hisb; [|done]. apply Hisb. }
    { unfold LOGSIZE, MAXOPBLOCKS, NBUF in *. lia. }
    intros i s2 Ht2 Hv2 Hr2. pose proof Hr2 as [_ _ Esb2 _ Esz2]. rewrite Hv1. destruct (free_bit _ _ _) as [bi|] eqn:Ef.
    + apply free_bit_some in Ef as [Hbi Hclear].
      assert (Hm2 : forall c, marked s2 c <-> marked s c) by (intros c; unfold marked; by rewrite Esb2, Esb, Hv2, Hv1).
      assert (Hl2 : layout_ok disksize s2) by (apply (layout_step s1); [done| |done]; intros c _; by rewrite Hm2, Hm1).
      assert (Hsb2 : sb s2 = sb s) by congruence. rewrite <- Hsb2 in *. rewrite <- Hv1, <- Hv2 in *.
      apply (balloc_take _ P hs); try done.
      * intros x Hx. rewrite Hm2. by apply Hhs.
      * lia.
      * lia.
      * rewrite Esz2, Esz. lia.
      * intros P' s' Ht' Hp' [T1 T2 T3 T4 T5 T6]. apply wp_ret, (HQ P'); [done|done|].
        split; [by rewrite <- Hsb2|by rewrite <- Hm2|intros c Hc; rewrite T3 by (by rewrite Hsb2); by rewrite Hm2|done| |by do 2 (etransitivity; [done|])].
        intros c Hc Hne. rewrite T5; [by rewrite Hv2, Hv1|by rewrite Hsb2|done].
    + apply wp_bind, (wp_brelse _ _ _ _ _ _ _ _ _ Ht2). intros s3 Ht3 Hv3 Hr3. apply wp_ret. split; [done|].
      split; [intros x; by rewrite Hv3, Hv2, Hv1|]. split; [by do 2 (etransitivity; [done|])|].
      intros c Hc [Hin|Hin%list_elem_of_singleton]%elem_of_app; [by apply Hall|].
      destruct (layout_bblock s c Hl Hc) as [Ec _], (layout_bblock s b Hl Hbr) as [Eb _].
      assert (Hcm : 0 <= c mod BPB < BPB) by (by apply Z.mod_pos_bound). unfold marked.
      replace (BBLOCK c (sb s)) with (BBLOCK b (sb s)).
      { apply (free_bit_none _ _ _ _ Ef). lia. }
      rewrite Ec, Eb. f_equal. rewrite <- Hin. rewrite (Z.div_mod c BPB) at 1 by done.
      replace (BPB * (c / BPB) + c mod BPB - c mod BPB) with (c / BPB * BPB) by lia. by rewrite Z.div_mul.
  - intros s1 (Ht1 & Hv1 & Hr1 & Hall). apply wp_panic. split; [done|]. intros c Hc. apply Hall; [done|].
    apply steps_elem; [done|]. exists (c / BPB). rewrite (Z.div_mod c BPB) at 1 by done.
    assert (0 <= c / BPB) by (apply Z.div_pos; [lia|done]). pose proof (Z.mod_pos_bound c BPB). pose proof (Z.mul_div_le c BPB). unfold BPB, BSIZE in *. lia.
Qed.
End alloc.
