(* ===== verification/FsFiles.v ===== *)
(** * The contents of files

    What an inode's blocks hold: the map from a file's blocks to disk blocks,
    the invariant of a file (its blocks are distinct, in use, and none is
    missing below the size), and what bmap, readi and writei do to it. *)

From S2P Require Import Prelude Mem Block Bio Log LogFacts Fs FsBlocks FsAlloc.
#[local] Open Scope Z_scope.
#[local] Open Scope kernel_scope.

(** The disk block of block [k] of a file, 0 for none. *)
Definition ind (x : inode) : Z := i_addrs x !!! 12%nat.
Definition addr_of (v : Z -> block) (x : inode) (k : Z) : Z :=
  if k <? NDIRECT then i_addrs x !!! Z.to_nat k
  else if ind x =? 0 then 0 else get32 (v (ind x)) (4 * (k - NDIRECT)).

(** The byte at offset [o]; a missing block reads as zeros. *)
Definition content (v : Z -> block) (x : inode) (o : Z) : Z :=
  let a := addr_of v x (o / BSIZE) in if a =? 0 then 0 else get8 (v a) (o mod BSIZE).

(** The block [c] is part of the file. *)
Definition owns (v : Z -> block) (x : inode) (c : Z) : Prop :=
  c <> 0 /\ (c = ind x \/ exists k, 0 <= k < MAXFILE /\ addr_of v x k = c).

Record file_ok (s : fsys) (x : inode) : Prop := {
  fo_dev : i_dev x = 1;
  fo_len : length (i_addrs x) = 13%nat;
  fo_size : 0 <= i_size x <= MAXFILE * BSIZE;
  fo_blocks : forall c, owns (fview s) x c -> data_lo (sb s) <= c < sb_size (sb s) /\ marked s c;
  fo_inj : forall k k', 0 <= k < MAXFILE -> 0 <= k' < MAXFILE ->
    addr_of (fview s) x k = addr_of (fview s) x k' -> addr_of (fview s) x k <> 0 -> k = k';
  fo_ind : forall k, 0 <= k < MAXFILE -> ind x <> 0 -> addr_of (fview s) x k <> ind x;
  fo_full : forall k, 0 <= k -> k * BSIZE < i_size x -> addr_of (fview s) x k <> 0 }.

Lemma owns_addr v x k : 0 <= k < MAXFILE -> addr_of v x k <> 0 -> owns v x (addr_of v x k).
Proof. intros Hk Hne. split; [done|]. right. by exists k. Qed.
Lemma owns_ind v x : ind x <> 0 -> owns v x (ind x).
Proof. intros Hne. split; [done|]. by left. Qed.

(** The blocks of a file hold neither metadata nor other files' data. *)
Lemma addr_of_ext v v' x k : (ind x <> 0 -> v' (ind x) = v (ind x)) -> addr_of v' x k = addr_of v x k.
Proof. intros H. unfold addr_of. destruct (k <? NDIRECT); [done|]. destruct (Z.eqb_spec (ind x) 0); [done|]. by rewrite H. Qed.

Lemma off_block o : 0 <= o < MAXFILE * BSIZE -> 0 <= o / BSIZE < MAXFILE.
Proof. intros []. split; [by apply Z.div_pos|apply Z.div_lt_upper_bound; [done|lia]]. Qed.

Lemma content_ext v v' x :
  (forall c, owns v x c -> v' c = v c) -> forall o, 0 <= o < MAXFILE * BSIZE -> content v' x o = content v x o.
Proof.
  intros H o Ho. unfold content. rewrite (addr_of_ext v v') by (intros Hi; by apply H, owns_ind).
  destruct (Z.eqb_spec (addr_of v x (o / BSIZE)) 0); [done|]. rewrite H; [done|]. apply owns_addr; [by apply off_block|done].
Qed.

Lemma owns_ext v v' x c : (ind x <> 0 -> v' (ind x) = v (ind x)) -> owns v' x c <-> owns v x c.
Proof.
  intros H. unfold owns. pose proof (fun k => addr_of_ext v v' x k H) as Ha.
  split; intros [Hc [Hi|(k & Hk & E)]]; (split; [done|]); [by left|right|by left|right]; exists k; by rewrite Ha in *.
Qed.

(** A file untouched by a change of other blocks. *)
Lemma file_ok_ext s s' x :
  sb s' = sb s -> (forall c, 0 <= c < sb_size (sb s) -> marked s c -> marked s' c) ->
  (ind x <> 0 -> fview s' (ind x) = fview s (ind x)) -> 0 <= data_lo (sb s) -> file_ok s x -> file_ok s' x.
Proof.
  intros Hsb Hm Hv Hlo [F1 F2 F3 F4 F5 F6 F7]. split; try done; rewrite ?Hsb.
  - intros c Hc. apply (owns_ext (fview s)) in Hc; [|done]. apply F4 in Hc as [H1 H2]. split; [done|]. apply Hm; [lia|done].
  - intros k k'. rewrite !(addr_of_ext (fview s) (fview s')) by done. apply F5.
  - intros k. rewrite (addr_of_ext (fview s) (fview s')) by done. apply F6.
  - intros k. rewrite (addr_of_ext (fview s) (fview s')) by done. apply F7.
Qed.

Lemma get8_zero o : get8 zero_block o = 0.
Proof. unfold get8, zero_block. destruct (_ !! _) as [z|] eqn:Ez; [|done]. by apply lookup_replicate in Ez as [-> _]. Qed.
Lemma get32_zero o : get32 zero_block o = 0.
Proof. unfold get32. by rewrite !get8_zero. Qed.

(** ** A block added to a file *)

Section added.
Context (s s' : fsys) (x x' : inode) (b : Z) (which : option Z).
Hypothesis (Hf : file_ok s x) (Hlo : 0 < data_lo (sb s)) (Hsb : sb s' = sb s)
  (Hb : data_lo (sb s) <= b < sb_size (sb s)) (Hfree : ~ marked s b)
  (Hm : forall c, 0 <= c < sb_size (sb s) -> marked s c -> marked s' c) (Hmb : marked s' b)
  (Hdev : i_dev x' = i_dev x) (Hsize : i_size x' = i_size x) (Hlen : length (i_addrs x') = 13%nat).
(** [Some k]: [b] becomes block [k] of the file; [None]: its indirect block. *)
Hypothesis (Haddr : forall k, 0 <= k < MAXFILE ->
    addr_of (fview s') x' k = if decide (which = Some k) then b else addr_of (fview s) x k)
  (Hnew : forall k, which = Some k -> 0 <= k < MAXFILE /\ addr_of (fview s) x k = 0)
  (Hind : ind x' = if decide (which = None) then b else ind x) (Hindnew : which = None -> ind x = 0)
  (Hv : forall c, owns (fview s) x c -> c <> ind x -> fview s' c = fview s c) (Hzero : fview s' b = zero_block).

Lemma added_owns c : owns (fview s') x' c -> owns (fview s) x c \/ c = b.
Proof.
  intros [Hc [Hi|(k & Hk & E)]].
  - rewrite Hind in Hi. destruct (decide (which = None)); [by right|]. left. split; [done|]. by left.
  - rewrite Haddr in E by done. destruct (decide (which = Some k)); [by right|]. left. split; [done|]. right. by exists k.
Qed.

Lemma added_fresh : ~ owns (fview s) x b.
Proof. intros H. by apply (fo_blocks _ _ Hf) in H as [_ H]. Qed.

Lemma added_ok : file_ok s' x'.
Proof.
  pose proof Hf as [F1 F2 F3 F4 F5 F6 F7]. split; try done; rewrite ?Hdev, ?Hsize, ?Hsb; try done.
  - intros c [Hc| ->]%added_owns; [|done]. apply F4 in Hc as [H1 H2]. split; [done|]. apply Hm; [lia|done].
  - assert (Hne : forall k, 0 <= k < MAXFILE -> addr_of (fview s) x k <> b).
    { intros k Hk E. apply added_fresh. rewrite <- E. apply owns_addr; [done|]. lia. }
    intros k k' Hk Hk'. rewrite !Haddr by done. pose proof (Hne k Hk). pose proof (Hne k' Hk').
    destruct (decide (which = Some k)), (decide (which = Some k')); [congruence|congruence|congruence|by apply F5].
  - intros k Hk Hi. rewrite Haddr by done. revert Hi. rewrite Hind. destruct (decide (which = Some k)), (decide (which = None)); intros Hi E.
    + congruence.
    + apply added_fresh. rewrite E. by apply owns_ind.
    + apply added_fresh. rewrite <- E. apply owns_addr; [done|]. lia.
    + by apply (F6 k).
  - intros k Hk Hlt. rewrite Haddr by (unfold BSIZE in *; lia). destruct (decide (which = Some k)); [lia|by apply F7].
Qed.

Lemma added_keep k : 0 <= k < MAXFILE -> addr_of (fview s) x k <> 0 -> addr_of (fview s') x' k = addr_of (fview s) x k.
Proof. intros Hk Hne. rewrite Haddr by done. destruct (decide (which = Some k)) as [Hw|]; [|done]. by apply Hnew in Hw as [_ Hw]. Qed.

Lemma added_content o : 0 <= o < MAXFILE * BSIZE -> content (fview s') x' o = content (fview s) x o.
Proof.
  intros Ho. pose proof (off_block o Ho) as Hk.
  unfold content. rewrite Haddr by done. destruct (decide (which = Some (o / BSIZE))) as [Hw|].
  - apply Hnew in Hw as [_ ->]. rewrite Hzero, get8_zero. by destruct (b =? 0).
  - destruct (Z.eqb_spec (addr_of (fview s) x (o / BSIZE)) 0); [done|]. rewrite Hv; [done|by apply owns_addr|].
    intros E. apply (fo_ind _ _ Hf (o / BSIZE)); [done| |done]. by rewrite <- E.
Qed.
End added.

(** ** Steps that change one file *)

Record grows (ip : nat) (s s' : fsys) : Prop := {
  gw_slots : forall j, j <> ip -> icache s' j = icache s j;
  gw_inode : icache s' ip = with_addrs (i_addrs (icache s' ip)) (with_size (i_size (icache s' ip)) (icache s ip));
  gw_iclock : ic_locked s' = ic_locked s;
  gw_sb : sb s' = sb s;
  gw_log : log_start (flog s') = log_start (flog s) /\ log_size (flog s') = log_size (flog s);
  gw_mark : forall c, 0 <= c < sb_size (sb s) -> marked s c -> marked s' c;
  gw_owns : forall c, 0 <= c < sb_size (sb s) -> owns (fview s') (icache s' ip) c -> owns (fview s) (icache s ip) c \/ ~ marked s c;
  gw_view : forall c, 0 <= c < sb_size (sb s) -> marked s c -> ~ is_bitmap (sb s) c -> ~ owns (fview s) (icache s ip) c ->
    fview s' c = fview s c }.

Lemma marked_same s s' c : sb s' = sb s -> (forall b, fview s' b = fview s b) -> marked s' c <-> marked s c.
Proof. intros H1 H2. unfold marked. by rewrite H1, H2. Qed.

Lemma file_ok_same s s' x :
  sb s' = sb s -> (forall b, fview s' b = fview s b) -> 0 <= data_lo (sb s) -> file_ok s x -> file_ok s' x.
Proof. intros H1 H2. apply file_ok_ext; [done| |done]. intros c _. by apply marked_same. Qed.

Lemma addr_of_same v v' x k : (forall b, v' b = v b) -> addr_of v' x k = addr_of v x k.
Proof. intros H. by apply addr_of_ext. Qed.

Lemma grows_same ip s s' : same_rest s s' -> (forall b, fview s' b = fview s b) -> grows ip s s'.
Proof.
  intros [R1 R2 R3 R4 R5] Hv. split; rewrite ?R1; try done.
  - by destruct (icache s ip).
  - intros c _. by apply marked_same.
  - intros c _ Hc. left. by apply (owns_ext (fview s)) in Hc.
Qed.

Lemma grows_trans ip s s1 s2 : grows ip s s1 -> grows ip s1 s2 -> grows ip s s2.
Proof.
  intros [A1 A2 A3 A4 [A5 A5'] A6 A7 A8] [B1 B2 B3 B4 [B5 B5'] B6 B7 B8]. rewrite A4 in *. split; try (etransitivity; eauto; fail).
  - intros j Hj. by rewrite B1, A1.
  - rewrite B2, A2 at 1. done.
  - split; congruence.
  - intros c Hc Hm. by apply B6, A6.
  - intros c Hc Ho. destruct (B7 c Hc Ho) as [H|H]; [by apply A7|]. right. intros Hm. by apply H, A6.
  - intros c Hc Hm Hb Ho. rewrite B8; [by apply A8|done|by apply A6|done|]. intros H. destruct (A7 c Hc H); done.
Qed.

Section bmap.
Context (disksize pid : Z).

Lemma owned_lt s x c : layout_ok disksize s -> file_ok s x -> owns (fview s) x c -> c < disksize.
Proof. intros Hl Hf Hc. apply (fo_blocks _ _ Hf) in Hc as [Hc _]. destruct (lo_size _ _ Hl). lia. Qed.

Lemma owned_loggable s x c : layout_ok disksize s -> file_ok s x -> owns (fview s) x c -> loggable disksize s c.
Proof.
  intros Hl Hf Hc. apply (fo_blocks _ _ Hf) in Hc as [Hc _]. apply layout_loggable; [done|].
  pose proof (layout_pos _ _ Hl). lia.
Qed.

Lemma addr_direct v x k : k < NDIRECT -> addr_of v x k = i_addrs x !!! Z.to_nat k.
Proof. intros Hk. unfold addr_of. by rewrite (proj2 (Z.ltb_lt _ _) Hk). Qed.
Lemma addr_indirect v x k : NDIRECT <= k -> ind x <> 0 -> addr_of v x k = get32 (v (ind x)) (4 * (k - NDIRECT)).
Proof. intros Hk Hi. unfold addr_of. rewrite (proj2 (Z.ltb_ge _ _) Hk). by rewrite (proj2 (Z.eqb_neq _ _) Hi). Qed.
Lemma addr_none v x k : NDIRECT <= k -> ind x = 0 -> addr_of v x k = 0.
Proof. intros Hk Hi. unfold addr_of. rewrite (proj2 (Z.ltb_ge _ _) Hk). by rewrite Hi. Qed.

(** A block that is there. *)
Lemma bmap_hit E P ip k (Q : Z -> fsys -> Prop) s :
  trans disksize pid P [] s -> layout_ok disksize s -> file_ok s (icache s ip) -> 0 <= k < MAXFILE ->
  addr_of (fview s) (icache s ip) k <> 0 ->
  (forall s', trans disksize pid P [] s' -> (forall b, fview s' b = fview s b) -> same_rest s s' ->
     Q (addr_of (fview s) (icache s ip) k) s') ->
  wp E (bmap disksize pid ip k) Q s.
Proof.
  intros Ht Hl Hf Hk Hne HQ. pose proof Hf as [Hdev Hlen _ _ _ _ _]. unfold bmap. apply wp_bind, wp_gets. set (x := icache s ip) in *.
  destruct (Z.ltb_spec k NDIRECT) as [Hd|Hd].
  - rewrite addr_direct in * by done. apply wp_bind, wp_bind, wp_gets, wp_ret. fold x.
    rewrite (proj2 (Z.eqb_neq _ _) Hne). by apply wp_ret, HQ.
  - assert (Hi : ind x <> 0) by (intros Hi; by apply Hne, addr_none). rewrite (proj2 (Z.ltb_lt _ _)) by (unfold MAXFILE in Hk; lia).
    apply wp_bind, wp_bind, wp_gets, wp_ret. fold x. change (i_addrs x !!! Z.to_nat NDIRECT) with (ind x).
    rewrite (proj2 (Z.eqb_neq _ _) Hi). apply wp_bind, wp_ret. rewrite Hdev.
    apply (wp_load _ _ _ _ _ _ _ _ _ Ht); [by apply not_elem_of_nil|by apply (owned_lt s x), owns_ind| |].
    { pose proof (trans_room _ _ _ _ _ Ht). cbn. lia. }
    intros i s1 Ht1 Hv1 Hr1. rewrite <- (addr_indirect (fview s)), (proj2 (Z.eqb_neq _ _) Hne) by done. apply wp_bind, wp_ret, wp_bind.
    apply (wp_brelse _ _ _ _ _ _ _ _ _ Ht1). intros s2 Ht2 Hv2 Hr2. apply wp_ret, HQ; [done| |by transitivity s1].
    intros b. by rewrite Hv2.
Qed.

(** The file [ip] grew by blocks that read as zeros; at most [n] more blocks
    are in the log. *)
Record extended (P : list Z) (n : nat) (ip : nat) (s : fsys) (P' : list Z) (s' : fsys) : Prop := {
  ex_trans : trans disksize pid P' [] s';
  ex_log : (length P' <= length P + n)%nat;
  ex_layout : layout_ok disksize s';
  ex_grows : grows ip s s';
  ex_file : file_ok s' (icache s' ip);
  ex_size : i_size (icache s' ip) = i_size (icache s ip);
  ex_keep : forall k, 0 <= k < MAXFILE -> addr_of (fview s) (icache s ip) k <> 0 ->
    addr_of (fview s') (icache s' ip) k = addr_of (fview s) (icache s ip) k;
  ex_content : forall o, 0 <= o < MAXFILE * BSIZE -> content (fview s') (icache s' ip) o = content (fview s) (icache s ip) o }.

Lemma extended_trans P n m ip s P1 s1 P2 s2 :
  extended P n ip s P1 s1 -> extended P1 m ip s1 P2 s2 -> extended P (n + m) ip s P2 s2.
Proof.
  intros [A1 A2 A3 A4 A5 A6 A7 A8] [B1 B2 B3 B4 B5 B6 B7 B8]. split; try done.
  - lia.
  - by apply (grows_trans ip s s1).
  - congruence.
  - intros k Hk Hne. rewrite B7; [by apply A7|done|]. by rewrite A7.
  - intros o Ho. by rewrite B8, A8.
Qed.

Lemma addrs_insert (l : list Z) j k b : length l = 13%nat -> (j < 13)%nat -> (<[j := b]> l) !!! k = if decide (k = j) then b else l !!! k.
Proof.
  intros Hl Hj. case_decide as E.
  - subst k. apply list_lookup_total_insert_eq. lia.
  - apply list_lookup_total_insert_ne. congruence.
Qed.

(** The inode with block address [j] set to the fresh block [b]. *)
Lemma slot_added s s1 ip j b :
  layout_ok disksize s -> file_ok s (icache s ip) -> 0 <= j <= NDIRECT -> i_addrs (icache s ip) !!! Z.to_nat j = 0 -> taken s s1 b ->
  let x' := with_addrs (<[Z.to_nat j := b]> (i_addrs (icache s ip))) (icache s ip) in
  file_ok s1 x' /\ (forall o, 0 <= o < MAXFILE * BSIZE -> content (fview s1) x' o = content (fview s) (icache s ip) o)
  /\ (forall c, owns (fview s1) x' c -> owns (fview s) (icache s ip) c \/ c = b)
  /\ (forall k, 0 <= k < MAXFILE -> addr_of (fview s) (icache s ip) k <> 0 -> addr_of (fview s1) x' k = addr_of (fview s) (icache s ip) k).
Proof.
  intros Hl Hf Hj Hz [T1 T2 T3 T4 T5 [_ _ T6 _ _]] x'. set (x := icache s ip) in *. pose proof Hf as [F1 F2 F3 F4 F5 F6 F7].
  pose proof (layout_pos _ _ Hl) as Hpos. unfold NDIRECT in Hj.
  set (which := if decide (j = 12) then None else Some j).
  assert (Hins : forall k, i_addrs x' !!! k = if decide (k = Z.to_nat j) then b else i_addrs x !!! k) by (intros k; apply addrs_insert; [done|lia]).
  assert (Hv : forall c, owns (fview s) x c -> fview s1 c = fview s c).
  { intros c Hc. apply F4 in Hc as [Hc1 Hc2]. apply T5; [unfold is_bitmap; lia|by intros ->]. }
  assert (Hind : ind x' = if decide (which = None) then b else ind x).
  { unfold ind. rewrite Hins. unfold which. destruct (decide (j = 12)) as [->|]; [done|]. rewrite decide_False by lia. by rewrite decide_False. }
  assert (Hin0 : which = None -> ind x = 0).
  { unfold which, ind. destruct (decide (j = 12)) as [->|]; [|done]. intros _. apply Hz. }
  assert (Haddr : forall k, 0 <= k < MAXFILE -> addr_of (fview s1) x' k = if decide (which = Some k) then b else addr_of (fview s) x k).
  { intros k Hk. destruct (Z.ltb_spec k NDIRECT) as [Hd|Hd]; unfold NDIRECT in Hd.
    - rewrite !addr_direct, Hins by done. unfold which. destruct (decide (k = j)) as [->|].
      + rewrite decide_True by done. destruct (decide (j = 12)); [lia|]. by rewrite decide_True.
      + rewrite decide_False by lia. destruct (decide (j = 12)); [done|]. rewrite decide_False; [done|]. congruence.
    - assert (Hw : which <> Some k) by (unfold which; destruct (decide (j = 12)); [done|intros [= ->]; lia]). rewrite (decide_False (P := which = Some k)) by exact Hw.
      destruct (decide (which = None)) as [Hn|Hn].
      + rewrite (addr_none (fview s) x) by auto. rewrite addr_indirect by (try done; rewrite Hind; lia). rewrite Hind, T4. apply get32_zero.
      + destruct (decide (ind x = 0)) as [E|E]; [rewrite !addr_none by (try done; by rewrite Hind); done|].
        rewrite !addr_indirect by (try done; by rewrite Hind). rewrite Hind, Hv; [done|]. by apply owns_ind. }
  assert (Hnew : forall k, which = Some k -> 0 <= k < MAXFILE /\ addr_of (fview s) x k = 0).
  { unfold which. intros k. destruct (decide (j = 12)); [done|]. intros [= <-]. split; [change MAXFILE with 140; lia|].
    rewrite addr_direct; [done|]. unfold NDIRECT. lia. }
  assert (Hmk : forall c, 0 <= c < sb_size (sb s) -> marked s c -> marked s1 c) by (intros c Hc Hm; apply T3; [done|by right]).
  assert (Hmb : marked s1 b) by (apply T3; [lia|by left]).
  assert (Hx : length (i_addrs x') = 13%nat) by (cbn; by rewrite length_insert).
  split; [|split; [|split]].
  - apply (added_ok s s1 x x' b which); try done; try lia.
  - apply (added_content s s1 x x' b which); try done. intros c Hc _. by apply Hv.
  - apply (added_owns s s1 x x' b which); done.
  - by apply (added_keep s s1 x x' b which).
Qed.

Lemma full_panics s e : disk_full s e -> out_of_blocks e.
Proof. by intros []. Qed.

(** The inode table changed in the slot [ip], the disk by taking [b]. *)
Lemma slot_extended P P' ip s s1 j b :
  trans disksize pid P' [] s1 -> (length P' <= length P + 2)%nat -> layout_ok disksize s -> file_ok s (icache s ip) ->
  0 <= j <= NDIRECT -> i_addrs (icache s ip) !!! Z.to_nat j = 0 -> taken s s1 b ->
  extended P 2 ip s P' (set_inode ip (with_addrs (<[Z.to_nat j := b]> (i_addrs (icache s1 ip))) (icache s1 ip)) s1).
Proof.
  intros Ht Hlen Hl Hf Hj Hz Htk. destruct (slot_added s s1 ip j b Hl Hf Hj Hz Htk) as (H1 & H2 & H3 & H4).
  pose proof Htk as [T1 T2 T3 T4 T5 T6]. pose proof T6 as [R1 R2 R3 R4 R5]. pose proof (layout_pos _ _ Hl) as Hpos.
  assert (Hmk : forall c, 0 <= c < sb_size (sb s) -> marked s c -> marked s1 c) by (intros c Hc Hm; apply T3; [done|by right]).
  rewrite R1. set (s2 := set_inode _ _ _). assert (Ex : icache s2 ip = with_addrs (<[Z.to_nat j := b]> (i_addrs (icache s ip))) (icache s ip)) by apply fn_lookup_insert.
  split; rewrite ?Ex; try done.
  - by apply trans_inode.
  - destruct (layout_step _ s s1 T6 Hmk Hl). by split.
  - split; try done.
    + intros j' Hj'. cbn. by rewrite fn_lookup_insert_ne, R1 by done.
    + rewrite Ex. by destruct (icache s ip).
    + intros c Hc Ho. rewrite Ex in Ho. apply H3 in Ho as [Ho| ->]; [by left|by right].
    + intros c Hc Hm Hb Ho. apply T5; [done|]. by intros ->.
  - by destruct H1.
Qed.

Lemma add_slot P ip j (Q : Z -> fsys -> Prop) s :
  trans disksize pid P [] s -> layout_ok disksize s -> file_ok s (icache s ip) -> 0 <= j <= NDIRECT ->
  i_addrs (icache s ip) !!! Z.to_nat j = 0 -> Z.of_nat (length P) + 2 < log_size (flog s) ->
  (forall P' b s', extended P 2 ip s P' s' -> i_addrs (icache s' ip) = <[Z.to_nat j := b]> (i_addrs (icache s ip)) -> 0 < b ->
     fview s' b = zero_block -> Q b s') ->
  wp out_of_blocks (addr <- balloc disksize pid 1 ;; put_addr ip j addr ;;; kret addr) Q s.
Proof.
  intros Ht Hl Hf Hj Hz Hroom HQ. apply wp_bind, (wp_panics (disk_full s)); [|apply full_panics].
  apply (balloc_wp _ _ P [] s); try done; [by intros x []%not_elem_of_nil|cbn; lia|]. intros P' b s1 Ht1 Hlen Htk.
  apply wp_bind, wp_modify, wp_ret. pose proof (tk_rest _ _ _ Htk) as [R1 _ _ _ _]. pose proof (layout_pos _ _ Hl). apply (HQ P').
  - by apply slot_extended.
  - cbn. rewrite fn_lookup_insert. cbn. by rewrite R1.
  - destruct (tk_range _ _ _ Htk). lia.
  - apply Htk.
Qed.

(** The entry of block [k] in the indirect block set to a fresh block. *)
Lemma entry_extended P P' ip s s1 s2 k b :
  trans disksize pid P' [] s2 -> (length P' <= length P + 3)%nat -> layout_ok disksize s -> file_ok s (icache s ip) ->
  NDIRECT <= k < MAXFILE -> ind (icache s ip) <> 0 -> addr_of (fview s) (icache s ip) k = 0 -> is_block (fview s (ind (icache s ip))) ->
  taken s s1 b -> same_rest s1 s2 ->
  (forall c, fview s2 c = if decide (c = ind (icache s ip)) then put32 (fview s (ind (icache s ip))) (4 * (k - NDIRECT)) b else fview s1 c) ->
  extended P 3 ip s P' s2 /\ addr_of (fview s2) (icache s2 ip) k = b.
Proof.
  intros Ht Hlen Hl Hf Hk Hi Hz Hblk Htk Hr2 Hv2. pose proof Htk as [T1 T2 T3 T4 T5 T6]. pose proof (transitivity T6 Hr2) as Hr.
  pose proof Hr as [R1 R2 R3 R4 R5]. pose proof (layout_pos _ _ Hl) as Hpos. pose proof Hf as [F1 F2 F3 F4 F5 F6 F7]. pose proof (sr_sb _ _ T6) as Esb1.
  set (x := icache s ip) in *. rewrite R1. fold x. destruct (F4 _ (owns_ind _ _ Hi)) as [Hid Him].
  assert (Hib : ind x <> b) by (intros E; by rewrite E in Him). change MAXFILE with 140 in *. change NDIRECT with 12 in *.
  assert (Hmk2 : forall c, 0 <= c < sb_size (sb s) -> marked s2 c <-> marked s1 c).
  { intros c Hc. unfold marked. destruct (layout_bblock _ s c Hl Hc) as [_ Hb]. rewrite Hv2, R3, Esb1, decide_False; [done|]. unfold is_bitmap in Hb. lia. }
  assert (Hmk : forall c, 0 <= c < sb_size (sb s) -> marked s c -> marked s2 c) by (intros c Hc Hm; apply Hmk2, T3; [done..|by right]).
  assert (Hv : forall c, owns (fview s) x c -> c <> ind x -> fview s2 c = fview s c).
  { intros c Hc Hne. rewrite Hv2, decide_False by done. apply F4 in Hc as [Hc1 Hc2]. apply T5; [unfold is_bitmap; lia|by intros ->]. }
  assert (Haddr : forall k', 0 <= k' < 140 -> addr_of (fview s2) x k' = if decide (Some k = Some k') then b else addr_of (fview s) x k').
  { intros k' Hk'. destruct (Z.ltb_spec k' 12) as [Hd|Hd].
    - rewrite !addr_direct by done. rewrite decide_False; [done|]. intros [= ->]. lia.
    - rewrite !addr_indirect, Hv2, decide_True by done. change NDIRECT with 12. case_decide as E.
      + injection E as <-. rewrite get32_put32 by (try done; unfold BSIZE; lia). apply u32_small. unfold is_u32. pose proof (lo_size _ _ Hl); pose proof (lo_disk _ _ Hl). lia.
      + rewrite get32_put32_ne; [done|lia|lia|]. assert (k <> k') by congruence. lia. }
  assert (Hnew : forall k', Some k = Some k' -> 0 <= k' < MAXFILE /\ addr_of (fview s) x k' = 0).
  { intros k' [= <-]. change MAXFILE with 140. split; [lia|done]. }
  assert (Hzb : fview s2 b = zero_block) by (rewrite Hv2, decide_False; [done|congruence]).
  assert (Hmb : marked s2 b) by (apply Hmk2; [lia|]; apply T3; [lia|by left]).
  split; [split; rewrite ?R1; fold x|]; try done.
  - by apply (layout_step _ s).
  - split; try done.
    + intros j Hj. by rewrite R1.
    + rewrite R1. fold x. by destruct x.
    + intros c Hc Ho. rewrite R1 in Ho. fold x in Ho. destruct (added_owns s s2 x x b (Some k) Haddr eq_refl c Ho) as [| ->]; [by left|by right].
    + intros c Hc Hm Hb Ho. fold x in Ho. rewrite Hv2, decide_False; [apply T5; [done|by intros ->]|]. intros ->. by apply Ho, owns_ind.
  - apply (added_ok s s2 x x b (Some k)); try done; try lia.
  - apply (added_keep s s2 x x b (Some k)); try done.
  - apply (added_content s s2 x x b (Some k)); try done.
  - rewrite Haddr, decide_True by (try done; lia). done.
Qed.

Lemma add_entry P ip i k (Q : Z -> fsys -> Prop) s :
  trans disksize pid P [(i, ind (icache s ip))] s -> layout_ok disksize s -> file_ok s (icache s ip) ->
  NDIRECT <= k < MAXFILE -> ind (icache s ip) <> 0 -> addr_of (fview s) (icache s ip) k = 0 ->
  Z.of_nat (length P) + 3 < log_size (flog s) ->
  (forall P' s', extended P 3 ip s P' s' -> addr_of (fview s') (icache s' ip) k <> 0 ->
     Q (addr_of (fview s') (icache s' ip) k) s') ->
  wp out_of_blocks (addr <- (addr <- balloc disksize pid 1 ;; a <- data_of i ;;
     put_data i (put32 a (4 * (k - NDIRECT)) addr) ;;; log_write i ;;; kret addr) ;; brelse pid i ;;; kret addr) Q s.
Proof.
  intros Ht Hl Hf Hk Hi Hz Hroom HQ. set (x := icache s ip) in *. apply wp_bind, wp_bind, (wp_panics (disk_full s)); [|apply full_panics].
  destruct (fo_blocks _ _ Hf _ (owns_ind _ _ Hi)) as [Hid Him]. pose proof (layout_pos _ _ Hl) as Hpos.
  pose proof (trans_view_block _ _ _ _ _ (ind x) Ht) as Hblk. apply (balloc_wp _ _ P _ s _ Ht Hl); [|cbn; lia|lia|].
  { intros c Hc%list_elem_of_singleton. by rewrite Hc. }
  intros P1 b s1 Ht1 Hlen Htk. pose proof (tk_rest _ _ _ Htk) as Hr1. pose proof Hr1 as [R1 _ R3 _ R5].
  assert (Hv1 : fview s1 (ind x) = fview s (ind x)).
  { apply (tk_view _ _ _ Htk); [unfold is_bitmap; lia|]. intros E. apply (tk_free _ _ _ Htk). by rewrite <- E. }
  apply wp_bind, (wp_data_of _ _ _ _ _ i (ind x) _ _ Ht1); [by left|]. rewrite Hv1.
  apply (wp_store _ _ _ _ _ _ _ _ _ _ _ Ht1); [by apply put32_ok| |rewrite R5; lia|].
  { apply (loggable_rest _ s); [done|]. by apply (owned_loggable s x), owns_ind. }
  intros s2 Ht2 Hv2 Hr2. apply wp_ret, wp_bind, (wp_brelse _ _ _ _ _ _ _ _ _ Ht2). intros s3 Ht3 Hv3 Hr3. pose proof (pin_length P1 (ind x)).
  destruct (entry_extended P (pin P1 (ind x)) ip s s1 s3 k b) as [He Ha]; try done; [lia|by transitivity s2| |].
  { intros c. rewrite Hv3, Hv2. done. }
  apply wp_ret. rewrite <- Ha. apply (HQ _ _ He). rewrite Ha. destruct (tk_range _ _ _ Htk). lia.
Qed.

(** bmap allocates the block when there is none. *)
Lemma bmap_wp P ip k (Q : Z -> fsys -> Prop) s :
  trans disksize pid P [] s -> layout_ok disksize s -> file_ok s (icache s ip) -> 0 <= k < MAXFILE ->
  Z.of_nat (length P) + 5 < log_size (flog s) ->
  (forall P' s', extended P 5 ip s P' s' -> addr_of (fview s') (icache s' ip) k <> 0 ->
     (addr_of (fview s) (icache s ip) k <> 0 -> icache s' ip = icache s ip) ->
     Q (addr_of (fview s') (icache s' ip) k) s') ->
  wp out_of_blocks (bmap disksize pid ip k) Q s.
Proof.
  intros Ht Hl Hf Hk Hroom HQ. destruct (decide (addr_of (fview s) (icache s ip) k = 0)) as [Hz|Hne].
  2: { apply (bmap_hit _ P); try done. intros s1 Ht1 Hv1 Hr1. pose proof Hr1 as [R1 R2 R3 R4 R5]. pose proof (layout_pos _ _ Hl).
    replace (addr_of (fview s) (icache s ip) k) with (addr_of (fview s1) (icache s1 ip) k) by (rewrite R1; by apply addr_of_same).
    apply (HQ P); [|by rewrite R1, (addr_of_same (fview s))|by rewrite R1]. split; rewrite ?R1; try done.
    - lia.
    - apply (layout_step _ s); [done| |done]. intros c _. by apply marked_same.
    - by apply grows_same.
    - apply (file_ok_same s); [done|done|lia|done].
    - intros k' _ _. by apply addr_of_same.
    - intros o Ho. by apply content_ext. }
  pose proof (fo_dev _ _ Hf) as Hdev. unfold bmap. apply wp_bind, wp_gets. rewrite Hdev.
  destruct (Z.ltb_spec k NDIRECT) as [Hd|Hd].
  - rewrite addr_direct in Hz by done. apply wp_bind, wp_bind, wp_gets, wp_ret. rewrite Hz. cbn [Z.eqb].
    apply (add_slot P); try done; [lia|lia|]. intros P' b s' He Ha Hb _. replace b with (addr_of (fview s') (icache s' ip) k).
    + apply (HQ P'); [by destruct He; split; try lia| |by rewrite addr_direct]. rewrite addr_direct, Ha by done. rewrite list_lookup_total_insert_eq; [lia|]. rewrite (fo_len _ _ Hf). unfold NDIRECT in *. lia.
    + rewrite addr_direct, Ha by done. rewrite list_lookup_total_insert_eq; [done|]. rewrite (fo_len _ _ Hf). unfold NDIRECT in *. lia.
  - rewrite (proj2 (Z.ltb_lt _ _)) by (unfold MAXFILE in Hk; lia). apply wp_bind, wp_bind, wp_gets, wp_ret, wp_bind.
    change (i_addrs (icache s ip) !!! Z.to_nat NDIRECT) with (ind (icache s ip)).
    assert (H2 : forall P1 s1, extended P 2 ip s P1 s1 -> ind (icache s1 ip) <> 0 -> addr_of (fview s1) (icache s1 ip) k = 0 ->
      wp out_of_blocks (bp <- bread disksize pid 1 (ind (icache s1 ip)) ;; a <- data_of bp ;;
        addr <- (if get32 a (4 * (k - NDIRECT)) =? 0 then addr <- balloc disksize pid 1 ;; a <- data_of bp ;;
             put_data bp (put32 a (4 * (k - NDIRECT)) addr) ;;; log_write bp ;;; kret addr else kret (get32 a (4 * (k - NDIRECT)))) ;;
        brelse pid bp ;;; kret addr) Q s1).
    { intros P1 s1 He Hi Hz1. pose proof He as [E1 E2 E3 E4 E5 E6 E7 E8]. destruct (gw_log _ _ _ E4) as [_ Esz].
      apply (wp_load _ _ _ _ _ _ _ _ _ E1); [by apply not_elem_of_nil|by apply (owned_lt s1 (icache s1 ip)), owns_ind| |].
      { pose proof (trans_room _ _ _ _ _ E1). cbn. lia. }
      intros i s2 Ht2 Hv2 Hr2. pose proof Hr2 as [R1 R2 R3 R4 R5]. pose proof (layout_pos _ _ E3).
      rewrite <- (addr_indirect (fview s1)), Hz1 by done. cbn [Z.eqb].
      assert (Hf2 : file_ok s2 (icache s1 ip)) by (apply (file_ok_same s1); [done|done|lia|done]).
      assert (Hl2 : layout_ok disksize s2) by (apply (layout_step _ s1); [done| |done]; intros c _; by apply marked_same).
      apply (add_entry P1 ip); rewrite ?R1; try done; [lia|by rewrite (addr_of_same (fview s1))|rewrite R5; lia|].
      intros P3 s3 He3 Ha3. apply (HQ P3); [|done|done]. apply (extended_trans P 2 3 ip s P1 s1); [done|].
      destruct He3 as [A1 A2 A3 A4 A5 A6 A7 A8]. split; try done; rewrite R1 in *; try done.
      - apply (grows_trans ip s1 s2); [by apply grows_same|done].
      - intros k' Hk' Hne'. rewrite <- (addr_of_same (fview s1) (fview s2)) by done. apply A7; [done|]. by rewrite (addr_of_same (fview s1)).
      - intros o Ho. rewrite A8 by done. by apply content_ext. }
    destruct (Z.eqb_spec (ind (icache s ip)) 0) as [Hi|Hi].
    + apply (add_slot P); try done; [lia|]. intros P1 b s1 He Ha Hb Hzb.
      assert (Hi1 : ind (icache s1 ip) = b).
      { unfold ind. rewrite Ha. change (Z.to_nat NDIRECT) with 12%nat. rewrite list_lookup_total_insert_eq; [done|]. rewrite (fo_len _ _ Hf). lia. }
      rewrite <- Hi1. apply (H2 P1); [done|lia|]. rewrite addr_indirect, Hi1, Hzb by (done || lia). apply get32_zero.
    + apply wp_ret, (H2 P); [|done|done]. split; try done; [lia|by apply grows_same].
Qed.
End bmap.
