(* ===== verification/FsInode.v ===== *)
(** * Inodes on the disk

    What iupdate writes reads back in ilock, and the other inodes of the
    same block are left alone. *)

From S2P Require Import Prelude Mem Block Bio Log LogFacts Fs FsBlocks FsAlloc FsFiles.
#[local] Open Scope Z_scope.
#[local] Open Scope kernel_scope.

(** The fields have values of their C types. *)
Definition is_s16 (x : Z) : Prop := - 2 ^ 15 <= x < 2 ^ 15.
Record inode_fits (x : inode) : Prop := {
  if_type : is_s16 (i_type x);
  if_major : is_s16 (i_major x);
  if_minor : is_s16 (i_minor x);
  if_nlink : is_s16 (i_nlink x);
  if_size : is_u32 (i_size x);
  if_len : length (i_addrs x) = 13%nat;
  if_addrs : Forall is_u32 (i_addrs x) }.

Lemma s16_u16 x : is_s16 x -> s16 (u16 x) = x.
Proof.
  unfold is_s16, s16, u16. change (2 ^ 15) with 32768. change (2 ^ 16) with 65536. intros H.
  Z.to_euclidean_division_equations. lia.
Qed.

(** Bytes outside a write. *)
Lemma get8_put16_ne d o v p : 0 <= o -> 0 <= p -> p < o \/ o + 2 <= p -> get8 (put16 d o v) p = get8 d p.
Proof. intros. unfold put16. by rewrite !get8_put8_ne by lia. Qed.
Lemma get8_put32_ne d o v p : 0 <= o -> 0 <= p -> p < o \/ o + 4 <= p -> get8 (put32 d o v) p = get8 d p.
Proof. intros. unfold put32. by rewrite !get8_put8_ne by lia. Qed.

Lemma get16_put32_ne d o v p : 0 <= o -> 0 <= p -> p + 2 <= o -> get16 (put32 d o v) p = get16 d p.
Proof. intros. unfold get16. by rewrite !get8_put32_ne by lia. Qed.

Section addrs.
Context (off : Z) (f : nat -> Z) (Hoff : 0 <= off).
Definition put_addrs (n : nat) (d : block) : block :=
  fold_left (fun d k => put32 d (off + 12 + 4 * Z.of_nat k) (f k)) (seq 0 n) d.

Lemma put_addrs_S n d : put_addrs (S n) d = put32 (put_addrs n d) (off + 12 + 4 * Z.of_nat n) (f n).
Proof. unfold put_addrs. by rewrite seq_S, fold_left_app. Qed.

Lemma put_addrs_ok n d : is_block d -> is_block (put_addrs n d).
Proof. intros Hd. induction n; [done|]. rewrite put_addrs_S. by apply put32_ok. Qed.

Lemma get8_put_addrs n d p : 0 <= p -> p < off + 12 \/ off + 12 + 4 * Z.of_nat n <= p -> get8 (put_addrs n d) p = get8 d p.
Proof. intros Hp H. induction n; [done|]. rewrite put_addrs_S, get8_put32_ne by lia. apply IHn. lia. Qed.

Lemma get32_put_addrs n d k : is_block d -> off + 12 + 4 * Z.of_nat n <= BSIZE -> (k < n)%nat ->
  get32 (put_addrs n d) (off + 12 + 4 * Z.of_nat k) = u32 (f k).
Proof.
  intros Hd Hn Hk. induction n as [|n IH]; [lia|]. rewrite put_addrs_S. destruct (decide (k = n)) as [->|].
  - rewrite get32_put32; [done|by apply put_addrs_ok|lia|lia].
  - rewrite get32_put32_ne by lia. apply IH; lia.
Qed.
End addrs.

Lemma write_dinode_eq d off x : write_dinode d off x = put_addrs off (fun k => i_addrs x !!! k) 13
  (put32 (put16 (put16 (put16 (put16 d off (i_type x)) (off + 2) (i_major x)) (off + 4) (i_minor x)) (off + 6) (i_nlink x)) (off + 8) (i_size x)).
Proof. reflexivity. Qed.

Lemma write_dinode_ok d off x : is_block d -> is_block (write_dinode d off x).
Proof. intros Hd. rewrite write_dinode_eq. by apply put_addrs_ok, put32_ok, put16_ok, put16_ok, put16_ok, put16_ok. Qed.

Lemma get8_write_dinode d off x p : 0 <= off -> 0 <= p -> p < off \/ off + DINODE <= p -> get8 (write_dinode d off x) p = get8 d p.
Proof.
  unfold DINODE. intros Ho Hp H. rewrite write_dinode_eq, get8_put_addrs, get8_put32_ne by lia. by rewrite !get8_put16_ne by lia.
Qed.

Lemma read_dinode_ext d d' off x :
  (forall p, off <= p < off + DINODE -> get8 d' p = get8 d p) -> read_dinode d' off x = read_dinode d off x.
Proof.
  unfold DINODE. intros H. unfold read_dinode. f_equal; [|by unfold get16, get32; rewrite !H by lia].
  apply list_eq. intros k. rewrite !list_lookup_fmap. destruct (seq 0 13 !! k) as [j|] eqn:E; [|done]. cbn.
  apply lookup_seq in E as [-> E]. unfold get32. by rewrite !H by lia.
Qed.

(** Another inode of the block. *)
Lemma read_write_dinode_ne d off off' x y : 0 <= off -> 0 <= off' -> off' + DINODE <= off \/ off + DINODE <= off' ->
  read_dinode (write_dinode d off x) off' y = read_dinode d off' y.
Proof. intros H1 H2 H3. apply read_dinode_ext. intros p Hp. apply get8_write_dinode; unfold DINODE in *; lia. Qed.

(** The same one. *)
Lemma read_write_dinode d off x y : is_block d -> 0 <= off -> off + DINODE <= BSIZE -> inode_fits x ->
  read_dinode (write_dinode d off x) off y =
  with_addrs (i_addrs x) (with_size (i_size x) (with_meta (i_type x) (i_major x) (i_minor x) (i_nlink x) y)).
Proof.
  intros Hd Ho Hb [T1 T2 T3 T4 T5 T6 T7]. unfold DINODE, BSIZE in Hb. rewrite write_dinode_eq. set (d0 := put32 _ _ _).
  assert (Hd0 : is_block d0) by (by apply put32_ok, put16_ok, put16_ok, put16_ok, put16_ok).
  assert (Hlow : forall p, off <= p < off + 12 -> get8 (put_addrs off (fun k => i_addrs x !!! k) 13 d0) p = get8 d0 p) by (intros p Hp; apply get8_put_addrs; lia).
  assert (H16 : forall p, off <= p <= off + 6 -> get16 (put_addrs off (fun k => i_addrs x !!! k) 13 d0) p = get16 d0 p) by (intros p Hp; unfold get16; by rewrite !Hlow by lia).
  assert (Hb16 : forall v1 v2 v3, is_block (put16 (put16 (put16 d off v1) (off + 2) v2) (off + 4) v3)) by (intros; by apply put16_ok, put16_ok, put16_ok).
  unfold read_dinode. f_equal; [|f_equal; [|f_equal]].
  - apply list_eq. intros k. rewrite list_lookup_fmap. destruct (decide (k < 13)%nat) as [Hk|Hk].
    + rewrite lookup_seq_lt by done. cbn [fmap option_fmap option_map]. rewrite get32_put_addrs by (try done; unfold BSIZE; lia).
      cbn. destruct (lookup_lt_is_Some_2 (i_addrs x) k ltac:(lia)) as [v Hv]. rewrite Hv, (list_lookup_total_correct _ _ _ Hv). f_equal.
      apply u32_small. apply (proj1 (Forall_lookup _ _) T7 _ _ Hv).
    + rewrite lookup_seq_ge by lia. cbn. symmetry. apply lookup_ge_None. lia.
  - unfold get32. rewrite !Hlow by lia. change (get32 d0 (off + 8) = i_size x). unfold d0.
    rewrite get32_put32; [by apply u32_small|by apply put16_ok|lia|unfold BSIZE; lia].
  - rewrite H16 by lia. unfold d0. rewrite get16_put32_ne, !get16_put16_ne, get16_put16 by (try done; unfold BSIZE; lia). by apply s16_u16.
  - rewrite H16 by lia. unfold d0. rewrite get16_put32_ne, !get16_put16_ne, get16_put16 by (try apply put16_ok; try done; unfold BSIZE; lia). by apply s16_u16.
  - rewrite H16 by lia. unfold d0. rewrite get16_put32_ne, !get16_put16_ne, get16_put16 by (try apply put16_ok, put16_ok; try done; unfold BSIZE; lia). by apply s16_u16.
  - rewrite H16 by lia. unfold d0. rewrite get16_put32_ne, get16_put16 by (try done; unfold BSIZE; lia). by apply s16_u16.
Qed.

(** ** iupdate *)

Lemma dinode_place i : 0 <= dinode_off i /\ dinode_off i + DINODE <= BSIZE.
Proof. unfold dinode_off, IPB, DINODE, BSIZE. change (512 / 64) with 8. pose proof (Z.mod_pos_bound i 8). lia. Qed.

Lemma dinode_apart i j : 0 <= i -> 0 <= j -> i / IPB = j / IPB -> i <> j ->
  dinode_off i + DINODE <= dinode_off j \/ dinode_off j + DINODE <= dinode_off i.
Proof.
  unfold dinode_off, IPB, DINODE, BSIZE. change (512 / 64) with 8. intros. pose proof (Z.div_mod i 8). pose proof (Z.div_mod j 8). lia.
Qed.

Section iupdate.
Context (disksize pid : Z).

Lemma layout_iblock s i : layout_ok disksize s -> 0 <= i < sb_ninodes (sb s) ->
  IBLOCK i (sb s) = i / IPB + sb_inodestart (sb s) /\ sb_inodestart (sb s) <= IBLOCK i (sb s) < sb_bmapstart (sb s).
Proof.
  intros Hl Hi. pose proof (layout_pos _ _ Hl). destruct Hl. unfold IBLOCK. change IPB with 8 in *.
  assert (0 <= i / 8 <= sb_ninodes (sb s) / 8) by (split; [apply Z.div_pos|apply Z.div_le_mono]; lia).
  rewrite u32_small; unfold is_u32; lia.
Qed.

(** The fields on the disk of [x], in the slot [y]. *)
Definition with_disk_fields (x y : inode) : inode :=
  with_addrs (i_addrs x) (with_size (i_size x) (with_meta (i_type x) (i_major x) (i_minor x) (i_nlink x) y)).

(** The inode [ip] is on the disk as it is in memory. *)
Definition synced (s : fsys) (ip : nat) : Prop :=
  let x := icache s ip in read_dinode (fview s (IBLOCK (i_inum x) (sb s))) (dinode_off (i_inum x)) x = x.

(** From [s] to [s'] the dinode of [ip] was written. *)
Record updated (ip : nat) (s s' : fsys) : Prop := {
  up_rest : same_rest s s';
  up_view : forall b, b <> IBLOCK (i_inum (icache s ip)) (sb s) -> fview s' b = fview s b;
  up_others : forall j y, 0 <= j < sb_ninodes (sb s) -> j <> i_inum (icache s ip) ->
    read_dinode (fview s' (IBLOCK j (sb s))) (dinode_off j) y = read_dinode (fview s (IBLOCK j (sb s))) (dinode_off j) y;
  up_written : inode_fits (icache s ip) -> forall y,
    read_dinode (fview s' (IBLOCK (i_inum (icache s ip)) (sb s))) (dinode_off (i_inum (icache s ip))) y = with_disk_fields (icache s ip) y;
  up_synced : inode_fits (icache s ip) -> synced s' ip }.

Lemma iupdate_wp E P ip (Q : unit -> fsys -> Prop) s :
  trans disksize pid P [] s -> layout_ok disksize s -> i_dev (icache s ip) = 1 -> 0 <= i_inum (icache s ip) < sb_ninodes (sb s) ->
  Z.of_nat (length P) + 1 < log_size (flog s) ->
  (forall P' s', trans disksize pid P' [] s' -> (length P' <= length P + 1)%nat -> updated ip s s' -> Q tt s') ->
  wp E (iupdate disksize pid ip) Q s.
Proof.
  intros Ht Hl Hdev Hi Hroom HQ. unfold iupdate. apply wp_bind, wp_gets, wp_bind, wp_gets. rewrite Hdev. set (x := icache s ip) in *.
  destruct (layout_iblock s _ Hl Hi) as [Eb Hb]. set (ib := IBLOCK (i_inum x) (sb s)) in *. pose proof (layout_pos _ _ Hl).
  destruct (dinode_place (i_inum x)) as [Ho1 Ho2]. pose proof (trans_view_block _ _ _ _ _ ib Ht) as Hblk.
  apply (wp_update _ _ _ P [] ib (fun d => write_dinode d (dinode_off (i_inum x)) x)); try done; [by apply not_elem_of_nil| |by apply write_dinode_ok|lia|cbn; lia|].
  { apply layout_loggable; [done|]. destruct Hl. lia. }
  intros s' Ht' Hv' Hr. pose proof (pin_length P ib). pose proof Hr as [R1 R2 R3 R4 R5]. apply (HQ _ _ Ht'); [lia|]. split; [done| | | |].
  - intros b Hne. by rewrite Hv', decide_False.
  - intros j y Hj Hne. rewrite Hv'. case_decide as E'; [|done]. rewrite E'. destruct (dinode_place j) as [Hj1 Hj2].
    destruct (layout_iblock s _ Hl Hj) as [Ej _]. apply read_write_dinode_ne; [done|done|]. apply dinode_apart; [lia|lia| |fold x in Hne; lia]. fold ib in Eb. lia.
  - intros Hfit y. rewrite Hv', decide_True by done. by apply read_write_dinode.
  - intros Hfit. unfold synced. rewrite R1, R3. fold x ib. rewrite Hv', decide_True by done. rewrite read_write_dinode by done. by destruct x.
Qed.

Definition sleeping_lock : sleeplock := {| sl_locked := true; sl_pid := pid |}.

(** ilock of a slot that is not loaded yet. *)
Lemma ilock_load E P j (Q : unit -> fsys -> Prop) s :
  trans disksize pid P [] s -> layout_ok disksize s -> i_dev (icache s j) = 1 -> 0 <= i_inum (icache s j) < sb_ninodes (sb s) ->
  1 <= i_ref (icache s j) -> sl_locked (i_lock (icache s j)) = false -> i_valid (icache s j) = false ->
  let y := read_dinode (fview s (IBLOCK (i_inum (icache s j)) (sb s))) (dinode_off (i_inum (icache s j))) (with_lock sleeping_lock (icache s j)) in
  i_type y <> 0 ->
  (forall s', trans disksize pid P [] s' -> (forall b, fview s' b = fview s b) -> (forall k, icache s' k = if decide (k = j) then with_valid true y else icache s k) ->
     ic_locked s' = ic_locked s -> sb s' = sb s -> log_start (flog s') = log_start (flog s) -> log_size (flog s') = log_size (flog s) -> Q tt s') ->
  wp E (ilock disksize pid j) Q s.
Proof.
  intros Ht Hl Hdev Hi Href Hlk Hval y Hty HQ. unfold ilock. apply wp_bind, wp_gets. rewrite (proj2 (Z.ltb_ge _ _)) by lia.
  unfold acquiresleep. apply wp_bind, wp_bind, wp_gets. rewrite Hlk. apply wp_modify. cbv beta. set (s1 := set_inode _ _ _).
  assert (E1 : icache s1 j = with_lock sleeping_lock (icache s j)) by apply fn_lookup_insert.
  apply wp_bind, wp_gets. cbv beta. rewrite E1. cbn [i_valid with_lock]. rewrite Hval. cbn [negb]. apply wp_bind, wp_gets.
  change (sb s1) with (sb s). cbn [i_inum i_dev with_lock]. rewrite Hdev. set (ib := IBLOCK _ _).
  destruct (layout_iblock s _ Hl Hi) as [_ Hib]. fold ib in Hib. pose proof (layout_pos _ _ Hl). pose proof (lo_size _ _ Hl). pose proof (lo_data _ _ Hl).
  assert (Ht1 : trans disksize pid P [] s1) by (by apply trans_inode). pose proof (trans_room _ _ _ _ _ Ht) as Hr.
  apply (wp_load _ _ _ _ _ _ _ _ _ Ht1); [by apply not_elem_of_nil|lia|cbn; lia|].
  intros i s2 Ht2 Hv2 Hr2. apply wp_bind, wp_modify, wp_bind. cbv beta.
  pose proof Hr2 as [R1 R2 R3 R4 R5]. rewrite R1, E1. change (fview s1 ib) with (fview s ib). fold y.
  apply (wp_brelse _ _ _ _ _ _ _ _ _ (trans_inode _ _ _ _ _ j y Ht2)). intros s3 Ht3 Hv3 [U1 U2 U3 U4 U5].
  assert (E3 : icache s3 j = y) by (rewrite U1; apply fn_lookup_insert).
  apply wp_bind, wp_modify. cbv beta. rewrite E3. apply wp_bind, wp_gets. cbn [icache set_inode]. rewrite fn_lookup_insert. cbn [i_type with_valid].
  rewrite (proj2 (Z.eqb_neq _ _) Hty). apply wp_ret, HQ.
  - by apply trans_inode.
  - intros b. change (fview s3 b = fview s b). rewrite Hv3. apply Hv2.
  - intros k. cbn. unfold insert, fn_insert. rewrite U1. cbn. unfold insert, fn_insert. rewrite R1. cbn. unfold insert, fn_insert. by repeat case_decide; subst.
  - cbn. by rewrite U2; cbn; rewrite R2.
  - cbn. by rewrite U3; cbn; rewrite R3.
  - cbn. by rewrite U4; cbn; rewrite R4.
  - cbn. by rewrite U5; cbn; rewrite R5.
Qed.
End iupdate.
