(* ===== verification/FsData.v ===== *)
(** * Reading and writing files

    readi gives the bytes of the file and writei replaces them; neither
    touches another file. *)

From S2P Require Import Prelude Mem Block Bio Log LogFacts Fs FsBlocks FsAlloc FsFiles FsInode.
#[local] Open Scope Z_scope.
#[local] Open Scope kernel_scope.

(** The bytes of a file from [off] on. *)
Definition bytes (v : Z -> block) (x : inode) (off n : Z) : list Z :=
  map (fun i => content v x (off + Z.of_nat i)) (seq 0 (Z.to_nat n)).

Lemma bytes_app v x off m n : 0 <= m -> 0 <= n -> bytes v x off (m + n) = bytes v x off m ++ bytes v x (off + m) n.
Proof.
  intros Hm Hn. unfold bytes. rewrite Z2Nat.inj_add, seq_app, map_app by done. f_equal.
  pose proof (fmap_add_seq (Z.to_nat m) 0 (Z.to_nat n)) as E. rewrite Nat.add_0_r in E. cbn. rewrite <- E. etransitivity; [symmetry; apply list_fmap_compose|].
  apply list_fmap_ext. intros i k _. cbn. f_equal. lia.
Qed.

Lemma length_bytes v x off n : length (bytes v x off n) = Z.to_nat n.
Proof. unfold bytes. by rewrite length_map, length_seq. Qed.

Lemma bytes_ext v x v' x' off n : (forall o, off <= o < off + n -> content v' x' o = content v x o) -> bytes v' x' off n = bytes v x off n.
Proof. intros H. apply map_ext_in. intros i Hi%in_seq. apply H. lia. Qed.

(** Arithmetic of offsets and blocks. *)
Lemma in_block o i : 0 <= o -> 0 <= i -> o mod BSIZE + i < BSIZE -> (o + i) / BSIZE = o / BSIZE /\ (o + i) mod BSIZE = o mod BSIZE + i.
Proof. unfold BSIZE. intros H1 H2 H3. Z.to_euclidean_division_equations. lia. Qed.

Lemma slice_bytes v x off m :
  0 <= off -> 0 <= m -> off mod BSIZE + m <= BSIZE -> addr_of v x (off / BSIZE) <> 0 -> is_block (v (addr_of v x (off / BSIZE))) ->
  slice (v (addr_of v x (off / BSIZE))) (off mod BSIZE) m = bytes v x off m.
Proof.
  intros Ho Hm Hlt Hne [Hlen _]. unfold slice. apply list_eq. intros i. unfold bytes. rewrite list_lookup_fmap.
  assert (0 <= off mod BSIZE < BSIZE) by (by apply Z.mod_pos_bound).
  destruct (decide (i < Z.to_nat m)%nat) as [Hi|Hi].
  - rewrite lookup_take_lt, lookup_drop, lookup_seq_lt by done. cbn. unfold content.
    destruct (in_block off (Z.of_nat i)) as [-> ->]; [lia|lia|lia|]. rewrite (proj2 (Z.eqb_neq _ _) Hne). unfold get8.
    replace (Z.to_nat (off mod BSIZE + Z.of_nat i)) with (Z.to_nat (off mod BSIZE) + i)%nat by lia.
    destruct (lookup_lt_is_Some_2 (v (addr_of v x (off / BSIZE))) (Z.to_nat (off mod BSIZE) + i)) as [b Hb]; [rewrite Hlen; lia|]. by rewrite Hb.
  - rewrite lookup_seq_ge by lia. apply lookup_take_ge. lia.
Qed.

(** A round of readi and writei: its length, and that it comes nearer to the end. *)
Lemma chunk_spec tot off n : 0 <= off -> tot < n <= 2 ^ 31 -> 0 <= tot ->
  0 < chunk tot off n <= n - tot /\ off mod BSIZE + chunk tot off n <= BSIZE
  /\ ((off + chunk tot off n) mod BSIZE + (n - (tot + chunk tot off n)) <= off mod BSIZE + (n - tot) - BSIZE \/ tot + chunk tot off n = n).
Proof.
  intros Ho Ht H0. unfold chunk. rewrite u32_small by (unfold is_u32; lia). unfold BSIZE.
  pose proof (Z.mod_pos_bound off 512 ltac:(lia)). destruct (Z.min_spec (n - tot) (512 - off mod 512)) as [[H1 ->]|[H1 ->]]; [lia|].
  split; [lia|]. split; [lia|]. left. replace ((off + (512 - off mod 512)) mod 512) with 0; [lia|].
  Z.to_euclidean_division_equations. lia.
Qed.

(** A block with the bytes [bs] put at [o]. *)
Lemma blit_ok d o bs : is_block d -> Forall is_byte bs -> 0 <= o -> o + Z.of_nat (length bs) <= BSIZE -> is_block (blit_block d o bs).
Proof.
  unfold BSIZE. intros [Hl Hb] Hbs Ho Hlt. unfold BSIZE in *. unfold blit_block. split.
  - rewrite !length_app, length_take, length_drop, Hl. unfold BSIZE. lia.
  - apply Forall_app. split; [by apply Forall_take|]. apply Forall_app. split; [done|by apply Forall_drop].
Qed.

Lemma get8_blit d o bs i : is_block d -> 0 <= o -> o + Z.of_nat (length bs) <= BSIZE -> 0 <= i ->
  get8 (blit_block d o bs) i = if decide (o <= i < o + Z.of_nat (length bs)) then bs !!! Z.to_nat (i - o) else get8 d i.
Proof.
  unfold BSIZE. intros [Hl _] Ho Hlt Hi. unfold BSIZE in *. unfold get8, blit_block. case_decide as Hin.
  - rewrite lookup_app_r, lookup_app_l; rewrite length_take, Hl; [|lia..].
    destruct (lookup_lt_is_Some_2 bs (Z.to_nat i - Z.to_nat o `min` Z.to_nat 512)) as [b Hb]; [lia|].
    rewrite Hb. cbn. symmetry. apply list_lookup_total_correct. rewrite <- Hb. f_equal. lia.
  - destruct (decide (i < o)).
    + rewrite lookup_app_l by (rewrite length_take; lia). by rewrite lookup_take_lt by lia.
    + rewrite lookup_app_r, lookup_app_r; rewrite ?length_take, ?Hl; [|lia..]. rewrite lookup_drop. do 2 f_equal. lia.
Qed.

(** ** A stretch of a file overwritten *)

Definition overwritten (c c' : Z -> Z) (off : Z) (bs : list Z) : Prop :=
  forall o, 0 <= o < MAXFILE * BSIZE ->
    c' o = if decide (off <= o < off + Z.of_nat (length bs)) then bs !!! Z.to_nat (o - off) else c o.

Lemma overwritten_nil c off : overwritten c c off [].
Proof. intros o _. rewrite decide_False; [done|]. cbn. lia. Qed.

Lemma overwritten_app c c1 c2 off bs1 bs2 :
  overwritten c c1 off bs1 -> overwritten c1 c2 (off + Z.of_nat (length bs1)) bs2 -> overwritten c c2 off (bs1 ++ bs2).
Proof.
  intros H1 H2 o Ho. rewrite H2, H1, length_app by done. repeat case_decide; try lia.
  - symmetry. rewrite lookup_total_app_r by lia. f_equal. lia.
  - symmetry. apply lookup_total_app_l. lia.
Qed.

(** A block of the file stored with new bytes. *)
Section stored.
Context (disksize pid : Z) (s s' : fsys) (ip : nat) (off : Z) (bs : list Z).
Let x := icache s ip.
Let a := addr_of (fview s) x (off / BSIZE).
Hypothesis (Hl : layout_ok disksize s) (Hf : file_ok s x) (Hr : same_rest s s') (Hoff : 0 <= off < MAXFILE * BSIZE) (Ha : a <> 0)
  (Hbs : off mod BSIZE + Z.of_nat (length bs) <= BSIZE) (Hblk : is_block (fview s a))
  (Hv : forall b, fview s' b = if decide (b = a) then blit_block (fview s a) (off mod BSIZE) bs else fview s b).

Lemma stored_own : owns (fview s) x a.
Proof. apply owns_addr; [by apply off_block|done]. Qed.

Lemma stored_ind : ind x <> 0 -> fview s' (ind x) = fview s (ind x).
Proof. intros Hi. rewrite Hv, decide_False; [done|]. intros E. apply (fo_ind _ _ Hf (off / BSIZE)); [by apply off_block|done|done]. Qed.

Lemma stored_mark c : 0 <= c < sb_size (sb s) -> marked s' c <-> marked s c.
Proof.
  intros Hc. unfold marked. rewrite (sr_sb _ _ Hr), Hv, decide_False; [done|]. destruct (layout_bblock _ s c Hl Hc) as [_ Hb].
  destruct (fo_blocks _ _ Hf _ stored_own) as [Hd _]. unfold is_bitmap in Hb. lia.
Qed.

Lemma stored_file : file_ok s' (icache s' ip).
Proof.
  rewrite (sr_icache _ _ Hr). pose proof (layout_pos _ _ Hl). apply (file_ok_ext s); [apply Hr|intros c Hc; by apply stored_mark|apply stored_ind|lia|done].
Qed.

Lemma stored_grows : grows ip s s'.
Proof.
  pose proof Hr as [R1 R2 R3 R4 R5]. split; rewrite ?R1; try done.
  - by destruct (icache s ip).
  - intros c Hc. by apply stored_mark.
  - intros c _ Hc. left. apply (owns_ext (fview s)) in Hc; [done|apply stored_ind].
  - intros c _ _ _ Ho. rewrite Hv, decide_False; [done|]. intros ->. apply Ho, stored_own.
Qed.

Lemma stored_content : overwritten (content (fview s) x) (content (fview s') (icache s' ip)) off bs.
Proof.
  intros o Ho. rewrite (sr_icache _ _ Hr). fold x. pose proof (off_block o Ho) as Hk. pose proof (off_block off Hoff) as Hk'.
  unfold content. rewrite (addr_of_ext (fview s)) by apply stored_ind. unfold BSIZE in *.
  pose proof (Z.mod_pos_bound off 512 ltac:(lia)). pose proof (Z.mod_pos_bound o 512 ltac:(lia)).
  pose proof (Z.div_mod off 512 ltac:(lia)). pose proof (Z.div_mod o 512 ltac:(lia)).
  destruct (Z.eqb_spec (addr_of (fview s) x (o / 512)) 0) as [Hz|Hz].
  { rewrite decide_False; [done|]. intros Hin. apply Ha. unfold a, BSIZE. replace (off / 512) with (o / 512); [done|]. lia. }
  rewrite Hv. destruct (decide (addr_of (fview s) x (o / 512) = a)) as [E|Hne].
  - assert (Ek : o / 512 = off / 512) by (by apply (fo_inj _ _ Hf)). rewrite E, get8_blit by (unfold BSIZE; done || lia).
    destruct (decide (off mod 512 <= o mod 512 < off mod 512 + Z.of_nat (length bs))).
    + rewrite decide_True by lia. f_equal. lia.
    + by rewrite decide_False by lia.
  - rewrite decide_False; [done|]. intros Hin. apply Hne. unfold a, BSIZE. f_equal. lia.
Qed.
End stored.

Section data.
Context (disksize pid : Z).

Lemma readi_loop_wp E P ip s0 fuel : forall off tot n dst (Q : list Z -> fsys -> Prop) s,
  trans disksize pid P [] s -> layout_ok disksize s0 -> (forall b, fview s b = fview s0 b) -> same_rest s0 s ->
  file_ok s0 (icache s0 ip) -> 0 <= off -> 0 <= tot <= n -> off + (n - tot) <= i_size (icache s0 ip) -> n <= 2 ^ 31 ->
  (tot < n -> off mod BSIZE + (n - tot) <= BSIZE * Z.of_nat fuel) ->
  (forall s', trans disksize pid P [] s' -> (forall b, fview s' b = fview s0 b) -> same_rest s0 s' ->
     Q (dst ++ bytes (fview s0) (icache s0 ip) off (n - tot)) s') ->
  wp E (readi_loop disksize pid fuel ip off tot n dst) Q s.
Proof.
  set (x := icache s0 ip). induction fuel as [|fuel IH]; intros off tot n dst Q s Ht Hl Hv Hr Hf Ho Htot Hoff Hn Hfuel HQ; cbn [readi_loop].
  all: destruct (Z.ltb_spec tot n) as [Hlt|Hge].
  - pose proof (Z.mod_pos_bound off BSIZE). unfold BSIZE in *. lia.
  - apply wp_ret. replace (n - tot) with 0 in HQ by lia. rewrite app_nil_r in HQ. by apply HQ.
  - destruct (chunk_spec tot off n) as (Hc1 & Hc2 & Hc3); [lia|lia|lia|]. set (m := chunk tot off n) in *.
    pose proof Hr as [R1 R2 R3 R4 R5]. pose proof (layout_pos _ _ Hl) as Hpos. pose proof (fo_size _ _ Hf) as Hsz. change (MAXFILE * BSIZE) with 71680 in Hsz.
    assert (Hk : 0 <= off / BSIZE < MAXFILE) by (apply off_block; change (MAXFILE * BSIZE) with 71680; lia).
    assert (Ha : addr_of (fview s0) x (off / BSIZE) <> 0).
    { apply (fo_full _ _ Hf); [lia|]. pose proof (Z.mul_div_le off BSIZE). unfold BSIZE in *. fold x. lia. }
    apply wp_bind, wp_gets, wp_bind. rewrite R1. fold x. apply (bmap_hit _ _ _ P); rewrite ?R1; fold x; try done.
    { apply (layout_step _ s0); [done| |done]. intros c _. by apply marked_same. }
    { apply (file_ok_same s0); [done|done|lia|done]. }
    { by rewrite (addr_of_same (fview s0)). }
    rewrite (addr_of_same (fview s0)) by done. intros s1 Ht1 Hv1 Hr1. rewrite (fo_dev _ _ Hf).
    pose proof (owns_addr _ _ _ Hk Ha) as Hown. pose proof (trans_room _ _ _ _ _ Ht).
    apply (wp_load _ _ _ _ _ _ _ _ _ Ht1); [by apply not_elem_of_nil|by apply (owned_lt _ s0 x)|cbn; lia|]. intros i s2 Ht2 Hv2 Hr2. rewrite Hv1, Hv.
    apply wp_bind, (wp_brelse _ _ _ _ _ _ _ _ _ Ht2). intros s3 Ht3 Hv3 Hr3.
    assert (Hblk : is_block (fview s0 (addr_of (fview s0) x (off / BSIZE)))) by (rewrite <- Hv; by apply (trans_view_block _ _ _ _ _ _ Ht)).
    rewrite slice_bytes by (done || lia). rewrite u32_small by (unfold is_u32; lia).
    apply IH; try done; try (unfold BSIZE in *; lia).
    + intros b. by rewrite Hv3, Hv2, Hv1.
    + by do 3 (etransitivity; [done|]).
    + intros s' Ht' Hv' Hr'. rewrite <- app_assoc, <- bytes_app by lia. replace (m + (n - (tot + m))) with (n - tot) by lia. by apply HQ.
  - apply wp_ret. replace (n - tot) with 0 in HQ by lia. rewrite app_nil_r in HQ. by apply HQ.
Qed.

(** readi of a file in range. *)
Lemma readi_wp devread E P ip off n (Q : Z * list Z -> fsys -> Prop) s :
  trans disksize pid P [] s -> layout_ok disksize s -> file_ok s (icache s ip) -> i_type (icache s ip) <> T_DEV ->
  0 <= off <= i_size (icache s ip) -> 0 <= n -> off + n < 2 ^ 32 ->
  (forall s', trans disksize pid P [] s' -> (forall b, fview s' b = fview s b) -> same_rest s s' ->
     let m := Z.min n (i_size (icache s ip) - off) in Q (m, bytes (fview s) (icache s ip) off m) s') ->
  wp E (readi disksize pid devread ip off n) Q s.
Proof.
  intros Ht Hl Hf Hty Ho Hn Hw HQ. unfold readi. apply wp_bind, wp_gets. rewrite (proj2 (Z.eqb_neq _ _) Hty).
  set (x := icache s ip) in *. pose proof (fo_size _ _ Hf) as Hsz. change (MAXFILE * BSIZE) with 71680 in Hsz. fold x in Hsz.
  rewrite (u32_small (off + n)) by (unfold is_u32; lia). rewrite Z.gtb_ltb, (proj2 (Z.ltb_ge _ _)), (proj2 (Z.ltb_ge _ _)) by lia. cbn [orb].
  replace (if off + n >? i_size x then u32 (i_size x - off) else n) with (Z.min n (i_size x - off)).
  2: { rewrite Z.gtb_ltb. destruct (Z.ltb_spec (i_size x) (off + n)); [rewrite u32_small by (unfold is_u32; lia)|]; lia. }
  set (m := Z.min n (i_size x - off)) in *. apply wp_bind. assert (Hm : 0 <= m <= 71680) by lia.
  apply (readi_loop_wp _ P ip s); try done; fold x; try lia.
  { pose proof (Z.mod_pos_bound off BSIZE). pose proof (Z.div_mod m BSIZE). pose proof (Z.mod_pos_bound m BSIZE).
    assert (0 <= m / BSIZE) by (apply Z.div_pos; [lia|done]). rewrite Nat2Z.inj_add, Z2Nat.id by done. unfold BSIZE in *. lia. }
  intros s' Ht' Hv Hr. apply wp_ret. rewrite Z.sub_0_r. rewrite s32_small by (unfold is_s32; lia). by apply HQ.
Qed.

(** From [s] to [s'] the bytes [bs] were stored in the file from [off] on. *)
Record wrote (P : list Z) (n : nat) (ip : nat) (s : fsys) (off : Z) (bs : list Z) (P' : list Z) (s' : fsys) : Prop := {
  wr_trans : trans disksize pid P' [] s';
  wr_log : (length P' <= length P + n)%nat;
  wr_layout : layout_ok disksize s';
  wr_grows : grows ip s s';
  wr_file : file_ok s' (icache s' ip);
  wr_size : i_size (icache s' ip) = i_size (icache s ip);
  wr_keep : forall k, 0 <= k < MAXFILE -> addr_of (fview s) (icache s ip) k <> 0 -> addr_of (fview s') (icache s' ip) k <> 0;
  wr_there : forall k, (0 < length bs)%nat -> off / BSIZE <= k -> k * BSIZE < off + Z.of_nat (length bs) -> addr_of (fview s') (icache s' ip) k <> 0;
  wr_inside : off + Z.of_nat (length bs) <= i_size (icache s ip) -> icache s' ip = icache s ip;
  wr_content : overwritten (content (fview s) (icache s ip)) (content (fview s') (icache s' ip)) off bs }.

Lemma wrote_trans P n m ip s off bs1 P1 s1 bs2 P2 s2 :
  0 <= off -> (0 < length bs1)%nat -> off + Z.of_nat (length bs1) + Z.of_nat (length bs2) <= MAXFILE * BSIZE ->
  wrote P n ip s off bs1 P1 s1 -> wrote P1 m ip s1 (off + Z.of_nat (length bs1)) bs2 P2 s2 -> wrote P (n + m) ip s off (bs1 ++ bs2) P2 s2.
Proof.
  intros Ho Hpos Hmax [A1 A2 A3 A4 A5 A6 A7 A8 A9 A10] [B1 B2 B3 B4 B5 B6 B7 B8 B9 B10]. split; try done.
  - lia.
  - by apply (grows_trans ip s s1).
  - congruence.
  - intros k Hk Hne. by apply B7, A7.
  - intros k _ Hk Hlt. rewrite length_app in Hlt. destruct (decide (k * BSIZE < off + Z.of_nat (length bs1))).
    + apply B7, A8; try done. assert (0 <= off / BSIZE) by (by apply Z.div_pos). change MAXFILE with 140 in *. unfold BSIZE in *. lia.
    + apply B8; [lia| |lia]. apply Z.lt_succ_r, Z.div_lt_upper_bound; unfold BSIZE in *; lia.
  - rewrite length_app. intros Hin. rewrite B9, A9; [done|lia|rewrite A6; lia].
  - by apply (overwritten_app _ (content (fview s1) (icache s1 ip))).
Qed.

(** One round of writei. *)
Lemma write_round {A} P ip off bs (k : F A) (Q : A -> fsys -> Prop) s :
  trans disksize pid P [] s -> layout_ok disksize s -> file_ok s (icache s ip) -> 0 <= off < MAXFILE * BSIZE ->
  (0 < length bs)%nat -> off mod BSIZE + Z.of_nat (length bs) <= BSIZE -> Forall is_byte bs -> Z.of_nat (length P) + 6 < log_size (flog s) ->
  (forall P' s', wrote P 6 ip s off bs P' s' -> wp out_of_blocks k Q s') ->
  wp out_of_blocks (x <- get ip ;; bn <- bmap disksize pid ip (off / BSIZE) ;; bp <- bread disksize pid (i_dev x) bn ;; d <- data_of bp ;;
    put_data bp (blit_block d (off mod BSIZE) bs) ;;; log_write bp ;;; brelse pid bp ;;; k) Q s.
Proof.
  intros Ht Hl Hf Hoff Hpos Hbs Hby Hroom HQ. pose proof (off_block off Hoff) as Hk. pose proof (fo_dev _ _ Hf) as Hdev.
  apply wp_bind, wp_gets, wp_bind. rewrite Hdev. apply (bmap_wp _ _ P ip); try done; [lia|]. intros P1 s1 He Ha Hsame.
  destruct He as [E1 E2 E3 E4 E5 E6 E7 E8]. destruct (gw_log _ _ _ E4) as [_ Esz]. set (a := addr_of _ _ _) in *.
  pose proof (owns_addr _ _ _ Hk Ha) as Hown. pose proof (trans_room _ _ _ _ _ E1). fold a in Hown.
  pose proof (trans_view_block _ _ _ _ _ a E1) as Hblk.
  apply (wp_load _ _ _ _ _ _ _ _ _ E1); [by apply not_elem_of_nil|by apply (owned_lt _ s1 (icache s1 ip))|cbn; lia|].
  intros i s2 Ht2 Hv2 Hr2. pose proof Hr2 as [R1 R2 R3 R4 R5]. assert (Hmod : 0 <= off mod BSIZE < BSIZE) by (by apply Z.mod_pos_bound).
  apply (wp_store _ _ _ _ _ _ _ _ _ _ _ Ht2); [apply blit_ok; (done || lia)|by apply (loggable_rest _ s1), (owned_loggable _ s1 (icache s1 ip))|rewrite R5; lia|].
  intros s3 Ht3 Hv3 Hr3. apply wp_bind, (wp_brelse _ _ _ _ _ _ _ _ _ Ht3). intros s4 Ht4 Hv4 Hr4.
  assert (Hr : same_rest s1 s4) by (by do 2 (etransitivity; [done|])).
  assert (Hv : forall b, fview s4 b = if decide (b = a) then blit_block (fview s1 a) (off mod BSIZE) bs else fview s1 b) by (intros b; by rewrite Hv4, Hv3, Hv2).
  pose proof (pin_length P1 a). apply (HQ (pin P1 a)). pose proof (sr_icache _ _ Hr) as Hic.
  assert (Hkeep : forall k, addr_of (fview s4) (icache s4 ip) k = addr_of (fview s1) (icache s1 ip) k).
  { intros k'. rewrite Hic. apply addr_of_ext. apply (stored_ind s1 s4 ip off bs E5 Hoff Hv). }
  split; try done.
  - lia.
  - apply (layout_step _ s1); [done| |done]. intros c Hc. by apply (stored_mark disksize s1 s4 ip off bs).
  - apply (grows_trans ip s s1); [done|]. by apply (stored_grows disksize s1 s4 ip off bs).
  - by apply (stored_file disksize s1 s4 ip off bs).
  - by rewrite Hic.
  - intros k' Hk' Hne. rewrite Hkeep, E7; done.
  - intros k' _ Hk1 Hk2. rewrite Hkeep. replace k' with (off / BSIZE); [done|]. pose proof (Z.div_mod off BSIZE). unfold BSIZE in *. lia.
  - intros Hin. rewrite Hic. apply Hsame, (fo_full _ _ Hf); [lia|]. pose proof (Z.mul_div_le off BSIZE). unfold BSIZE in *. lia.
  - intros o Ho. rewrite (stored_content s1 s4 ip off bs E5 Hr Hoff Ha Hbs Hblk Hv o Ho). case_decide; [done|]. by apply E8.
Qed.

Lemma wrote_nil P n ip off s :
  trans disksize pid P [] s -> layout_ok disksize s -> file_ok s (icache s ip) -> wrote P n ip s off [] P s.
Proof. intros Ht Hl Hf. split; try done; [lia|by apply grows_same|cbn; lia|apply overwritten_nil]. Qed.

Lemma writei_loop_wp rounds : forall fuel P ip src off tot n (Q : Z -> fsys -> Prop) s,
  trans disksize pid P [] s -> layout_ok disksize s -> file_ok s (icache s ip) -> 0 <= off -> 0 <= tot <= n -> n <= 2 ^ 31 ->
  off + (n - tot) <= MAXFILE * BSIZE -> n - tot <= Z.of_nat (length src) -> Forall is_byte src -> (rounds <= fuel)%nat ->
  (tot < n -> off mod BSIZE + (n - tot) <= BSIZE * Z.of_nat rounds) -> Z.of_nat (length P) + 6 * Z.of_nat rounds < log_size (flog s) ->
  (forall P' s', wrote P (6 * rounds) ip s off (take (Z.to_nat (n - tot)) src) P' s' -> Q (off + (n - tot)) s') ->
  wp out_of_blocks (writei_loop disksize pid fuel ip src off tot n) Q s.
Proof.
  induction rounds as [|rounds IH]; intros fuel P ip src off tot n Q s Ht Hl Hf Ho Htot Hn Hmax Hsrc Hby Hfu Hr Hroom HQ.
  all: assert (Hend : tot = n -> wp out_of_blocks (kret off) Q s) by (intros ->; apply wp_ret; rewrite Z.sub_diag, Z.add_0_r in HQ; by apply (HQ P), wrote_nil).
  - assert (tot = n) by (pose proof (Z.mod_pos_bound off BSIZE); unfold BSIZE in *; lia).
    destruct fuel; cbn [writei_loop]; rewrite (proj2 (Z.ltb_ge _ _)) by lia; by apply Hend.
  - destruct fuel as [|fuel]; [lia|]. cbn [writei_loop]. destruct (Z.ltb_spec tot n) as [Hlt|Hge]; [|apply Hend; lia]. specialize (Hr Hlt).
    destruct (chunk_spec tot off n) as (Hc1 & Hc2 & Hc3); [lia|lia|lia|]. set (m := chunk tot off n) in *.
    change (MAXFILE * BSIZE) with 71680 in Hmax. assert (Hlen : length (take (Z.to_nat m) src) = Z.to_nat m) by (rewrite length_take; lia).
    apply (write_round P ip off (take (Z.to_nat m) src)); try done; rewrite ?Hlen; try lia; [change (MAXFILE * BSIZE) with 71680; lia|by apply Forall_take|].
    intros P1 s1 W. pose proof W as [W1 W2 W3 W4 W5 W6 W7 W8 W9 W10]. destruct (gw_log _ _ _ W4) as [_ Esz]. rewrite u32_small by (unfold is_u32; lia).
    apply (IH fuel P1); try done; try lia; [change (MAXFILE * BSIZE) with 71680; lia|rewrite length_drop; lia|by apply Forall_drop|].
    intros P2 s2 W'. replace (off + m + (n - (tot + m))) with (off + (n - tot)) by lia. apply (HQ P2).
    replace (take (Z.to_nat (n - tot)) src) with (take (Z.to_nat m) src ++ take (Z.to_nat (n - (tot + m))) (drop (Z.to_nat m) src)).
    2: { rewrite take_take_drop. f_equal. lia. }
    replace (6 * S rounds)%nat with (6 + 6 * rounds)%nat by lia. apply (wrote_trans _ _ _ _ _ _ _ P1 s1); [done|lia| |done|].
    + rewrite Hlen, length_take, length_drop. change (MAXFILE * BSIZE) with 71680. lia.
    + rewrite Hlen, Z2Nat.id by lia. done.
Qed.

(** ** writei *)

Record written (s : fsys) (ip : nat) (off : Z) (bs : list Z) (s' : fsys) : Prop := {
  wn_layout : layout_ok disksize s';
  wn_file : file_ok s' (icache s' ip);
  wn_inode : icache s' ip = with_addrs (i_addrs (icache s' ip))
    (with_size (Z.max (i_size (icache s ip)) (off + Z.of_nat (length bs))) (icache s ip));
  wn_slots : forall j, j <> ip -> icache s' j = icache s j;
  wn_content : overwritten (content (fview s) (icache s ip)) (content (fview s') (icache s' ip)) off bs;
  wn_synced : inode_fits (icache s ip) -> synced s ip -> synced s' ip;
  wn_dinodes : forall j y, 0 <= j < sb_ninodes (sb s) -> j <> i_inum (icache s ip) ->
    read_dinode (fview s' (IBLOCK j (sb s))) (dinode_off j) y = read_dinode (fview s (IBLOCK j (sb s))) (dinode_off j) y;
  wn_files : forall y, file_ok s y -> (forall c, owns (fview s) (icache s ip) c -> ~ owns (fview s) y c) ->
    file_ok s' y /\ forall o, 0 <= o < MAXFILE * BSIZE -> content (fview s') y o = content (fview s) y o }.

Lemma iblock_meta s i : layout_ok disksize s -> 0 <= i < sb_ninodes (sb s) ->
  0 <= IBLOCK i (sb s) < data_lo (sb s) /\ ~ is_bitmap (sb s) (IBLOCK i (sb s)) /\ IBLOCK i (sb s) < sb_size (sb s).
Proof.
  intros Hl Hi. destruct (layout_iblock _ s i Hl Hi) as [_ Hb]. pose proof (layout_pos _ _ Hl). destruct Hl. unfold is_bitmap. lia.
Qed.

(** Metadata other than the bitmap, and other files, in a step on one file. *)
Lemma grows_meta ip s s' i : layout_ok disksize s -> file_ok s (icache s ip) -> grows ip s s' -> 0 <= i < sb_ninodes (sb s) ->
  fview s' (IBLOCK i (sb s)) = fview s (IBLOCK i (sb s)).
Proof.
  intros Hl Hf Hg Hi. destruct (iblock_meta s i Hl Hi) as (H1 & H2 & H3). apply (gw_view _ _ _ Hg); [lia|by apply (lo_meta _ _ Hl)|done|].
  intros Ho. apply (fo_blocks _ _ Hf) in Ho as [Ho _]. lia.
Qed.

Lemma grows_other ip s s' y : layout_ok disksize s -> file_ok s y -> grows ip s s' ->
  (forall c, owns (fview s) (icache s ip) c -> ~ owns (fview s) y c) -> forall c, owns (fview s) y c -> fview s' c = fview s c.
Proof.
  intros Hl Hf Hg Hd c Hc. pose proof (layout_pos _ _ Hl). destruct (fo_blocks _ _ Hf _ Hc) as [H1 H2].
  apply (gw_view _ _ _ Hg); [lia|done|unfold is_bitmap; lia|]. intros Ho. by apply (Hd c).
Qed.

Lemma other_file s s' y : layout_ok disksize s -> sb s' = sb s -> (forall c, 0 <= c < sb_size (sb s) -> marked s c -> marked s' c) ->
  (forall c, owns (fview s) y c -> fview s' c = fview s c) -> file_ok s y ->
  file_ok s' y /\ forall o, 0 <= o < MAXFILE * BSIZE -> content (fview s') y o = content (fview s) y o.
Proof.
  intros Hl Hsb Hm Hv Hf. pose proof (layout_pos _ _ Hl). split; [|by apply content_ext].
  apply (file_ok_ext s); [done|done| |lia|done]. intros Hi. by apply Hv, owns_ind.
Qed.

Lemma file_addrs_fit s x : layout_ok disksize s -> file_ok s x -> Forall is_u32 (i_addrs x).
Proof.
  intros Hl Hf. pose proof (lo_size _ _ Hl). pose proof (lo_disk _ _ Hl). pose proof (layout_pos _ _ Hl). apply Forall_lookup. intros k a Ha.
  pose proof (lookup_lt_Some _ _ _ Ha) as Hk. rewrite (fo_len _ _ Hf) in Hk. apply list_lookup_total_correct in Ha.
  destruct (decide (a = 0)) as [->|Hne]; [unfold is_u32; lia|].
  assert (Ho : owns (fview s) x a).
  { destruct (decide (k = 12%nat)) as [->|]; [subst a; by apply owns_ind|]. split; [done|]. right. exists (Z.of_nat k).
    split; [change MAXFILE with 140; lia|]. rewrite addr_direct by (unfold NDIRECT; lia). by rewrite Nat2Z.id. }
  apply (fo_blocks _ _ Hf) in Ho as [Ho _]. unfold is_u32. lia.
Qed.

Lemma written_inside P n ip s off bs P' s' :
  layout_ok disksize s -> file_ok s (icache s ip) -> 0 <= i_inum (icache s ip) < sb_ninodes (sb s) ->
  off + Z.of_nat (length bs) <= i_size (icache s ip) -> wrote P n ip s off bs P' s' -> written s ip off bs s'.
Proof.
  intros Hl Hf Hi Hin [W1 W2 W3 W4 W5 W6 W7 W8 W9 W10]. specialize (W9 Hin). pose proof (gw_sb _ _ _ W4) as Hsb. split; try done.
  - rewrite W9, Z.max_l by done. by destruct (icache s ip).
  - apply W4.
  - intros _ Hs. unfold synced in *. cbv zeta in *. rewrite W9, Hsb, (grows_meta ip s s'); done.
  - intros j y Hj _. by rewrite (grows_meta ip s).
  - intros y Hy Hd. apply other_file; try done; [apply W4|]. by apply (grows_other ip s).
Qed.

Lemma file_ok_resize s x z : file_ok s x -> 0 <= z <= MAXFILE * BSIZE ->
  (forall k, 0 <= k -> k * BSIZE < z -> addr_of (fview s) x k <> 0) -> file_ok s (with_size z x).
Proof. by intros [F1 F2 F3 F4 F5 F6 F7] Hz Hk. Qed.

Lemma updated_mark ip s s' c : layout_ok disksize s -> 0 <= i_inum (icache s ip) < sb_ninodes (sb s) -> updated ip s s' ->
  0 <= c < sb_size (sb s) -> marked s' c <-> marked s c.
Proof.
  intros Hl Hi [[_ _ U1 _ _] U2 _ _ _] Hc. unfold marked. rewrite U1, U2; [done|]. destruct (layout_bblock _ s c Hl Hc) as [_ Hb].
  intros E. rewrite E in Hb. by apply (iblock_meta s _ Hl Hi).
Qed.

Lemma updated_file ip s s' y : layout_ok disksize s -> 0 <= i_inum (icache s ip) < sb_ninodes (sb s) -> updated ip s s' -> file_ok s y ->
  file_ok s' y /\ forall o, 0 <= o < MAXFILE * BSIZE -> content (fview s') y o = content (fview s) y o.
Proof.
  intros Hl Hi U Hf. apply (other_file s); try done; [apply U|intros c Hc; by apply (updated_mark ip)|].
  intros c Hc. apply U. apply (fo_blocks _ _ Hf) in Hc as [Hc _]. destruct (iblock_meta s _ Hl Hi). lia.
Qed.

Lemma updated_layout ip s s' : layout_ok disksize s -> 0 <= i_inum (icache s ip) < sb_ninodes (sb s) -> updated ip s s' -> layout_ok disksize s'.
Proof. intros Hl Hi U. apply (layout_step _ s); [apply U| |done]. intros c Hc. by apply (updated_mark ip). Qed.

(** The file with its new size, before iupdate. *)
Lemma wrote_resize P n ip s off bs P1 s1 :
  file_ok s (icache s ip) -> 0 <= off <= i_size (icache s ip) -> (0 < length bs)%nat -> i_size (icache s ip) < off + Z.of_nat (length bs) <= MAXFILE * BSIZE ->
  wrote P n ip s off bs P1 s1 -> file_ok s1 (with_size (off + Z.of_nat (length bs)) (icache s1 ip)).
Proof.
  intros Hf Ho Hpos Hz [W1 W2 W3 W4 W5 W6 W7 W8 W9 W10]. apply file_ok_resize; [done|lia|]. intros k Hk Hlt.
  destruct (decide (k * BSIZE < i_size (icache s1 ip))); [by apply (fo_full _ _ W5)|]. apply W8; [done| |done].
  apply Z.lt_succ_r, Z.div_lt_upper_bound; [done|]. rewrite W6 in *. unfold BSIZE in *. lia.
Qed.

Lemma written_grown P n ip s off bs P1 s1 s3 :
  layout_ok disksize s -> file_ok s (icache s ip) -> 0 <= i_inum (icache s ip) < sb_ninodes (sb s) -> 0 <= off <= i_size (icache s ip) ->
  (0 < length bs)%nat -> i_size (icache s ip) < off + Z.of_nat (length bs) <= MAXFILE * BSIZE -> wrote P n ip s off bs P1 s1 ->
  updated ip (set_inode ip (with_size (off + Z.of_nat (length bs)) (icache s1 ip)) s1) s3 -> written s ip off bs s3.
Proof.
  intros Hl Hf Hi Ho Hpos Hz W U. set (z := off + Z.of_nat (length bs)) in *. set (x2 := with_size z (icache s1 ip)) in *. set (s2 := set_inode ip x2 s1) in *.
  pose proof (wrote_resize _ _ _ _ _ _ _ _ Hf Ho Hpos Hz W) as Hf2. fold z x2 in Hf2. pose proof W as [W1 W2 W3 W4 W5 W6 W7 W8 W9 W10].
  pose proof (gw_sb _ _ _ W4) as Hsb. assert (Ex : icache s2 ip = x2) by apply fn_lookup_insert. pose proof U as [[U1 U2 U3 U4 U5] U6 U7 _ U8].
  assert (Eg : with_addrs (i_addrs (icache s1 ip)) (with_size (i_size (icache s1 ip)) (icache s ip)) = icache s1 ip) by (symmetry; apply W4).
  assert (Ei : i_inum x2 = i_inum (icache s ip)) by (cbn; by rewrite <- Eg).
  assert (Hl2 : layout_ok disksize s2) by (destruct W3; by split).
  assert (Hi2 : 0 <= i_inum (icache s2 ip) < sb_ninodes (sb s2)) by (rewrite Ex, Ei; cbn; by rewrite Hsb).
  assert (Hf2' : file_ok s2 x2) by (by destruct Hf2). destruct (updated_file ip s2 s3 x2 Hl2 Hi2 U Hf2') as [Hf3 Hc3].
  pose proof (updated_layout ip s2 s3 Hl2 Hi2 U) as Hl3.
  rewrite Ex in *. assert (Hx3 : icache s3 ip = x2) by (by rewrite U1). split; rewrite ?Hx3; try done.
  - rewrite Z.max_r by lia. fold z. unfold x2. rewrite <- Eg. by destruct (icache s ip).
  - intros j Hj. rewrite U1. cbn. rewrite fn_lookup_insert_ne by done. by apply (gw_slots _ _ _ W4).
  - intros o Hoo. rewrite Hc3 by done. apply (W10 o Hoo).
  - intros [] _. apply U8. split; unfold x2; cbn; try (rewrite <- Eg; done).
    + change (MAXFILE * BSIZE) with 71680 in *. unfold is_u32. lia.
    + apply W5.
    + by apply (file_addrs_fit s1).
  - intros j y Hj Hne. change (sb s2) with (sb s1) in U7. rewrite Hsb, Ei in U7. rewrite U7 by done. change (fview s2) with (fview s1). by rewrite (grows_meta ip s s1).
  - intros y Hy Hd. destruct (other_file s s1 y Hl Hsb (gw_mark _ _ _ W4) (grows_other ip s s1 y Hl Hy W4 Hd) Hy) as [H1 H2].
    destruct (updated_file ip s2 s3 y Hl2) as [H3 H4]; [by rewrite Ex|done|by destruct H1|]. split; [done|]. intros o Hoo. rewrite H4 by done. by apply H2.
Qed.

(** The rounds of a write: the blocks that it touches. *)
Definition rounds (off n : Z) : nat := Z.to_nat ((off mod BSIZE + n + BSIZE - 1) / BSIZE).

Lemma rounds_spec off n : 0 <= off -> 0 <= n ->
  off mod BSIZE + n <= BSIZE * Z.of_nat (rounds off n) /\ (rounds off n <= Z.to_nat (n / BSIZE) + 2)%nat.
Proof.
  intros Ho Hn. unfold rounds, BSIZE. pose proof (Z.mod_pos_bound off 512 ltac:(lia)).
  assert (0 <= (off mod 512 + n + 512 - 1) / 512) by (apply Z.div_pos; lia). assert (0 <= n / 512) by (apply Z.div_pos; lia).
  Z.to_euclidean_division_equations. lia.
Qed.

Lemma writei_wp devwrite P ip src off n (Q : Z -> fsys -> Prop) s :
  trans disksize pid P [] s -> layout_ok disksize s -> file_ok s (icache s ip) -> i_type (icache s ip) <> T_DEV ->
  0 <= i_inum (icache s ip) < sb_ninodes (sb s) -> 0 <= off <= i_size (icache s ip) -> 0 <= n -> off + n <= MAXFILE * BSIZE ->
  n <= Z.of_nat (length src) -> Forall is_byte src -> Z.of_nat (length P) + 6 * Z.of_nat (rounds off n) + 1 < log_size (flog s) ->
  (forall P' s', trans disksize pid P' [] s' -> (length P' <= length P + 6 * rounds off n + 1)%nat ->
     written s ip off (take (Z.to_nat n) src) s' -> Q n s') ->
  wp out_of_blocks (writei disksize pid devwrite ip src off n) Q s.
Proof.
  intros Ht Hl Hf Hty Hi Ho Hn Hmax Hsrc Hby Hroom HQ. unfold writei. apply wp_bind, wp_gets. rewrite (proj2 (Z.eqb_neq _ _) Hty).
  pose proof Hmax as Hmax'. change (MAXFILE * BSIZE) with 71680 in Hmax'. rewrite u32_small by (unfold is_u32; lia).
  rewrite !Z.gtb_ltb, (proj2 (Z.ltb_ge (i_size _) off)), (proj2 (Z.ltb_ge _ off)), (proj2 (Z.ltb_ge _ (off + n))) by lia. cbn [orb].
  destruct (rounds_spec off n) as [Hr1 Hr2]; [lia|lia|]. set (bs := take (Z.to_nat n) src) in *. assert (Hlen : Z.of_nat (length bs) = n) by (unfold bs; rewrite length_take; lia).
  apply wp_bind, (writei_loop_wp (rounds off n) _ P); try done; try lia; rewrite ?Z.sub_0_r; fold bs.
  intros P1 s1 W. apply wp_bind, wp_gets, wp_bind. rewrite s32_small by (unfold is_s32; lia). pose proof (wr_size _ _ _ _ _ _ _ _ W) as Hsz.
  rewrite !Z.gtb_ltb, Hsz. destruct (Z.ltb_spec (i_size (icache s ip)) (off + n)) as [Hgt|Hle].
  - rewrite (proj2 (Z.ltb_lt 0 n)) by lia. cbn [andb]. apply wp_bind, wp_modify. pose proof W as [W1 W2 W3 W4 W5 _ _ _ _ _].
    destruct (gw_log _ _ _ W4) as [_ Els]. set (s2 := set_inode _ _ _). assert (Ex : icache s2 ip = with_size (off + n) (icache s1 ip)) by apply fn_lookup_insert.
    assert (Ei : i_inum (icache s2 ip) = i_inum (icache s ip)) by (rewrite Ex; cbn; by rewrite (gw_inode _ _ _ W4)).
    apply (iupdate_wp _ _ _ P1).
    + by apply trans_inode.
    + by destruct W3.
    + rewrite Ex. apply W5.
    + rewrite Ei. cbn. by rewrite (gw_sb _ _ _ W4).
    + cbn. rewrite Els. lia.
    + intros P2 s3 Ht3 Hp3 U. apply wp_ret, (HQ P2); [done|lia|]. unfold s2 in U. rewrite <- Hlen in U, Hgt. apply (written_grown P (6 * rounds off n) ip s off bs P1 s1); try done; lia.
  - rewrite andb_false_r. apply wp_ret, wp_ret, (HQ P1); [apply W|apply wr_log in W; lia|]. apply (written_inside P (6 * rounds off n) ip s off bs P1); try done. lia.
Qed.
End data.
