(* ===== verification/FsDir.v ===== *)
(** * Directories

    A directory as the list of its 16-byte entries: dirlookup finds the
    first entry in use with the name, dirlink fills the first free one, and
    after dirlink the directory maps the new name to its inode and every
    other name to what it was. *)

From S2P Require Import Prelude Mem Block Bio Log LogFacts Fs FsBlocks FsAlloc FsFiles FsInode FsData.
#[local] Open Scope Z_scope.
#[local] Open Scope kernel_scope.

(** ** Names *)

(** A C string in an array: the bytes before the first NUL. *)
Fixpoint cname (l : list Z) : list Z :=
  match l with
  | [] => []
  | c :: l => if c =? 0 then [] else c :: cname l
  end.

(** What of a name counts in a directory. *)
Definition short (name : list Z) : list Z := take 14 (cname name).

Lemma cname_spec l : (forall i c, cname l !! i = Some c -> l !! i = Some c /\ c <> 0) /\ default 0 (l !! length (cname l)) = 0
  /\ (length (cname l) <= length l)%nat.
Proof.
  induction l as [|c l (IH1 & IH2 & IH3)]; [done|]. cbn [cname]. destruct (Z.eqb_spec c 0) as [->|Hc]; [split; [done|]; cbn; split; [done|lia]|].
  split; [|split; [done|cbn; lia]]. intros [|i] c' Hi; cbn in *; [by injection Hi as <-|by apply IH1].
Qed.

Lemma cname_all l : (forall c, c ∈ l -> c <> 0) -> cname l = l.
Proof.
  induction l as [|c l IH]; intros H; [done|]. cbn. rewrite (proj2 (Z.eqb_neq c 0)) by (apply H; left). f_equal. apply IH. intros c' Hc'. apply H. by right.
Qed.

Lemma cname_nonzero l c : c ∈ cname l -> c <> 0.
Proof. intros [i Hi]%list_elem_of_lookup. by apply (proj1 (cname_spec l)) in Hi as [_ Hi]. Qed.

Lemma cname_terminated l t : (forall c, c ∈ l -> c <> 0) -> cname (l ++ 0 :: t) = l.
Proof.
  induction l as [|c l IH]; intros H; [done|]. cbn. rewrite (proj2 (Z.eqb_neq c 0)) by (apply H; left). f_equal. apply IH. intros c' Hc'. apply H. by right.
Qed.

Lemma cname_app_zeros l n : (forall c, c ∈ l -> c <> 0) -> cname (l ++ replicate n 0) = l.
Proof. intros H. destruct n; [rewrite app_nil_r; by apply cname_all|by apply cname_terminated]. Qed.

Lemma cstr_left s t : (length s < 64)%nat -> cstr (side_by_side s t) 0 (cname s).
Proof.
  intros Hs. destruct (cname_spec s) as (H1 & H2 & H3). unfold side_by_side. split.
  - intros i c Hi. pose proof (lookup_lt_Some _ _ _ Hi). apply H1 in Hi as [Hi Hc]. rewrite (proj2 (Z.ltb_lt _ _)) by lia.
    replace (Z.to_nat (0 + Z.of_nat i)) with i by lia. by rewrite Hi.
  - rewrite (proj2 (Z.ltb_lt _ _)) by lia. replace (Z.to_nat (0 + Z.of_nat (length (cname s)))) with (length (cname s)) by lia. done.
Qed.

Lemma cstr_right s t : cstr (side_by_side s t) 64 (cname t).
Proof.
  destruct (cname_spec t) as (H1 & H2 & H3). unfold side_by_side. split.
  - intros i c Hi. apply H1 in Hi as [Hi Hc]. rewrite (proj2 (Z.ltb_ge _ _)) by lia.
    replace (Z.to_nat (64 + Z.of_nat i - 64)) with i by lia. by rewrite Hi.
  - rewrite (proj2 (Z.ltb_ge _ _)) by lia. replace (Z.to_nat (64 + Z.of_nat (length (cname t)) - 64)) with (length (cname t)) by lia. done.
Qed.

Lemma namecmp_eq s t : (length s < 64)%nat -> (namecmp s t =? 0) = bool_decide (short s = short t).
Proof.
  intros Hs. unfold namecmp. apply eq_iff_eq_true. rewrite Z.eqb_eq, bool_decide_eq_true.
  apply (StringSpec.strncmp_eq _ 0 64 (cname s) (cname t) 14); [by apply cstr_left|apply cstr_right].
Qed.

Lemma dirent_name_eq name : dirent_name name = short name ++ replicate (14 - length (short name)) 0.
Proof.
  unfold dirent_name, short. set (l := cname name). apply list_eq. intros i. rewrite list_lookup_fmap. destruct (decide (i < 14)%nat) as [Hi|Hi].
  - rewrite lookup_seq_lt by (done || (change (Z.to_nat DIRSIZ) with 14%nat; lia)). cbn [fmap option_fmap option_map].
    rewrite (StringSpec.strncpy_bytes _ 0 64 l DIRSIZ) by (apply cstr_right || (unfold DIRSIZ; lia)).
    rewrite (proj2 (Z.leb_le 0 _)), (proj2 (Z.ltb_lt _ _)) by (unfold DIRSIZ; lia). cbn [andb].
    replace (Z.to_nat (Z.of_nat (0 + i) - 0)) with i by lia. destruct (l !! i) as [c|] eqn:E.
    + rewrite lookup_app_l by (rewrite length_take; apply lookup_lt_Some in E; lia). by rewrite lookup_take_lt, E.
    + pose proof E as Hge. apply lookup_ge_None in Hge. rewrite lookup_app_r by (rewrite length_take; lia). rewrite length_take. symmetry. apply lookup_replicate_2. lia.
  - rewrite lookup_seq_ge by (change (Z.to_nat DIRSIZ) with 14%nat; lia). symmetry. apply lookup_ge_None. rewrite length_app, length_replicate, length_take. lia.
Qed.

Lemma length_dirent_name name : length (dirent_name name) = 14%nat.
Proof. unfold dirent_name. by rewrite length_map, length_seq. Qed.

(** An entry written by dirlink reads back. *)
Lemma length_dirent inum name : length (dirent inum name) = 16%nat.
Proof. unfold dirent. by rewrite length_app, length_dirent_name. Qed.

Lemma dirent_inum inum name : de_inum (dirent inum name) = u16 inum.
Proof.
  change (u8 inum + 256 * u8 (Z.shiftr inum 8) = u16 inum). unfold u8, u16. rewrite Z.shiftr_div_pow2 by lia.
  change (2 ^ 8) with 256. change (2 ^ 16) with 65536. Z.to_euclidean_division_equations. lia.
Qed.

Lemma short_nonzero name c : c ∈ short name -> c <> 0.
Proof. intros Hc. apply (cname_nonzero name). apply (subseteq_take 14 (cname name)), Hc. Qed.

Lemma dirent_short inum name : short (de_name (dirent inum name)) = short name.
Proof.
  change (short (take 14 (dirent_name name)) = short name). rewrite take_ge by (rewrite length_dirent_name; lia).
  unfold short at 1. rewrite dirent_name_eq, cname_app_zeros by apply short_nonzero.
  apply take_ge. unfold short. rewrite length_take. lia.
Qed.

(** ** The entries of a directory *)

Definition entry (v : Z -> block) (x : inode) (k : nat) : list Z := bytes v x (16 * Z.of_nat k) 16.
Definition count (x : inode) : nat := Z.to_nat (i_size x / 16).
Definition entries (v : Z -> block) (x : inode) : list (list Z) := map (entry v x) (seq 0 (count x)).

Lemma entries_lookup v x k e : entries v x !! k = Some e <-> (k < count x)%nat /\ e = entry v x k.
Proof.
  unfold entries. rewrite list_lookup_fmap. destruct (decide (k < count x)%nat).
  - rewrite lookup_seq_lt by done. cbn. split; [by intros [= <-]|by intros [_ ->]].
  - rewrite lookup_seq_ge by lia. split; [done|lia].
Qed.

Lemma length_entries v x : length (entries v x) = count x.
Proof. unfold entries. by rewrite length_map, length_seq. Qed.

(** The first entry in use with the name: its index and its inode. *)
Definition is_named (name de : list Z) : Prop := de_inum de <> 0 /\ short name = short (de_name de).
#[export] Instance is_named_dec name de : Decision (is_named name de) := and_dec _ _.
Definition dir_find (name : list Z) (es : list (list Z)) : option (nat * Z) :=
  (fun '(k, de) => (k, de_inum de)) <$> list_find (is_named name) es.

Record dir_ok (s : fsys) (x : inode) : Prop := {
  do_file : file_ok s x;
  do_type : i_type x = T_DIR;
  do_size : i_size x mod 16 = 0 }.

Section scan.
Context (disksize pid : Z) (devread : Z -> option (nat -> Z -> F (Z * list Z))) (E : string -> Prop).

(** A search of the directory in [s0], as in dirlookup and dirlink. *)
Context {B : Type} (P : list Z) (dp : nat) (s0 : fsys) (msg : string) (p : list Z -> Prop) `{!forall de, Decision (p de)} (h : Z -> list Z -> F (option B)).
Let x := icache s0 dp.
Let same (s : fsys) : Prop := trans disksize pid P [] s /\ (forall b, fview s b = fview s0 b) /\ same_rest s0 s.
Hypothesis (Hl : layout_ok disksize s0) (Hd : dir_ok s0 x) (Hskip : forall off de, ~ p de -> h off de = kret None).

Lemma scan_from (Q : option B -> fsys -> Prop) n : forall k s, (k + n = count x)%nat -> same s ->
  (forall j, (j < k)%nat -> ~ p (entry (fview s0) x j)) ->
  (forall j s', list_find p (entries (fview s0) x) = Some (j, entry (fview s0) x j) -> same s' ->
     wp E (h (16 * Z.of_nat j) (entry (fview s0) x j)) (fun r s'' => match r with Some b => Q (Some b) s'' | None => False end) s') ->
  (list_find p (entries (fview s0) x) = None -> forall s', same s' -> Q None s') ->
  wp E (first_of (map (fun j => 0 + 16 * Z.of_nat j) (seq k n)) (fun off =>
    '(r, de) <- readi disksize pid devread dp off DIRENT ;; if negb (r =? DIRENT) then panic msg else h off de)) Q s.
Proof.
  induction n as [|n IH]; intros k s Hk (Ht & Hv & Hr) Hpre Hfound Hnone.
  - apply wp_ret, Hnone; [|done]. apply list_find_None, Forall_lookup. intros j e [Hj ->]%entries_lookup. apply Hpre. lia.
  - cbn [seq map first_of]. apply wp_bind, wp_bind. pose proof Hd as [Hf Hty Hsz]. rewrite Z.add_0_l.
    assert (Hmax : 16 * Z.of_nat k + 16 <= i_size x).
    { pose proof (fo_size _ _ Hf). pose proof (Z.div_mod (i_size x) 16 ltac:(lia)). unfold count in Hk. fold x in Hsz. lia. }
    pose proof (fo_size _ _ Hf) as Hsize. change (MAXFILE * BSIZE) with 71680 in Hsize. pose proof Hr as [R1 R2 R3 R4 R5]. pose proof (layout_pos _ _ Hl).
    assert (Hl' : layout_ok disksize s) by (apply (layout_step _ s0); [done| |done]; intros c _; by apply marked_same).
    apply (readi_wp _ _ devread _ P); rewrite ?R1; fold x; try done; unfold DIRENT; try lia.
    { apply (file_ok_same s0); [done|done|lia|done]. }
    { rewrite Hty. done. }
    rewrite Z.min_l by lia. intros s1 Ht1 Hv1 Hr1. cbn [negb Z.eqb Pos.eqb].
    replace (bytes (fview s) x (16 * Z.of_nat k) 16) with (entry (fview s0) x k).
    2: { symmetry. apply bytes_ext. intros o Ho. apply content_ext; [done|]. change (MAXFILE * BSIZE) with 71680. lia. }
    assert (Hs1 : same s1) by (split; [done|split; [intros b; by rewrite Hv1|by transitivity s]]).
    assert (Hin : entries (fview s0) x !! k = Some (entry (fview s0) x k)) by (apply entries_lookup; split; [lia|done]).
    destruct (decide (p (entry (fview s0) x k))) as [Hp|Hp].
    + eapply wp_mono; [apply Hfound; [|done]|intros [b|] s2; [by intros HQ; apply wp_ret|done]].
      apply list_find_Some. split; [done|]. split; [done|]. intros j e [_ ->]%entries_lookup Hj. by apply Hpre.
    + rewrite Hskip by done. apply wp_ret. apply IH; [lia|done| |done|done].
      intros j Hj. destruct (decide (j = k)) as [->|]; [done|]. apply Hpre. lia.
Qed.

Lemma wp_scan (Q : option B -> fsys -> Prop) :
  trans disksize pid P [] s0 ->
  (forall j s', list_find p (entries (fview s0) x) = Some (j, entry (fview s0) x j) -> same s' ->
     wp E (h (16 * Z.of_nat j) (entry (fview s0) x j)) (fun r s'' => match r with Some b => Q (Some b) s'' | None => False end) s') ->
  (list_find p (entries (fview s0) x) = None -> forall s', same s' -> Q None s') ->
  wp E (first_of (steps 0 (i_size x) DIRENT) (fun off =>
    '(r, de) <- readi disksize pid devread dp off DIRENT ;; if negb (r =? DIRENT) then panic msg else h off de)) Q s0.
Proof.
  intros Ht Hfound Hnone. unfold steps. pose proof (do_size _ _ Hd). pose proof (fo_size _ _ (do_file _ _ Hd)).
  replace (Z.to_nat ((i_size x - 0 + DIRENT - 1) / DIRENT)) with (count x).
  2: { unfold count, DIRENT. f_equal. Z.to_euclidean_division_equations. lia. }
  apply scan_from; [done|split; [done|split; done]|lia|done|done].
Qed.
End scan.

(** ** dirlink on the list of entries *)

Definition is_free (de : list Z) : Prop := de_inum de = 0.
#[export] Instance is_free_dec de : Decision (is_free de) := decide (_ = _).
Definition free_slot (es : list (list Z)) : nat := match list_find is_free es with Some (k, _) => k | None => length es end.
Definition linked (es : list (list Z)) (d : list Z) : list (list Z) :=
  if decide (free_slot es < length es)%nat then <[free_slot es := d]> es else es ++ [d].

Lemma dir_find_cons name e es :
  dir_find name (e :: es) = if decide (is_named name e) then Some (0%nat, de_inum e) else prod_map S id <$> dir_find name es.
Proof. unfold dir_find. cbn. case_decide; [done|]. by destruct (list_find _ es) as [[k d]|]. Qed.

Lemma free_slot_cons e es : free_slot (e :: es) = if decide (is_free e) then 0%nat else S (free_slot es).
Proof. unfold free_slot. cbn. case_decide; [done|]. by destruct (list_find _ es) as [[k d]|]. Qed.

Lemma linked_cons e es d : linked (e :: es) d = if decide (is_free e) then d :: es else e :: linked es d.
Proof.
  unfold linked. rewrite free_slot_cons. cbn [length]. destruct (decide (is_free e)); [by rewrite decide_True by lia|].
  destruct (decide (free_slot es < length es)%nat); [by rewrite decide_True by lia|by rewrite decide_False by lia].
Qed.

Lemma free_slot_le es : (free_slot es <= length es)%nat.
Proof. induction es as [|e es IH]; [done|]. rewrite free_slot_cons. case_decide; cbn; lia. Qed.

Lemma dir_find_linked es d name name' :
  de_inum d <> 0 -> short (de_name d) = short name -> dir_find name es = None ->
  dir_find name' (linked es d) = if decide (short name' = short name) then Some (free_slot es, de_inum d) else dir_find name' es.
Proof.
  intros Hd Hname. assert (Hnew : is_named name' d <-> short name' = short name).
  { unfold is_named. rewrite Hname. tauto. }
  induction es as [|e es IH]; intros Hnone.
  - change (linked [] d) with [d]. rewrite dir_find_cons. by destruct (decide (is_named name' d)), (decide (short name' = short name)); try tauto.
  - rewrite dir_find_cons in Hnone. case_decide as Hn; [done|]. apply fmap_None in Hnone. specialize (IH Hnone).
    rewrite linked_cons, free_slot_cons, (dir_find_cons name' e). destruct (decide (is_free e)) as [Hf|Hf].
    + rewrite dir_find_cons. rewrite (decide_False (P := is_named name' e)) by (intros [He _]; done).
      by destruct (decide (is_named name' d)), (decide (short name' = short name)); try tauto.
    + rewrite dir_find_cons, IH. destruct (decide (is_named name' e)) as [[He Hs]|]; [|by destruct (decide (short name' = short name))].
      rewrite decide_False; [done|]. intros Heq. apply Hn. split; [done|]. congruence.
Qed.

(** The entries after the 16 bytes of one were written. *)
Lemma entries_written v x v' x' slot d :
  (slot <= count x)%nat -> length d = 16%nat -> 16 * Z.of_nat slot + 16 <= MAXFILE * BSIZE -> 0 <= i_size x <= MAXFILE * BSIZE -> i_size x mod 16 = 0 ->
  i_size x' = Z.max (i_size x) (16 * Z.of_nat slot + 16) ->
  overwritten (content v x) (content v' x') (16 * Z.of_nat slot) d ->
  entries v' x' = if decide (slot < count x)%nat then <[slot := d]> (entries v x) else entries v x ++ [d].
Proof.
  intros Hs Hd Hmax Hsz Hmod Hsize Ho. change (MAXFILE * BSIZE) with 71680 in *.
  assert (Hcnt : count x' = Nat.max (count x) (S slot)).
  { unfold count in *. rewrite Hsize. Z.to_euclidean_division_equations. lia. }
  assert (Hc : i_size x = 16 * Z.of_nat (count x)) by (unfold count; Z.to_euclidean_division_equations; lia).
  assert (He : forall k, (k < count x')%nat -> entry v' x' k = if decide (k = slot) then d else entry v x k).
  { intros k Hk. case_decide as E.
    - subst k. apply list_eq. intros i. unfold entry, bytes. rewrite list_lookup_fmap. destruct (decide (i < 16)%nat).
      + rewrite lookup_seq_lt by (done || (change (Z.to_nat 16) with 16%nat; lia)). cbn [fmap option_fmap option_map]. rewrite Ho, decide_True by (change (MAXFILE * BSIZE) with 71680; lia).
        replace (Z.to_nat (16 * Z.of_nat slot + Z.of_nat (0 + i) - 16 * Z.of_nat slot)) with i by lia. symmetry. apply list_lookup_lookup_total_lt. lia.
      + rewrite lookup_seq_ge by (change (Z.to_nat 16) with 16%nat; lia). symmetry. apply lookup_ge_None. lia.
    - apply bytes_ext. intros o Hoo. rewrite Ho by (change (MAXFILE * BSIZE) with 71680; lia). by rewrite decide_False by lia. }
  apply list_eq. intros k. apply option_eq. intros e. rewrite entries_lookup. rewrite Hcnt in *. case_decide as Hlt.
  - destruct (decide (k = slot)) as [->|Hne].
    + rewrite list_lookup_insert_eq by (by rewrite length_entries). rewrite He, decide_True by (done || lia). split; [by intros [_ ->]|intros [= <-]; split; [lia|done]].
    + rewrite list_lookup_insert_ne, entries_lookup by done. split; intros [Hk ->]; (split; [lia|]); rewrite He, decide_False by (done || lia); done.
  - assert (slot = count x) as -> by lia. destruct (decide (k < count x)%nat) as [Hk|Hk].
    + rewrite lookup_app_l, entries_lookup by (by rewrite length_entries). split; intros [_ ->]; (split; [lia|]); rewrite He, decide_False by lia; done.
    + rewrite lookup_app_r, length_entries by (rewrite length_entries; lia). destruct (decide (k = count x)) as [->|Hne].
      * rewrite Nat.sub_diag. cbn. rewrite He, decide_True by (done || lia). split; [by intros [_ ->]|intros [= <-]; split; [lia|done]].
      * split; [intros [? _]; lia|]. intros Hl. apply list_lookup_singleton_Some in Hl as [Hl _]. lia.
Qed.

(** ** The inode cache *)

(** Slot [x] is in use for inode [inum] of device [dv]. *)
Definition in_use_for (x : inode) (dv inum : Z) : Prop := 0 < i_ref x /\ i_dev x = dv /\ i_inum x = inum.

Lemma in_use_for_bool x dv inum : (i_ref x >? 0) && (i_dev x =? dv) && (i_inum x =? inum) = true <-> in_use_for x dv inum.
Proof. unfold in_use_for. rewrite !andb_true_iff, Z.gtb_ltb, Z.ltb_lt, !Z.eqb_eq. tauto. Qed.

Lemma iget_scan_spec c dv inum todo : forall i empty, (forall k, empty = Some k -> i_ref (c k) = 0) ->
  match iget_scan c dv inum i todo empty with
  | inl ip => (i <= ip < i + todo)%nat /\ in_use_for (c ip) dv inum
  | inr r => (forall k, (i <= k < i + todo)%nat -> ~ in_use_for (c k) dv inum)
      /\ match r with
         | Some k => i_ref (c k) = 0 /\ (empty = Some k \/ (i <= k < i + todo)%nat)
         | None => empty = None /\ forall k, (i <= k < i + todo)%nat -> i_ref (c k) <> 0
         end
  end.
Proof.
  induction todo as [|todo IH]; intros i empty Hemp; cbn [iget_scan].
  - split; [lia|]. destruct empty as [k|]; [split; [by apply Hemp|by left]|split; [done|lia]].
  - destruct (_ && _) eqn:E; [split; [lia|by apply in_use_for_bool]|].
    assert (Hno : ~ in_use_for (c i) dv inum) by (rewrite <- in_use_for_bool, E; done).
    set (empty' := if i_ref (c i) =? 0 then match empty with None => Some i | Some _ => empty end else empty).
    assert (Hemp' : forall k, empty' = Some k -> i_ref (c k) = 0).
    { intros k. unfold empty'. destruct (Z.eqb_spec (i_ref (c i)) 0); [destruct empty as [k'|]; [apply Hemp|by intros [= <-]]|apply Hemp]. }
    specialize (IH (S i) empty' Hemp'). destruct (iget_scan _ _ _ _ _ _) as [ip|[k|]].
    + destruct IH as [H1 H2]. split; [lia|done].
    + destruct IH as [H1 [H2 H3]]. split; [|split; [done|]].
      * intros k' Hk'. destruct (decide (k' = i)) as [->|]; [done|]. apply H1. lia.
      * destruct H3 as [H3|H3]; [|right; lia]. unfold empty' in H3. destruct (i_ref (c i) =? 0); [destruct empty as [k'|]; [by left|injection H3 as <-; right; lia]|by left].
    + destruct IH as [H1 [H2 H3]]. unfold empty' in H2. destruct (Z.eqb_spec (i_ref (c i)) 0) as [Hz|Hz]; [by destruct empty|].
      split; [|split; [done|]]; intros k' Hk'; (destruct (decide (k' = i)) as [->|]; [done|]); [apply H1|apply H3]; lia.
Qed.

(** What a slot becomes when iget hands it out. *)
Definition got (c : nat -> inode) (dv inum : Z) (ip : nat) : inode :=
  if decide (i_ref (c ip) = 0) then with_ident dv inum (c ip) else with_ref (i_ref (c ip) + 1) (c ip).

Lemma iget_ok dv inum s : ic_locked s = false ->
  match iget_scan (icache s) dv inum 0 NINODE None with
  | inl ip => iget dv inum s = Ok ip (set_iclock false (set_inode ip (with_ref (i_ref (icache s ip) + 1) (icache s ip)) (set_iclock true s)))
  | inr (Some ip) => iget dv inum s = Ok ip (set_iclock false (set_inode ip (with_ident dv inum (icache s ip)) (set_iclock true s)))
  | inr None => iget dv inum s = Panic "iget: no inodes"
  end.
Proof.
  intros Hlk. unfold iget, acquire, release, upd_inode, kbind, gets, modify. rewrite Hlk. cbn [icache set_iclock].
  by destruct (iget_scan _ _ _ _ _ _) as [ip|[ip|]].
Qed.

Lemma iget_total dv inum s : match iget dv inum s with Ok _ _ | Panic _ => True | _ => False end.
Proof.
  destruct (ic_locked s) eqn:Hlk; [unfold iget, acquire, kbind, gets; by rewrite Hlk|]. pose proof (iget_ok dv inum s Hlk) as H.
  by destruct (iget_scan _ _ _ _ _ _) as [ip|[ip|]]; rewrite H.
Qed.

Section dirs.
Context (disksize pid : Z) (devread : Z -> option (nat -> Z -> F (Z * list Z))) (devwrite : Z -> option (nat -> list Z -> Z -> F Z)).

Definition unchanged (P : list Z) (s0 s : fsys) : Prop :=
  trans disksize pid P [] s /\ (forall b, fview s b = fview s0 b) /\ same_rest s0 s.

Lemma dirlookup_wp E P dp name (Q : option (nat * Z) -> fsys -> Prop) s :
  trans disksize pid P [] s -> layout_ok disksize s -> dir_ok s (icache s dp) -> (length name < 64)%nat ->
  match dir_find name (entries (fview s) (icache s dp)) with
  | Some (k, inum) => forall s', unchanged P s s' -> wp E (iget 1 inum) (fun ip s'' => Q (Some (ip, 16 * Z.of_nat k)) s'') s'
  | None => forall s', unchanged P s s' -> Q None s'
  end -> wp E (dirlookup disksize pid devread dp name) Q s.
Proof.
  intros Ht Hl Hd Hn HQ. pose proof (do_type _ _ Hd) as Hty. pose proof (fo_dev _ _ (do_file _ _ Hd)) as Hdev.
  unfold dirlookup. apply wp_bind, wp_gets. rewrite Hty. cbn [negb Z.eqb Pos.eqb T_DIR]. rewrite Hdev.
  pose proof (wp_scan disksize pid devread E P dp s "dirlookup read" (is_named name) (fun off de =>
    if de_inum de =? 0 then kret None else if namecmp name (de_name de) =? 0 then ip <- iget 1 (de_inum de) ;; kret (Some (ip, off)) else kret None)) as Hscan.
  apply Hscan; try done.
  - intros off de Hno. destruct (Z.eqb_spec (de_inum de) 0); [done|]. rewrite namecmp_eq by done. rewrite bool_decide_eq_false_2; [done|]. intros Hs. by apply Hno.
  - intros j s' Hf Hs'. unfold dir_find in HQ. rewrite Hf in HQ. cbn in HQ. apply list_find_Some in Hf as (_ & [Hne Hs] & _).
    rewrite (proj2 (Z.eqb_neq _ _) Hne), namecmp_eq, bool_decide_eq_true_2 by done. apply wp_bind. eapply wp_mono; [by apply HQ|]. intros ip s'' H. by apply wp_ret.
  - intros Hf s' Hs'. unfold dir_find in HQ. rewrite Hf in HQ. by apply HQ.
Qed.

(** dirlookup as the search followed by iget. *)
Lemma scan_result P dp name s :
  trans disksize pid P [] s -> layout_ok disksize s -> dir_ok s (icache s dp) -> (length name < 64)%nat ->
  exists s', unchanged P s s' /\ dirlookup disksize pid devread dp name s =
    match dir_find name (entries (fview s) (icache s dp)) with
    | Some (k, inum) => (ip <- iget 1 inum ;; kret (Some (ip, 16 * Z.of_nat k))) s'
    | None => Ok None s'
    end.
Proof.
  intros Ht Hl Hd Hn. set (goal := fun (o : outcome fsys (option (nat * Z))) s' => unchanged P s s' /\ o =
    match dir_find name (entries (fview s) (icache s dp)) with
    | Some (k, inum) => (ip <- iget 1 inum ;; kret (Some (ip, 16 * Z.of_nat k))) s'
    | None => Ok None s'
    end).
  assert (H : wp (fun e => exists s', goal (Panic e) s') (dirlookup disksize pid devread dp name) (fun r s'' => exists s', goal (Ok r s'') s') s).
  { apply (dirlookup_wp _ P); try done. unfold goal. destruct (dir_find _ _) as [[k inum]|]; intros s' Hu; [|by exists s'].
    unfold wp. pose proof (iget_total 1 inum s') as Htot. destruct (iget 1 inum s') as [ip s''|e| |] eqn:Ei; try done; exists s'; (split; [done|]); unfold kbind; by rewrite Ei. }
  unfold wp in H. destruct (dirlookup _ _ _ _ _ _) as [r s''|e| |]; try done; destruct H as [s' H]; by exists s'.
Qed.

Lemma written_unchanged P s s1 dp off bs s' : layout_ok disksize s -> unchanged P s s1 -> written disksize s1 dp off bs s' -> written disksize s dp off bs s'.
Proof.
  intros Hl (Ht & Hv & [R1 R2 R3 R4 R5]) [W1 W2 W3 W4 W5 W6 W7 W8]. pose proof (layout_pos _ _ Hl) as Hpos. rewrite R1, R3 in *. split; try done.
  - intros o Ho. rewrite W5 by done. case_decide; [done|]. by apply content_ext.
  - intros Hfit Hs. apply W6; [done|]. unfold synced in *. rewrite R1, R3, Hv. done.
  - intros j y Hj Hne. by rewrite W7, Hv.
  - intros y Hy Hdis. destruct (W8 y) as [H1 H2].
    + apply (file_ok_same s); [done|done|lia|done].
    + intros c Hc. rewrite (owns_ext (fview s)) in Hc by done. rewrite (owns_ext (fview s)) by done. by apply Hdis.
    + split; [done|]. intros o Ho. rewrite H2 by done. by apply content_ext.
Qed.

Lemma slot_offset x : 0 <= i_size x -> i_size x mod 16 = 0 -> (i_size x + DIRENT - 1) / DIRENT * DIRENT = 16 * Z.of_nat (count x).
Proof. intros H1 H2. unfold count, DIRENT. Z.to_euclidean_division_equations. lia. Qed.

Lemma is_byte_dirent inum name : Forall is_byte name -> Forall is_byte (dirent inum name).
Proof.
  intros Hn. unfold dirent. apply Forall_app. split; [repeat constructor; apply u8_range|]. rewrite dirent_name_eq. apply Forall_app.
  split; [|apply Forall_replicate; unfold is_byte; lia]. apply Forall_take. clear -Hn. induction Hn as [|c l Hc _ IH]; [constructor|]. cbn. by destruct (c =? 0); constructor.
Qed.

(** dirlink of a name that is not there. *)
Lemma dirlink_wp P dp name inum (Q : Z -> fsys -> Prop) s :
  trans disksize pid P [] s -> layout_ok disksize s -> dir_ok s (icache s dp) -> (length name < 64)%nat -> Forall is_byte name ->
  0 <= i_inum (icache s dp) < sb_ninodes (sb s) -> i_size (icache s dp) + 16 <= MAXFILE * BSIZE -> Z.of_nat (length P) + 7 < log_size (flog s) ->
  dir_find name (entries (fview s) (icache s dp)) = None ->
  (forall P' s', trans disksize pid P' [] s' -> (length P' <= length P + 7)%nat ->
     written disksize s dp (16 * Z.of_nat (free_slot (entries (fview s) (icache s dp)))) (dirent inum name) s' -> Q 0 s') ->
  wp out_of_blocks (dirlink disksize pid devread devwrite dp name inum) Q s.
Proof.
  intros Ht Hl Hd Hn Hby Hi Hmax Hroom Hnone HQ. unfold dirlink. apply wp_bind, (dirlookup_wp _ P); try done. rewrite Hnone.
  intros s1 Hs1. pose proof Hs1 as (Ht1 & Hv1 & Hr1). pose proof Hr1 as [R1 R2 R3 R4 R5]. apply wp_bind, wp_gets, wp_bind. rewrite R1. set (x := icache s dp) in *.
  pose proof (layout_pos _ _ Hl) as Hpos. pose proof Hd as [Hf Hty Hmod]. pose proof (fo_size _ _ Hf) as Hsz. change (MAXFILE * BSIZE) with 71680 in *.
  assert (Hl1 : layout_ok disksize s1) by (apply (layout_step _ s); [done| |done]; intros c _; by apply marked_same).
  assert (Hf1 : file_ok s1 x) by (apply (file_ok_same s); [done|done|lia|done]).
  assert (Hsame : forall s2, trans disksize pid P [] s2 /\ (forall b, fview s2 b = fview s1 b) /\ same_rest s1 s2 -> unchanged P s s2).
  { intros s2 (A1 & A2 & A3). split; [done|]. split; [intros b; by rewrite A2|by transitivity s1]. }
  assert (Hes : entries (fview s1) x = entries (fview s) x).
  { apply map_ext_in. intros k Hk%in_seq. apply bytes_ext. intros o Ho. apply content_ext; [done|]. change (MAXFILE * BSIZE) with 71680. unfold count in Hk. pose proof (Z.div_mod (i_size x) 16 ltac:(lia)). lia. }
  set (es := entries (fview s) x) in *. pose proof (free_slot_le es) as Hle. assert (Hlen : length es = count x) by apply length_entries.
  assert (Hcx : i_size x = 16 * Z.of_nat (count x)) by (unfold count; Z.to_euclidean_division_equations; lia).
  (* the write at the slot *)
  assert (Hwrite : forall s2, unchanged P s s2 -> wp out_of_blocks (r <- writei disksize pid devwrite dp (dirent inum name) (16 * Z.of_nat (free_slot es)) DIRENT ;;
     if negb (r =? DIRENT) then panic "dirlink" else kret 0) Q s2).
  { intros s2 Hu. pose proof Hu as (Ht2 & Hv2 & [U1 U2 U3 U4 U5]).
    assert (Hr16 : (rounds (16 * Z.of_nat (free_slot es)) DIRENT <= 1)%nat).
    { unfold rounds, DIRENT, BSIZE. Z.to_euclidean_division_equations. lia. }
    apply wp_bind, (writei_wp _ _ _ P); rewrite ?U1; fold x; try done; unfold DIRENT in *.
    - apply (layout_step _ s); [by split| |done]. intros c _. by apply marked_same.
    - apply (file_ok_same s); [done|done|lia|done].
    - by rewrite Hty.
    - by rewrite U3.
    - lia.
    - change (MAXFILE * BSIZE) with 71680. lia.
    - by apply is_byte_dirent.
    - rewrite U5. lia.
    - intros P' s3 Ht3 Hlen3 W. apply wp_ret, (HQ P'); [done|lia|]. change (Z.to_nat 16) with 16%nat in W. rewrite take_ge in W by (rewrite length_dirent; lia).
      by apply (written_unchanged P s s2). }
  pose proof (wp_scan disksize pid devread out_of_blocks P dp s1 "dirlink read" is_free (fun off de => if de_inum de =? 0 then kret (Some off) else kret None)) as Hscan.
  rewrite R1 in Hscan. fold x in Hscan. rewrite Hes in Hscan. apply Hscan; try done.
  - intros off de Hno. by rewrite (proj2 (Z.eqb_neq _ _) Hno).
  - intros j s2 Hf2 Hs2. pose proof Hf2 as Hf2'. apply list_find_Some in Hf2' as (_ & Hz & _). rewrite Hz. apply wp_ret.
    replace j with (free_slot es) by (unfold free_slot; by rewrite Hf2). by apply Hwrite, Hsame.
  - intros Hnf s2 Hs2. rewrite slot_offset by (done || lia). replace (count x) with (free_slot es) by (unfold free_slot; rewrite Hnf; done). by apply Hwrite, Hsame.
Qed.
End dirs.
