(* ===== verification/FsFacts.v ===== *)
(** * What the file system promises

    The theorems on the block allocator, on reading and writing files, on
    inodes on the disk and in the cache, on directories and on path names,
    with an example disk on which they apply. *)

From S2P Require Import Prelude Mem Block Bio Log LogFacts Fs FsBlocks FsAlloc FsFiles FsInode FsData FsDir.
#[local] Open Scope Z_scope.
#[local] Open Scope kernel_scope.

(** ** An example: a disk of 100 blocks with a file of three bytes and a
    directory with an entry for it *)

Definition ex_super : superblock :=
  {| sb_size := 100; sb_nblocks := 65; sb_ninodes := 8; sb_nlog := 30; sb_logstart := 2; sb_inodestart := 32; sb_bmapstart := 34 |}.
Definition ex_block (l : list Z) : block := l ++ replicate (512 - length l) 0.
Definition ex_disk (b : Z) : block :=
  if b =? 34 then ex_block [255; 255; 255; 255; 31] else if b =? 35 then ex_block [104; 105; 10]
  else if b =? 36 then ex_block [1; 0; 97] else zero_block.
Definition ex_node (type inum size b : Z) : inode :=
  {| i_dev := 1; i_inum := inum; i_ref := 1; i_lock := {| sl_locked := true; sl_pid := 1 |}; i_valid := true;
     i_type := type; i_major := 0; i_minor := 0; i_nlink := 1; i_size := size; i_addrs := b :: replicate 12 0 |}.
Definition ex_icache (i : nat) : inode :=
  match i with O => ex_node T_FILE 1 3 35 | 1%nat => ex_node T_DIR 2 16 36 | _ => with_ref 0 (ex_node T_FILE 3 0 0) end.
Definition ex_state (c : cache) : fsys :=
  {| flog := {| lcache := c; log_locked := false; log_start := 2; log_size := 30; outstanding := 1; committing := false;
       log_dev := 1; lh_n := 0; lh_block := fun _ => 0 |};
     icache := ex_icache; ic_locked := false; sb := ex_super |}.

Lemma ex_disk_ok b : is_block (ex_disk b).
Proof.
  unfold ex_disk. assert (H : forall l, Forall is_byte l -> (length l <= 512)%nat -> is_block (ex_block l)).
  { intros l Hl Hlen. split; unfold ex_block; [rewrite length_app, length_replicate; unfold BSIZE; lia|].
    apply Forall_app. split; [done|]. apply Forall_replicate. unfold is_byte. lia. }
  destruct (b =? 34); [|destruct (b =? 35); [|destruct (b =? 36); [|apply zero_block_ok]]]; apply H; try (cbn; lia); repeat constructor; unfold is_byte; lia.
Qed.

Lemma ex_started : exists c, trans 1000 1 [] [] (ex_state c) /\ (forall b, fview (ex_state c) b = ex_disk b).
Proof.
  destruct (binit_ok 1 {| bufs := bufs blank; next := next blank; prev := prev blank; bc_locked := false; disk := ex_disk; writes := [] |}
    (fun _ => eq_refl) ex_disk_ok) as (c & _ & Hok & Hd & _ & Hcl). exists c.
  assert (Hp : pinned c []).
  { intros b. split; [by intros []%not_elem_of_nil|]. intros (i & Hi & _ & Hdi). by rewrite Hcl in Hdi. }
  split; [|intros b; unfold fview; cbn; by rewrite (view_nothing 1 c Hok Hp), Hd]. split; try done.
  - split; try done; [constructor|by intros b []%not_elem_of_nil].
  - by intros i b []%not_elem_of_nil.
  - constructor.
Qed.

Lemma ex_layout c : (forall b, fview (ex_state c) b = ex_disk b) -> layout_ok 1000 (ex_state c).
Proof.
  intros Hv. split; try done. change (data_lo (sb (ex_state c))) with 35. intros b Hb. unfold marked. rewrite Hv.
  cbn [sb ex_state]. assert (Hall : forallb (fun k => bit_set (ex_disk (BBLOCK (Z.of_nat k) ex_super)) (Z.of_nat k mod BPB)) (seq 0 35) = true) by (vm_compute; reflexivity).
  rewrite forallb_forall in Hall. specialize (Hall (Z.to_nat b)). rewrite Z2Nat.id in Hall by lia. apply Hall, in_seq. lia.
Qed.

Lemma ex_addr v type inum size b k : 0 <= k -> addr_of v (ex_node type inum size b) k = if k =? 0 then b else 0.
Proof.
  intros Hk. unfold addr_of. destruct (Z.ltb_spec k NDIRECT); unfold NDIRECT in *.
  - destruct (Z.eqb_spec k 0) as [->|]; [done|]. replace (Z.to_nat k) with (S (Z.to_nat k - 1)) by lia. cbn [ex_node i_addrs].
    apply (lookup_total_replicate_2 12 0). lia.
  - rewrite (proj2 (Z.eqb_neq k 0)) by lia. done.
Qed.

Lemma ex_file_ok c type inum size b : (forall b, fview (ex_state c) b = ex_disk b) -> 0 <= size <= 512 -> 35 <= b < 37 ->
  file_ok (ex_state c) (ex_node type inum size b).
Proof.
  intros Hv Hs Hb. split; try done.
  - split; [apply Hs|]. change (MAXFILE * BSIZE) with 71680. cbn. lia.
  - intros a [Ha [Hi|(k & Hk & Ea)]]; [done|]. rewrite ex_addr in Ea by lia. destruct (k =? 0); [subst a|lia]. split; [change (35 <= b < 100); lia|].
    unfold marked. rewrite Hv. assert (b = 35 \/ b = 36) as [-> | ->] by lia; by vm_compute.
  - intros k k' Hk Hk'. rewrite !ex_addr by lia. bool_cases; lia.
  - intros k Hk Hlt. rewrite ex_addr by done. cbn in Hlt. unfold BSIZE in Hlt. destruct (Z.eqb_spec k 0); lia.
Qed.

Lemma ex_file c : (forall b, fview (ex_state c) b = ex_disk b) -> file_ok (ex_state c) (ex_icache 0).
Proof. intros Hv. apply ex_file_ok; [done|lia|lia]. Qed.

Lemma ex_dir c : (forall b, fview (ex_state c) b = ex_disk b) -> dir_ok (ex_state c) (ex_icache 1).
Proof. intros Hv. split; [apply ex_file_ok; [done|lia|lia]|done|done]. Qed.

Lemma ex_fits : inode_fits (ex_icache 0).
Proof. split; try done. repeat constructor; done. Qed.

Lemma ex_entries c : (forall b, fview (ex_state c) b = ex_disk b) ->
  entries (fview (ex_state c)) (ex_icache 1) = [[1; 0; 97; 0; 0; 0; 0; 0; 0; 0; 0; 0; 0; 0; 0; 0]].
Proof.
  intros Hv. unfold entries. change (seq 0 (count (ex_icache 1))) with [0%nat]. cbn [map]. f_equal. unfold entry.
  change (16 * Z.of_nat 0) with 0. assert (H : slice (fview (ex_state c) 36) 0 16 = bytes (fview (ex_state c)) (ex_icache 1) 0 16).
  { apply (slice_bytes (fview (ex_state c)) (ex_icache 1) 0 16); try done. rewrite Hv. apply ex_disk_ok. }
  rewrite <- H, Hv. reflexivity.
Qed.

Section facts.
Context (disksize pid : Z).

(** C32: balloc returns a block that was free, marked in use and zeroed, and
    leaves every other block and every other bit as it was; it panics exactly
    when all blocks of the disk are in use. *)
Theorem balloc_spec P s :
  trans disksize pid P [] s -> layout_ok disksize s -> Z.of_nat (length P) + 2 < log_size (flog s) ->
  if decide (Forall (marked s) (steps 0 (sb_size (sb s)) 1))
  then balloc disksize pid 1 s = Panic "balloc: out of blocks"
  else exists b P' s', balloc disksize pid 1 s = Ok b s' /\ taken s s' b /\ layout_ok disksize s'
    /\ trans disksize pid P' [] s' /\ (length P' <= length P + 2)%nat.
Proof.
  intros Ht Hl Hroom. assert (Hw : wp (disk_full s) (balloc disksize pid 1)
    (fun b s' => exists P', taken s s' b /\ trans disksize pid P' [] s' /\ (length P' <= length P + 2)%nat) s).
  { apply (balloc_wp _ _ P []); try done; [by intros x []%not_elem_of_nil|cbn; lia|]. eauto. }
  unfold wp in Hw. case_decide as Hall; destruct (balloc disksize pid 1 s) as [b s'|e| |]; try done.
  - destruct Hw as (P' & Htk & _). exfalso. apply (tk_free _ _ _ Htk). rewrite Forall_forall in Hall. apply Hall.
    apply steps_elem; [done|]. exists b. pose proof (tk_range _ _ _ Htk). pose proof (layout_pos _ _ Hl). lia.
  - destruct Hw as [He _]. by rewrite He.
  - destruct Hw as (P' & Htk & Ht' & Hlen). exists b, P', s'. split; [done|]. split; [done|]. split; [|done].
    apply (layout_step _ s); [apply Htk| |done]. intros c Hc Hm. apply (tk_mark _ _ _ Htk); [done|by right].
  - destruct Hw as [_ Hm]. exfalso. apply Hall, Forall_forall. intros c Hc. apply steps_elem in Hc as (k & -> & Hk & Hlt); [|done]. apply Hm. lia.
Qed.

(** C25: readi from any offset of a file gives the bytes of the file from there,
    as many as were asked for or are left, and changes no block and no inode. *)
Theorem readi_spec devread P ip off n s :
  trans disksize pid P [] s -> layout_ok disksize s -> file_ok s (icache s ip) -> i_type (icache s ip) <> T_DEV ->
  0 <= off <= i_size (icache s ip) -> 0 <= n -> off + n < 2 ^ 32 ->
  let m := Z.min n (i_size (icache s ip) - off) in
  exists s', readi disksize pid devread ip off n s = Ok (m, bytes (fview s) (icache s ip) off m) s'
    /\ (forall b, fview s' b = fview s b) /\ icache s' = icache s /\ trans disksize pid P [] s'.
Proof.
  intros Ht Hl Hf Hty Ho Hn Hw m. assert (H : wp no_panic (readi disksize pid devread ip off n)
    (fun r s' => r = (m, bytes (fview s) (icache s ip) off m) /\ (forall b, fview s' b = fview s b) /\ same_rest s s' /\ trans disksize pid P [] s') s).
  { by apply (readi_wp _ _ _ _ P). }
  apply wp_no_panic in H as (r & s' & E & -> & Hv & Hr & Ht'). exists s'. split; [done|]. split; [done|]. split; [apply Hr|done].
Qed.

(** C6: writei inside or at the end of a file stores the bytes at the offset,
    extends the file when they pass its end, keeps the rest of the file, every
    other file and every other inode, leaves the inode on the disk as it is in
    memory, and lists at most six blocks per block touched in the log; the
    only other outcome is the panic of balloc on a full disk. *)
Theorem writei_spec devwrite P ip src off n s :
  trans disksize pid P [] s -> layout_ok disksize s -> file_ok s (icache s ip) -> i_type (icache s ip) <> T_DEV ->
  0 <= i_inum (icache s ip) < sb_ninodes (sb s) -> 0 <= off <= i_size (icache s ip) -> 0 <= n -> off + n <= MAXFILE * BSIZE ->
  n <= Z.of_nat (length src) -> Forall is_byte src -> Z.of_nat (length P) + 6 * Z.of_nat (rounds off n) + 1 < log_size (flog s) ->
  (exists P' s', writei disksize pid devwrite ip src off n s = Ok n s' /\ written disksize s ip off (take (Z.to_nat n) src) s'
     /\ trans disksize pid P' [] s' /\ (length P' <= length P + 6 * rounds off n + 1)%nat)
  \/ writei disksize pid devwrite ip src off n s = Panic "balloc: out of blocks".
Proof.
  intros Ht Hl Hf Hty Hi Ho Hn Hmax Hsrc Hby Hroom. assert (H : wp out_of_blocks (writei disksize pid devwrite ip src off n)
    (fun r s' => r = n /\ exists P', written disksize s ip off (take (Z.to_nat n) src) s' /\ trans disksize pid P' [] s'
      /\ (length P' <= length P + 6 * rounds off n + 1)%nat) s).
  { apply (writei_wp _ _ _ P); try done. eauto 6. }
  unfold wp in H. destruct (writei _ _ _ _ _ _ _ _) as [r s'|e| |]; try done.
  - destruct H as [-> (P' & H)]. left. by exists P', s'.
  - right. by rewrite H.
Qed.

(** C33: An inode written by iupdate and loaded again by ilock, in whatever slot
    and after whatever else happened to other inodes, has the fields it had;
    iupdate leaves the other inodes of its block alone. *)
Theorem iupdate_ilock P ip s :
  trans disksize pid P [] s -> layout_ok disksize s -> i_dev (icache s ip) = 1 -> 0 <= i_inum (icache s ip) < sb_ninodes (sb s) ->
  inode_fits (icache s ip) -> i_type (icache s ip) <> 0 -> Z.of_nat (length P) + 1 < log_size (flog s) ->
  let n := i_inum (icache s ip) in let ib := IBLOCK n (sb s) in
  exists s1, iupdate disksize pid ip s = Ok tt s1
    /\ (forall k y, 0 <= k < sb_ninodes (sb s) -> k <> n ->
          read_dinode (fview s1 (IBLOCK k (sb s))) (dinode_off k) y = read_dinode (fview s (IBLOCK k (sb s))) (dinode_off k) y)
    /\ forall P2 j s2, trans disksize pid P2 [] s2 -> layout_ok disksize s2 -> sb s2 = sb s ->
         (forall y, read_dinode (fview s2 ib) (dinode_off n) y = read_dinode (fview s1 ib) (dinode_off n) y) ->
         i_dev (icache s2 j) = 1 -> i_inum (icache s2 j) = n -> 1 <= i_ref (icache s2 j) ->
         sl_locked (i_lock (icache s2 j)) = false -> i_valid (icache s2 j) = false ->
         exists s3, ilock disksize pid j s2 = Ok tt s3 /\ (forall b, fview s3 b = fview s2 b)
           /\ icache s3 j = with_valid true (with_disk_fields (icache s ip) (with_lock (sleeping_lock pid) (icache s2 j))).
Proof.
  intros Ht Hl Hdev Hi Hfit Hty Hroom n ib. assert (H : wp no_panic (iupdate disksize pid ip) (fun _ s1 => updated ip s s1) s).
  { by apply (iupdate_wp _ _ _ P). }
  apply wp_no_panic in H as ([] & s1 & E & U). exists s1. split; [done|]. split; [intros k y; apply (up_others _ _ _ U)|].
  assert (Hd : forall y, read_dinode (fview s1 ib) (dinode_off n) y = with_disk_fields (icache s ip) y) by (by apply (up_written _ _ _ U)).
  intros P2 j s2 Ht2 Hl2 Hsb Hsame Hdev2 Hn Href Hlk Hval.
  assert (Hw : wp no_panic (ilock disksize pid j) (fun _ s3 => (forall b, fview s3 b = fview s2 b)
    /\ icache s3 j = with_valid true (with_disk_fields (icache s ip) (with_lock (sleeping_lock pid) (icache s2 j)))) s2).
  { apply (ilock_load _ _ _ P2); try done; rewrite ?Hsb, ?Hn; fold n ib; rewrite ?Hsame, ?Hd; try done.
    intros s3 _ Hv3 Hc3 _ _ _ _. split; [done|]. rewrite Hc3, decide_True by done. done. }
  apply wp_no_panic in Hw as ([] & s3 & E3 & H3 & H4). by exists s3.
Qed.
End facts.

Lemma balloc_spec_witness : exists s, (exists b P' s', balloc 1000 1 1 s = Ok b s' /\ taken s s' b /\ layout_ok 1000 s'
  /\ trans 1000 1 P' [] s' /\ (length P' <= 0 + 2)%nat).
Proof.
  destruct ex_started as (c & Ht & Hv). exists (ex_state c). pose proof (balloc_spec 1000 1 [] (ex_state c) Ht (ex_layout c Hv) eq_refl) as H.
  destruct (decide _) as [Hall|]; [|exact H]. exfalso. rewrite Forall_forall in Hall. specialize (Hall 37).
  assert (Hm : marked (ex_state c) 37). { apply Hall. apply steps_elem; [lia|]. exists 37. cbn. lia. }
  unfold marked in Hm. rewrite Hv in Hm. vm_compute in Hm. discriminate Hm.
Defined.

Lemma readi_spec_witness : exists s s', readi 1000 1 (fun _ => None) 0 1 10 s = Ok (2, [105; 10]) s'.
Proof.
  destruct ex_started as (c & Ht & Hv). exists (ex_state c).
  destruct (readi_spec 1000 1 (fun _ => None) [] 0 1 10 (ex_state c) Ht (ex_layout c Hv) (ex_file c Hv)) as (s' & E & _); [done|cbn; lia|lia|lia|].
  exists s'. rewrite E. change (icache (ex_state c) 0) with (ex_node T_FILE 1 3 35). change (Z.min 10 (i_size (ex_node T_FILE 1 3 35) - 1)) with 2.
  assert (H : slice (fview (ex_state c) 35) 1 2 = bytes (fview (ex_state c)) (ex_node T_FILE 1 3 35) 1 2).
  { apply (slice_bytes (fview (ex_state c)) (ex_node T_FILE 1 3 35) 1 2); try done. rewrite Hv. apply ex_disk_ok. }
  rewrite <- H, Hv. reflexivity.
Defined.

Lemma writei_spec_witness : exists s,
  (exists P' s', writei 1000 1 (fun _ => None) 0 [72; 73; 33; 33] 1 4 s = Ok 4 s' /\ written 1000 s 0 1 [72; 73; 33; 33] s'
     /\ trans 1000 1 P' [] s' /\ (length P' <= 7)%nat)
  \/ writei 1000 1 (fun _ => None) 0 [72; 73; 33; 33] 1 4 s = Panic "balloc: out of blocks".
Proof.
  destruct ex_started as (c & Ht & Hv). exists (ex_state c).
  apply (writei_spec 1000 1 (fun _ => None) [] 0 [72; 73; 33; 33] 1 4 (ex_state c) Ht (ex_layout c Hv) (ex_file c Hv)).
  - done.
  - cbn. lia.
  - cbn. lia.
  - lia.
  - vm_compute. discriminate.
  - cbn. lia.
  - repeat constructor; unfold is_byte; lia.
  - reflexivity.
Defined.

Lemma iupdate_ilock_witness : exists s s1, iupdate 1000 1 0 s = Ok tt s1.
Proof.
  destruct ex_started as (c & Ht & Hv). exists (ex_state c).
  destruct (iupdate_ilock 1000 1 [] 0 (ex_state c) Ht (ex_layout c Hv) eq_refl) as (s1 & E & _).
  - cbn. lia.
  - apply ex_fits.
  - done.
  - reflexivity.
  - exists s1. exact E.
Defined.

(** ** Directories *)

Section dir_facts.
Context (disksize pid : Z).

(** dirlookup answers with the first entry in use that has the name, names
    being compared up to 14 bytes, through iget of its inode, and with
    nothing when there is none; the search changes no block and no inode. *)
Theorem dirlookup_spec devread P dp name s :
  trans disksize pid P [] s -> layout_ok disksize s -> dir_ok s (icache s dp) -> (length name < 64)%nat ->
  exists s', unchanged disksize pid P s s' /\ dirlookup disksize pid devread dp name s =
    match dir_find name (entries (fview s) (icache s dp)) with
    | Some (k, inum) => (ip <- iget 1 inum ;; kret (Some (ip, 16 * Z.of_nat k))) s'
    | None => Ok None s'
    end.
Proof.
  intros Ht Hl Hd Hn. by apply scan_result.
Qed.

(** C15: dirlink of a name that the directory does not have puts it in the first
    free entry, or at the end: from then on the directory has the new name,
    every other name means what it meant, and no other file changed. *)
Theorem dirlink_spec devread devwrite P dp name inum s :
  trans disksize pid P [] s -> layout_ok disksize s -> dir_ok s (icache s dp) -> (length name < 64)%nat -> Forall is_byte name ->
  0 <= i_inum (icache s dp) < sb_ninodes (sb s) -> i_size (icache s dp) + 16 <= MAXFILE * BSIZE -> Z.of_nat (length P) + 7 < log_size (flog s) ->
  0 < inum < 2 ^ 16 -> let es := entries (fview s) (icache s dp) in dir_find name es = None ->
  (exists s', dirlink disksize pid devread devwrite dp name inum s = Ok 0 s'
     /\ written disksize s dp (16 * Z.of_nat (free_slot es)) (dirent inum name) s' /\ dir_ok s' (icache s' dp)
     /\ forall name', dir_find name' (entries (fview s') (icache s' dp)) =
          if decide (short name' = short name) then Some (free_slot es, inum) else dir_find name' es)
  \/ dirlink disksize pid devread devwrite dp name inum s = Panic "balloc: out of blocks".
Proof.
  intros Ht Hl Hd Hn Hby Hi Hmax Hroom Hinum es Hnone. assert (H : wp out_of_blocks (dirlink disksize pid devread devwrite dp name inum)
    (fun r s' => r = 0 /\ written disksize s dp (16 * Z.of_nat (free_slot es)) (dirent inum name) s') s).
  { by apply (dirlink_wp _ _ _ _ P). }
  unfold wp in H. destruct (dirlink _ _ _ _ _ _ _ _) as [r s'|e| |]; try done; [|right; by rewrite H]. destruct H as [-> W]. left. exists s'.
  split; [done|]. split; [done|]. pose proof Hd as [Hf Hty Hmod]. pose proof (fo_size _ _ Hf) as Hsz. pose proof (wn_inode _ _ _ _ _ _ W) as Hx.
  rewrite length_dirent in Hx. change (Z.of_nat 16) with 16 in Hx.
  assert (Hz : i_size (icache s' dp) = Z.max (i_size (icache s dp)) (16 * Z.of_nat (free_slot es) + 16)) by (by rewrite Hx).
  pose proof (free_slot_le es) as Hle. assert (Hlen : length es = count (icache s dp)) by apply length_entries.
  assert (Hcx : i_size (icache s dp) = 16 * Z.of_nat (count (icache s dp))) by (unfold count; Z.to_euclidean_division_equations; lia).
  split; [split; [apply W|by rewrite Hx|rewrite Hz; Z.to_euclidean_division_equations; lia]|]. intros name'.
  rewrite (entries_written (fview s) (icache s dp) _ _ (free_slot es) (dirent inum name)); try done; [|lia|lia|apply W].
  assert (Hu : u16 inum = inum) by (apply u16_small; lia). fold es. rewrite <- Hlen. fold (linked es (dirent inum name)).
  rewrite (dir_find_linked es _ name); [by rewrite dirent_inum, Hu|rewrite dirent_inum, Hu; lia|apply dirent_short|done].
Qed.
End dir_facts.

(** ** The inode cache *)

(** No inode is in two slots that are in use. *)
Definition icache_ok (s : fsys) : Prop :=
  forall i j dv inum, (i < NINODE)%nat -> (j < NINODE)%nat -> in_use_for (icache s i) dv inum -> in_use_for (icache s j) dv inum -> i = j.

(** iget gives the slot of the inode with one more reference, taking over a
    free slot only when no slot has the inode, so that an inode never gets a
    second slot; it panics exactly when the inode has no slot and none is free. *)
Theorem iget_unique dv inum s :
  ic_locked s = false -> icache_ok s -> (forall i, (i < NINODE)%nat -> 0 <= i_ref (icache s i)) ->
  (exists ip s', iget dv inum s = Ok ip s' /\ (ip < NINODE)%nat /\ ic_locked s' = false /\ flog s' = flog s /\ icache_ok s'
     /\ in_use_for (icache s' ip) dv inum /\ i_ref (icache s' ip) = i_ref (icache s ip) + 1
     /\ (forall j, j <> ip -> icache s' j = icache s j)
     /\ (in_use_for (icache s ip) dv inum /\ i_valid (icache s' ip) = i_valid (icache s ip)
         \/ (forall j, (j < NINODE)%nat -> ~ in_use_for (icache s j) dv inum) /\ i_valid (icache s' ip) = false))
  \/ iget dv inum s = Panic "iget: no inodes"
     /\ forall j, (j < NINODE)%nat -> ~ in_use_for (icache s j) dv inum /\ 0 < i_ref (icache s j).
Proof.
  intros Hlk Hok Hpos. pose proof (iget_ok dv inum s Hlk) as E. pose proof (iget_scan_spec (icache s) dv inum NINODE 0 None ltac:(done)) as Hsc.
  destruct (iget_scan _ _ _ _ _ _) as [ip|[ip|]].
  - destruct Hsc as [Hip Hu]. left. eexists ip, _. split; [exact E|]. cbn. split; [lia|]. do 2 (split; [done|]).
    assert (Hsame : forall j d n, in_use_for (<[ip := with_ref (i_ref (icache s ip) + 1) (icache s ip)]> (icache s) j) d n -> in_use_for (icache s j) d n).
    { intros j d n. destruct (decide (j = ip)) as [->|]; [|by rewrite fn_lookup_insert_ne]. rewrite fn_lookup_insert. unfold in_use_for. cbn. intros (_ & H). destruct Hu as [Hu _]. done. }
    split; [intros i j d n Hi Hj H1%Hsame H2%Hsame; by apply (Hok i j d n)|]. rewrite fn_lookup_insert. split; [destruct Hu as (H1 & H2 & H3); unfold in_use_for; cbn; split; [lia|done]|].
    split; [done|]. split; [intros j Hj; by rewrite fn_lookup_insert_ne|]. by left.
  - destruct Hsc as [Hno [Hz [?|Hip]]]; [done|]. left. eexists ip, _. split; [exact E|]. cbn. split; [lia|]. do 2 (split; [done|]).
    assert (Hsame : forall j d n, in_use_for (<[ip := with_ident dv inum (icache s ip)]> (icache s) j) d n -> (j = ip /\ d = dv /\ n = inum) \/ (j <> ip /\ in_use_for (icache s j) d n)).
    { intros j d n. destruct (decide (j = ip)) as [->|]; [|rewrite fn_lookup_insert_ne by done; by right]. rewrite fn_lookup_insert. unfold in_use_for. cbn. intros (_ & <- & <-). by left. }
    split.
    { intros i j d n Hi Hj H1%Hsame H2%Hsame. destruct H1 as [(-> & -> & ->)|[? H1]], H2 as [(-> & ? & ?)|[? H2]]; [done| | |by apply (Hok i j d n)]; exfalso.
      - by apply (Hno j); [lia|].
      - subst. by apply (Hno i); [lia|]. }
    rewrite fn_lookup_insert. unfold in_use_for. cbn. split; [split; [lia|done]|]. split; [lia|]. split; [intros j Hj; by rewrite fn_lookup_insert_ne|].
    right. split; [|done]. intros j Hj. apply Hno. lia.
  - destruct Hsc as [Hno [_ Hfull]]. right. split; [done|]. intros j Hj. split; [apply Hno; lia|]. specialize (Hfull j). specialize (Hpos j Hj). lia.
Qed.

(** ** Path names *)

(** The elements of a path: what lies between its slashes. *)
Fixpoint split_slash (path : list Z) : list (list Z) :=
  match path with
  | [] => [[]]
  | c :: path =>
      if c =? SLASH then [] :: split_slash path
      else match split_slash path with e :: es => (c :: e) :: es | [] => [[c]] end
  end.
Definition elements (path : list Z) : list (list Z) := filter (fun e => e <> []) (split_slash path).

Lemma elements_skip path : elements (skip_slashes path) = elements path.
Proof.
  induction path as [|c path IH]; [done|]. cbn [skip_slashes]. destruct (c =? SLASH) eqn:Ec; [|done].
  rewrite IH. unfold elements. cbn [split_slash]. rewrite Ec. by rewrite filter_cons_False by (intros H; by apply H).
Qed.

Lemma split_slash_end path : split_slash path = (elem_end path).1 :: match (elem_end path).2 with [] => [] | _ :: rest => split_slash rest end.
Proof.
  induction path as [|c path IH]; [done|]. cbn [split_slash elem_end]. destruct (c =? SLASH) eqn:Ec; [done|].
  rewrite IH. by destruct (elem_end path) as [e rest].
Qed.

Lemma elem_end_rest path : match (elem_end path).2 with [] => True | c :: _ => c = SLASH end /\ path = (elem_end path).1 ++ (elem_end path).2.
Proof.
  induction path as [|c path [IH1 IH2]]; [done|]. cbn [elem_end]. destruct (Z.eqb_spec c SLASH); [done|].
  destruct (elem_end path) as [e rest]. cbn in *. split; [done|]. congruence.
Qed.

Lemma skip_slashes_head path : match skip_slashes path with [] => True | c :: _ => c <> SLASH end.
Proof. induction path as [|c path IH]; [done|]. cbn. by destruct (Z.eqb_spec c SLASH). Qed.

Lemma skip_slashes_length path : (length (skip_slashes path) <= length path)%nat.
Proof. induction path as [|c path IH]; [done|]. cbn. destruct (c =? SLASH); cbn; lia. Qed.

(** skipelem takes the elements of a path off one at a time, cut to 14 bytes
    in the buffer; it fails exactly when no element is left, and the rest is
    empty exactly after the last one, the test of namex. *)
Theorem skipelem_elements path name :
  length name = 14%nat -> (forall c, c ∈ path -> c <> 0) ->
  match skipelem path name, elements path with
  | None, [] => True
  | Some (rest, name'), e :: es =>
      short name' = take 14 e /\ length name' = 14%nat /\ elements rest = es /\ (rest = [] <-> es = [])
      /\ (length rest < length path)%nat
  | _, _ => False
  end.
Proof.
  intros Hn Hz. rewrite <- (elements_skip path). unfold skipelem. pose proof (skip_slashes_head path) as Hh. pose proof (skip_slashes_length path) as Hlen.
  assert (Hz' : forall c, c ∈ skip_slashes path -> c <> 0).
  { intros c Hc. apply Hz. revert Hc. clear. induction path as [|d path IH]; [done|]. cbn. destruct (d =? SLASH); [intros H; right; by apply IH|done]. }
  destruct (skip_slashes path) as [|c p] eqn:Ep; [done|]. pose proof (elem_end_rest (c :: p)) as [Hrest Hsplit]. pose proof (split_slash_end (c :: p)) as Hss.
  assert (He : exists e', (elem_end (c :: p)).1 = c :: e').
  { cbn [elem_end]. rewrite (proj2 (Z.eqb_neq _ _) Hh). destruct (elem_end p) as [e' r]. by exists e'. }
  destruct (elem_end (c :: p)) as [s rest]. cbn [fst snd] in *. destruct He as [e' ->]. set (s := c :: e') in *.
  unfold elements at 1. rewrite Hss, filter_cons_True by done. assert (Hes : elements (skip_slashes rest) = filter (fun e => e <> []) (match rest with [] => [] | _ :: r => split_slash r end)).
  { rewrite elements_skip. destruct rest as [|d r]; [done|]. subst d. unfold elements. cbn [split_slash]. rewrite Z.eqb_refl. by rewrite filter_cons_False by (intros H; by apply H). }
  assert (Hsz : forall d, d ∈ s -> d <> 0) by (intros d Hd; apply Hz'; rewrite Hsplit; apply elem_of_app; by left).
  split; [|split; [|split; [done|split]]].
  - unfold short. rewrite Z.geb_leb. change DIRSIZ with 14. change (Z.to_nat 14) with 14%nat. destruct (Z.leb_spec 14 (Z.of_nat (length s))).
    + rewrite (drop_ge name), app_nil_r by lia. rewrite cname_all; [by rewrite take_take|]. intros d Hd. by apply Hsz, (subseteq_take 14 s).
    + f_equal. by apply cname_terminated.
  - rewrite Z.geb_leb. change DIRSIZ with 14. change (Z.to_nat 14) with 14%nat. destruct (Z.leb_spec 14 (Z.of_nat (length s))).
    + rewrite length_app, length_take, length_drop. lia.
    + rewrite !length_app, length_drop. cbn [length]. lia.
  - rewrite <- Hes. split; [by intros ->|]. intros Hempty. pose proof (skip_slashes_head rest) as Hr. destruct (skip_slashes rest) as [|d r]; [done|].
    exfalso. unfold elements in Hempty. rewrite split_slash_end in Hempty. cbn [elem_end] in Hempty. rewrite (proj2 (Z.eqb_neq _ _) Hr) in Hempty.
    destruct (elem_end r). by rewrite filter_cons_True in Hempty.
  - pose proof (skip_slashes_length rest). rewrite Hsplit, length_app in Hlen. subst s. cbn [length] in Hlen. lia.
Qed.

Lemma dirlookup_spec_witness : exists s s', dirlookup 1000 1 (fun _ => None) 1 [97; 0] s = (ip <- iget 1 1 ;; kret (Some (ip, 0))) s'.
Proof.
  destruct ex_started as (c & Ht & Hv). exists (ex_state c).
  destruct (dirlookup_spec 1000 1 (fun _ => None) [] 1 [97; 0] (ex_state c) Ht (ex_layout c Hv) (ex_dir c Hv)) as (s' & _ & E); [cbn; lia|].
  exists s'. rewrite E. change (icache (ex_state c) 1) with (ex_icache 1). rewrite (ex_entries c Hv). reflexivity.
Defined.

Lemma dirlink_spec_witness : exists s,
  (exists s', dirlink 1000 1 (fun _ => None) (fun _ => None) 1 [98; 0] 3 s = Ok 0 s'
     /\ dir_find [98] (entries (fview s') (icache s' 1)) = Some (1%nat, 3) /\ dir_find [97] (entries (fview s') (icache s' 1)) = Some (0%nat, 1))
  \/ dirlink 1000 1 (fun _ => None) (fun _ => None) 1 [98; 0] 3 s = Panic "balloc: out of blocks".
Proof.
  destruct ex_started as (c & Ht & Hv). exists (ex_state c). pose proof (ex_entries c Hv) as He.
  destruct (dirlink_spec 1000 1 (fun _ => None) (fun _ => None) [] 1 [98; 0] 3 (ex_state c) Ht (ex_layout c Hv) (ex_dir c Hv)) as [(s' & E & _ & _ & Hf)|E].
  - cbn. lia.
  - repeat constructor; unfold is_byte; lia.
  - cbn. lia.
  - vm_compute. discriminate.
  - reflexivity.
  - lia.
  - change (icache (ex_state c) 1) with (ex_icache 1). rewrite He. reflexivity.
  - left. exists s'. split; [exact E|]. change (icache (ex_state c) 1) with (ex_icache 1) in Hf. rewrite He in Hf. split; rewrite Hf; reflexivity.
  - right. exact E.
Defined.

Lemma iget_unique_witness : exists s ip s', iget 1 1 s = Ok ip s' /\ i_ref (icache s' ip) = i_ref (icache s ip) + 1.
Proof.
  destruct ex_started as (c & _ & _). exists (ex_state c). destruct (iget_unique 1 1 (ex_state c)) as [(ip & s' & E & _ & _ & _ & _ & _ & H & _)|[E _]].
  - reflexivity.
  - intros i j dv inum _ _ (H1 & H2 & H3) (H4 & H5 & H6). destruct i as [|[|i]], j as [|[|j]]; cbn in *; subst; try done; lia.
  - intros [|[|i]] _; cbn; lia.
  - exists ip, s'. split; [exact E|exact H].
  - vm_compute in E. discriminate E.
Defined.

Lemma skipelem_elements_witness : match skipelem [47; 97; 47; 47; 98] (replicate 14 0) with Some (rest, name') => rest = [98] /\ short name' = [97] | None => False end.
Proof.
  pose proof (skipelem_elements [47; 97; 47; 47; 98] (replicate 14 0) eq_refl) as H.
  assert (Hz : forall c, c ∈ [47; 97; 47; 47; 98] -> c <> 0) by (intros c Hc; rewrite !elem_of_cons in Hc; destruct Hc as [->|[->|[->|[->|[->|[]%not_elem_of_nil]]]]]; lia).
  specialize (H Hz). split; [reflexivity|exact (proj1 H)].
Defined.
