(* ===== verification/Mkfs.v ===== *)
(** * The file system image (mkfs.c)

    The host program that makes the image: sectors of a file, a counter of
    inodes and a counter of blocks.  The input files are given as what open
    and read answer for them.  xshort and xint store a number in the byte order
    of the disk, which the accesses of Block.v do; a [struct dinode] is held in
    the inode record of Fs.v, whose other fields play no part. *)

From S2P Require Import Prelude Mem Block Bio Log Fs.
#[local] Open Scope Z_scope.
#[local] Open Scope kernel_scope.

Definition FSSIZE : Z := 1000.
Definition NINODES : Z := 200.
Definition nbitmap : Z := FSSIZE / (BSIZE * 8) + 1.
Definition ninodeblocks : Z := NINODES / IPB + 1.
Definition nlog : Z := LOGSIZE.
Definition nmeta : Z := 2 + nlog + ninodeblocks + nbitmap.
Definition nblocks : Z := FSSIZE - nmeta.

(** The superblock that main fills in. *)
Definition super : superblock :=
  {| sb_size := FSSIZE; sb_nblocks := nblocks; sb_ninodes := NINODES; sb_nlog := nlog; sb_logstart := 2;
     sb_inodestart := 2 + nlog; sb_bmapstart := 2 + nlog + ninodeblocks |}.

(** The sectors of the image file, of which there are [nsect], and the
    counters. *)
Record mkfs := { img : Z -> block; nsect : Z; freeinode : Z; freeblock : Z }.

Definition MK : Type -> Type := K mkfs.
Definition set_img (v : Z -> block) (n : Z) (s : mkfs) : mkfs := {| img := v; nsect := n; freeinode := freeinode s; freeblock := freeblock s |}.
Definition set_freeinode (i : Z) (s : mkfs) : mkfs := {| img := img s; nsect := nsect s; freeinode := i; freeblock := freeblock s |}.
Definition set_freeblock (b : Z) (s : mkfs) : mkfs := {| img := img s; nsect := nsect s; freeinode := freeinode s; freeblock := b |}.

(** The sector at the byte offset [sec * BSIZE], an [uint]. *)
Definition seek (sec : Z) : Z := u32 (sec * BSIZE) / BSIZE.

Definition wsect (sec : Z) (buf : block) : MK unit :=
  modify (fun s => set_img (<[seek sec := buf]> (img s)) (Z.max (nsect s) (seek sec + 1)) s).

(** A read past the end of the file is short, and the program exits. *)
Definition rsect (sec : Z) : MK block :=
  s <- gets id ;;
  if seek sec <? nsect s then kret (img s (seek sec)) else panic "read".

Definition no_dinode : inode :=
  {| i_dev := 0; i_inum := 0; i_ref := 0; i_lock := {| sl_locked := false; sl_pid := 0 |}; i_valid := false;
     i_type := 0; i_major := 0; i_minor := 0; i_nlink := 0; i_size := 0; i_addrs := replicate 13 0 |}.

Definition winode (inum : Z) (ip : inode) : MK unit :=
  let bn := IBLOCK inum super in
  buf <- rsect bn ;;
  wsect bn (write_dinode buf (dinode_off inum) ip).

Definition rinode (inum : Z) : MK inode :=
  buf <- rsect (IBLOCK inum super) ;;
  kret (read_dinode buf (dinode_off inum) no_dinode).

Definition ialloc (type : Z) : MK Z :=
  inum <- gets freeinode ;;
  modify (set_freeinode (u32 (inum + 1))) ;;;
  winode inum (with_size 0 (with_meta (s16 type) 0 0 1 no_dinode)) ;;;
  kret inum.

(** [freeblock++] *)
Definition next_block : MK Z :=
  b <- gets freeblock ;;
  modify (set_freeblock (u32 (b + 1))) ;;;
  kret b.

(** The loop of balloc: the bits from [i], [todo] of them, are set. *)
Fixpoint set_bits (buf : block) (i : Z) (todo : nat) : block :=
  match todo with
  | O => buf
  | S todo => set_bits (put8 buf (i / 8) (Z.lor (get8 buf (i / 8)) (Z.shiftl 1 (i mod 8)))) (i + 1) todo
  end.

Definition balloc (used : Z) : MK unit :=
  if used <? BSIZE * 8 then wsect (sb_bmapstart super) (set_bits zero_block 0 (Z.to_nat used))
  else panic "assert: used < BSIZE * 8".

(** The block of the inode for file block [fbn], allocated when there is none:
    the inode and the block. *)
Definition slot (din : inode) (fbn : Z) : MK (inode * Z) :=
  if fbn <? NDIRECT then
    if i_addrs din !!! Z.to_nat fbn =? 0 then
      b <- next_block ;;
      kret (with_addrs (<[Z.to_nat fbn := b]> (i_addrs din)) din, b)
    else kret (din, i_addrs din !!! Z.to_nat fbn)
  else
    din <- (if i_addrs din !!! 12%nat =? 0 then
              b <- next_block ;; kret (with_addrs (<[12%nat := b]> (i_addrs din)) din)
            else kret din) ;;
    let ind := i_addrs din !!! 12%nat in
    indirect <- rsect ind ;;
    if get32 indirect (4 * (fbn - NDIRECT)) =? 0 then
      b <- next_block ;;
      let indirect := put32 indirect (4 * (fbn - NDIRECT)) b in
      wsect ind indirect ;;;
      kret (din, get32 indirect (4 * (fbn - NDIRECT)))
    else kret (din, get32 indirect (4 * (fbn - NDIRECT))).

(** The loop of iappend, with the bytes [p] left. *)
Fixpoint iappend_loop (fuel : nat) (din : inode) (off : Z) (p : list Z) : MK (inode * Z) :=
  match p with
  | [] => kret (din, off)
  | _ :: _ =>
      match fuel with
      | O => nofuel
      | S fuel =>
          let fbn := off / BSIZE in
          if negb (fbn <? MAXFILE) then panic "assert: fbn < MAXFILE"
          else
            '(din, x) <- slot din fbn ;;
            let n1 := Z.min (Z.of_nat (length p)) (u32 (u32 ((fbn + 1) * BSIZE) - off)) in
            buf <- rsect x ;;
            wsect x (blit_block buf (off - fbn * BSIZE) (take (Z.to_nat n1) p)) ;;;
            iappend_loop fuel din (u32 (off + n1)) (drop (Z.to_nat n1) p)
      end
  end.

(** Each round but the first fills a block, so length / BSIZE + 2 rounds are
    enough. *)
Definition iappend (inum : Z) (p : list Z) : MK unit :=
  din <- rinode inum ;;
  '(din, off) <- iappend_loop (length p / Z.to_nat BSIZE + 2) din (i_size din) p ;;
  winode inum (with_size off din).

(** The directory entry for [inum] with strcpy or strncpy of [name]. *)
Definition entry_of (inum : Z) (name : list Z) : list Z := dirent inum name.

(** [while ((cc = read(fd, buf, sizeof(buf))) > 0) iappend(inum, buf, cc)] *)
Fixpoint copy_in (inum : Z) (reads : list (list Z)) : MK unit :=
  match reads with
  | [] => kret tt
  | buf :: reads => iappend inum buf ;;; copy_in inum reads
  end.

(** An argument: its name and what read answers until the end of the file, or
    [None] when it cannot be opened. *)
Definition arg : Type := list Z * option (list (list Z)).

Definition strip (name : list Z) : list Z := match name with 95 :: name => name | _ => name end.

Fixpoint add_files (rootino : Z) (args : list arg) : MK unit :=
  match args with
  | [] => kret tt
  | (name, file) :: args =>
      if existsb (Z.eqb 47) name then panic "assert: index(argv[i], '/') == 0"
      else
        match file with
        | None => panic "open"
        | Some reads =>
            inum <- ialloc T_FILE ;;
            iappend rootino (entry_of (u16 inum) (strip name)) ;;;
            copy_in inum reads ;;;
            add_files rootino args
        end
  end.

(** [for (i = 0; i < FSSIZE; i++) wsect(i, zeroes);] from [i], [todo] left. *)
Fixpoint clear_sectors (i : Z) (todo : nat) : MK unit :=
  match todo with
  | O => kret tt
  | S todo => wsect i zero_block ;;; clear_sectors (i + 1) todo
  end.

Definition put_super (b : block) (x : superblock) : block :=
  put32 (put32 (put32 (put32 (put32 (put32 (put32 b 0 (sb_size x)) 4 (sb_nblocks x)) 8 (sb_ninodes x)) 12 (sb_nlog x))
    16 (sb_logstart x)) 20 (sb_inodestart x)) 24 (sb_bmapstart x).

(** main, with the image file opened and truncated. *)
Definition main (args : list arg) : MK unit :=
  modify (set_freeblock nmeta) ;;;
  clear_sectors 0 (Z.to_nat FSSIZE) ;;;
  wsect 1 (put_super zero_block super) ;;;
  rootino <- ialloc T_DIR ;;
  if negb (rootino =? ROOTINO) then panic "assert: rootino == ROOTINO"
  else
    iappend rootino (entry_of (u16 rootino) [46]) ;;;
    iappend rootino (entry_of (u16 rootino) [46; 46]) ;;;
    add_files rootino args ;;;
    din <- rinode rootino ;;
    let off := u32 (u32 (i_size din / BSIZE + 1) * BSIZE) in
    winode rootino (with_size off din) ;;;
    used <- gets freeblock ;;
    balloc used.

(** The state at the start of the program. *)
Definition start : mkfs := {| img := fun _ => zero_block; nsect := 0; freeinode := 1; freeblock := 0 |}.
