(* ===== verification/MkfsFacts.v ===== *)
(** * The image that mkfs makes is a file system

    Each input file is in the image under its name, the metadata is as Fs.v
    expects it, and the blocks of distinct files are apart: the hypotheses of
    the theorems on Fs.v hold of a freshly made disk. *)

From S2P Require Import Prelude Mem Block Bio Log LogFacts Fs FsBlocks FsAlloc FsFiles FsInode FsData FsDir Mkfs.
#[local] Open Scope Z_scope.
#[local] Open Scope kernel_scope.

(** ** A file under construction *)

(** The byte at offset [o] of a file with the bytes [c]. *)
Definition byte_at (c : list Z) (o : Z) : Z := default 0 (c !! Z.to_nat o).

(** The file of [x] has [n] blocks, all below [fb], and the bytes [c] followed
    by zeros. *)
Record laid (v : Z -> block) (x : inode) (c : list Z) (n fb : Z) : Prop := {
  la_len : length (i_addrs x) = 13%nat;
  la_n : 0 <= n <= MAXFILE;
  la_used : forall k, 0 <= k < MAXFILE -> addr_of v x k <> 0 <-> k < n;
  la_ind : ind x <> 0 <-> NDIRECT < n;
  la_own : forall b, owns v x b -> nmeta <= b < fb;
  la_inj : forall k k', 0 <= k < MAXFILE -> 0 <= k' < MAXFILE -> addr_of v x k = addr_of v x k' -> addr_of v x k <> 0 -> k = k';
  la_apart : forall k, 0 <= k < MAXFILE -> ind x <> 0 -> addr_of v x k <> ind x;
  la_size : Z.of_nat (length c) <= n * BSIZE;
  la_bytes : forall o, 0 <= o < MAXFILE * BSIZE -> content v x o = byte_at c o }.

Lemma laid_addr v x c n fb k : laid v x c n fb -> 0 <= k < n -> addr_of v x k <> 0 /\ nmeta <= addr_of v x k < fb.
Proof.
  intros Hl Hk. pose proof (la_n _ _ _ _ _ Hl). assert (Hne : addr_of v x k <> 0) by (apply (la_used _ _ _ _ _ Hl); lia). split; [done|].
  apply (la_own _ _ _ _ _ Hl). apply owns_addr; [lia|done].
Qed.

Lemma laid_mono v x c n fb fb' : laid v x c n fb -> fb <= fb' -> laid v x c n fb'.
Proof. intros [L1 L2 L3 L4 L5 L6 L7 L8 L9] Hle. split; try done. intros b Hb. specialize (L5 b Hb). lia. Qed.

(** The file depends on its own blocks. *)
Lemma laid_ext v v' x c n fb : laid v x c n fb -> (forall b, owns v x b -> v' b = v b) -> laid v' x c n fb /\ (forall b, owns v' x b <-> owns v x b).
Proof.
  intros Hl Hv. assert (Hi : ind x <> 0 -> v' (ind x) = v (ind x)) by (intros Hne; by apply Hv, owns_ind).
  assert (Ha : forall k, addr_of v' x k = addr_of v x k) by (intros k; by apply addr_of_ext).
  assert (Ho : forall b, owns v' x b <-> owns v x b) by (intros b; by apply owns_ext). split; [|done].
  destruct Hl as [L1 L2 L3 L4 L5 L6 L7 L8 L9]. split; try done.
  - intros k Hk. rewrite Ha. by apply L3.
  - intros b Hb. by apply L5, Ho.
  - intros k k' Hk Hk'. rewrite !Ha. by apply L6.
  - intros k Hk. rewrite Ha. by apply L7.
  - intros o Ho'. rewrite <- L9 by done. by apply content_ext.
Qed.

(** A block is added at the end. *)
Lemma laid_grow v x c n fb v' x' fb' a : laid v x c n fb -> 0 <= fb <= fb' -> nmeta <= fb -> n < MAXFILE -> length (i_addrs x') = 13%nat ->
  (forall k, 0 <= k < MAXFILE -> addr_of v' x' k = if decide (k = n) then a else addr_of v x k) ->
  (ind x' = ind x \/ ind x = 0 /\ fb <= ind x' < fb') -> (ind x' <> 0 <-> NDIRECT < n + 1) -> fb <= a < fb' -> a <> ind x' ->
  (forall b, b <> ind x' -> v' b = v b) -> v a = zero_block ->
  laid v' x' c (n + 1) fb'.
Proof.
  intros Hl Hfb Hm Hn Hlen Ha Hi Hi' Har Hai Hv Hz. pose proof (la_n _ _ _ _ _ Hl) as Hn0. assert (Hnm : 0 < nmeta) by done.
  assert (Hold : forall k, 0 <= k < MAXFILE -> addr_of v x k <> 0 -> nmeta <= addr_of v x k < fb).
  { intros k Hk Hne. apply (la_own _ _ _ _ _ Hl). by apply owns_addr. }
  assert (Hni : forall k, 0 <= k < MAXFILE -> addr_of v x k <> 0 -> ind x' <> 0 -> addr_of v x k <> ind x').
  { intros k Hk Hne Hine. destruct Hi as [E|[_ Hr]]; [rewrite E in *; by apply (la_apart _ _ _ _ _ Hl)|]. specialize (Hold k Hk Hne). lia. }
  split.
  - done.
  - lia.
  - intros k Hk. rewrite Ha by done. case_decide as Ek; [lia|]. rewrite (la_used _ _ _ _ _ Hl k Hk). lia.
  - done.
  - intros b [Hb [->|(k & Hk & <-)]].
    + destruct Hi as [E|[_ ?]]; [|lia]. rewrite E in *. pose proof (la_own _ _ _ _ _ Hl (ind x) (owns_ind v x Hb)). lia.
    + rewrite Ha in * by done. case_decide; [lia|]. specialize (Hold k Hk Hb). lia.
  - intros k k' Hk Hk'. rewrite !Ha by done. repeat case_decide; subst; try done.
    + intros E Hne. rewrite E in Har. rewrite E in Hne. specialize (Hold k' Hk' Hne). lia.
    + intros E Hne. specialize (Hold k Hk Hne). lia.
    + by apply (la_inj _ _ _ _ _ Hl).
  - intros k Hk Hine. rewrite Ha by done. case_decide; [done|]. destruct (Z.eq_dec (addr_of v x k) 0) as [->|Hne]; [lia|]. by apply Hni.
  - pose proof (la_size _ _ _ _ _ Hl). unfold BSIZE in *. lia.
  - intros o Ho. rewrite <- (la_bytes _ _ _ _ _ Hl o Ho). pose proof (off_block o Ho) as Hk. unfold content. rewrite Ha by done. case_decide as Ek.
    + destruct (Z.eqb_spec a 0); [lia|]. rewrite Hv, Hz, get8_zero by done.
      assert (H0 : addr_of v x (o / BSIZE) = 0).
      { destruct (Z.eq_dec (addr_of v x (o / BSIZE)) 0) as [|Hne]; [done|]. apply (la_used _ _ _ _ _ Hl) in Hne; [lia|done]. }
      by rewrite H0.
    + destruct (Z.eqb_spec (addr_of v x (o / BSIZE)) 0) as [|Hne]; [done|]. destruct (Z.eq_dec (ind x') 0) as [E0|Hine].
      * rewrite Hv; [done|]. rewrite E0. done.
      * rewrite Hv; [done|]. by apply Hni.
Qed.

Lemma byte_at_other c bs o : 0 <= o -> o < Z.of_nat (length c) \/ Z.of_nat (length c + length bs) <= o -> byte_at (c ++ bs) o = byte_at c o.
Proof.
  unfold byte_at. intros H0 [H|H]; [by rewrite lookup_app_l by lia|].
  rewrite (lookup_ge_None_2 c) by lia. rewrite lookup_ge_None_2; [done|]. rewrite length_app. lia.
Qed.

(** Bytes are put into the last block. *)
Lemma laid_write v x c n fb bs : laid v x c n fb -> (forall b, is_block (v b)) -> Forall is_byte bs ->
  let off := Z.of_nat (length c) in let k := off / BSIZE in let a := addr_of v x k in
  k < n -> off mod BSIZE + Z.of_nat (length bs) <= BSIZE ->
  let v' := <[a := blit_block (v a) (off - k * BSIZE) bs]> v in laid v' x (c ++ bs) n fb /\ (forall b, owns v' x b -> owns v x b).
Proof.
  intros Hl Hb Hbs off k a Hk Hle. cbv zeta. pose proof (la_n _ _ _ _ _ Hl) as Hn. assert (Hk0 : 0 <= k) by (apply Z.div_pos; unfold off; lia || done).
  destruct (laid_addr v x c n fb k Hl ltac:(lia)) as [Hane Har]. fold a in Hane, Har.
  assert (Hoff : off - k * BSIZE = off mod BSIZE) by (unfold k; rewrite Z.mod_eq by done; lia). rewrite Hoff. set (v' := <[a := _]> v).
  assert (Hia : ind x <> 0 -> ind x <> a) by (intros Hne E; by apply (la_apart _ _ _ _ _ Hl k); [lia|done|]).
  assert (Ha : forall j, addr_of v' x j = addr_of v x j).
  { intros j. apply addr_of_ext. intros Hne. unfold v'. by rewrite fn_lookup_insert_ne by (by apply not_eq_sym, Hia). }
  assert (Hown : forall b, owns v' x b -> owns v x b).
  { intros b [H0 [->|(j & Hj & <-)]]; [split; auto|]. rewrite Ha in *. split; [done|]. right. by exists j. }
  split; [|done]. destruct Hl as [L1 L2 L3 L4 L5 L6 L7 L8 L9]. split; try done.
  - intros j Hj. rewrite Ha. by apply L3.
  - intros b Hob. by apply L5, Hown.
  - intros j j' Hj Hj'. rewrite !Ha. by apply L6.
  - intros j Hj. rewrite Ha. by apply L7.
  - rewrite length_app, Nat2Z.inj_add. fold off. assert (off = k * BSIZE + off mod BSIZE) by lia. unfold BSIZE in *. nia.
  - intros o Ho. pose proof (L9 o Ho) as Ho9. unfold content in *. rewrite Ha. pose proof (off_block o Ho) as Hob. assert (Hoe : o = o / BSIZE * BSIZE + o mod BSIZE) by (unfold BSIZE; clear; Z.div_mod_to_equations; lia).
    assert (Hm : 0 <= o mod BSIZE < BSIZE) by (by apply Z.mod_pos_bound). assert (Hmo : 0 <= off mod BSIZE < BSIZE) by (by apply Z.mod_pos_bound).
    destruct (decide (o / BSIZE = k)) as [Eo|Eo].
    + rewrite Eo in *. fold a in Ho9 |- *. rewrite (proj2 (Z.eqb_neq a 0) Hane) in *. unfold v'. rewrite fn_lookup_insert, get8_blit by (done || lia || (unfold BSIZE in *; lia)).
      case_decide as Hin.
      * unfold byte_at. assert (Hc : Z.of_nat (length c) = off) by done. destruct (lookup_lt_is_Some_2 bs (Z.to_nat (o mod BSIZE - off mod BSIZE))) as [b Hbb]; [lia|].
        rewrite lookup_app_r by lia. rewrite (list_lookup_total_correct _ _ _ Hbb). replace (Z.to_nat o - length c)%nat with (Z.to_nat (o mod BSIZE - off mod BSIZE)) by lia. by rewrite Hbb.
      * rewrite Ho9. symmetry. apply byte_at_other; lia.
    + assert (Hv' : addr_of v x (o / BSIZE) <> 0 -> v' (addr_of v x (o / BSIZE)) = v (addr_of v x (o / BSIZE))).
      { intros Hne. unfold v'. rewrite fn_lookup_insert_ne; [done|]. intros E. apply Eo. apply (L6 _ k); [done|lia|by rewrite <- E|done]. }
      rewrite byte_at_other by (unfold BSIZE in *; lia). rewrite <- Ho9. destruct (Z.eqb_spec (addr_of v x (o / BSIZE)) 0) as [|Hne]; [done|by rewrite Hv'].
Qed.
(** ** The state of mkfs *)

Record sane (s : mkfs) : Prop := {
  sn_sect : nsect s = FSSIZE;
  sn_block : forall b, is_block (img s b);
  sn_free : nmeta <= freeblock s <= FSSIZE;
  sn_fresh : forall b, freeblock s <= b -> img s b = zero_block }.

Lemma seek_small b : 0 <= b < FSSIZE -> seek b = b.
Proof.
  intros Hb. unfold seek. rewrite u32_small by (unfold is_u32, FSSIZE, BSIZE in *; lia). by apply Z.div_mul.
Qed.

Lemma rsect_ok s b : nsect s = FSSIZE -> 0 <= b < FSSIZE -> rsect b s = Ok (img s b) s.
Proof. intros Hs Hb. unfold rsect, kbind, gets, id. rewrite seek_small by done. by rewrite Hs, (proj2 (Z.ltb_lt b FSSIZE)) by lia. Qed.

Definition put (b : Z) (d : block) (s : mkfs) : mkfs := set_img (<[b := d]> (img s)) (nsect s) s.

Lemma wsect_ok s b d : nsect s = FSSIZE -> 0 <= b < FSSIZE -> wsect b d s = Ok tt (put b d s).
Proof. intros Hs Hb. unfold wsect, modify, put. rewrite seek_small, Hs by done. by rewrite Z.max_l by lia. Qed.

(** A block in use is written. *)
Lemma put_sane s b d : sane s -> is_block d -> b < freeblock s -> sane (put b d s).
Proof.
  intros [H1 H2 H3 H4] Hd Hb. split; try done; cbn.
  - intros c. destruct (decide (c = b)) as [->|]; [by rewrite fn_lookup_insert|by rewrite fn_lookup_insert_ne].
  - intros c Hc. rewrite fn_lookup_insert_ne by lia. by apply H4.
Qed.

Lemma next_block_ok s : sane s -> freeblock s < FSSIZE ->
  next_block s = Ok (freeblock s) (set_freeblock (freeblock s + 1) s) /\ sane (set_freeblock (freeblock s + 1) s).
Proof.
  intros [H1 H2 H3 H4] Hlt. split.
  - unfold next_block, kbind, gets, modify. rewrite u32_small; [done|]. unfold is_u32, FSSIZE, nmeta in *. assert (0 <= freeblock s) by (pose proof (eq_refl : nmeta = 59); unfold nmeta in *; lia). lia.
  - split; try done; cbn; [lia|]. intros b Hb. apply H4. lia.
Qed.

(** The blocks of a file of [n] data blocks, the indirect one included. *)
Definition blocks (n : Z) : Z := n + (if NDIRECT <? n then 1 else 0).

(** What iappend leaves alone, from [s] to [s'], writing to the file of [x]. *)
Record leaves (x : inode) (s : mkfs) (x' : inode) (s' : mkfs) : Prop := {
  lv_inode : freeinode s' = freeinode s;
  lv_free : freeblock s <= freeblock s';
  lv_img : forall b, b < freeblock s -> ~ owns (img s) x b -> img s' b = img s b;
  lv_owns : forall b, owns (img s') x' b -> owns (img s) x b \/ freeblock s <= b;
  lv_meta : x' = with_addrs (i_addrs x') x }.

Lemma with_addrs_id x : with_addrs (i_addrs x) x = x.
Proof. by destruct x. Qed.

Lemma leaves_refl x s : leaves x s x s.
Proof. split; try done; [auto|]. by rewrite with_addrs_id. Qed.

Lemma leaves_trans x1 s1 x2 s2 x3 s3 : leaves x1 s1 x2 s2 -> leaves x2 s2 x3 s3 -> leaves x1 s1 x3 s3.
Proof.
  intros [A1 A2 A3 A4 A5] [B1 B2 B3 B4 B5]. split; [congruence|lia| | |].
  - intros b Hb Hn. rewrite B3; [by apply A3|lia|]. intros Ho%A4. destruct Ho; [done|lia].
  - intros b [Ho|Ho]%B4; [apply A4 in Ho as [?|?]; auto|right; lia].
  - rewrite B5, A5. by destruct x3.
Qed.

Lemma addrs_insert_total (l : list Z) j k b : length l = 13%nat -> (j < 13)%nat -> (<[j := b]> l) !!! k = if decide (k = j) then b else l !!! k.
Proof. apply addrs_insert. Qed.

(** An address is put into the inode itself. *)
Lemma slot_direct s x c n : sane s -> laid (img s) x c n (freeblock s) -> n < NDIRECT -> freeblock s < FSSIZE ->
  let x' := with_addrs (<[Z.to_nat n := freeblock s]> (i_addrs x)) x in
  let s' := set_freeblock (freeblock s + 1) s in
  laid (img s') x' c (n + 1) (freeblock s') /\ leaves x s x' s' /\ addr_of (img s') x' n = freeblock s.
Proof.
  intros Hs Hl Hn Hlt x' s'. pose proof (la_n _ _ _ _ _ Hl) as Hn0. pose proof (la_len _ _ _ _ _ Hl) as Hlen. unfold NDIRECT in Hn. pose proof (sn_free _ Hs) as Hfb.
  assert (Hi : ind x' = ind x) by (unfold ind; cbn; rewrite addrs_insert_total, decide_False by (done || lia); done).
  assert (Ha : forall k, 0 <= k < MAXFILE -> addr_of (img s') x' k = if decide (k = n) then freeblock s else addr_of (img s) x k).
  { intros k Hk. unfold addr_of. rewrite Hi. cbn. destruct (Z.ltb_spec k NDIRECT) as [H12|H12].
    - rewrite addrs_insert_total by (done || lia). repeat case_decide; try done; lia.
    - unfold NDIRECT in H12. by rewrite decide_False by lia. }
  assert (Hnm : nmeta = 59) by done. pose proof (la_ind _ _ _ _ _ Hl) as Hind. unfold NDIRECT in Hind.
  assert (H0 : ind x = 0) by (destruct (Z.eq_dec (ind x) 0) as [|Hne]; [done|]; apply Hind in Hne; lia).
  split; [|split].
  - apply (laid_grow (img s) x c n (freeblock s) _ _ _ (freeblock s)); try done; try (cbn; lia); try (rewrite Hi).
    + change MAXFILE with 140; lia.
    + cbn. by rewrite length_insert.
    + by left.
    + rewrite H0. unfold NDIRECT. split; [done|lia].
    + rewrite H0. lia.
    + apply (sn_fresh _ Hs). lia.
  - split; try done; [cbn; lia|]. intros b [Hb Ho]. rewrite Hi in Ho. destruct Ho as [->|(k & Hk & <-)]; [left; by apply owns_ind|].
    rewrite Ha in * by done. case_decide; [by right|]. left. by apply owns_addr.
  - rewrite Ha by (change MAXFILE with 140; lia). by rewrite decide_True.
Qed.

(** An address is put into the indirect block [i], which is there or new. *)
Lemma slot_indirect s x c n i a : sane s -> laid (img s) x c n (freeblock s) -> NDIRECT <= n < MAXFILE -> a < FSSIZE ->
  (ind x <> 0 /\ i = ind x /\ a = freeblock s \/ ind x = 0 /\ n = NDIRECT /\ i = freeblock s /\ a = freeblock s + 1) ->
  let x' := with_addrs (<[12%nat := i]> (i_addrs x)) x in
  let s' := put i (put32 (img s i) (4 * (n - NDIRECT)) a) (set_freeblock (a + 1) s) in
  sane s' /\ laid (img s') x' c (n + 1) (freeblock s') /\ leaves x s x' s' /\ addr_of (img s') x' n = a.
Proof.
  intros Hs Hl Hn Hlt Hia x' s'. pose proof (la_len _ _ _ _ _ Hl) as Hlen. pose proof (sn_free _ Hs) as Hfb. assert (Hnm : nmeta = 59) by done.
  assert (Hir : nmeta <= i < a + 1 /\ i <> a /\ (i = ind x \/ freeblock s <= i)).
  { destruct Hia as [(Hne & -> & ->)|(_ & _ & -> & ->)]; [|lia]. pose proof (la_own _ _ _ _ _ Hl (ind x) (owns_ind _ _ Hne)). lia. }
  assert (Har : freeblock s <= a < FSSIZE) by lia. unfold NDIRECT in Hn. change MAXFILE with 140 in Hn.
  assert (Hi : ind x' = i) by (unfold ind; cbn; by rewrite addrs_insert_total, decide_True by (done || lia)).
  assert (Hold : forall k, NDIRECT <= k < MAXFILE -> get32 (img s i) (4 * (k - NDIRECT)) = addr_of (img s) x k).
  { intros k Hk. destruct Hia as [(Hne & -> & _)|(H0 & _ & -> & _)]; [by rewrite addr_indirect by (done || lia)|]. rewrite addr_none by (done || lia).
    rewrite (sn_fresh _ Hs) by lia. apply get32_zero. }
  assert (Ha : forall k, 0 <= k < MAXFILE -> addr_of (img s') x' k = if decide (k = n) then a else addr_of (img s) x k).
  { intros k Hk. change MAXFILE with 140 in *. unfold NDIRECT in *. destruct (Z.lt_ge_cases k 12) as [H12|H12].
    - rewrite decide_False, !addr_direct by (unfold NDIRECT; lia). cbn. by rewrite addrs_insert_total, decide_False by (done || lia).
    - rewrite addr_indirect, Hi by (unfold NDIRECT; lia). unfold s', put. cbn [img set_img set_freeblock]. rewrite fn_lookup_insert. unfold NDIRECT. case_decide as Ek.
      + subst k. rewrite get32_put32 by (try apply (sn_block _ Hs); unfold BSIZE; lia). apply u32_small. unfold is_u32, FSSIZE in *. lia.
      + rewrite get32_put32_ne by lia. apply Hold. lia. }
  assert (Hblk : is_block (put32 (img s i) (4 * (n - NDIRECT)) a)) by apply put32_ok, (sn_block _ Hs).
  assert (Hs1 : sane (set_freeblock (a + 1) s)).
  { destruct Hs as [H1 H2 H3 H4]. split; try done; cbn; [lia|]. intros b Hb. apply H4. lia. }
  split; [apply put_sane; [done|done|cbn; lia]|]. split; [|split].
  - apply (laid_grow (img s) x c n (freeblock s) _ _ _ a); try done; rewrite ?Hi; try (unfold NDIRECT; change MAXFILE with 140; cbn; lia).
    + cbn. by rewrite length_insert.
    + intros b Hb. unfold s', put. cbn. by rewrite fn_lookup_insert_ne.
    + apply (sn_fresh _ Hs). lia.
  - split; try done.
    + cbn. lia.
    + intros b Hb Hno. unfold s', put. cbn. rewrite fn_lookup_insert_ne; [done|]. intros ->. destruct Hir as (? & ? & [->|?]); [|lia]. apply Hno, owns_ind. lia.
    + intros b [Hb Ho]. rewrite Hi in Ho. destruct Ho as [->|(k & Hk & <-)].
      * destruct Hir as (? & ? & [->|?]); [left; by apply owns_ind|by right].
      * rewrite Ha in * by done. case_decide; [right; lia|]. left. by apply owns_addr.
  - rewrite Ha by (change MAXFILE with 140; lia). by rewrite decide_True.
Qed.

Lemma blocks_succ n : 0 <= n -> blocks n <= blocks (n + 1) /\ (n <> NDIRECT -> blocks (n + 1) = blocks n + 1) /\ blocks (NDIRECT + 1) = blocks NDIRECT + 2.
Proof. unfold blocks, NDIRECT. intros H0. destruct (Z.ltb_spec 12 n), (Z.ltb_spec 12 (n + 1)); split_and!; try done; lia. Qed.

(** The block for file block [k], which is there or is the next one. *)
Lemma slot_ok s x c n k : sane s -> laid (img s) x c n (freeblock s) -> 0 <= k <= n -> k < MAXFILE ->
  let n' := Z.max n (k + 1) in freeblock s + (blocks n' - blocks n) <= FSSIZE ->
  exists x' s', slot x k s = Ok (x', addr_of (img s') x' k) s' /\ sane s' /\ laid (img s') x' c n' (freeblock s') /\ leaves x s x' s' /\
    freeblock s' = freeblock s + (blocks n' - blocks n).
Proof.
  intros Hs Hl Hk Hm n' Hfit. pose proof (la_n _ _ _ _ _ Hl) as Hn. unfold slot. destruct (Z.ltb_spec k NDIRECT) as [H12|H12].
  - destruct (Z.eqb_spec (i_addrs x !!! Z.to_nat k) 0) as [H0|H0]; rewrite <- (addr_direct (img s) x k H12) in H0.
    + assert (k = n). { destruct (Z.lt_ge_cases k n) as [Hlt|]; [|lia]. apply (la_used _ _ _ _ _ Hl) in Hlt; [done|lia]. } subst k.
      replace n' with (n + 1) in * by lia. destruct (blocks_succ n) as (_ & Eb & _); [lia|]. rewrite Eb in * by lia.
      destruct (next_block_ok s Hs) as [En Hs']; [lia|]. rewrite (kbind_ok _ _ _ _ _ En).
      destruct (slot_direct s x c n Hs Hl H12) as (Hl' & Hlv & Ha); [lia|]. eexists _, _. split; [cbn [kret]; rewrite Ha; reflexivity|]. cbn [freeblock set_freeblock] in *. split_and!; try done. lia.
    + assert (k < n) by (apply (la_used _ _ _ _ _ Hl); [lia|done]). replace n' with n in * by lia. exists x, s. rewrite (addr_direct (img s)) by done.
      split; [done|]. split; [done|]. split; [done|]. split; [apply leaves_refl|lia].
  - assert (Hx : forall i, i_addrs x !!! 12%nat = i -> with_addrs (<[12%nat := i]> (i_addrs x)) x = x).
    { intros i Hi. rewrite list_insert_id; [apply with_addrs_id|]. rewrite <- Hi. apply list_lookup_lookup_total_lt. rewrite (la_len _ _ _ _ _ Hl). lia. }
    destruct (Z.eqb_spec (i_addrs x !!! 12%nat) 0) as [H0|H0]; change (i_addrs x !!! 12%nat) with (ind x) in H0.
    + assert (n <= NDIRECT) by (destruct (Z.le_gt_cases n NDIRECT) as [|Hgt]; [done|]; by apply (la_ind _ _ _ _ _ Hl) in Hgt).
      assert (k = n /\ n = NDIRECT) as [-> ->] by lia. replace n' with (NDIRECT + 1) in * by lia. destruct (blocks_succ NDIRECT) as (_ & _ & Eb); [done|]. rewrite Eb in *.
      pose proof (sn_free _ Hs) as Hfb. destruct (next_block_ok s Hs) as [En Hs1]; [lia|]. rewrite kbind_assoc, (kbind_ok _ _ _ _ _ En). cbn [kret]. unfold kbind at 1, kret at 1. cbv zeta.
      set (x' := with_addrs _ x). assert (Hix : i_addrs x' !!! 12%nat = freeblock s) by (unfold x'; cbn; rewrite addrs_insert_total, decide_True; [done..|apply (la_len _ _ _ _ _ Hl)|lia]).
      rewrite Hix. set (s1 := set_freeblock _ s) in *. assert (Hnm : nmeta = 59) by done.
      rewrite (kbind_ok _ _ _ _ _ (rsect_ok s1 (freeblock s) (sn_sect _ Hs1) ltac:(lia))). change (img s1) with (img s). rewrite (sn_fresh _ Hs (freeblock s)) by lia.
      rewrite get32_zero. cbn [Z.eqb]. destruct (next_block_ok s1 Hs1) as [En2 Hs2]; [cbn; lia|]. rewrite (kbind_ok _ _ _ _ _ En2). cbv zeta.
      change (freeblock s1) with (freeblock s + 1) in *. set (s2 := set_freeblock _ s1) in *.
      rewrite (kbind_ok _ _ _ _ _ (wsect_ok s2 (freeblock s) _ (sn_sect _ Hs2) ltac:(lia))).
      destruct (slot_indirect s x c NDIRECT (freeblock s) (freeblock s + 1) Hs Hl) as (Hs' & Hl' & Hlv & Ha); [done|lia|right; done|]. fold x' in Hl', Hlv, Ha.
      rewrite (sn_fresh _ Hs (freeblock s)) in Hs', Hl', Hlv, Ha by lia.
      rewrite get32_put32 by (try apply zero_block_ok; done || unfold BSIZE, NDIRECT; lia). rewrite u32_small by (unfold is_u32, FSSIZE in *; lia).
      match type of Hs' with sane ?t => eexists _, t end. split; [rewrite Ha; reflexivity|]. split_and!; try done. cbn. lia.
    + set (x1 := x). assert (Hret : forall (s : mkfs), kret x s = Ok x s) by done. rewrite (kbind_ok _ _ _ _ _ (Hret s)). cbv zeta. change (i_addrs x !!! 12%nat) with (ind x).
      pose proof (la_own _ _ _ _ _ Hl (ind x) (owns_ind _ _ H0)) as Hir. pose proof (sn_free _ Hs) as Hfb. assert (Hnm : nmeta = 59) by done.
      rewrite (kbind_ok _ _ _ _ _ (rsect_ok s (ind x) (sn_sect _ Hs) ltac:(lia))). rewrite <- (addr_indirect (img s) x k) by done.
      destruct (Z.eqb_spec (addr_of (img s) x k) 0) as [E0|E0].
      * assert (k = n). { destruct (Z.lt_ge_cases k n) as [Hlt|]; [|lia]. apply (la_used _ _ _ _ _ Hl) in Hlt; [done|lia]. } subst k.
        replace n' with (n + 1) in * by lia. apply (la_ind _ _ _ _ _ Hl) in H0 as Hn12. destruct (blocks_succ n) as (_ & Eb & _); [lia|]. rewrite Eb in * by lia.
        destruct (next_block_ok s Hs) as [En Hs1]; [lia|]. rewrite (kbind_ok _ _ _ _ _ En). cbv zeta. set (s1 := set_freeblock _ s) in *.
        rewrite (kbind_ok _ _ _ _ _ (wsect_ok s1 (ind x) _ (sn_sect _ Hs1) ltac:(lia))).
        destruct (slot_indirect s x c n (ind x) (freeblock s) Hs Hl) as (Hs' & Hl' & Hlv & Ha); [lia|lia|left; done|]. rewrite (Hx (ind x)) in Hl', Hlv, Ha by done.
        rewrite get32_put32 by (try apply (sn_block _ Hs); change MAXFILE with 140 in *; unfold BSIZE, NDIRECT in *; lia). rewrite u32_small by (unfold is_u32, FSSIZE in *; lia).
        match type of Hs' with sane ?t => eexists _, t end. split; [rewrite Ha; reflexivity|]. split_and!; try done. cbn. lia.
      * assert (k < n) by (apply (la_used _ _ _ _ _ Hl); [lia|done]). replace n' with n in * by lia. exists x, s.
        split; [done|]. split; [done|]. split; [done|]. split; [apply leaves_refl|lia].
Qed.

(** The data blocks of a file of [len] bytes. *)
Definition nb (len : Z) : Z := (len + BSIZE - 1) / BSIZE.

Lemma blocks_mono a b : a <= b -> blocks a <= blocks b.
Proof. unfold blocks, NDIRECT. intros H. destruct (Z.ltb_spec 12 a), (Z.ltb_spec 12 b); lia. Qed.

Lemma nb_mono a b : a <= b -> nb a <= nb b.
Proof. unfold nb, BSIZE. intros H. Z.div_mod_to_equations. lia. Qed.

(** The bytes that a round takes end in the block where they start. *)
Lemma round_spec off len : 0 <= off -> 0 < len -> let k := off / BSIZE in let n1 := Z.min len ((k + 1) * BSIZE - off) in
  0 <= k <= nb off /\ 0 < n1 <= len /\ Z.max (nb off) (k + 1) = nb (off + n1) /\ nb (off + n1) = k + 1 /\ off mod BSIZE + n1 <= BSIZE /\
  (n1 < len -> (off + n1) mod BSIZE = 0 /\ off mod BSIZE + n1 = BSIZE).
Proof. unfold nb, BSIZE. cbv zeta. intros H0 H1. assert (off mod 512 = off - 512 * (off / 512)) by (by apply Z.mod_eq). Z.div_mod_to_equations. lia. Qed.

Lemma iappend_loop_ok fuel : forall p s x c,
  sane s -> laid (img s) x c (nb (Z.of_nat (length c))) (freeblock s) -> Forall is_byte p -> let len := Z.of_nat (length c + length p) in
  len <= MAXFILE * BSIZE -> freeblock s + (blocks (nb len) - blocks (nb (Z.of_nat (length c)))) <= FSSIZE ->
  (p <> [] -> (Z.of_nat (length c) mod BSIZE + Z.of_nat (length p) + BSIZE - 1) / BSIZE <= Z.of_nat fuel) ->
  exists x' s', iappend_loop fuel x (Z.of_nat (length c)) p s = Ok (x', len) s' /\ sane s' /\ laid (img s') x' (c ++ p) (nb len) (freeblock s') /\
    leaves x s x' s' /\ freeblock s' = freeblock s + (blocks (nb len) - blocks (nb (Z.of_nat (length c)))).
Proof.
  induction fuel as [|fuel IH]; intros [|b0 p0] s x c Hs Hl Hp len Hmax Hfit Hfuel.
  1,3: subst len; cbn [length iappend_loop] in *; rewrite Nat.add_0_r in *; exists x, s; rewrite app_nil_r; (split; [done|]); (split; [done|]); (split; [done|]); (split; [apply leaves_refl|lia]).
  { exfalso. specialize (Hfuel ltac:(done)). cbn [length] in Hfuel. pose proof (Z.mod_pos_bound (Z.of_nat (length c)) BSIZE ltac:(done)). unfold BSIZE in *. Z.div_mod_to_equations. lia. }
  specialize (Hfuel ltac:(done)). cbn [iappend_loop]. cbv zeta. set (p := b0 :: p0) in *. set (off := Z.of_nat (length c)) in *. change MAXFILE with 140 in *.
  assert (Hlen : len = off + Z.of_nat (length p)) by (unfold len, off; lia). assert (Hpos : 0 < Z.of_nat (length p)) by (unfold p; cbn; lia). clearbody p.
  destruct (round_spec off (Z.of_nat (length p)) ltac:(unfold off; lia) Hpos) as (Hk & Hn1 & Hmx & Hnb & Hin & Hfull). set (k := off / BSIZE) in *.
  set (n1 := Z.min (Z.of_nat (length p)) ((k + 1) * BSIZE - off)) in *.
  assert (Hk' : k < 140) by (apply Z.div_lt_upper_bound; [done|unfold BSIZE in *; lia]). rewrite (proj2 (Z.ltb_lt _ _) Hk'). cbn [negb].
  assert (Hsub : u32 (u32 ((k + 1) * BSIZE) - off) = (k + 1) * BSIZE - off).
  { rewrite (u32_small ((k + 1) * BSIZE)) by (unfold is_u32, BSIZE in *; lia). apply u32_small. unfold is_u32, BSIZE in *. lia. }
  rewrite Hsub. fold n1. assert (Hmono : nb (off + n1) <= nb len) by (apply nb_mono; lia). pose proof (blocks_mono _ _ Hmono) as Hbm.
  destruct (slot_ok s x c (nb off) k Hs Hl Hk ltac:(change MAXFILE with 140; lia)) as (x1 & s1 & E1 & Hs1 & Hl1 & Hlv1 & Hf1); [rewrite Hmx; lia|]. rewrite (kbind_ok _ _ _ _ _ E1).
  rewrite Hmx in *. destruct (laid_addr _ _ _ _ _ k Hl1 ltac:(lia)) as [Hane Har]. set (a := addr_of (img s1) x1 k) in *. pose proof (sn_free _ Hs1) as Hfb. assert (Hnm : nmeta = 59) by done.
  rewrite (kbind_ok _ _ _ _ _ (rsect_ok s1 a (sn_sect _ Hs1) ltac:(lia))). rewrite (kbind_ok _ _ _ _ _ (wsect_ok s1 a _ (sn_sect _ Hs1) ltac:(lia))).
  set (bs := take (Z.to_nat n1) p). assert (Hbl : Z.of_nat (length bs) = n1) by (unfold bs; rewrite length_take; lia).
  assert (Hbs : Forall is_byte bs) by (by apply Forall_take).
  destruct (laid_write (img s1) x1 c _ _ bs Hl1 (sn_block _ Hs1) Hbs) as [Hl2 Hown]; [fold off; fold k; lia|fold off; lia|]. fold off in Hl2, Hown. fold k in Hl2, Hown. fold a in Hl2, Hown.
  set (d := blit_block (img s1 a) (off - k * BSIZE) bs) in *. set (s2 := put a d s1).
  assert (Hs2 : sane s2).
  { apply put_sane; [done| |lia]. apply blit_ok; [apply (sn_block _ Hs1)|done| |]; unfold k; pose proof (Z.mod_eq off BSIZE ltac:(done)); pose proof (Z.mod_pos_bound off BSIZE ltac:(done)); lia. }
  assert (Howa : owns (img s1) x1 a) by (apply owns_addr; [change MAXFILE with 140; lia|done]).
  assert (Hlv2 : leaves x1 s1 x1 s2).
  { split; try done; [|by intros b Hb%Hown; left|by rewrite with_addrs_id]. intros b Hb Hno. unfold s2, put. cbn. rewrite fn_lookup_insert_ne; [done|]. intros Eb. apply Hno. by rewrite <- Eb. }
  assert (Hoff' : Z.of_nat (length (c ++ bs)) = off + n1) by (rewrite length_app; unfold off; lia).
  assert (Hu : u32 (off + n1) = off + n1) by (apply u32_small; unfold is_u32, BSIZE, off in *; lia). rewrite Hu, <- Hoff'.
  assert (Hlen' : Z.of_nat (length (c ++ bs) + length (drop (Z.to_nat n1) p)) = len) by (rewrite length_drop; lia).
  destruct (IH (drop (Z.to_nat n1) p) s2 x1 (c ++ bs) Hs2) as (x' & s' & E & Hs' & Hl' & Hlv' & Hf'); rewrite ?Hoff', ?Hlen'; try done.
  - by apply Forall_drop.
  - cbn [freeblock s2 put set_img]. rewrite Hf1. lia.
  - intros Hne. assert (Hlt : n1 < Z.of_nat (length p)).
    { destruct (Z.lt_ge_cases n1 (Z.of_nat (length p))) as [|Hge]; [done|]. exfalso. apply Hne, drop_ge. lia. }
    rewrite length_drop, Nat2Z.inj_sub, Z2Nat.id by lia. destruct (Hfull Hlt) as [-> Hb]. unfold BSIZE in *. Z.div_mod_to_equations. lia.
  - exists x', s'. rewrite Hlen' in E, Hl', Hf'. rewrite Hoff' in E, Hf'. split; [done|]. split; [done|]. rewrite <- app_assoc in Hl'. unfold bs in Hl'. rewrite take_drop in Hl'. split; [done|].
    split; [by eapply leaves_trans; [exact Hlv1|]; eapply leaves_trans|]. rewrite Hf'. cbn [freeblock s2 put set_img]. rewrite Hf1. lia.
Qed.
(** ** Inodes *)

Definition dinode (v : Z -> block) (inum : Z) : inode := read_dinode (v (IBLOCK inum super)) (dinode_off inum) no_dinode.

(** The fields of [x] that are not on the disk are those of [no_dinode]. *)
Definition plain (x : inode) : Prop :=
  with_addrs (i_addrs x) (with_size (i_size x) (with_meta (i_type x) (i_major x) (i_minor x) (i_nlink x) no_dinode)) = x.

Lemma iblock_range inum : 0 <= inum < 208 -> IBLOCK inum super = inum / 8 + 32 /\ 32 <= IBLOCK inum super < 58.
Proof.
  intros Hi. unfold IBLOCK. change IPB with 8. change (sb_inodestart super) with 32.
  rewrite u32_small by (unfold is_u32; Z.div_mod_to_equations; lia). Z.div_mod_to_equations. lia.
Qed.

Lemma dinode_plain v inum : plain (dinode v inum).
Proof. done. Qed.

Lemma laid_addrs v x y c n fb : i_addrs y = i_addrs x -> laid v x c n fb -> laid v y c n fb.
Proof.
  intros E [L1 L2 L3 L4 L5 L6 L7 L8 L9]. assert (Ei : ind y = ind x) by (unfold ind; by rewrite E).
  assert (Ea : forall k, addr_of v y k = addr_of v x k) by (intros k; unfold addr_of; by rewrite Ei, E).
  split; rewrite ?E; try done.
  - intros k Hk. rewrite Ea. by apply L3.
  - by rewrite Ei.
  - intros b [Hb Ho]. apply L5. rewrite Ei in Ho. split; [done|]. destruct Ho as [|(k & Hk & Ho)]; [by left|right]. exists k. by rewrite Ea in Ho.
  - intros k k' Hk Hk'. rewrite !Ea. by apply L6.
  - intros k Hk. rewrite Ea, Ei. by apply L7.
  - intros o Ho. unfold content. rewrite Ea. by apply L9.
Qed.

Lemma owns_addrs v x y b : i_addrs y = i_addrs x -> owns v y b <-> owns v x b.
Proof. intros E. unfold owns, addr_of, ind. by rewrite E. Qed.

Lemma laid_addrs_u32 v x c n fb : laid v x c n fb -> fb <= FSSIZE -> Forall is_u32 (i_addrs x).
Proof.
  intros Hl Hfb. apply Forall_forall. intros a Ha. apply list_elem_of_lookup in Ha as [k Hk]. pose proof (lookup_lt_Some _ _ _ Hk) as Hlt. rewrite (la_len _ _ _ _ _ Hl) in Hlt.
  destruct (Z.eq_dec a 0) as [->|Hne]; [by unfold is_u32|]. assert (Hr : nmeta <= a < fb).
  { apply (la_own _ _ _ _ _ Hl). split; [done|]. apply (list_lookup_total_correct _ _ _) in Hk. destruct (decide (k = 12)%nat) as [->|]; [left; symmetry; exact Hk|].
    right. exists (Z.of_nat k). split; [change MAXFILE with 140; lia|]. rewrite addr_direct by (unfold NDIRECT; lia). by rewrite Nat2Z.id. }
  change nmeta with 59 in Hr. unfold is_u32, FSSIZE in *. lia.
Qed.

(** What winode does. *)
Lemma winode_ok s inum x : sane s -> 0 <= inum < 208 -> inode_fits x -> plain x ->
  exists s', winode inum x s = Ok tt s' /\ sane s' /\ freeinode s' = freeinode s /\ freeblock s' = freeblock s /\
    (forall b, b <> IBLOCK inum super -> img s' b = img s b) /\ dinode (img s') inum = x /\
    (forall j, 0 <= j < 208 -> j <> inum -> dinode (img s') j = dinode (img s) j).
Proof.
  intros Hs Hi Hfit Hp. destruct (iblock_range inum Hi) as [Eb Hb]. destruct (dinode_place inum) as [Ho1 Ho2]. pose proof (sn_free _ Hs) as Hfb. assert (Hnm : nmeta = 59) by done.
  unfold winode. rewrite (kbind_ok _ _ _ _ _ (rsect_ok s (IBLOCK inum super) (sn_sect _ Hs) ltac:(unfold FSSIZE; lia))).
  set (d := write_dinode _ _ x). assert (Hd : is_block d) by apply write_dinode_ok, (sn_block _ Hs).
  exists (put (IBLOCK inum super) d s). split; [apply wsect_ok; [apply (sn_sect _ Hs)|unfold FSSIZE; lia]|].
  split; [apply put_sane; [done|done|lia]|]. split; [done|]. split; [done|]. split; [intros b Hne; cbn; by rewrite fn_lookup_insert_ne|]. split.
  - unfold dinode, put. cbn [img set_img]. rewrite fn_lookup_insert. unfold d. rewrite read_write_dinode; try done. apply (sn_block _ Hs).
  - intros j Hj Hne. destruct (iblock_range j Hj) as [Ej _]. unfold dinode, put. cbn [img set_img]. destruct (decide (IBLOCK j super = IBLOCK inum super)) as [E|E].
    + rewrite E, fn_lookup_insert. destruct (dinode_place j) as [Hj1 Hj2]. apply read_write_dinode_ne; [done|done|]. apply dinode_apart; try lia. change IPB with 8. lia.
    + by rewrite fn_lookup_insert_ne by done.
Qed.

Lemma rinode_ok s inum : sane s -> 0 <= inum < 208 -> rinode inum s = Ok (dinode (img s) inum) s.
Proof.
  intros Hs Hi. destruct (iblock_range inum Hi) as [_ Hb]. unfold rinode. by rewrite (kbind_ok _ _ _ _ _ (rsect_ok s (IBLOCK inum super) (sn_sect _ Hs) ltac:(unfold FSSIZE; lia))).
Qed.

(** ** The files of the image *)

(** Inode [inum] is a file of type [t] with the bytes [c]. *)
Record node (v : Z -> block) (fb inum t : Z) (c : list Z) : Prop := {
  nd_meta : i_type (dinode v inum) = t /\ i_major (dinode v inum) = 0 /\ i_minor (dinode v inum) = 0 /\ i_nlink (dinode v inum) = 1;
  nd_size : i_size (dinode v inum) = Z.of_nat (length c);
  nd_laid : laid v (dinode v inum) c (nb (Z.of_nat (length c))) fb }.

Definition size_of (x : Z * list Z) : Z := blocks (nb (Z.of_nat (length (snd x)))).
Fixpoint total (ns : list (Z * list Z)) : Z := match ns with [] => 0 | x :: ns => size_of x + total ns end.

(** The image holds the files [ns], from inode 1 on, and nothing else. *)
Record built (s : mkfs) (ns : list (Z * list Z)) : Prop := {
  bu_sane : sane s;
  bu_count : freeinode s = 1 + Z.of_nat (length ns);
  bu_few : Z.of_nat (length ns) <= 207;
  bu_free : freeblock s = nmeta + total ns;
  bu_node : forall i t c, ns !! i = Some (t, c) -> is_s16 t /\ node (img s) (freeblock s) (1 + Z.of_nat i) t c;
  bu_apart : forall i j b, (i < length ns)%nat -> (j < length ns)%nat -> owns (img s) (dinode (img s) (1 + Z.of_nat i)) b ->
    owns (img s) (dinode (img s) (1 + Z.of_nat j)) b -> i = j;
  bu_super : img s 1 = put_super zero_block super;
  bu_log : forall b, 2 <= b < 32 -> img s b = zero_block }.

Lemma nodes_total_app a b : total (a ++ b) = total a + total b.
Proof. induction a as [|x a IH]; cbn; [done|]. rewrite IH. lia. Qed.

Lemma nodes_total_insert ns i x y : ns !! i = Some x -> total (<[i := y]> ns) = total ns - size_of x + size_of y.
Proof.
  revert i. induction ns as [|z ns IH]; intros [|i] Hi; [done|done| |].
  - injection Hi as ->. change (<[0%nat := y]> (x :: ns)) with (y :: ns). cbn [total]. lia.
  - change (<[S i := y]> (z :: ns)) with (z :: <[i := y]> ns). cbn [total]. rewrite (IH i Hi). lia.
Qed.

Lemma node_range (ns : list (Z * list Z)) i x : Z.of_nat (length ns) <= 207 -> ns !! i = Some x -> 0 <= 1 + Z.of_nat i < 208.
Proof. intros Hl Hi%lookup_lt_Some. lia. Qed.

Lemma node_fits v fb inum t c : node v fb inum t c -> is_s16 t -> fb <= FSSIZE -> Z.of_nat (length c) <= MAXFILE * BSIZE -> inode_fits (dinode v inum).
Proof.
  intros [(M1 & M2 & M3 & M4) Hsz Hl] Ht Hfb Hc. split; rewrite ?M1, ?M2, ?M3, ?M4, ?Hsz; try done; try (by unfold is_s16).
  - change MAXFILE with 140 in Hc. unfold is_u32, BSIZE in *. lia.
  - by apply (laid_addrs_u32 v _ c _ fb Hl).
Qed.

(** The files that an operation on another one leaves alone. *)
Lemma node_kept s s' x x' i j ti tj ci cj : node (img s) (freeblock s) j tj cj -> leaves x s x' s' ->
  (forall b, owns (img s) (dinode (img s) j) b -> ~ owns (img s) x b) -> 0 <= j < 208 -> node (img s) (freeblock s) i ti ci -> x = dinode (img s) i -> sane s ->
  node (img s') (freeblock s') j tj cj /\ dinode (img s') j = dinode (img s) j /\
  (forall b, owns (img s') (dinode (img s) j) b <-> owns (img s) (dinode (img s) j) b).
Proof.
  intros [M Hsz Hl] Hlv Hap Hj [_ _ Hx] Ex Hs. destruct (iblock_range j Hj) as [_ Hb]. pose proof (sn_free _ Hs) as Hfb. change nmeta with 59 in Hfb.
  assert (Hd : dinode (img s') j = dinode (img s) j).
  { unfold dinode. rewrite (lv_img _ _ _ _ Hlv); [done|lia|]. rewrite Ex. intros Ho%(la_own _ _ _ _ _ Hx). change nmeta with 59 in Ho. lia. }
  destruct (laid_ext (img s) (img s') _ _ _ _ Hl) as [Hl' Ho].
  { intros b Hob. apply (lv_img _ _ _ _ Hlv); [|by apply Hap]. apply (la_own _ _ _ _ _ Hl b Hob). }
  split; [|done]. split; rewrite Hd; try done. apply (laid_mono _ _ _ _ _ _ Hl'), (lv_free _ _ _ _ Hlv).
Qed.

(** A write to an inode block leaves the data of every file alone. *)
Lemma laid_meta v v' x c n fb : laid v x c n fb -> (forall b, 58 < b -> v' b = v b) -> laid v' x c n fb /\ (forall b, owns v' x b <-> owns v x b).
Proof.
  intros Hl Hv. apply (laid_ext v); [done|]. intros b Hb. apply Hv. apply (la_own _ _ _ _ _ Hl) in Hb. change nmeta with 59 in Hb. lia.
Qed.

Lemma iappend_ok s ns i t c p : built s ns -> ns !! i = Some (t, c) -> Forall is_byte p -> Z.of_nat (length (c ++ p)) <= MAXFILE * BSIZE ->
  nmeta + total (<[i := (t, c ++ p)]> ns) <= FSSIZE -> exists s', iappend (1 + Z.of_nat i) p s = Ok tt s' /\ built s' (<[i := (t, c ++ p)]> ns).
Proof.
  intros Hbu Hi Hp Hmax Hfit. destruct Hbu as [Hs Hcnt Hfew Hfree Hnode Hap Hsup Hlog]. pose proof (node_range ns i _ Hfew Hi) as Hr.
  destruct (Hnode i t c Hi) as [Ht Hn]. destruct (Hn) as [HM Hsz Hl]. set (inum := 1 + Z.of_nat i) in *. set (x := dinode (img s) inum) in *.
  rewrite (nodes_total_insert _ _ _ _ Hi) in Hfit. unfold size_of in Hfit. cbn [snd] in Hfit. rewrite length_app in Hfit, Hmax.
  unfold iappend. rewrite (kbind_ok _ _ _ _ _ (rinode_ok s inum Hs Hr)). fold x. rewrite Hsz.
  destruct (iappend_loop_ok (length p / Z.to_nat BSIZE + 2) p s x c Hs Hl Hp Hmax) as (x' & s1 & E1 & Hs1 & Hl1 & Hlv & Hf1).
  { lia. }
  { intros _. change (Z.to_nat BSIZE) with 512%nat. pose proof (Nat.div_mod_eq (length p) 512). pose proof (Nat.mod_upper_bound (length p) 512 ltac:(lia)).
    pose proof (Z.mod_pos_bound (Z.of_nat (length c)) BSIZE ltac:(done)). unfold BSIZE in *. Z.div_mod_to_equations. lia. }
  rewrite (kbind_ok _ _ _ _ _ E1). set (len := Z.of_nat (length c + length p)) in *. set (x2 := with_size len x').
  assert (Hx' : i_type x' = t /\ i_major x' = 0 /\ i_minor x' = 0 /\ i_nlink x' = 1 /\ plain x2).
  { pose proof (lv_meta _ _ _ _ Hlv) as E. unfold x2. rewrite E. destruct HM as (M1 & M2 & M3 & M4). split_and!; [exact M1|exact M2|exact M3|exact M4|done]. }
  destruct Hx' as (X1 & X2 & X3 & X4 & X5). pose proof (sn_free _ Hs1) as Hfb1. assert (Hnm : nmeta = 59) by done.
  assert (Hfit2 : inode_fits x2).
  { split; cbn; rewrite ?X1, ?X2, ?X3, ?X4; try done; try (by unfold is_s16).
    - change MAXFILE with 140 in Hmax. unfold is_u32, len, BSIZE in *. lia.
    - apply (la_len _ _ _ _ _ Hl1).
    - apply (laid_addrs_u32 _ _ _ _ _ Hl1). lia. }
  destruct (winode_ok s1 inum x2 Hs1 Hr Hfit2 X5) as (s' & E' & Hs' & Hfi & Hfb & Him & Hd & Hdo).
  exists s'. split; [exact E'|]. assert (Hdata : forall b, 58 < b -> img s' b = img s1 b).
  { intros b Hb. apply Him. destruct (iblock_range inum Hr). lia. }
  assert (Hother : forall j tj cj, ns !! j = Some (tj, cj) -> j <> i -> is_s16 tj /\ node (img s') (freeblock s') (1 + Z.of_nat j) tj cj /\
    (forall b, owns (img s') (dinode (img s') (1 + Z.of_nat j)) b <-> owns (img s) (dinode (img s) (1 + Z.of_nat j)) b)).
  { intros j tj cj Hj Hne. destruct (Hnode j tj cj Hj) as [Htj Hnj]. pose proof (node_range ns j _ Hfew Hj) as Hrj.
    destruct (node_kept s s1 x x' inum (1 + Z.of_nat j) t tj c cj Hnj Hlv) as ([M1 Z1 L1] & D1 & O1); try done.
    { intros b Hob Hox. apply Hne. apply (Hap j i b); [by apply lookup_lt_Some in Hj|by apply lookup_lt_Some in Hi|done|done]. }
    assert (D2 : dinode (img s') (1 + Z.of_nat j) = dinode (img s1) (1 + Z.of_nat j)) by (apply Hdo; [done|lia]).
    destruct (laid_meta _ _ _ _ _ _ L1 Hdata) as [L2 O2]. split; [done|]. split.
    - split; rewrite D2; try done. by rewrite Hfb.
    - intros b. rewrite D2, O2, D1. apply O1. }
  assert (Hown : forall b, owns (img s') (dinode (img s') inum) b -> owns (img s) x b \/ freeblock s <= b).
  { intros b. rewrite Hd, (owns_addrs _ x' x2) by done. destruct (laid_meta _ _ _ _ _ _ Hl1 Hdata) as [_ ->]. apply (lv_owns _ _ _ _ Hlv). }
  assert (Hlow : forall b, b < 32 -> img s' b = img s b).
  { intros b Hb. destruct (iblock_range inum Hr). rewrite Him by lia. apply (lv_img _ _ _ _ Hlv); [pose proof (sn_free _ Hs); lia|].
    intros Ho%(la_own _ _ _ _ _ Hl). lia. }
  split.
  - done.
  - rewrite length_insert, Hfi, (lv_inode _ _ _ _ Hlv). done.
  - by rewrite length_insert.
  - rewrite Hfb, Hf1, (nodes_total_insert _ _ _ _ Hi), Hfree. unfold size_of. cbn [snd]. rewrite length_app. fold len. lia.
  - intros j tj cj Hj. destruct (decide (j = i)) as [->|Hne].
    + rewrite list_lookup_insert_eq in Hj by (by apply lookup_lt_Some in Hi). injection Hj as <- <-. split; [done|]. fold inum. split; rewrite Hd; cbn.
      * done.
      * by rewrite length_app.
      * rewrite length_app. fold len. rewrite Hfb. apply (laid_addrs _ x' x2); [done|]. by apply (laid_meta _ _ _ _ _ _ Hl1 Hdata).
    + rewrite list_lookup_insert_ne in Hj by done. destruct (Hother j tj cj Hj Hne) as (? & ? & _). done.
  - intros j k b. rewrite length_insert. intros Hj Hk Hoj Hok.
    assert (Hcase : forall m, (m < length ns)%nat -> owns (img s') (dinode (img s') (1 + Z.of_nat m)) b -> owns (img s) (dinode (img s) (1 + Z.of_nat m)) b /\ b < freeblock s \/ m = i /\ freeblock s <= b).
    { intros m Hm Ho. destruct (lookup_lt_is_Some_2 ns m Hm) as [[tm cm] Hnm']. destruct (Hnode m tm cm Hnm') as [_ Hnn]. destruct (decide (m = i)) as [->|Hne].
      - destruct (Hown b Ho) as [Ho'|?]; [left|by right]. split; [done|]. apply (la_own _ _ _ _ _ Hl b Ho').
      - left. destruct (Hother m tm cm Hnm' Hne) as (_ & _ & Hiff). apply Hiff in Ho. split; [done|]. apply (la_own _ _ _ _ _ (nd_laid _ _ _ _ _ Hnn) b Ho). }
    destruct (Hcase j Hj Hoj) as [[? ?]|[-> ?]], (Hcase k Hk Hok) as [[? ?]|[-> ?]]; try lia. by apply (Hap j k b).
  - rewrite Hlow by lia. done.
  - intros b Hb. rewrite Hlow by lia. by apply Hlog.
Qed.

Lemma laid_empty v x fb : i_addrs x = replicate 13 0 -> nmeta <= fb -> laid v x [] 0 fb.
Proof.
  intros Hx Hfb.
  assert (Hi : ind x = 0) by (unfold ind; by rewrite Hx).
  assert (Ha : forall k, 0 <= k < MAXFILE -> addr_of v x k = 0).
  { intros k Hk. unfold addr_of. rewrite Hi, Hx. destruct (Z.ltb_spec k NDIRECT) as [H12|]; [|done].
    rewrite lookup_total_replicate_2; [done|unfold NDIRECT in *; lia]. }
  split.
  - by rewrite Hx.
  - by vm_compute.
  - intros k Hk. rewrite Ha by done. lia.
  - rewrite Hi. split; [done|]. by unfold NDIRECT.
  - intros b [Hb [->|(k & Hk & <-)]]; [done|]. by rewrite Ha in Hb.
  - intros k k' Hk Hk' _. by rewrite Ha.
  - intros k Hk. by rewrite Hi.
  - done.
  - intros o Ho. unfold content. rewrite Ha by (by apply off_block). done.
Qed.

Lemma ialloc_ok s ns t : built s ns -> Z.of_nat (length ns) < 207 -> is_s16 t ->
  exists s', ialloc t s = Ok (1 + Z.of_nat (length ns)) s' /\ built s' (ns ++ [(t, [])]).
Proof.
  intros [Hs Hcnt Hfew Hfree Hnode Hap Hsup Hlog] Hlt Ht. set (inum := 1 + Z.of_nat (length ns)). unfold ialloc, kbind at 1, gets. rewrite Hcnt. fold inum.
  unfold kbind at 1, modify. rewrite u32_small by (unfold is_u32, inum; lia). set (s1 := set_freeinode _ s).
  assert (Hs1 : sane s1) by (destruct Hs; by split). set (x := with_size 0 _).
  assert (Ex : i_type x = t) by (unfold x; cbn; unfold s16, is_s16 in *; rewrite Z.mod_small; lia).
  assert (Hfit : inode_fits x) by (split; rewrite ?Ex; try done; by repeat constructor).
  destruct (winode_ok s1 inum x Hs1 ltac:(unfold inum; lia) Hfit eq_refl) as (s' & E & Hs' & Hfi & Hfb & Him & Hd & Hdo). rewrite (kbind_ok _ _ _ _ _ E).
  exists s'. split; [done|]. change (img s1) with (img s) in *. change (freeblock s1) with (freeblock s) in *. destruct (iblock_range inum) as [_ Hib]; [unfold inum; lia|].
  assert (Hdata : forall b, 58 < b -> img s' b = img s b) by (intros b Hb; apply Him; lia).
  assert (Hnew : laid (img s') x [] 0 (freeblock s)) by (apply laid_empty; [done|apply (sn_free _ Hs)]).
  assert (Hold : forall j tj cj, ns !! j = Some (tj, cj) -> is_s16 tj /\ node (img s') (freeblock s') (1 + Z.of_nat j) tj cj /\
    (forall b, owns (img s') (dinode (img s') (1 + Z.of_nat j)) b <-> owns (img s) (dinode (img s) (1 + Z.of_nat j)) b)).
  { intros j tj cj Hj. destruct (Hnode j tj cj Hj) as [Htj [M Z0 L]]. pose proof (node_range ns j _ Hfew Hj) as Hrj. pose proof (lookup_lt_Some _ _ _ Hj).
    assert (D : dinode (img s') (1 + Z.of_nat j) = dinode (img s) (1 + Z.of_nat j)) by (apply Hdo; [done|unfold inum; lia]).
    destruct (laid_meta _ _ _ _ _ _ L Hdata) as [L2 O2]. split; [done|]. split; [split; rewrite D, ?Hfb; done|]. intros b. by rewrite D, O2. }
  split.
  - done.
  - rewrite length_app, Hfi. cbn. unfold inum. lia.
  - rewrite length_app. cbn. lia.
  - rewrite nodes_total_app, Hfb, Hfree. assert (total [(t, [])] = 0) as -> by done. lia.
  - intros j tj cj [Hj|[Hj Ej]]%lookup_app_Some; [destruct (Hold j tj cj Hj) as (? & ? & _); done|].
    destruct (j - length ns)%nat as [|m] eqn:Em; [|done]. injection Ej as <- <-. replace (1 + Z.of_nat j) with inum by (unfold inum; lia).
    split; [done|]. split; rewrite Hd; try done. by rewrite Hfb.
  - intros j k b. rewrite length_app. cbn [length]. intros Hj Hk Hoj Hok.
    assert (Hcase : forall m, (m < length ns + 1)%nat -> owns (img s') (dinode (img s') (1 + Z.of_nat m)) b -> (m < length ns)%nat /\ owns (img s) (dinode (img s) (1 + Z.of_nat m)) b).
    { intros m Hm Ho. destruct (decide (m < length ns)%nat) as [Hml|Hml].
      - destruct (lookup_lt_is_Some_2 ns m Hml) as [[tm cm] Hnm']. destruct (Hold m tm cm Hnm') as (_ & _ & Hiff). split; [done|]. by apply Hiff.
      - replace (1 + Z.of_nat m) with inum in Ho by (unfold inum; lia). rewrite Hd in Ho. apply (la_own _ _ _ _ _ Hnew) in Ho as Hr. exfalso. destruct Ho as [Hb [Hib'|(q & Hq & Hqb)]].
        + apply Hb. by rewrite Hib'.
        + assert (q < 0); [|lia]. apply (la_used _ _ _ _ _ Hnew q Hq). by rewrite Hqb. }
    destruct (Hcase j Hj Hoj), (Hcase k Hk Hok). by apply (Hap j k b).
  - rewrite Him by lia. done.
  - intros b Hb. rewrite Him by lia. by apply Hlog.
Qed.

Lemma total_nonneg ns : 0 <= total ns.
Proof.
  induction ns as [|x ns IH]; [done|]. cbn. assert (0 <= size_of x); [|lia]. unfold size_of, blocks, nb, BSIZE, NDIRECT. case_match; Z.div_mod_to_equations; lia.
Qed.

Lemma size_mono t c p : size_of (t, c) <= size_of (t, c ++ p).
Proof. unfold size_of. cbn [snd]. apply blocks_mono, nb_mono. rewrite length_app. lia. Qed.

Lemma copy_in_ok reads : forall s ns i t c, built s ns -> ns !! i = Some (t, c) -> Forall (Forall is_byte) reads ->
  Z.of_nat (length (c ++ concat reads)) <= MAXFILE * BSIZE -> nmeta + total (<[i := (t, c ++ concat reads)]> ns) <= FSSIZE ->
  exists s', copy_in (1 + Z.of_nat i) reads s = Ok tt s' /\ built s' (<[i := (t, c ++ concat reads)]> ns).
Proof.
  induction reads as [|buf reads IH]; intros s ns i t c Hb Hi Hr Hmax Hfit; cbn [copy_in concat] in *.
  - rewrite app_nil_r, list_insert_id by done. by exists s.
  - apply Forall_cons in Hr as [Hbuf Hr]. rewrite app_assoc in Hmax, Hfit |- *.
    assert (H1 : nmeta + total (<[i := (t, c ++ buf)]> ns) <= FSSIZE).
    { rewrite (nodes_total_insert _ _ _ _ Hi) in Hfit. rewrite (nodes_total_insert _ _ _ _ Hi). pose proof (size_mono t (c ++ buf) (concat reads)). lia. }
    destruct (iappend_ok s ns i t c buf Hb Hi Hbuf) as (s1 & E1 & Hb1); [rewrite (length_app (c ++ buf)) in Hmax; lia|done|]. rewrite (kbind_ok _ _ _ _ _ E1).
    pose proof (lookup_lt_Some _ _ _ Hi) as Hlt. destruct (IH s1 (<[i := (t, c ++ buf)]> ns) i t (c ++ buf) Hb1) as (s2 & E2 & Hb2); try done.
    + by rewrite list_lookup_insert_eq.
    + by rewrite list_insert_insert_eq.
    + rewrite list_insert_insert_eq in Hb2. by exists s2.
Qed.

(** ** main *)

(** The directory entries and the files that the arguments give, from inode
    [inum] on. *)
Fixpoint dir_of (inum : Z) (args : list arg) : list Z :=
  match args with [] => [] | (name, _) :: args => entry_of (u16 inum) (strip name) ++ dir_of (inum + 1) args end.
Definition node_of (a : arg) : Z * list Z := (T_FILE, concat (default [] (snd a))).

(** An argument that mkfs accepts. *)
Definition good_arg (a : arg) : Prop :=
  existsb (Z.eqb 47) (fst a) = false /\ Forall is_byte (fst a) /\ Z.of_nat (length (snd (node_of a))) <= MAXFILE * BSIZE /\
  exists reads, snd a = Some reads /\ Forall (Forall is_byte) reads.

Lemma strip_bytes name : Forall is_byte name -> Forall is_byte (strip name).
Proof.
  intros Hn. unfold strip. destruct name as [|c name]; [done|]. apply Forall_cons in Hn as [Hc Hn]. repeat case_match; subst; try done; by constructor.
Qed.

Lemma entry_bytes inum name : Forall is_byte name -> Forall is_byte (entry_of inum name).
Proof. apply is_byte_dirent. Qed.

Lemma dir_length inum args : length (dir_of inum args) = (16 * length args)%nat.
Proof.
  revert inum. induction args as [|[name f] args IH]; intros inum; [done|]. cbn [dir_of length]. rewrite length_app, IH. unfold entry_of. rewrite length_dirent. lia.
Qed.

Lemma total_mono_root r r' ns : size_of r <= size_of r' -> total (r :: ns) <= total (r' :: ns).
Proof. cbn. lia. Qed.

Lemma add_files_ok args : forall s r ns, built s ((T_DIR, r) :: ns) -> Forall good_arg args ->
  Z.of_nat (length (r ++ dir_of (2 + Z.of_nat (length ns)) args)) <= MAXFILE * BSIZE -> Z.of_nat (length ns + length args) < 207 ->
  nmeta + total ((T_DIR, r ++ dir_of (2 + Z.of_nat (length ns)) args) :: ns ++ map node_of args) <= FSSIZE ->
  exists s', add_files 1 args s = Ok tt s' /\ built s' ((T_DIR, r ++ dir_of (2 + Z.of_nat (length ns)) args) :: ns ++ map node_of args).
Proof.
  induction args as [|[name file] args IH]; intros s r ns Hb Hg Hmax Hfew Hfit; cbn [add_files dir_of map] in *.
  { rewrite !app_nil_r in *. by exists s. }
  apply Forall_cons in Hg as [(Hsl & Hnm & Hlen & reads & Er & Hbytes) Hg]. cbn in Hsl, Hnm, Er. subst file. rewrite Hsl.
  set (inum := 2 + Z.of_nat (length ns)) in *. set (e := entry_of (u16 inum) (strip name)) in *. unfold node_of in Hlen, Hfit. cbn [snd default] in Hlen, Hfit. fold node_of in Hfit.
  set (c := concat reads) in *. set (D := dir_of (inum + 1) args) in *.
  assert (Htot : total ((T_DIR, r ++ e ++ D) :: ns ++ (T_FILE, c) :: map node_of args) = size_of (T_DIR, r ++ e ++ D) + total ns + size_of (T_FILE, c) + total (map node_of args)).
  { cbn [total]. rewrite nodes_total_app. cbn [total]. lia. }
  change ((T_FILE, concat (default [] (Some reads))) :: map node_of args) with ((T_FILE, c) :: map node_of args) in *.
  pose proof (total_nonneg (map node_of args)) as Hnn. pose proof Hfit as Hsum. change (nmeta + total ((T_DIR, r ++ e ++ D) :: ns ++ (T_FILE, c) :: map node_of args) <= FSSIZE) in Hsum. rewrite Htot in Hsum.
  assert (Hre : size_of (T_DIR, r ++ e) <= size_of (T_DIR, r ++ e ++ D)) by (rewrite (app_assoc r); apply size_mono).
  assert (H0c : size_of (T_FILE, []) <= size_of (T_FILE, c)) by apply (size_mono T_FILE [] c).
  destruct (ialloc_ok s ((T_DIR, r) :: ns) T_FILE Hb) as (s1 & E1 & Hb1); [cbn [length] in *; lia|done|]. rewrite (kbind_ok _ _ _ _ _ E1).
  replace (1 + Z.of_nat (length ((T_DIR, r) :: ns))) with inum in * by (unfold inum; cbn [length]; lia).
  destruct (iappend_ok s1 (((T_DIR, r) :: ns) ++ [(T_FILE, [])]) 0 T_DIR r e Hb1) as (s2 & E2 & Hb2); [done|by apply entry_bytes, strip_bytes| | |].
  { rewrite (app_assoc r), length_app in Hmax. lia. }
  { change (<[0%nat := (T_DIR, r ++ e)]> (((T_DIR, r) :: ns) ++ [(T_FILE, [])])) with ((T_DIR, r ++ e) :: ns ++ [(T_FILE, [])]). cbn [total]. rewrite nodes_total_app. cbn [total]. lia. }
  change (1 + Z.of_nat 0) with 1 in E2. rewrite (kbind_ok _ _ _ _ _ E2).
  change (<[0%nat := (T_DIR, r ++ e)]> (((T_DIR, r) :: ns) ++ [(T_FILE, [])])) with ((T_DIR, r ++ e) :: ns ++ [(T_FILE, [])]) in Hb2.
  assert (Hins : <[S (length ns) := (T_FILE, [] ++ c)]> ((T_DIR, r ++ e) :: ns ++ [(T_FILE, [])]) = (T_DIR, r ++ e) :: ns ++ [(T_FILE, c)]).
  { change (<[S (length ns) := (T_FILE, [] ++ c)]> ((T_DIR, r ++ e) :: ns ++ [(T_FILE, [])])) with ((T_DIR, r ++ e) :: <[length ns := (T_FILE, c)]> (ns ++ [(T_FILE, [])])).
    f_equal. rewrite insert_app_r_alt, Nat.sub_diag by lia. done. }
  destruct (copy_in_ok reads s2 ((T_DIR, r ++ e) :: ns ++ [(T_FILE, [])]) (S (length ns)) T_FILE [] Hb2) as (s3 & E3 & Hb3).
  { change (((T_DIR, r ++ e) :: ns ++ [(T_FILE, [])]) !! S (length ns)) with ((ns ++ [(T_FILE, [])]) !! length ns). by rewrite lookup_app_r, Nat.sub_diag by lia. }
  { done. }
  { done. }
  { fold c. rewrite Hins. cbn [total]. rewrite nodes_total_app. cbn [total]. lia. }
  fold c in Hb3. rewrite Hins in Hb3. replace (1 + Z.of_nat (S (length ns))) with inum in E3 by (unfold inum; lia). rewrite (kbind_ok _ _ _ _ _ E3).
  assert (Hl1 : 2 + Z.of_nat (length (ns ++ [(T_FILE, c)])) = inum + 1) by (rewrite length_app; cbn; unfold inum; lia).
  destruct (IH s3 (r ++ e) (ns ++ [(T_FILE, c)]) Hb3 Hg) as (s4 & E4 & Hb4); rewrite ?Hl1, <- ?app_assoc; try done.
  - rewrite length_app. cbn [length] in *. lia.
  - exists s4. rewrite Hl1, <- !app_assoc in Hb4. done.
Qed.

Lemma clear_ok todo : forall i s, nsect s = i -> 0 <= i -> i + Z.of_nat todo <= FSSIZE -> (forall b, img s b = zero_block) ->
  exists s', clear_sectors i todo s = Ok tt s' /\ nsect s' = i + Z.of_nat todo /\ (forall b, img s' b = zero_block) /\ freeinode s' = freeinode s /\ freeblock s' = freeblock s.
Proof.
  induction todo as [|todo IH]; intros i s Hn Hi Hle Hz; cbn [clear_sectors].
  { exists s. split; [done|]. split; [lia|done]. }
  unfold kbind, wsect, modify. rewrite seek_small by lia.
  destruct (IH (i + 1) (set_img (<[i := zero_block]> (img s)) (Z.max (nsect s) (i + 1)) s)) as (s' & E & Hn' & Hz' & Hc); try (cbn; lia).
  - intros b. cbn. destruct (decide (b = i)) as [->|]; [by rewrite fn_lookup_insert|by rewrite fn_lookup_insert_ne].
  - exists s'. split; [done|]. split; [lia|done].
Qed.

(** After the superblock, before the first inode. *)
Lemma cleared : exists s, built s [] /\ forall A (k : MK A),
  (modify (set_freeblock nmeta) ;;; clear_sectors 0 (Z.to_nat FSSIZE) ;;; wsect 1 (put_super zero_block super) ;;; k) start = k s.
Proof. destruct (clear_ok (Z.to_nat FSSIZE) 0 (set_freeblock nmeta start)) as (s & E & Hn & Hz & Hfi & Hfb); try done.
  change (0 + Z.of_nat (Z.to_nat FSSIZE)) with FSSIZE in Hn. set (d := put_super zero_block super). assert (Hd : is_block d) by (unfold d, put_super; repeat apply put32_ok; apply zero_block_ok).
  exists (put 1 d s). split; [|intros A k; unfold kbind at 1, modify; rewrite (kbind_ok _ _ _ _ _ E); by rewrite (kbind_ok _ _ _ _ _ (wsect_ok s 1 d Hn ltac:(done)))].
  cbn in Hfb, Hfi. assert (Hs : sane s).
  { split; [done| |by rewrite Hfb|by intros b _; rewrite Hz]. intros b. rewrite Hz. apply zero_block_ok. }
  split; try done.
  - apply put_sane; [done|done|]. rewrite Hfb. done.
  - intros i j b Hi. cbn in Hi. lia.
  - intros b Hb. unfold put. cbn [img set_img]. rewrite fn_lookup_insert_ne by lia. apply Hz.
Qed.

Lemma set_bits_ok todo : forall buf i, is_block buf -> 0 <= i -> i + Z.of_nat todo <= BPB ->
  is_block (set_bits buf i todo) /\ (forall c, 0 <= c < BPB -> bit_set (set_bits buf i todo) c = bit_set buf c || bool_decide (i <= c < i + Z.of_nat todo)).
Proof.
  induction todo as [|todo IH]; intros buf i Hb Hi Hle; cbn [set_bits].
  { split; [done|]. intros c _. rewrite bool_decide_false, orb_false_r by lia. done. }
  destruct (IH (mark buf i) (i + 1)) as [Hok Hbit]; [by apply put8_ok|lia|lia|]. split; [exact Hok|]. intros c Hc. change (bit_set (set_bits (mark buf i) (i + 1) todo) c = bit_set buf c || bool_decide (i <= c < i + Z.of_nat (S todo))).
  rewrite Hbit, bit_set_mark by (done || lia). destruct (Z.eqb_spec c i) as [->|Hne]; cbn [orb].
  - rewrite bool_decide_true, orb_true_r by lia. done.
  - destruct (bit_set buf c); [done|]. cbn [orb]. apply bool_decide_ext. lia.
Qed.

Lemma bit_set_zero c : bit_set zero_block c = false.
Proof. unfold bit_set. by rewrite get8_zero, Z.land_0_l. Qed.

(** ** The finished image *)

(** The bytes of the root directory. *)
Definition root_of (args : list arg) : list Z := entry_of 1 [46] ++ entry_of 1 [46; 46] ++ dir_of 2 args.
Definition root_size (args : list arg) : Z := (Z.of_nat (length (root_of args)) / BSIZE + 1) * BSIZE.
Definition used (args : list arg) : Z := nmeta + total ((T_DIR, root_of args) :: map node_of args).

Record made (v : Z -> block) (args : list arg) : Prop := {
  md_blocks : forall b, is_block (v b);
  md_super : sb_of (v 1) = super;
  md_log : forall b, 2 <= b < 32 -> v b = zero_block;
  md_bitmap : forall c, 0 <= c < BPB -> bit_set (v 58) c = bool_decide (c < used args);
  md_root : i_type (dinode v 1) = T_DIR /\ i_nlink (dinode v 1) = 1 /\ i_size (dinode v 1) = root_size args /\
    laid v (dinode v 1) (root_of args) (nb (Z.of_nat (length (root_of args)))) (used args);
  md_file : forall j a, args !! j = Some a -> node v (used args) (2 + Z.of_nat j) T_FILE (snd (node_of a));
  md_apart : forall i j b, 1 <= i <= 1 + Z.of_nat (length args) -> 1 <= j <= 1 + Z.of_nat (length args) -> owns v (dinode v i) b -> owns v (dinode v j) b -> i = j }.

Definition fits (args : list arg) : Prop := Forall good_arg args /\ 2 + Z.of_nat (length args) <= NINODES /\ used args <= FSSIZE.

Lemma root_length args : length (root_of args) = (16 * (2 + length args))%nat.
Proof. unfold root_of, entry_of. rewrite !length_app, !length_dirent, dir_length. lia. Qed.

(** The last steps of main. *)
Lemma finish_ok s args : built s ((T_DIR, root_of args) :: map node_of args) -> fits args ->
  exists s', (din <- rinode 1 ;;
    let off := u32 (u32 (i_size din / BSIZE + 1) * BSIZE) in
    winode 1 (with_size off din) ;;; used <- gets freeblock ;; balloc used) s = Ok tt s' /\ made (img s') args.
Proof.
  intros [Hs Hcnt Hfew Hfree Hnode Hap Hsup Hlog] (Hg & Hn & Hfit). unfold NINODES in Hn.
  destruct (Hnode 0%nat T_DIR (root_of args) eq_refl) as [_ Hroot]. destruct (Hroot) as [HM Hsz Hl]. change (1 + Z.of_nat 0) with 1 in *.
  rewrite (kbind_ok _ _ _ _ _ (rinode_ok s 1 Hs ltac:(lia))). cbv zeta. set (x := dinode (img s) 1) in *. rewrite Hsz.
  pose proof (root_length args) as Hrl. assert (Hrs : 0 <= root_size args < 8192).
  { unfold root_size. rewrite Hrl. unfold BSIZE. Z.div_mod_to_equations. lia. }
  assert (Eoff : u32 (u32 (Z.of_nat (length (root_of args)) / BSIZE + 1) * BSIZE) = root_size args).
  { unfold root_size in *. rewrite (u32_small (_ + 1)) by (unfold is_u32, BSIZE in *; Z.div_mod_to_equations; lia). apply u32_small. unfold is_u32. lia. }
  rewrite Eoff. set (x2 := with_size (root_size args) x). change (freeblock s = used args) in Hfree.
  assert (Hfits : inode_fits x2).
  { assert (Hf : inode_fits x) by (apply (node_fits _ _ _ _ _ Hroot); [done|lia|]; rewrite Hrl; change MAXFILE with 140; unfold BSIZE; lia).
    destruct Hf as [T1 T2 T3 T4 T5 T6 T7]. split; try done. unfold is_u32. cbn. lia. }
  destruct (winode_ok s 1 x2 Hs ltac:(lia) Hfits eq_refl) as (s1 & E1 & Hs1 & Hfi & Hfb & Him & Hd & Hdo). rewrite (kbind_ok _ _ _ _ _ E1).
  unfold kbind at 1, gets. rewrite Hfb, Hfree. assert (Hu : nmeta <= used args <= FSSIZE) by (rewrite <- Hfree; apply (sn_free _ Hs)).
  assert (Hu' : 59 <= used args <= 1000) by exact Hu. unfold balloc. rewrite (proj2 (Z.ltb_lt (used args) (BSIZE * 8))) by (unfold BSIZE; lia).
  change (sb_bmapstart super) with 58. rewrite (wsect_ok s1 58 _ (sn_sect _ Hs1)) by done.
  destruct (set_bits_ok (Z.to_nat (used args)) zero_block 0 zero_block_ok ltac:(done)) as [Hblk Hbits]; [rewrite Z2Nat.id by lia; change BPB with 4096; lia|].
  set (d := set_bits zero_block 0 (Z.to_nat (used args))) in *. eexists. split; [reflexivity|].
  set (v := img (put 58 d s1)). assert (Hv58 : v 58 = d) by (unfold v, put; cbn [img set_img]; apply fn_lookup_insert).
  assert (Hv : forall b, b <> 58 -> b <> IBLOCK 1 super -> v b = img s b) by (intros b H58 Hne; unfold v, put; cbn [img set_img]; rewrite fn_lookup_insert_ne by done; by apply Him).
  change (IBLOCK 1 super) with 32 in Hv.
  assert (Hdi : forall j, 0 <= j < 208 -> dinode v j = dinode (img s1) j).
  { intros j Hj. destruct (iblock_range j Hj) as [_ Hb]. unfold dinode, v, put. cbn [img set_img]. by rewrite fn_lookup_insert_ne by lia. }
  assert (Hdj : forall j, 0 <= j < 208 -> j <> 1 -> dinode v j = dinode (img s) j) by (intros j Hj Hne; rewrite Hdi, Hdo; done).
  assert (Hd1 : dinode v 1 = x2) by (by rewrite Hdi, Hd by lia).
  assert (Hdata : forall b, 58 < b -> v b = img s b) by (intros b Hb; apply Hv; lia).
  assert (Haddr : forall j, 0 <= j < 208 -> i_addrs (dinode v j) = i_addrs (dinode (img s) j)).
  { intros j Hj. destruct (decide (j = 1)) as [->|Hne]; [by rewrite Hd1|by rewrite Hdj]. }
  assert (Hof : forall i, (i < S (length args))%nat -> exists t c, ((T_DIR, root_of args) :: map node_of args) !! i = Some (t, c)).
  { intros i Hi. destruct (lookup_lt_is_Some_2 ((T_DIR, root_of args) :: map node_of args) i) as [[t c] E]; [cbn; rewrite length_map; lia|]. by exists t, c. }
  split.
  - apply (put_sane s1 58 d Hs1 Hblk). rewrite Hfb. change (freeblock s) with (freeblock s). lia.
  - rewrite Hv, Hsup by lia. by vm_compute.
  - intros b Hb. rewrite Hv by lia. by apply Hlog.
  - intros c Hc. rewrite Hv58, Hbits, bit_set_zero by done. cbn [orb]. apply bool_decide_ext. rewrite Z2Nat.id by lia. lia.
  - rewrite Hd1. destruct HM as (M1 & _ & _ & M4). split; [exact M1|]. split; [exact M4|]. split; [done|]. apply (laid_addrs v x x2); [done|]. rewrite <- Hfree. by apply (laid_meta _ _ _ _ _ _ Hl Hdata).
  - intros j a Hj. pose proof (lookup_lt_Some _ _ _ Hj) as Hlt.
    destruct (Hnode (S j) T_FILE (snd (node_of a))) as [_ [MM Z0 L0]]; [change (map node_of args !! j = Some (node_of a)); by rewrite list_lookup_fmap, Hj|].
    replace (1 + Z.of_nat (S j)) with (2 + Z.of_nat j) in * by lia. split; rewrite Hdj by lia; try done. rewrite <- Hfree. by apply (laid_meta _ _ _ _ _ _ L0 Hdata).
  - intros i j b Hi Hj Hoi Hoj.
    assert (Hcase : forall m, 1 <= m <= 1 + Z.of_nat (length args) -> owns v (dinode v m) b -> owns (img s) (dinode (img s) (1 + Z.of_nat (Z.to_nat (m - 1)))) b).
    { intros m Hm Ho. replace (1 + Z.of_nat (Z.to_nat (m - 1))) with m by lia. rewrite (owns_addrs _ (dinode (img s) m)) in Ho by (apply Haddr; lia).
      destruct (Hof (Z.to_nat (m - 1)) ltac:(lia)) as (t & c & E). destruct (Hnode _ _ _ E) as [_ Hnn]. replace (1 + Z.of_nat (Z.to_nat (m - 1))) with m in Hnn by lia.
      by apply (laid_meta _ _ _ _ _ _ (nd_laid _ _ _ _ _ Hnn) Hdata). }
    assert (Z.to_nat (i - 1) = Z.to_nat (j - 1)); [|lia].
    apply (Hap _ _ b); [cbn; rewrite length_map; lia|cbn; rewrite length_map; lia|by apply Hcase|by apply Hcase].
Qed.

Lemma main_ok args : fits args -> exists s', main args start = Ok tt s' /\ made (img s') args.
Proof.
  intros Hf. pose proof Hf as (Hg & Hn & Hu). pose proof (root_length args) as Hrl. unfold NINODES in Hn.
  pose proof (total_nonneg (map node_of args)) as Hnn. unfold used in Hu. cbn [total] in Hu.
  assert (Hsub : forall p q, root_of args = p ++ q -> nmeta + total [(T_DIR, p)] <= FSSIZE /\ Z.of_nat (length p) <= MAXFILE * BSIZE).
  { intros p q E. pose proof (size_mono T_DIR p q) as Hm. rewrite <- E in Hm. cbn [total]. split; [lia|].
    rewrite E, length_app in Hrl. change MAXFILE with 140. unfold BSIZE. lia. }
  destruct cleared as (s0 & H0 & Hk). unfold main. rewrite Hk. clear Hk.
  destruct (ialloc_ok s0 [] T_DIR H0) as (s1 & E1 & H1); [done|done|]. change (1 + Z.of_nat (length [])) with 1 in E1. rewrite (kbind_ok _ _ _ _ _ E1).
  change (negb (1 =? ROOTINO)) with false. cbv iota. change (u16 1) with 1.
  assert (Hdot : Forall is_byte [46]) by (repeat constructor; done). assert (Hdots : Forall is_byte [46; 46]) by (repeat constructor; done).
  destruct (Hsub (entry_of 1 [46]) (entry_of 1 [46; 46] ++ dir_of 2 args) eq_refl) as [Ha1 Hb1].
  destruct (iappend_ok s1 [(T_DIR, [])] 0 T_DIR [] (entry_of 1 [46]) H1 eq_refl) as (s2 & E2 & H2); [by apply entry_bytes|done|done|].
  change (1 + Z.of_nat 0) with 1 in E2. rewrite (kbind_ok _ _ _ _ _ E2). change (<[0%nat := ?y]> [?x]) with [y] in H2. cbn [app] in H2.
  destruct (Hsub (entry_of 1 [46] ++ entry_of 1 [46; 46]) (dir_of 2 args)) as [Ha2 Hb2]; [unfold root_of; by rewrite app_assoc|].
  destruct (iappend_ok s2 [(T_DIR, entry_of 1 [46])] 0 T_DIR _ (entry_of 1 [46; 46]) H2 eq_refl) as (s3 & E3 & H3); [by apply entry_bytes|done|done|].
  change (1 + Z.of_nat 0) with 1 in E3. rewrite (kbind_ok _ _ _ _ _ E3). change (<[0%nat := ?y]> [?x]) with [y] in H3.
  assert (Er : (entry_of 1 [46] ++ entry_of 1 [46; 46]) ++ dir_of 2 args = root_of args) by (unfold root_of; by rewrite app_assoc).
  destruct (add_files_ok args s3 (entry_of 1 [46] ++ entry_of 1 [46; 46]) [] H3 Hg) as (s4 & E4 & H4).
  - change (2 + Z.of_nat (length [])) with 2. rewrite Er, Hrl. change MAXFILE with 140. unfold BSIZE. lia.
  - cbn. lia.
  - change (2 + Z.of_nat (length [])) with 2. rewrite Er. exact Hu.
  - change (2 + Z.of_nat (length [])) with 2 in H4. rewrite Er in H4. rewrite (kbind_ok _ _ _ _ _ E4). by apply finish_ok.
Qed.
