(* ===== verification/MkfsImage.v ===== *)
(** * What the kernel finds on the image that mkfs makes

    The root directory read entry by entry, the files read byte by byte, and
    the invariants that the theorems on Fs.v assume of a mounted disk. *)

From S2P Require Import Prelude Mem Block Bio Log LogFacts Fs FsBlocks FsAlloc FsFiles FsInode FsData FsDir Mkfs MkfsFacts.
#[local] Open Scope Z_scope.
#[local] Open Scope kernel_scope.

(** ** The bytes of a file of the image *)

Lemma laid_read v x c n fb : laid v x c n fb -> Z.of_nat (length c) <= MAXFILE * BSIZE -> bytes v x 0 (Z.of_nat (length c)) = c.
Proof.
  intros Hl Hc. apply list_eq. intros i. unfold bytes. rewrite Nat2Z.id, list_lookup_fmap. destruct (decide (i < length c)%nat) as [Hi|Hi].
  - rewrite lookup_seq_lt by done. destruct (lookup_lt_is_Some_2 c i Hi) as [b E]. cbn [fmap option_fmap option_map].
    rewrite (la_bytes _ _ _ _ _ Hl) by lia. unfold byte_at. replace (Z.to_nat (0 + Z.of_nat (0 + i))) with i by lia. by rewrite E.
  - rewrite lookup_seq_ge by lia. by rewrite lookup_ge_None_2 by lia.
Qed.

(** A file laid out as entries of 16 bytes, and past them zeros. *)
Definition empty_entry : list Z := replicate 16 0.

Lemma byte_at_entries es k i : Forall (fun e => length e = 16%nat) es -> 0 <= i < 16 ->
  byte_at (concat es) (16 * Z.of_nat k + i) = byte_at (default empty_entry (es !! k)) i.
Proof.
  intros Hes Hi. revert k. induction Hes as [|e es He Hes IH]; intros k; cbn [concat].
  - unfold byte_at. rewrite !lookup_nil. cbn [default]. unfold empty_entry. rewrite lookup_replicate_2; [done|lia].
  - unfold byte_at in *. destruct k as [|k]; cbn [lookup list_lookup default].
    + f_equal. rewrite lookup_app_l by lia. f_equal.
    + rewrite <- IH, lookup_app_r by lia. do 2 f_equal. lia.
Qed.

Lemma laid_entry v x es n fb k : laid v x (concat es) n fb -> Forall (fun e => length e = 16%nat) es -> 16 * Z.of_nat k + 16 <= MAXFILE * BSIZE ->
  entry v x k = default empty_entry (es !! k).
Proof.
  intros Hl Hes Hk. set (e := default empty_entry (es !! k)).
  assert (He : length e = 16%nat).
  { unfold e. destruct (es !! k) as [d|] eqn:E; [|done]. by apply (proj1 (Forall_lookup _ _) Hes k). }
  unfold entry, bytes. apply list_eq. intros i. rewrite list_lookup_fmap. change (Z.to_nat 16) with 16%nat. destruct (decide (i < 16)%nat) as [Hi|Hi].
  - rewrite lookup_seq_lt by done. cbn [fmap option_fmap option_map]. rewrite (la_bytes _ _ _ _ _ Hl), byte_at_entries by (done || lia). fold e. unfold byte_at.
    destruct (lookup_lt_is_Some_2 e i) as [b E]; [lia|]. replace (Z.to_nat (Z.of_nat (0 + i))) with i by lia. by rewrite E.
  - rewrite lookup_seq_ge by lia. by rewrite lookup_ge_None_2 by lia.
Qed.

(** ** The root directory *)

(** The entries of the root: the two of the directory itself, then one for
    each argument. *)
Definition root_entries (args : list arg) : list (list Z) :=
  entry_of 1 [46] :: entry_of 1 [46; 46] :: imap (fun j (a : arg) => entry_of (u16 (2 + Z.of_nat j)) (strip (fst a))) args.

Lemma root_entries_16 args : Forall (fun e => length e = 16%nat) (root_entries args).
Proof.
  do 2 (constructor; [apply length_dirent|]). apply Forall_lookup. intros j e. rewrite list_lookup_imap. intros (a & _ & ->)%fmap_Some. apply length_dirent.
Qed.

Lemma dir_of_entries args inum : concat (imap (fun j (a : arg) => entry_of (u16 (inum + Z.of_nat j)) (strip (fst a))) args) = dir_of inum args.
Proof.
  revert inum. induction args as [|[name f] args IH]; intros inum; [done|]. cbn [dir_of]. rewrite <- IH, imap_cons. cbn [concat fst]. rewrite Z.add_0_r. do 2 f_equal.
  apply imap_ext. intros j a _. cbn. by replace (inum + 1 + Z.of_nat j) with (inum + Z.of_nat (S j)) by lia.
Qed.

Lemma concat_root args : concat (root_entries args) = root_of args.
Proof. unfold root_entries, root_of. cbn [concat]. by rewrite dir_of_entries. Qed.

(** Each short name comes once. *)
Definition distinct (args : list arg) : Prop := NoDup (short [46] :: short [46; 46] :: map (fun a : arg => short (strip (fst a))) args).

Lemma dir_find_first name es rest k e : es !! k = Some e -> de_inum e <> 0 -> short (de_name e) = short name ->
  NoDup (map (fun d => short (de_name d)) es) -> dir_find name (es ++ rest) = Some (k, de_inum e).
Proof.
  revert k. induction es as [|d es IH]; intros k Hk He Hn Hnd; [done|]. cbn [app]. rewrite dir_find_cons. apply NoDup_cons in Hnd as [Hd Hnd].
  destruct k as [|k]; [injection Hk as ->; by rewrite decide_True by done|]. rewrite decide_False.
  - by rewrite (IH k Hk He Hn Hnd).
  - intros [_ Hs]. apply Hd. rewrite <- Hs, <- Hn. apply list_elem_of_fmap. exists e. split; [done|by apply (list_elem_of_lookup_2 _ k)].
Qed.

Lemma root_names args : map (fun d => short (de_name d)) (root_entries args) = short [46] :: short [46; 46] :: map (fun a : arg => short (strip (fst a))) args.
Proof.
  unfold root_entries. cbn [map]. unfold entry_of at 1 2. rewrite !dirent_short. do 2 f_equal. apply list_eq. intros j. rewrite !list_lookup_fmap, list_lookup_imap.
  change (list Z * option (list (list Z)))%type with arg. destruct (@lookup nat arg _ _ j args) as [a|]; [|done]. change (Some (short (de_name (dirent (u16 (2 + Z.of_nat j)) (strip (fst a))))) = Some (short (strip (fst a)))). by rewrite dirent_short.
Qed.

Lemma root_scan v args : made v args -> fits args -> exists rest, entries v (dinode v 1) = root_entries args ++ rest.
Proof.
  intros Hm (_ & Hn & _). destruct (md_root _ _ Hm) as (_ & _ & Hsz & Hl). unfold NINODES in Hn. pose proof (root_length args) as Hrl.
  rewrite <- concat_root in Hl at 1.
  assert (Hc : (length (root_entries args) <= count (dinode v 1) <= 512)%nat).
  { unfold count. rewrite Hsz. unfold root_size, root_entries, BSIZE. rewrite Hrl. cbn [length]. rewrite length_imap. Z.div_mod_to_equations. lia. }
  exists (drop (length (root_entries args)) (entries v (dinode v 1))). rewrite <- (take_drop (length (root_entries args)) (entries v (dinode v 1))) at 1. f_equal.
  apply list_eq. intros k. destruct (decide (k < length (root_entries args))%nat) as [Hk|Hk].
  - rewrite lookup_take_lt by done. unfold entries. rewrite list_lookup_fmap, lookup_seq_lt by lia. cbn.
    rewrite (laid_entry _ _ _ _ _ k Hl (root_entries_16 args)) by (change MAXFILE with 140; unfold BSIZE; lia).
    by destruct (lookup_lt_is_Some_2 _ _ Hk) as [e ->].
  - rewrite lookup_take_ge, lookup_ge_None_2 by lia. done.
Qed.

Lemma root_finds v args j name reads : made v args -> fits args -> distinct args -> args !! j = Some (name, reads) ->
  dir_find (strip name) (entries v (dinode v 1)) = Some ((2 + j)%nat, 2 + Z.of_nat j).
Proof.
  intros Hm Hf Hd Hj. destruct (root_scan v args Hm Hf) as [rest ->]. destruct Hf as (_ & Hn & _). unfold NINODES in Hn. assert (Hlt : (j < @length arg args)%nat) by exact (lookup_lt_Some _ _ _ Hj).
  assert (Hu : forall z, 0 <= z < 65536 -> u16 (u16 z) = z) by (intros z Hz; unfold u16; by rewrite (Z.mod_small z), Z.mod_small by lia).
  assert (He : root_entries args !! (2 + j)%nat = Some (entry_of (u16 (2 + Z.of_nat j)) (strip name))).
  { change (imap (fun j (a : arg) => entry_of (u16 (2 + Z.of_nat j)) (strip (fst a))) args !! j = Some (entry_of (u16 (2 + Z.of_nat j)) (strip name))). rewrite list_lookup_imap. exact (f_equal (fmap (M:=option) (fun a : arg => entry_of (u16 (2 + Z.of_nat j)) (strip (fst a)))) Hj). }
  rewrite (dir_find_first _ _ _ _ _ He); unfold entry_of in *; rewrite ?dirent_inum, ?dirent_short.
  - by rewrite Hu by lia.
  - rewrite Hu by lia. lia.
  - done.
  - by rewrite root_names.
Qed.

(** C28: for arguments that mkfs accepts, and that fit the disk, with names
    that are still distinct in the directory, mkfs completes
    and the image holds them: the superblock describes the disk, the log is
    empty, and the root directory has each file under its name without the
    leading underscore, as an inode of type T_FILE with one link whose bytes
    are those read. *)
Theorem mkfs_holds_files args j name reads :
  fits args -> distinct args -> args !! j = Some (name, Some reads) ->
  exists s', main args start = Ok tt s' /\
    let v := img s' in let ino := 2 + Z.of_nat j in let x := dinode v ino in
    sb_of (v 1) = super /\ get32 (v 2) 0 = 0 /\
    dir_find (strip name) (entries v (dinode v ROOTINO)) = Some ((2 + j)%nat, ino) /\
    i_type x = T_FILE /\ i_nlink x = 1 /\ i_size x = Z.of_nat (length (concat reads)) /\
    bytes v x 0 (i_size x) = concat reads.
Proof.
  intros Hf Hd Hj. destruct (main_ok args Hf) as (s' & E & Hm). exists s'. split; [done|]. cbv zeta.
  destruct (md_file _ _ Hm j _ Hj) as [(H1 & H2 & H3 & H4) Hsz Hl].
  destruct (proj1 (Forall_lookup _ _) (proj1 Hf) j _ Hj) as (_ & _ & Hlen & _).
  change (snd (node_of (name, Some reads))) with (concat reads) in *.
  split; [apply (md_super _ args Hm)|]. split; [by rewrite (md_log _ args Hm) by lia|]. split; [by apply (root_finds _ args _ _ (Some reads))|].
  split; [done|]. split; [done|]. split; [done|]. rewrite Hsz. by apply (laid_read _ _ _ _ _ Hl).
Qed.

(** Two files, the second over two blocks. *)
Definition two_files : list arg := [([95; 99; 97; 116], Some [[127; 69; 76; 70]]); ([104; 105], Some [replicate 512 7; [8; 9]])].

Lemma two_files_fit : fits two_files /\ distinct two_files.
Proof.
  split; [|refine (bool_decide_eq_true_1 (NoDup _) _); by vm_compute]. split; [|split; [done|vm_compute; done]].
  repeat constructor; try done; try (eexists; split; [reflexivity|repeat constructor; done]); try (apply Forall_replicate; done).
Qed.

Lemma mkfs_holds_files_witness : exists s', main two_files start = Ok tt s' /\
  dir_find [99; 97; 116] (entries (img s') (dinode (img s') ROOTINO)) = Some (2%nat, 2) /\
  bytes (img s') (dinode (img s') 2) 0 (i_size (dinode (img s') 2)) = [127; 69; 76; 70].
Proof.
  destruct two_files_fit as [Hf Hd]. destruct (mkfs_holds_files two_files 0 _ _ Hf Hd eq_refl) as (s' & E & _ & _ & H1 & _ & _ & _ & H2). exists s'. split; [exact E|]. split; [exact H1|exact H2].
Defined.

(** ** The disk mounted *)

(** A kernel that has mounted the image [v]. *)
Record mounted (v : Z -> block) (s : fsys) : Prop := {
  mt_sb : sb s = super;
  mt_view : forall b, fview s b = v b;
  mt_start : log_start (flog s) = sb_logstart super;
  mt_size : log_size (flog s) = sb_nlog super }.

(** Such a state: the buffer cache just set up over the image, which binit
    leaves with no buffer in use. *)
Lemma can_mount v : (forall b, is_block (v b)) -> exists s, mounted v s.
Proof.
  intros Hv. destruct (binit_ok 1 {| bufs := bufs blank; next := next blank; prev := prev blank; bc_locked := false; disk := v; writes := [] |}
    (fun _ => eq_refl) Hv) as (c & _ & Hok & Hd & _ & Hcl).
  assert (Hp : pinned c []).
  { intros b. split; [by intros []%not_elem_of_nil|]. intros (i & Hi & _ & Hdi). by rewrite Hcl in Hdi. }
  exists {| flog := {| lcache := c; log_locked := false; log_start := 2; log_size := 30; outstanding := 0; committing := false;
       log_dev := 1; lh_n := 0; lh_block := fun _ => 0 |}; icache := fun _ => no_dinode; ic_locked := false; sb := super |}.
  split; try done. intros b. unfold fview. cbn. by rewrite (view_nothing 1 c Hok Hp), Hd.
Qed.

(** The inode [inum] as ilock reads it into a slot of the device. *)
Definition loaded (s : fsys) (inum : Z) (x : inode) : Prop :=
  exists x0, i_dev x0 = 1 /\ x = read_dinode (fview s (IBLOCK inum super)) (dinode_off inum) x0.

Lemma mounted_marked v s args c : made v args -> mounted v s -> 0 <= c < FSSIZE -> marked s c <-> c < used args.
Proof.
  intros Hm [M1 M2 _ _] Hc. unfold FSSIZE in Hc. unfold marked, BBLOCK. rewrite M1. change (sb_bmapstart super) with 58.
  rewrite Z.div_small, u32_small, Z.mod_small by (change BPB with 4096; unfold is_u32; lia). rewrite M2. change (0 + 58) with 58.
  rewrite (md_bitmap _ args Hm) by (change BPB with 4096; lia). apply bool_decide_eq_true.
Qed.

(** What is laid out on the image is a file of the mounted disk. *)
Lemma mounted_file v s args inum x c n : made v args -> mounted v s -> used args <= FSSIZE -> laid v (dinode v inum) c n (used args) ->
  0 <= i_size (dinode v inum) <= n * BSIZE -> loaded s inum x -> file_ok s x.
Proof.
  intros Hm Hmt Hu Hl Hsz (x0 & Hdev & ->). pose proof Hmt as [M1 M2 _ _]. rewrite M2. set (x := read_dinode _ _ x0).
  assert (Hlx : laid v x c n (used args)) by (by apply (laid_addrs v (dinode v inum))). change (i_size (dinode v inum)) with (i_size x) in Hsz.
  assert (Hlv : laid (fview s) x c n (used args)) by (apply (laid_ext v); [done|]; intros b _; apply M2).
  clear Hl Hlx. pose proof (la_n _ _ _ _ _ Hlv) as Hn. unfold FSSIZE in Hu. split.
  - done.
  - apply (la_len _ _ _ _ _ Hlv).
  - unfold BSIZE in *. lia.
  - intros b Hb. apply (la_own _ _ _ _ _ Hlv) in Hb. change nmeta with 59 in Hb. rewrite M1. change (data_lo super) with 59. change (sb_size super) with 1000.
    split; [lia|]. apply (mounted_marked v s args); [done|done| |]; unfold FSSIZE; lia.
  - apply (la_inj _ _ _ _ _ Hlv).
  - apply (la_apart _ _ _ _ _ Hlv).
  - intros k Hk Hlt. apply (la_used _ _ _ _ _ Hlv); unfold BSIZE in *; lia.
Qed.

Lemma mounted_root v s args x : made v args -> mounted v s -> fits args -> loaded s ROOTINO x ->
  i_type x = T_DIR /\ i_size x mod 16 = 0 /\
  ((2 + Z.of_nat (length args)) mod 32 <> 0 -> file_ok s x) /\
  ((2 + Z.of_nat (length args)) mod 32 = 0 -> addr_of (fview s) x (i_size x / BSIZE - 1) = 0).
Proof.
  intros Hm Hmt (_ & Hn & Hu) Hx. destruct (md_root _ _ Hm) as (Hty & _ & Hsz & Hl). pose proof (root_length args) as Hrl. unfold NINODES in Hn.
  assert (Eq : i_type x = i_type (dinode v 1) /\ i_size x = root_size args /\ forall k, addr_of (fview s) x k = addr_of v (dinode v 1) k).
  { destruct Hx as (x0 & _ & ->). destruct Hmt as [M1 M2 _ _]. rewrite M2. split; [done|]. split; [exact Hsz|]. intros k.
    change (addr_of (fview s) (dinode v 1) k = addr_of v (dinode v 1) k). apply addr_of_ext. intros _. apply M2. }
  destruct Eq as (-> & Esz & Ha). rewrite Esz, Ha. unfold root_size in *. set (q := Z.of_nat (length (root_of args)) / BSIZE) in *.
  assert (Hq : 0 <= q <= 8) by (unfold q; rewrite Hrl; unfold BSIZE; Z.div_mod_to_equations; lia).
  split; [done|]. split; [by rewrite (Z.mul_comm (q + 1)), Z.mul_comm; unfold BSIZE; rewrite <- (Z.mod_mul (32 * (q + 1)) 16) by lia; f_equal; lia|]. split.
  - intros H32. apply (mounted_file v s args 1 x (root_of args) _ Hm Hmt Hu Hl); [|exact Hx]. rewrite Hsz. fold q.
    assert (nb (Z.of_nat (length (root_of args))) = q + 1); [|unfold BSIZE; nia].
    unfold nb, q. rewrite Hrl. unfold BSIZE in *. Z.div_mod_to_equations. lia.
  - intros H32. rewrite Z.div_mul by done. replace (q + 1 - 1) with q by lia.
    destruct (Z.eq_dec (addr_of v (dinode v 1) q) 0) as [|Hne]; [done|]. apply (la_used _ _ _ _ _ Hl) in Hne; [|change MAXFILE with 140; lia].
    exfalso. revert Hne. unfold nb, q. rewrite Hrl. unfold BSIZE in *. Z.div_mod_to_equations. lia.
Qed.

(** C31: a kernel that has mounted the image of mkfs is in a state where the
    invariants of the file system hold: the regions of the disk are in order,
    exactly the blocks in use are marked in the bitmap, every file is well
    formed and no two files share a block.  The root is well formed too, unless
    its entries end at the end of a block: then its size, rounded up by a whole
    block, counts a block that it does not have. *)
Theorem mkfs_layout args s' s :
  fits args -> main args start = Ok tt s' -> mounted (img s') s ->
  layout_ok FSSIZE s /\
  (forall c, 0 <= c < FSSIZE -> marked s c <-> c < used args) /\
  (forall j x, (j < length args)%nat -> loaded s (2 + Z.of_nat j) x -> file_ok s x) /\
  (forall x, loaded s ROOTINO x -> if decide ((2 + Z.of_nat (length args)) mod 32 = 0)
     then addr_of (fview s) x (i_size x / BSIZE - 1) = 0 else dir_ok s x) /\
  (forall i j x y b, 1 <= i <= 1 + Z.of_nat (length args) -> 1 <= j <= 1 + Z.of_nat (length args) ->
     loaded s i x -> loaded s j y -> owns (fview s) x b -> owns (fview s) y b -> i = j).
Proof.
  intros Hf E Hmt. destruct (main_ok args Hf) as (s2 & E2 & Hm). rewrite E in E2. injection E2 as <-. clear E. pose proof Hf as (_ & Hn & Hu).
  assert (Hpos : nmeta <= used args) by (unfold used; pose proof (total_nonneg ((T_DIR, root_of args) :: map node_of args)); lia).
  change nmeta with 59 in Hpos. pose proof Hmt as [M1 M2 M3 M4]. assert (Hmk := fun c => mounted_marked (img s') s args c Hm Hmt).
  split; [|split; [exact Hmk|split; [|split]]].
  - split; rewrite ?M1, ?M3, ?M4; try done. intros c Hc. change (data_lo super) with 59 in Hc. apply Hmk; unfold FSSIZE; lia.
  - intros j x Hj Hx. destruct (lookup_lt_is_Some_2 args j Hj) as [a Ha]. destruct (md_file _ _ Hm j a Ha) as [_ Hsz Hl].
    apply (mounted_file _ _ _ _ _ _ _ Hm Hmt Hu Hl); [|done]. rewrite Hsz. pose proof (la_size _ _ _ _ _ Hl). lia.
  - intros x Hx. destruct (mounted_root _ _ _ _ Hm Hmt Hf Hx) as (H1 & H2 & H3 & H4). case_decide as H32; [by apply H4|]. split; [by apply H3|done|done].
  - intros i j x y b Hi Hj (x0 & _ & ->) (y0 & _ & ->) Ho Hp. rewrite !M2 in *.
    assert (Hown : forall m z0, owns (fview s) (read_dinode (img s' (IBLOCK m super)) (dinode_off m) z0) b -> owns (img s') (dinode (img s') m) b).
    { intros m z0 Hb. change (owns (fview s) (dinode (img s') m) b) in Hb. revert Hb. apply (owns_ext (img s')). intros _. apply M2. }
    apply (md_apart _ _ Hm i j b Hi Hj); [exact (Hown i x0 Ho)|exact (Hown j y0 Hp)].
Qed.

Lemma mkfs_layout_witness : exists s' s, main two_files start = Ok tt s' /\ mounted (img s') s /\ layout_ok FSSIZE s /\
  (forall x, loaded s 3 x -> file_ok s x) /\ (forall x, loaded s ROOTINO x -> dir_ok s x) /\ ~ marked s 64 /\ marked s 62.
Proof.
  destruct two_files_fit as [Hf _]. destruct (main_ok two_files Hf) as (s' & E & Hm). destruct (can_mount (img s') (md_blocks _ _ Hm)) as [s Hs].
  exists s', s. split; [exact E|]. split; [exact Hs|]. destruct (mkfs_layout two_files s' s Hf E Hs) as (H1 & H2 & H3 & H4 & _). clear E.
  split; [exact H1|]. split; [intros x Hx; apply (H3 1%nat x); [cbn; lia|exact Hx]|]. split; [exact H4|].
  split; rewrite H2 by (unfold FSSIZE; lia); vm_compute; done.
Defined.
