(* ===== verification/Proc.v ===== *)
(** * Processes and scheduling (proc.c, proc.h, sysproc.c)

    The process table, the per-CPU [proc] pointers and the spin locks of
    Spinlock.v.  Every routine runs on a CPU [me].  A routine that switches
    stacks in [swtch] is cut there: the first part ends with the context
    saved in [p->context], the part after [swtch] runs when a scheduler, on
    any CPU, has chosen the process again.  [p->context] is therefore the
    place in the kernel where the process goes on, with the local variables
    that live across the switch.  What the other subsystems do for a process
    (memory, open files, inodes) is behind the interface [services]. *)

From S2P Require Import Prelude Mem Spinlock.
#[local] Open Scope Z_scope.
#[local] Open Scope kernel_scope.

Definition NPROC : nat := 64.
Definition NOFILE : nat := 16.

Inductive procstate := UNUSED | EMBRYO | SLEEPING | RUNNABLE | RUNNING | ZOMBIE.
#[export] Instance procstate_eq_dec : EqDecision procstate.
Proof. solve_decision. Defined.

(** The channel of a sleep: the address of a process table entry or of
    another object. *)
Inductive chan := ChanProc (i : nat) | ChanAt (a : Z).
#[export] Instance chan_eq_dec : EqDecision chan.
Proof. solve_decision. Defined.

(** Where a process that is not running goes on: forkret, or the return of
    [swtch] in sched called by yield, by sleep with a lock [lk] other than
    that of the table, by the sleep of wait, or by exit (which is never chosen
    again); with the local [intena] of sched. *)
Inductive context :=
| Forkret
| InYield (intena : bool)
| InSleep (lk : Z) (intena : bool)
| InWait (intena : bool)
| InExit.

(** The saved registers of the trap frame. *)
Inductive reg := EAX | ESP | EIP | EFLAGS | CS | DS | ES | SS | OTHER (k : Z).
#[export] Instance reg_eq_dec : EqDecision reg.
Proof. solve_decision. Defined.
Definition trapframe : Type := reg -> Z.

Record proc := {
  sz : Z;
  pgdir : Z;
  kstack : Z;
  state : procstate;
  pid : Z;
  parent : option nat;
  tf : trapframe;
  ctx : context;
  pchan : option chan;
  killed : bool;
  ofile : list (option nat);
  cwd : option nat;
  name : list Z }.

Definition set_state (x : procstate) (p : proc) : proc :=
  {| sz := sz p; pgdir := pgdir p; kstack := kstack p; state := x; pid := pid p; parent := parent p; tf := tf p;
     ctx := ctx p; pchan := pchan p; killed := killed p; ofile := ofile p; cwd := cwd p; name := name p |}.
Definition set_mem (s d k : Z) (p : proc) : proc :=
  {| sz := s; pgdir := d; kstack := k; state := state p; pid := pid p; parent := parent p; tf := tf p;
     ctx := ctx p; pchan := pchan p; killed := killed p; ofile := ofile p; cwd := cwd p; name := name p |}.
Definition set_pid (x : Z) (p : proc) : proc :=
  {| sz := sz p; pgdir := pgdir p; kstack := kstack p; state := state p; pid := x; parent := parent p; tf := tf p;
     ctx := ctx p; pchan := pchan p; killed := killed p; ofile := ofile p; cwd := cwd p; name := name p |}.
Definition set_parent (x : option nat) (p : proc) : proc :=
  {| sz := sz p; pgdir := pgdir p; kstack := kstack p; state := state p; pid := pid p; parent := x; tf := tf p;
     ctx := ctx p; pchan := pchan p; killed := killed p; ofile := ofile p; cwd := cwd p; name := name p |}.
Definition set_tf (x : trapframe) (p : proc) : proc :=
  {| sz := sz p; pgdir := pgdir p; kstack := kstack p; state := state p; pid := pid p; parent := parent p; tf := x;
     ctx := ctx p; pchan := pchan p; killed := killed p; ofile := ofile p; cwd := cwd p; name := name p |}.
Definition set_ctx (x : context) (p : proc) : proc :=
  {| sz := sz p; pgdir := pgdir p; kstack := kstack p; state := state p; pid := pid p; parent := parent p; tf := tf p;
     ctx := x; pchan := pchan p; killed := killed p; ofile := ofile p; cwd := cwd p; name := name p |}.
Definition set_chan (x : option chan) (p : proc) : proc :=
  {| sz := sz p; pgdir := pgdir p; kstack := kstack p; state := state p; pid := pid p; parent := parent p; tf := tf p;
     ctx := ctx p; pchan := x; killed := killed p; ofile := ofile p; cwd := cwd p; name := name p |}.
Definition set_killed (x : bool) (p : proc) : proc :=
  {| sz := sz p; pgdir := pgdir p; kstack := kstack p; state := state p; pid := pid p; parent := parent p; tf := tf p;
     ctx := ctx p; pchan := pchan p; killed := x; ofile := ofile p; cwd := cwd p; name := name p |}.
Definition set_files (x : list (option nat)) (c : option nat) (p : proc) : proc :=
  {| sz := sz p; pgdir := pgdir p; kstack := kstack p; state := state p; pid := pid p; parent := parent p; tf := tf p;
     ctx := ctx p; pchan := pchan p; killed := killed p; ofile := x; cwd := c; name := name p |}.
Definition set_name (x : list Z) (p : proc) : proc :=
  {| sz := sz p; pgdir := pgdir p; kstack := kstack p; state := state p; pid := pid p; parent := parent p; tf := tf p;
     ctx := ctx p; pchan := pchan p; killed := killed p; ofile := ofile p; cwd := cwd p; name := x |}.

(** What proc.c calls in vm.c, kalloc.c, file.c, fs.c and log.c, on a state
    [E] of their own; null pointers are 0 or [None]. *)
Class services (E : Type) := {
  kalloc : K E Z;
  kfree : Z -> K E unit;
  setupkvm : K E Z;
  inituvm : Z -> K E unit;
  allocuvm : Z -> Z -> Z -> K E Z;
  deallocuvm : Z -> Z -> Z -> K E Z;
  copyuvm : Z -> Z -> K E Z;
  freevm : Z -> K E unit;
  switchuvm : Z -> Z -> K E unit;      (* p->kstack and p->pgdir *)
  switchkvm : K E unit;
  filedup : nat -> K E nat;
  fileclose : nat -> K E unit;
  idup : nat -> K E nat;
  iput : nat -> K E unit;
  namei_root : K E (option nat);
  begin_op : K E unit;
  end_op : K E unit }.

(** The table, the locks and the interrupt state of the CPUs, [cpus[c].proc],
    and the rest of the kernel. *)
Record pstate (E : Type) := {
  mach : machine;
  procs : nat -> proc;
  nextpid : Z;
  initproc : option nat;
  cpu_proc : nat -> option nat;
  env : E }.
Arguments mach {E} p. Arguments procs {E} p _. Arguments nextpid {E} p. Arguments initproc {E} p.
Arguments cpu_proc {E} p _. Arguments env {E} p.
Arguments Build_pstate {E} mach procs nextpid initproc cpu_proc env.

(** [ptable.lock] is the lock 0. *)
Definition PTABLE : Z := 0.

Section proc.
Context {E : Type} `{!services E}.

Definition P : Type -> Type := K (pstate E).

Definition set_mach (m : machine) (s : pstate E) : pstate E :=
  Build_pstate m (procs s) (nextpid s) (initproc s) (cpu_proc s) (env s).
Definition set_proc (i : nat) (p : proc) (s : pstate E) : pstate E :=
  Build_pstate (mach s) (<[i := p]> (procs s)) (nextpid s) (initproc s) (cpu_proc s) (env s).
Definition set_procs (f : nat -> proc) (s : pstate E) : pstate E :=
  Build_pstate (mach s) f (nextpid s) (initproc s) (cpu_proc s) (env s).
Definition set_nextpid (n : Z) (s : pstate E) : pstate E :=
  Build_pstate (mach s) (procs s) n (initproc s) (cpu_proc s) (env s).
Definition set_initproc (i : option nat) (s : pstate E) : pstate E :=
  Build_pstate (mach s) (procs s) (nextpid s) i (cpu_proc s) (env s).
Definition set_cpu_proc (c : nat) (p : option nat) (s : pstate E) : pstate E :=
  Build_pstate (mach s) (procs s) (nextpid s) (initproc s) (<[c := p]> (cpu_proc s)) (env s).
Definition set_env (e : E) (s : pstate E) : pstate E :=
  Build_pstate (mach s) (procs s) (nextpid s) (initproc s) (cpu_proc s) e.

Definition on_mach {A} (m : L A) : P A := fun s =>
  match m (mach s) with
  | Ok a m' => Ok a (set_mach m' s)
  | Panic e => Panic e
  | Fault e => Fault e
  | NoFuel => NoFuel
  end.
Definition on_env {A} (m : K E A) : P A := fun s =>
  match m (env s) with
  | Ok a e => Ok a (set_env e s)
  | Panic e => Panic e
  | Fault e => Fault e
  | NoFuel => NoFuel
  end.

Definition get (i : nat) : P proc := gets (fun s => procs s i).
Definition upd_proc (i : nat) (f : proc -> proc) : P unit := modify (fun s => set_proc i (f (procs s i)) s).

Section cpu.
Context (me : nat).

(** [acquire(lk)]: one try; while another CPU has the lock the run has no
    result.  The call stack that acquire records is of no interest here. *)
Definition acquire (lk : Z) : P unit := on_mach (Spinlock.acquire 1 me lk 0).
Definition release (lk : Z) : P unit := on_mach (Spinlock.release me lk).

Definition pinit : P unit := on_mach (Spinlock.initlock PTABLE).

(** mycpu's own check; the search of the APIC id yields CPU [me]. *)
Definition mycpu : P unit :=
  c <- gets (fun s => cpus (mach s) me) ;;
  if FL_IF c then panic "mycpu called with interrupts enabled\n" else kret tt.

Definition myproc : P (option nat) :=
  on_mach (pushcli me) ;;;
  mycpu ;;;
  p <- gets (fun s => cpu_proc s me) ;;
  on_mach (popcli me) ;;;
  kret p.

(** [curproc] is dereferenced: null is a fault. *)
Definition curproc : P nat :=
  p <- myproc ;; of_opt "myproc() is null" p.

(** The slot that the search of allocproc finds. *)
Fixpoint find_state (f : nat -> proc) (x : procstate) (i todo : nat) : option nat :=
  match todo with
  | O => None
  | S todo => if decide (state (f i) = x) then Some i else find_state f x (S i) todo
  end.

(** allocproc up to the release of the table... *)
Definition allocproc_find : P (option nat) :=
  acquire PTABLE ;;;
  f <- gets procs ;;
  match find_state f UNUSED 0 NPROC with
  | None => release PTABLE ;;; kret None
  | Some p =>
      upd_proc p (set_state EMBRYO) ;;;
      n <- gets nextpid ;;
      modify (set_nextpid (s32 (n + 1))) ;;;
      upd_proc p (set_pid n) ;;;
      release PTABLE ;;;
      kret (Some p)
  end.

(** ... and after it: the kernel stack, with the frames that make the first
    [swtch] to it start in forkret. *)
Definition allocproc_stack (p : nat) : P (option nat) :=
  k <- on_env kalloc ;;
  if k =? 0 then
    upd_proc p (fun x => set_mem (sz x) (pgdir x) 0 x) ;;;
    upd_proc p (set_state UNUSED) ;;;
    kret None
  else
    upd_proc p (fun x => set_mem (sz x) (pgdir x) k x) ;;;
    upd_proc p (set_ctx Forkret) ;;;
    kret (Some p).

Definition allocproc : P (option nat) :=
  r <- allocproc_find ;;
  match r with
  | None => kret None
  | Some p => allocproc_stack p
  end.

(** ** The first process *)

Definition FL_IF_BIT : Z := 0x200.
Definition SEG_UCODE : Z := 3.
Definition SEG_UDATA : Z := 4.
Definition DPL_USER : Z := 3.
Definition PGSIZE : Z := 4096.

Definition user_segment (seg : Z) : Z := u16 (Z.lor (Z.shiftl seg 3) DPL_USER).

Definition init_tf : trapframe :=
  <[EIP := 0]> (<[ESP := PGSIZE]> (<[EFLAGS := FL_IF_BIT]> (<[SS := user_segment SEG_UDATA]>
    (<[ES := user_segment SEG_UDATA]> (<[DS := user_segment SEG_UDATA]> (<[CS := user_segment SEG_UCODE]>
      (fun _ => 0))))))).

(** A null process would be dereferenced. *)
Definition userinit : P unit :=
  r <- allocproc ;;
  modify (set_initproc r) ;;;
  p <- of_opt "userinit: no process" r ;;
  d <- on_env setupkvm ;;
  upd_proc p (fun x => set_mem (sz x) d (kstack x) x) ;;;
  if d =? 0 then panic "userinit: out of memory?"
  else
    on_env (inituvm d) ;;;
    upd_proc p (fun x => set_mem PGSIZE (pgdir x) (kstack x) x) ;;;
    upd_proc p (set_tf init_tf) ;;;
    (* "initcode" *)
    upd_proc p (fun x => set_name (safestrcpy_list (name x) [105; 110; 105; 116; 99; 111; 100; 101; 0] 16) x) ;;;
    c <- on_env namei_root ;;
    upd_proc p (fun x => set_files (ofile x) c x) ;;;
    acquire PTABLE ;;;
    upd_proc p (set_state RUNNABLE) ;;;
    release PTABLE.

(** ** Memory and fork *)

Definition growproc (n : Z) : P Z :=
  p <- curproc ;;
  x <- get p ;;
  if n >? 0 then
    z <- on_env (allocuvm (pgdir x) (sz x) (u32 (sz x + n))) ;;
    if z =? 0 then kret (-1)
    else upd_proc p (fun x => set_mem z (pgdir x) (kstack x) x) ;;; on_env (switchuvm (kstack x) (pgdir x)) ;;; kret 0
  else if n <? 0 then
    z <- on_env (deallocuvm (pgdir x) (sz x) (u32 (sz x + n))) ;;
    if z =? 0 then kret (-1)
    else upd_proc p (fun x => set_mem z (pgdir x) (kstack x) x) ;;; on_env (switchuvm (kstack x) (pgdir x)) ;;; kret 0
  else on_env (switchuvm (kstack x) (pgdir x)) ;;; kret 0.

(** The loop over [ofile]: the child's table, which was [d], after it. *)
Fixpoint dup_files (l d : list (option nat)) : P (list (option nat)) :=
  match l, d with
  | None :: l, y :: d => r <- dup_files l d ;; kret (y :: r)
  | Some f :: l, _ :: d => g <- on_env (filedup f) ;; r <- dup_files l d ;; kret (Some g :: r)
  | _, _ => kret d
  end.

(** fork after allocproc's search: the stack, and the copy of [curproc]. *)
Definition fork_rest (p np : nat) : P Z :=
  r <- allocproc_stack np ;;
  match r with
  | None => kret (-1)
  | Some np =>
      x <- get p ;;
      d <- on_env (copyuvm (pgdir x) (sz x)) ;;
      upd_proc np (fun y => set_mem (sz y) d (kstack y) y) ;;;
      if d =? 0 then
        y <- get np ;;
        on_env (kfree (kstack y)) ;;;
        upd_proc np (fun y => set_mem (sz y) (pgdir y) 0 y) ;;;
        upd_proc np (set_state UNUSED) ;;;
        kret (-1)
      else
        upd_proc np (fun y => set_mem (sz x) (pgdir y) (kstack y) y) ;;;
        upd_proc np (set_parent (Some p)) ;;;
        upd_proc np (set_tf (<[EAX := 0]> (tf x))) ;;;
        y <- get np ;;
        fs <- dup_files (ofile x) (ofile y) ;;
        c <- match cwd x with
             | None => fault "fork: idup(0)"
             | Some i => on_env (idup i)
             end ;;
        upd_proc np (set_files fs (Some c)) ;;;
        upd_proc np (fun y => set_name (safestrcpy_list (name y) (name x) 16) y) ;;;
        y <- get np ;;
        acquire PTABLE ;;;
        upd_proc np (set_state RUNNABLE) ;;;
        release PTABLE ;;;
        kret (pid y)
  end.

Definition fork : P Z :=
  p <- curproc ;;
  r <- allocproc_find ;;
  match r with
  | None => kret (-1)
  | Some np => fork_rest p np
  end.

(** ** sleep, wakeup, sched *)

Definition wakeup1_fun (ch : option chan) (f : nat -> proc) : nat -> proc := fun i =>
  if bool_decide (i < NPROC)%nat && bool_decide (state (f i) = SLEEPING) && bool_decide (pchan (f i) = ch)
  then set_state RUNNABLE (f i) else f i.

Definition wakeup1 (ch : option chan) : P unit := modify (fun s => set_procs (wakeup1_fun ch (procs s)) s).

Definition wakeup (ch : option chan) : P unit :=
  acquire PTABLE ;;;
  wakeup1 ch ;;;
  release PTABLE.

(** sched up to [swtch]: the tests, and the context that is saved. *)
Definition sched (k : bool -> context) : P unit :=
  p <- curproc ;;
  h <- on_mach (holding me PTABLE) ;;
  if negb h then panic "sched ptable.lock"
  else
    c <- gets (fun s => cpus (mach s) me) ;;
    if negb (ncli c =? 1) then panic "sched locks"
    else
      x <- get p ;;
      if decide (state x = RUNNING) then panic "sched running"
      else if FL_IF c then panic "sched interruptible"
      else upd_proc p (set_ctx (k (intena c))).

(** sched after [swtch]: [mycpu()->intena = intena], on the CPU of now. *)
Definition sched_return (intena : bool) : P unit :=
  modify (fun s =>
    let c := cpus (mach s) me in
    set_mach (set_cpu me {| ncli := ncli c; intena := intena; FL_IF := FL_IF c |} (mach s)) s).

Definition yield : P unit :=
  acquire PTABLE ;;;
  p <- curproc ;;
  upd_proc p (set_state RUNNABLE) ;;;
  sched InYield.

(** [sleep(chan, lk)]; a null [lk] does not occur in a call. *)
Definition sleep (ch : option chan) (lk : Z) (k : bool -> context) : P unit :=
  r <- myproc ;;
  match r with
  | None => panic "sleep"
  | Some p =>
      (if negb (lk =? PTABLE) then acquire PTABLE ;;; release lk else kret tt) ;;;
      upd_proc p (set_chan ch) ;;;
      upd_proc p (set_state SLEEPING) ;;;
      sched k
  end.

(** ** exit and wait *)

(** Files and directory of [curproc], closed before the table is locked. *)
Fixpoint close_files (p : nat) (l : list (option nat)) (fd : nat) : P unit :=
  match l with
  | [] => kret tt
  | None :: l => close_files p l (S fd)
  | Some f :: l =>
      on_env (fileclose f) ;;;
      upd_proc p (fun x => set_files (<[fd := None]> (ofile x)) (cwd x) x) ;;;
      close_files p l (S fd)
  end.

Definition exit_close (p : nat) : P unit :=
  i <- gets initproc ;;
  if decide (Some p = i) then panic "init exiting"
  else
    x <- get p ;;
    close_files p (ofile x) 0 ;;;
    on_env begin_op ;;;
    (match cwd x with None => fault "exit: iput(0)" | Some c => on_env (iput c) end) ;;;
    on_env end_op ;;;
    upd_proc p (fun x => set_files (ofile x) None x).

(** The loop that passes the children of [p] to init, from slot [i] on. *)
Fixpoint reparent (p : nat) (i todo : nat) : P unit :=
  match todo with
  | O => kret tt
  | S todo =>
      q <- get i ;;
      (if decide (parent q = Some p) then
         ini <- gets initproc ;;
         upd_proc i (set_parent ini) ;;;
         if decide (state q = ZOMBIE) then wakeup1 (ChanProc <$> ini) else kret tt
       else kret tt) ;;;
      reparent p (S i) todo
  end.

Definition exit_locked (p : nat) : P unit :=
  acquire PTABLE ;;;
  x <- get p ;;
  wakeup1 (ChanProc <$> parent x) ;;;
  reparent p 0 NPROC ;;;
  upd_proc p (set_state ZOMBIE) ;;;
  sched (fun _ => InExit).

Definition exit : P unit := p <- curproc ;; exit_close p ;;; exit_locked p.

(** The scan of wait: the first zombie child, and whether there are children. *)
Fixpoint scan_children (f : nat -> proc) (p : nat) (i todo : nat) (havekids : bool) : option nat * bool :=
  match todo with
  | O => (None, havekids)
  | S todo =>
      if decide (parent (f i) = Some p) then
        if decide (state (f i) = ZOMBIE) then (Some i, true) else scan_children f p (S i) todo true
      else scan_children f p (S i) todo havekids
  end.

Definition reap (p : nat) : P Z :=
  x <- get p ;;
  on_env (kfree (kstack x)) ;;;
  upd_proc p (fun x => set_mem (sz x) (pgdir x) 0 x) ;;;
  on_env (freevm (pgdir x)) ;;;
  upd_proc p (set_pid 0) ;;;
  upd_proc p (set_parent None) ;;;
  upd_proc p (fun x => set_name (<[0%nat := 0]> (name x)) x) ;;;
  upd_proc p (set_killed false) ;;;
  upd_proc p (set_state UNUSED) ;;;
  release PTABLE ;;;
  kret (pid x).

(** One round of wait with the table locked: a result, or asleep. *)
Definition wait_round (p : nat) : P (option Z) :=
  f <- gets procs ;;
  match scan_children f p 0 NPROC false with
  | (Some q, _) => r <- reap q ;; kret (Some r)
  | (None, havekids) =>
      if negb havekids || killed (f p) then release PTABLE ;;; kret (Some (-1))
      else sleep (Some (ChanProc p)) PTABLE InWait ;;; kret None
  end.

Definition wait : P (option Z) := p <- curproc ;; acquire PTABLE ;;; wait_round p.

(** ** The scheduler *)

Definition scheduler_init : P unit := modify (set_cpu_proc me None).

Definition sti : P unit := modify (fun s =>
  let c := cpus (mach s) me in
  set_mach (set_cpu me {| ncli := ncli c; intena := intena c; FL_IF := true |} (mach s)) s).

(** The scan of the table from slot [i]: the process chosen, which runs next
    with the table still locked, or none, and the table is unlocked. *)
Definition scheduler_scan (i : nat) : P (option nat) :=
  f <- gets procs ;;
  match find_state f RUNNABLE i (NPROC - i) with
  | Some p =>
      modify (set_cpu_proc me (Some p)) ;;;
      x <- get p ;;
      on_env (switchuvm (kstack x) (pgdir x)) ;;;
      upd_proc p (set_state RUNNING) ;;;
      kret (Some p)
  | None => release PTABLE ;;; kret None
  end.

Definition scheduler_round : P (option nat) := sti ;;; acquire PTABLE ;;; scheduler_scan 0.

(** The scheduler after the [swtch] back from process [p]. *)
Definition scheduler_return (p : nat) : P (option nat) :=
  on_env switchkvm ;;;
  modify (set_cpu_proc me None) ;;;
  scheduler_scan (S p).

(** What a chosen process does after [swtch]: it runs on, with the result of
    wait if it was there; or it still has to take the lock it slept with; or
    it sleeps again in wait. *)
Inductive after := Runs (r : option Z) | Takes (lk : Z) | Asleep.

Definition resume (p : nat) : P after :=
  x <- get p ;;
  match ctx x with
  | Forkret => release PTABLE ;;; kret (Runs None)
  | InYield e => sched_return e ;;; release PTABLE ;;; kret (Runs None)
  | InSleep lk e =>
      sched_return e ;;;
      upd_proc p (set_chan None) ;;;
      release PTABLE ;;;
      kret (Takes lk)
  | InWait e =>
      sched_return e ;;;
      upd_proc p (set_chan None) ;;;
      r <- wait_round p ;;
      kret (match r with Some r => Runs (Some r) | None => Asleep end)
  | InExit => panic "zombie exit"
  end.

(** ** kill *)

Fixpoint find_pid (f : nat -> proc) (n : Z) (i todo : nat) : option nat :=
  match todo with
  | O => None
  | S todo => if pid (f i) =? n then Some i else find_pid f n (S i) todo
  end.

Definition kill (n : Z) : P Z :=
  acquire PTABLE ;;;
  f <- gets procs ;;
  match find_pid f n 0 NPROC with
  | Some p =>
      upd_proc p (set_killed true) ;;;
      (if decide (state (f p) = SLEEPING) then upd_proc p (set_state RUNNABLE) else kret tt) ;;;
      release PTABLE ;;;
      kret 0
  | None => release PTABLE ;;; kret (-1)
  end.

(** ** sysproc.c *)

(** [argint(0, &n)] is the argument [arg]; [None] when the fetch fails. *)
Definition sys_fork : P Z := fork.

Definition sys_exit : P unit := exit.

Definition sys_wait : P (option Z) := wait.

Definition sys_kill (arg : option Z) : P Z :=
  match arg with
  | None => kret (-1)
  | Some n => kill n
  end.

Definition sys_getpid : P Z := p <- curproc ;; x <- get p ;; kret (pid x).

Definition sys_sbrk (arg : option Z) : P Z :=
  match arg with
  | None => kret (-1)
  | Some n =>
      p <- curproc ;;
      x <- get p ;;
      let addr := s32 (sz x) in
      r <- growproc n ;;
      if r <? 0 then kret (-1) else kret addr
  end.

(** One test of the loop of sys_sleep, [ticks - ticks0 < n] being a comparison
    of unsigned ints: [None] when the process sleeps on [&ticks]. *)
Definition sys_sleep_test (ticks ticks0 n : Z) (killed : bool) : option Z :=
  if u32 (ticks - ticks0) <? u32 n then
    if killed then Some (-1) else None
  else Some 0.

End cpu.
End proc.

(** The scans of the table are the last things that conversion unfolds. *)
#[global] Strategy 1000 [find_state scan_children find_pid reparent].
