(* ===== verification/Sched.v ===== *)
(** * Processes on several CPUs

    The routines of Proc.v interleaved: every CPU is in its scheduler or runs
    the kernel code of a process, and each step is a run of one routine up to
    the next point where the table of processes can be seen by another CPU.
    System calls that do not touch the table appear only through the locks
    they take and the sleeps and wakeups they make. *)

From S2P Require Import Prelude Mem Spinlock Proc.
#[local] Open Scope Z_scope.

(** Where a CPU is: in the scheduler between two rounds; back in the scheduler
    from [p], the table locked; in [swtch] to [p], the table locked; in kernel
    code of [p] with the locks [held]; in [p]'s sleep, about to take [lk]. *)
Inductive mode :=
| Idle
| Switching (p : nat)
| Chosen (p : nat)
| Kernel (p : nat) (held : list Z)
| Taking (p : nat) (lk : Z).

Definition runs (m : mode) (p : nat) : Prop :=
  match m with
  | Chosen q | Kernel q _ | Taking q _ => q = p
  | Idle | Switching _ => False
  end.

Definition picked (r : option nat) : mode := match r with Some p => Chosen p | None => Idle end.
Definition resumed (p : nat) (a : after) : mode :=
  match a with Runs _ => Kernel p [] | Takes lk => Taking p lk | Asleep => Switching p end.

(** [forks p] is the child that the fork of [p] is making. *)
Record world (E : Type) := W { ps : pstate E; modes : nat -> mode; forks : nat -> option nat }.
Arguments W {E} ps modes forks. Arguments ps {E} w. Arguments modes {E} w _. Arguments forks {E} w _.

Section steps.
Context {E : Type} `{!services E}.

Inductive pstep : world E -> world E -> Prop :=
| p_round c s ms fk r s' : ms c = Idle -> scheduler_round c s = Ok r s' ->
    pstep (W s ms fk) (W s' (<[c := picked r]> ms) fk)
| p_return c p s ms fk r s' : ms c = Switching p -> scheduler_return c p s = Ok r s' ->
    pstep (W s ms fk) (W s' (<[c := picked r]> ms) fk)
| p_resume c p s ms fk a s' : ms c = Chosen p -> resume c p s = Ok a s' ->
    pstep (W s ms fk) (W s' (<[c := resumed p a]> ms) fk)
| p_take c p lk s ms fk s' : ms c = Taking p lk -> acquire c lk s = Ok tt s' ->
    pstep (W s ms fk) (W s' (<[c := Kernel p [lk]]> ms) fk)
| p_acquire c p h lk s ms fk s' : ms c = Kernel p h -> lk <> PTABLE -> acquire c lk s = Ok tt s' ->
    pstep (W s ms fk) (W s' (<[c := Kernel p (lk :: h)]> ms) fk)
| p_release c p h lk s ms fk s' : ms c = Kernel p h -> lk ∈ h -> release c lk s = Ok tt s' ->
    pstep (W s ms fk) (W s' (<[c := Kernel p (filter (fun x => x <> lk) h)]> ms) fk)
| p_yield c p s ms fk s' : ms c = Kernel p [] -> yield c s = Ok tt s' ->
    pstep (W s ms fk) (W s' (<[c := Switching p]> ms) fk)
| p_sleep c p lk ch s ms fk s' : ms c = Kernel p [lk] -> fk p = None ->
    sleep c ch lk (InSleep lk) s = Ok tt s' ->
    pstep (W s ms fk) (W s' (<[c := Switching p]> ms) fk)
| p_wakeup c ch s ms fk s' : (forall p, ms c <> Switching p /\ ms c <> Chosen p) -> wakeup c ch s = Ok tt s' ->
    pstep (W s ms fk) (W s' ms fk)
| p_fork_find c p s ms fk r s' : ms c = Kernel p [] -> fk p = None -> nextpid s < 2 ^ 31 - 1 ->
    allocproc_find c s = Ok r s' ->
    pstep (W s ms fk) (W s' ms (<[p := r]> fk))
| p_fork_rest c p np s ms fk r s' : ms c = Kernel p [] -> fk p = Some np -> fork_rest c p np s = Ok r s' ->
    pstep (W s ms fk) (W s' ms (<[p := None]> fk))
| p_exit_close c p s ms fk s' : ms c = Kernel p [] -> exit_close p s = Ok tt s' ->
    pstep (W s ms fk) (W s' ms fk)
| p_exit c p s ms fk s' : ms c = Kernel p [] -> fk p = None -> Some p <> initproc s -> exit_locked c p s = Ok tt s' ->
    pstep (W s ms fk) (W s' (<[c := Switching p]> ms) fk)
| p_wait c p s ms fk r s' : ms c = Kernel p [] -> fk p = None -> wait c s = Ok r s' ->
    pstep (W s ms fk) (W s' (<[c := match r with Some _ => Kernel p [] | None => Switching p end]> ms) fk)
| p_kill c p h n s ms fk r s' : ms c = Kernel p h -> kill c n s = Ok r s' ->
    pstep (W s ms fk) (W s' ms fk)
| p_growproc c p h n s ms fk r s' : ms c = Kernel p h -> growproc c n s = Ok r s' ->
    pstep (W s ms fk) (W s' ms fk)
| p_trap c p b s ms fk : ms c = Kernel p [] ->
    pstep (W s ms fk)
      (W (set_mach (set_cpu c {| ncli := ncli (cpus (mach s) c); intena := intena (cpus (mach s) c); FL_IF := b |} (mach s)) s)
         ms fk)
| p_env e s ms fk : pstep (W s ms fk) (W (set_env e s) ms fk).

(** ** The locks *)

Definition held_by (m : mode) : list Z :=
  match m with
  | Idle | Taking _ _ => []
  | Switching _ | Chosen _ => [PTABLE]
  | Kernel _ h => h
  end.
Definition thread_of (m : mode) : thread := {| held := held_by m; at_ := Running |}.
Definition locks_ok (en : nat -> bool) (m : machine) (ms : nat -> mode) : Prop :=
  good en {| hw := m; threads := fun c => thread_of (ms c) |}.

Lemma good_ext en m th th' :
  (forall c, th c = th' c) -> good en {| hw := m; threads := th |} -> good en {| hw := m; threads := th' |}.
Proof.
  intros Hth [G1 G2 G3 G4 G5 G6]. cbn in *. split; cbn.
  - intros l. rewrite G1. split; intros [c Hc]; exists c; [rewrite <- Hth|rewrite Hth]; exact Hc.
  - intros l c d. rewrite <- !Hth. apply G2.
  - intros c. rewrite <- Hth. apply G3.
  - intros l c. rewrite <- Hth. apply G4.
  - intros c. rewrite <- Hth. apply G5.
  - intros c l. rewrite <- Hth. apply G6.
Qed.

(** A CPU in no lock code takes a lock, or gives one back. *)
Lemma set_thread_eq c t th : set_thread c t th c = t.
Proof. apply fn_lookup_insert. Qed.

Lemma set_thread_twice c t t' th d : set_thread c t' (set_thread c t th) d = set_thread c t' th d.
Proof. rewrite !with_thread. by case_decide. Qed.

Lemma set_thread_same c t th d : th c = t -> set_thread c t th d = th d.
Proof. intros <-. rewrite with_thread. case_decide; congruence. Qed.

Lemma acquire_good en m th c h l m' a :
  good en {| hw := m; threads := th |} -> th c = {| held := h; at_ := Running |} ->
  Spinlock.acquire 1 c l 0 m = Ok a m' ->
  good en {| hw := m'; threads := set_thread c {| held := l :: h; at_ := Running |} th |} /\ l ∉ h.
Proof.
  intros G Ht H. unfold Spinlock.acquire in H. kinv H. destruct a0, a.
  pose proof (step_good en _ _ (step_acquire c l m s th h Ht Hrun) G) as G1.
  kinv H. cbn [acquire_loop] in Hrun0. kinv Hrun0. destruct (negb (a0 =? 0)) eqn:Ea; [discriminate|].
  injection Hrun0 as <- <-. set (th1 := set_thread c _ th) in G1.
  pose proof (step_xchg c l s s1 th1 h a0 (set_thread_eq _ _ _) Hrun1) as S2. rewrite Ea in S2.
  pose proof (step_good en _ _ S2 G1) as G2. set (th2 := set_thread c _ th1) in G2.
  pose proof (step_good en _ _ (step_acquired c l 0 s1 m' th2 h (set_thread_eq _ _ _) H) G2) as G3. split.
  - eapply good_ext; [|exact G3]. intros d. unfold th2, th1. by rewrite !set_thread_twice.
  - pose proof (good_nodup _ _ G3 c) as Hn. cbn in Hn. rewrite set_thread_eq in Hn. by apply NoDup_cons in Hn as [Hn _].
Qed.

Lemma release_good en m th c h l m' a :
  good en {| hw := m; threads := th |} -> th c = {| held := h; at_ := Running |} -> l ∈ h ->
  Spinlock.release c l m = Ok a m' ->
  good en {| hw := m'; threads := set_thread c {| held := filter (fun x => x <> l) h; at_ := Running |} th |}.
Proof.
  intros G Ht Hl H. unfold Spinlock.release in H. kinv H. destruct a0, a.
  pose proof (step_good en _ _ (step_release c l m s th h Ht Hl Hrun) G) as G1. set (th1 := set_thread c _ th) in G1.
  pose proof (step_good en _ _ (step_released c l s m' th1 h (set_thread_eq _ _ _) H) G1) as G2.
  eapply good_ext; [|exact G2]. intros d. apply set_thread_twice.
Qed.

(** [locked h q m]: routine [m] of CPU [me] turns the locks [h] that it holds
    into [q r], [r] being the result. *)
Section locked.
Context (me : nat).

Definition keeps_good (h h' : list Z) (m m' : machine) : Prop :=
  forall en th, good en {| hw := m; threads := th |} -> th me = {| held := h; at_ := Running |} ->
  exists en', good en' {| hw := m'; threads := set_thread me {| held := h'; at_ := Running |} th |}.

Definition locked {A} (h : list Z) (q : A -> list Z) (m : K (pstate E) A) : Prop :=
  forall s a s', m s = Ok a s' -> keeps_good h (q a) (mach s) (mach s').

Lemma keeps_good_refl h m : keeps_good h h m m.
Proof. intros en th G Ht. exists en. eapply good_ext; [|exact G]. intros c. by rewrite set_thread_same. Qed.

Lemma keeps_good_trans h1 h2 h3 m1 m2 m3 : keeps_good h1 h2 m1 m2 -> keeps_good h2 h3 m2 m3 -> keeps_good h1 h3 m1 m3.
Proof.
  intros H1 H2 en th G Ht. destruct (H1 en th G Ht) as [en1 G1].
  destruct (H2 en1 _ G1) as [en2 G2]; [apply set_thread_eq|].
  exists en2. eapply good_ext; [|exact G2]. intros c. apply set_thread_twice.
Qed.

Lemma locked_bind {A B} h q r (m : K (pstate E) A) (f : A -> K (pstate E) B) :
  locked h q m -> (forall a, locked (q a) r (f a)) -> locked h r (kbind m f).
Proof. intros Hm Hf s b s' H. kinv H. eapply keeps_good_trans; [by eapply Hm|by eapply Hf]. Qed.

Lemma locked_ret {A} q (a : A) : locked (q a) q (kret a).
Proof. intros s a' s' [= <- <-]. apply keeps_good_refl. Qed.
Lemma locked_gets {A} h (f : pstate E -> A) : locked h (fun _ => h) (gets f).
Proof. intros s a' s' [= <- <-]. apply keeps_good_refl. Qed.
Lemma locked_panic {A} h q w : locked h q (@panic (pstate E) A w).
Proof. by intros s a s' ?. Qed.
Lemma locked_fault {A} h q w : locked h q (@fault (pstate E) A w).
Proof. by intros s a s' ?. Qed.
Lemma locked_of_opt {A} h w (o : option A) : locked h (fun _ => h) (of_opt w o).
Proof. destruct o; [apply (locked_ret (fun _ => h))|apply locked_fault]. Qed.
Lemma locked_modify h f : (forall s, mach (f s) = mach s) -> locked h (fun _ => h) (modify f).
Proof. intros Hf s a s' [= <- <-]. rewrite Hf. apply keeps_good_refl. Qed.
Lemma locked_upd_proc h i f : locked h (fun _ => h) (@upd_proc E i f).
Proof. by apply locked_modify. Qed.
Lemma locked_on_env {A} h (m : K E A) : locked h (fun _ => h) (on_env m).
Proof. intros s a s' H. unfold on_env in H. destruct (m (env s)); try discriminate. injection H as <- <-. apply keeps_good_refl. Qed.

Lemma locked_acquire h l : locked h (fun _ => l :: h) (acquire me l).
Proof.
  intros s a s' H en th G Ht. unfold acquire, on_mach in H. destruct (Spinlock.acquire _ _ _ _ _) eqn:Ea; try discriminate.
  injection H as <- <-. exists en. by apply (acquire_good en (mach s) th me h l _ a0 G Ht Ea).
Qed.
Lemma locked_release h l : l ∈ h -> locked h (fun _ => filter (fun x => x <> l) h) (release me l).
Proof.
  intros Hl s a s' H en th G Ht. unfold release, on_mach in H. destruct (Spinlock.release _ _ _) eqn:Ea; try discriminate.
  injection H as <- <-. exists en. by apply (release_good en (mach s) th me h l _ a0 G Ht Hl Ea).
Qed.
Lemma locked_release1 l : locked [l] (fun _ => []) (release me l).
Proof.
  pose proof (locked_release [l] l ltac:(constructor)) as H. rewrite filter_cons_False in H by tauto. exact H.
Qed.

(** Interrupt nesting that is undone: myproc and holding. *)
Lemma locked_moved h m m' : (forall e n, cpu_ok e n (cpus m me) -> moved e me n m m') -> keeps_good h h m m'.
Proof.
  intros Hm en th G Ht. exists en. pose proof (good_cli _ _ G me) as Hc. cbn in Hc. rewrite Ht in Hc.
  apply (good_local en me {| held := h; at_ := Running |} m m' th G); rewrite ?Ht; [by apply Hm|done|done|done].
Qed.

Lemma myproc_run (s : pstate E) e n r s' :
  cpu_ok e n (cpus (mach s) me) -> myproc me s = Ok r s' ->
  r = cpu_proc s me /\ exists m', s' = set_mach m' s /\ moved e me n (mach s) m'.
Proof.
  intros Hc H. unfold myproc in H. destruct (pushcli_ok e n me (mach s) Hc) as (m1 & E1 & M1). kinv H.
  unfold on_mach in Hrun. rewrite E1 in Hrun. injection Hrun as <- <-.
  kinv H. unfold mycpu, kbind, gets in Hrun. cbn in Hrun.
  destruct (FL_IF (cpus m1 me)) eqn:Ei; [discriminate|]. injection Hrun as <- <-.
  kinv H. injection Hrun as <- <-. kinv H.
  destruct (popcli_ok e n me m1 (proj1 Hc) (proj1 M1)) as (m2 & E2 & M2).
  unfold on_mach in Hrun. cbn [mach set_mach] in Hrun. rewrite E2 in Hrun. injection Hrun as <- <-.
  injection H as <- <-. split; [done|]. exists m2. split; [done|]. exact (moved_trans _ _ _ _ _ _ _ M1 M2).
Qed.

Lemma curproc_run (s : pstate E) e n p s' :
  cpu_ok e n (cpus (mach s) me) -> curproc me s = Ok p s' ->
  cpu_proc s me = Some p /\ exists m', s' = set_mach m' s /\ moved e me n (mach s) m'.
Proof.
  intros Hc H. unfold curproc in H. kinv H. destruct (myproc_run _ _ _ _ _ Hc Hrun) as (-> & m' & -> & M).
  destruct (cpu_proc s me); [|discriminate]. injection H as <- <-. by eauto.
Qed.

Lemma locked_kret {A} h (q : A -> list Z) a : q a = h -> locked h q (kret a).
Proof. intros <-. apply locked_ret. Qed.

Lemma locked_nest {A} h (m : K (pstate E) A) :
  (forall s e n a s', cpu_ok e n (cpus (mach s) me) -> m s = Ok a s' ->
     exists m', s' = set_mach m' s /\ moved e me n (mach s) m') ->
  locked h (fun _ => h) m.
Proof.
  intros Hm s a s' H en th G Ht. exists en. pose proof (good_cli _ _ G me) as Hc. cbn in Hc. rewrite Ht in Hc.
  destruct (Hm _ _ _ _ _ Hc H) as (m' & -> & M).
  apply (good_local en me {| held := h; at_ := Running |} (mach s) m' th G); rewrite ?Ht; done.
Qed.

Lemma locked_myproc h : locked h (fun _ => h) (@myproc E me).
Proof. apply locked_nest. intros s e n a s' Hc H. by destruct (myproc_run _ _ _ _ _ Hc H). Qed.
Lemma locked_curproc h : locked h (fun _ => h) (@curproc E me).
Proof. apply locked_nest. intros s e n a s' Hc H. by destruct (curproc_run _ _ _ _ _ Hc H). Qed.
Lemma locked_holding h l : locked h (fun _ => h) (@on_mach E _ (holding me l)).
Proof.
  apply locked_nest. intros s e n a s' Hc H. destruct (holding_ok e n me l _ Hc) as (m' & E' & M).
  unfold on_mach in H. rewrite E' in H. injection H as <- <-. eauto.
Qed.

Lemma locked_cpu h (f : cpu -> cpu) :
  (forall e c, cpu_ok e (Z.of_nat (length h)) c -> exists e', cpu_ok e' (Z.of_nat (length h)) (f c)) ->
  locked h (fun _ => h) (modify (fun s : pstate E => set_mach (set_cpu me (f (cpus (mach s) me)) (mach s)) s)).
Proof.
  intros Hf s a s' [= <- <-] en th G Ht. pose proof (good_cli _ _ G me) as Hc. cbn in Hc. rewrite Ht in Hc.
  unfold depth in Hc. cbn in Hc. rewrite Z.add_0_r in Hc. destruct (Hf _ _ Hc) as [e' He'].
  exists (<[me := e']> en). destruct G as [G1 G2 G3 G4 G5 G6]. cbn in *.
  apply (good_ext _ _ th); [intros c; symmetry; by apply set_thread_same|].
  split; cbn; try done. intros c. destruct (decide (me = c)) as [<-|Hne].
  - rewrite !fn_lookup_insert, Ht. unfold depth. cbn. by rewrite Z.add_0_r.
  - rewrite !fn_lookup_insert_ne by done. apply G5.
Qed.

Lemma locked_sched_return e : locked [PTABLE] (fun _ => [PTABLE]) (@sched_return E me e).
Proof.
  apply (locked_cpu [PTABLE] (fun c => {| ncli := ncli c; intena := e; FL_IF := FL_IF c |})).
  intros e' c (H1 & H2 & H3 & H4). exists e. unfold cpu_ok in *. cbn in *. done.
Qed.

Lemma locked_sti : locked [] (fun _ => []) (@sti E me).
Proof.
  apply (locked_cpu [] (fun c => {| ncli := ncli c; intena := intena c; FL_IF := true |})).
  intros e' c (H1 & H2 & H3 & H4). exists true. by repeat split.
Qed.

Lemma locked_stop {A} h w : locked h (fun _ => h) (@fault (pstate E) A w).
Proof. apply locked_fault. Qed.

Create HintDb locked.
#[local] Hint Resolve locked_stop | 0 : locked.
#[local] Hint Resolve locked_panic locked_fault | 5 : locked.
#[local] Hint Resolve locked_gets locked_of_opt locked_upd_proc locked_on_env
  locked_acquire locked_release1 locked_myproc locked_curproc locked_holding locked_sched_return locked_sti : locked.
#[local] Hint Extern 2 (locked _ _ (modify _)) => apply locked_modify; done : locked.
#[local] Hint Extern 2 (locked _ _ (kret _)) => apply locked_kret; reflexivity : locked.

Lemma locked_assoc {A B C} h q (m : K (pstate E) A) (f : A -> K (pstate E) B) (g : B -> K (pstate E) C) :
  locked h q (kbind m (fun a => kbind (f a) g)) -> locked h q (kbind (kbind m f) g).
Proof. intros H s a s'. rewrite kbind_assoc. apply H. Qed.

Ltac locked := repeat first
  [ solve [eauto with locked] | match goal with |- locked _ _ (kbind (kbind _ _) _) => apply locked_assoc end | eapply locked_bind; [solve [eauto with locked]|intros ?] | case_match ].

Lemma locked_sched k : locked [PTABLE] (fun _ => [PTABLE]) (@sched E me k).
Proof. unfold sched. locked. Qed.
#[local] Hint Resolve locked_sched : locked.

Lemma locked_yield : locked [] (fun _ => [PTABLE]) (@yield E me).
Proof. unfold yield. locked. Qed.

Lemma locked_wakeup1 h ch : locked h (fun _ => h) (@wakeup1 E ch).
Proof. by apply locked_modify. Qed.
#[local] Hint Resolve locked_wakeup1 : locked.

Lemma locked_release_top l h : l ∉ h -> locked (l :: h) (fun _ => h) (@release E me l).
Proof.
  intros Hl. pose proof (locked_release (l :: h) l ltac:(constructor)) as H.
  rewrite filter_cons_False, filter_id in H; [exact H| |tauto]. apply Forall_forall. by intros x Hx ->.
Qed.

Lemma locked_wakeup h ch : PTABLE ∉ h -> locked h (fun _ => h) (@wakeup E me ch).
Proof.
  intros Hh. unfold wakeup. eapply locked_bind; [apply locked_acquire|intros ?].
  eapply locked_bind; [apply locked_wakeup1|intros ?]. by apply locked_release_top.
Qed.

Lemma locked_kill h n : PTABLE ∉ h -> locked h (fun _ => h) (@kill E me n).
Proof.
  intros Hh. pose proof (locked_release_top PTABLE h Hh). unfold kill. locked.
Qed.

Lemma locked_sleep_table ch k : locked [PTABLE] (fun _ => [PTABLE]) (@sleep E me ch PTABLE k).
Proof. unfold sleep. change (PTABLE =? PTABLE) with true. cbn [negb]. locked. Qed.
#[local] Hint Resolve locked_sleep_table : locked.

Lemma locked_sleep ch lk k : lk <> PTABLE -> locked [lk] (fun _ => [PTABLE]) (@sleep E me ch lk k).
Proof.
  intros Hlk. unfold sleep. eapply locked_bind; [apply locked_myproc|intros [p|]]; [|apply locked_panic].
  rewrite (proj2 (Z.eqb_neq _ _)) by done. cbn [negb].
  apply locked_bind with (q := fun _ => [PTABLE]); [|intros ?; locked].
  eapply locked_bind; [apply locked_acquire|intros ?].
  pose proof (locked_release [PTABLE; lk] lk ltac:(right; left)) as H.
  rewrite filter_cons_True, filter_cons_False in H; [exact H|tauto|congruence].
Qed.

Lemma locked_allocproc_find : locked [] (fun _ => []) (@allocproc_find E me).
Proof. unfold allocproc_find. locked. Qed.

Lemma locked_dup_files l d : locked [] (fun _ => []) (dup_files l d).
Proof. revert d. induction l as [|[f|] l IH]; intros [|y d]; cbn [dup_files]; locked. Qed.
#[local] Hint Resolve locked_dup_files : locked.

Lemma locked_get h i : locked h (fun _ => h) (@get E i).
Proof. apply locked_gets. Qed.
#[local] Hint Resolve locked_get : locked.

Lemma locked_allocproc_stack h np : locked h (fun _ => h) (allocproc_stack np).
Proof. unfold allocproc_stack. locked. Qed.
#[local] Hint Resolve locked_allocproc_stack : locked.

Lemma locked_fork_rest p np : locked [] (fun _ => []) (fork_rest me p np).
Proof. unfold fork_rest. locked. Qed.

#[local] Hint Resolve locked_allocproc_find : locked.
Lemma locked_allocproc : locked [] (fun _ => []) (allocproc me).
Proof. unfold allocproc. locked. Qed.
#[local] Hint Resolve locked_allocproc : locked.

Lemma locked_userinit : locked [] (fun _ => []) (userinit me).
Proof. unfold userinit. locked. Qed.

Lemma locked_close_files p l fd : locked [] (fun _ => []) (close_files p l fd).
Proof. revert fd. induction l as [|[f|] l IH]; intros fd; cbn [close_files]; locked. Qed.
#[local] Hint Resolve locked_close_files : locked.

Lemma locked_exit_close p : locked [] (fun _ => []) (exit_close p).
Proof. unfold exit_close. locked. Qed.

Lemma locked_reparent p i todo : locked [PTABLE] (fun _ => [PTABLE]) (@reparent E p i todo).
Proof. revert i. induction todo as [|todo IH]; intros i; cbn [reparent]; locked. Qed.
#[local] Hint Resolve locked_reparent : locked.

Lemma locked_exit p : locked [] (fun _ => [PTABLE]) (@exit_locked E me p).
Proof. unfold exit_locked. locked. Qed.

Definition wait_locks (r : option Z) : list Z := match r with Some _ => [] | None => [PTABLE] end.

Lemma locked_reap p : locked [PTABLE] (fun _ => []) (reap me p).
Proof. unfold reap. locked. Qed.
#[local] Hint Resolve locked_reap : locked.

Lemma locked_wait_round p : locked [PTABLE] wait_locks (wait_round me p).
Proof. unfold wait_round. locked. Qed.
#[local] Hint Resolve locked_wait_round : locked.

Lemma locked_wait : locked [] wait_locks (wait me).
Proof. unfold wait. locked. Qed.

Lemma locked_scheduler_scan i : locked [PTABLE] (fun r => held_by (picked r)) (scheduler_scan me i).
Proof. unfold scheduler_scan. locked. Qed.
#[local] Hint Resolve locked_scheduler_scan : locked.

Lemma locked_round : locked [] (fun r => held_by (picked r)) (scheduler_round me).
Proof. unfold scheduler_round. locked. Qed.
Lemma locked_return p : locked [PTABLE] (fun r => held_by (picked r)) (scheduler_return me p).
Proof. unfold scheduler_return. locked. Qed.

Lemma locked_resume p : locked [PTABLE] (fun a => held_by (resumed p a)) (resume me p).
Proof. unfold resume. locked. Qed.

Lemma locked_growproc h n : locked h (fun _ => h) (growproc me n).
Proof. unfold growproc. locked. Qed.
End locked.
End steps.
