(* ===== verification/ProcTable.v ===== *)
(** * What the routines of proc.c do to the process table

    For each routine, from the state before to the state after: the entries
    that change and how, the locks and the other subsystems left aside. *)

From S2P Require Import Prelude Mem Spinlock Proc.
#[local] Open Scope Z_scope.

Section table.
Context {E : Type} `{!services E}.

(** Nothing of the table changes; only entry [i] does. *)
Record same_table (s s' : pstate E) : Prop := {
  st_procs : procs s' = procs s;
  st_next : nextpid s' = nextpid s;
  st_init : initproc s' = initproc s;
  st_cpu : cpu_proc s' = cpu_proc s }.
Record only_at (i : nat) (s s' : pstate E) : Prop := {
  oa_procs : forall j, j <> i -> procs s' j = procs s j;
  oa_next : nextpid s' = nextpid s;
  oa_init : initproc s' = initproc s;
  oa_cpu : cpu_proc s' = cpu_proc s }.

#[export] Instance same_table_preorder : PreOrder same_table.
Proof. split; [done|]. intros x y z [] []. split; congruence. Qed.
#[export] Instance only_at_preorder i : PreOrder (only_at i).
Proof. split; [done|]. intros x y z [] []. split; try congruence. intros j Hj. by rewrite oa_procs1, oa_procs0. Qed.

Lemma same_only i s s' : same_table s s' -> only_at i s s'.
Proof. intros [H1 H2 H3 H4]. split; [by rewrite H1|done..]. Qed.

Section quiet.
Context (me : nat).

Lemma quiet_on_mach {A} (m : L A) : preserving same_table (on_mach m).
Proof. intros s a s' H. unfold on_mach in H. destruct (m (mach s)); try discriminate. by injection H as <- <-. Qed.
Lemma quiet_on_env {A} (m : K E A) : preserving same_table (on_env m).
Proof. intros s a s' H. unfold on_env in H. destruct (m (env s)); try discriminate. by injection H as <- <-. Qed.
Lemma quiet_of_opt {A} w (o : option A) : preserving same_table (of_opt w o).
Proof. destruct o; [apply preserving_ret; apply _|apply preserving_fault]. Qed.
Lemma quiet_mycpu : preserving same_table (mycpu me).
Proof. unfold mycpu. preserving. Qed.
#[local] Hint Resolve quiet_on_mach quiet_on_env quiet_of_opt quiet_mycpu : preserving.
Lemma quiet_myproc : preserving same_table (myproc me).
Proof. unfold myproc. preserving. Qed.
#[local] Hint Resolve quiet_myproc : preserving.
Lemma quiet_curproc : preserving same_table (curproc me).
Proof. unfold curproc. preserving. Qed.
Lemma quiet_acquire lk : preserving same_table (acquire me lk).
Proof. apply quiet_on_mach. Qed.
Lemma quiet_release lk : preserving same_table (release me lk).
Proof. apply quiet_on_mach. Qed.
Lemma quiet_sched_return e : preserving same_table (sched_return me e).
Proof. by apply preserving_modify. Qed.
Lemma quiet_sti : preserving same_table (sti me).
Proof. by apply preserving_modify. Qed.
End quiet.

Lemma myproc_value me (s : pstate E) r s' : myproc me s = Ok r s' -> r = cpu_proc s me.
Proof.
  unfold myproc. intros H. kinv H. pose proof (st_cpu _ _ (quiet_on_mach _ _ _ _ Hrun)) as E1.
  kinv H. pose proof (st_cpu _ _ (quiet_mycpu me _ _ _ Hrun0)) as E2. kinv H. injection Hrun1 as <- <-.
  kinv H. injection H as <- <-. by rewrite E2, E1.
Qed.

Lemma curproc_value me (s : pstate E) p s' : curproc me s = Ok p s' -> cpu_proc s me = Some p.
Proof.
  unfold curproc. intros H. kinv H. apply myproc_value in Hrun. subst a. destruct (cpu_proc s me); [|discriminate].
  by injection H as <- <-.
Qed.

Lemma upd_proc_run i f (s : pstate E) a s' : upd_proc i f s = Ok a s' -> s' = set_proc i (f (procs s i)) s.
Proof. by intros [= _ <-]. Qed.

(** Run through a routine, replacing the quiet steps by equations. *)
Ltac quiet H :=
  match type of H with
  | acquire _ _ _ = Ok _ _ => apply quiet_acquire in H
  | release _ _ _ = Ok _ _ => apply quiet_release in H
  | on_env _ _ = Ok _ _ => apply quiet_on_env in H
  | on_mach _ _ = Ok _ _ => apply quiet_on_mach in H
  | sched_return _ _ _ = Ok _ _ => apply quiet_sched_return in H
  | sti _ _ = Ok _ _ => apply quiet_sti in H
  | gets _ _ = Ok _ _ => injection H as <- <-
  | kret _ _ = Ok _ _ => injection H as <- <-
  | get _ _ = Ok _ _ => injection H as <- <-
  | upd_proc _ _ _ = Ok _ _ => apply upd_proc_run in H
  end.

(** An entry after a chain of equations. *)
Lemma set_proc_at i p (s : pstate E) : procs (set_proc i p s) i = p.
Proof. apply fn_lookup_insert. Qed.
Lemma set_proc_ne i j p (s : pstate E) : j <> i -> procs (set_proc i p s) j = procs s j.
Proof. intros Hj. by apply fn_lookup_insert_ne. Qed.
Lemma set_proc_only i p (s : pstate E) : only_at i s (set_proc i p s).
Proof. split; [intros j Hj; by apply set_proc_ne|done..]. Qed.
Lemma only_upd i f : preserving (only_at i) (@upd_proc E i f).
Proof. intros s a s' H. apply upd_proc_run in H as ->. apply set_proc_only. Qed.

Lemma sched_table me k (s : pstate E) a s' :
  sched me k s = Ok a s' ->
  exists p b, cpu_proc s me = Some p /\ only_at p s s' /\ procs s' p = set_ctx (k b) (procs s p).
Proof.
  intros H. unfold sched in H. kinv H. pose proof (curproc_value _ _ _ _ Hrun) as Hp. apply quiet_curproc in Hrun.
  kinv H. apply quiet_on_mach in Hrun0. destruct (negb a1); [discriminate|]. kinv H. injection Hrun1 as <- <-.
  destruct (negb _); [discriminate|]. kinv H. injection Hrun1 as <- <-.
  destruct (decide _); [discriminate|]. destruct (FL_IF _); [discriminate|].
  apply upd_proc_run in H as ->. pose proof (same_only a0 _ _ (PreOrder_Transitive _ _ _ Hrun Hrun0)) as Hq.
  exists a0. eexists. split; [done|]. split.
  - transitivity s1; [done|apply set_proc_only].
  - rewrite set_proc_at. by rewrite (st_procs _ _ Hrun0), (st_procs _ _ Hrun).
Qed.

Lemma yield_table me (s : pstate E) a s' :
  yield me s = Ok a s' ->
  exists p b, cpu_proc s me = Some p /\ only_at p s s'
    /\ procs s' p = set_ctx (InYield b) (set_state RUNNABLE (procs s p)).
Proof.
  intros H. unfold yield in H. kinv H. apply quiet_acquire in Hrun. kinv H.
  pose proof (curproc_value _ _ _ _ Hrun0) as Hp. apply quiet_curproc in Hrun0. kinv H.
  apply upd_proc_run in Hrun1 as ->. apply sched_table in H as (p & b & Hp' & Ho & Hb).
  pose proof (PreOrder_Transitive _ _ _ Hrun Hrun0) as Hq. cbn in Hp'.
  rewrite (st_cpu _ _ Hrun0) in Hp'. assert (p = a1) as -> by congruence.
  rewrite (st_cpu _ _ Hrun) in Hp. exists a1, b. split; [done|]. split.
  - etransitivity; [by apply same_only|]. etransitivity; [apply set_proc_only|done].
  - rewrite Hb, set_proc_at. by rewrite (st_procs _ _ Hq).
Qed.

Lemma sleep_table me ch lk k (s : pstate E) a s' :
  sleep me ch lk k s = Ok a s' ->
  exists p b, cpu_proc s me = Some p /\ only_at p s s'
    /\ procs s' p = set_ctx (k b) (set_state SLEEPING (set_chan ch (procs s p))).
Proof.
  intros H. unfold sleep in H. kinv H. pose proof (myproc_value _ _ _ _ Hrun) as Hp. apply quiet_myproc in Hrun.
  destruct a0 as [p|]; [|discriminate]. kinv H.
  assert (Hq : same_table s s1).
  { transitivity s0; [done|]. destruct (negb _); [|by injection Hrun0 as <- <-].
    kinv Hrun0. apply quiet_acquire in Hrun1. apply quiet_release in Hrun0. by transitivity s2. }
  kinv H. apply upd_proc_run in Hrun1 as ->. kinv H. apply upd_proc_run in Hrun1 as ->.
  apply sched_table in H as (p' & b & Hp' & Ho & Hb). cbn in Hp'. rewrite (st_cpu _ _ Hq), <- Hp in Hp'.
  injection Hp' as <-. exists p, b. split; [done|]. split.
  - etransitivity; [by apply same_only|]. do 2 (etransitivity; [apply set_proc_only|]). done.
  - rewrite Hb, !set_proc_at. by rewrite (st_procs _ _ Hq).
Qed.

Lemma wakeup_table me ch (s : pstate E) a s' :
  wakeup me ch s = Ok a s' ->
  procs s' = wakeup1_fun ch (procs s) /\ nextpid s' = nextpid s /\ initproc s' = initproc s /\ cpu_proc s' = cpu_proc s.
Proof.
  intros H. unfold wakeup in H. kinv H. apply quiet_acquire in Hrun as []. kinv H. injection Hrun as <- <-.
  apply quiet_release in H as []. cbn in *. repeat split; congruence.
Qed.

Lemma find_state_spec f x i todo :
  match find_state f x i todo with
  | Some p => (i <= p < i + todo)%nat /\ state (f p) = x
  | None => forall p, (i <= p < i + todo)%nat -> state (f p) <> x
  end.
Proof.
  revert i. induction todo as [|todo IH]; intros i; cbn [find_state]; [lia|].
  destruct (decide (state (f i) = x)) as [Hx|Hx]; [split; [lia|done]|].
  specialize (IH (S i)). destruct (find_state f x (S i) todo) as [p|].
  - destruct IH as [IH1 IH2]. split; [lia|done].
  - intros p Hp. destruct (decide (p = i)) as [->|]; [done|]. apply IH. lia.
Qed.

Lemma allocproc_find_table me (s : pstate E) r s' :
  allocproc_find me s = Ok r s' ->
  match r with
  | None => same_table s s'
  | Some q => (q < NPROC)%nat /\ state (procs s q) = UNUSED
      /\ (forall j, j <> q -> procs s' j = procs s j) /\ procs s' q = set_pid (nextpid s) (set_state EMBRYO (procs s q))
      /\ nextpid s' = s32 (nextpid s + 1) /\ initproc s' = initproc s /\ cpu_proc s' = cpu_proc s
  end.
Proof.
  intros H. unfold allocproc_find in H. kinv H. apply quiet_acquire in Hrun as [A1 A2 A3 A4]. kinv H. injection Hrun as <- <-.
  pose proof (find_state_spec (procs s0) UNUSED 0 NPROC) as Hf. destruct (find_state _ _ _ _) as [q|].
  - kinv H. injection Hrun as _ <-. kinv H. injection Hrun as <- <-. kinv H. injection Hrun as _ <-. kinv H. injection Hrun as _ <-.
    kinv H. apply quiet_release in Hrun as [B1 B2 B3 B4]. injection H as <- <-. destruct Hf as [Hq Hu].
    rewrite A1 in Hu. split; [lia|]. split; [done|]. rewrite B1, B2, B3, B4. cbn. rewrite A1, A2, A3, A4. split; [|split; [|done]].
    + intros j Hj. by rewrite !fn_lookup_insert_ne.
    + by rewrite !fn_lookup_insert.
  - kinv H. apply quiet_release in Hrun as [B1 B2 B3 B4]. injection H as <- <-. split; congruence.
Qed.

Lemma allocproc_stack_table np (s : pstate E) r s' :
  allocproc_stack np s = Ok r s' ->
  only_at np s s'
  /\ exists x, procs s' np = x /\ pid x = pid (procs s np) /\ parent x = parent (procs s np) /\ killed x = killed (procs s np)
     /\ match r with
        | None => state x = UNUSED
        | Some q => q = np /\ state x = state (procs s np) /\ ctx x = Forkret
        end.
Proof.
  intros H. unfold allocproc_stack in H. kinv H. apply quiet_on_env in Hrun. pose proof (same_only np _ _ Hrun) as Ho.
  destruct (a =? 0); kinv H; apply upd_proc_run in Hrun0 as ->; kinv H; apply upd_proc_run in Hrun0 as ->; injection H as <- <-;
    (split; [etransitivity; [exact Ho|]; etransitivity; apply set_proc_only|]);
    eexists; (split; [reflexivity|]); rewrite !set_proc_at; cbn; rewrite !fn_lookup_insert, (st_procs _ _ Hrun); done.
Qed.

Lemma dup_files_quiet l d : preserving same_table (dup_files l d).
Proof.
  pose proof @quiet_on_env. revert d. induction l as [|[f|] l IH]; intros [|y d]; cbn [dup_files]; preserving.
Qed.

(** fork after the search: the child is ready, or its entry is free again. *)
Lemma fork_rest_table me p np (s : pstate E) r s' :
  p <> np -> state (procs s np) = EMBRYO -> fork_rest me p np s = Ok r s' ->
  only_at np s s'
  /\ (state (procs s' np) = UNUSED /\ parent (procs s' np) = parent (procs s np) /\ r = -1
      \/ state (procs s' np) = RUNNABLE /\ parent (procs s' np) = Some p /\ ctx (procs s' np) = Forkret
         /\ pid (procs s' np) = pid (procs s np) /\ r = pid (procs s np)).
Proof.
  intros Hne He H. unfold fork_rest in H. kinv H. apply allocproc_stack_table in Hrun as (Ho & x & Hx & X1 & X2 & X3 & X4).
  destruct a as [q|]; [|injection H as <- <-; split; [done|]; left; by rewrite Hx].
  destruct X4 as (-> & X4 & X5). kinv H. injection Hrun as <- <-. kinv H. apply quiet_on_env in Hrun as Hq.
  kinv H. apply upd_proc_run in Hrun0 as ->. destruct (a =? 0).
  - kinv H. injection Hrun0 as <- <-. kinv H. apply quiet_on_env in Hrun0 as Hq2. kinv H. apply upd_proc_run in Hrun1 as ->.
    kinv H. apply upd_proc_run in Hrun1 as ->. injection H as <- <-. split.
    + etransitivity; [exact Ho|]. etransitivity; [by apply same_only|]. etransitivity; [apply set_proc_only|].
      etransitivity; [by apply same_only|]. etransitivity; apply set_proc_only.
    + left. rewrite !set_proc_at. cbn. rewrite !fn_lookup_insert. cbn. rewrite (st_procs _ _ Hq2), set_proc_at. cbn. rewrite (st_procs _ _ Hq), Hx. done.
  - do 3 (kinv H; apply upd_proc_run in Hrun0 as ->). kinv H. injection Hrun0 as <- <-. kinv H. apply dup_files_quiet in Hrun0 as Hq2.
    kinv H. assert (Hq3 : same_table s2 s3).
    { destruct (cwd _); [by apply quiet_on_env in Hrun1|discriminate]. }
    do 2 (kinv H; apply upd_proc_run in Hrun2 as ->). kinv H. injection Hrun2 as <- <-. kinv H. apply quiet_acquire in Hrun2 as Hq4.
    kinv H. apply upd_proc_run in Hrun3 as ->. kinv H. apply quiet_release in Hrun3 as Hq5. injection H as <- <-.
    assert (Hfin : procs s5 np = set_state RUNNABLE (procs s4 np)) by (rewrite (st_procs _ _ Hq5); apply set_proc_at).
    split.
    + etransitivity; [exact Ho|]. etransitivity; [by apply same_only|]. do 4 (etransitivity; [apply set_proc_only|]).
      etransitivity; [by apply same_only|]. etransitivity; [by apply same_only|]. do 2 (etransitivity; [apply set_proc_only|]).
      etransitivity; [by apply same_only|]. etransitivity; [apply set_proc_only|]. by apply same_only.
    + right. rewrite Hfin, (st_procs _ _ Hq4), !set_proc_at. cbn. rewrite ?fn_lookup_insert. cbn.
      rewrite (st_procs _ _ Hq3), (st_procs _ _ Hq2), ?set_proc_at. cbn. rewrite ?fn_lookup_insert. cbn.
      rewrite ?fn_lookup_insert, (st_procs _ _ Hq), Hx. done.
Qed.

(** The fields of an entry that scheduling depends on. *)
Record same_core (x y : proc) : Prop := {
  sc_state : state y = state x;
  sc_pid : pid y = pid x;
  sc_parent : parent y = parent x;
  sc_ctx : ctx y = ctx x;
  sc_chan : pchan y = pchan x;
  sc_killed : killed y = killed x }.
Record core_table (s s' : pstate E) : Prop := {
  ct_procs : forall j, same_core (procs s j) (procs s' j);
  ct_next : nextpid s' = nextpid s;
  ct_init : initproc s' = initproc s;
  ct_cpu : cpu_proc s' = cpu_proc s }.
#[export] Instance core_table_preorder : PreOrder core_table.
Proof.
  split; [by repeat split|]. intros x y z [A1 A2 A3 A4] [B1 B2 B3 B4]. split; try congruence.
  intros j. destruct (A1 j), (B1 j). split; congruence.
Qed.

Lemma same_core_table s s' : same_table s s' -> core_table s s'.
Proof. intros [H1 H2 H3 H4]. split; try done. intros j. rewrite H1. by split. Qed.

Lemma quiet_core {A} (m : K (pstate E) A) : preserving same_table m -> preserving core_table m.
Proof. intros H s a s' Hs. by eapply same_core_table, H. Qed.

Lemma upd_core i f : (forall x, same_core x (f x)) -> preserving core_table (@upd_proc E i f).
Proof.
  intros Hf s a s' H. apply upd_proc_run in H as ->. split; try done. intros j.
  destruct (decide (j = i)) as [->|Hj]; [by rewrite set_proc_at|]. rewrite set_proc_ne by done. by split.
Qed.

Lemma close_files_core p l fd : preserving core_table (close_files p l fd).
Proof.
  pose proof (fun A m => quiet_core _ (@quiet_on_env A m)) as He.
  assert (Hu : forall f, (forall x, same_core x (f x)) -> preserving core_table (@upd_proc E p f)) by (by apply upd_core).
  revert fd. induction l as [|[f|] l IH]; intros fd; cbn [close_files]; preserving. by apply Hu.
Qed.

Lemma exit_close_core p : preserving core_table (exit_close p).
Proof.
  pose proof (fun A m => quiet_core _ (@quiet_on_env A m)) as He. pose proof close_files_core as Hc.
  unfold exit_close. preserving; try (by apply preserving_gets; apply _); by apply upd_core.
Qed.

Lemma growproc_core me n : preserving core_table (growproc me n).
Proof.
  pose proof (fun A m => quiet_core _ (@quiet_on_env A m)) as He. pose proof (quiet_core _ (quiet_curproc me)) as Hc.
  unfold growproc. preserving; try (by apply preserving_gets; apply _); by apply upd_core.
Qed.

(** Sleepers may wake and parents may change. *)
Record woken (x y : proc) : Prop := {
  wk_state : state y = state x \/ state x = SLEEPING /\ state y = RUNNABLE;
  wk_pid : pid y = pid x;
  wk_ctx : ctx y = ctx x;
  wk_chan : pchan y = pchan x;
  wk_killed : killed y = killed x }.

Lemma woken_refl x : woken x x.
Proof. split; auto. Qed.
Lemma woken_trans x y z : woken x y -> woken y z -> woken x z.
Proof.
  intros [A1 A2 A3 A4 A5] [B1 B2 B3 B4 B5]. split; try congruence.
  destruct A1 as [A1|[A1 A1']], B1 as [B1|[B1 B1']]; intuition congruence.
Qed.

Lemma wakeup1_woken ch f i : woken (f i) (wakeup1_fun ch f i) /\ parent (wakeup1_fun ch f i) = parent (f i).
Proof.
  unfold wakeup1_fun. destruct (_ && _) eqn:H; [|split; [apply woken_refl|done]].
  apply andb_true_iff in H as [[_ H%bool_decide_eq_true]%andb_true_iff _]. split; [|done]. split; try done. by right.
Qed.

Lemma wakeup1_wakes ch f i : (i < NPROC)%nat -> pchan (f i) = ch -> state (wakeup1_fun ch f i) <> SLEEPING.
Proof.
  intros Hi Hc. unfold wakeup1_fun. rewrite (bool_decide_eq_true_2 _ Hi), (bool_decide_eq_true_2 _ Hc).
  destruct (decide (state (f i) = SLEEPING)) as [Hs|Hs].
  - by rewrite (bool_decide_eq_true_2 _ Hs).
  - by rewrite (bool_decide_eq_false_2 _ Hs).
Qed.

Lemma reparent_table p i todo (s : pstate E) a s' :
  reparent p i todo s = Ok a s' ->
  nextpid s' = nextpid s /\ initproc s' = initproc s /\ cpu_proc s' = cpu_proc s
  /\ (forall j, woken (procs s j) (procs s' j))
  /\ (forall j, parent (procs s' j) =
        if decide ((i <= j < i + todo)%nat /\ parent (procs s j) = Some p) then initproc s else parent (procs s j))
  /\ (forall j k, (i <= j < i + todo)%nat -> parent (procs s j) = Some p -> state (procs s j) = ZOMBIE ->
        (k < NPROC)%nat -> pchan (procs s k) = ChanProc <$> initproc s -> state (procs s' k) <> SLEEPING).
Proof.
  revert i s. induction todo as [|todo IH]; intros i s H; cbn [reparent] in H.
  { injection H as <- <-. repeat split; auto; [|lia]. intros j. rewrite decide_False by lia. done. }
  kinv H. injection Hrun as <- <-. kinv H. apply IH in H as (I1 & I2 & I3 & I4 & I5 & I6). clear IH.
  assert (Hs : nextpid s0 = nextpid s /\ initproc s0 = initproc s /\ cpu_proc s0 = cpu_proc s
    /\ (forall j, woken (procs s j) (procs s0 j))
    /\ (forall j, parent (procs s0 j) = if decide (j = i /\ parent (procs s i) = Some p) then initproc s else parent (procs s j))
    /\ (parent (procs s i) = Some p -> state (procs s i) = ZOMBIE ->
         forall k, (k < NPROC)%nat -> pchan (procs s k) = ChanProc <$> initproc s -> state (procs s0 k) <> SLEEPING)).
  { clear I1 I2 I3 I4 I5 I6. destruct (decide (parent (procs s i) = Some p)) as [Hp|Hp].
    2: { injection Hrun as <- <-. repeat split; auto; try congruence. intros j. by rewrite decide_False by tauto. }
    kinv Hrun. injection Hrun0 as <- <-. kinv Hrun. apply upd_proc_run in Hrun0 as ->.
    set (s1 := set_proc i _ s) in *.
    assert (H1 : forall j, woken (procs s j) (procs s1 j) /\ state (procs s1 j) = state (procs s j)
      /\ parent (procs s1 j) = if decide (j = i /\ parent (procs s i) = Some p) then initproc s else parent (procs s j)).
    { intros j. unfold s1. destruct (decide (j = i)) as [->|Hj].
      - rewrite set_proc_at, decide_True by done. split; [|done]. split; auto.
      - rewrite set_proc_ne, decide_False by tauto. split; [apply woken_refl|done]. }
    destruct (decide (state (procs s i) = ZOMBIE)) as [Hz|Hz]; injection Hrun as <- <-.
    - split; [done|]. split; [done|]. split; [done|]. cbn [procs set_procs]. split; [|split].
      + intros j. eapply woken_trans; [apply H1|]. apply wakeup1_woken.
      + intros j. rewrite (proj2 (wakeup1_woken _ _ _)). apply H1.
      + intros _ _ k Hk Hc. apply wakeup1_wakes; [done|]. cbn. rewrite <- Hc. apply (wk_chan _ _ (proj1 (H1 k))).
    - split; [done|]. split; [done|]. split; [done|]. split; [intros j; apply H1|]. split; [intros j; apply H1|done]. }
  destruct Hs as (S1 & S2 & S3 & S4 & S5 & S6).
  split; [congruence|]. split; [congruence|]. split; [congruence|]. split; [|split].
  - intros j. eapply woken_trans; [apply S4|apply I4].
  - intros j. rewrite I5, S5, S2. destruct (decide (j = i)) as [->|Hj].
    + rewrite (decide_False (P := _ /\ _)) by lia.
      destruct (decide (parent (procs s i) = Some p)) as [Hp|Hp].
      * rewrite !decide_True by (split; [lia|done] || done). done.
      * rewrite !decide_False by tauto. done.
    + rewrite (decide_False (P := j = i /\ _)) by tauto. apply decide_ext. split; (intros [? ?]; split; [lia|done]).
  - intros j k Hj Hp Hz Hk Hc. destruct (decide (j = i)) as [->|Hne].
    + pose proof (S6 Hp Hz k Hk Hc) as Hn. destruct (wk_state _ _ (I4 k)) as [->|[? ?]]; congruence.
    + apply (I6 j k); [lia|rewrite S5, decide_False by tauto; done| |done|by rewrite S2, (wk_chan _ _ (S4 k))].
      destruct (wk_state _ _ (S4 j)) as [->|[? ?]]; congruence.
Qed.

(** exit: the parent and, when there is a zombie to pass on, init are woken;
    the children are init's; the process is a zombie. *)
Lemma exit_locked_table me p (s : pstate E) a s' :
  cpu_proc s me = Some p -> exit_locked me p s = Ok a s' ->
  nextpid s' = nextpid s /\ initproc s' = initproc s /\ cpu_proc s' = cpu_proc s
  /\ (forall j, j <> p -> woken (procs s j) (procs s' j))
  /\ (forall j, j <> p -> parent (procs s' j) =
        if decide ((j < NPROC)%nat /\ parent (procs s j) = Some p) then initproc s else parent (procs s j))
  /\ state (procs s' p) = ZOMBIE /\ pid (procs s' p) = pid (procs s p) /\ ctx (procs s' p) = InExit
  /\ parent (procs s' p) = (if decide ((p < NPROC)%nat /\ parent (procs s p) = Some p) then initproc s else parent (procs s p))
  /\ (forall k, (k < NPROC)%nat -> k <> p -> pchan (procs s k) = ChanProc <$> parent (procs s p) -> state (procs s' k) <> SLEEPING)
  /\ (forall j k, (j < NPROC)%nat -> parent (procs s j) = Some p -> state (procs s j) = ZOMBIE ->
        (k < NPROC)%nat -> k <> p -> pchan (procs s k) = ChanProc <$> initproc s -> state (procs s' k) <> SLEEPING).
Proof.
  intros Hc H. unfold exit_locked in H. kinv H. apply quiet_acquire in Hrun as [A1 A2 A3 A4]. kinv H. injection Hrun as <- <-.
  kinv H. injection Hrun as <- <-. kinv H. apply reparent_table in Hrun as (B1 & B2 & B3 & B4 & B5 & B6). cbn in B1, B2, B3.
  kinv H. apply upd_proc_run in Hrun as ->. apply sched_table in H as (p' & b & Hp' & Ho & Hb).
  cbn in Hp'. rewrite B3, A4, Hc in Hp'. injection Hp' as <-. destruct Ho as [O1 O2 O3 O4]. rewrite set_proc_at in Hb.
  cbn in O2, O3, O4. cbn [procs set_procs] in B4, B5, B6. rewrite A1 in *.
  assert (Hw : forall j, woken (procs s j) (procs s1 j)) by (intros j; eapply woken_trans; [apply wakeup1_woken|apply B4]).
  assert (Hpar : forall j, parent (procs s1 j) = if decide ((j < NPROC)%nat /\ parent (procs s j) = Some p) then initproc s else parent (procs s j)).
  { intros j. rewrite B5. rewrite (proj2 (wakeup1_woken _ _ _)). cbn. rewrite A3. apply decide_ext.
    split; (intros [? ?]; split; [lia|done]). }
  assert (Hstay : forall j, j <> p -> procs s' j = procs s1 j) by (intros j Hj; rewrite O1, set_proc_ne by done; done).
  split; [congruence|]. split; [congruence|]. split; [congruence|].
  split; [|split; [|split; [|split; [|split; [|split; [|split]]]]]].
  - intros j Hj. rewrite Hstay by done. apply Hw.
  - intros j Hj. rewrite Hstay by done. apply Hpar.
  - by rewrite Hb.
  - rewrite Hb. apply Hw.
  - by rewrite Hb.
  - rewrite Hb. apply Hpar.
  - intros k Hk Hne Hch. rewrite Hstay by done.
    pose proof (wakeup1_wakes (ChanProc <$> parent (procs s p)) (procs s) k Hk Hch) as Hn.
    destruct (wk_state _ _ (B4 k)) as [->|[? ?]]; congruence.
  - intros j k Hj Hpj Hz Hk Hne Hch. rewrite Hstay by done. apply (B6 j k); [lia| | |done|].
    + by rewrite (proj2 (wakeup1_woken _ _ _)).
    + destruct (wk_state _ _ (proj1 (wakeup1_woken (ChanProc <$> parent (procs s p)) (procs s) j))) as [->|[? ?]]; congruence.
    + rewrite (wk_chan _ _ (proj1 (wakeup1_woken _ _ _))). cbn. by rewrite A3.
Qed.

Lemma scan_children_spec f p i todo h :
  match scan_children f p i todo h with
  | (Some q, _) => (i <= q < i + todo)%nat /\ parent (f q) = Some p /\ state (f q) = ZOMBIE
  | (None, h') => (forall q, (i <= q < i + todo)%nat -> parent (f q) = Some p -> state (f q) <> ZOMBIE)
      /\ (h' = true -> h = true \/ exists q, (i <= q < i + todo)%nat /\ parent (f q) = Some p)
  end.
Proof.
  revert i h. induction todo as [|todo IH]; intros i h; cbn [scan_children]; [split; [lia|by left]|].
  destruct (decide (parent (f i) = Some p)) as [Hp|Hp]; [destruct (decide (state (f i) = ZOMBIE)) as [Hz|Hz]; [split; [lia|done]|]|].
  - specialize (IH (S i) true). destruct (scan_children f p (S i) todo true) as [[q|] h'].
    + destruct IH as (I1 & I2). split; [lia|done].
    + destruct IH as (I1 & I2). split.
      * intros q Hq. destruct (decide (q = i)) as [->|]; [done|]. apply I1. lia.
      * intros _. right. exists i. split; [lia|done].
  - specialize (IH (S i) h). destruct (scan_children f p (S i) todo h) as [[q|] h'].
    + destruct IH as (I1 & I2). split; [lia|done].
    + destruct IH as (I1 & I2). split.
      * intros q Hq. destruct (decide (q = i)) as [->|]; [done|]. apply I1. lia.
      * intros Hh. destruct (I2 Hh) as [?|(q & Hq & Hpq)]; [by left|right; exists q; split; [lia|done]].
Qed.

Lemma reap_table me q (s : pstate E) r s' :
  reap me q s = Ok r s' ->
  only_at q s s' /\ r = pid (procs s q) /\ state (procs s' q) = UNUSED /\ pid (procs s' q) = 0
  /\ parent (procs s' q) = None /\ killed (procs s' q) = false.
Proof.
  intros H. unfold reap in H. kinv H. injection Hrun as <- <-. kinv H. apply quiet_on_env in Hrun as Q1.
  kinv H. apply upd_proc_run in Hrun0 as ->. kinv H. apply quiet_on_env in Hrun0 as Q2.
  do 5 (kinv H; apply upd_proc_run in Hrun1 as ->). kinv H. apply quiet_release in Hrun1 as Q3. injection H as <- <-.
  split; [|split; [done|]].
  - etransitivity; [by apply same_only|]. etransitivity; [apply set_proc_only|]. etransitivity; [by apply same_only|].
    do 5 (etransitivity; [apply set_proc_only|]). by apply same_only.
  - rewrite (st_procs _ _ Q3), set_proc_at. cbn. rewrite !fn_lookup_insert. cbn. by rewrite ?fn_lookup_insert.
Qed.

(** A round of wait: a child is reaped, there is nothing to wait for, or the
    process sleeps and has no zombie child. *)
Lemma wait_round_table me p (s : pstate E) r s' :
  cpu_proc s me = Some p -> wait_round me p s = Ok r s' ->
  match r with
  | Some r => same_table s s' /\ r = -1
      \/ exists q, (q < NPROC)%nat /\ parent (procs s q) = Some p /\ state (procs s q) = ZOMBIE /\ r = pid (procs s q)
          /\ only_at q s s' /\ state (procs s' q) = UNUSED /\ pid (procs s' q) = 0 /\ parent (procs s' q) = None
  | None => only_at p s s' /\ killed (procs s p) = false
      /\ (forall q, (q < NPROC)%nat -> parent (procs s q) = Some p -> state (procs s q) <> ZOMBIE)
      /\ (exists q, (q < NPROC)%nat /\ parent (procs s q) = Some p)
      /\ exists b, procs s' p = set_ctx (InWait b) (set_state SLEEPING (set_chan (Some (ChanProc p)) (procs s p)))
  end.
Proof.
  intros Hc H. unfold wait_round in H.  kinv H. injection Hrun as <- <-.
  pose proof (scan_children_spec (procs s) p 0 NPROC false) as Hs. destruct (scan_children _ _ _ _ _) as [[q|] h].
  - kinv H. apply reap_table in Hrun as (R1 & R2 & R3 & R4 & R5 & _). injection H as <- <-. right. exists q.
    destruct Hs as (S1 & S2 & S3). split; [lia|]. done.
  - destruct Hs as [S1 S2]. destruct h; cbn [negb orb] in H.
    + destruct (killed (procs s p)) eqn:Ek; cbn [orb] in H.
      { kinv H. apply quiet_release in Hrun. injection H as <- <-. by left. }
      kinv H. apply sleep_table in Hrun as (p' & b & Hp' & Ho & Hb). injection H as <- <-.
      rewrite Hc in Hp'. injection Hp' as <-. split; [done|]. split; [done|]. split; [intros q Hq; apply S1; lia|].
      split; [|by exists b]. destruct (S2 eq_refl) as [?|(q & Hq & Hpq)]; [done|]. exists q. split; [lia|done].
    + kinv H. apply quiet_release in Hrun. injection H as <- <-. by left.
Qed.

Lemma scheduler_scan_table me i (s : pstate E) r s' :
  scheduler_scan me i s = Ok r s' ->
  match r with
  | None => same_table s s'
  | Some p => (p < NPROC)%nat /\ (i <= p)%nat /\ state (procs s p) = RUNNABLE
      /\ (forall j, j <> p -> procs s' j = procs s j) /\ procs s' p = set_state RUNNING (procs s p)
      /\ nextpid s' = nextpid s /\ initproc s' = initproc s /\ cpu_proc s' = <[me := Some p]> (cpu_proc s)
  end.
Proof.
  intros H. unfold scheduler_scan in H.  kinv H. injection Hrun as <- <-.
  pose proof (find_state_spec (procs s) RUNNABLE i (NPROC - i)) as Hf. destruct (find_state _ _ _ _) as [p|].
  - kinv H. injection Hrun as _ <-. kinv H. injection Hrun as <- <-. kinv H. apply quiet_on_env in Hrun as [Q1 Q2 Q3 Q4].
    kinv H. apply upd_proc_run in Hrun as ->. injection H as <- <-. destruct Hf as [Hp Hr].
    split; [lia|]. split; [lia|]. cbn in *. split; [done|]. rewrite Q1. split; [intros j Hj; by apply fn_lookup_insert_ne|].
    split; [apply fn_lookup_insert|done].
  - kinv H. apply quiet_release in Hrun. by injection H as <- <-.
Qed.

Lemma kill_table me n (s : pstate E) r s' :
  kill me n s = Ok r s' ->
  same_table s s' /\ r = -1 /\ (forall i, (i < NPROC)%nat -> pid (procs s i) <> n)
  \/ exists q, (q < NPROC)%nat /\ r = 0 /\ pid (procs s q) = n /\ only_at q s s' /\ killed (procs s' q) = true
     /\ parent (procs s' q) = parent (procs s q) /\ pid (procs s' q) = n /\ ctx (procs s' q) = ctx (procs s q)
     /\ state (procs s' q) = if decide (state (procs s q) = SLEEPING) then RUNNABLE else state (procs s q).
Proof.
  intros H. unfold kill in H.  kinv H. apply quiet_acquire in Hrun as Q1. kinv H. injection Hrun0 as <- <-.
  assert (Hf : forall f i todo, match find_pid f n i todo with
    | Some q => (i <= q < i + todo)%nat /\ pid (f q) = n
    | None => forall q, (i <= q < i + todo)%nat -> pid (f q) <> n end).
  { intros f i todo. revert i. induction todo as [|todo IH]; intros i; cbn [find_pid]; [lia|].
    destruct (Z.eqb_spec (pid (f i)) n); [split; [lia|done]|]. specialize (IH (S i)).
    destruct (find_pid f n (S i) todo); [destruct IH; split; [lia|done]|].
    intros q Hq. destruct (decide (q = i)) as [->|]; [done|]. apply IH. lia. }
  specialize (Hf (procs s0) 0%nat NPROC). destruct (find_pid _ _ _ _) as [q|].
  - right. exists q. destruct Hf as [Hq Hn]. rewrite (st_procs _ _ Q1) in *. kinv H. apply upd_proc_run in Hrun0 as ->.
    kinv H. kinv H. apply quiet_release in Hrun1 as Q2. injection H as <- <-.
    split; [lia|]. split; [done|]. split; [done|].
    destruct (decide (state (procs s q) = SLEEPING)) as [Hs|Hs];
      [apply upd_proc_run in Hrun0 as ->|injection Hrun0 as <- <-].
    + split; [etransitivity; [by apply same_only|]; etransitivity; [apply set_proc_only|]; etransitivity; [apply set_proc_only|]; by apply same_only|].
      rewrite (st_procs _ _ Q2), set_proc_at. cbn. rewrite !fn_lookup_insert. cbn. by rewrite (st_procs _ _ Q1).
    + split; [etransitivity; [by apply same_only|]; etransitivity; [apply set_proc_only|]; by apply same_only|].
      rewrite (st_procs _ _ Q2), set_proc_at. cbn. by rewrite (st_procs _ _ Q1).
  - left. kinv H. apply quiet_release in Hrun0 as Q2. injection H as <- <-. split; [by transitivity s0|]. split; [done|].
    intros i Hi. rewrite <- (st_procs _ _ Q1). apply Hf. lia.
Qed.
End table.
