(* ===== verification/Trap.v ===== *)
(** * Traps and the clock (trap.c, traps.h; sys_sleep and sys_uptime of sysproc.c)

    The interrupt gates and the routine that every trap, interrupt and system
    call goes through, on the processes of Proc.v.  The system calls and the
    drivers it calls are arguments.  A call that gives up the CPU is cut at
    [swtch] as in Proc.v: trap ends in [Yields], and [trap_rest] is what runs
    when the process is chosen again.  The last part interleaves the clock with
    the processes that sleep on it. *)

From S2P Require Import Prelude Mem Spinlock Proc ProcTable.
#[local] Open Scope Z_scope.
#[local] Open Scope kernel_scope.

Definition T_SYSCALL : Z := 64.
Definition T_IRQ0 : Z := 32.
Definition IRQ_TIMER : Z := 0.
Definition IRQ_KBD : Z := 1.
Definition IRQ_COM1 : Z := 4.
Definition IRQ_IDE : Z := 14.
Definition IRQ_SPURIOUS : Z := 31.

(** ** The gates *)

Definition SEG_KCODE : Z := 1.
Definition STS_IG32 : Z := 0xE.
Definition STS_TG32 : Z := 0xF.

(** [struct gatedesc], its reserved and constant fields left out. *)
Record gatedesc := { off_15_0 : Z; gate_cs : Z; gate_type : Z; gate_dpl : Z; gate_p : Z; off_31_16 : Z }.

Definition SETGATE (istrap : bool) (sel off d : Z) : gatedesc :=
  {| off_15_0 := Z.land off 0xffff; gate_cs := u16 sel; gate_type := if istrap then STS_TG32 else STS_IG32;
     gate_dpl := Z.land d 3; gate_p := 1; off_31_16 := Z.shiftr off 16 |}.

(** The table [idt] that tvinit makes from [vectors]. *)
Definition tvinit (vectors : Z -> Z) (i : Z) : gatedesc :=
  if i =? T_SYSCALL then SETGATE true (Z.shiftl SEG_KCODE 3) (vectors T_SYSCALL) DPL_USER
  else SETGATE false (Z.shiftl SEG_KCODE 3) (vectors i) 0.

(** ** trap *)

Record tstate (E : Type) := { kern : pstate E; ticks : Z; eois : nat; printed : list string }.
Arguments kern {E} t. Arguments ticks {E} t. Arguments eois {E} t. Arguments printed {E} t.
Arguments Build_tstate {E} kern ticks eois printed.

(** The ids of [tickslock] and of the channel [&ticks]. *)
Definition TICKSLOCK : Z := 1.
Definition TICKS : chan := ChanAt 1.

Inductive trapped := Returns | Exits | Yields.

Section trap.
Context {E : Type} `{!services E} (me : nat).

Definition T : Type -> Type := K (tstate E).

Definition on_kern {A} (m : P A) : T A := fun s =>
  match m (kern s) with
  | Ok a k => Ok a (Build_tstate k (ticks s) (eois s) (printed s))
  | Panic e => Panic e
  | Fault e => Fault e
  | NoFuel => NoFuel
  end.

(** The drivers and the system calls. *)
Context (syscall ideintr kbdintr uartintr : T unit).

(** The write to the register of the interrupt controller is counted. *)
Definition lapiceoi : T unit := modify (fun s => Build_tstate (kern s) (ticks s) (S (eois s)) (printed s)).
(** [cprintf], with the numbers of the message left out. *)
Definition cprintf (m : string) : T unit := modify (fun s => Build_tstate (kern s) (ticks s) (eois s) (printed s ++ [m])).
Definition set_ticks (t : Z) : T unit := modify (fun s => Build_tstate (kern s) t (eois s) (printed s)).

(** [mycpu() - cpus] *)
Definition cpuid : T nat := on_kern (mycpu me) ;;; kret me.

Definition timer : T unit :=
  c <- cpuid ;;
  (if (c =? 0)%nat then
     on_kern (acquire me TICKSLOCK) ;;;
     t <- gets ticks ;;
     set_ticks (u32 (t + 1)) ;;;
     on_kern (wakeup me (Some TICKS)) ;;;
     on_kern (release me TICKSLOCK)
   else kret tt) ;;;
  lapiceoi.

Definition user_mode (cs : Z) : bool := Z.land cs 3 =? DPL_USER.

(** [default:] *)
Definition unexpected (cs : Z) : T unit :=
  r <- on_kern (myproc me) ;;
  if bool_decide (r = None) || (Z.land cs 3 =? 0) then
    cpuid ;;;
    cprintf "unexpected trap" ;;;
    panic "trap"
  else
    cpuid ;;;
    cprintf "kill proc" ;;;
    p <- on_kern (curproc me) ;;
    on_kern (upd_proc p (set_killed true)).

(** The switch on [tf->trapno]. *)
Definition dispatch (trapno cs : Z) : T unit :=
  if trapno =? T_IRQ0 + IRQ_TIMER then timer
  else if trapno =? T_IRQ0 + IRQ_IDE then ideintr ;;; lapiceoi
  else if trapno =? T_IRQ0 + IRQ_IDE + 1 then kret tt
  else if trapno =? T_IRQ0 + IRQ_KBD then kbdintr ;;; lapiceoi
  else if trapno =? T_IRQ0 + IRQ_COM1 then uartintr ;;; lapiceoi
  else if (trapno =? T_IRQ0 + 7) || (trapno =? T_IRQ0 + IRQ_SPURIOUS) then cpuid ;;; cprintf "spurious interrupt" ;;; lapiceoi
  else unexpected cs.

(** [if (myproc() && myproc()->killed && (tf->cs & 3) == DPL_USER) exit();]
    and whether it did. *)
Definition exit_if_killed (cs : Z) : T bool :=
  r <- on_kern (myproc me) ;;
  match r with
  | None => kret false
  | Some _ =>
      p <- on_kern (curproc me) ;;
      x <- on_kern (get p) ;;
      if killed x && user_mode cs then on_kern (exit me) ;;; kret true else kret false
  end.

(** After the return of yield, and where yield is not called. *)
Definition trap_rest (cs : Z) : T trapped :=
  b <- exit_if_killed cs ;;
  kret (if b : bool then Exits else Returns).

(** The test before yield. *)
Definition on_tick (trapno : Z) : T bool :=
  r <- on_kern (myproc me) ;;
  match r with
  | None => kret false
  | Some _ =>
      p <- on_kern (curproc me) ;;
      x <- on_kern (get p) ;;
      kret (bool_decide (state x = RUNNING) && (trapno =? T_IRQ0 + IRQ_TIMER))
  end.

Definition killed_now : T bool :=
  p <- on_kern (curproc me) ;;
  x <- on_kern (get p) ;;
  kret (killed x).

Definition trap_syscall (tf : trapframe) : T trapped :=
  k <- killed_now ;;
  if k : bool then on_kern (exit me) ;;; kret Exits
  else
    p <- on_kern (curproc me) ;;
    on_kern (upd_proc p (set_tf tf)) ;;;
    syscall ;;;
    k <- killed_now ;;
    if k : bool then on_kern (exit me) ;;; kret Exits else kret Returns.

Definition trap (trapno : Z) (tf : trapframe) : T trapped :=
  if trapno =? T_SYSCALL then trap_syscall tf
  else
    dispatch trapno (tf CS) ;;;
    b <- exit_if_killed (tf CS) ;;
    if b : bool then kret Exits
    else
      y <- on_tick trapno ;;
      if y : bool then on_kern (yield me) ;;; kret Yields else trap_rest (tf CS).

(** ** sys_sleep and sys_uptime *)

(** A round of the loop of sys_sleep, with [tickslock] held: the answer, or
    [None] where the process has gone to sleep; when it runs again it takes
    [tickslock] back and makes another round. *)
Definition sys_sleep_round (n ticks0 : Z) : T (option Z) :=
  t <- gets ticks ;;
  if u32 (t - ticks0) <? u32 n then
    k <- killed_now ;;
    if k : bool then on_kern (release me TICKSLOCK) ;;; kret (Some (-1))
    else on_kern (sleep me (Some TICKS) TICKSLOCK (InSleep TICKSLOCK)) ;;; kret None
  else on_kern (release me TICKSLOCK) ;;; kret (Some 0).

Definition sys_sleep (arg : option Z) : T (option Z) :=
  match arg with
  | None => kret (Some (-1))
  | Some n =>
      on_kern (acquire me TICKSLOCK) ;;;
      ticks0 <- gets ticks ;;
      sys_sleep_round n ticks0
  end.

Definition sys_uptime : T Z :=
  on_kern (acquire me TICKSLOCK) ;;;
  xticks <- gets ticks ;;
  on_kern (release me TICKSLOCK) ;;;
  kret (s32 xticks).

(** ** What trap does *)

Lemma on_kern_run {A} (m : P A) s a s' : on_kern m s = Ok a s' ->
  m (kern s) = Ok a (kern s') /\ ticks s' = ticks s /\ eois s' = eois s /\ printed s' = printed s.
Proof. unfold on_kern. destruct (m (kern s)); try discriminate. intros H. by injection H as <- <-. Qed.

Lemma killed_now_value s k s' : killed_now s = Ok k s' ->
  exists p, cpu_proc (kern s) me = Some p /\ k = killed (procs (kern s) p) /\ same_table (kern s) (kern s').
Proof.
  unfold killed_now. intros H. kinv H. apply on_kern_run in Hrun as (Hrun & _). pose proof (curproc_value _ _ _ _ Hrun) as Hc. apply quiet_curproc in Hrun as Ht.
  kinv H. apply on_kern_run in Hrun0 as (Hg & _). injection Hg as <- Hk. injection H as <- <-. exists a.
  split; [done|]. split; [by rewrite (st_procs _ _ Ht)|]. by rewrite <- Hk.
Qed.

(** The test for a killed process, as its two callers make it. *)
Lemma myproc_then {A} (f : option nat -> T A) s a s' : (r <- on_kern (myproc me) ;; f r) s = Ok a s' ->
  exists s1, f (cpu_proc (kern s) me) s1 = Ok a s' /\ same_table (kern s) (kern s1) /\ ticks s1 = ticks s.
Proof.
  intros H. kinv H. apply on_kern_run in Hrun as (Hrun & Ht & _). apply myproc_value in Hrun as Hv. apply quiet_myproc in Hrun. subst. eauto.
Qed.

Lemma exit_if_killed_no cs s s' : exit_if_killed cs s = Ok false s' ->
  same_table (kern s) (kern s') /\ forall p, user_mode cs = true -> cpu_proc (kern s') me = Some p -> killed (procs (kern s') p) = false.
Proof.
  unfold exit_if_killed. intros H. apply myproc_then in H as (s1 & H & Ht & _). destruct (cpu_proc (kern s) me) as [q|] eqn:Eq.
  - kinv H. apply on_kern_run in Hrun as (Hrun & _). pose proof (curproc_value _ _ _ _ Hrun) as Hc. apply quiet_curproc in Hrun as Ht2.
    kinv H. apply on_kern_run in Hrun0 as (Hg & _). injection Hg as <- Hk. assert (Hq : a = q) by (rewrite (st_cpu _ _ Ht) in Hc; congruence). subst a.
    destruct (killed (procs (kern s0) q) && user_mode cs) eqn:Ek; [kinv H; by injection H|]. injection H as <-.
    assert (Hs : same_table (kern s) (kern s2)) by (rewrite <- Hk; etransitivity; done). split; [done|]. intros p Hu Hp. rewrite (st_cpu _ _ Hs), Eq in Hp. injection Hp as <-.
    rewrite Hu, andb_true_r in Ek. by rewrite <- Hk.
  - injection H as <-. split; [done|]. intros p _ Hp. rewrite (st_cpu _ _ Ht), Eq in Hp. done.
Qed.

(** No process that was killed goes back to its program: a trap from user mode,
    or a system call, that returns, returns to a process without the mark. *)
Theorem trap_to_user trapno tf s s' p : trap trapno tf s = Ok Returns s' -> trapno = T_SYSCALL \/ user_mode (tf CS) = true ->
  cpu_proc (kern s') me = Some p -> killed (procs (kern s') p) = false.
Proof.
  unfold trap. intros H Hu Hp. destruct (Z.eqb_spec trapno T_SYSCALL) as [->|Hne].
  - unfold trap_syscall in H. kinv H. destruct a; [kinv H; by injection H|]. do 4 kinv H. destruct a2; [kinv H; by injection H|].
    injection H as <-. apply killed_now_value in Hrun3 as (q & Hc & Hk & Ht). rewrite (st_cpu _ _ Ht), Hc in Hp. injection Hp as <-. by rewrite (st_procs _ _ Ht).
  - destruct Hu as [|Hu]; [done|]. kinv H. kinv H. destruct a0; [by injection H|]. kinv H. destruct a0; [kinv H; by injection H|].
    unfold trap_rest in H. kinv H. destruct a0; [by injection H|]. injection H as <-. by apply (exit_if_killed_no _ _ _ Hrun2).
Qed.

Lemma cpuid_run s c s' : cpuid s = Ok c s' -> c = me /\ same_table (kern s) (kern s') /\ ticks s' = ticks s.
Proof.
  unfold cpuid. intros H. kinv H. apply on_kern_run in Hrun as (Hrun & Ht & _). apply quiet_mycpu in Hrun. injection H as <- <-. done.
Qed.

(** The timer interrupt counts on CPU 0 only; there it wakes those who sleep on
    [&ticks] and no one else. *)
Theorem timer_ticks s s' : timer s = Ok tt s' ->
  ticks s' = (if (me =? 0)%nat then u32 (ticks s + 1) else ticks s) /\
  procs (kern s') = (if (me =? 0)%nat then wakeup1_fun (Some TICKS) (procs (kern s)) else procs (kern s)) /\
  cpu_proc (kern s') = cpu_proc (kern s).
Proof.
  unfold timer. intros H. kinv H. apply cpuid_run in Hrun as (-> & [Hp _ _ Hc] & Ht). kinv H. injection H as <-. cbn [kern ticks].
  destruct (me =? 0)%nat; [|injection Hrun as <- <-; done]. kinv Hrun. apply on_kern_run in Hrun0 as (Ha & Ha' & _). apply quiet_acquire in Ha as [Hp1 _ _ Hc1].
  kinv Hrun. injection Hrun0 as <- <-. kinv Hrun. injection Hrun0 as _ <-. kinv Hrun. apply on_kern_run in Hrun0 as (Hw & Hw' & _). apply wakeup_table in Hw as (Hp2 & _ & _ & Hc2).
  apply on_kern_run in Hrun as (Hr & Hr' & _). apply quiet_release in Hr as [Hp3 _ _ Hc3]. cbn [kern ticks] in *. split; [congruence|]. split; congruence.
Qed.

(** A trap that no one expects: in the kernel it panics, in a program it marks
    the process as killed and touches no other. *)
Theorem unexpected_trap cs s : 
  (cs mod 4 = 0 \/ cpu_proc (kern s) me = None -> forall s', unexpected cs s <> Ok tt s') /\
  (forall s', unexpected cs s = Ok tt s' -> exists p, cpu_proc (kern s) me = Some p /\
     procs (kern s') = <[p := set_killed true (procs (kern s) p)]> (procs (kern s)) /\ ticks s' = ticks s).
Proof.
  assert (Hland : Z.land cs 3 = cs mod 4) by exact (Z.land_ones cs 2 ltac:(done)). unfold unexpected. split.
  - intros Hk s' H. apply myproc_then in H as (s1 & H & _). rewrite Hland in H.
    assert (Hb : bool_decide (cpu_proc (kern s) me = None) || (cs mod 4 =? 0) = true).
    { apply orb_true_iff. destruct Hk as [Hk|Hk]; [right; by apply Z.eqb_eq|left; by apply bool_decide_eq_true]. }
    rewrite Hb in H. kinv H. by kinv H.
  - intros s' H. apply myproc_then in H as (s1 & H & Ht & Htk). destruct (bool_decide _ || _); [kinv H; by kinv H|].
    kinv H. apply cpuid_run in Hrun as (_ & Ht1 & Htk1). kinv H. injection Hrun as _ <-. kinv H. apply on_kern_run in Hrun as (Hrun & Htk2 & _).
    pose proof (curproc_value _ _ _ _ Hrun) as Hc. apply quiet_curproc in Hrun as Ht2. apply on_kern_run in H as (H & Htk3 & _). injection H as H. cbn [kern ticks] in *.
    assert (Hs : same_table (kern s) (kern s2)) by (etransitivity; [exact Ht|]; etransitivity; [exact Ht1|exact Ht2]).
    exists a1. split; [by rewrite <- (st_cpu _ _ Ht), <- (st_cpu _ _ Ht1)|].
    rewrite <- H. cbn. rewrite (st_procs _ _ Hs). split; [done|congruence].
Qed.

(** Only the clock makes trap give up the CPU. *)
Theorem trap_yields trapno tf s s' : trap trapno tf s = Ok Yields s' -> trapno = T_IRQ0 + IRQ_TIMER.
Proof.
  unfold trap. intros H. destruct (Z.eqb_spec trapno T_SYSCALL) as [->|Hne].
  - unfold trap_syscall in H. kinv H. destruct a; [kinv H; by injection H|]. do 4 kinv H. destruct a2; [kinv H|]; by injection H.
  - kinv H. kinv H. destruct a0; [by injection H|]. kinv H. destruct a0.
    + unfold on_tick in Hrun1. apply myproc_then in Hrun1 as (s4 & Hrun1 & _). destruct (cpu_proc _ me); [|by injection Hrun1]. kinv Hrun1. kinv Hrun1.
      injection Hrun1 as Hb _. apply andb_true_iff in Hb as [_ Hb]. by apply Z.eqb_eq.
    + unfold trap_rest in H. kinv H. by destruct a0; injection H.
Qed.
End trap.

(** ** The gates *)

(** A program can raise the system call and nothing else; only that gate leaves
    the interrupts on; and each gate leads to its vector. *)
Theorem tvinit_gates vectors i : is_u32 (vectors i) ->
  (gate_dpl (tvinit vectors i) = DPL_USER <-> i = T_SYSCALL) /\ (gate_type (tvinit vectors i) = STS_TG32 <-> i = T_SYSCALL) /\
  gate_cs (tvinit vectors i) = 8 /\ off_15_0 (tvinit vectors i) + 65536 * off_31_16 (tvinit vectors i) = vectors i.
Proof.
  intros Hv. assert (Hoff : Z.land (vectors i) 0xffff + 65536 * Z.shiftr (vectors i) 16 = vectors i).
  { change 0xffff with (Z.ones 16). rewrite Z.land_ones, Z.shiftr_div_pow2 by done. change (2 ^ 16) with 65536. pose proof (Z.div_mod (vectors i) 65536). lia. }
  unfold tvinit. destruct (Z.eqb_spec i T_SYSCALL) as [->|Hne]; (split; [|split; [|split; [done|exact Hoff]]]); split; done.
Qed.

(** ** Sleeping on the clock *)

(** A process is elsewhere, asleep in sys_sleep since its clock read [ticks0],
    woken and about to make another round, or back with an answer. *)
Inductive sleeper := Away | Sleeping (n ticks0 : Z) | Awake (n ticks0 : Z) | Back (r : Z).

(** The counter, and for each process where it is and whether it was killed. *)
Record clock := { now : Z; who : nat -> sleeper; dead : nat -> bool }.

(** A round of the loop, as in [sys_sleep_round]. *)
Definition round (n ticks0 : Z) (t : Z) (k : bool) : sleeper :=
  match sys_sleep_test t ticks0 n k with Some r => Back r | None => Sleeping n ticks0 end.
Definition wake_sleeper (x : sleeper) : sleeper := match x with Sleeping n t => Awake n t | _ => x end.

(** The lock [tickslock] makes each of these one step. *)
Inductive cstep (c : clock) : clock -> Prop :=
| c_call p n : who c p = Away -> cstep c {| now := now c; who := <[p := round n (now c) (now c) (dead c p)]> (who c); dead := dead c |}
| c_tick : cstep c {| now := u32 (now c + 1); who := fun p => wake_sleeper (who c p); dead := dead c |}
| c_kill p : cstep c {| now := now c; who := <[p := wake_sleeper (who c p)]> (who c); dead := <[p := true]> (dead c) |}
| c_round p n t : who c p = Awake n t -> cstep c {| now := now c; who := <[p := round n t (now c) (dead c p)]> (who c); dead := dead c |}.

Definition clock_start : clock := {| now := 0; who := fun _ => Away; dead := fun _ => false |}.

(** No one sleeps past the time: whoever is asleep has time left and was not
    killed; the answer is -1 only for a process that was killed. *)
Theorem no_oversleep c : star cstep clock_start c -> forall p,
  match who c p with
  | Sleeping n t => u32 (now c - t) < u32 n /\ dead c p = false
  | Back r => r = 0 \/ r = -1 /\ dead c p = true
  | Away | Awake _ _ => True
  end.
Proof.
  set (I c := forall p, match who c p with Sleeping n t => u32 (now c - t) < u32 n /\ dead c p = false | Back r => r = 0 \/ r = -1 /\ dead c p = true | _ => True end).
  assert (Hround : forall c p n t, match round n t (now c) (dead c p) with
    | Sleeping n t => u32 (now c - t) < u32 n /\ dead c p = false | Back r => r = 0 \/ r = -1 /\ dead c p = true | _ => True end).
  { intros c' p n t. unfold round, sys_sleep_test. destruct (Z.ltb_spec (u32 (now c' - t)) (u32 n)); [|by left]. destruct (dead c' p) eqn:E; [by right|done]. }
  intros Hs. refine (star_invariant cstep I _ _ _ Hs _); [|done]. clear Hs c. intros c c' Hs Hi q. specialize (Hi q). destruct Hs; cbn [now who dead].
  - destruct (decide (q = p)) as [->|Hne]; [rewrite fn_lookup_insert; apply Hround|by rewrite fn_lookup_insert_ne].
  - by destruct (who c q).
  - destruct (decide (q = p)) as [->|Hne]; [rewrite !fn_lookup_insert|by rewrite !fn_lookup_insert_ne]. destruct (who c p); cbn; naive_solver.
  - destruct (decide (q = p)) as [->|Hne]; [rewrite fn_lookup_insert; apply Hround|by rewrite fn_lookup_insert_ne].
Qed.
