(* ===== verification/SchedFacts.v ===== *)
(** * What holds of processes on several CPUs

    The invariant of the steps of Sched.v, one lemma for each way a step
    changes the table, and the theorems about scheduling, process identity,
    wait and exit. *)

From S2P Require Import Prelude Mem Spinlock Proc Sched ProcTable.
#[local] Open Scope Z_scope.

Definition alive (x : proc) : Prop := state x = SLEEPING \/ state x = RUNNABLE \/ state x = RUNNING.

Definition proc_of (m : mode) : option nat :=
  match m with Idle => None | Switching p | Chosen p | Kernel p _ | Taking p _ => Some p end.

Lemma runs_proc_of m p : runs m p -> proc_of m = Some p.
Proof. destruct m; cbn; [done|done|congruence..]. Qed.

Section facts.
Context {E : Type} `{!services E}.

Record tinv (s : pstate E) (ms : nat -> mode) (fk : nat -> option nat) : Prop := {
  ti_run : forall c p, runs (ms c) p -> (p < NPROC)%nat /\ state (procs s p) = RUNNING;
  ti_cpu : forall c, cpu_proc s c = proc_of (ms c);
  ti_one : forall c d p, runs (ms c) p -> runs (ms d) p -> c = d;
  ti_running : forall p, (p < NPROC)%nat -> state (procs s p) = RUNNING -> exists c, runs (ms c) p;
  ti_chosen : forall c p, ms c = Chosen p -> ctx (procs s p) <> InExit;
  ti_ctx : forall p, (p < NPROC)%nat -> state (procs s p) = SLEEPING \/ state (procs s p) = RUNNABLE ->
    ctx (procs s p) <> InExit;
  ti_fork : forall p q, fk p = Some q ->
    (p < NPROC)%nat /\ alive (procs s p) /\ (q < NPROC)%nat /\ state (procs s q) = EMBRYO;
  ti_fork_inj : forall p p' q, fk p = Some q -> fk p' = Some q -> p = p';
  ti_next : 1 <= nextpid s < 2 ^ 31;
  ti_pid : forall i, (i < NPROC)%nat -> state (procs s i) <> UNUSED -> 1 <= pid (procs s i) < nextpid s;
  ti_pid_inj : forall i j, (i < NPROC)%nat -> (j < NPROC)%nat -> state (procs s i) <> UNUSED -> state (procs s j) <> UNUSED ->
    pid (procs s i) = pid (procs s j) -> i = j;
  ti_init : exists i, (i < NPROC)%nat /\ initproc s = Some i /\ alive (procs s i) /\ parent (procs s i) = None;
  ti_orphan : forall i, (i < NPROC)%nat -> state (procs s i) = UNUSED \/ state (procs s i) = EMBRYO -> parent (procs s i) = None;
  ti_parent : forall i, (i < NPROC)%nat -> alive (procs s i) \/ state (procs s i) = ZOMBIE -> Some i <> initproc s ->
    exists j, (j < NPROC)%nat /\ parent (procs s i) = Some j /\ alive (procs s j) /\ j <> i;
  ti_wait : forall p b, (p < NPROC)%nat -> state (procs s p) = SLEEPING -> ctx (procs s p) = InWait b ->
    pchan (procs s p) = Some (ChanProc p) /\ killed (procs s p) = false
    /\ forall q, (q < NPROC)%nat -> parent (procs s q) = Some p -> state (procs s q) <> ZOMBIE }.

(** ** No change of the table *)

Lemma tinv_core s s' ms ms' fk :
  tinv s ms fk -> core_table s s' ->
  (forall c, proc_of (ms' c) = proc_of (ms c)) -> (forall c p, runs (ms' c) p <-> runs (ms c) p) ->
  (forall c p, ms' c = Chosen p -> ms c = Chosen p) -> tinv s' ms' fk.
Proof.
  intros [I1 I2 I3 I4 I5 I6 I7 I8 I9 I10 I11 I12 I13 I14 I15] [C1 C2 C3 C4] Hp Hr Hc.
  assert (Ha : forall i, alive (procs s' i) <-> alive (procs s i)) by (intros i; unfold alive; by rewrite (sc_state _ _ (C1 i))).
  split; try (intros; rewrite ?(sc_state _ _ (C1 _)), ?(sc_pid _ _ (C1 _)), ?C2, ?C3, ?C4 in *; eauto; fail).
  - intros c p H. rewrite Hr in H. rewrite (sc_state _ _ (C1 p)). by apply (I1 c).
  - intros c. by rewrite C4, Hp.
  - intros c d p H1 H2. rewrite Hr in H1, H2. by apply (I3 c d p).
  - intros p H. rewrite (sc_state _ _ (C1 p)). intros H1. destruct (I4 p H H1) as [c Hc']. exists c. by rewrite Hr.
  - intros c p H. rewrite (sc_ctx _ _ (C1 p)). by apply (I5 c), Hc.
  - intros p H. rewrite (sc_state _ _ (C1 p)), (sc_ctx _ _ (C1 p)). by apply I6.
  - intros p q H. rewrite Ha, (sc_state _ _ (C1 q)). by apply I7.
  - destruct I12 as (i & H1 & H2 & H3 & H4). exists i. by rewrite C3, Ha, (sc_parent _ _ (C1 i)).
  - intros i Hi. rewrite (sc_state _ _ (C1 i)), (sc_parent _ _ (C1 i)). by apply I13.
  - intros i Hi. rewrite Ha, (sc_state _ _ (C1 i)), (sc_parent _ _ (C1 i)), C3. intros H1 H2.
    destruct (I14 i Hi H1 H2) as (j & J1 & J2 & J3 & J4). exists j. by rewrite Ha.
  - intros p b Hi. rewrite (sc_state _ _ (C1 p)), (sc_ctx _ _ (C1 p)), (sc_chan _ _ (C1 p)), (sc_killed _ _ (C1 p)). intros H1 H2.
    destruct (I15 p b Hi H1 H2) as (K1 & K2 & K3). split; [done|]. split; [done|]. intros q Hq.
    rewrite (sc_parent _ _ (C1 q)), (sc_state _ _ (C1 q)). by apply K3.
Qed.

Lemma tinv_same s s' ms fk : tinv s ms fk -> same_table s s' -> tinv s' ms fk.
Proof. intros H Hs. by apply (tinv_core s s' ms ms fk H (same_core_table _ _ Hs)). Qed.

(** ** Wakeups and kills *)

Record nudged (x y : proc) : Prop := {
  nd_state : state y = state x \/ state x = SLEEPING /\ state y = RUNNABLE;
  nd_pid : pid y = pid x;
  nd_parent : parent y = parent x;
  nd_ctx : ctx y = ctx x;
  nd_chan : state y = SLEEPING -> pchan y = pchan x /\ killed y = killed x }.

Lemma nudged_alive x y : nudged x y -> alive x <-> alive y.
Proof. intros [[H|[H1 H2]] _ _ _ _]; unfold alive; [by rewrite H|rewrite H1, H2; naive_solver]. Qed.

Lemma nudged_state x y st : nudged x y -> st <> SLEEPING -> st <> RUNNABLE -> (state y = st <-> state x = st).
Proof. intros [[H|[H1 H2]] _ _ _ _] N1 N2; [by rewrite H|rewrite H1, H2; split; congruence]. Qed.

Lemma nudged_sleeping x y : nudged x y -> state y = SLEEPING -> state x = SLEEPING.
Proof. intros [[H|[H1 H2]] _ _ _ _]; congruence. Qed.

Lemma tinv_nudged s s' ms fk :
  tinv s ms fk -> (forall i, nudged (procs s i) (procs s' i)) ->
  nextpid s' = nextpid s -> initproc s' = initproc s -> cpu_proc s' = cpu_proc s -> tinv s' ms fk.
Proof.
  intros [I1 I2 I3 I4 I5 I6 I7 I8 I9 I10 I11 I12 I13 I14 I15] C1 C2 C3 C4.
  assert (Hst : forall i st, st <> SLEEPING -> st <> RUNNABLE -> (state (procs s' i) = st <-> state (procs s i) = st))
    by (intros; by apply nudged_state).
  assert (Hsr : forall i, state (procs s' i) = SLEEPING \/ state (procs s' i) = RUNNABLE -> state (procs s i) = SLEEPING \/ state (procs s i) = RUNNABLE).
  { intros i. destruct (nd_state _ _ (C1 i)) as [->|[-> ->]]; auto. }
  assert (Ha : forall i, alive (procs s' i) <-> alive (procs s i)) by (intros i; symmetry; by apply nudged_alive).
  split.
  - intros c p H. rewrite Hst by done. by apply (I1 c).
  - intros c. by rewrite C4.
  - done.
  - intros p H. rewrite Hst by done. by apply I4.
  - intros c p H. rewrite (nd_ctx _ _ (C1 p)). by apply (I5 c).
  - intros p H H1%Hsr. rewrite (nd_ctx _ _ (C1 p)). by apply I6.
  - intros p q H. rewrite Ha, Hst by done. by apply I7.
  - done.
  - by rewrite C2.
  - intros i Hi. rewrite Hst by done. rewrite (nd_pid _ _ (C1 i)), C2. by apply I10.
  - intros i j Hi Hj. rewrite !Hst by done. rewrite (nd_pid _ _ (C1 i)), (nd_pid _ _ (C1 j)). by apply I11.
  - destruct I12 as (i & H1 & H2 & H3 & H4). exists i. by rewrite C3, Ha, (nd_parent _ _ (C1 i)).
  - intros i Hi. rewrite !Hst by done. rewrite (nd_parent _ _ (C1 i)). by apply I13.
  - intros i Hi. rewrite Ha, Hst, (nd_parent _ _ (C1 i)), C3 by done. intros H1 H2.
    destruct (I14 i Hi H1 H2) as (j & J1 & J2 & J3 & J4). exists j. by rewrite Ha.
  - intros p b Hi H1. rewrite (nd_ctx _ _ (C1 p)). intros H2.
    destruct (I15 p b Hi (nudged_sleeping _ _ (C1 p) H1) H2) as (K1 & K2 & K3).
    destruct (nd_chan _ _ (C1 p) H1) as [-> ->]. split; [done|]. split; [done|]. intros q Hq.
    rewrite (nd_parent _ _ (C1 q)), Hst by done. by apply K3.
Qed.

(** ** Giving up the CPU and being chosen *)

Lemma runs_switch (ms : nat -> mode) c p q d : runs ((<[c := Switching p]> ms) d) q <-> d <> c /\ runs (ms d) q.
Proof.
  destruct (decide (c = d)) as [->|Hd]; [rewrite fn_lookup_insert|rewrite fn_lookup_insert_ne by done]; cbn; naive_solver.
Qed.

(** Process [p] of CPU [c] is in [sched] with entry [x]. *)
Lemma tinv_switch s s' ms fk c p :
  tinv s ms fk -> runs (ms c) p -> only_at p s s' ->
  pid (procs s' p) = pid (procs s p) -> parent (procs s' p) = parent (procs s p) ->
  state (procs s' p) = SLEEPING \/ state (procs s' p) = RUNNABLE -> ctx (procs s' p) <> InExit ->
  (forall b, state (procs s' p) = SLEEPING -> ctx (procs s' p) = InWait b ->
     pchan (procs s' p) = Some (ChanProc p) /\ killed (procs s' p) = false
     /\ forall q, (q < NPROC)%nat -> parent (procs s q) = Some p -> state (procs s q) <> ZOMBIE) ->
  tinv s' (<[c := Switching p]> ms) fk.
Proof.
  intros [I1 I2 I3 I4 I5 I6 I7 I8 I9 I10 I11 I12 I13 I14 I15] Hr [C1 C2 C3 C4] Hpid Hpar Hst Hctx Hwait.
  destruct (I1 c p Hr) as [Hp Hrun].
  assert (Ha : forall i, alive (procs s' i) <-> alive (procs s i)).
  { intros i. destruct (decide (i = p)) as [->|Hi]; [|by rewrite C1]. unfold alive. rewrite Hrun. naive_solver. }
  assert (Hpa : forall i, parent (procs s' i) = parent (procs s i)).
  { intros i. destruct (decide (i = p)) as [->|Hi]; [done|by rewrite C1]. }
  assert (Hpi : forall i, pid (procs s' i) = pid (procs s i)).
  { intros i. destruct (decide (i = p)) as [->|Hi]; [done|by rewrite C1]. }
  assert (Hs : forall i st, st = UNUSED \/ st = EMBRYO \/ st = ZOMBIE -> (state (procs s' i) = st <-> state (procs s i) = st)).
  { intros i st Hs. destruct (decide (i = p)) as [->|Hi]; [|by rewrite C1]. rewrite Hrun.
    destruct Hs as [->|[->| ->]], Hst as [->| ->]; done. }
  split.
  - intros d q [Hd Hq]%runs_switch. destruct (decide (q = p)) as [->|Hqp]; [exfalso; apply Hd; by apply (I3 d c p)|].
    rewrite C1 by done. by apply (I1 d).
  - intros d. rewrite C4, I2. destruct (decide (c = d)) as [<-|Hd]; [|by rewrite fn_lookup_insert_ne].
    rewrite fn_lookup_insert. cbn. by apply runs_proc_of.
  - intros d e q [Hd H1]%runs_switch [He H2]%runs_switch. by apply (I3 d e q).
  - intros q Hq H1. destruct (decide (q = p)) as [->|Hqp]; [destruct Hst; congruence|]. rewrite C1 in H1 by done.
    destruct (I4 q Hq H1) as [d Hd]. exists d. apply runs_switch. split; [|done]. intros ->.
    apply runs_proc_of in Hd, Hr. congruence.
  - intros d q. destruct (decide (c = d)) as [<-|Hd]; [by rewrite fn_lookup_insert|]. rewrite fn_lookup_insert_ne by done.
    intros H. destruct (decide (q = p)) as [->|Hqp]; [done|]. rewrite C1 by done. by apply (I5 d).
  - intros q Hq H1. destruct (decide (q = p)) as [->|Hqp]; [done|]. rewrite C1 in * by done. by apply I6.
  - intros q r H. rewrite Ha, Hs by tauto. by apply I7.
  - done.
  - by rewrite C2.
  - intros i Hi. rewrite Hs, Hpi, C2 by tauto. by apply I10.
  - intros i j Hi Hj. rewrite !Hs, !Hpi by tauto. by apply I11.
  - destruct I12 as (i & H1 & H2 & H3 & H4). exists i. by rewrite C3, Ha, Hpa.
  - intros i Hi. rewrite !Hs, Hpa by tauto. by apply I13.
  - intros i Hi. rewrite Ha, Hs, Hpa, C3 by tauto. intros H1 H2.
    destruct (I14 i Hi H1 H2) as (j & J1 & J2 & J3 & J4). exists j. by rewrite Ha.
  - intros q b Hq H1 H2. assert (Hz : forall r, (forall q', (q' < NPROC)%nat -> parent (procs s q') = Some r -> state (procs s q') <> ZOMBIE) ->
      forall q', (q' < NPROC)%nat -> parent (procs s' q') = Some r -> state (procs s' q') <> ZOMBIE).
    { intros r H q' Hq'. rewrite Hpa, Hs by tauto. by apply H. }
    destruct (decide (q = p)) as [->|Hqp].
    + destruct (Hwait b H1 H2) as (K1 & K2 & K3). split; [done|]. split; [done|]. by apply Hz.
    + rewrite C1 in H1, H2 |- * by done. destruct (I15 q b Hq H1 H2) as (K1 & K2 & K3). split; [done|]. split; [done|].
      by apply Hz.
Qed.

Lemma runs_insert (ms : nat -> mode) c m d q : runs ((<[c := m]> ms) d) q <-> d = c /\ runs m q \/ d <> c /\ runs (ms d) q.
Proof.
  destruct (decide (c = d)) as [->|Hd]; [rewrite fn_lookup_insert|rewrite fn_lookup_insert_ne by done]; naive_solver.
Qed.

(** The scheduler of CPU [c] finds nothing to run. *)
Lemma tinv_idle s s' ms fk c :
  tinv s ms fk -> (forall p, ~ runs (ms c) p) -> procs s' = procs s -> nextpid s' = nextpid s -> initproc s' = initproc s ->
  (forall d, d <> c -> cpu_proc s' d = cpu_proc s d) -> cpu_proc s' c = None ->
  tinv s' (<[c := Idle]> ms) fk.
Proof.
  intros [I1 I2 I3 I4 I5 I6 I7 I8 I9 I10 I11 I12 I13 I14 I15] Hc C1 C2 C3 C4 C5.
  assert (Hr : forall d q, runs ((<[c := Idle]> ms) d) q <-> runs (ms d) q).
  { intros d q. rewrite runs_insert. cbn. split; [tauto|]. intros H. right. split; [|done]. intros ->. by apply (Hc q). }
  split; rewrite ?C1, ?C2, ?C3; try done.
  - intros d q. rewrite Hr. apply I1.
  - intros d. destruct (decide (c = d)) as [<-|Hd]; [by rewrite fn_lookup_insert|].
    rewrite fn_lookup_insert_ne, C4 by done. apply I2.
  - intros d e q. rewrite !Hr. apply I3.
  - intros q H1 H2. destruct (I4 q H1 H2) as [d Hd]. exists d. by apply Hr.
  - intros d q. destruct (decide (c = d)) as [<-|Hd]; [by rewrite fn_lookup_insert|]. rewrite fn_lookup_insert_ne by done. apply I5.
Qed.

(** The scheduler of CPU [c] switches to [p]. *)
Lemma tinv_pick s s' ms fk c p :
  tinv s ms fk -> (forall q, ~ runs (ms c) q) -> (p < NPROC)%nat -> state (procs s p) = RUNNABLE ->
  (forall j, j <> p -> procs s' j = procs s j) -> procs s' p = set_state RUNNING (procs s p) ->
  nextpid s' = nextpid s -> initproc s' = initproc s ->
  (forall d, d <> c -> cpu_proc s' d = cpu_proc s d) -> cpu_proc s' c = Some p ->
  tinv s' (<[c := Chosen p]> ms) fk.
Proof.
  intros [I1 I2 I3 I4 I5 I6 I7 I8 I9 I10 I11 I12 I13 I14 I15] Hc Hp Hst C1 Cp C2 C3 C4 C5.
  assert (Ha : forall i, alive (procs s' i) <-> alive (procs s i)).
  { intros i. destruct (decide (i = p)) as [->|Hi]; [|by rewrite C1]. unfold alive. rewrite Cp, Hst. naive_solver. }
  assert (Hpa : forall i, parent (procs s' i) = parent (procs s i)).
  { intros i. destruct (decide (i = p)) as [->|Hi]; [by rewrite Cp|by rewrite C1]. }
  assert (Hpi : forall i, pid (procs s' i) = pid (procs s i)).
  { intros i. destruct (decide (i = p)) as [->|Hi]; [by rewrite Cp|by rewrite C1]. }
  assert (Hs : forall i st, st = UNUSED \/ st = EMBRYO \/ st = ZOMBIE -> (state (procs s' i) = st <-> state (procs s i) = st)).
  { intros i st Hs. destruct (decide (i = p)) as [->|Hi]; [|by rewrite C1]. rewrite Cp, Hst. cbn.
    destruct Hs as [->|[->| ->]]; done. }
  assert (Hno : forall d, ~ runs (ms d) p) by (intros d [_ H]%I1; congruence).
  split.
  - intros d q [[-> Hq]|[Hd Hq]]%runs_insert; [cbn in Hq; subst q; split; [done|by rewrite Cp]|].
    assert (q <> p) by (intros ->; by apply (Hno d)). rewrite C1 by done. by apply (I1 d).
  - intros d. destruct (decide (c = d)) as [<-|Hd]; [by rewrite fn_lookup_insert|]. rewrite fn_lookup_insert_ne, C4 by done. apply I2.
  - intros d e q [[-> Hd]|[Hd1 Hd]]%runs_insert [[-> He]|[He1 He]]%runs_insert; cbn in *; subst; try done.
    + by destruct (Hno e).
    + by destruct (Hno d).
    + by apply (I3 d e q).
  - intros q Hq H1. destruct (decide (q = p)) as [->|Hqp].
    { exists c. rewrite runs_insert. by left. }
    rewrite C1 in H1 by done. destruct (I4 q Hq H1) as [d Hd]. exists d. rewrite runs_insert. right. split; [|done].
    intros ->. by apply (Hc q).
  - intros d q. destruct (decide (c = d)) as [<-|Hd].
    + rewrite fn_lookup_insert. intros [= <-]. rewrite Cp. cbn. apply I6; [done|by right].
    + rewrite fn_lookup_insert_ne by done. intros H. assert (q <> p) by (intros ->; apply (Hno d); by rewrite H).
      rewrite C1 by done. by apply (I5 d).
  - intros q Hq H1. destruct (decide (q = p)) as [->|Hqp]; [rewrite Cp in H1; cbn in H1; naive_solver|].
    rewrite C1 in * by done. by apply I6.
  - intros q r H. rewrite Ha, Hs by tauto. by apply I7.
  - done.
  - by rewrite C2.
  - intros i Hi. rewrite Hs, Hpi, C2 by tauto. by apply I10.
  - intros i j Hi Hj. rewrite !Hs, !Hpi by tauto. by apply I11.
  - destruct I12 as (i & H1 & H2 & H3 & H4). exists i. by rewrite C3, Ha, Hpa.
  - intros i Hi. rewrite !Hs, Hpa by tauto. by apply I13.
  - intros i Hi. rewrite Ha, Hs, Hpa, C3 by tauto. intros H1 H2.
    destruct (I14 i Hi H1 H2) as (j & J1 & J2 & J3 & J4). exists j. by rewrite Ha.
  - intros q b Hq H1 H2. destruct (decide (q = p)) as [->|Hqp]; [by rewrite Cp in H1|].
    rewrite C1 in H1, H2 |- * by done. destruct (I15 q b Hq H1 H2) as (K1 & K2 & K3). split; [done|]. split; [done|].
    intros q' Hq'. rewrite Hpa, Hs by tauto. by apply K3.
Qed.

(** A chosen process runs on after [swtch]. *)
Lemma tinv_resume s s' ms fk c p m :
  tinv s ms fk -> ms c = Chosen p -> only_at p s s' ->
  state (procs s' p) = state (procs s p) -> pid (procs s' p) = pid (procs s p) -> parent (procs s' p) = parent (procs s p) ->
  proc_of m = Some p -> (forall q, runs m q <-> q = p) -> (forall q, m <> Chosen q) ->
  tinv s' (<[c := m]> ms) fk.
Proof.
  intros [I1 I2 I3 I4 I5 I6 I7 I8 I9 I10 I11 I12 I13 I14 I15] Hc [C1 C2 C3 C4] Hst Hpid Hpar Hm1 Hm2 Hm3.
  assert (Hr : forall d q, runs ((<[c := m]> ms) d) q <-> runs (ms d) q).
  { intros d q. rewrite runs_insert, Hm2. destruct (decide (d = c)) as [->|]; [|tauto]. rewrite Hc. cbn. naive_solver. }
  destruct (I1 c p ltac:(by rewrite Hc)) as [Hp Hrun].
  assert (Hs : forall i, state (procs s' i) = state (procs s i)).
  { intros i. destruct (decide (i = p)) as [->|Hi]; [done|by rewrite C1]. }
  assert (Hpa : forall i, parent (procs s' i) = parent (procs s i)).
  { intros i. destruct (decide (i = p)) as [->|Hi]; [done|by rewrite C1]. }
  assert (Hpi : forall i, pid (procs s' i) = pid (procs s i)).
  { intros i. destruct (decide (i = p)) as [->|Hi]; [done|by rewrite C1]. }
  assert (Ha : forall i, alive (procs s' i) <-> alive (procs s i)) by (intros i; unfold alive; by rewrite Hs).
  split.
  - intros d q. rewrite Hr, Hs. apply I1.
  - intros d. rewrite C4, I2. destruct (decide (c = d)) as [<-|Hd]; [by rewrite fn_lookup_insert, Hc|by rewrite fn_lookup_insert_ne].
  - intros d e q. rewrite !Hr. apply I3.
  - intros q. rewrite Hs. intros H1 H2. destruct (I4 q H1 H2) as [d Hd]. exists d. by apply Hr.
  - intros d q. destruct (decide (c = d)) as [<-|Hd]; [rewrite fn_lookup_insert; intros H; by apply Hm3 in H|].
    rewrite fn_lookup_insert_ne by done. intros H. assert (q <> p).
    { intros ->. apply Hd. apply (I3 c d p); [by rewrite Hc|by rewrite H]. }
    rewrite C1 by done. by apply (I5 d).
  - intros q Hq. rewrite Hs. intros H1. destruct (decide (q = p)) as [->|]; [destruct H1; congruence|]. rewrite C1 by done. by apply I6.
  - intros q r. rewrite Ha, Hs. apply I7.
  - done.
  - by rewrite C2.
  - intros i Hi. rewrite Hs, Hpi, C2. by apply I10.
  - intros i j Hi Hj. rewrite !Hs, !Hpi. by apply I11.
  - destruct I12 as (i & H1 & H2 & H3 & H4). exists i. by rewrite C3, Ha, Hpa.
  - intros i Hi. rewrite !Hs, Hpa. by apply I13.
  - intros i Hi. rewrite Ha, Hs, Hpa, C3. intros H1 H2.
    destruct (I14 i Hi H1 H2) as (j & J1 & J2 & J3 & J4). exists j. by rewrite Ha.
  - intros q b Hq. rewrite Hs. intros H1. destruct (decide (q = p)) as [->|Hqp]; [congruence|].
    rewrite C1 by done. intros H2. destruct (I15 q b Hq H1 H2) as (K1 & K2 & K3). split; [done|]. split; [done|].
    intros q' Hq'. rewrite Hpa, Hs. by apply K3.
Qed.
(** ** An entry that no CPU runs: fork's search, fork's end, the entry that wait frees *)

Lemma tinv_entry s s' ms fk fk' q :
  tinv s ms fk -> (forall j, j <> q -> procs s' j = procs s j) -> (q < NPROC)%nat -> ~ alive (procs s q) ->
  state (procs s' q) = UNUSED \/ state (procs s' q) = EMBRYO \/ state (procs s' q) = RUNNABLE ->
  initproc s' = initproc s -> cpu_proc s' = cpu_proc s ->
  nextpid s <= nextpid s' < 2 ^ 31 ->
  (state (procs s' q) <> UNUSED ->
     pid (procs s' q) = pid (procs s q) /\ state (procs s q) <> UNUSED \/ pid (procs s' q) = nextpid s /\ nextpid s < nextpid s') ->
  (state (procs s' q) = RUNNABLE ->
     ctx (procs s' q) <> InExit /\ exists p, (p < NPROC)%nat /\ parent (procs s' q) = Some p /\ alive (procs s p)) ->
  (state (procs s' q) <> RUNNABLE -> parent (procs s' q) = None) ->
  (forall p r, fk' p = Some r ->
     fk p = Some r /\ r <> q \/ r = q /\ (p < NPROC)%nat /\ alive (procs s p) /\ state (procs s' q) = EMBRYO) ->
  (forall p p', fk' p = Some q -> fk' p' = Some q -> p = p') ->
  tinv s' ms fk'.
Proof.
  intros [I1 I2 I3 I4 I5 I6 I7 I8 I9 I10 I11 I12 I13 I14 I15] C1 Hq Hdead Hst C3 C4 Hn Hpid Hrun Hpar Hfk Hinj.
  assert (Hal : forall i, alive (procs s i) -> i <> q /\ alive (procs s' i)).
  { intros i Hi. assert (i <> q) by (intros ->; tauto). split; [done|]. by rewrite C1. }
  assert (Hnr : state (procs s' q) <> RUNNING /\ state (procs s' q) <> SLEEPING /\ state (procs s' q) <> ZOMBIE)
    by (destruct Hst as [->|[->| ->]]; done).
  assert (Hrn : forall c p, runs (ms c) p -> p <> q).
  { intros c p [_ H]%I1 ->. apply Hdead. unfold alive. tauto. }
  split.
  - intros c p H. rewrite C1 by (by eapply Hrn). by apply (I1 c).
  - intros c. by rewrite C4.
  - done.
  - intros p Hp H. apply I4; [done|]. rewrite <- C1; [done|]. intros ->. destruct Hnr; congruence.
  - intros c p H. assert (p <> q) by (apply (Hrn c); by rewrite H). rewrite C1 by done. by apply (I5 c).
  - intros p Hp H. destruct (decide (p = q)) as [->|Hne]; [apply Hrun; tauto|]. rewrite C1 in * by done. by apply I6.
  - intros p r [[H Hne]|(-> & H1 & H2 & H3)]%Hfk.
    + destruct (I7 p r H) as (F1 & F2 & F3 & F4). destruct (Hal p F2). by rewrite (C1 r).
    + destruct (Hal p H2). done.
  - intros p p' r H H'. destruct (Hfk _ _ H) as [[F Hne]|[-> _]]; [|by apply Hinj].
    destruct (Hfk _ _ H') as [[F' _]|[-> _]]; [by apply (I8 p p' r)|done].
  - lia.
  - intros i Hi Hu. destruct (decide (i = q)) as [->|Hne].
    + destruct (Hpid Hu) as [[-> Hu']|[-> ?]]; [specialize (I10 q Hi Hu'); lia|lia].
    + rewrite C1 in * by done. specialize (I10 i Hi Hu). lia.
  - intros i j Hi Hj Hui Huj.
    assert (Hlt : forall k, (k < NPROC)%nat -> k <> q -> state (procs s' k) <> UNUSED ->
        pid (procs s' q) = pid (procs s' k) -> state (procs s' q) <> UNUSED -> False).
    { intros k Hk Hkq Hku Heq Hqu. rewrite (C1 k Hkq) in Hku, Heq. destruct (Hpid Hqu) as [[Hx Hx']|[Hx _]]; rewrite Hx in Heq.
      - apply Hkq. symmetry. by apply I11.
      - specialize (I10 k Hk Hku). lia. }
    destruct (decide (i = q)) as [->|Hi'], (decide (j = q)) as [->|Hj']; intros Heq; [done|by destruct (Hlt j)|by destruct (Hlt i)|].
    rewrite !C1 in * by done. by apply I11.
  - destruct I12 as (i & H1 & H2 & H3 & H4). destruct (Hal i H3) as [Hne Ha]. exists i. rewrite C3, (C1 i Hne) in *. done.
  - intros i Hi H. destruct (decide (i = q)) as [->|Hne]; [apply Hpar; destruct H; congruence|]. rewrite C1 in * by done. by apply I13.
  - intros i Hi H Hni. destruct (decide (i = q)) as [->|Hne].
    + destruct Hrun as (_ & p & P1 & P2 & P3); [unfold alive in H; tauto|]. destruct (Hal p P3). exists p. done.
    + rewrite C1, C3 in * by done. destruct (I14 i Hi H Hni) as (j & J1 & J2 & J3 & J4). destruct (Hal j J3). exists j. done.
  - intros p b Hp H1 H2. assert (p <> q) by (intros ->; destruct Hnr as (_ & ? & _); congruence). rewrite (C1 p) in * by done.
    destruct (I15 p b Hp H1 H2) as (K1 & K2 & K3). split; [done|]. split; [done|]. intros r Hr Hpr.
    destruct (decide (r = q)) as [->|Hne]; [tauto|]. rewrite C1 in * by done. by apply K3.
Qed.

(** ** exit *)

Lemma tinv_exit s s' ms fk c p :
  tinv s ms fk -> ms c = Kernel p [] -> fk p = None -> Some p <> initproc s -> exit_locked c p s = Ok tt s' ->
  tinv s' (<[c := Switching p]> ms) fk.
Proof.
  intros [I1 I2 I3 I4 I5 I6 I7 I8 I9 I10 I11 I12 I13 I14 I15] Hc Hfkp Hni Hex.
  assert (Hr : runs (ms c) p) by (by rewrite Hc). destruct (I1 c p Hr) as [Hp Hrun].
  apply exit_locked_table in Hex as (C2 & C3 & C4 & W & Hpar & Hz & Hpid & Hctx & Hpp & Hwk & Hwo); [|by rewrite I2, Hc].
  destruct (I14 p Hp) as (j0 & J1 & J2 & J3 & J4); [unfold alive; tauto|by intros H; apply Hni|].
  rewrite decide_False in Hpp by (intros [_ H]; congruence).
  assert (Hal : forall i, i <> p -> alive (procs s' i) <-> alive (procs s i)).
  { intros i Hi. destruct (wk_state _ _ (W i Hi)) as [H|[H H']]; unfold alive; [by rewrite H|rewrite H, H'; naive_solver]. }
  assert (Hs : forall i st, i <> p -> st <> SLEEPING -> st <> RUNNABLE -> (state (procs s' i) = st <-> state (procs s i) = st)).
  { intros i st Hi N1 N2. destruct (wk_state _ _ (W i Hi)) as [H|[H H']]; [by rewrite H|rewrite H, H'; split; congruence]. }
  assert (Hsl : forall i, i <> p -> state (procs s' i) = SLEEPING -> state (procs s i) = SLEEPING).
  { intros i Hi. destruct (wk_state _ _ (W i Hi)) as [H|[H H']]; congruence. }
  assert (Hpi : forall i, pid (procs s' i) = pid (procs s i)).
  { intros i. destruct (decide (i = p)) as [->|Hi]; [done|by apply wk_pid, W]. }
  split.
  - intros d q [Hd Hq]%runs_switch. assert (q <> p) by (intros ->; apply Hd; by apply (I3 d c p)).
    rewrite Hs by done. by apply (I1 d).
  - intros d. rewrite C4, I2. destruct (decide (c = d)) as [<-|Hd]; [by rewrite fn_lookup_insert, Hc|by rewrite fn_lookup_insert_ne].
  - intros d e q [Hd H1]%runs_switch [He H2]%runs_switch. by apply (I3 d e q).
  - intros q Hq H1. assert (q <> p) by congruence. rewrite Hs in H1 by done.
    destruct (I4 q Hq H1) as [d Hd]. exists d. apply runs_switch. split; [|done]. intros ->. rewrite Hc in Hd. cbn in Hd. congruence.
  - intros d q. destruct (decide (c = d)) as [<-|Hd]; [by rewrite fn_lookup_insert|]. rewrite fn_lookup_insert_ne by done.
    intros H. assert (q <> p) by (intros ->; apply Hd; apply (I3 c d p); [done|by rewrite H]).
    rewrite (wk_ctx _ _ (W q ltac:(done))). by apply (I5 d).
  - intros q Hq H1. assert (Hne : q <> p) by (intros ->; destruct H1; congruence). rewrite (wk_ctx _ _ (W q Hne)). apply I6; [done|].
    destruct (wk_state _ _ (W q Hne)) as [Hk|[Hk _]]; [by rewrite Hk in H1|by left].
  - intros q r H. destruct (I7 q r H) as (F1 & F2 & F3 & F4). assert (q <> p) by congruence. assert (r <> p) by congruence.
    rewrite Hal, Hs by done. done.
  - done.
  - by rewrite C2.
  - intros i Hi. rewrite Hpi, C2. destruct (decide (i = p)) as [->|Hne]; [intros _; apply I10; congruence|]. rewrite Hs by done. by apply I10.
  - intros i j Hi Hj Hui Huj. rewrite !Hpi. apply I11; try done.
    + destruct (decide (i = p)) as [->|]; [congruence|by rewrite <- Hs].
    + destruct (decide (j = p)) as [->|]; [congruence|by rewrite <- Hs].
  - destruct I12 as (i & H1 & H2 & H3 & H4). assert (i <> p) by congruence. exists i. rewrite C3, Hal, Hpar by done.
    rewrite decide_False by (intros [_ H']; congruence). done.
  - intros i Hi H. assert (i <> p) by (intros ->; destruct H; congruence). rewrite !Hs in H by done. rewrite Hpar by done.
    rewrite (I13 i Hi H). by rewrite decide_False by (intros [_ H']; congruence).
  - intros i Hi H Hini. rewrite C3 in Hini. destruct (decide (i = p)) as [->|Hne].
    { exists j0. rewrite Hpp, Hal by done. done. }
    rewrite Hal, Hs in H by done. rewrite Hpar by done. case_decide as Hd.
    + destruct I12 as (k & H1 & H2 & H3 & H4). exists k. assert (k <> p) by congruence. rewrite Hal by done.
      repeat split; [done..|congruence].
    + destruct (I14 i Hi H Hini) as (j & K1 & K2 & K3 & K4). exists j. assert (j <> p) by (intros ->; tauto). by rewrite Hal.
  - intros q b Hq H1 H2. assert (Hqp : q <> p) by congruence. pose proof (W q Hqp) as Wq. rewrite (wk_ctx _ _ Wq) in H2.
    destruct (I15 q b Hq (Hsl q Hqp H1) H2) as (K1 & K2 & K3). rewrite (wk_chan _ _ Wq), (wk_killed _ _ Wq). split; [done|]. split; [done|].
    intros r Hrr Hpr Hzr. destruct (decide (r = p)) as [->|Hrp].
    { rewrite Hpp in Hpr. apply (Hwk q Hq Hqp); [by rewrite K1, Hpr|done]. }
    rewrite Hs in Hzr by done. rewrite Hpar in Hpr by done. case_decide as Hd.
    + apply (Hwo r q Hrr (proj2 Hd) Hzr Hq Hqp); [by rewrite K1, Hpr|done].
    + by apply (K3 r).
Qed.
(** ** Every step *)

Lemma tinv_ext s ms ms' fk : tinv s ms fk -> (forall d, ms' d = ms d) -> tinv s ms' fk.
Proof. intros H Hm. apply (tinv_core s s ms ms' fk H); [done|..]; intros c *; by rewrite Hm. Qed.

Lemma insert_twice (ms : nat -> mode) c m m' d : (<[c := m']> (<[c := m]> ms)) d = (<[c := m']> ms) d.
Proof. destruct (decide (c = d)) as [->|]; [by rewrite !fn_lookup_insert|by rewrite !fn_lookup_insert_ne]. Qed.
Lemma insert_same (ms : nat -> mode) c m d : ms c = m -> (<[c := m]> ms) d = ms d.
Proof. intros H. destruct (decide (c = d)) as [<-|]; [by rewrite fn_lookup_insert|by rewrite fn_lookup_insert_ne]. Qed.

(** A CPU stays with its process while the table stays as it is. *)
Lemma tinv_quiet s s' ms fk c m :
  tinv s ms fk -> same_table s s' -> proc_of m = proc_of (ms c) -> (forall p, runs m p <-> runs (ms c) p) ->
  (forall p, m <> Chosen p) -> tinv s' (<[c := m]> ms) fk.
Proof.
  intros H Hs H1 H2 H3. apply (tinv_core s s' ms _ fk H (same_core_table _ _ Hs)); intros d;
    (destruct (decide (c = d)) as [<-|Hd]; [rewrite fn_lookup_insert|by rewrite fn_lookup_insert_ne]); auto.
  intros p Hm. by apply H3 in Hm.
Qed.

Lemma tinv_wait s s' ms fk c p r :
  tinv s ms fk -> ms c = Kernel p [] -> wait_round c p s = Ok r s' ->
  tinv s' (<[c := match r with Some _ => Kernel p [] | None => Switching p end]> ms) fk.
Proof.
  intros I Hc H. assert (Hr : runs (ms c) p) by (by rewrite Hc). destruct (ti_run _ _ _ I c p Hr) as [Hp Hrun].
  apply wait_round_table in H; [|by rewrite (ti_cpu _ _ _ I), Hc]. destruct r as [r|].
  - apply (tinv_ext _ ms); [|intros d; by apply insert_same].
    destruct H as [[H _]|(q & Hq & Hpq & Hz & _ & Ho & Hu & _ & Hpn)]; [by eapply tinv_same|]. destruct Ho as [O1 O2 O3 O4].
    apply (tinv_entry s s' ms fk fk q I O1 Hq); [unfold alive; rewrite Hz; naive_solver|tauto|done|done|..].
    + rewrite O2. pose proof (ti_next _ _ _ I). lia.
    + done.
    + by rewrite Hu.
    + done.
    + intros p' r' Hf. left. split; [done|]. destruct (ti_fork _ _ _ I _ _ Hf) as (_ & _ & _ & He). congruence.
    + intros p' p'' Hf _. destruct (ti_fork _ _ _ I _ _ Hf) as (_ & _ & _ & He). congruence.
  - destruct H as (Ho & Hk & Hz & _ & b & Hb).
    apply (tinv_switch s s' ms fk c p I Hr Ho); rewrite Hb; cbn; auto.
Qed.

Lemma tinv_resume_step s s' ms fk c p a :
  tinv s ms fk -> ms c = Chosen p -> resume c p s = Ok a s' -> tinv s' (<[c := resumed p a]> ms) fk.
Proof.
  intros I Hc H. unfold resume in H. kinv H. injection Hrun as <- <-.
  destruct (ctx (procs s p)) as [|b|lk b|b|] eqn:Hctx; [| | | |discriminate].
  - kinv H. apply quiet_release in Hrun. injection H as <- <-. cbn.
    apply (tinv_resume s s0 ms fk c p _ I Hc (same_only _ _ _ Hrun)); rewrite ?(st_procs _ _ Hrun); done.
  - kinv H. apply quiet_sched_return in Hrun. kinv H. apply quiet_release in Hrun0. injection H as <- <-. cbn.
    pose proof (PreOrder_Transitive _ _ _ Hrun Hrun0) as Q.
    apply (tinv_resume s s1 ms fk c p _ I Hc (same_only _ _ _ Q)); rewrite ?(st_procs _ _ Q); done.
  - kinv H. apply quiet_sched_return in Hrun. kinv H. apply upd_proc_run in Hrun0 as ->. kinv H. apply quiet_release in Hrun0.
    injection H as <- <-. cbn.
    apply (tinv_resume s s1 ms fk c p _ I Hc).
    + etransitivity; [by apply same_only|]. etransitivity; [apply set_proc_only|]. by apply same_only.
    + by rewrite (st_procs _ _ Hrun0), set_proc_at, (st_procs _ _ Hrun).
    + by rewrite (st_procs _ _ Hrun0), set_proc_at, (st_procs _ _ Hrun).
    + by rewrite (st_procs _ _ Hrun0), set_proc_at, (st_procs _ _ Hrun).
    + done.
    + done.
    + done.
  - kinv H. apply quiet_sched_return in Hrun. kinv H. apply upd_proc_run in Hrun0 as ->. kinv H. injection H as <- <-.
    assert (I1 : tinv (set_proc p (set_chan None (procs s0 p)) s0) (<[c := Kernel p []]> ms) fk).
    { apply (tinv_resume s _ ms fk c p _ I Hc).
      - etransitivity; [by apply same_only|apply set_proc_only].
      - by rewrite set_proc_at, (st_procs _ _ Hrun).
      - by rewrite set_proc_at, (st_procs _ _ Hrun).
      - by rewrite set_proc_at, (st_procs _ _ Hrun).
      - done.
      - done.
      - done. }
    pose proof (tinv_wait _ _ _ _ c p _ I1 (fn_lookup_insert _ _ _) Hrun0) as I2.
    apply (tinv_ext _ _ _ _ I2). intros d. rewrite insert_twice. by destruct a2.
Qed.

Lemma tinv_scan s s' ms fk c i r :
  tinv s ms fk -> (forall q, ~ runs (ms c) q) -> scheduler_scan c i s = Ok r s' ->
  (r = None -> cpu_proc s c = None) -> tinv s' (<[c := picked r]> ms) fk.
Proof.
  intros I Hc H Hn. apply scheduler_scan_table in H. destruct r as [p|].
  - destruct H as (Hp & _ & Hst & C1 & Cp & C2 & C3 & C4).
    apply (tinv_pick s s' ms fk c p I Hc Hp Hst C1 Cp C2 C3); rewrite C4; [|by rewrite fn_lookup_insert].
    intros d Hd. by rewrite fn_lookup_insert_ne.
  - destruct H as [C1 C2 C3 C4]. apply (tinv_idle s s' ms fk c I Hc C1 C2 C3); rewrite C4; auto.
Qed.

Lemma tinv_fork_find s s' ms fk c p r :
  tinv s ms fk -> ms c = Kernel p [] -> fk p = None -> nextpid s < 2 ^ 31 - 1 -> allocproc_find c s = Ok r s' ->
  tinv s' ms (<[p := r]> fk).
Proof.
  intros I Hc Hf Hn H. destruct (ti_run _ _ _ I c p ltac:(by rewrite Hc)) as [Hp Hrun].
  pose proof (ti_next _ _ _ I) as Hnext. apply allocproc_find_table in H. destruct r as [q|].
  - destruct H as (Hq & Hu & C1 & Cq & C2 & C3 & C4). rewrite s32_small in C2 by (unfold is_s32; lia).
    assert (Hnf : forall p', fk p' = Some q -> False).
    { intros p' H'. destruct (ti_fork _ _ _ I _ _ H') as (_ & _ & _ & He). congruence. }
    apply (tinv_entry s s' ms fk _ q I C1 Hq); rewrite ?Cq; cbn; [unfold alive; rewrite Hu; naive_solver|auto|done|done|lia|..].
    + intros _. right. split; [done|lia].
    + done.
    + intros _. apply (ti_orphan _ _ _ I q Hq). by left.
    + intros p' r'. destruct (decide (p' = p)) as [->|Hne].
      * rewrite fn_lookup_insert. intros [= <-]. right. repeat split; [done|]. unfold alive. auto.
      * rewrite fn_lookup_insert_ne by done. intros H'. left. split; [done|]. intros ->. by eapply Hnf.
    + intros p1 p2. destruct (decide (p1 = p)) as [->|H1], (decide (p2 = p)) as [->|H2];
        rewrite ?fn_lookup_insert, ?fn_lookup_insert_ne by done; [done|intros _ F|intros F _|intros F _]; by apply Hnf in F.
  - pose proof (tinv_same s s' ms fk I H) as [I1 I2 I3 I4 I5 I6 I7 I8 I9 I10 I11 I12 I13 I14 I15].
    assert (Hfk : forall p' q, (<[p := None]> fk) p' = Some q -> fk p' = Some q).
    { intros p' q. destruct (decide (p = p')) as [->|]; [by rewrite fn_lookup_insert|by rewrite fn_lookup_insert_ne]. }
    split; try done; [intros p' q H1; by apply I7, Hfk|intros p1 p2 q H1 H2; apply (I8 p1 p2 q); by apply Hfk].
Qed.

Lemma tinv_fork_rest s s' ms fk c p np r :
  tinv s ms fk -> ms c = Kernel p [] -> fk p = Some np -> fork_rest c p np s = Ok r s' -> tinv s' ms (<[p := None]> fk).
Proof.
  intros I Hc Hf H. destruct (ti_run _ _ _ I c p ltac:(by rewrite Hc)) as [Hp Hrun].
  destruct (ti_fork _ _ _ I _ _ Hf) as (_ & Ha & Hq & He). assert (Hne : p <> np) by congruence.
  apply fork_rest_table in H as [[O1 O2 O3 O4] H]; [|done..].
  assert (Hfk : forall p' q, (<[p := None]> fk) p' = Some q -> fk p' = Some q /\ q <> np).
  { intros p' q. destruct (decide (p = p')) as [->|Hp']; [by rewrite fn_lookup_insert|].
    rewrite fn_lookup_insert_ne by done. intros F. split; [done|]. intros ->. by apply Hp', (ti_fork_inj _ _ _ I _ _ np). }
  pose proof (ti_next _ _ _ I).
  apply (tinv_entry s s' ms fk _ np I O1 Hq); [unfold alive; rewrite He; naive_solver|tauto|done|done|lia|..].
  - intros Hu. destruct H as [[H _]|(_ & _ & _ & -> & _)]; [done|]. left. split; [done|congruence].
  - intros Hr. destruct H as [[H _]|(_ & Hpar & Hctx & _)]; [congruence|]. rewrite Hctx. split; [done|]. by exists p.
  - intros Hr. destruct H as [(_ & -> & _)|[H _]]; [|done]. apply (ti_orphan _ _ _ I np Hq). by right.
  - intros p' r' H'. left. by apply Hfk.
  - intros p1 p2 [_ F]%Hfk. done.
Qed.

Theorem tinv_step w w' : pstep w w' -> tinv (ps w) (modes w) (forks w) -> tinv (ps w') (modes w') (forks w').
Proof.
  intros Hstep I. destruct Hstep as
    [c s ms fk r s' Hc H|c p s ms fk r s' Hc H|c p s ms fk a s' Hc H|c p lk s ms fk s' Hc H|c p h lk s ms fk s' Hc Hl H
    |c p h lk s ms fk s' Hc Hl H|c p s ms fk s' Hc H|c p lk ch s ms fk s' Hc Hf H|c ch s ms fk s' Hc H|c p s ms fk r s' Hc Hf Hn H
    |c p np s ms fk r s' Hc Hf H|c p s ms fk s' Hc H|c p s ms fk s' Hc Hf Hi H|c p s ms fk r s' Hc Hf H|c p h n s ms fk r s' Hc H
    |c p h n s ms fk r s' Hc H|c p b s ms fk Hc|e s ms fk]; cbn [ps modes forks] in *.
  - unfold scheduler_round in H. kinv H. apply quiet_sti in Hrun. kinv H. apply quiet_acquire in Hrun0.
    pose proof (PreOrder_Transitive _ _ _ Hrun Hrun0) as Q. apply (tinv_scan s1 s' ms fk c 0 r); [by eapply tinv_same|intros q; rewrite Hc; tauto|done|].
    intros _. by rewrite (st_cpu _ _ Q), (ti_cpu _ _ _ I), Hc.
  - unfold scheduler_return in H. kinv H. apply quiet_on_env in Hrun. kinv H. injection Hrun0 as _ <-.
    assert (I1 : tinv (set_cpu_proc c None s0) (<[c := Idle]> ms) fk).
    { apply (tinv_idle s _ ms fk c I); [intros q; rewrite Hc; tauto|apply Hrun..| |cbn; by rewrite fn_lookup_insert].
      intros d Hd. cbn. rewrite fn_lookup_insert_ne by done. by rewrite (st_cpu _ _ Hrun). }
    pose proof (tinv_scan _ s' _ fk c (S p) r I1 ltac:(intros q; rewrite fn_lookup_insert; tauto) H) as I2.
    eapply tinv_ext; [apply I2; intros _; cbn; by rewrite fn_lookup_insert|]. intros d. by rewrite insert_twice.
  - by apply (tinv_resume_step s).
  - apply quiet_acquire in H. by apply (tinv_quiet s); [..|rewrite Hc|rewrite Hc|].
  - apply quiet_acquire in H. by apply (tinv_quiet s); [..|rewrite Hc|rewrite Hc|].
  - apply quiet_release in H. by apply (tinv_quiet s); [..|rewrite Hc|rewrite Hc|].
  - apply yield_table in H as (q & b & Hq & Ho & Hb). rewrite (ti_cpu _ _ _ I), Hc in Hq. injection Hq as <-.
    apply (tinv_switch s s' ms fk c p I); rewrite ?Hc, ?Hb; cbn; auto; done.
  - apply sleep_table in H as (q & b & Hq & Ho & Hb). rewrite (ti_cpu _ _ _ I), Hc in Hq. injection Hq as <-.
    apply (tinv_switch s s' ms fk c p I); rewrite ?Hc, ?Hb; cbn; auto; done.
  - apply wakeup_table in H as (C1 & C2 & C3 & C4). apply (tinv_nudged s s' ms fk I); [|done..].
    intros i. rewrite C1. destruct (wakeup1_woken ch (procs s) i) as [[W1 W2 W3 W4 W5] W6]. by split.
  - by apply (tinv_fork_find s s' ms fk c p r).
  - by apply (tinv_fork_rest s s' ms fk c p np r).
  - apply exit_close_core in H. by apply (tinv_core s s' ms ms fk I H).
  - by apply (tinv_exit s s' ms fk c p).
  - unfold wait in H. kinv H. pose proof (curproc_value _ _ _ _ Hrun) as Hp. rewrite (ti_cpu _ _ _ I), Hc in Hp. injection Hp as <-.
    apply quiet_curproc in Hrun. kinv H. apply quiet_acquire in Hrun0. pose proof (PreOrder_Transitive _ _ _ Hrun Hrun0) as Q.
    by apply (tinv_wait s1 s' ms fk c p r (tinv_same _ _ _ _ I Q)).
  - apply kill_table in H as [(Q & _)|(q & Hq & _ & Hpq & [O1 O2 O3 O4] & Hk & Hpar & Hpid & Hctx & Hst)]; [by eapply tinv_same|].
    apply (tinv_nudged s s' ms fk I); [|done..]. intros i. destruct (decide (i = q)) as [->|Hi]; [|rewrite O1 by done; split; auto].
    split; try congruence; [case_decide; auto|]. case_decide; congruence.
  - apply growproc_core in H. by apply (tinv_core s s' ms ms fk I H).
  - by apply (tinv_core s _ ms ms fk I).
  - by apply (tinv_core s _ ms ms fk I).
Qed.
End facts.
