(* ===== verification/SchedTotal.v ===== *)
(** * Giving up the CPU, run to the end

    The routines of Proc.v that switch stacks, on a CPU with its locks in
    order: what they do, panics included, for any locks that are held. *)

From S2P Require Import Prelude Mem Spinlock Proc Sched ProcTable.
#[local] Open Scope Z_scope.

Section total.
Context {E : Type} `{!services E} (me : nat).
Implicit Types (s : pstate E).

(** The locks are in order and CPU [me] holds [h]. *)
Definition holds (h : list Z) s : Prop :=
  exists en th, good en {| hw := mach s; threads := th |} /\ th me = {| held := h; at_ := Running |}.

Lemma holds_after {A} h q (m : K (pstate E) A) s a s' : locked me h q m -> m s = Ok a s' -> holds h s -> holds (q a) s'.
Proof.
  intros Hl H (en & th & G & Ht). destruct (Hl _ _ _ H en th G Ht) as [en' G']. exists en', (set_thread me {| held := q a; at_ := Running |} th).
  split; [done|apply set_thread_eq].
Qed.

Lemma holds_cpu h s : holds h s -> exists e, cpu_ok e (Z.of_nat (length h)) (cpus (mach s) me).
Proof.
  intros (en & th & G & Ht). exists (en me). pose proof (good_cli _ _ G me) as Hc. cbn in Hc. rewrite Ht in Hc.
  unfold depth in Hc. cbn in Hc. by rewrite Z.add_0_r in Hc.
Qed.

Lemma holds_recorded h s l : holds h s -> (lk_cpu (locks (mach s) l) = Some me <-> l ∈ h).
Proof.
  intros (en & th & G & Ht). pose proof (good_cpu _ _ G l me) as Hc. cbn in Hc. rewrite Hc. unfold recorded. rewrite Ht. cbn.
  split; [by intros []|done].
Qed.

Lemma holds_locked h s l : holds h s -> l ∈ h -> Spinlock.locked (locks (mach s) l) <> 0.
Proof.
  intros (en & th & G & Ht) Hl. pose proof (good_owner _ _ G l) as Hc. cbn in Hc. rewrite Hc. exists me. rewrite Ht. done.
Qed.

(** ** Locks and the current process *)

Lemma myproc_total h s : holds h s -> exists s', myproc me s = Ok (cpu_proc s me) s'.
Proof.
  intros H. destruct (holds_cpu h s H) as [e Hc]. destruct (pushcli_ok _ _ _ _ Hc) as (m1 & E1 & M1).
  destruct (popcli_ok _ _ me m1 (proj1 Hc) (proj1 M1)) as (m2 & E2 & M2). destruct M1 as [(H1 & H2 & H3 & H4) _].
  exists (set_mach m2 s). unfold myproc, kbind, on_mach. rewrite E1. unfold mycpu, kbind, gets. cbn [mach set_mach].
  rewrite H4. destruct (Z.eqb_spec (Z.of_nat (length h) + 1) 0); [lia|]. cbv [andb kret]. cbn [mach set_mach]. by rewrite E2.
Qed.

Lemma curproc_total h s p : holds h s -> cpu_proc s me = Some p -> exists s', curproc me s = Ok p s'.
Proof.
  intros H Hp. destruct (myproc_total h s H) as [s' E']. exists s'. unfold curproc. rewrite (kbind_ok _ _ _ _ _ E'). by rewrite Hp.
Qed.

Lemma holding_total h s l : holds h s -> exists s', on_mach (holding me l) s = Ok (bool_decide (l ∈ h)) s'.
Proof.
  intros H. destruct (holds_cpu h s H) as [e Hc]. destruct (holding_ok _ _ _ l _ Hc) as (m & E1 & _).
  exists (set_mach m s). unfold on_mach. rewrite E1. do 2 f_equal. pose proof (holds_recorded h s l H) as Hr. case_bool_decide as H1.
  - rewrite (bool_decide_eq_true_2 (l ∈ h)) by tauto. destruct (Z.eqb_spec (Spinlock.locked (locks (mach s) l)) 0) as [E0|]; [|done].
    exfalso. apply (holds_locked h s l H); tauto.
  - rewrite (bool_decide_eq_false_2 (l ∈ h)) by tauto. by rewrite andb_false_r.
Qed.

(** One try of acquire: it fails exactly when another CPU has the lock. *)
Lemma acquire_total h s l : holds h s -> l ∉ h ->
  if Spinlock.locked (locks (mach s) l) =? 0 then exists s', acquire me l s = Ok tt s' else acquire me l s = NoFuel.
Proof.
  intros H Hl. destruct (holds_cpu h s H) as [e Hc]. destruct (pushcli_ok _ _ _ _ Hc) as (m1 & E1 & M1).
  destruct (holding_ok _ _ me l m1 (proj1 M1)) as (m2 & E2 & M2).
  assert (Hlk : locks m2 = locks (mach s)) by (destruct M1 as (_ & _ & <- & _), M2 as (_ & _ & <- & _); done).
  rewrite (bool_decide_eq_false_2 (lk_cpu _ = _)) in E2
    by (destruct M1 as (_ & _ & -> & _); rewrite (holds_recorded h s l H); done).
  rewrite andb_false_r in E2. unfold acquire, on_mach, Spinlock.acquire, acquire_begin.
  unfold kbind. rewrite E1, E2. cbn [kret acquire_loop]. unfold xchg, kbind, gets, modify. rewrite Hlk.
  cbv beta iota delta [kret]. destruct (Spinlock.locked (locks (mach s) l) =? 0); cbv beta iota delta [negb nofuel].
  - unfold acquire_end, modify. eexists. reflexivity.
  - reflexivity.
Qed.

Lemma release_total h s l : holds h s -> l ∈ h -> exists s', release me l s = Ok tt s'.
Proof.
  intros H Hl. destruct (holds_cpu h s H) as [e Hc]. destruct (holding_ok _ _ _ l _ Hc) as (m & E1 & M1).
  rewrite (bool_decide_eq_true_2 (lk_cpu _ = _)) in E1 by (by rewrite (holds_recorded h s l H)).
  pose proof (holds_locked h s l H Hl) as Hn. apply Z.eqb_neq in Hn. rewrite Hn in E1. cbn in E1.
  unfold release, on_mach, Spinlock.release, release_begin. unfold kbind at 1. rewrite (kbind_ok (holding me l) _ _ _ _ E1). cbn [negb].
  unfold release_end, kbind, modify.
  destruct M1 as [M1 _]. match goal with |- context [popcli me ?x] => set (mx := x) end.
  assert (Hlen : 0 < Z.of_nat (length h)) by (destruct h; [by apply elem_of_nil in Hl|cbn; lia]).
  destruct (popcli_ok e (Z.of_nat (length h) - 1) me mx) as (m3 & E3 & _); [lia| |].
  - by replace (Z.of_nat (length h) - 1 + 1) with (Z.of_nat (length h)) by lia.
  - rewrite E3. by eexists.
Qed.

Lemma myproc_step h s : holds h s ->
  exists s', myproc me s = Ok (cpu_proc s me) s' /\ holds h s' /\ same_table s s' /\ locks (mach s') = locks (mach s).
Proof.
  intros H. destruct (myproc_total h s H) as [s' E']. exists s'. split; [done|].
  split; [exact (holds_after _ _ _ _ _ _ (locked_myproc me h) E' H)|]. split; [exact (quiet_myproc me _ _ _ E')|].
  destruct (holds_cpu h s H) as [e Hc]. destruct (myproc_run me _ _ _ _ _ Hc E') as (_ & m & -> & M). apply M.
Qed.

Lemma curproc_step h s p : holds h s -> cpu_proc s me = Some p ->
  exists s', curproc me s = Ok p s' /\ holds h s' /\ same_table s s' /\ locks (mach s') = locks (mach s).
Proof.
  intros H Hp. destruct (myproc_step h s H) as (s' & E' & R). exists s'. split; [|done].
  unfold curproc. rewrite (kbind_ok _ _ _ _ _ E'). by rewrite Hp.
Qed.

Lemma acquire_step h s l : holds h s -> l ∉ h -> Spinlock.locked (locks (mach s) l) = 0 ->
  exists s', acquire me l s = Ok tt s' /\ holds (l :: h) s' /\ same_table s s'.
Proof.
  intros H Hl H0. pose proof (acquire_total h s l H Hl) as Ha. rewrite H0 in Ha. destruct Ha as [s' E']. exists s'.
  split; [done|]. split; [exact (holds_after _ _ _ _ _ _ (locked_acquire me h l) E' H)|exact (quiet_acquire me _ _ _ _ E')].
Qed.

Lemma release_step h s l : holds h s -> l ∈ h ->
  exists s', release me l s = Ok tt s' /\ holds (filter (fun x => x <> l) h) s' /\ same_table s s'.
Proof.
  intros H Hl. destruct (release_total h s l H Hl) as [s' E']. exists s'.
  split; [done|]. split; [exact (holds_after _ _ _ _ _ _ (locked_release me h l Hl) E' H)|exact (quiet_release me _ _ _ _ E')].
Qed.

(** ** Where the stacks are switched *)

(** The table is locked and [h] is what else the CPU has: [swtch] is reached,
    with result [a], if this is nothing, and otherwise sched panics. *)
Definition switches {A} (h : list Z) (a : A) (o : outcome (pstate E) A) : Prop :=
  if decide (h = []) then exists s', o = Ok a s' else o = Panic "sched locks"%string.

(** The CPU is given up in [s], [h] being kept: this waits while another CPU
    has the table, and is then decided by [h]. *)
Definition gives_up {A} s (h : list Z) (a : A) (o : outcome (pstate E) A) : Prop :=
  if Spinlock.locked (locks (mach s) PTABLE) =? 0 then switches h a o else o = NoFuel.

Lemma gives_up_free {A} s (a : A) o :
  Spinlock.locked (locks (mach s) PTABLE) = 0 -> gives_up s [] a o -> exists s', o = Ok a s'.
Proof. unfold gives_up. by intros ->. Qed.

Lemma sched_switches k s p h :
  holds (PTABLE :: h) s -> cpu_proc s me = Some p -> state (procs s p) <> RUNNING -> switches h tt (sched me k s).
Proof.
  intros H Hp Hst. destruct (curproc_step _ _ _ H Hp) as (s1 & E1 & H1 & Q1 & _).
  destruct (holding_total _ _ PTABLE H1) as [s2 E2]. pose proof (quiet_on_mach _ _ _ _ E2) as Q2.
  pose proof (holds_after _ _ _ _ _ _ (locked_holding me _ PTABLE) E2 H1) as H2. cbn in H2.
  destruct (holds_cpu _ _ H2) as [e (C1 & C2 & C3 & C4)].
  unfold sched. rewrite (kbind_ok _ _ _ _ _ E1), (kbind_ok _ _ _ _ _ E2). rewrite bool_decide_eq_true_2 by constructor. cbn [negb].
  unfold kbind, get, gets, switches. cbv beta iota. rewrite C2. destruct (decide (h = [])) as [Hh|Hh].
  - subst h. change (negb _) with false. cbv beta iota.
    rewrite decide_False by (by rewrite (st_procs _ _ Q2), (st_procs _ _ Q1)). rewrite C4. eexists. reflexivity.
  - destruct (Z.eqb_spec (Z.of_nat (length (PTABLE :: h))) 1) as [Hl|]; [|done].
    destruct h; [done|]. cbn in Hl. lia.
Qed.

Lemma sleep_table_switches ch k s p h :
  holds (PTABLE :: h) s -> cpu_proc s me = Some p -> switches h tt (sleep me ch PTABLE k s).
Proof.
  intros H Hp. destruct (myproc_step _ _ H) as (s0 & E0 & H0 & Q0 & _). unfold sleep. rewrite (kbind_ok _ _ _ _ _ E0), Hp.
  change (PTABLE =? PTABLE) with true. cbn [negb].
  eapply sched_switches; [exact H0| |by rewrite set_proc_at]. cbn. by rewrite (st_cpu _ _ Q0).
Qed.

(** The table is taken, and [m] follows. *)
Lemma acquire_gives_up {A} (m : K (pstate E) A) a s h h' :
  holds h s -> PTABLE ∉ h ->
  (forall s1, holds (PTABLE :: h) s1 -> same_table s s1 -> switches h' a (m s1)) ->
  gives_up s h' a (kbind (acquire me PTABLE) (fun _ => m) s).
Proof.
  intros H Hn Hm. unfold gives_up. pose proof (acquire_total h s PTABLE H Hn) as Ha.
  destruct (Z.eqb_spec (Spinlock.locked (locks (mach s) PTABLE)) 0) as [H0|]; [|unfold kbind; by rewrite Ha].
  destruct (acquire_step h s PTABLE H Hn H0) as (s1 & E1 & H1 & Q1). rewrite (kbind_ok _ _ _ _ _ E1). by apply Hm.
Qed.

Lemma gives_up_locks {A} s s0 h (a : A) o : locks (mach s0) = locks (mach s) -> gives_up s0 h a o -> gives_up s h a o.
Proof. intros Hl. unfold gives_up. by rewrite Hl. Qed.

(** ** yield, sleep, exit and wait *)

Lemma yield_gives_up s p h : holds h s -> PTABLE ∉ h -> cpu_proc s me = Some p -> gives_up s h tt (yield me s).
Proof.
  intros H Hn Hp. unfold yield. apply (acquire_gives_up _ _ _ h); [done..|]. intros s1 H1 Q1.
  destruct (curproc_step _ _ p H1) as (s2 & E2 & H2 & Q2 & _); [by rewrite (st_cpu _ _ Q1)|]. rewrite (kbind_ok _ _ _ _ _ E2).
  eapply sched_switches; [exact H2|cbn; by rewrite (st_cpu _ _ Q2), (st_cpu _ _ Q1)|by rewrite set_proc_at].
Qed.

Lemma sleep_gives_up ch lk k s p h :
  holds h s -> PTABLE ∉ h -> lk ∈ h -> cpu_proc s me = Some p ->
  gives_up s (filter (fun x => x <> lk) h) tt (sleep me ch lk k s).
Proof.
  intros H Hn Hl Hp. destruct (myproc_step _ _ H) as (s0 & E0 & H0 & Q0 & L0). unfold sleep. rewrite (kbind_ok _ _ _ _ _ E0), Hp.
  assert (Hlk : lk <> PTABLE) by (by intros ->). rewrite (proj2 (Z.eqb_neq _ _) Hlk). cbn [negb]. rewrite kbind_assoc.
  apply (gives_up_locks _ _ _ _ _ L0), (acquire_gives_up _ _ _ h); [done..|]. intros s1 H1 Q1.
  destruct (release_step _ _ lk H1) as (s2 & E2 & H2 & Q2); [by right|]. rewrite (kbind_ok _ _ _ _ _ E2).
  rewrite filter_cons_True in H2 by done.
  eapply sched_switches; [exact H2| |by rewrite set_proc_at]. cbn. by rewrite (st_cpu _ _ Q2), (st_cpu _ _ Q1), (st_cpu _ _ Q0).
Qed.

Lemma reparent_total p i todo s :
  exists s', reparent p i todo s = Ok tt s' /\ mach s' = mach s /\ cpu_proc s' = cpu_proc s.
Proof.
  revert i s. induction todo as [|todo IH]; intros i s; cbn [reparent]; [by exists s|].
  unfold kbind, get, gets. cbv beta iota. case_decide; [|apply IH].
  unfold upd_proc, modify. cbv beta iota. case_decide; unfold wakeup1, modify, kret; cbv beta iota;
    (match goal with |- context [reparent p (S i) todo ?x] => destruct (IH (S i) x) as (s' & E' & M & C) end;
     exists s'; by rewrite M, C).
Qed.

Lemma exit_gives_up s p h : holds h s -> PTABLE ∉ h -> cpu_proc s me = Some p -> gives_up s h tt (exit_locked me p s).
Proof.
  intros H Hn Hp. unfold exit_locked. apply (acquire_gives_up _ _ _ h); [done..|]. intros s1 H1 Q1.
  unfold kbind at 1, get, gets. unfold kbind at 1, wakeup1, modify. cbv beta iota.
  match goal with |- switches _ _ (_ ?x) => destruct (reparent_total p 0 NPROC x) as (s2 & E2 & M2 & C2) end.
  rewrite (kbind_ok _ _ _ _ _ E2).
  eapply sched_switches; [|cbn; rewrite C2; cbn; by rewrite (st_cpu _ _ Q1)|by rewrite set_proc_at].
  unfold holds. cbn [mach set_proc]. rewrite M2. exact H1.
Qed.

(** No child of [p] is a zombie. *)
Definition no_zombie s (p : nat) : Prop :=
  forall q, (q < NPROC)%nat -> parent (procs s q) = Some p -> state (procs s q) <> ZOMBIE.

Lemma no_zombie_scan s p : fst (scan_children (procs s) p 0 NPROC false) = None -> no_zombie s p.
Proof.
  intros Hn q Hq. pose proof (scan_children_spec (procs s) p 0 NPROC false) as Hs.
  destruct (scan_children _ _ _ _ _) as [[?|] b]; [done|]. apply Hs. lia.
Qed.

Lemma scan_no_zombie s p : no_zombie s p ->
  exists b, scan_children (procs s) p 0 NPROC false = (None, b)
    /\ (b = true <-> exists q, (q < NPROC)%nat /\ parent (procs s q) = Some p).
Proof.
  intros Hz.
  assert (G : forall f i todo h, (forall q, (i <= q < i + todo)%nat -> parent (f q) = Some p -> state (f q) <> ZOMBIE) ->
    exists b, scan_children f p i todo h = (None, b)
      /\ (b = true <-> h = true \/ exists q, (i <= q < i + todo)%nat /\ parent (f q) = Some p)).
  { intros f i todo. revert i. induction todo as [|todo IH]; intros i h Hf; cbn [scan_children].
    { exists h. split; [done|]. split; [by left|]. intros [?|(q & ? & _)]; [done|lia]. }
    case_decide as Hp; [rewrite decide_False by (apply Hf; [lia|done])|].
    - destruct (IH (S i) true) as (b & Eb & Hb); [intros q Hq; apply Hf; lia|]. exists b. split; [done|]. rewrite Hb.
      split; [intros _; right; exists i; split; [lia|done]|by left].
    - destruct (IH (S i) h) as (b & Eb & Hb); [intros q Hq; apply Hf; lia|]. exists b. split; [done|]. rewrite Hb.
      split; (intros [?|(q & Hq & Hpq)]; [by left|right; exists q; split; [|done]]); [lia|].
      destruct (decide (q = i)) as [->|]; [done|lia]. }
  destruct (G (procs s) 0%nat NPROC false) as (b & Eb & Hb); [intros q Hq; apply Hz; lia|]. exists b. split; [done|]. rewrite Hb.
  split; [intros [?|(q & Hq & ?)]; [done|]|intros (q & Hq & ?); right]; exists q; (split; [lia|done]).
Qed.

Lemma wait_round_switches s p h :
  holds (PTABLE :: h) s -> cpu_proc s me = Some p -> no_zombie s p ->
  (exists q, (q < NPROC)%nat /\ parent (procs s q) = Some p) -> killed (procs s p) = false ->
  switches h None (wait_round me p s).
Proof.
  intros H Hp Hz Hq Hk. destruct (scan_no_zombie s p Hz) as (b & Eb & Hb). assert (b = true) as -> by tauto.
  unfold wait_round. unfold kbind at 1, gets. rewrite Eb, Hk. cbn [negb orb].
  pose proof (sleep_table_switches (Some (ChanProc p)) InWait s p h H Hp) as Hs. unfold switches in *.
  case_decide; [|unfold kbind; by rewrite Hs]. destruct Hs as [s' Es]. exists s'. by rewrite (kbind_ok _ _ _ _ _ Es).
Qed.

Lemma wait_gives_up s p h :
  holds h s -> PTABLE ∉ h -> cpu_proc s me = Some p -> no_zombie s p ->
  (exists q, (q < NPROC)%nat /\ parent (procs s q) = Some p) -> killed (procs s p) = false ->
  gives_up s h None (wait me s).
Proof.
  intros H Hn Hp Hz Hq Hk. destruct (curproc_step _ _ _ H Hp) as (s0 & E0 & H0 & Q0 & L0).
  unfold wait. rewrite (kbind_ok _ _ _ _ _ E0). apply (gives_up_locks _ _ _ _ _ L0), (acquire_gives_up _ _ _ h); [done..|].
  intros s1 H1 Q1. pose proof (PreOrder_Transitive _ _ _ Q0 Q1) as Q.
  apply wait_round_switches; unfold no_zombie; rewrite ?(st_procs _ _ Q), ?(st_cpu _ _ Q); done.
Qed.

(** ** Being chosen again *)

(** A round of wait with no zombie to reap, on behalf of a process that was
    just chosen: it ends, asleep again or with -1. *)
Lemma wait_round_total s p :
  holds [PTABLE] s -> cpu_proc s me = Some p -> no_zombie s p -> exists r s', wait_round me p s = Ok r s'.
Proof.
  intros H Hp Hz. destruct (scan_no_zombie s p Hz) as (b & Eb & Hb). unfold wait_round. unfold kbind at 1, gets. rewrite Eb.
  destruct (negb b || killed (procs s p)).
  - destruct (release_step _ _ PTABLE H) as (s' & E' & _); [left|]. exists (Some (-1)), s'. by rewrite (kbind_ok _ _ _ _ _ E').
  - destruct (sleep_table_switches (Some (ChanProc p)) InWait s p [] H Hp) as [s' Es].
    exists None, s'. by rewrite (kbind_ok _ _ _ _ _ Es).
Qed.

Lemma resume_total s p :
  holds [PTABLE] s -> cpu_proc s me = Some p -> ctx (procs s p) <> InExit ->
  (forall e, ctx (procs s p) = InWait e -> no_zombie s p) -> exists a s', resume me p s = Ok a s'.
Proof.
  intros H Hp Hx Hz. unfold resume. unfold kbind at 1, get, gets.
  assert (Hret : forall e, exists s', sched_return me e s = Ok tt s' /\ holds [PTABLE] s' /\ same_table s s').
  { intros e. eexists. split; [reflexivity|]. split; [exact (holds_after _ _ _ _ _ _ (locked_sched_return me e) eq_refl H)|done]. }
  assert (Hrel : forall s1, holds [PTABLE] s1 -> exists s', release me PTABLE s1 = Ok tt s').
  { intros s1 H1. destruct (release_step _ _ PTABLE H1) as (s' & E' & _); [left|by exists s']. }
  destruct (ctx (procs s p)) as [|e|lk e|e|]; [| | | |done].
  - destruct (Hrel s H) as [s' E']. eexists _, _. by rewrite (kbind_ok _ _ _ _ _ E').
  - destruct (Hret e) as (s1 & E1 & H1 & _). rewrite (kbind_ok _ _ _ _ _ E1).
    destruct (Hrel s1 H1) as [s' E']. eexists _, _. by rewrite (kbind_ok _ _ _ _ _ E').
  - destruct (Hret e) as (s1 & E1 & H1 & _). rewrite (kbind_ok _ _ _ _ _ E1). unfold kbind at 1, upd_proc, modify. cbv beta iota.
    match goal with |- exists a s', ?f ?x = _ => destruct (Hrel x H1) as [s' E'] end. eexists _, _. by rewrite (kbind_ok _ _ _ _ _ E').
  - destruct (Hret e) as (s1 & E1 & H1 & Q1). rewrite (kbind_ok _ _ _ _ _ E1). unfold kbind at 1, upd_proc, modify. cbv beta iota.
    match goal with |- exists a s', ?f ?x = _ => destruct (wait_round_total x p) as (r & s' & E') end.
    + exact H1.
    + cbn. by rewrite (st_cpu _ _ Q1).
    + intros q Hq. cbn. pose proof (Hz e eq_refl q Hq) as Hzq. rewrite <- (st_procs _ _ Q1) in Hzq.
      destruct (decide (p = q)) as [->|Hne]; [by rewrite fn_lookup_insert|by rewrite fn_lookup_insert_ne].
    + eexists _, _. by rewrite (kbind_ok _ _ _ _ _ E').
Qed.
End total.
