(* ===== verification/HeldLocks.v ===== *)
(** * The locks of kernel code

    In every world that is reached, the locks that the kernel code of a process
    holds do not include that of the table, and no process has given up the
    CPU with the table's lock as the one to take again. *)

From S2P Require Import Prelude Mem Spinlock Proc Sched ProcTable SchedFacts.
#[local] Open Scope Z_scope.

(** The process would take the lock of the table when it is chosen. *)
Definition takes_table (x : proc) : Prop :=
  (exists e, ctx x = InSleep PTABLE e) /\ state x <> UNUSED /\ state x <> EMBRYO.

(** Kernel code that a step of a system call leaves never has the table. *)
Record table_free {E} (w : world E) : Prop := {
  tf_held : forall c p h, modes w c = Kernel p h -> PTABLE ∉ h;
  tf_taking : forall c p lk, modes w c = Taking p lk -> lk <> PTABLE;
  tf_ctx : forall p, ~ takes_table (procs (ps w) p) }.

Section table_free.
Context {E : Type} `{!services E}.
Implicit Types (s : pstate E).

Definition keeps s s' : Prop := forall p, takes_table (procs s' p) -> takes_table (procs s p).
#[export] Instance keeps_preorder : PreOrder keeps.
Proof. split; [by intros s p|]. intros x y z H1 H2 p H. by apply H1, H2. Qed.

Lemma keeps_same_table s s' : same_table s s' -> keeps s s'.
Proof. intros H p. by rewrite (st_procs _ _ H). Qed.

Lemma keeps_core s s' : core_table s s' -> keeps s s'.
Proof.
  intros [H _ _ _] p. unfold takes_table. by rewrite (sc_ctx _ _ (H p)), (sc_state _ _ (H p)).
Qed.

Lemma keeps_only i s s' : only_at i s s' -> (takes_table (procs s' i) -> takes_table (procs s i)) -> keeps s s'.
Proof. intros [H _ _ _] Hi p. destruct (decide (p = i)) as [->|Hp]; [done|by rewrite H]. Qed.

Lemma woken_takes x y : woken x y -> takes_table y -> takes_table x.
Proof.
  intros [[H|[H H']] _ Hc _ _]; unfold takes_table; rewrite Hc; [by rewrite H|]. intros [He _]. rewrite H. done.
Qed.

Lemma keeps_scan c i s r s' : scheduler_scan c i s = Ok r s' -> keeps s s'.
Proof.
  intros H%scheduler_scan_table. destruct r as [q|]; [|by apply keeps_same_table]. destruct H as (_ & _ & Hs & Ho & Hq & _).
  intros p. destruct (decide (p = q)) as [->|Hp]; [|by rewrite Ho]. rewrite Hq. intros [He _]. unfold takes_table. rewrite Hs. done.
Qed.

Lemma keeps_wait_round c p s r s' : cpu_proc s c = Some p -> wait_round c p s = Ok r s' -> keeps s s'.
Proof.
  intros Hc H. apply wait_round_table in H; [|done]. destruct r as [r|].
  - destruct H as [[H _]|(q & _ & _ & _ & _ & Ho & Hu & _)]; [by apply keeps_same_table|].
    apply (keeps_only q _ _ Ho). intros (_ & H & _). done.
  - destruct H as (Ho & _ & _ & _ & b & Hb). apply (keeps_only p _ _ Ho). rewrite Hb. by intros [[e [=]] _].
Qed.

Lemma keeps_resume c p s a s' : cpu_proc s c = Some p -> resume c p s = Ok a s' -> keeps s s'.
Proof.
  intros Hc H. unfold resume in H. kinv H. injection Hrun as <- <-. destruct (ctx (procs s p)) as [|b|lk b|b|]; [| | | |discriminate].
  - kinv H. apply quiet_release in Hrun. injection H as _ <-. by apply keeps_same_table.
  - kinv H. apply quiet_sched_return in Hrun. kinv H. apply quiet_release in Hrun0. injection H as _ <-.
    apply keeps_same_table. by transitivity s0.
  - kinv H. apply quiet_sched_return in Hrun. kinv H. apply upd_proc_run in Hrun0 as ->. kinv H. apply quiet_release in Hrun0.
    injection H as _ <-. transitivity s0; [by apply keeps_same_table|]. transitivity (set_proc p (set_chan None (procs s0 p)) s0); [|by apply keeps_same_table].
    apply (keeps_only p _ _ (set_proc_only _ _ _)). by rewrite set_proc_at.
  - kinv H. apply quiet_sched_return in Hrun. kinv H. apply upd_proc_run in Hrun0 as ->. kinv H. injection H as _ <-.
    apply keeps_wait_round in Hrun0; [|cbn; by rewrite (st_cpu _ _ Hrun)].
    transitivity s0; [by apply keeps_same_table|]. etransitivity; [|exact Hrun0].
    apply (keeps_only p _ _ (set_proc_only _ _ _)). by rewrite set_proc_at.
Qed.

Lemma resume_takes c p s lk s' : resume c p s = Ok (Takes lk) s' -> exists e, ctx (procs s p) = InSleep lk e.
Proof.
  intros H. unfold resume in H. kinv H. injection Hrun as <- <-. destruct (ctx (procs s p)) as [|b|l b|b|]; [| | | |discriminate].
  - kinv H. discriminate.
  - kinv H. kinv H. discriminate.
  - do 3 kinv H. injection H as <- <-. by exists b.
  - do 3 kinv H. by destruct a1.
Qed.

Lemma keeps_round c s r s' : scheduler_round c s = Ok r s' -> keeps s s'.
Proof.
  intros H. unfold scheduler_round in H. kinv H. apply quiet_sti in Hrun. kinv H. apply quiet_acquire in Hrun0. apply keeps_scan in H.
  etransitivity; [|exact H]. apply keeps_same_table. by transitivity s0.
Qed.

Lemma keeps_return c p s r s' : scheduler_return c p s = Ok r s' -> keeps s s'.
Proof.
  intros H. unfold scheduler_return in H. kinv H. apply quiet_on_env in Hrun. kinv H. injection Hrun0 as _ <-. apply keeps_scan in H.
  etransitivity; [|exact H]. transitivity s0; [by apply keeps_same_table|by intros q].
Qed.

Lemma keeps_yield c s a s' : yield c s = Ok a s' -> keeps s s'.
Proof. intros (q & b & _ & Ho & Hb)%yield_table. apply (keeps_only q _ _ Ho). rewrite Hb. by intros [[e [=]] _]. Qed.

Lemma keeps_sleep c ch lk s a s' : lk <> PTABLE -> sleep c ch lk (InSleep lk) s = Ok a s' -> keeps s s'.
Proof.
  intros Hl (q & b & _ & Ho & Hb)%sleep_table. apply (keeps_only q _ _ Ho). rewrite Hb. by intros [[e [= -> _]] _].
Qed.

Lemma keeps_wakeup c ch s a s' : wakeup c ch s = Ok a s' -> keeps s s'.
Proof. intros (Hp & _)%wakeup_table q. rewrite Hp. apply woken_takes, wakeup1_woken. Qed.

Lemma keeps_fork_find c s r s' : allocproc_find c s = Ok r s' -> keeps s s'.
Proof.
  intros H%allocproc_find_table. destruct r as [q|]; [|by apply keeps_same_table]. destruct H as (_ & _ & Ho & Hq & _) .
  intros i. destruct (decide (i = q)) as [->|Hi]; [|by rewrite Ho]. rewrite Hq. by intros (_ & _ & []).
Qed.

Lemma keeps_fork_rest c p np s r s' :
  p <> np -> state (procs s np) = EMBRYO -> fork_rest c p np s = Ok r s' -> keeps s s'.
Proof.
  intros Hne He [Ho H]%fork_rest_table; [|done..]. apply (keeps_only np _ _ Ho). intros [[e Hx] [Hu _]].
  destruct H as [[? _]|(_ & _ & ? & _)]; congruence.
Qed.

Lemma keeps_exit c p s a s' : cpu_proc s c = Some p -> exit_locked c p s = Ok a s' -> keeps s s'.
Proof.
  intros Hc H. apply exit_locked_table in H as (_ & _ & _ & Hw & _ & _ & _ & Hx & _); [|done].
  intros q. destruct (decide (q = p)) as [->|Hq]; [|by apply woken_takes, Hw]. unfold takes_table. rewrite Hx. by intros [[e [=]] _].
Qed.

Lemma keeps_wait c p s r s' : cpu_proc s c = Some p -> wait c s = Ok r s' -> keeps s s'.
Proof.
  intros Hc H. unfold wait in H. kinv H. pose proof (quiet_curproc _ _ _ _ Hrun) as Q1. apply curproc_value in Hrun as Hp.
  assert (a = p) as -> by congruence. kinv H. apply quiet_acquire in Hrun0.
  apply keeps_wait_round in H; [|by rewrite (st_cpu _ _ Hrun0), (st_cpu _ _ Q1)].
  etransitivity; [|exact H]. apply keeps_same_table. by transitivity s0.
Qed.

Lemma keeps_kill c n s r s' : kill c n s = Ok r s' -> keeps s s'.
Proof.
  intros [[H _]|(q & _ & _ & _ & Ho & _ & _ & _ & Hx & Hs)]%kill_table; [by apply keeps_same_table|].
  apply (keeps_only q _ _ Ho). unfold takes_table. rewrite Hx, Hs. intros [He [H1 H2]]. split; [done|].
  destruct (decide (state (procs s q) = SLEEPING)) as [->|]; done.
Qed.

Lemma table_free_mode s s' ms fk fk' c m :
  table_free (W s ms fk) -> keeps s s' -> (forall p h, m = Kernel p h -> PTABLE ∉ h) -> (forall p lk, m = Taking p lk -> lk <> PTABLE) ->
  table_free (W s' (<[c := m]> ms) fk').
Proof.
  intros [T1 T2 T3] Hk Hm1 Hm2. cbn in *. split; cbn.
  - intros d p h. destruct (decide (c = d)) as [<-|Hd]; [rewrite fn_lookup_insert; apply Hm1|rewrite fn_lookup_insert_ne by done; apply T1].
  - intros d p lk. destruct (decide (c = d)) as [<-|Hd]; [rewrite fn_lookup_insert; apply Hm2|rewrite fn_lookup_insert_ne by done; apply T2].
  - intros p H. by apply (T3 p), Hk.
Qed.

Lemma table_free_stay s s' ms fk fk' : table_free (W s ms fk) -> keeps s s' -> table_free (W s' ms fk').
Proof. intros [T1 T2 T3] Hk. split; [done|done|]. intros p H. by apply (T3 p), Hk. Qed.

Lemma table_free_step w w' : pstep w w' -> tinv (ps w) (modes w) (forks w) -> table_free w -> table_free w'.
Proof.
  intros Hstep I T. assert (Hcp : forall c, cpu_proc (ps w) c = proc_of (modes w c)) by apply I. pose proof (tf_held _ T) as Th.
  pose proof (tf_taking _ T) as Tt. destruct Hstep as
    [c s ms fk r s' Hc H|c p s ms fk r s' Hc H|c p s ms fk a s' Hc H|c p lk s ms fk s' Hc H|c p h lk s ms fk s' Hc Hl H
    |c p h lk s ms fk s' Hc Hl H|c p s ms fk s' Hc H|c p lk ch s ms fk s' Hc Hf H|c ch s ms fk s' Hc H|c p s ms fk r s' Hc Hf Hn H
    |c p np s ms fk r s' Hc Hf H|c p s ms fk s' Hc H|c p s ms fk s' Hc Hf Hi H|c p s ms fk r s' Hc Hf H|c p h n s ms fk r s' Hc H
    |c p h n s ms fk r s' Hc H|c p b s ms fk Hc|e s ms fk]; cbn [ps modes forks] in *;
    try (specialize (Hcp c); rewrite Hc in Hcp; cbn in Hcp).
  - apply (table_free_mode s s' ms fk); [done|by eapply keeps_round|by destruct r..].
  - apply (table_free_mode s s' ms fk); [done|by eapply keeps_return|by destruct r..].
  - apply (table_free_mode s s' ms fk); [done|by eapply keeps_resume| |].
    + intros q h. destruct a; [intros [= _ <-]; apply not_elem_of_nil|done..].
    + intros q lk. destruct a as [?|l|]; [done| |done]. intros [= <- <-] ->. apply resume_takes in H as [e He].
      apply (tf_ctx _ T p). cbn. destruct (ti_run _ _ _ I c p) as [_ Hr]; [by rewrite Hc|]. split; [by exists e|by rewrite Hr].
  - apply (table_free_mode s s' ms fk); [done|by eapply keeps_same_table, quiet_acquire| |done].
    intros q h [= _ <-] Hx%list_elem_of_singleton. by apply (Tt c p lk Hc).
  - apply (table_free_mode s s' ms fk); [done|by eapply keeps_same_table, quiet_acquire| |done].
    intros q h' [= _ <-] [?|?]%elem_of_cons; [congruence|by apply (Th c p h)].
  - apply (table_free_mode s s' ms fk); [done|by eapply keeps_same_table, quiet_release| |done].
    intros q h' [= _ <-] [_ ?]%list_elem_of_filter. by apply (Th c p h).
  - apply (table_free_mode s s' ms fk); [done|by eapply keeps_yield|done..].
  - apply (table_free_mode s s' ms fk); [done| |done..]. eapply keeps_sleep; [|exact H]. intros ->. by apply (Th c p [PTABLE] Hc); left.
  - apply (table_free_stay s s' ms fk); [done|by eapply keeps_wakeup].
  - apply (table_free_stay s s' ms fk); [done|by eapply keeps_fork_find].
  - apply (table_free_stay s s' ms fk); [done|]. destruct (ti_fork _ _ _ I _ _ Hf) as (_ & _ & _ & He).
    destruct (ti_run _ _ _ I c p) as [_ Hr]; [by rewrite Hc|]. eapply keeps_fork_rest; [|exact He|exact H]. congruence.
  - apply (table_free_stay s s' ms fk); [done|]. by eapply keeps_core, exit_close_core.
  - apply (table_free_mode s s' ms fk); [done|by eapply keeps_exit|done..].
  - apply (table_free_mode s s' ms fk); [done|by eapply keeps_wait| |by destruct r].
    intros q h. destruct r; [intros [= _ <-]; apply not_elem_of_nil|done].
  - apply (table_free_stay s s' ms fk); [done|by eapply keeps_kill].
  - apply (table_free_stay s s' ms fk); [done|]. by eapply keeps_core, growproc_core.
  - by apply (table_free_stay s _ ms fk); [|intros q].
  - by apply (table_free_stay s _ ms fk); [|intros q].
Qed.
End table_free.

