(* ===== verification/Schedule.v ===== *)
(** * What always holds of the processes

    The worlds reachable from the end of userinit by the steps of Sched.v, and
    the theorems about them: scheduling, process ids, wait and exit, and
    what can go wrong when the CPU is given up. *)

From S2P Require Import Prelude Mem Spinlock Proc Sched ProcTable SchedFacts SchedTotal HeldLocks.
From stdpp Require Import relations.
#[local] Open Scope Z_scope.

Section locks.
Context {E : Type} `{!services E}.
Implicit Types (s : pstate E).

(** ** The locks, at every step *)

Lemma locks_step {A} c h q (m : K (pstate E) A) s a s' (ms ms' : nat -> mode) en :
  locks_ok en (mach s) ms -> locked c h q m -> m s = Ok a s' -> held_by (ms c) = h ->
  held_by (ms' c) = q a -> (forall d, d <> c -> ms' d = ms d) -> exists en', locks_ok en' (mach s') ms'.
Proof.
  intros G Hl H Hh Hq Hd. destruct (Hl s a s' H en _ G) as [en' G']; [by rewrite <- Hh|].
  exists en'. eapply good_ext; [|exact G']. intros d. rewrite with_thread. unfold thread_of.
  case_decide as Hc; [by subst; rewrite Hq|by rewrite Hd].
Qed.

Lemma acquire_fresh en s s' (ms : nat -> mode) c l :
  locks_ok en (mach s) ms -> acquire c l s = Ok tt s' -> l ∉ held_by (ms c).
Proof.
  intros G H. unfold acquire, on_mach in H. destruct (Spinlock.acquire _ _ _ _ _) as [u m'| | |] eqn:Ea; try discriminate.
  exact (proj2 (acquire_good en _ _ c _ l m' u G eq_refl Ea)).
Qed.

Lemma insert_at (ms : nat -> mode) c m : (<[c := m]> ms) c = m.
Proof. apply fn_lookup_insert. Qed.
Lemma insert_off (ms : nat -> mode) c m d : d <> c -> (<[c := m]> ms) d = ms d.
Proof. intros. by apply fn_lookup_insert_ne. Qed.
#[local] Hint Resolve insert_off : core.

Lemma locks_steps w w' : pstep w w' -> (exists en, locks_ok en (mach (ps w)) (modes w)) -> exists en, locks_ok en (mach (ps w')) (modes w').
Proof.
  intros Hstep [en G]. destruct Hstep as
    [c s ms fk r s' Hc H|c p s ms fk r s' Hc H|c p s ms fk a s' Hc H|c p lk s ms fk s' Hc H|c p h lk s ms fk s' Hc Hl H
    |c p h lk s ms fk s' Hc Hl H|c p s ms fk s' Hc H|c p lk ch s ms fk s' Hc Hf H|c ch s ms fk s' Hc H|c p s ms fk r s' Hc Hf Hn H
    |c p np s ms fk r s' Hc Hf H|c p s ms fk s' Hc H|c p s ms fk s' Hc Hf Hi H|c p s ms fk r s' Hc Hf H|c p h n s ms fk r s' Hc H
    |c p h n s ms fk r s' Hc H|c p b s ms fk Hc|e s ms fk]; cbn [ps modes] in *.
  - eapply (locks_step c _ _ _ _ _ _ _ _ _ G (locked_round c) H); rewrite ?insert_at, ?Hc; auto.
  - eapply (locks_step c _ _ _ _ _ _ _ _ _ G (locked_return c p) H); rewrite ?insert_at, ?Hc; auto.
  - eapply (locks_step c _ _ _ _ _ _ _ _ _ G (locked_resume c p) H); rewrite ?insert_at, ?Hc; auto.
  - eapply (locks_step c _ _ _ _ _ _ _ _ _ G (locked_acquire c [] lk) H); rewrite ?insert_at, ?Hc; auto.
  - eapply (locks_step c _ _ _ _ _ _ _ _ _ G (locked_acquire c h lk) H); rewrite ?insert_at, ?Hc; auto.
  - eapply (locks_step c _ _ _ _ _ _ _ _ _ G (locked_release c h lk Hl) H); rewrite ?insert_at, ?Hc; auto.
  - eapply (locks_step c _ _ _ _ _ _ _ _ _ G (locked_yield c) H); rewrite ?insert_at, ?Hc; auto.
  - destruct (decide (lk = PTABLE)) as [->|Hlk].
    + eapply (locks_step c _ _ _ _ _ _ _ _ _ G (locked_sleep_table c ch _) H); rewrite ?insert_at, ?Hc; auto.
    + eapply (locks_step c _ _ _ _ _ _ _ _ _ G (locked_sleep c ch lk _ Hlk) H); rewrite ?insert_at, ?Hc; auto.
  - eapply (locks_step c _ _ _ _ _ _ _ _ _ G (locked_wakeup c (held_by (ms c)) ch _) H); auto.
    Unshelve. unfold wakeup in H. kinv H. destruct a. by eapply acquire_fresh.
  - eapply (locks_step c _ _ _ _ _ _ _ _ _ G (locked_allocproc_find c) H); rewrite ?Hc; auto.
  - eapply (locks_step c _ _ _ _ _ _ _ _ _ G (locked_fork_rest c p np) H); rewrite ?Hc; auto.
  - eapply (locks_step c _ _ _ _ _ _ _ _ _ G (locked_exit_close c p) H); rewrite ?Hc; auto.
  - eapply (locks_step c _ _ _ _ _ _ _ _ _ G (locked_exit c p) H); rewrite ?insert_at, ?Hc; auto.
  - eapply (locks_step c _ _ _ _ _ _ _ _ _ G (locked_wait c) H); rewrite ?insert_at, ?Hc; [done|by destruct r|auto].
  - eapply (locks_step c _ _ _ _ _ _ _ _ _ G (locked_kill c (held_by (ms c)) n _) H); auto.
    Unshelve. unfold kill in H. kinv H. destruct a. by eapply acquire_fresh.
  - eapply (locks_step c _ _ _ _ _ _ _ _ _ G (locked_growproc c h n) H); rewrite ?Hc; auto.
  - eapply (locks_step c _ _ _ s tt _ _ _ _ G (locked_cpu c [] (fun x => {| ncli := ncli x; intena := intena x; FL_IF := b |}) _) eq_refl);
      rewrite ?Hc; auto.
    Unshelve. intros e' x (H1 & H2 & H3 & H4). exists b. by repeat split.
  - by exists en.
Qed.
End locks.

(** ** Worlds that are reached *)

Section reach.
Context {E : Type} `{!services E}.

(** The table is zero, no lock is taken, and CPU [c] runs userinit. *)
Definition zeroed (s : pstate E) : Prop :=
  (forall i, state (procs s i) = UNUSED /\ parent (procs s i) = None) /\ nextpid s = 1
  /\ (forall d, cpu_proc s d = None) /\ exists en, locks_ok en (mach s) (fun _ => Idle).
Definition started (w : world E) : Prop :=
  exists c s0, zeroed s0 /\ userinit c s0 = Ok tt (ps w) /\ modes w = (fun _ => Idle) /\ forks w = (fun _ => None).
Definition reached (w : world E) : Prop := exists w0, started w0 /\ rtc pstep w0 w.

Lemma userinit_table c s s' :
  zeroed s -> userinit c s = Ok tt s' ->
  (forall d, cpu_proc s' d = None) /\ nextpid s' = 2
  /\ exists p, (p < NPROC)%nat /\ initproc s' = Some p /\ (forall j, j <> p -> procs s' j = procs s j)
       /\ state (procs s' p) = RUNNABLE /\ pid (procs s' p) = 1 /\ parent (procs s' p) = None /\ ctx (procs s' p) = Forkret.
Proof.
  intros (Z1 & Z2 & Z3 & _) H. unfold userinit in H. kinv H. unfold allocproc in Hrun. kinv Hrun.
  apply allocproc_find_table in Hrun0. destruct a0 as [q|].
  2: { injection Hrun as <- <-. kinv H. injection Hrun as _ <-. kinv H. discriminate. }
  destruct Hrun0 as (Hq & _ & C1 & Cq & C2 & C3 & C4).
  apply allocproc_stack_table in Hrun as ([O1 O2 O3 O4] & x & Hx & X1 & X2 & _ & X4). kinv H. injection Hrun as _ <-.
  destruct a as [p|]; [|discriminate]. destruct X4 as (-> & X4 & X5). kinv H. injection Hrun as <- <-.
  set (s2 := set_initproc (Some q) s0) in *.
  kinv H. apply quiet_on_env in Hrun. kinv H. apply upd_proc_run in Hrun0 as ->. destruct (a =? 0); [discriminate|].
  kinv H. apply quiet_on_env in Hrun0. do 3 (kinv H; apply upd_proc_run in Hrun1 as ->). kinv H. apply quiet_on_env in Hrun1.
  kinv H. apply upd_proc_run in Hrun2 as ->. kinv H. apply quiet_acquire in Hrun2.
  kinv H. apply upd_proc_run in Hrun3 as ->. apply quiet_release in H.
  assert (Ho : only_at q s2 s').
  { repeat first [apply set_proc_only | apply same_only; eassumption | etransitivity; [apply same_only; eassumption|]
      | etransitivity; [|apply same_only; eassumption] | etransitivity; [|apply set_proc_only]]. }
  destruct Ho as [P1 P2 P3 P4]. split; [intros d; rewrite P4; cbn; by rewrite O4, C4|].
  split; [rewrite P2; cbn; rewrite O2, C2, Z2; reflexivity|]. exists q. split; [done|]. split; [by rewrite P3|].
  split; [intros j Hj; rewrite P1 by done; cbn; by rewrite O1, C1|].
  rewrite (st_procs _ _ H), set_proc_at. cbn.
  repeat (match goal with Q : same_table _ _ |- _ => rewrite (st_procs _ _ Q) end; rewrite ?set_proc_at; cbn).
  change (procs s2 q) with (procs s0 q). rewrite Hx, X1, X2, X5, Cq. cbn. rewrite Z2. split; [done|]. split; [done|]. split; [|done]. apply Z1.
Qed.
End reach.

(** ** The theorems *)

Section facts.
Context {E : Type} `{!services E}.

Lemma started_inv (w : world E) :
  started w -> tinv (ps w) (modes w) (forks w) /\ exists en, locks_ok en (mach (ps w)) (modes w).
Proof.
  intros (c & s0 & Hz & H & Hm & Hf). split.
  - rewrite Hm, Hf. destruct (userinit_table c s0 (ps w) Hz H) as (U1 & U2 & p & Hp & U3 & U4 & U5 & U6 & U7 & U8).
    assert (Hu : forall j, j <> p -> state (procs (ps w) j) = UNUSED /\ parent (procs (ps w) j) = None).
    { intros j Hj. rewrite U4 by done. apply Hz. }
    assert (Hst : forall j, state (procs (ps w) j) <> UNUSED -> j = p).
    { intros j Hj. destruct (decide (j = p)) as [|Hn]; [done|]. by destruct (Hu j Hn). }
    split; try done; try (intros c1 *; cbn; tauto).
    + intros j _ Hj. exfalso. assert (j = p) as -> by (apply Hst; congruence). congruence.
    + intros j _ Hj. assert (j = p) as -> by (apply Hst; intuition congruence). congruence.
    + rewrite U2. lia.
    + intros i _ Hi%Hst. subst i. rewrite U2, U6. lia.
    + intros i j _ _ Hi Hj _. by rewrite (Hst i Hi), (Hst j Hj).
    + exists p. unfold alive. rewrite U5. tauto.
    + intros i _ Hi. destruct (decide (i = p)) as [->|Hn]; [done|]. by apply Hu.
    + intros i _ Hi Hn. exfalso. apply Hn. rewrite U3. f_equal. apply Hst. unfold alive in Hi. intuition congruence.
    + intros j b _ Hj. assert (j = p) as -> by (apply Hst; congruence). congruence.
  - destruct Hz as (_ & _ & _ & en & G). eapply (locks_step c _ _ _ _ _ _ _ _ _ G (locked_userinit c) H); rewrite ?Hm; done.
Qed.

Lemma reached_inv (w : world E) :
  reached w -> tinv (ps w) (modes w) (forks w) /\ exists en, locks_ok en (mach (ps w)) (modes w).
Proof.
  intros (w0 & H0%started_inv & H). induction H as [|w0 w1 w2 H12 _ IH]; [done|]. apply IH. split.
  - eapply tinv_step; [done|]. apply H0.
  - eapply locks_steps; [done|]. apply H0.
Qed.



(** C3: A process is in state RUNNING exactly when one CPU runs it, and then only
    one; and what [cpu->proc] says is the process whose code the CPU is in. *)
Theorem running_on_one_cpu (w : world E) :
  reached w ->
  (forall p, (p < NPROC)%nat -> state (procs (ps w) p) = RUNNING <-> exists c, runs (modes w c) p)
  /\ (forall c d p, runs (modes w c) p -> runs (modes w d) p -> c = d)
  /\ (forall c, cpu_proc (ps w) c = proc_of (modes w c)).
Proof.
  intros [I _]%reached_inv. split; [|split; [apply (ti_one _ _ _ I)|apply (ti_cpu _ _ _ I)]].
  intros p Hp. split; [by apply (ti_running _ _ _ I)|]. intros [c Hc]. by apply (ti_run _ _ _ I c p).
Qed.

(** Entries in use have pids of their own, and fork gives no pid twice. *)
Theorem pids_distinct (w : world E) i j :
  reached w -> (i < NPROC)%nat -> (j < NPROC)%nat ->
  state (procs (ps w) i) <> UNUSED -> state (procs (ps w) j) <> UNUSED ->
  1 <= pid (procs (ps w) i) < nextpid (ps w) /\ (pid (procs (ps w) i) = pid (procs (ps w) j) -> i = j).
Proof.
  intros [I _]%reached_inv Hi Hj Hui Huj. split; [by apply (ti_pid _ _ _ I)|by apply (ti_pid_inj _ _ _ I)].
Qed.

(** C4: A process asleep in wait waits on its own entry, was not killed and has no
    zombie child: no exit and no kill is missed.  Every process in use but
    init has a living parent other than itself, so its zombie can be reaped;
    init lives. *)
Theorem no_wait_is_lost (w : world E) :
  reached w ->
  (forall p b, (p < NPROC)%nat -> state (procs (ps w) p) = SLEEPING -> ctx (procs (ps w) p) = InWait b ->
     pchan (procs (ps w) p) = Some (ChanProc p) /\ killed (procs (ps w) p) = false
     /\ forall q, (q < NPROC)%nat -> parent (procs (ps w) q) = Some p -> state (procs (ps w) q) <> ZOMBIE)
  /\ (forall i, (i < NPROC)%nat -> alive (procs (ps w) i) \/ state (procs (ps w) i) = ZOMBIE -> Some i <> initproc (ps w) ->
     exists j, (j < NPROC)%nat /\ parent (procs (ps w) i) = Some j /\ alive (procs (ps w) j) /\ j <> i)
  /\ exists i, (i < NPROC)%nat /\ initproc (ps w) = Some i /\ alive (procs (ps w) i).
Proof.
  intros [I _]%reached_inv. split; [apply (ti_wait _ _ _ I)|]. split; [apply (ti_parent _ _ _ I)|].
  destruct (ti_init _ _ _ I) as (i & H1 & H2 & H3 & _). by exists i.
Qed.


(** kill(0) finds an entry that is not in use, since a free entry has pid 0,
    reports success, and the next process made in that entry is born killed:
    allocproc does not clear [killed]. *)
Theorem kill_zero_kills_the_next_process c (s s1 s2 : pstate E) p r q :
  find_pid (procs s) 0 0 NPROC = Some p -> find_state (procs s) UNUSED 0 NPROC = Some p ->
  kill c 0 s = Ok r s1 -> allocproc_find c s1 = Ok (Some q) s2 ->
  r = 0 /\ q = p /\ killed (procs s2 q) = true /\ state (procs s2 q) = EMBRYO.
Proof.
  intros Hp Hu Hk Ha. pose proof (find_state_spec (procs s) UNUSED 0 NPROC) as Hs. rewrite Hu in Hs. destruct Hs as [Hp' Hst].
  assert (Hk' : r = 0 /\ procs s1 = <[p := set_killed true (procs s p)]> (procs s)).
  { unfold kill in Hk. kinv Hk. apply quiet_acquire in Hrun. kinv Hk. injection Hrun0 as <- <-. rewrite (st_procs _ _ Hrun), Hp in Hk.
    kinv Hk. apply upd_proc_run in Hrun0 as ->. rewrite decide_False in Hk by (rewrite Hst; done). kinv Hk. injection Hrun0 as <- <-.
    kinv Hk. apply quiet_release in Hrun0. injection Hk as <- <-. split; [done|]. rewrite (st_procs _ _ Hrun0). cbn.
    by rewrite (st_procs _ _ Hrun). }
  destruct Hk' as [-> Hs1].
  assert (Hsame : forall f g i todo, (forall j, state (f j) = state (g j)) -> find_state f UNUSED i todo = find_state g UNUSED i todo).
  { intros f g i todo Hfg. revert i. induction todo as [|todo IH]; intros i; cbn; [done|]. rewrite Hfg. by case_decide. }
  unfold allocproc_find in Ha. kinv Ha. apply quiet_acquire in Hrun. kinv Ha. injection Hrun0 as <- <-.
  rewrite (st_procs _ _ Hrun), Hs1, (Hsame _ (procs s)), Hu in Ha.
  2: { intros j. destruct (decide (p = j)) as [<-|]; [by rewrite fn_lookup_insert|by rewrite fn_lookup_insert_ne]. }
  kinv Ha. apply upd_proc_run in Hrun0 as ->. kinv Ha. injection Hrun0 as <- <-. kinv Ha. injection Hrun0 as _ <-.
  kinv Ha. apply upd_proc_run in Hrun0 as ->. kinv Ha. apply quiet_release in Hrun0. injection Ha as <- <-.
  rewrite (st_procs _ _ Hrun0), set_proc_at. cbn. rewrite fn_lookup_insert. cbn. rewrite (st_procs _ _ Hrun), Hs1, fn_lookup_insert. done.
Qed.
End facts.

(** ** A run: boot, the first process forks and waits *)

Definition demo_services : services unit := {|
  kalloc := kret 4096; kfree := fun _ => kret tt; setupkvm := kret 8192; inituvm := fun _ => kret tt;
  allocuvm := fun _ _ n => kret n; deallocuvm := fun _ _ n => kret n; copyuvm := fun _ _ => kret 8192;
  freevm := fun _ => kret tt; switchuvm := fun _ _ => kret tt; switchkvm := kret tt;
  filedup := fun f => kret f; fileclose := fun _ => kret tt; idup := fun i => kret i; iput := fun _ => kret tt;
  namei_root := kret (Some 0%nat); begin_op := kret tt; end_op := kret tt |}.

Definition zero_proc : proc := {|
  sz := 0; pgdir := 0; kstack := 0; state := UNUSED; pid := 0; parent := None; tf := fun _ => 0; ctx := Forkret;
  pchan := None; killed := false; ofile := replicate NOFILE None; cwd := None; name := replicate 16 0 |}.

Definition zero_state : pstate unit := {|
  mach := {| locks := fun _ => {| Spinlock.locked := 0; lk_cpu := None; pcs := replicate 10 0 |};
             cpus := fun _ => {| ncli := 0; intena := false; FL_IF := false |}; kmemory := fun _ => 0 |};
  procs := fun _ => zero_proc; nextpid := 1; initproc := None; cpu_proc := fun _ => None; env := tt |}.

(** The state that a routine ends in, and its result. *)
Definition final {A} (d : pstate unit) (o : outcome (pstate unit) A) : pstate unit := match o with Ok _ s => s | _ => d end.
Definition value {S A} (o : outcome S A) : option A := match o with Ok a _ => Some a | _ => None end.
Lemma outcome_eq {A} d (o : outcome (pstate unit) A) a : value o = Some a -> o = Ok a (final d o).
Proof. destruct o; cbn; congruence. Qed.

#[local] Existing Instance demo_services.
Definition boot_state : pstate unit := final zero_state (userinit 0 zero_state).
Definition round_state : pstate unit := final boot_state (scheduler_round 0 boot_state).
Definition first_state : pstate unit := final round_state (resume 0 0 round_state).
Definition found_state : pstate unit := final first_state (allocproc_find 0 first_state).
Definition forked_state : pstate unit := final found_state (fork_rest 0 0 1 found_state).
Definition waiting_state : pstate unit := final forked_state (wait 0 forked_state).

Definition first_world : world unit := W first_state (<[0%nat := Kernel 0 []]> (<[0%nat := Chosen 0]> (fun _ => Idle))) (fun _ => None).
Definition forked_world : world unit :=
  W forked_state (modes first_world) (<[0%nat := None]> (<[0%nat := Some 1%nat]> (fun _ => None))).
Definition waiting_world : world unit :=
  W waiting_state (<[0%nat := Switching 0]> (modes first_world)) (<[0%nat := None]> (<[0%nat := Some 1%nat]> (fun _ => None))).

Lemma boot_started : started (W boot_state (fun _ => Idle) (fun _ => None)).
Proof.
  exists 0%nat, zero_state. split; [|by split; [apply outcome_eq; vm_compute|]].
  split; [done|]. split; [done|]. split; [done|]. exists (fun _ => false).
  split; cbn.
  - intros l. split; [done|]. intros [c Hc]. by apply elem_of_nil in Hc.
  - intros l c d Hc. by apply elem_of_nil in Hc.
  - intros c. apply NoDup_nil_2.
  - intros l c. split; [done|]. intros [Hc _]. by apply elem_of_nil in Hc.
  - intros c. by repeat split.
  - done.
Qed.

Lemma first_reached : reached first_world.
Proof.
  eexists. split; [apply boot_started|]. eapply rtc_l; [|eapply rtc_l; [|apply rtc_refl]].
  - apply (p_round 0 boot_state (fun _ => Idle) (fun _ => None) (Some 0%nat) round_state); [done|].
    apply outcome_eq. by vm_compute.
  - apply (p_resume 0 0 round_state _ (fun _ => None) (Runs None) first_state); [done|]. apply outcome_eq. by vm_compute.
Qed.

Lemma forked_reached : reached forked_world.
Proof.
  destruct first_reached as (w0 & H0 & H). exists w0. split; [done|]. etransitivity; [exact H|].
  eapply rtc_l; [|eapply rtc_l; [|apply rtc_refl]].
  - apply (p_fork_find 0 0 first_state _ _ (Some 1%nat) found_state); [done|done|by vm_compute|].
    apply outcome_eq. by vm_compute.
  - apply (p_fork_rest 0 0 1 found_state _ _ 2 forked_state); [done|done|]. apply outcome_eq. by vm_compute.
Qed.

Lemma waiting_reached : reached waiting_world.
Proof.
  destruct forked_reached as (w0 & H0 & H). exists w0. split; [done|]. etransitivity; [exact H|].
  eapply rtc_l; [|apply rtc_refl].
  - apply (p_wait 0 0 forked_state _ _ None waiting_state); [done|done|]. apply outcome_eq. by vm_compute.
Qed.

Lemma running_on_one_cpu_witness :
  state (procs (ps first_world) 0%nat) = RUNNING /\ exists c, runs (modes first_world c) 0.
Proof.
  assert (Hr : state (procs (ps first_world) 0%nat) = RUNNING) by (vm_compute; reflexivity).
  assert (Hi : (0 < NPROC)%nat) by (apply Nat.ltb_lt; reflexivity).
  destruct (running_on_one_cpu first_world first_reached) as [H _]. destruct (H _ Hi) as [H1 _].
  split; [exact Hr|exact (H1 Hr)].
Defined.

Lemma pids_distinct_witness :
  state (procs (ps waiting_world) 0%nat) = SLEEPING /\ state (procs (ps waiting_world) 1%nat) = RUNNABLE
  /\ 1 <= pid (procs (ps waiting_world) 1%nat) < nextpid (ps waiting_world).
Proof.
  assert (H0 : state (procs (ps waiting_world) 0%nat) = SLEEPING) by (vm_compute; reflexivity).
  assert (H1 : state (procs (ps waiting_world) 1%nat) = RUNNABLE) by (vm_compute; reflexivity).
  assert (Hi : (1 < NPROC)%nat) by (apply Nat.ltb_lt; reflexivity).
  assert (Hn : state (procs (ps waiting_world) 1%nat) <> UNUSED) by (rewrite H1; discriminate).
  destruct (pids_distinct waiting_world 1 1 waiting_reached Hi Hi Hn Hn) as [H _].
  split; [exact H0|split; [exact H1|exact H]].
Defined.

Lemma no_wait_is_lost_witness :
  pchan (procs (ps waiting_world) 0%nat) = Some (ChanProc 0) /\ killed (procs (ps waiting_world) 0%nat) = false.
Proof.
  assert (H0 : state (procs (ps waiting_world) 0%nat) = SLEEPING) by (vm_compute; reflexivity).
  assert (H1 : ctx (procs (ps waiting_world) 0%nat) = InWait true) by (vm_compute; reflexivity).
  assert (Hi : (0 < NPROC)%nat) by (apply Nat.ltb_lt; reflexivity).
  destruct (no_wait_is_lost waiting_world waiting_reached) as [H _].
  destruct (H _ _ Hi H0 H1) as (H2 & H3 & _). split; [exact H2|exact H3].
Defined.


Lemma kill_zero_witness : exists s1 s2,
  kill 0 0 first_state = Ok 0 s1 /\ allocproc_find 0 s1 = Ok (Some 1%nat) s2 /\ killed (procs s2 1%nat) = true.
Proof.
  assert (H1 : find_pid (procs first_state) 0 0 NPROC = Some 1%nat) by (vm_compute; reflexivity).
  assert (H2 : find_state (procs first_state) UNUSED 0 NPROC = Some 1%nat) by (vm_compute; reflexivity).
  destruct (kill 0 0 first_state) as [r s1| | |] eqn:H3;
    [|exfalso; assert (H : value (kill 0 0 first_state) <> None) by (vm_compute; discriminate); rewrite H3 in H; by apply H..].
  assert (H4 : value (allocproc_find 0 (final first_state (kill 0 0 first_state))) = Some (Some 1%nat)) by (vm_compute; reflexivity).
  rewrite H3 in H4. apply (outcome_eq s1) in H4. cbn [final] in H4.
  destruct (kill_zero_kills_the_next_process 0 first_state s1 _ 1 r 1 H1 H2 H3 H4) as (-> & _ & H & _).
  exists s1, (final s1 (allocproc_find 0 s1)). split; [reflexivity|split; [exact H4|exact H]].
Defined.
