(* ===== verification/File.v ===== *)
(** * Open files and the file system calls (file.c, sysfile.c, fcntl.h, pipealloc of pipe.c)

    The table of open files over the inodes of Fs.v and the pipes of Pipe.v,
    and the system calls as one process makes them.  A pointer to a [struct
    file] is its number in the table, a pipe the address of its page.  A call
    that has to sleep (a full or empty pipe, a log without room) has no
    result here; Pipe.v and LogSpace.v have the interleavings.  The bytes of
    the arrays [name] on the kernel stack before they are written are [junk]. *)

From S2P Require Import Prelude Mem Block Syscall.
From S2P Require Bio Log Fs Kalloc Pipe.
#[local] Open Scope Z_scope.
#[local] Open Scope kernel_scope.

Definition NFILE : nat := 100.
Definition NOFILE : nat := 16.

Definition O_RDONLY : Z := 0x000.
Definition O_WRONLY : Z := 0x001.
Definition O_RDWR : Z := 0x002.
Definition O_CREATE : Z := 0x200.

Inductive ftype := FD_NONE | FD_PIPE | FD_INODE.

Record file := {
  f_type : ftype;
  f_ref : Z;
  f_readable : bool;
  f_writable : bool;
  f_pipe : Z;
  f_ip : nat;
  f_off : Z }.

(** The kernel as these files see it: inodes, open files, pipes, pages, and
    of the calling process its descriptors, directory and memory. *)
Record kernel := {
  fs : Fs.fsys;
  ftable : nat -> file;
  ft_locked : bool;
  pipes : Z -> Pipe.pipe;
  pages : Kalloc.kstate;
  ofile : list (option nat);
  cwd : nat;
  umem : mem;
  uctx : ucontext;
  killed : bool }.

Definition KS : Type -> Type := K kernel.

Definition set_fs (x : Fs.fsys) (s : kernel) : kernel :=
  {| fs := x; ftable := ftable s; ft_locked := ft_locked s; pipes := pipes s; pages := pages s;
     ofile := ofile s; cwd := cwd s; umem := umem s; uctx := uctx s; killed := killed s |}.
Definition set_file (i : nat) (f : file) (s : kernel) : kernel :=
  {| fs := fs s; ftable := <[i := f]> (ftable s); ft_locked := ft_locked s; pipes := pipes s; pages := pages s;
     ofile := ofile s; cwd := cwd s; umem := umem s; uctx := uctx s; killed := killed s |}.
Definition set_ftlock (b : bool) (s : kernel) : kernel :=
  {| fs := fs s; ftable := ftable s; ft_locked := b; pipes := pipes s; pages := pages s;
     ofile := ofile s; cwd := cwd s; umem := umem s; uctx := uctx s; killed := killed s |}.
Definition set_pipe (a : Z) (p : Pipe.pipe) (s : kernel) : kernel :=
  {| fs := fs s; ftable := ftable s; ft_locked := ft_locked s; pipes := <[a := p]> (pipes s); pages := pages s;
     ofile := ofile s; cwd := cwd s; umem := umem s; uctx := uctx s; killed := killed s |}.
Definition set_pages (x : Kalloc.kstate) (s : kernel) : kernel :=
  {| fs := fs s; ftable := ftable s; ft_locked := ft_locked s; pipes := pipes s; pages := x;
     ofile := ofile s; cwd := cwd s; umem := umem s; uctx := uctx s; killed := killed s |}.
Definition set_ofile (l : list (option nat)) (s : kernel) : kernel :=
  {| fs := fs s; ftable := ftable s; ft_locked := ft_locked s; pipes := pipes s; pages := pages s;
     ofile := l; cwd := cwd s; umem := umem s; uctx := uctx s; killed := killed s |}.
Definition set_cwd (i : nat) (s : kernel) : kernel :=
  {| fs := fs s; ftable := ftable s; ft_locked := ft_locked s; pipes := pipes s; pages := pages s;
     ofile := ofile s; cwd := i; umem := umem s; uctx := uctx s; killed := killed s |}.
Definition set_umem (m : mem) (s : kernel) : kernel :=
  {| fs := fs s; ftable := ftable s; ft_locked := ft_locked s; pipes := pipes s; pages := pages s;
     ofile := ofile s; cwd := cwd s; umem := m; uctx := uctx s; killed := killed s |}.

(** Updates of a [struct file]. *)
Definition with_ref (r : Z) (f : file) : file :=
  {| f_type := f_type f; f_ref := r; f_readable := f_readable f; f_writable := f_writable f;
     f_pipe := f_pipe f; f_ip := f_ip f; f_off := f_off f |}.
Definition with_none (f : file) : file :=
  {| f_type := FD_NONE; f_ref := 0; f_readable := f_readable f; f_writable := f_writable f;
     f_pipe := f_pipe f; f_ip := f_ip f; f_off := f_off f |}.
Definition with_off (o : Z) (f : file) : file :=
  {| f_type := f_type f; f_ref := f_ref f; f_readable := f_readable f; f_writable := f_writable f;
     f_pipe := f_pipe f; f_ip := f_ip f; f_off := o |}.
Definition with_inode (ip : nat) (r w : bool) (f : file) : file :=
  {| f_type := FD_INODE; f_ref := f_ref f; f_readable := r; f_writable := w;
     f_pipe := f_pipe f; f_ip := ip; f_off := 0 |}.
Definition with_pipe (p : Z) (r w : bool) (f : file) : file :=
  {| f_type := FD_PIPE; f_ref := f_ref f; f_readable := r; f_writable := w;
     f_pipe := p; f_ip := f_ip f; f_off := f_off f |}.

(** A routine of another layer. *)
Definition lift {S A} (get : kernel -> S) (put : S -> kernel -> kernel) (m : K S A) : KS A := fun s =>
  match m (get s) with
  | Ok a x => Ok a (put x s)
  | Panic e => Panic e
  | Fault e => Fault e
  | NoFuel => NoFuel
  end.
Definition on_fs {A} (m : Fs.F A) : KS A := lift fs set_fs m.
Definition on_pages {A} (m : Kalloc.M A) : KS A := lift pages set_pages m.

Definition get_file (f : nat) : KS file := gets (fun s => ftable s f).
Definition upd_file (f : nat) (g : file -> file) : KS unit := modify (fun s => set_file f (g (ftable s f)) s).
Definition inode_of (ip : nat) : KS Fs.inode := gets (fun s => Fs.icache (fs s) ip).
Definition upd_inode (ip : nat) (g : Fs.inode -> Fs.inode) : KS unit := on_fs (Fs.upd_inode ip g).

(** [acquire(&ftable.lock)], [release(&ftable.lock)]. *)
Definition acquire : KS unit :=
  l <- gets ft_locked ;; if l : bool then panic "acquire" else modify (set_ftlock true).
Definition release : KS unit :=
  l <- gets ft_locked ;; if l : bool then modify (set_ftlock false) else panic "release".

(** The bytes [bs] stored from [a] up, and the [n] bytes read from [a] up. *)
Definition store_bytes (m : mem) (a : Z) (bs : list Z) : mem :=
  blit m a (fun k => default 0 (bs !! Z.to_nat k)) 0 (Z.of_nat (length bs)).
Definition load_bytes (m : mem) (a n : Z) : list Z := map (fun k => m (a + Z.of_nat k)) (seq 0 (Z.to_nat n)).

Section file.
Context (disksize pid END : Z) (junk : list Z).
Context (devread : Z -> option (nat -> Z -> Fs.F (Z * list Z))) (devwrite : Z -> option (nat -> list Z -> Z -> Fs.F Z)).

Definition begin_op : KS unit :=
  r <- on_fs (Fs.on_log Log.begin_op) ;; if r : bool then kret tt else nofuel.
Definition end_op : KS unit := on_fs (Fs.on_log (Log.end_op disksize pid)).
Definition ilock (ip : nat) : KS unit := on_fs (Fs.ilock disksize pid ip).
Definition iunlock (ip : nat) : KS unit := on_fs (Fs.iunlock pid ip).
Definition iput (ip : nat) : KS unit := on_fs (Fs.iput disksize pid ip).
Definition iunlockput (ip : nat) : KS unit := on_fs (Fs.iunlockput disksize pid ip).
Definition iupdate (ip : nat) : KS unit := on_fs (Fs.iupdate disksize pid ip).
Definition readi (ip : nat) (off n : Z) : KS (Z * list Z) := on_fs (Fs.readi disksize pid devread ip off n).
Definition writei (ip : nat) (src : list Z) (off n : Z) : KS Z := on_fs (Fs.writei disksize pid devwrite ip src off n).
Definition dirlookup (dp : nat) (name : list Z) : KS (option (nat * Z)) := on_fs (Fs.dirlookup disksize pid devread dp name).
Definition dirlink (dp : nat) (name : list Z) (inum : Z) : KS Z :=
  on_fs (Fs.dirlink disksize pid devread devwrite dp name inum).
Definition namei (path : list Z) : KS (option nat) :=
  c <- gets cwd ;; on_fs (Fs.namei disksize pid c devread junk path).
Definition nameiparent (path : list Z) : KS (option (nat * list Z)) :=
  c <- gets cwd ;; on_fs (Fs.nameiparent disksize pid c devread path junk).

(** ** file.c *)

Definition fileinit : KS unit := modify (set_ftlock false).

(** The first entry without references from [i] on. *)
Fixpoint free_file (t : nat -> file) (i todo : nat) : option nat :=
  match todo with
  | O => None
  | S todo => if f_ref (t i) =? 0 then Some i else free_file t (S i) todo
  end.

Definition filealloc : KS (option nat) :=
  acquire ;;;
  t <- gets ftable ;;
  match free_file t 0 NFILE with
  | Some f => upd_file f (with_ref 1) ;;; release ;;; kret (Some f)
  | None => release ;;; kret None
  end.

Definition filedup (f : nat) : KS nat :=
  acquire ;;;
  x <- get_file f ;;
  if f_ref x <? 1 then panic "filedup"
  else
    upd_file f (with_ref (f_ref x + 1)) ;;;
    release ;;;
    kret f.

Definition pipeclose (a : Z) (writable : bool) : KS unit :=
  p <- gets (fun s => pipes s a) ;;
  let '(p, _, done) := Pipe.pipeclose p writable in
  modify (set_pipe a p) ;;;
  if done then on_pages (Kalloc.kfree END a) else kret tt.

Definition fileclose (f : nat) : KS unit :=
  acquire ;;;
  x <- get_file f ;;
  if f_ref x <? 1 then panic "fileclose"
  else if f_ref x - 1 >? 0 then upd_file f (with_ref (f_ref x - 1)) ;;; release
  else
    upd_file f with_none ;;;
    release ;;;
    match f_type x with
    | FD_PIPE => pipeclose (f_pipe x) (f_writable x)
    | FD_INODE => begin_op ;;; iput (f_ip x) ;;; end_op
    | FD_NONE => kret tt
    end.

(** [struct stat] in memory: type at 0, dev at 4, ino at 8, nlink at 12,
    size at 16. *)
Definition STAT : Z := 20.
Definition store_stat (m : mem) (a : Z) (st : Fs.stat) : mem :=
  store32 (store16 (store32 (store32 (store16 m a (Fs.st_type st)) (a + 4) (Fs.st_dev st)) (a + 8) (Fs.st_ino st))
    (a + 12) (Fs.st_nlink st)) (a + 16) (Fs.st_size st).

Definition filestat (f : nat) (st : Z) : KS Z :=
  x <- get_file f ;;
  match f_type x with
  | FD_INODE =>
      ilock (f_ip x) ;;;
      v <- on_fs (Fs.stati (f_ip x)) ;;
      modify (fun s => set_umem (store_stat (umem s) st v) s) ;;;
      iunlock (f_ip x) ;;;
      kret 0
  | _ => kret (-1)
  end.

Definition fileread (f : nat) (addr n : Z) : KS Z :=
  x <- get_file f ;;
  if negb (f_readable x) then kret (-1)
  else
    match f_type x with
    | FD_PIPE =>
        p <- gets (fun s => pipes s (f_pipe x)) ;;
        k <- gets killed ;;
        let '(p, bs, _, e) := Pipe.piperead p k n in
        modify (set_pipe (f_pipe x) p) ;;;
        modify (fun s => set_umem (store_bytes (umem s) addr bs) s) ;;;
        match e with Pipe.Return r => kret r | Pipe.Sleep _ _ => nofuel end
    | FD_INODE =>
        ilock (f_ip x) ;;;
        '(r, bs) <- readi (f_ip x) (f_off x) (u32 n) ;;
        modify (fun s => set_umem (store_bytes (umem s) addr bs) s) ;;;
        (if r >? 0 then upd_file f (fun x => with_off (u32 (f_off x + r)) x) else kret tt) ;;;
        iunlock (f_ip x) ;;;
        kret r
    | FD_NONE => panic "fileread"
    end.

(** The bytes of one transaction of filewrite. *)
Definition MAXWRITE : Z := (Bio.MAXOPBLOCKS - 1 - 1 - 2) / 2 * 512.

(** The loop of filewrite from byte [i] on: the final [i]. *)
Fixpoint filewrite_loop (fuel f : nat) (addr n i : Z) : KS Z :=
  if i <? n then
    match fuel with
    | O => nofuel
    | S fuel =>
        let n1 := if n - i >? MAXWRITE then MAXWRITE else n - i in
        begin_op ;;;
        x <- get_file f ;;
        ilock (f_ip x) ;;;
        m <- gets umem ;;
        x <- get_file f ;;
        r <- writei (f_ip x) (load_bytes m (addr + i) n1) (f_off x) n1 ;;
        (if r >? 0 then upd_file f (fun x => with_off (u32 (f_off x + r)) x) else kret tt) ;;;
        iunlock (f_ip x) ;;;
        end_op ;;;
        if r <? 0 then kret i
        else if negb (r =? n1) then panic "short filewrite"
        else filewrite_loop fuel f addr n (i + r)
    end
  else kret i.

(** Every round of the loop writes at least one byte, or ends it. *)
Definition filewrite (f : nat) (addr n : Z) : KS Z :=
  x <- get_file f ;;
  if negb (f_writable x) then kret (-1)
  else
    match f_type x with
    | FD_PIPE =>
        p <- gets (fun s => pipes s (f_pipe x)) ;;
        k <- gets killed ;;
        m <- gets umem ;;
        let '(p, _, e) := Pipe.pipewrite p k m addr n in
        modify (set_pipe (f_pipe x) p) ;;;
        match e with Pipe.Return r => kret r | Pipe.Sleep _ _ => nofuel end
    | FD_INODE =>
        i <- filewrite_loop (Z.to_nat n) f addr n 0 ;;
        kret (if i =? n then n else -1)
    | FD_NONE => panic "filewrite"
    end.

(** ** pipealloc *)

Definition cleanuppipealloc (p : Z) (f0 f1 : option nat) : KS unit :=
  (if negb (p =? 0) then on_pages (Kalloc.kfree END p) else kret tt) ;;;
  (match f0 with Some f => fileclose f | None => kret tt end) ;;;
  (match f1 with Some f => fileclose f | None => kret tt end).

(** The page's bytes before are those of the pipe's ring. *)
Definition pipealloc : KS (option (nat * nat)) :=
  f0 <- filealloc ;;
  match f0 with
  | None => cleanuppipealloc 0 None None ;;; kret None
  | Some r =>
      f1 <- filealloc ;;
      match f1 with
      | None => cleanuppipealloc 0 f0 None ;;; kret None
      | Some w =>
          p <- on_pages Kalloc.kalloc ;;
          if p =? 0 then cleanuppipealloc 0 f0 f1 ;;; kret None
          else
            modify (fun s => set_pipe p (Pipe.pipe_init (Pipe.data (pipes s p))) s) ;;;
            upd_file r (with_pipe p true false) ;;;
            upd_file w (with_pipe p false true) ;;;
            kret (Some (r, w))
      end
  end.

(** ** sysfile.c *)

Definition arg {A} (f : ucontext -> mem -> option A) : KS (option A) := gets (fun s => f (uctx s) (umem s)).

(** [argfd(n, &fd, &f)]. *)
Definition argfd (n : Z) : KS (option (nat * nat)) :=
  i <- arg (fun u m => argint u m n) ;;
  l <- gets ofile ;;
  kret (match i with
        | None => None
        | Some fd =>
            if (fd <? 0) || (fd >=? Z.of_nat NOFILE) then None
            else match l !!! Z.to_nat fd with None => None | Some f => Some (Z.to_nat fd, f) end
        end).

(** The first free descriptor from [fd] on. *)
Fixpoint free_fd (l : list (option nat)) (fd todo : nat) : option nat :=
  match todo with
  | O => None
  | S todo => match l !!! fd with None => Some fd | Some _ => free_fd l (S fd) todo end
  end.

Definition fdalloc (f : nat) : KS Z :=
  l <- gets ofile ;;
  match free_fd l 0 NOFILE with
  | Some fd => modify (set_ofile (<[fd := Some f]> l)) ;;; kret (Z.of_nat fd)
  | None => kret (-1)
  end.

Definition sys_dup : KS Z :=
  a <- argfd 0 ;;
  match a with
  | None => kret (-1)
  | Some (_, f) =>
      fd <- fdalloc f ;;
      if fd <? 0 then kret (-1) else filedup f ;;; kret fd
  end.

(** The arguments (fd, p, n) of read and write. *)
Definition rwargs : KS (option (nat * Z * Z)) :=
  a <- argfd 0 ;;
  match a with
  | None => kret None
  | Some (_, f) =>
      n <- arg (fun u m => argint u m 2) ;;
      match n with
      | None => kret None
      | Some n =>
          p <- arg (fun u m => argptr u m 1 n) ;;
          kret (match p with None => None | Some p => Some (f, p, n) end)
      end
  end.

Definition sys_read : KS Z :=
  a <- rwargs ;; match a with None => kret (-1) | Some (f, p, n) => fileread f p n end.
Definition sys_write : KS Z :=
  a <- rwargs ;; match a with None => kret (-1) | Some (f, p, n) => filewrite f p n end.

Definition sys_close : KS Z :=
  a <- argfd 0 ;;
  match a with
  | None => kret (-1)
  | Some (fd, f) =>
      modify (fun s => set_ofile (<[fd := None]> (ofile s)) s) ;;;
      fileclose f ;;;
      kret 0
  end.

Definition sys_fstat : KS Z :=
  a <- argfd 0 ;;
  match a with
  | None => kret (-1)
  | Some (_, f) =>
      p <- arg (fun u m => argptr u m 1 STAT) ;;
      match p with None => kret (-1) | Some st => filestat f st end
  end.

(** A path argument: its bytes. *)
Definition argpath (n : Z) : KS (option (list Z)) :=
  arg (fun u m => match argstr u m n with None => None | Some (p, len) => Some (load_bytes m p len) end).

Definition add_nlink (d : Z) (x : Fs.inode) : Fs.inode :=
  Fs.with_meta (Fs.i_type x) (Fs.i_major x) (Fs.i_minor x) (s16 (Fs.i_nlink x + d)) x.

Definition cleanupsyslink (ip : nat) : KS unit :=
  ilock ip ;;;
  upd_inode ip (add_nlink (-1)) ;;;
  iupdate ip ;;;
  iunlockput ip ;;;
  end_op.

Definition sys_link : KS Z :=
  old <- argpath 0 ;;
  match old with
  | None => kret (-1)
  | Some old =>
      new <- argpath 1 ;;
      match new with
      | None => kret (-1)
      | Some new =>
          begin_op ;;;
          r <- namei old ;;
          match r with
          | None => end_op ;;; kret (-1)
          | Some ip =>
              ilock ip ;;;
              x <- inode_of ip ;;
              if Fs.i_type x =? Fs.T_DIR then iunlockput ip ;;; end_op ;;; kret (-1)
              else
                upd_inode ip (add_nlink 1) ;;;
                iupdate ip ;;;
                iunlock ip ;;;
                r <- nameiparent new ;;
                match r with
                | None => cleanupsyslink ip ;;; kret (-1)
                | Some (dp, name) =>
                    ilock dp ;;;
                    d <- inode_of dp ;;
                    x <- inode_of ip ;;
                    r <- (if negb (Fs.i_dev d =? Fs.i_dev x) then kret (-1) else dirlink dp name (Fs.i_inum x)) ;;
                    if r <? 0 then iunlockput dp ;;; cleanupsyslink ip ;;; kret (-1)
                    else iunlockput dp ;;; iput ip ;;; end_op ;;; kret 0
                end
          end
      end
  end.

Definition isdirempty (dp : nat) : KS bool :=
  x <- inode_of dp ;;
  r <- first_of (steps (2 * Fs.DIRENT) (Fs.i_size x) Fs.DIRENT) (fun off =>
    '(r, de) <- readi dp off Fs.DIRENT ;;
    if negb (r =? Fs.DIRENT) then panic "isdirempty: readi"
    else if negb (Fs.de_inum de =? 0) then kret (Some tt)
    else kret None) ;;
  kret (match r with Some _ => false | None => true end).

Definition dot : list Z := [46; 0].
Definition dotdot : list Z := [46; 46; 0].

Definition sys_unlink : KS Z :=
  path <- argpath 0 ;;
  match path with
  | None => kret (-1)
  | Some path =>
      begin_op ;;;
      r <- nameiparent path ;;
      match r with
      | None => end_op ;;; kret (-1)
      | Some (dp, name) =>
          ilock dp ;;;
          if (Fs.namecmp name dot =? 0) || (Fs.namecmp name dotdot =? 0) then
            iunlockput dp ;;; end_op ;;; kret (-1)
          else
            r <- dirlookup dp name ;;
            match r with
            | None => iunlockput dp ;;; end_op ;;; kret (-1)
            | Some (ip, off) =>
                ilock ip ;;;
                x <- inode_of ip ;;
                if Fs.i_nlink x <? 1 then panic "unlink: nlink < 1"
                else
                  e <- (if Fs.i_type x =? Fs.T_DIR then isdirempty ip else kret true) ;;
                  if negb e then
                    iunlockput ip ;;; iunlockput dp ;;; end_op ;;; kret (-1)
                  else
                    r <- writei dp (replicate (Z.to_nat Fs.DIRENT) 0) off Fs.DIRENT ;;
                    if negb (r =? Fs.DIRENT) then panic "unlink: writei"
                    else
                      (if Fs.i_type x =? Fs.T_DIR then upd_inode dp (add_nlink (-1)) ;;; iupdate dp else kret tt) ;;;
                      iunlockput dp ;;;
                      upd_inode ip (add_nlink (-1)) ;;;
                      iupdate ip ;;;
                      iunlockput ip ;;;
                      end_op ;;;
                      kret 0
            end
      end
  end.

(** ialloc panics itself and never returns null. *)
Definition create (path : list Z) (type major minor : Z) : KS (option nat) :=
  r <- nameiparent path ;;
  match r with
  | None => kret None
  | Some (dp, name) =>
      ilock dp ;;;
      r <- dirlookup dp name ;;
      match r with
      | Some (ip, _) =>
          iunlockput dp ;;;
          ilock ip ;;;
          x <- inode_of ip ;;
          if (type =? Fs.T_FILE) && (Fs.i_type x =? Fs.T_FILE) then kret (Some ip)
          else iunlockput ip ;;; kret None
      | None =>
          d <- inode_of dp ;;
          ip <- on_fs (Fs.ialloc disksize pid (Fs.i_dev d) type) ;;
          ilock ip ;;;
          upd_inode ip (fun x => Fs.with_meta (Fs.i_type x) major minor 1 x) ;;;
          iupdate ip ;;;
          x <- inode_of ip ;;
          (if type =? Fs.T_DIR then
             upd_inode dp (add_nlink 1) ;;;
             iupdate dp ;;;
             r <- dirlink ip dot (Fs.i_inum x) ;;
             r <- (if r <? 0 then kret r else dirlink ip dotdot (Fs.i_inum d)) ;;
             if r <? 0 then panic "create dots" else kret tt
           else kret tt) ;;;
          r <- dirlink dp name (Fs.i_inum x) ;;
          if r <? 0 then panic "create: dirlink"
          else iunlockput dp ;;; kret (Some ip)
      end
  end.

Definition bit (x m : Z) : bool := negb (Z.land x m =? 0).

(** sys_open from [filealloc] on, with [ip] locked. *)
Definition open_inode (ip : nat) (omode : Z) : KS Z :=
  f <- filealloc ;;
  fd <- (match f with None => kret (-1) | Some f => fdalloc f end) ;;
  match f with
  | Some f =>
      if fd <? 0 then fileclose f ;;; iunlockput ip ;;; end_op ;;; kret (-1)
      else
        iunlock ip ;;;
        end_op ;;;
        upd_file f (with_inode ip (negb (bit omode O_WRONLY)) (bit omode O_WRONLY || bit omode O_RDWR)) ;;;
        kret fd
  | None => iunlockput ip ;;; end_op ;;; kret (-1)
  end.

Definition sys_open : KS Z :=
  path <- argpath 0 ;;
  match path with
  | None => kret (-1)
  | Some path =>
      omode <- arg (fun u m => argint u m 1) ;;
      match omode with
      | None => kret (-1)
      | Some omode =>
          begin_op ;;;
          if bit omode O_CREATE then
            r <- create path Fs.T_FILE 0 0 ;;
            match r with
            | None => end_op ;;; kret (-1)
            | Some ip => open_inode ip omode
            end
          else
            r <- namei path ;;
            match r with
            | None => end_op ;;; kret (-1)
            | Some ip =>
                ilock ip ;;;
                x <- inode_of ip ;;
                if (Fs.i_type x =? Fs.T_DIR) && negb (omode =? O_RDONLY) then
                  iunlockput ip ;;; end_op ;;; kret (-1)
                else open_inode ip omode
            end
      end
  end.

(** The end of mkdir and mknod. *)
Definition created (r : option nat) : KS Z :=
  match r with
  | None => end_op ;;; kret (-1)
  | Some ip => iunlockput ip ;;; end_op ;;; kret 0
  end.

Definition sys_mkdir : KS Z :=
  begin_op ;;;
  path <- argpath 0 ;;
  r <- (match path with None => kret None | Some path => create path Fs.T_DIR 0 0 end) ;;
  created r.

Definition sys_mknod : KS Z :=
  begin_op ;;;
  path <- argpath 0 ;;
  major <- arg (fun u m => argint u m 1) ;;
  minor <- arg (fun u m => argint u m 2) ;;
  r <- (match path, major, minor with
        | Some path, Some major, Some minor => create path Fs.T_DEV (s16 major) (s16 minor)
        | _, _, _ => kret None
        end) ;;
  created r.

Definition sys_chdir : KS Z :=
  begin_op ;;;
  path <- argpath 0 ;;
  r <- (match path with None => kret None | Some path => namei path end) ;;
  match r with
  | None => end_op ;;; kret (-1)
  | Some ip =>
      ilock ip ;;;
      x <- inode_of ip ;;
      if negb (Fs.i_type x =? Fs.T_DIR) then iunlockput ip ;;; end_op ;;; kret (-1)
      else
        iunlock ip ;;;
        c <- gets cwd ;;
        iput c ;;;
        end_op ;;;
        modify (set_cwd ip) ;;;
        kret 0
  end.

Definition MAXARG : nat := 32.

(** The loop of sys_exec from argument [i] on, [todo] entries of [argv] left:
    the argument strings. *)
Fixpoint exec_args (u : ucontext) (m : mem) (uargv : Z) (i : Z) (todo : nat) : option (list (list Z)) :=
  match todo with
  | O => None
  | S todo =>
      match fetchint u m (u32 (uargv + 4 * i)) with
      | None => None
      | Some uarg =>
          if uarg =? 0 then Some []
          else
            match fetchstr u m (u32 uarg) with
            | None => None
            | Some len =>
                match exec_args u m uargv (i + 1) todo with
                | None => None
                | Some l => Some (load_bytes m (u32 uarg) len :: l)
                end
            end
      end
  end.

(** sys_exec up to the call of exec: the path and the argument strings. *)
Definition sys_exec_args : KS (option (list Z * list (list Z))) :=
  path <- argpath 0 ;;
  uargv <- arg (fun u m => argint u m 1) ;;
  match path, uargv with
  | Some path, Some uargv =>
      a <- arg (fun u m => exec_args u m (u32 uargv) 0 MAXARG) ;;
      kret (match a with None => None | Some l => Some (path, l) end)
  | _, _ => kret None
  end.

Definition sys_pipe : KS Z :=
  a <- arg (fun u m => argptr u m 0 8) ;;
  match a with
  | None => kret (-1)
  | Some fd =>
      r <- pipealloc ;;
      match r with
      | None => kret (-1)
      | Some (rf, wf) =>
          fd0 <- fdalloc rf ;;
          fd1 <- (if fd0 <? 0 then kret (-1) else fdalloc wf) ;;
          if (fd0 <? 0) || (fd1 <? 0) then
            (if fd0 >=? 0 then modify (fun s => set_ofile (<[Z.to_nat fd0 := None]> (ofile s)) s) else kret tt) ;;;
            fileclose rf ;;;
            fileclose wf ;;;
            kret (-1)
          else
            modify (fun s => set_umem (store32 (store32 (umem s) fd fd0) (fd + 4) fd1) s) ;;;
            kret 0
      end
  end.
End file.
