(* ===== verification/FileFacts.v ===== *)
(** * What holds of open files

    The reference counts of the table of open files against the descriptors
    that hold them, kept by every call of sysfile.c; and a pipe that returns
    what was written to it. *)

From S2P Require Import Prelude Mem Block Syscall File.
From S2P Require Bio Log Fs Kalloc Pipe.
#[local] Open Scope Z_scope.
#[local] Open Scope kernel_scope.

(** How many descriptors hold file [f]. *)
Fixpoint fds_of (f : nat) (l : list (option nat)) : Z :=
  match l with
  | [] => 0
  | x :: l => (if decide (x = Some f) then 1 else 0) + fds_of f l
  end.

Definition one (f : nat) : nat -> Z := fun g => if decide (g = f) then 1 else 0.
Definition plus (o p : nat -> Z) : nat -> Z := fun f => o f + p f.
Definition minus (o p : nat -> Z) : nat -> Z := fun f => o f - p f.

(** Every reference count is the number of descriptors of this process that
    hold the file, and [o f] more: those of other processes, and in the
    middle of a call those in the kernel's hands. *)
Record counts (o : nat -> Z) (s : kernel) : Prop := {
  ct_len : length (ofile s) = NOFILE;
  ct_ref : forall f, f_ref (ftable s f) = fds_of f (ofile s) + o f }.

Lemma fds_of_insert f l fd x y : l !! fd = Some x ->
  fds_of f (<[fd := y]> l) = fds_of f l - (if decide (x = Some f) then 1 else 0) + (if decide (y = Some f) then 1 else 0).
Proof.
  revert fd. induction l as [|z l IH]; intros [|fd] H; cbn in H; [done|done|..].
  - injection H as ->. cbn [insert list_insert fds_of]. lia.
  - specialize (IH fd H). cbn [insert list_insert fds_of]. unfold insert in *. lia.
Qed.

(** [counted o q m]: with [counts o] before, [counts (q r)] after, [r] being
    the result. *)
Definition counted {A} (o : nat -> Z) (q : A -> nat -> Z) (m : KS A) : Prop :=
  forall s a s', counts o s -> m s = Ok a s' -> counts (q a) s'.

Lemma counts_ext o o' s : (forall f, o f = o' f) -> counts o s -> counts o' s.
Proof. intros He [H1 H2]. split; [done|]. intros f. by rewrite <- He. Qed.

Section counted.
Implicit Types (o : nat -> Z).

Lemma counted_bind {A B} o q r (m : KS A) (f : A -> KS B) :
  counted o q m -> (forall a, counted (q a) r (f a)) -> counted o r (kbind m f).
Proof. intros Hm Hf s b s' Hs H. kinv H. eapply Hf; [|exact H]. by eapply Hm. Qed.
Lemma counted_ret {A} o (q : A -> nat -> Z) a : q a = o -> counted o q (kret a).
Proof. intros <- s a' s' Hs [= <- <-]. exact Hs. Qed.
Lemma counted_gets {A} o (f : kernel -> A) : counted o (fun _ => o) (gets f).
Proof. intros s a' s' Hs [= <- <-]. exact Hs. Qed.
Lemma counted_panic {A} o q w : counted o q (@panic kernel A w).
Proof. by intros s a s' _ ?. Qed.
Lemma counted_nofuel {A} o q : counted o q (@nofuel kernel A).
Proof. by intros s a s' _ ?. Qed.
Lemma counted_modify o f : (forall s, ofile (f s) = ofile s /\ forall g, f_ref (ftable (f s) g) = f_ref (ftable s g)) ->
  counted o (fun _ => o) (modify f).
Proof. intros Hf s a' s' [H1 H2] [= <- <-]. destruct (Hf s) as [Ho Hr]. split; [by rewrite Ho|]. intros g. by rewrite Ho, Hr. Qed.
Lemma counted_lift {S A} o (g : kernel -> S) p (m : K S A) :
  (forall x s, ofile (p x s) = ofile s /\ ftable (p x s) = ftable s) -> counted o (fun _ => o) (lift g p m).
Proof.
  intros Hp s a s' [H1 H2] H. unfold lift in H. destruct (m (g s)) as [a0 x| | |]; try discriminate. injection H as <- <-.
  destruct (Hp x s) as [E1 E2]. split; [by rewrite E1|]. intros f. by rewrite E1, E2.
Qed.
Lemma counted_on_fs {A} o (m : Fs.F A) : counted o (fun _ => o) (on_fs m).
Proof. by apply counted_lift. Qed.
Lemma counted_on_pages {A} o (m : Kalloc.M A) : counted o (fun _ => o) (on_pages m).
Proof. by apply counted_lift. Qed.
Lemma counted_upd_file o i g : (forall x, f_ref (g x) = f_ref x) -> counted o (fun _ => o) (upd_file i g).
Proof.
  intros Hg. apply counted_modify. intros s. split; [done|]. intros f. cbn.
  destruct (decide (i = f)) as [->|]; [by rewrite fn_lookup_insert, Hg|by rewrite fn_lookup_insert_ne].
Qed.
Lemma counted_acquire o : counted o (fun _ => o) acquire.
Proof. unfold acquire. eapply counted_bind; [apply counted_gets|]. intros [|]; [apply counted_panic|]. by apply counted_modify. Qed.
Lemma counted_release o : counted o (fun _ => o) release.
Proof. unfold release. eapply counted_bind; [apply counted_gets|]. intros [|]; [by apply counted_modify|apply counted_panic]. Qed.
Lemma counted_assoc {A B C} o q (m : KS A) (f : A -> KS B) (g : B -> KS C) :
  counted o q (kbind m (fun a => kbind (f a) g)) -> counted o q (kbind (kbind m f) g).
Proof. intros H s a s' Hs. rewrite kbind_assoc. by apply H. Qed.
End counted.

Create HintDb counted.
#[export] Hint Resolve counted_gets counted_panic counted_nofuel counted_on_fs counted_on_pages counted_acquire counted_release : counted.
#[export] Hint Extern 2 (counted _ _ (modify _)) => apply counted_modify; done : counted.
#[export] Hint Extern 2 (counted _ _ (upd_file _ _)) => apply counted_upd_file; done : counted.
#[export] Hint Extern 2 (counted _ _ (kret _)) => apply counted_ret; reflexivity : counted.

Ltac counted := repeat first
  [ solve [eauto with counted] | match goal with |- counted _ _ (kbind (kbind _ _) _) => apply counted_assoc end
  | eapply counted_bind; [solve [eauto with counted]|intros ?] | case_match ].

Section file.
Context (disksize pid END : Z) (junk : list Z).
Context (devread : Z -> option (nat -> Z -> Fs.F (Z * list Z))) (devwrite : Z -> option (nat -> list Z -> Z -> Fs.F Z)).
Implicit Types (o : nat -> Z).

Lemma counted_fs o {A} (m : Fs.F A) (n : KS A) : n = on_fs m -> counted o (fun _ => o) n.
Proof. intros ->. apply counted_on_fs. Qed.
#[local] Hint Extern 3 (counted _ _ _) => eapply counted_fs; reflexivity : counted.

Lemma counted_begin_op o : counted o (fun _ => o) begin_op.
Proof. unfold begin_op. counted. Qed.
Lemma counted_inode_of o ip : counted o (fun _ => o) (inode_of ip).
Proof. apply counted_gets. Qed.
Lemma counted_get_file o f : counted o (fun _ => o) (get_file f).
Proof. apply counted_gets. Qed.
Lemma counted_arg {A} o (f : ucontext -> mem -> option A) : counted o (fun _ => o) (arg f).
Proof. apply counted_gets. Qed.
Lemma counted_namei o path : counted o (fun _ => o) (namei disksize pid junk devread path).
Proof. unfold namei. counted. Qed.
Lemma counted_nameiparent o path : counted o (fun _ => o) (nameiparent disksize pid junk devread path).
Proof. unfold nameiparent. counted. Qed.
#[local] Hint Resolve counted_begin_op counted_inode_of counted_get_file counted_arg counted_namei counted_nameiparent : counted.

(** ** file.c *)

Definition got (o : nat -> Z) (r : option nat) : nat -> Z := match r with Some f => plus o (one f) | None => o end.

Lemma free_file_spec t i todo f : free_file t i todo = Some f -> (i <= f < i + todo)%nat /\ f_ref (t f) = 0.
Proof.
  revert i. induction todo as [|todo IH]; intros i; cbn; [done|]. destruct (Z.eqb_spec (f_ref (t i)) 0) as [H|H].
  - intros [= <-]. split; [lia|done].
  - intros [H1 H2]%IH. split; [lia|done].
Qed.

Lemma counts_set_ref o s f d : counts o s -> f_ref (ftable s f) + d = f_ref (ftable s f) + d ->
  counts (plus o (fun g => if decide (g = f) then d else 0)) (set_file f (with_ref (f_ref (ftable s f) + d) (ftable s f)) s).
Proof.
  intros [H1 H2] _. split; [done|]. intros g. unfold plus. cbn. destruct (decide (g = f)) as [->|Hg].
  - rewrite fn_lookup_insert. cbn. rewrite H2. lia.
  - rewrite fn_lookup_insert_ne by done. rewrite H2. lia.
Qed.

Lemma counted_filealloc o : counted o (got o) filealloc.
Proof.
  unfold filealloc. eapply counted_bind; [apply counted_acquire|]. intros _ s a s' Hs H. kinv H. injection Hrun as <- <-.
  destruct (free_file (ftable s) 0 NFILE) as [f|] eqn:E.
  - apply free_file_spec in E as [_ Hf]. kinv H. injection Hrun as _ <-. kinv H.
    assert (Hs1 : counts (plus o (one f)) (set_file f (with_ref 1 (ftable s f)) s)).
    { pose proof (counts_set_ref o s f 1 Hs eq_refl) as Hc. by rewrite Hf in Hc. }
    pose proof (counted_release _ _ _ _ Hs1 Hrun) as H3. injection H as <- <-. exact H3.
  - kinv H. pose proof (counted_release _ _ _ _ Hs Hrun) as H3. injection H as <- <-. exact H3.
Qed.

Lemma counted_filedup o f : counted o (fun _ => plus o (one f)) (filedup f).
Proof.
  unfold filedup. eapply counted_bind; [apply counted_acquire|]. intros _ s a s' Hs H. kinv H. injection Hrun as <- <-.
  destruct (_ <? 1); [discriminate|]. kinv H. injection Hrun as _ <-. kinv H.
  pose proof (counted_release _ _ _ _ (counts_set_ref o s f 1 Hs eq_refl) Hrun) as H3. injection H as <- <-. exact H3.
Qed.

Lemma counted_pipeclose o a w : counted o (fun _ => o) (pipeclose END a w).
Proof.
  unfold pipeclose. eapply counted_bind; [apply counted_gets|intros p]. destruct (Pipe.pipeclose p w) as [[p' cs] d]. counted.
Qed.
#[local] Hint Resolve counted_pipeclose : counted.

Lemma counts_drop o s f : counts (plus o (one f)) s -> counts o (set_file f (with_ref (f_ref (ftable s f) - 1) (ftable s f)) s).
Proof.
  intros H. pose proof (counts_set_ref _ s f (-1) H eq_refl) as Hc. eapply counts_ext; [|exact Hc].
  intros g. unfold plus, one. case_decide; lia.
Qed.

Lemma counted_fileclose o f : counted (plus o (one f)) (fun _ => o) (fileclose disksize pid END f).
Proof.
  unfold fileclose. eapply counted_bind; [apply counted_acquire|]. intros _ s a s' Hs H. kinv H. injection Hrun as <- <-.
  destruct (Z.ltb_spec (f_ref (ftable s f)) 1) as [|H1]; [discriminate|]. rewrite Z.gtb_ltb in H. pose proof (counts_drop o s f Hs) as Hd.
  destruct (Z.ltb_spec 0 (f_ref (ftable s f) - 1)) as [H2|H2].
  - kinv H. injection Hrun as _ <-. by apply (counted_release o _ _ _ Hd H).
  - kinv H. injection Hrun as _ <-. kinv H.
    assert (Hs1 : counts o (set_file f (with_none (ftable s f)) s)).
    { destruct Hd as [D1 D2]. split; [done|]. intros g. specialize (D2 g). cbn in *. revert D2.
      destruct (decide (f = g)) as [<-|]; [rewrite !fn_lookup_insert|by rewrite !fn_lookup_insert_ne]. cbn. intros <-. lia. }
    pose proof (counted_release _ _ _ _ Hs1 Hrun) as H3.
    assert (Hk : counted o (fun _ : unit => o) (match f_type (ftable s f) with
        | FD_PIPE => pipeclose END (f_pipe (ftable s f)) (f_writable (ftable s f))
        | FD_INODE => begin_op ;;; iput disksize pid (f_ip (ftable s f)) ;;; end_op disksize pid
        | FD_NONE => kret tt
        end)) by counted.
    by apply (Hk _ _ _ H3 H).
Qed.
#[local] Hint Resolve counted_filealloc counted_filedup : counted.

Lemma counted_filestat o f st : counted o (fun _ => o) (filestat disksize pid f st).
Proof. unfold filestat. counted. Qed.

Lemma counted_fileread o f a n : counted o (fun _ => o) (fileread disksize pid devread f a n).
Proof. unfold fileread. counted. Qed.

Lemma counted_filewrite_loop o fuel f a n i : counted o (fun _ => o) (filewrite_loop disksize pid devwrite fuel f a n i).
Proof. revert i. induction fuel as [|fuel IH]; intros i; cbn [filewrite_loop]; counted. Qed.
#[local] Hint Resolve counted_filewrite_loop counted_fileread counted_filestat : counted.

Lemma counted_filewrite o f a n : counted o (fun _ => o) (filewrite disksize pid devwrite f a n).
Proof. unfold filewrite. counted. Qed.
#[local] Hint Resolve counted_filewrite : counted.

(** ** sysfile.c *)

Lemma argfd_run n s fd f s' : argfd n s = Ok (Some (fd, f)) s' -> counts (fun _ => 0) s \/ length (ofile s) = NOFILE ->
  s' = s /\ ofile s !! fd = Some (Some f).
Proof.
  intros H Hl. assert (Hlen : length (ofile s) = NOFILE) by (destruct Hl as [[]|]; done).
  unfold argfd in H. kinv H. injection Hrun as <- <-. kinv H. injection Hrun as <- <-.
  destruct (argint _ _ _) as [z|]; [|discriminate]. destruct (Z.ltb_spec z 0); [discriminate|]. cbn [orb] in H.
  rewrite Z.geb_leb in H. destruct (Z.leb_spec (Z.of_nat NOFILE) z); [discriminate|].
  destruct (ofile s !!! Z.to_nat z) as [g|] eqn:E; [|discriminate]. injection H as <- <- <-. split; [done|].
  destruct (lookup_lt_is_Some_2 (ofile s) (Z.to_nat z)) as [x Hx]; [lia|].
  rewrite Hx. f_equal. by rewrite (list_lookup_total_correct _ _ _ Hx) in E.
Qed.

Lemma free_fd_spec l fd todo i : free_fd l fd todo = Some i -> (fd <= i < fd + todo)%nat /\ l !!! i = None.
Proof.
  revert fd. induction todo as [|todo IH]; intros fd; cbn; [done|]. destruct (l !!! fd) eqn:E.
  - intros [H1 H2]%IH. split; [lia|done].
  - intros [= <-]. split; [lia|done].
Qed.

Lemma fdalloc_run f s fd s' : length (ofile s) = NOFILE -> fdalloc f s = Ok fd s' ->
  fd = -1 /\ s' = s \/ 0 <= fd /\ ofile s !! Z.to_nat fd = Some None /\ s' = set_ofile (<[Z.to_nat fd := Some f]> (ofile s)) s.
Proof.
  intros Hl H. unfold fdalloc in H. kinv H. injection Hrun as <- <-.
  destruct (free_fd (ofile s) 0 NOFILE) as [i|] eqn:E; [|injection H as <- <-; by left].
  apply free_fd_spec in E as [Hi Hn]. kinv H. injection Hrun as _ <-. injection H as <- <-. right. split; [lia|].
  rewrite Nat2Z.id. split; [|done]. destruct (lookup_lt_is_Some_2 (ofile s) i) as [x Hx]; [lia|].
  rewrite Hx. f_equal. by rewrite (list_lookup_total_correct _ _ _ Hx) in Hn.
Qed.

(** A descriptor set: the count moves. *)
Lemma counts_set_fd o s fd x y : counts o s -> ofile s !! fd = Some x ->
  counts (fun f => o f + (if decide (x = Some f) then 1 else 0) - (if decide (y = Some f) then 1 else 0)) (set_ofile (<[fd := y]> (ofile s)) s).
Proof.
  intros [H1 H2] Hx. split; [cbn; by rewrite length_insert|]. intros f. cbn. rewrite (fds_of_insert f _ _ _ y Hx), H2. lia.
Qed.

Lemma counted_fdalloc o f : counted o (fun fd => if fd <? 0 then o else minus o (one f)) (fdalloc f).
Proof.
  intros s fd s' Hs H. destruct (fdalloc_run f s fd s' (ct_len _ _ Hs) H) as [[-> ->]|(Hp & Hn & ->)]; [done|].
  rewrite (proj2 (Z.ltb_ge _ _) Hp). eapply counts_ext; [|exact (counts_set_fd o s _ _ (Some f) Hs Hn)].
  intros g. unfold minus, one. rewrite (decide_False (P := None = _)) by done. destruct (decide (g = f)) as [->|Hne].
  - rewrite decide_True by done. lia.
  - rewrite decide_False by congruence. lia.
Qed.

Lemma counted_conseq {A} o o' (q q' : A -> nat -> Z) (m : KS A) :
  (forall f, o f = o' f) -> (forall a f, q a f = q' a f) -> counted o q m -> counted o' q' m.
Proof.
  intros Ho Hq Hm s a s' Hs H. eapply counts_ext; [apply Hq|]. eapply Hm; [|exact H]. by eapply counts_ext; [symmetry; apply Ho|].
Qed.

Lemma counted_fdalloc_new o f : counted (plus o (one f)) (fun fd => if fd <? 0 then plus o (one f) else o) (fdalloc f).
Proof.
  eapply counted_conseq; [done| |apply counted_fdalloc]. intros a g. cbn beta. destruct (a <? 0); [done|]. unfold minus, plus. lia.
Qed.

Lemma counted_sys_dup o : counted o (fun _ => o) sys_dup.
Proof.
  unfold sys_dup. eapply counted_bind with (q := fun _ => o); [unfold argfd; counted|]. intros [[fd f]|]; [|counted].
  eapply counted_bind; [apply counted_fdalloc|]. intros z. cbn beta. destruct (z <? 0); [counted|].
  eapply counted_bind with (q := fun _ => o); [|intros; counted].
  eapply counted_conseq; [done| |apply counted_filedup]. intros ? g. unfold plus, minus. lia.
Qed.

Lemma counted_rwargs o : counted o (fun _ => o) rwargs.
Proof. unfold rwargs, argfd. counted. Qed.
#[local] Hint Resolve counted_rwargs : counted.

Lemma counted_sys_read o : counted o (fun _ => o) (sys_read disksize pid devread).
Proof. unfold sys_read. counted. Qed.
Lemma counted_sys_write o : counted o (fun _ => o) (sys_write disksize pid devwrite).
Proof. unfold sys_write. counted. Qed.
Lemma counted_sys_fstat o : counted o (fun _ => o) (sys_fstat disksize pid).
Proof. unfold sys_fstat, argfd. counted. Qed.

Lemma counted_sys_close o : counted o (fun _ => o) (sys_close disksize pid END).
Proof.
  intros s r s' Hs H. unfold sys_close in H. kinv H. destruct a as [[fd f]|].
  - apply argfd_run in Hrun as [-> Hf]; [|right; apply Hs]. kinv H. injection Hrun as _ <-. kinv H. injection H as <- <-.
    refine (counted_fileclose o f _ _ _ _ Hrun). eapply counts_ext; [|exact (counts_set_fd o s _ _ None Hs Hf)].
    intros g. unfold plus, one. rewrite (decide_False (P := None = _)) by done. destruct (decide (g = f)) as [->|Hne].
    + rewrite decide_True by done. lia.
    + rewrite decide_False by congruence. lia.
  - injection H as <- <-. assert (Ha : counted o (fun _ => o) (argfd 0)) by (unfold argfd; counted). by eapply Ha.
Qed.

Lemma counted_cleanupsyslink o ip : counted o (fun _ => o) (cleanupsyslink disksize pid ip).
Proof. unfold cleanupsyslink. counted. Qed.
Lemma counted_argpath o n : counted o (fun _ => o) (argpath n).
Proof. apply counted_arg. Qed.
#[local] Hint Resolve counted_cleanupsyslink counted_argpath : counted.

Lemma counted_sys_link o : counted o (fun _ => o) (sys_link disksize pid junk devread devwrite).
Proof. unfold sys_link. counted. Qed.

Lemma counted_first_of {A B} o (l : list A) (f : A -> KS (option B)) :
  (forall x, counted o (fun _ => o) (f x)) -> counted o (fun _ => o) (first_of l f).
Proof. intros Hf. induction l as [|x l IH]; cbn [first_of]; [counted|]. eapply counted_bind; [apply Hf|]. intros [b|]; [counted|done]. Qed.

Lemma counted_isdirempty o dp : counted o (fun _ => o) (isdirempty disksize pid devread dp).
Proof.
  unfold isdirempty. eapply counted_bind; [counted|]. intros x. eapply counted_bind; [|intros; counted].
  apply counted_first_of. intros off. counted.
Qed.
#[local] Hint Resolve counted_isdirempty : counted.

Lemma counted_sys_unlink o : counted o (fun _ => o) (sys_unlink disksize pid junk devread devwrite).
Proof. unfold sys_unlink. counted. Qed.

Lemma counted_create o path t ma mi : counted o (fun _ => o) (create disksize pid junk devread devwrite path t ma mi).
Proof. unfold create. counted. Qed.
#[local] Hint Resolve counted_create : counted.

Lemma counted_open_inode o ip omode : counted o (fun _ => o) (open_inode disksize pid END ip omode).
Proof.
  unfold open_inode. eapply counted_bind; [apply counted_filealloc|]. intros [f|]; cbn [got].
  - eapply counted_bind; [apply counted_fdalloc_new|]. intros fd. cbn beta. destruct (fd <? 0); [|counted].
    eapply counted_bind; [apply counted_fileclose|]. intros ?. counted.
  - counted.
Qed.
#[local] Hint Resolve counted_open_inode : counted.

Lemma counted_sys_open o : counted o (fun _ => o) (sys_open disksize pid END junk devread devwrite).
Proof. unfold sys_open. counted. Qed.

Lemma counted_created o r : counted o (fun _ => o) (created disksize pid r).
Proof. unfold created. counted. Qed.
#[local] Hint Resolve counted_created : counted.

Lemma counted_sys_mkdir o : counted o (fun _ => o) (sys_mkdir disksize pid junk devread devwrite).
Proof. unfold sys_mkdir. counted. Qed.
Lemma counted_sys_mknod o : counted o (fun _ => o) (sys_mknod disksize pid junk devread devwrite).
Proof. unfold sys_mknod. counted. Qed.
Lemma counted_sys_chdir o : counted o (fun _ => o) (sys_chdir disksize pid junk devread).
Proof. unfold sys_chdir. counted. Qed.

(** Both ends in hand, or neither. *)
Definition got2 (o : nat -> Z) (r : option (nat * nat)) : nat -> Z :=
  match r with Some (r, w) => plus (plus o (one r)) (one w) | None => o end.

Lemma counted_cleanup o p f0 f1 : counted (got (got o f0) f1) (fun _ => o) (cleanuppipealloc disksize pid END p f0 f1).
Proof.
  unfold cleanuppipealloc. eapply counted_bind with (q := fun _ => got (got o f0) f1); [destruct (negb _); counted|]. intros ?.
  eapply counted_bind with (q := fun _ => got o f1).
  - destruct f0 as [f|]; [|counted]. eapply counted_conseq; [| |apply (counted_fileclose (got o f1) f)]; [|done].
    intros g. destruct f1; cbn [got]; unfold plus; lia.
  - intros ?. destruct f1 as [f|]; [apply counted_fileclose|counted].
Qed.

Lemma counted_pipealloc o : counted o (got2 o) (pipealloc disksize pid END).
Proof.
  unfold pipealloc. eapply counted_bind; [apply counted_filealloc|]. intros [r|]; cbn [got].
  - eapply counted_bind; [apply counted_filealloc|]. intros [w|]; cbn [got].
    + eapply counted_bind; [apply counted_on_pages|]. intros p. destruct (p =? 0).
      * eapply counted_bind; [apply (counted_cleanup o 0 (Some r) (Some w))|]. intros ?. by apply counted_ret.
      * do 3 (eapply counted_bind; [counted|intros ?]). by apply counted_ret.
    + eapply counted_bind; [apply (counted_cleanup o 0 (Some r) None)|]. intros ?. by apply counted_ret.
  - eapply counted_bind; [apply (counted_cleanup o 0 None None)|]. intros ?. by apply counted_ret.
Qed.

Lemma counted_close_both o r w :
  counted (got2 o (Some (r, w))) (fun _ => o) (fileclose disksize pid END r ;;; fileclose disksize pid END w ;;; kret (-1)).
Proof.
  eapply counted_bind with (q := fun _ => plus o (one w)).
  - eapply counted_conseq; [| |apply (counted_fileclose (plus o (one w)) r)]; [|done]. intros g. cbn. unfold plus. lia.
  - intros ?. eapply counted_bind; [apply counted_fileclose|]. intros ?. by apply counted_ret.
Qed.

Lemma counted_sys_pipe o : counted o (fun _ => o) (sys_pipe disksize pid END).
Proof.
  unfold sys_pipe. eapply counted_bind; [counted|]. intros [fd|]; [|counted].
  eapply counted_bind; [apply counted_pipealloc|]. intros [[r w]|]; [|counted].
  intros s v s' Hs H. kinv H. pose proof (counted_fdalloc _ _ _ _ _ Hs Hrun) as H0.
  destruct (fdalloc_run _ _ _ _ (ct_len _ _ Hs) Hrun) as [[-> ->]|(Hp & Hn & ->)].
  { kinv H. injection Hrun0 as <- <-. cbn [Z.ltb Z.compare orb Z.geb] in H. kinv H. injection Hrun0 as _ <-.
    by apply (counted_close_both o r w _ _ _ Hs H). }
  cbn beta in H0. rewrite (proj2 (Z.ltb_ge _ _) Hp) in H0, H. kinv H.
  pose proof (counted_fdalloc _ _ _ _ _ H0 Hrun0) as H1.
  destruct (fdalloc_run _ _ _ _ (ct_len _ _ H0) Hrun0) as [[-> ->]|(Hp1 & Hn1 & ->)].
  - cbn [Z.ltb Z.compare orb] in H. rewrite (proj2 (Z.geb_le _ _) Hp) in H. kinv H. injection Hrun1 as _ <-.
    apply (counted_close_both o r w _ _ _) in H; [done|].
    assert (Hx : ofile (set_ofile (<[Z.to_nat a:=Some r]> (ofile s)) s) !! Z.to_nat a = Some (Some r)).
    { cbn. apply list_lookup_insert_eq. rewrite (ct_len _ _ Hs). apply lookup_lt_Some in Hn. by rewrite (ct_len _ _ Hs) in Hn. }
    eapply counts_ext; [|exact (counts_set_fd _ _ _ _ None H0 Hx)]. intros g. unfold minus, one. cbn [got2].
    rewrite (decide_False (P := None = _)) by done. destruct (decide (g = r)) as [->|Hne].
    + rewrite decide_True by done. lia.
    + rewrite decide_False by congruence. lia.
  - cbn beta in H1. rewrite (proj2 (Z.ltb_ge _ _) Hp1) in H1, H. cbn [orb] in H. kinv H. injection Hrun1 as _ <-. injection H as <- <-.
    assert (Hd : forall g, minus (minus (got2 o (Some (r, w))) (one r)) (one w) g = o g) by (intros g; cbn; unfold minus, plus; lia).
    destruct H1 as [D1 D2]. split; [done|]. intros g. rewrite <- Hd. apply D2.
Qed.
End file.

(** The calls of sysfile.c. *)
Inductive call := Dup | Read | Write | Close | Fstat | Link | Unlink | Open | Mkdir | Mknod | Chdir | MakePipe.

Section calls.
Context (disksize pid END : Z) (junk : list Z).
Context (devread : Z -> option (nat -> Z -> Fs.F (Z * list Z))) (devwrite : Z -> option (nat -> list Z -> Z -> Fs.F Z)).

Definition run (c : call) : KS Z :=
  match c with
  | Dup => sys_dup
  | Read => sys_read disksize pid devread
  | Write => sys_write disksize pid devwrite
  | Close => sys_close disksize pid END
  | Fstat => sys_fstat disksize pid
  | Link => sys_link disksize pid junk devread devwrite
  | Unlink => sys_unlink disksize pid junk devread devwrite
  | Open => sys_open disksize pid END junk devread devwrite
  | Mkdir => sys_mkdir disksize pid junk devread devwrite
  | Mknod => sys_mknod disksize pid junk devread devwrite
  | Chdir => sys_chdir disksize pid junk devread
  | MakePipe => sys_pipe disksize pid END
  end.

Lemma counted_run o c : counted o (fun _ => o) (run c).
Proof.
  destruct c; [apply counted_sys_dup|apply counted_sys_read|apply counted_sys_write|apply counted_sys_close|apply counted_sys_fstat
    |apply counted_sys_link|apply counted_sys_unlink|apply counted_sys_open|apply counted_sys_mkdir|apply counted_sys_mknod
    |apply counted_sys_chdir|apply counted_sys_pipe].
Qed.

(** Any sequence of calls by the process, the arguments and the memory of the
    user being anything before each. *)
Fixpoint run_all (cs : list (call * mem * ucontext)) : KS unit :=
  match cs with
  | [] => kret tt
  | (c, m, u) :: cs =>
      modify (fun s => {| fs := fs s; ftable := ftable s; ft_locked := ft_locked s; pipes := pipes s; pages := pages s;
                          ofile := ofile s; cwd := cwd s; umem := m; uctx := u; killed := killed s |}) ;;;
      run c ;;;
      run_all cs
  end.
End calls.

Lemma fds_of_pos f l fd : l !! fd = Some (Some f) -> 1 <= fds_of f l.
Proof.
  assert (H0 : forall l, 0 <= fds_of f l) by (induction l0 as [|x l0 IH]; cbn; [lia|]; case_decide; lia).
  revert fd. induction l as [|x l IH]; intros [|fd] H; cbn in *; [done|done|..].
  - injection H as ->. rewrite decide_True by done. specialize (H0 l). lia.
  - specialize (IH fd H). case_decide; lia.
Qed.

(** C7: Through any calls of sysfile.c, whatever their arguments and results, the
    reference count of every file stays the number of this process's
    descriptors for it plus the references of others.  So the file of an open
    descriptor is never one that filealloc could give out again. *)
Theorem descriptors_counted disksize pid END junk devread devwrite (o : nat -> Z) cs s s' :
  (forall f, 0 <= o f) -> counts o s ->
  run_all disksize pid END junk devread devwrite cs s = Ok tt s' ->
  counts o s' /\ forall fd f, ofile s' !! fd = Some (Some f) -> 1 <= f_ref (ftable s' f).
Proof.
  intros Ho Hs H. assert (Hc : counts o s').
  { revert s Hs H. induction cs as [|[[c m] u] cs IH]; intros s Hs H; cbn [run_all] in H; [by injection H as <-|].
    kinv H. injection Hrun as _ <-. kinv H. eapply IH; [|exact H]. eapply counted_run; [|exact Hrun]. by destruct Hs. }
  split; [done|]. intros fd f Hf. pose proof (fds_of_pos _ _ _ Hf). rewrite (ct_ref _ _ Hc). specialize (Ho f). lia.
Qed.

(** ** A pipe between its two files *)

Lemma pipewrite_fits p killed todo n : Pipe.wf p -> Pipe.count p + Z.of_nat (length todo) <= Pipe.PIPESIZE ->
  exists p', Pipe.pipewrite_loop p killed todo n = (p', [Pipe.Nread], Pipe.Return n)
    /\ Pipe.wf p' /\ Pipe.contents p' = Pipe.contents p ++ todo.
Proof.
  revert p. induction todo as [|c todo IH]; intros p Hw Hc; cbn [Pipe.pipewrite_loop].
  - exists p. split; [done|]. split; [done|]. by rewrite app_nil_r.
  - cbn [length] in Hc. destruct (Z.eqb_spec (Pipe.nwrite p) (u32 (Pipe.nread p + Pipe.PIPESIZE))) as [E|E].
    { apply Pipe.full_iff in E; [lia|done]. }
    destruct (Pipe.put_contents p c Hw E) as (W1 & C1 & _). set (p1 := Pipe.set_write _ _ _) in *.
    assert (Hc1 : Pipe.count p1 = Pipe.count p + 1) by (rewrite <- !Pipe.length_contents, C1, length_app; cbn; lia).
    destruct (IH p1 W1 ltac:(lia)) as (p' & E' & W' & C'). exists p'. split; [done|]. split; [done|].
    by rewrite C', C1, <- app_assoc.
Qed.

Lemma filealloc_run s f s' : filealloc s = Ok (Some f) s' ->
  f_ref (ftable s f) = 0 /\ ftable s' = <[f := with_ref 1 (ftable s f)]> (ftable s)
  /\ umem s' = umem s /\ killed s' = killed s /\ pipes s' = pipes s.
Proof.
  intros H. unfold filealloc in H. kinv H. unfold acquire in Hrun. kinv Hrun. injection Hrun0 as <- <-.
  destruct (ft_locked s); [discriminate|]. injection Hrun as _ <-. kinv H. injection Hrun as <- <-.
  destruct (free_file _ _ _) as [g|] eqn:E; [|kinv H; discriminate]. apply free_file_spec in E as [_ Hg].
  kinv H. injection Hrun as _ <-. kinv H. injection Hrun as _ <-. injection H as <- <-. done.
Qed.

Lemma load_store_bytes m a bs : load_bytes (store_bytes m a bs) a (Z.of_nat (length bs)) = bs.
Proof.
  apply list_eq. intros i. unfold load_bytes. rewrite Nat2Z.id, list_lookup_fmap.
  destruct (decide (i < length bs)%nat) as [Hi|Hi].
  - rewrite lookup_seq_lt by done. cbn. unfold store_bytes, blit.
    rewrite (proj2 (Z.leb_le a (a + Z.of_nat i)) ltac:(lia)), (proj2 (Z.ltb_lt (a + Z.of_nat i) (a + Z.of_nat (length bs))) ltac:(lia)). cbn.
    replace (Z.to_nat (a + Z.of_nat i - a + 0)) with i by lia. by destruct (lookup_lt_is_Some_2 bs i Hi) as [x ->].
  - rewrite lookup_seq_ge by lia. cbn. symmetry. apply lookup_ge_None. lia.
Qed.

Lemma filewrite_pipe disksize pid devwrite f addr n s p' cs v :
  f_writable (ftable s f) = true -> f_type (ftable s f) = FD_PIPE ->
  Pipe.pipewrite (pipes s (f_pipe (ftable s f))) (killed s) (umem s) addr n = (p', cs, Pipe.Return v) ->
  filewrite disksize pid devwrite f addr n s = Ok v (set_pipe (f_pipe (ftable s f)) p' s).
Proof. intros H1 H2 H3. unfold filewrite, kbind, get_file, gets. cbv beta. rewrite H1, H2. cbn [negb]. cbv beta iota. by rewrite H3. Qed.

Lemma fileread_pipe disksize pid devread f addr n s p' bs cs v :
  f_readable (ftable s f) = true -> f_type (ftable s f) = FD_PIPE ->
  Pipe.piperead (pipes s (f_pipe (ftable s f))) (killed s) n = (p', bs, cs, Pipe.Return v) ->
  fileread disksize pid devread f addr n s = Ok v (set_umem (store_bytes (umem s) addr bs) (set_pipe (f_pipe (ftable s f)) p' s)).
Proof. intros H1 H2 H3. unfold fileread, kbind, get_file, gets. cbv beta. rewrite H1, H2. cbn [negb]. cbv beta iota. by rewrite H3. Qed.

(** A read of a pipe that holds exactly what is asked for. *)
Lemma piperead_all p k n : Pipe.wf p -> 0 < n -> Z.of_nat (length (Pipe.contents p)) = n ->
  exists p', Pipe.piperead p k n = (p', Pipe.contents p, [Pipe.Nwrite], Pipe.Return n).
Proof.
  intros Hw Hn Hl. unfold Pipe.piperead. destruct (Z.eqb_spec (Pipe.nread p) (Pipe.nwrite p)) as [E|E].
  { apply Pipe.empty_contents in E; [|done]. rewrite E in Hl. cbn in Hl. lia. }
  cbn [andb]. destruct (Pipe.piperead_copy p (Z.to_nat n)) as [p' cs] eqn:Ec.
  destruct (Pipe.piperead_copy_ok _ _ _ _ Hw Ec) as (_ & _ & Hcs & _). rewrite take_ge in Hcs by lia. subst cs.
  exists p'. by rewrite Hl.
Qed.

(** The two files of a new pipe are joined: up to 512 bytes written to the
    one come back from the other, unchanged and all at once. *)
Theorem pipe_delivers disksize pid END devread devwrite s r w s1 src dst n :
  pipealloc disksize pid END s = Ok (Some (r, w)) s1 -> killed s = false -> 0 < n <= Pipe.PIPESIZE ->
  exists s2 s3, filewrite disksize pid devwrite w src n s1 = Ok n s2 /\ fileread disksize pid devread r dst n s2 = Ok n s3
    /\ load_bytes (umem s3) dst n = load_bytes (umem s) src n.
Proof.
  intros H Hk Hn. unfold pipealloc in H. kinv H. destruct a as [r'|]; [|kinv H; discriminate].
  apply filealloc_run in Hrun as (R1 & R2 & R3 & R4 & R5). kinv H. destruct a as [w'|]; [|kinv H; discriminate].
  apply filealloc_run in Hrun as (W1 & W2 & W3 & W4 & W5). kinv H.
  assert (Hp : s3 = set_pages (pages s3) s2) by (unfold on_pages, lift in Hrun; by destruct (Kalloc.kalloc (pages s2)); [injection Hrun as _ <-|..]).
  destruct (a =? 0); [kinv H; discriminate|]. do 3 (kinv H; injection Hrun0 as _ <-). injection H as <- <- <-.
  assert (Hrw : w' <> r').
  { intros ->. rewrite R2, fn_lookup_insert in W1. by cbn in W1. }
  set (p0 := Pipe.pipe_init (Pipe.data (pipes s3 a))).
  destruct (pipewrite_fits p0 false (map (fun i => umem s (src + Z.of_nat i)) (seq 0 (Z.to_nat n))) n) as (p1 & E1 & P1 & P2).
  { by split. }
  { rewrite length_map, length_seq. change (Pipe.count p0) with 0. lia. }
  set (bs := map (fun i : nat => umem s (src + Z.of_nat i)) (seq 0 (Z.to_nat n))) in *.
  set (sx := set_file w' _ _).
  assert (Xw : f_writable (ftable sx w') = true /\ f_type (ftable sx w') = FD_PIPE /\ f_pipe (ftable sx w') = a)
    by (unfold sx; cbn; by rewrite !fn_lookup_insert).
  assert (Xr : f_readable (ftable sx r') = true /\ f_type (ftable sx r') = FD_PIPE /\ f_pipe (ftable sx r') = a)
    by (unfold sx; cbn; by rewrite fn_lookup_insert_ne, fn_lookup_insert).
  assert (Xp : pipes sx a = p0) by (unfold sx; cbn; by rewrite fn_lookup_insert).
  assert (Xm : umem sx = umem s /\ killed sx = false).
  { unfold sx. cbn. rewrite Hp. cbn. split; congruence. }
  destruct Xw as (Xw1 & Xw2 & Xw3), Xr as (Xr1 & Xr2 & Xr3), Xm as (Xm1 & Xm2).
  assert (Hl : Z.of_nat (length bs) = n) by (unfold bs; rewrite length_map, length_seq; lia).
  assert (P2' : Pipe.contents p1 = bs) by (rewrite P2; by apply app_nil_l).
  destruct (piperead_all p1 false n P1 ltac:(lia) ltac:(by rewrite P2')) as (p2 & E2).
  eexists _, _. split; [|split].
  - eapply filewrite_pipe; [done|done|]. rewrite Xw3, Xp, Xm1, Xm2. exact E1.
  - eapply fileread_pipe; [done|done|]. cbn [ftable set_pipe pipes killed]. rewrite Xw3, Xr3, Xm2, fn_lookup_insert. exact E2.
  - cbn [umem set_umem set_pipe]. rewrite P2', <- Hl at 1. rewrite load_store_bytes. unfold bs, load_bytes. done.
Qed.

(** ** A run *)

Definition free_entry : file :=
  {| f_type := FD_NONE; f_ref := 0; f_readable := false; f_writable := false; f_pipe := 0; f_ip := 0; f_off := 0 |}.

(** A kernel with free pages and an idle disk; the process has no file open. *)
Definition idle_fs : Fs.fsys :=
  {| Fs.flog := {| Log.lcache := Bio.blank; Log.log_locked := false; Log.log_start := 2; Log.log_size := 30; Log.outstanding := 0;
                   Log.committing := false; Log.log_dev := 1; Log.lh_n := 0; Log.lh_block := fun _ => 0 |};
     Fs.icache := fun _ => {| Fs.i_dev := 0; Fs.i_inum := 0; Fs.i_ref := 0; Fs.i_lock := Fs.unlocked; Fs.i_valid := false; Fs.i_type := 0;
                              Fs.i_major := 0; Fs.i_minor := 0; Fs.i_nlink := 0; Fs.i_size := 0; Fs.i_addrs := replicate 13 0 |};
     Fs.ic_locked := false; Fs.sb := Log.sb_of zero_block |}.
Definition idle_kernel : kernel :=
  {| fs := idle_fs; ftable := fun _ => free_entry; ft_locked := false; pipes := fun _ => Pipe.pipe_init zeroed;
     pages := {| Kalloc.k_mem := zeroed; Kalloc.freelist := 0x80400000; Kalloc.use_lock := true; Kalloc.k_locked := false; Kalloc.k_console := [] |};
     ofile := replicate NOFILE None; cwd := 0; umem := zeroed; uctx := {| u_sz := 4096; u_esp := 100 |}; killed := false |}.

Lemma idle_counts : counts (fun _ => 0) idle_kernel.
Proof. by split. Qed.

(** pipe(&fd) at 200, then dup(1) and close(0). *)
Definition some_calls : list (call * mem * ucontext) :=
  [(MakePipe, store32 zeroed 104 200, uctx idle_kernel); (Dup, store32 zeroed 104 1, uctx idle_kernel); (Close, zeroed, uctx idle_kernel)].

Lemma descriptors_counted_witness : exists s,
  run_all 1000 1 0x80100000 [] (fun _ => None) (fun _ => None) some_calls idle_kernel = Ok tt s /\ f_ref (ftable s 1%nat) = 2
  /\ 1 <= f_ref (ftable s 1%nat).
Proof.
  destruct (run_all 1000 1 0x80100000 [] (fun _ => None) (fun _ => None) some_calls idle_kernel) as [[] s| | |] eqn:E;
    [|exfalso; assert (H : ok_val (run_all 1000 1 0x80100000 [] (fun _ => None) (fun _ => None) some_calls idle_kernel) <> None)
       by (vm_compute; discriminate); rewrite E in H; by apply H..].
  assert (Ho : ofile s !! 1%nat = Some (Some 1%nat) /\ f_ref (ftable s 1%nat) = 2).
  { assert (H : (fun x => (ofile x !! 1%nat, f_ref (ftable x 1%nat))) <$> ok_state (run_all 1000 1 0x80100000 [] (fun _ => None) (fun _ => None) some_calls idle_kernel)
              = Some (Some (Some 1%nat), 2)) by (vm_compute; reflexivity).
    rewrite E in H. cbn in H. injection H as H1 H2. by rewrite H1, H2. }
  destruct (descriptors_counted 1000 1 0x80100000 [] (fun _ => None) (fun _ => None) (fun _ => 0) some_calls idle_kernel s) as [_ H];
    [intros; lia|exact idle_counts|exact E|].
  exists s. split; [reflexivity|]. split; [exact (proj2 Ho)|exact (H 1%nat 1%nat (proj1 Ho))].
Defined.

Lemma pipe_delivers_witness : exists r w s1 s2 s3,
  pipealloc 1000 1 0x80100000 idle_kernel = Ok (Some (r, w)) s1
  /\ filewrite 1000 1 (fun _ => None) w 0 5 s1 = Ok 5 s2 /\ fileread 1000 1 (fun _ => None) r 300 5 s2 = Ok 5 s3.
Proof.
  destruct (pipealloc 1000 1 0x80100000 idle_kernel) as [[[r w]|] s1| | |] eqn:E;
    [|exfalso; assert (H : ok_val (pipealloc 1000 1 0x80100000 idle_kernel) = Some (Some (0, 1)%nat)) by (vm_compute; reflexivity);
      rewrite E in H; discriminate..].
  destruct (pipe_delivers 1000 1 0x80100000 (fun _ => None) (fun _ => None) idle_kernel r w s1 0 300 5 E) as (s2 & s3 & H1 & H2 & _);
    [reflexivity|unfold Pipe.PIPESIZE; lia|].
  exists r, w, s1, s2, s3. split; [reflexivity|split; [exact H1|exact H2]].
Defined.
