(* ===== verification/Exec.v ===== *)
(** * Loading a program (exec.c, elf.h)

    exec builds a new address space from an ELF file and an argument list and
    commits to it at the end.  It runs on the memory of Kalloc.v with the
    page-table code of Vm.v; what it uses of the file system is the interface
    [Files], which the routines of Fs.v implement.  The path and the argument
    strings, which sys_exec checked, are lists of bytes without the NUL. *)

From S2P Require Import Prelude Mem Block Kalloc Vm.
From S2P Require Log Fs File.
#[local] Open Scope Z_scope.
#[local] Open Scope kernel_scope.

Definition MAXARG : Z := 32.
Definition ELF_MAGIC : Z := 0x464C457F.
Definition ELF_PROG_LOAD : Z := 1.

(** The fields of [struct elfhdr] and [struct proghdr] that exec reads, and
    the sizes of the two. *)
Record elfhdr := { e_magic : Z; e_entry : Z; e_phoff : Z; e_phnum : Z }.
Record proghdr := { p_type : Z; p_off : Z; p_vaddr : Z; p_filesz : Z; p_memsz : Z }.
Definition ELFHDR : Z := 52.
Definition PROGHDR : Z := 32.
Definition read_elfhdr (b : list Z) : elfhdr :=
  {| e_magic := get32 b 0; e_entry := get32 b 24; e_phoff := get32 b 28; e_phnum := get16 b 44 |}.
Definition read_proghdr (b : list Z) : proghdr :=
  {| p_type := get32 b 0; p_off := get32 b 4; p_vaddr := get32 b 8; p_filesz := get32 b 16; p_memsz := get32 b 20 |}.

(** What exec uses of log.c and fs.c. *)
Class Files (F : Type) := {
  begin_op : K F unit;
  end_op : K F unit;
  namei : list Z -> K F (option nat);
  ilock : nat -> K F unit;
  readi : nat -> Z -> Z -> K F (Z * list Z);
  iunlockput : nat -> K F unit }.

(** The fields of [struct proc] that exec replaces, with [tf->eip] and
    [tf->esp], and the kernel stack. *)
Record proc := { pgdir : Z; sz : Z; eip : Z; esp : Z; name : list Z; kstack : Z }.

Section exec.
Context {F : Type} `{Files F} (END DATA : Z).

(** The file system, the memory, the calling process and the register cr3. *)
Record state := { files : F; pages : kstate; curproc : proc; cr3 : Z }.

Definition X : Type -> Type := K state.

Definition on {S A} (get : state -> S) (put : S -> state -> state) (m : K S A) : X A := fun s =>
  match m (get s) with
  | Ok a x => Ok a (put x s)
  | Panic e => Panic e
  | Fault e => Fault e
  | NoFuel => NoFuel
  end.
Definition set_files (x : F) (s : state) : state := {| files := x; pages := pages s; curproc := curproc s; cr3 := cr3 s |}.
Definition set_pages (x : kstate) (s : state) : state := {| files := files s; pages := x; curproc := curproc s; cr3 := cr3 s |}.
Definition set_curproc (x : proc) (s : state) : state := {| files := files s; pages := pages s; curproc := x; cr3 := cr3 s |}.
Definition set_cr3 (x : Z) (s : state) : state := {| files := files s; pages := pages s; curproc := curproc s; cr3 := x |}.
Definition fs {A} (m : K F A) : X A := on files set_files m.
Definition vm {A} (m : M A) : X A := on pages set_pages m.

Definition cleanupexec (pgdir : Z) (ip : option nat) : X unit :=
  (if negb (pgdir =? 0) then vm (freevm END pgdir) else kret tt) ;;;
  match ip with Some ip => fs (iunlockput ip) ;;; fs end_op | None => kret tt end.

(** [cleanupexec(pgdir, ip); return -1;] *)
Definition fail (pgdir : Z) (ip : option nat) : X Z := cleanupexec pgdir ip ;;; kret (-1).

(** The chars [bs] are stored at the kernel address [dst]. *)
Definition put_bytes (dst : Z) (bs : list Z) : M unit :=
  modify (fun s => set_mem (File.store_bytes (k_mem s) dst (map u8 bs)) s).

(** readi to a kernel address. *)
Definition readi_to (ip : nat) (dst off n : Z) : X Z :=
  '(r, bs) <- fs (readi ip off n) ;; vm (put_bytes dst bs) ;;; kret r.

(** copyout of the bytes of a buffer. *)
Definition move_bytes (buf : list Z) (dst k n : Z) : M unit := put_bytes dst (take (Z.to_nat n) (drop (Z.to_nat k) buf)).
Definition copyout_bytes (pgdir va : Z) (buf : list Z) : M Z :=
  copyout_from (move_bytes buf) pgdir va 0 (Z.of_nat (length buf)).

(** The loop over the program headers, [n] of them left: the size of the
    image, or [None] where the code fails. *)
Fixpoint load_segments (n : nat) (ip : nat) (pgdir off sz : Z) : X (option Z) :=
  match n with
  | O => kret (Some sz)
  | S n =>
      '(r, b) <- fs (readi ip off PROGHDR) ;;
      if negb (r =? PROGHDR) then kret None
      else
        let ph := read_proghdr (map u8 b) in
        if negb (p_type ph =? ELF_PROG_LOAD) then load_segments n ip pgdir (u32 (off + PROGHDR)) sz
        else if p_memsz ph <? p_filesz ph then kret None
        else if u32 (p_vaddr ph + p_memsz ph) <? p_vaddr ph then kret None
        else
          sz <- vm (allocuvm END pgdir sz (u32 (p_vaddr ph + p_memsz ph))) ;;
          if sz =? 0 then kret None
          else if negb (p_vaddr ph mod PGSIZE =? 0) then kret None
          else
            r <- loaduvm (@vm) (readi_to ip) pgdir (p_vaddr ph) (p_off ph) (p_filesz ph) ;;
            if r <? 0 then kret None
            else load_segments n ip pgdir (u32 (off + PROGHDR)) sz
  end.

(** The loop that pushes the argument strings, from argument [argc] on:
    the stack pointer and [ustack[3..]], or [None] where the code fails. *)
Fixpoint push_args (pgdir : Z) (argv : list (list Z)) (argc sp : Z) : X (option (Z * list Z)) :=
  match argv with
  | [] => kret (Some (sp, []))
  | arg :: argv =>
      if argc >=? MAXARG then kret None
      else
        let sp := Z.land (u32 (sp - (Z.of_nat (length arg) + 1))) (Z.lnot 3) in
        r <- vm (copyout_bytes pgdir sp (arg ++ [0])) ;;
        if r <? 0 then kret None
        else
          r <- push_args pgdir argv (argc + 1) sp ;;
          kret (match r with None => None | Some (sp', ptrs) => Some (sp', sp :: ptrs) end)
  end.

(** The words of an array of [uint]s in memory. *)
Definition word_bytes (w : Z) : list Z := [u8 w; u8 (Z.shiftr w 8); u8 (Z.shiftr w 16); u8 (Z.shiftr w 24)].
Definition words (l : list Z) : list Z := concat (map word_bytes l).

(** [ustack]: the fake return address, argc, argv, and the argument pointers
    with a null pointer at their end. *)
Definition ustack (sp : Z) (ptrs : list Z) : list Z :=
  let argc := Z.of_nat (length ptrs) in
  [0xffffffff; argc; u32 (sp - (argc + 1) * 4)] ++ ptrs ++ [0].

(** The last element of the path, [last] in the code. *)
Fixpoint last_elem (s last : list Z) : list Z :=
  match s with
  | [] => last
  | c :: s => last_elem s (if c =? 47 then s else last)
  end.

(** switchuvm: the processor uses the page table of [curproc]. *)
Definition switchuvm : X unit :=
  p <- gets curproc ;;
  if kstack p =? 0 then panic "switchuvm: no kstack"
  else if pgdir p =? 0 then panic "switchuvm: no pgdir"
  else modify (set_cr3 (V2P (pgdir p))).

(** From the argument strings on, in the space [pgdir] of size [sz]. *)
Definition exec_stack (path : list Z) (argv : list (list Z)) (entry pgdir sz : Z) : X Z :=
  let sz := PGROUNDUP sz in
  sz <- vm (allocuvm END pgdir sz (u32 (sz + 2 * PGSIZE))) ;;
  if sz =? 0 then fail pgdir None
  else
    vm (clearpteu pgdir (u32 (sz - 2 * PGSIZE))) ;;;
    r <- push_args pgdir argv 0 sz ;;
    match r with
    | None => fail pgdir None
    | Some (sp, ptrs) =>
        let stack := ustack sp ptrs in
        let sp := u32 (sp - 4 * Z.of_nat (length stack)) in
        r <- vm (copyout_bytes pgdir sp (words stack)) ;;
        if r <? 0 then fail pgdir None
        else
          p <- gets curproc ;;
          let name' := safestrcpy_list (name p) (last_elem path path ++ [0]) 16 in
          modify (set_curproc {| Exec.pgdir := pgdir; Exec.sz := sz; eip := entry; esp := sp; name := name'; kstack := kstack p |}) ;;;
          switchuvm ;;;
          vm (freevm END (Exec.pgdir p)) ;;;
          kret 0
    end.

Definition exec (path : list Z) (argv : list (list Z)) : X Z :=
  fs begin_op ;;;
  o <- fs (namei path) ;;
  match o with
  | None => fs end_op ;;; vm (cprintf "exec: fail") ;;; kret (-1)
  | Some ip =>
      fs (ilock ip) ;;;
      '(r, b) <- fs (readi ip 0 ELFHDR) ;;
      if negb (r =? ELFHDR) then fail 0 (Some ip)
      else
        let elf := read_elfhdr (map u8 b) in
        if negb (e_magic elf =? ELF_MAGIC) then fail 0 (Some ip)
        else
          pgdir <- vm (setupkvm END DATA) ;;
          if pgdir =? 0 then fail pgdir (Some ip)
          else
            r <- load_segments (Z.to_nat (e_phnum elf)) ip pgdir (e_phoff elf) 0 ;;
            match r with
            | None => fail pgdir (Some ip)
            | Some sz =>
                fs (iunlockput ip) ;;;
                fs end_op ;;;
                exec_stack path argv (e_entry elf) pgdir sz
            end
  end.
End exec.
Arguments state : clear implicits.

(** The file system of Fs.v, for the process [pid] with current directory
    [cwd]. *)
#[export] Instance xv6_files (disksize pid : Z) (cwd : nat) (junk : list Z)
    (devread : Z -> option (nat -> Z -> Fs.F (Z * list Z))) : Files Fs.fsys := {|
  begin_op := r <- Fs.on_log Log.begin_op ;; if r : bool then kret tt else nofuel;
  end_op := Fs.on_log (Log.end_op disksize pid);
  namei := Fs.namei disksize pid cwd devread junk;
  ilock := Fs.ilock disksize pid;
  readi := Fs.readi disksize pid devread;
  iunlockput := Fs.iunlockput disksize pid |}.
