(* ===== verification/ExecFacts.v ===== *)
(** * What exec does (exec.c)

    Either exec fails, and the process is what it was and no page is lost, or
    it succeeds: the process has a new address space that holds the image of
    the file and the arguments, and the pages of the old one are free.  The
    file system is behind the laws [FilesLaws]; a failure of its own (a panic,
    or a wait that has no result in the model) is the only other outcome. *)

From S2P Require Import Prelude Mem Block Kalloc Vm VmFacts Uvm Exec.
From S2P Require Syscall Log Fs File.
#[local] Open Scope Z_scope.
#[local] Open Scope kernel_scope.

(** [Q] of the result, or a failure of the file system: one of the messages
    [E], or a wait, if [W]. *)
Definition allows {S A} (E : string -> Prop) (W : Prop) (Q : A -> S -> Prop) (o : outcome S A) : Prop :=
  match o with
  | Ok a s => Q a s
  | Panic e | Fault e => E e
  | NoFuel => W
  end.

(** The bytes that readi gives of a file with the contents [c]. *)
Definition reads (c : list Z) (off n r : Z) (bs : list Z) : Prop :=
  Forall is_byte c /\ Z.of_nat (length c) < 2 ^ 31 /\ (r = n <-> off + n <= Z.of_nat (length c)) /\ (r = n -> bs = slice c off n).

(** What exec relies on: each routine is called in its phase (outside a
    transaction, inside one, with an inode locked), and the file named by the
    path keeps its contents until it is unlocked. *)
Class FilesLaws (F : Type) `{Files F} (E : string -> Prop) (W : Prop) := {
  idle : F -> Prop;
  in_op : F -> Prop;
  locked : nat -> F -> Prop;
  named : list Z -> list Z -> F -> Prop;
  content : nat -> list Z -> F -> Prop;
  begin_op_ok s : idle s -> allows E W (fun _ s' => in_op s' /\ forall path c, named path c s -> named path c s') (begin_op s);
  end_op_ok s : in_op s -> allows E W (fun _ s' => idle s') (end_op s);
  namei_ok path s : in_op s ->
    allows E W (fun o s' => in_op s' /\ forall c, named path c s -> exists ip, o = Some ip /\ content ip c s') (namei path s);
  ilock_ok ip s : in_op s -> allows E W (fun _ s' => locked ip s' /\ forall c, content ip c s -> content ip c s') (ilock ip s);
  readi_ok ip off n s : locked ip s -> is_u32 off -> 0 <= n < 2 ^ 31 ->
    allows E W (fun '(r, bs) s' => locked ip s' /\ Z.of_nat (length bs) <= n /\
      forall c, content ip c s -> content ip c s' /\ reads c off n r bs) (readi ip off n s);
  iunlockput_ok ip s : locked ip s -> allows E W (fun _ s' => in_op s') (iunlockput ip s) }.

Section rules.
Context {S : Type} (E : string -> Prop) (W : Prop).

Lemma allows_bind {A B} (m : K S A) (f : A -> K S B) Q s :
  allows E W (fun a s' => allows E W Q (f a s')) (m s) -> allows E W Q (kbind m f s).
Proof. unfold allows, kbind. by destruct (m s). Qed.

Lemma allows_mono {A} (Q Q' : A -> S -> Prop) o : allows E W Q o -> (forall a s, Q a s -> Q' a s) -> allows E W Q' o.
Proof. unfold allows. destruct o; auto. Qed.

Lemma allows_run {A} (m : K S A) Q s a s' : m s = Ok a s' -> Q a s' -> allows E W Q (m s).
Proof. unfold allows. by intros ->. Qed.
End rules.

Lemma store_bytes_at m a bs x :
  File.store_bytes m a bs x = if decide (a <= x < a + Z.of_nat (length bs)) then default 0 (bs !! Z.to_nat (x - a)) else m x.
Proof.
  unfold File.store_bytes, blit. destruct (decide (a <= x < a + Z.of_nat (length bs))) as [H|H].
  - destruct (Z.leb_spec a x), (Z.ltb_spec x (a + Z.of_nat (length bs))); try lia. cbn. do 3 f_equal. lia.
  - destruct (Z.leb_spec a x), (Z.ltb_spec x (a + Z.of_nat (length bs))); try lia; done.
Qed.

(** The byte [k] of a buffer. *)
Definition byte_of (buf : list Z) (k : Z) : Z := u8 (default 0 (buf !! Z.to_nat k)).

Lemma byte_of_byte buf k : is_byte (byte_of buf k).
Proof. apply u8_range. Qed.

Lemma put_bytes_ok dst bs s : exists m', put_bytes dst bs s = Ok tt (Kalloc.set_mem m' s) /\
  (forall x, m' x = if decide (dst <= x < dst + Z.of_nat (length bs)) then byte_of bs (x - dst) else k_mem s x).
Proof.
  eexists. split; [reflexivity|]. intros x. rewrite store_bytes_at, length_map. case_decide as H; [|done].
  rewrite list_lookup_fmap. unfold byte_of. destruct (bs !! Z.to_nat (x - dst)) as [b|] eqn:E; [done|].
  apply lookup_ge_None in E. lia.
Qed.

Lemma moves_bytes buf : moves (byte_of buf) (Z.of_nat (length buf)) (move_bytes buf).
Proof.
  intros dst k n s Hk Hn Hle. unfold move_bytes. destruct (put_bytes_ok dst (take (Z.to_nat n) (drop (Z.to_nat k) buf)) s) as (m' & E & Hm).
  exists m'. split; [done|]. intros x. rewrite Hm, length_take, length_drop. replace (Z.of_nat (Z.to_nat n `min` (length buf - Z.to_nat k))) with n by lia.
  case_decide as Hx; [|done]. unfold byte_of. rewrite lookup_take_lt, lookup_drop by lia. do 3 f_equal. lia.
Qed.

(** ** The image of a file *)

Definition overlay (img : Z -> Z) (va n : Z) (c : list Z) (off : Z) (a : Z) : Z :=
  if decide (va <= a < va + n) then byte_of c (off + (a - va)) else img a.

(** The loading of [n] program headers from offset [off] of the file [c]:
    the size and the bytes of the image. *)
Fixpoint segments (c : list Z) (n : nat) (off sz : Z) (img : Z -> Z) : option (Z * (Z -> Z)) :=
  match n with
  | O => Some (sz, img)
  | S n =>
      if Z.of_nat (length c) <? off + PROGHDR then None
      else
        let ph := read_proghdr (slice c off PROGHDR) in
        if negb (p_type ph =? ELF_PROG_LOAD) then segments c n (off + PROGHDR) sz img
        else if (p_memsz ph <? p_filesz ph) || (KERNBASE <=? p_vaddr ph + p_memsz ph) then None
        else
          let sz := Z.max sz (p_vaddr ph + p_memsz ph) in
          if (sz =? 0) || negb (p_vaddr ph mod PGSIZE =? 0) then None
          else if (0 <? p_filesz ph) && (Z.of_nat (length c) <? p_off ph + p_filesz ph) then None
          else segments c n (off + PROGHDR) sz (overlay img (p_vaddr ph) (p_filesz ph) c (p_off ph))
  end.

Lemma segments_mono c n off sz img sz' img' : segments c n off sz img = Some (sz', img') -> sz <= sz'.
Proof.
  revert off sz img. induction n as [|n IH]; intros off sz img; cbn [segments].
  - intros [= <- _]. lia.
  - repeat (case_match; try done); intros E; apply IH in E; lia.
Qed.

Lemma segments_below c n off sz img sz' img' : segments c n off sz img = Some (sz', img') -> sz < KERNBASE -> sz' < KERNBASE.
Proof.
  revert off sz img. induction n as [|n IH]; intros off sz img; cbn [segments].
  - by intros [= <- _].
  - repeat (case_match; try done); intros E Hsz; apply IH in E; try done.
    match goal with H : _ || _ = false |- _ => apply orb_false_iff in H as [_ H]; apply Z.leb_gt in H end. lia.
Qed.

(** The image depends on the bytes only. *)
Lemma segments_ext c n off sz img img' : (forall a, img a = img' a) ->
  match segments c n off sz img, segments c n off sz img' with
  | Some (sz1, r), Some (sz2, r') => sz1 = sz2 /\ forall a, r a = r' a
  | None, None => True
  | _, _ => False
  end.
Proof.
  revert off sz img img'. induction n as [|n IH]; intros off sz img img' Hext; cbn [segments]; [done|].
  destruct (_ <? _); [done|]. cbv zeta. destruct (negb _); [by apply IH|]. destruct (_ || _); [done|]. destruct (_ || _); [done|].
  destruct (_ && _); [done|]. apply IH. intros a. unfold overlay. by case_decide.
Qed.

Lemma get8_u8 b k : is_byte (get8 (map u8 b) k).
Proof.
  unfold get8. rewrite list_lookup_fmap. destruct (b !! _); cbn; [apply u8_range|unfold is_byte; lia].
Qed.

Lemma get32_u8 b k : is_u32 (get32 (map u8 b) k).
Proof.
  unfold get32, is_u32. pose proof (get8_u8 b k). pose proof (get8_u8 b (k + 1)). pose proof (get8_u8 b (k + 2)). pose proof (get8_u8 b (k + 3)).
  unfold is_byte in *. lia.
Qed.

Lemma get16_u8 b k : 0 <= get16 (map u8 b) k < 2 ^ 16.
Proof. unfold get16. pose proof (get8_u8 b k). pose proof (get8_u8 b (k + 1)). unfold is_byte in *. lia. Qed.

Lemma map_u8_bytes c : Forall is_byte c -> map u8 c = c.
Proof. induction 1 as [|b c Hb _ IH]; cbn; [done|]. by rewrite IH, u8_small by (unfold is_byte in *; lia). Qed.

(** Pages that the user can access. *)
Definition users (pm : gmap Z Z) : Prop := forall i e, pm !! i = Some e -> has e PTE_U = true.

Lemma new_pde_user END t : is_page END t -> has (new_pde t) PTE_U = true.
Proof.
  intros H. destruct (V2P_page END t H) as (_ & Ha & _). unfold new_pde. rewrite <- !Z.lor_assoc. change (Z.lor PTE_P (Z.lor PTE_W PTE_U)) with 7.
  rewrite lor_low by (unfold PGSIZE; done || lia). by rewrite has_low by (unfold PGSIZE, PTE_U; done || lia).
Qed.

Lemma grown_users END oldsz newsz pm s' pm' : grown END oldsz newsz pm s' pm' -> users pm -> users pm'.
Proof.
  intros Hg Hu i e Hi. specialize (Hg i). case_decide.
  - destruct Hg as (t & Ht & E & _). rewrite E in Hi. injection Hi as <-. by apply (new_pde_user END).
  - rewrite Hg in Hi. by apply (Hu i).
Qed.

Lemma grown_view END oldsz newsz pm s s' pm' : grown END (PGROUNDUP oldsz) newsz pm s' pm' -> full oldsz pm -> 0 <= oldsz <= KERNBASE ->
  keeps pm s s' -> forall a, view (k_mem s') pm' a = view (k_mem s) pm a.
Proof.
  intros Hg Hf Ho Hk a. rewrite <- (keeps_view pm s s') by done. unfold view. specialize (Hg (a / PGSIZE)). case_decide as Hin.
  - destruct Hg as (t & Ht & -> & Hz). destruct (new_pde_ok END t Ht) as (_ & _ & ->). rewrite (full_none oldsz).
    + apply Hz. unfold in_page, PGSIZE. Z.div_mod_to_equations. lia.
    + done.
    + pose proof (PGROUNDUP_spec oldsz Ho). lia.
  - by rewrite Hg.
Qed.

(** ** The stack *)

(** The space ends in a guard page and a stack page below [top]. *)
Record stack_space (top : Z) (pm : gmap Z Z) : Prop := {
  st_top : top mod PGSIZE = 0 /\ 2 * PGSIZE <= top < KERNBASE;
  st_full : full top pm;
  st_guard : user_pte pm (top / PGSIZE - 2) = false;
  st_user : forall i e, pm !! i = Some e -> i <> top / PGSIZE - 2 -> has e PTE_U = true }.

(** Where the strings go: the pointers and the stack pointer after them. *)
Fixpoint layout (sp : Z) (argv : list (list Z)) : list Z * Z :=
  match argv with
  | [] => ([], sp)
  | arg :: argv =>
      let sp := 4 * ((sp - (Z.of_nat (length arg) + 1)) / 4) in
      let '(ptrs, sp') := layout sp argv in (sp :: ptrs, sp')
  end.

Lemma layout_below sp argv : snd (layout sp argv) <= sp.
Proof.
  revert sp. induction argv as [|arg argv IH]; intros sp; cbn [layout]; [done|].
  specialize (IH (4 * ((sp - (Z.of_nat (length arg) + 1)) / 4))). destruct (layout _ argv) as [l r]. cbn [snd] in *.
  pose proof (Z.mul_div_le (sp - (Z.of_nat (length arg) + 1)) 4 ltac:(lia)). lia.
Qed.

Lemma land_not3 x : Z.land x (Z.lnot 3) = 4 * (x / 4).
Proof.
  change 3 with (Z.ones 2). rewrite <- Z.ldiff_land, Z.ldiff_ones_r by lia. rewrite Z.shiftl_mul_pow2, Z.shiftr_div_pow2 by lia. apply Z.mul_comm.
Qed.

(** The string [arg] with its NUL is at [p]. *)
Definition string_at (m : Z -> Z) (p : Z) (arg : list Z) : Prop :=
  forall k, 0 <= k <= Z.of_nat (length arg) -> m (p + k) = byte_of (arg ++ [0]) k.

(** The strings of [argv] are at [ptrs], between [lo] and [hi]. *)
Definition strings_at (m : Z -> Z) (lo hi : Z) (ptrs : list Z) (argv : list (list Z)) : Prop :=
  Forall2 (fun p arg => lo <= p /\ p + Z.of_nat (length arg) + 1 <= hi /\ string_at m p arg) ptrs argv.

Lemma strings_at_mono m m' lo lo' hi hi' ptrs argv : strings_at m lo hi ptrs argv -> lo' <= lo -> hi <= hi' ->
  (forall a, lo <= a < hi -> m' a = m a) -> strings_at m' lo' hi' ptrs argv.
Proof.
  intros Hs H1 H2 Hm. eapply Forall2_impl; [exact Hs|]. intros p arg (Hl & Hh & Hst). split; [lia|]. split; [lia|].
  intros k Hk. rewrite Hm by lia. by apply Hst.
Qed.

Section facts.
Context {F : Type} `{Files F} (E : string -> Prop) (W : Prop) `{!FilesLaws F E W}.
Context (END DATA : Z) (HEND : KERNBASE < END) (HDATA : DATA mod PGSIZE = 0 /\ KERNLINK < DATA < KERNBASE + PHYSTOP).

(** The state and the free list at the call of exec. *)
Context (s0 : state F) (l0 : list Z).

(** While exec works on the space [pm] in [pgdir]: its pages and the free
    ones are the free pages of the call, no other page is written, the
    process is as it was. *)
Record inv (pgdir : Z) (pm : gmap Z Z) (s : state F) : Prop := {
  in_space : exists l, space END (pages s) l pgdir pm /\ owned (pages s) l pgdir pm ≡ₚ l0;
  in_mem : forall x, (forall p, p ∈ l0 -> ~ in_page p x) -> k_mem (pages s) x = k_mem (pages s0) x;
  in_kernel : forall va, KERNBASE <= va < 2 ^ 32 -> entry (k_mem (pages s)) pgdir va = kernel_pte DATA va;
  in_proc : curproc s = curproc s0;
  in_cr3 : cr3 s = cr3 s0 }.

(** exec holds no page. *)
Record released (s : state F) : Prop := {
  rl_free : exists l, free END (pages s) l /\ l ≡ₚ l0;
  rl_mem : forall x, (forall p, p ∈ l0 -> ~ in_page p x) -> k_mem (pages s) x = k_mem (pages s0) x;
  rl_proc : curproc s = curproc s0;
  rl_cr3 : cr3 s = cr3 s0 }.

Lemma set_pages_id (s : state F) : set_pages (pages s) s = s.
Proof. by destruct s. Qed.

Lemma vm_run {A} (m : M A) (s : state F) a k : m (pages s) = Ok a k -> vm m s = Ok a (set_pages k s).
Proof. unfold vm, on. by intros ->. Qed.

Lemma fs_allows {A} (m : K F A) (Q : A -> state F -> Prop) s : allows E W (fun a f => Q a (set_files f s)) (m (files s)) -> allows E W Q (fs m s).
Proof. unfold fs, on, allows. by destruct (m (files s)). Qed.

Lemma inv_vstep pgdir pm pm' s l k l' : inv pgdir pm s -> space END (pages s) l pgdir pm -> owned (pages s) l pgdir pm ≡ₚ l0 ->
  vstep END pgdir (pages s) l pm k l' pm' -> inv pgdir pm' (set_pages k s).
Proof.
  intros [I1 I2 I3 I4 I5] Hs Ho [V1 V2 V3 V4]. split; try done.
  - exists l'. split; [done|]. by rewrite <- Ho.
  - intros x Hx. cbn. rewrite V3; [by apply I2|]. intros p. rewrite Ho. apply Hx.
  - intros va Hva. cbn. rewrite V4 by done. by apply I3.
Qed.

Lemma inv_files pgdir pm s f : inv pgdir pm s -> inv pgdir pm (set_files f s).
Proof. intros [I1 I2 I3 I4 I5]. by split. Qed.

Lemma released_files s f : released s -> released (set_files f s).
Proof. intros [I1 I2 I3 I4]. by split. Qed.

Lemma inv_freevm pgdir pm s : inv pgdir pm s -> exists k, freevm END pgdir (pages s) = Ok tt k /\ released (set_pages k s).
Proof.
  intros [(l & Hs & Ho) I2 I3 I4 I5]. destruct (freevm_ok END HEND (pages s) l pgdir pm Hs) as (k & l' & Ek & Hf & Hl & Hm).
  exists k. split; [done|]. split; try done.
  - exists l'. split; [done|]. by rewrite Hl.
  - intros x Hx. cbn. rewrite Hm; [by apply I2|]. intros p. rewrite Ho. apply Hx.
Qed.

Lemma inv_pgdir pgdir pm s : inv pgdir pm s -> pgdir <> 0.
Proof.
  intros [(l & Hs & _) _ _ _ _]. pose proof (owned_pages END _ _ _ _ Hs) as HF. rewrite Forall_forall in HF.
  assert (Hp : is_page END pgdir) by (apply HF, elem_owned; auto). pose proof (is_page_pos _ _ Hp). lia.
Qed.

(** The file system is idle and the process as it was. *)
Definition undone (r : Z) (s : state F) : Prop := r = -1 /\ released s /\ idle (files s).

Lemma unlock_end_ok ip (s : state F) (Q : state F -> Prop) : locked ip (files s) -> (forall f, idle f -> Q (set_files f s)) ->
  allows E W (fun _ => Q) ((fs (iunlockput ip) ;;; fs end_op) s).
Proof.
  intros Hl HQ. apply allows_bind, fs_allows. eapply allows_mono; [by apply iunlockput_ok|]. intros [] f Hf.
  apply fs_allows. eapply allows_mono; [by apply end_op_ok|]. intros [] f' Hf'. by apply (HQ f').
Qed.

Lemma fail_locked pgdir pm ip s : inv pgdir pm s -> locked ip (files s) -> allows E W undone (fail END pgdir (Some ip) s).
Proof.
  intros Hi Hl. unfold fail, cleanupexec. rewrite (proj2 (Z.eqb_neq _ _) (inv_pgdir _ _ _ Hi)). cbn [negb].
  destruct (inv_freevm _ _ _ Hi) as (k & Ek & Hr). rewrite !kbind_assoc, (kbind_ok _ _ _ _ _ (vm_run _ _ _ _ Ek)).
  apply allows_bind. eapply allows_mono; [apply (unlock_end_ok ip (set_pages k s) (fun s => released s /\ idle (files s)) Hl)|].
  - intros f Hf. split; [by apply released_files|done].
  - intros [] s' [? ?]. done.
Qed.

Lemma fail_early ip s : released s -> locked ip (files s) -> allows E W undone (fail END 0 (Some ip) s).
Proof.
  intros Hr Hl. unfold fail, cleanupexec. cbn [Z.eqb negb]. apply allows_bind.
  change (allows E W (fun _ s' => allows E W undone (kret (-1) s')) ((fs (iunlockput ip) ;;; fs end_op) s)).
  eapply allows_mono; [apply (unlock_end_ok ip _ (fun s => released s /\ idle (files s)) Hl)|].
  - intros f Hf. split; [by apply released_files|done].
  - intros [] s' [? ?]. done.
Qed.

Lemma fail_late pgdir pm s : inv pgdir pm s -> idle (files s) -> allows E W undone (fail END pgdir None s).
Proof.
  intros Hi Hl. unfold fail, cleanupexec. rewrite (proj2 (Z.eqb_neq _ _) (inv_pgdir _ _ _ Hi)). cbn [negb].
  destruct (inv_freevm _ _ _ Hi) as (k & Ek & Hr). rewrite !kbind_assoc, (kbind_ok _ _ _ _ _ (vm_run _ _ _ _ Ek)). done.
Qed.
(** ** loaduvm *)

(** A page of the file goes to the page of [va]. *)
Lemma read_page pgdir pm ip s j e off n : inv pgdir pm s -> locked ip (files s) -> pm !! j = Some e -> is_u32 off -> 0 <= n <= PGSIZE ->
  allows E W (fun r s' => inv pgdir pm s' /\ locked ip (files s') /\
    forall c, content ip c (files s) -> content ip c (files s') /\ Forall is_byte c /\ Z.of_nat (length c) < 2 ^ 31 /\
      (r = n <-> off + n <= Z.of_nat (length c)) /\
      (r = n -> forall a, view (k_mem (pages s')) pm a =
         if decide (PGSIZE * j <= a < PGSIZE * j + n) then byte_of c (off + (a - PGSIZE * j)) else view (k_mem (pages s)) pm a))
    (readi_to ip (table e) off n s).
Proof.
  intros Hi Hl Hj Hoff Hn. unfold readi_to. apply allows_bind, fs_allows.
  eapply allows_mono; [apply readi_ok; [done|done|unfold PGSIZE in *; lia]|]. intros [r bs] f (Hl' & Hlen & Hc).
  destruct (in_space _ _ _ Hi) as (l & Hs & Ho). destruct (put_bytes_ok (table e) bs (pages s)) as (m' & Em & Hm).
  rewrite (kbind_ok _ _ _ _ _ (vm_run (put_bytes (table e) bs) (set_files f s) _ _ Em)). cbn [allows kret].
  destruct (write_page END (pages s) l pgdir pm j e 0 (Z.of_nat (length bs)) (byte_of bs) m' Hs Hj) as [V Hv]; try lia.
  { intros k. apply byte_of_byte. }
  { intros x. rewrite Hm, Z.add_0_r. done. }
  split; [|split; [done|]].
  { apply inv_files with (f := f) in Hi. apply (inv_vstep pgdir pm pm (set_files f s) l _ l Hi Hs Ho V). }
  intros c Hcc. destruct (Hc c Hcc) as (Hc' & Hb & Hlc & Hr & Hbs). split; [done|]. split; [done|]. split; [done|]. split; [done|].
  intros Hrn a. cbn. rewrite Hv, Z.add_0_r. specialize (Hbs Hrn). apply Hr in Hrn as Hin.
  assert (Hln : Z.of_nat (length bs) = n).
  { rewrite Hbs. unfold slice. rewrite length_take, length_drop. unfold is_u32 in *. lia. }
  rewrite Hln. case_decide as Ha; [|done]. unfold byte_of. rewrite Hbs. unfold slice.
  rewrite lookup_take_lt, lookup_drop by lia. do 3 f_equal. unfold is_u32 in *. lia.
Qed.

Lemma loaduvm_loop_ok fuel pgdir pm ip addr off i fsz s :
  inv pgdir pm s -> locked ip (files s) -> 0 <= i -> i mod PGSIZE = 0 -> addr mod PGSIZE = 0 -> 0 <= addr -> 0 <= fsz -> addr + fsz <= KERNBASE ->
  (forall a, addr <= a < addr + fsz -> is_Some (pm !! (a / PGSIZE))) -> 0 < Z.of_nat fuel -> fsz - i <= PGSIZE * (Z.of_nat fuel - 1) ->
  allows E W (fun r s' => inv pgdir pm s' /\ locked ip (files s') /\ (r = 0 \/ r = -1 /\ i < fsz) /\
    forall c, content ip c (files s) -> content ip c (files s') /\ (0 <= off + i < 2 ^ 32 ->
      (i < fsz -> r = 0 <-> off + fsz <= Z.of_nat (length c)) /\
      (r = 0 -> forall a, view (k_mem (pages s')) pm a =
         if decide (addr + i <= a < addr + fsz) then byte_of c (off + (a - addr)) else view (k_mem (pages s)) pm a)))
    (loaduvm_loop (@vm F) (readi_to ip) fuel pgdir addr off i fsz s).
Proof.
  revert i s. induction fuel as [|fuel IH]; intros i s Hi Hl H0 Hmi Hma Ha Hf Hend Hall Hfu Hfuel; [lia|]. cbn [loaduvm_loop].
  destruct (Z.ltb_spec i fsz) as [Hlt|Hge].
  2:{ split; [done|]. split; [done|]. split; [by left|]. intros c Hc. split; [done|]. intros _. split; [lia|]. intros _ a. by rewrite decide_False by lia. }
  destruct (Hall (addr + i)) as [e He]; [lia|]. set (j := (addr + i) / PGSIZE) in *.
  assert (Hj : addr + i = PGSIZE * j) by (unfold j; clear -Hmi Hma; unfold PGSIZE in *; Z.div_mod_to_equations; lia).
  destruct (in_space _ _ _ Hi) as (l & Hs & Ho). destruct (entry_slot END (pages s) l pgdir pm j e Hs He) as (Hu & _ & Ew & Hne & Hload & _).
  cbv zeta in Ew, Hne, Hload. rewrite <- Hj in Hu, Ew, Hne, Hload. rewrite (u32_small (addr + i) Hu).
  rewrite (kbind_ok _ _ _ _ _ (vm_run _ _ _ _ Ew)), (proj2 (Z.eqb_neq _ _) Hne).
  assert (El : load (table (pde (k_mem (pages s)) pgdir (PDX (addr + i))) + 4 * PTX (addr + i)) (pages s) = Ok e (pages s)).
  { unfold load, gets. by rewrite Hload. }
  change (set_pages (pages s) s) with (set_pages (pages s) s). rewrite (kbind_ok _ _ _ _ _ (vm_run _ (set_pages (pages s) s) _ _ El)). cbv zeta.
  change (P2V (PTE_ADDR e)) with (table e). set (s1 := set_pages (pages s) (set_pages (pages s) s)).
  assert (Hi1 : inv pgdir pm s1) by (destruct Hi; by split).
  assert (Hu2 : u32 (fsz - i) = fsz - i) by (apply u32_small; unfold is_u32, KERNBASE in *; lia). rewrite Hu2.
  set (n := if fsz - i <? PGSIZE then fsz - i else PGSIZE).
  assert (Hn : 0 < n <= PGSIZE /\ (i + PGSIZE < fsz -> n = PGSIZE) /\ (fsz <= i + PGSIZE -> n = fsz - i)).
  { unfold n. unfold PGSIZE in *. destruct (Z.ltb_spec (fsz - i) 4096); lia. }
  clearbody n. apply allows_bind. eapply allows_mono; [apply (read_page pgdir pm ip s1 j e (u32 (off + i)) n); try done; [apply u32_range|lia]|].
  intros r s2 (Hi2 & Hl2 & Hc2). destruct (Z.eqb_spec r n) as [Hrn|Hrn]; cbn [negb].
  2:{ split; [done|]. split; [done|]. split; [by right|]. intros c Hc. destruct (Hc2 c Hc) as (Hc' & _ & Hlc & Hr & _). split; [done|].
      intros Ho32. split; [|lia]. intros _. split; [lia|]. intros Hle. exfalso. apply Hrn, Hr. rewrite u32_small by (unfold is_u32; lia). lia. }
  assert (Hnext : u32 (i + PGSIZE) = i + PGSIZE) by (apply u32_small; unfold is_u32, KERNBASE, PGSIZE in *; lia). rewrite Hnext.
  eapply allows_mono; [apply (IH (i + PGSIZE) s2); try done; try (unfold PGSIZE in *; lia)|].
  { clear -Hmi. unfold PGSIZE in *. Z.div_mod_to_equations. lia. }
  intros r' s' (Hi' & Hl' & Hr' & Hc'). split; [done|]. split; [done|]. split; [destruct Hr' as [?|[? ?]]; [by left|right; unfold PGSIZE in *; lia]|].
  intros c Hc. destruct (Hc2 c Hc) as (Hcc & _ & Hlc & Hr & Hv). destruct (Hc' c Hcc) as (Hcc' & Hrest). split; [done|]. intros Ho32.
  rewrite u32_small in Hr, Hv by (unfold is_u32; lia). apply Hr in Hrn as Hin. destruct Hrest as [Hiff Hview]; [unfold PGSIZE in *; lia|]. split.
  - intros _. destruct (Z.lt_ge_cases (i + PGSIZE) fsz) as [Hm|Hm]; [by apply Hiff|]. split; [lia|]. intros _. destruct Hr' as [?|[? ?]]; [done|lia].
  - intros Hr0 a. rewrite Hview, (Hv Hrn) by done. rewrite <- Hj. change (k_mem (pages s1)) with (k_mem (pages s)).
    destruct (decide (addr + (i + PGSIZE) <= a < addr + fsz)); [by rewrite decide_True by (unfold PGSIZE in *; lia)|].
    destruct (decide (addr + i <= a < addr + i + n)).
    + rewrite decide_True by lia. f_equal. lia.
    + rewrite decide_False; [done|]. destruct (Z.lt_ge_cases (i + PGSIZE) fsz); lia.
Qed.
(** ** The program headers *)

(** allocuvm to any size, from a space full up to [sz]: it has the new size,
    or the old one if that is larger, or the call answers 0. *)
Lemma alloc_step pgdir pm s sz newsz img : inv pgdir pm s -> full sz pm -> users pm -> 0 <= sz <= KERNBASE -> 0 <= newsz ->
  (forall a, view (k_mem (pages s)) pm a = img a) ->
  exists r k pm', vm (allocuvm END pgdir sz newsz) s = Ok r (set_pages k s) /\ inv pgdir pm' (set_pages k s) /\ users pm' /\
    (forall a, view (k_mem k) pm' a = img a) /\
    (r = Z.max sz newsz /\ newsz < KERNBASE /\ full r pm' \/
     r = 0 /\ (KERNBASE <= newsz \/ sz <= newsz /\ Z.of_nat (length l0) <= needed newsz + 1)).
Proof.
  intros Hi Hf Hu Hsz Hn Hv. destruct (in_space _ _ _ Hi) as (l & Hs & Ho).
  assert (Hsame : inv pgdir pm (set_pages (pages s) s)) by (destruct Hi; by split).
  destruct (Z.lt_ge_cases newsz KERNBASE) as [Hk|Hk]; [destruct (Z.lt_ge_cases newsz sz) as [Hlt|Hge]|].
  - exists sz, (pages s), pm. split; [|split; [done|split; [done|split; [done|left; split; [lia|done]]]]].
    apply vm_run. unfold allocuvm. by rewrite Z.geb_leb, (proj2 (Z.leb_gt _ _)), (proj2 (Z.ltb_lt _ _)) by lia.
  - destruct (allocuvm_ok END HEND (pages s) l pgdir pm sz newsz Hs Hf ltac:(lia) Hk) as (r & k & l' & pm' & Ek & V & K & Hr).
    exists r, k, pm'. split; [by apply vm_run|]. split; [by apply (inv_vstep pgdir pm pm' s l k l')|].
    destruct Hr as [(-> & Hf' & Hg)|(-> & -> & Hlen)].
    + split; [by eapply grown_users|]. split; [|left; split; [lia|done]]. intros a. rewrite <- Hv. eapply grown_view; try done; lia.
    + split; [done|]. split; [intros a; rewrite <- Hv; by apply keeps_view|]. right. split; [done|]. right. split; [done|]. by rewrite <- Ho.
  - exists 0, (pages s), pm. split; [|split; [done|split; [done|split; [done|right; split; [done|by left]]]]].
    apply vm_run. unfold allocuvm. by rewrite Z.geb_leb, (proj2 (Z.leb_le _ _)) by lia.
Qed.

(** What the loop over the headers makes of the space. *)
Definition loaded (n : nat) (ip : nat) (pgdir off sz : Z) (img : Z -> Z) (s : state F) (r : option Z) (s' : state F) : Prop :=
  locked ip (files s') /\ exists pm', inv pgdir pm' s' /\ users pm' /\
    (forall sz', r = Some sz' -> full sz' pm' /\ sz <= sz' < KERNBASE) /\
    (forall c, content ip c (files s) ->
      match r with
      | Some sz' => exists img', segments c n off sz img = Some (sz', img') /\ forall a, view (k_mem (pages s')) pm' a = img' a
      | None => forall sz' img', segments c n off sz img = Some (sz', img') -> Z.of_nat (length l0) <= needed sz' + 1
      end).

Lemma needed_mono a b : a <= b -> needed a <= needed b.
Proof. clear. intros Hab. unfold needed, PGSIZE. Z.div_mod_to_equations. lia. Qed.

Lemma loaded_step n ip pgdir off sz img s off' sz1 img1 s1 r s' :
  loaded n ip pgdir off' sz1 img1 s1 r s' -> sz <= sz1 ->
  (forall c, content ip c (files s) -> content ip c (files s1) /\
     exists img2, (forall a, img1 a = img2 a) /\ segments c (S n) off sz img = segments c n off' sz1 img2) ->
  loaded (S n) ip pgdir off sz img s r s'.
Proof.
  intros (Hl & pm' & Hi & Hu & Hr & Hc) Hsz Hseg. split; [done|]. exists pm'. split; [done|]. split; [done|]. split.
  - intros sz' E'. destruct (Hr sz' E'). split; [done|lia].
  - intros c Hcc. destruct (Hseg c Hcc) as (Hc1 & img2 & Hext & Es). specialize (Hc c Hc1). rewrite Es.
    pose proof (segments_ext c n off' sz1 img1 img2 Hext) as Hx. destruct r as [sz'|].
    + destruct Hc as (img' & E' & Hv). rewrite E' in Hx. destruct (segments c n off' sz1 img2) as [[sz2 r2]|]; [|done]. destruct Hx as [<- Hx].
      exists r2. split; [done|]. intros a. by rewrite Hv.
    + intros sz' img' E'. rewrite E' in Hx. destruct (segments c n off' sz1 img1) as [[sz2 r2]|] eqn:E1; [|done]. destruct Hx as [-> _]. by apply (Hc _ r2).
Qed.

Lemma loaded_none n ip pgdir pm' off sz img s s' : locked ip (files s') -> inv pgdir pm' s' -> users pm' ->
  (forall c, content ip c (files s) -> forall sz' img', segments c (S n) off sz img = Some (sz', img') -> Z.of_nat (length l0) <= needed sz' + 1) ->
  loaded (S n) ip pgdir off sz img s None s'.
Proof. intros Hl Hi Hu Hc. split; [done|]. exists pm'. split_and!; done. Qed.

(** The header read at [off], when the contents of the file are known. *)
Lemma header_read c off n r b : reads c off n r b -> 0 <= off ->
  (r = n -> off + n <= Z.of_nat (length c) < 2 ^ 31 /\ map u8 b = slice c off n) /\
  (r <> n -> Z.of_nat (length c) < off + n).
Proof.
  intros (Hb & Hl & Hr & Hbs) H0. split; [|intros Hne; destruct (Z.lt_ge_cases (Z.of_nat (length c)) (off + n)); [done|exfalso; apply Hne, Hr; lia]].
  intros E'. split; [split; [by apply Hr|done]|]. rewrite (Hbs E'). apply map_u8_bytes. unfold slice. by apply Forall_take, Forall_drop.
Qed.

Lemma load_segments_ok n ip pgdir off sz pm s img :
  inv pgdir pm s -> locked ip (files s) -> full sz pm -> users pm -> 0 <= sz < KERNBASE -> is_u32 off ->
  (forall a, view (k_mem (pages s)) pm a = img a) ->
  allows E W (loaded n ip pgdir off sz img s) (load_segments END n ip pgdir off sz s).
Proof.
  revert off sz pm s img. induction n as [|n IH]; intros off sz pm s img Hi Hl Hf Hu Hsz Hoff Hv; cbn [load_segments].
  { split; [done|]. exists pm. split; [done|]. split; [done|]. split; [intros sz' [= <-]; split; [done|lia]|]. intros c _. by exists img. }
  apply allows_bind, fs_allows. eapply allows_mono; [apply readi_ok; [done|done|unfold PROGHDR; lia]|]. intros [r b] f (Hl1 & _ & Hc).
  set (s1 := set_files f s). assert (Hi1 : inv pgdir pm s1) by (by apply inv_files).
  assert (Hread : forall c, content ip c (files s) -> content ip c f /\ (r = PROGHDR -> off + PROGHDR <= Z.of_nat (length c) < 2 ^ 31 /\ map u8 b = slice c off PROGHDR) /\ (r <> PROGHDR -> Z.of_nat (length c) < off + PROGHDR)).
  { intros c Hcc. destruct (Hc c Hcc) as [? Hrd]. split; [done|]. apply header_read; [done|unfold is_u32 in *; lia]. }
  clear Hc. destruct (Z.eqb_spec r PROGHDR) as [Hr|Hr]; cbn [negb].
  2:{ apply (loaded_none _ _ _ pm); try done. intros c Hcc. destruct (Hread c Hcc) as (_ & _ & Hlt). cbn [segments]. by rewrite (proj2 (Z.ltb_lt _ _)) by auto. }
  cbv zeta. set (ph := read_proghdr (map u8 b)).
  assert (Hseg : forall c, content ip c (files s) -> content ip c f /\ Z.of_nat (length c) <? off + PROGHDR = false /\
    u32 (off + PROGHDR) = off + PROGHDR /\ read_proghdr (slice c off PROGHDR) = ph).
  { intros c Hcc. destruct (Hread c Hcc) as (? & Hin & _). destruct (Hin Hr) as [Hle Hb]. unfold PROGHDR, is_u32 in *. split_and!; [done|apply Z.ltb_ge; lia|apply u32_small; unfold is_u32; lia|]. by rewrite <- Hb. }
  clear Hread. assert (Hnext : is_u32 (u32 (off + PROGHDR))) by apply u32_range.
  destruct (Z.eqb_spec (p_type ph) ELF_PROG_LOAD) as [Ht|Ht]; cbn [negb].
  2:{ eapply allows_mono; [by apply (IH _ sz pm s1 img)|]. intros r' s' Hld. eapply loaded_step; [exact Hld|lia|].
      intros c Hcc. destruct (Hseg c Hcc) as (? & E1 & E2 & E3). split; [done|]. exists img. split; [done|]. rewrite E2. cbn [segments]. rewrite E1. cbv zeta. rewrite E3.
      by rewrite (proj2 (Z.eqb_neq _ _) Ht). }
  assert (Hrange : is_u32 (p_vaddr ph) /\ is_u32 (p_memsz ph) /\ is_u32 (p_filesz ph) /\ is_u32 (p_off ph)) by (split_and!; apply get32_u8).
  destruct Hrange as (Rv & Rm & Rf & Ro). 
  assert (Heq : forall c, content ip c (files s) -> segments c (S n) off sz img =
    if (p_memsz ph <? p_filesz ph) || (KERNBASE <=? p_vaddr ph + p_memsz ph) then None
    else let sz := Z.max sz (p_vaddr ph + p_memsz ph) in
      if (sz =? 0) || negb (p_vaddr ph mod PGSIZE =? 0) then None
      else if (0 <? p_filesz ph) && (Z.of_nat (length c) <? p_off ph + p_filesz ph) then None
      else segments c n (u32 (off + PROGHDR)) sz (overlay img (p_vaddr ph) (p_filesz ph) c (p_off ph))).
  { intros c Hcc. destruct (Hseg c Hcc) as (_ & E1 & E2 & E3). cbn [segments]. rewrite E1, E2. cbv zeta. rewrite E3, (proj2 (Z.eqb_eq _ _) Ht). done. }
  assert (Hcont : forall c, content ip c (files s) -> content ip c f) by (intros c Hcc; by apply Hseg). clear Hseg.
  destruct (Z.ltb_spec (p_memsz ph) (p_filesz ph)) as [Hmf|Hmf].
  { apply (loaded_none _ _ _ pm); try done. intros c Hcc sz' img'. by rewrite (Heq c Hcc). }
  destruct (Z.ltb_spec (u32 (p_vaddr ph + p_memsz ph)) (p_vaddr ph)) as [Hw|Hw].
  { apply (loaded_none _ _ _ pm); try done. intros c Hcc sz' img'. rewrite (Heq c Hcc). cbn [orb].
    destruct (Z.leb_spec KERNBASE (p_vaddr ph + p_memsz ph)); [done|]. rewrite u32_small in Hw by (unfold is_u32, KERNBASE in *; lia). unfold is_u32 in *. lia. }
  assert (Hsum : u32 (p_vaddr ph + p_memsz ph) = p_vaddr ph + p_memsz ph).
  { apply u32_small. unfold is_u32 in *. unfold u32 in Hw. split; [lia|]. destruct (Z.lt_ge_cases (p_vaddr ph + p_memsz ph) (2 ^ 32)); [done|].
    exfalso. replace (p_vaddr ph + p_memsz ph) with (p_vaddr ph + p_memsz ph - 2 ^ 32 + 1 * 2 ^ 32) in Hw by lia. rewrite Z.mod_add, Z.mod_small in Hw; lia. }
  rewrite Hsum. destruct (alloc_step pgdir pm s1 sz (p_vaddr ph + p_memsz ph) img Hi1 Hf Hu ltac:(lia) ltac:(unfold is_u32 in *; lia) Hv)
    as (v & k & pm1 & Ev & Hi2 & Hu2 & Hv2 & Hres). rewrite (kbind_ok _ _ _ _ _ Ev). set (s2 := set_pages k s1) in *.
  destruct (Z.eqb_spec v 0) as [Hv0|Hv0].
  { apply (loaded_none _ _ _ pm1); try done. intros c Hcc sz' img'. rewrite (Heq c Hcc). cbn [orb].
    destruct (Z.leb_spec KERNBASE (p_vaddr ph + p_memsz ph)) as [Hk|Hk]; [done|]. cbv zeta. destruct Hres as [(-> & _ & _)|(_ & [Hk'|[Hge Hlen]])]; [|lia|].
    - by rewrite (proj2 (Z.eqb_eq _ _) Hv0).
    - rewrite Z.max_r by done. repeat (case_match; try done). intros Es. apply segments_mono in Es. pose proof (needed_mono _ _ Es). lia. }
  destruct Hres as [(Hvs & Hk & Hf2)|(? & _)]; [|done]. subst v. set (sz1 := Z.max sz (p_vaddr ph + p_memsz ph)) in *.
  assert (Heq2 : forall c, content ip c (files s) -> segments c (S n) off sz img =
      if negb (p_vaddr ph mod PGSIZE =? 0) then None
      else if (0 <? p_filesz ph) && (Z.of_nat (length c) <? p_off ph + p_filesz ph) then None
      else segments c n (u32 (off + PROGHDR)) sz1 (overlay img (p_vaddr ph) (p_filesz ph) c (p_off ph))).
  { intros c Hcc. rewrite (Heq c Hcc), (proj2 (Z.leb_gt _ _) Hk). cbn [orb]. cbv zeta. fold sz1. by rewrite (proj2 (Z.eqb_neq _ _) Hv0). }
  clear Heq. destruct (Z.eqb_spec (p_vaddr ph mod PGSIZE) 0) as [Hal|Hal]; cbn [negb] in Heq2 |- *.
  2:{ apply (loaded_none _ _ _ pm1); try done. intros c Hcc sz' img'. by rewrite (Heq2 c Hcc). }
  apply allows_bind. unfold loaduvm. rewrite (proj2 (Z.eqb_eq _ _) Hal). cbn [negb].
  eapply allows_mono; [apply (loaduvm_loop_ok _ pgdir pm1 ip (p_vaddr ph) (p_off ph) 0 (p_filesz ph) s2); try done; try (unfold is_u32 in *; lia)|].
  { intros a Ha. apply Hf2. unfold is_u32, PGSIZE in *. Z.div_mod_to_equations. lia. }
  { unfold is_u32, PGSIZE in *. Z.div_mod_to_equations. lia. }
  intros v s3 (Hi3 & Hl3 & Hv3 & Hc3).
  destruct Hv3 as [->|[-> Hpos]]; cbn [Z.ltb Z.compare].
  - eapply allows_mono; [apply (IH (u32 (off + PROGHDR)) sz1 pm1 s3 (view (k_mem (pages s3)) pm1)); try done; unfold is_u32 in *; lia|].
    intros r' s' Hld. eapply loaded_step; [exact Hld|lia|]. intros c Hcc. destruct (Hc3 c (Hcont c Hcc)) as (Hcc3 & Hrest).
    split; [done|]. destruct Hrest as [Hiff Hview]; [unfold is_u32 in *; lia|].
    exists (overlay img (p_vaddr ph) (p_filesz ph) c (p_off ph)). split.
    + intros a. rewrite Hview by done. unfold overlay. rewrite Z.add_0_r. case_decide; [done|]. apply Hv2.
    + rewrite (Heq2 c Hcc). destruct (Z.ltb_spec 0 (p_filesz ph)) as [Hp|Hp]; cbn [andb]; [|done].
      rewrite (proj2 (Z.ltb_ge _ _)); [done|]. by apply Hiff.
  - apply (loaded_none _ _ _ pm1); try done. intros c Hcc sz' img'. destruct (Hc3 c (Hcont c Hcc)) as (_ & Hrest).
    destruct Hrest as [Hiff _]; [unfold is_u32 in *; lia|]. rewrite (Heq2 c Hcc), (proj2 (Z.ltb_lt _ _) Hpos). cbn [andb].
    destruct (Z.ltb_spec (Z.of_nat (length c)) (p_off ph + p_filesz ph)) as [?|Hle]; [done|]. apply Hiff in Hle; [done|lia].
Qed.
(** ** The argument strings *)

Lemma stack_page top pm a : stack_space top pm -> 0 <= a < top -> is_Some (pm !! (a / PGSIZE)).
Proof. intros Hst Ha. apply (st_full _ _ Hst). unfold PGSIZE. Z.div_mod_to_equations. lia. Qed.

(** The bytes of a non-empty buffer are copied below [top]. *)
Lemma stack_copy pgdir pm top sp buf s : inv pgdir pm s -> stack_space top pm -> 0 <= sp -> sp + Z.of_nat (length buf) <= top ->
  exists r k, vm (copyout_bytes pgdir sp buf) s = Ok r (set_pages k s) /\ inv pgdir pm (set_pages k s) /\
    (r = 0 /\ (forall a, sp <= a < sp + Z.of_nat (length buf) -> user_pte pm (a / PGSIZE) = true) /\
       (forall a, view (k_mem k) pm a = if decide (sp <= a < sp + Z.of_nat (length buf)) then byte_of buf (a - sp) else view (k_mem (pages s)) pm a) \/
     r = -1 /\ sp < top - PGSIZE).
Proof.
  intros Hi Hst H0 Htop. destruct (in_space _ _ _ Hi) as (l & Hs & Ho). destruct (st_top _ _ Hst) as [Hal Hr].
  destruct (copyout_pages END (byte_of buf) (Z.of_nat (length buf)) (move_bytes buf) (Z.to_nat (Z.of_nat (length buf) / PGSIZE) + 3)
    (pages s) l pgdir pm sp 0 (Z.of_nat (length buf)) Hs (moves_bytes buf)) as (r & k & Ek & V & Hres); try lia.
  { intros j. apply byte_of_byte. }
  { intros a Ha. apply (stack_page top); [done|lia]. }
  { clear. unfold PGSIZE. Z.div_mod_to_equations. lia. }
  exists r, k. split; [by apply vm_run|]. split; [by apply (inv_vstep pgdir pm pm s l k l)|].
  destruct Hres as [(-> & HU & Hv)|(-> & a & Ha & HUa)]; [left; by split_and!|right; split; [done|]].
  destruct (stack_page top pm a Hst) as [e He]; [lia|]. unfold user_pte in HUa. rewrite He in HUa.
  destruct (decide (a / PGSIZE = top / PGSIZE - 2)) as [Hg|Hg].
  - clear -Ha Hg Hal. unfold PGSIZE in *. Z.div_mod_to_equations. lia.
  - by rewrite (st_user _ _ Hst _ e He Hg) in HUa.
Qed.

(** A copy that succeeded and reaches the guard page lies above it. *)
Lemma above_guard pm top sp len : stack_space top pm -> 0 <= sp -> 0 < len -> top - 2 * PGSIZE < sp + len ->
  (forall a, sp <= a < sp + len -> user_pte pm (a / PGSIZE) = true) -> top - PGSIZE <= sp.
Proof.
  intros Hst H0 Hpos Hlen HU. destruct (Z.le_gt_cases (top - PGSIZE) sp) as [?|Hlt]; [done|]. exfalso.
  destruct (st_top _ _ Hst) as [Hal Hr]. set (a := Z.min (sp + len - 1) (top - PGSIZE - 1)).
  specialize (HU a ltac:(lia)). replace (a / PGSIZE) with (top / PGSIZE - 2) in HU.
  - by rewrite (st_guard _ _ Hst) in HU.
  - assert (top - 2 * PGSIZE <= a < top - PGSIZE) as Ha by (unfold a, PGSIZE in *; lia). clear -Hal Ha. unfold PGSIZE in *. Z.div_mod_to_equations. lia.
Qed.

(** A stack pointer that has passed 0 is an address of the device region,
    which is the kernel's. *)
Lemma device_pte sp : DEVSPACE <= sp < 2 ^ 32 -> has (kernel_pte DATA sp) PTE_P = true /\ has (kernel_pte DATA sp) PTE_U = false.
Proof.
  intros Hsp. unfold kernel_pte, region_pte, kmap. cbn [map region List.find inside]. destruct HDATA as [_ HD].
  assert (Hv : V2P DATA = DATA - KERNBASE) by (unfold V2P; apply u32_small; unfold is_u32, KERNLINK, KERNBASE, EXTMEM, PHYSTOP in *; lia).
  assert (S1 : u32 (V2P DATA - V2P KERNLINK) = DATA - KERNLINK).
  { rewrite Hv. change (V2P KERNLINK) with EXTMEM. rewrite u32_small; unfold is_u32, KERNLINK, KERNBASE, EXTMEM, PHYSTOP in *; lia. }
  assert (S2 : u32 (PHYSTOP - V2P DATA) = KERNBASE + PHYSTOP - DATA).
  { rewrite Hv. rewrite u32_small; unfold is_u32, KERNLINK, KERNBASE, EXTMEM, PHYSTOP in *; lia. }
  rewrite S1, S2. change (u32 (EXTMEM - 0)) with EXTMEM. change (u32 (0 - DEVSPACE)) with 0x2000000.
  unfold KERNLINK, KERNBASE, EXTMEM, PHYSTOP, DEVSPACE in *.
  destruct (Z.ltb_spec sp (2147483648 + 1048576)); [lia|]. rewrite andb_false_r.
  destruct (Z.ltb_spec sp (2147483648 + 1048576 + (DATA - (2147483648 + 1048576)))); [lia|]. rewrite andb_false_r.
  destruct (Z.ltb_spec sp (DATA + (2147483648 + 234881024 - DATA))); [lia|]. rewrite andb_false_r.
  rewrite (proj2 (Z.leb_le _ _)), (proj2 (Z.ltb_lt _ _)) by lia. cbn [andb].
  set (pa := u32 (_ + _)). assert (Hpa : pa mod PGSIZE = 0 /\ is_u32 pa).
  { unfold pa. rewrite PGROUNDDOWN_div. rewrite u32_small; unfold is_u32, PGSIZE; clear -Hsp; Z.div_mod_to_equations; lia. }
  destruct Hpa as [Ha Hpu]. rewrite <- Z.lor_assoc. change (Z.lor PTE_W PTE_P) with 3. rewrite lor_low by (done || unfold PGSIZE; lia).
  rewrite u32_small by (unfold is_u32, PGSIZE in *; clear -Ha Hpu; Z.div_mod_to_equations; lia).
  split; rewrite has_low by (done || unfold PGSIZE, PTE_P, PTE_U; lia); done.
Qed.

Lemma wrapped_refused pgdir pm sp buf s : inv pgdir pm s -> DEVSPACE <= sp < 2 ^ 32 -> buf <> [] ->
  vm (copyout_bytes pgdir sp buf) s = Ok (-1) (set_pages (pages s) s).
Proof.
  intros Hi Hsp Hb. destruct (in_space _ _ _ Hi) as (l & Hs & Ho). apply vm_run.
  assert (Hu : is_u32 sp) by (unfold is_u32, DEVSPACE in *; lia).
  pose proof (in_kernel _ _ _ Hi sp ltac:(unfold KERNBASE, DEVSPACE in *; lia)) as He.
  destruct (device_pte sp Hsp) as [Hp HU]. rewrite <- He in Hp, HU. apply (copyout_refused END _ (pages s) l pgdir pm); try done.
  - destruct buf; [done|cbn; lia].
  - unfold entry in Hp. by destruct (has (pde (k_mem (pages s)) pgdir (PDX sp)) PTE_P).
  - by right.
Qed.
(** One string is pushed, or the rest of the stack does not hold it. *)
Lemma push_arg pgdir pm top sp arg s : let sp1 := Z.land (u32 (sp - (Z.of_nat (length arg) + 1))) (Z.lnot 3) in
  inv pgdir pm s -> stack_space top pm -> top - PGSIZE <= sp <= top -> sp mod 4 = 0 -> Z.of_nat (length arg) < 2 ^ 25 ->
  exists r k, vm (copyout_bytes pgdir sp1 (arg ++ [0])) s = Ok r (set_pages k s) /\ inv pgdir pm (set_pages k s) /\
    (r = 0 /\ sp1 = 4 * ((sp - (Z.of_nat (length arg) + 1)) / 4) /\ top - PGSIZE <= sp1 /\ sp1 + (Z.of_nat (length arg) + 1) <= sp /\
       (forall a, view (k_mem k) pm a =
          if decide (sp1 <= a < sp1 + (Z.of_nat (length arg) + 1)) then byte_of (arg ++ [0]) (a - sp1) else view (k_mem (pages s)) pm a) \/
     r = -1 /\ 4 * ((sp - (Z.of_nat (length arg) + 1)) / 4) < top - PGSIZE).
Proof.
  cbv zeta. intros Hi Hst Hsp H4 Hlen. destruct (st_top _ _ Hst) as [_ Ht]. rewrite land_not3.
  assert (Hbuf : Z.of_nat (length (arg ++ [0])) = Z.of_nat (length arg) + 1) by (rewrite length_app; cbn; lia).
  set (L := Z.of_nat (length arg) + 1) in *. assert (HL : 0 < L <= 2 ^ 25) by (unfold L; lia). clearbody L.
  pose proof (Z.mul_div_le (sp - L) 4 ltac:(lia)) as Hd. unfold KERNBASE, PGSIZE in Ht.
  destruct (Z.lt_ge_cases (sp - L) 0) as [Hneg|Hpos].
  - assert (Eu : u32 (sp - L) = sp - L + 2 ^ 32).
    { unfold u32. rewrite <- (Z.mod_add _ 1) by lia. apply Z.mod_small. unfold PGSIZE in *. lia. }
    rewrite Eu. exists (-1), (pages s). split; [|split; [|right; split; [done|unfold PGSIZE in *; lia]]].
    + apply (wrapped_refused pgdir pm); [done| |by destruct arg].
      unfold DEVSPACE. clear -Hneg Hsp Ht HL. unfold PGSIZE in *. Z.div_mod_to_equations. lia.
    + destruct Hi. by split.
  - rewrite u32_small by (unfold is_u32, PGSIZE in *; lia). assert (H1 : 0 <= 4 * ((sp - L) / 4)) by (clear -Hpos; Z.div_mod_to_equations; lia).
    assert (H2 : sp - 4 < 4 * ((sp - L) / 4) + L) by (clear; Z.div_mod_to_equations; lia). set (sp1 := 4 * ((sp - L) / 4)) in *.
    destruct (stack_copy pgdir pm top sp1 (arg ++ [0]) s Hi Hst H1 ltac:(lia)) as (r & k & Ek & Hi' & Hr).
    exists r, k. split; [done|]. split; [done|]. rewrite Hbuf in Hr. destruct Hr as [(-> & HU & Hv)|(-> & Hlt)]; [left|by right].
    split; [done|]. split; [done|]. split; [|split; [lia|done]].
    apply (above_guard pm top sp1 L); try done; unfold PGSIZE in *; lia.
Qed.

Lemma layout_mod sp argv : sp mod 4 = 0 -> snd (layout sp argv) mod 4 = 0.
Proof.
  revert sp. induction argv as [|arg argv IH]; intros sp H4; cbn [layout]; [done|].
  specialize (IH (4 * ((sp - (Z.of_nat (length arg) + 1)) / 4))). destruct (layout _ argv) as [l r]. cbn [snd] in *. apply IH.
  rewrite Z.mul_comm. by apply Z.mod_mul.
Qed.

Lemma push_args_ok pgdir pm top argv argc sp s :
  inv pgdir pm s -> stack_space top pm -> top - PGSIZE <= sp <= top -> sp mod 4 = 0 -> Forall (fun arg => Z.of_nat (length arg) < 2 ^ 25) argv ->
  exists r k, push_args pgdir argv argc sp s = Ok r (set_pages k s) /\ inv pgdir pm (set_pages k s) /\
    match r with
    | Some (sp', ptrs) =>
        layout sp argv = (ptrs, sp') /\ top - PGSIZE <= sp' /\ (argv = [] \/ argc + Z.of_nat (length argv) <= MAXARG) /\
        strings_at (view (k_mem k) pm) sp' sp ptrs argv /\
        (forall a, ~ sp' <= a < sp -> view (k_mem k) pm a = view (k_mem (pages s)) pm a)
    | None => snd (layout sp argv) < top - PGSIZE \/ MAXARG < argc + Z.of_nat (length argv)
    end.
Proof.
  intros Hi Hst. revert argc sp s Hi. induction argv as [|arg argv IH]; intros argc sp s Hi Hsp H4 Hall; cbn [push_args].
  { exists (Some (sp, [])), (pages s). rewrite set_pages_id. split; [done|]. split; [done|]. split; [done|]. split; [lia|]. split; [by left|]. split; [constructor|done]. }
  inversion_clear Hall as [|? ? Hlen Hrest]. rewrite Z.geb_leb. destruct (Z.leb_spec MAXARG argc) as [Hmax|Hmax].
  { exists None, (pages s). rewrite set_pages_id. split; [done|]. split; [done|]. right. cbn [length]. lia. }
  cbv zeta. destruct (push_arg pgdir pm top sp arg s Hi Hst Hsp H4 Hlen) as (r & k & Ek & Hi1 & Hr).
  rewrite (kbind_ok _ _ _ _ _ Ek). set (sp1 := Z.land _ _) in *. cbn [layout length].
  destruct Hr as [(-> & E1 & Hg & Hle & Hv)|(-> & Hlow)]; cbn [Z.ltb Z.compare].
  2:{ exists None, k. split; [done|]. split; [done|]. left. set (x := 4 * _) in *. pose proof (layout_below x argv). destruct (layout x argv). cbn [snd] in *. lia. }
  rewrite <- E1. assert (H41 : sp1 mod 4 = 0) by (rewrite E1, Z.mul_comm; by apply Z.mod_mul).
  destruct (IH (argc + 1) sp1 (set_pages k s) Hi1 ltac:(lia) H41 Hrest) as (r & k' & Ek' & Hi' & Hr).
  rewrite (kbind_ok _ _ _ _ _ Ek'). pose proof (layout_below sp1 argv) as Hb. destruct r as [[sp' ptrs]|].
  - destruct Hr as (El & Hg' & Hm & Hs & Hk). rewrite El in *. cbn [snd] in Hb. exists (Some (sp', sp1 :: ptrs)), k'. split; [done|]. split; [done|].
    split; [done|]. split; [done|]. split; [right; destruct Hm as [->|]; cbn; lia|]. split.
    + constructor.
      * split; [done|]. split; [lia|]. intros j Hj. rewrite Hk by lia. cbn. rewrite Hv, decide_True by lia. f_equal. lia.
      * eapply strings_at_mono; [exact Hs|lia|lia|done].
    + intros a Ha. rewrite Hk by lia. cbn. rewrite Hv, decide_False by lia. done.
  - exists None, k'. split; [done|]. split; [done|]. destruct (layout sp1 argv). cbn [snd] in *. destruct Hr; [by left|right; lia].
Qed.
End facts.
