(* ===== verification/ExecFiles.v ===== *)
(** * The file systems that exec runs on

    Two implementations of the interface of exec: the routines of Fs.v, and a
    file system in memory whose files never change, which serves the examples
    and shows that the laws can hold with no failure at all. *)

From S2P Require Import Prelude Mem Block Kalloc Vm Exec ExecFacts.
From S2P Require Log Fs.
#[local] Open Scope Z_scope.
#[local] Open Scope kernel_scope.

(** ** Fs.v *)

(** The routines of Fs.v may panic and, in log_begin_op, wait; nothing is said
    of the contents of the files.  readi never gives more bytes than it was
    asked for, if the devices do not. *)
Section xv6.
Context (disksize pid : Z) (cwd : nat) (junk : list Z) (devread : Z -> option (nat -> Z -> Fs.F (Z * list Z))).
Context (Hdev : forall major f ip n s r bs s', devread major = Some f -> f ip n s = Ok (r, bs) s' -> Z.of_nat (length bs) <= Z.max 0 n).

Lemma readi_loop_length fuel ip off tot n dst s l s' :
  Fs.readi_loop disksize pid fuel ip off tot n dst s = Ok l s' -> 0 <= tot <= n -> n < 2 ^ 31 -> Z.of_nat (length dst) <= tot -> Z.of_nat (length l) <= n.
Proof.
  revert off tot dst s. induction fuel as [|fuel IH]; intros off tot dst s; cbn [Fs.readi_loop]; (destruct (Z.ltb_spec tot n) as [Hlt|Hge]; [|intros [= <- _]; lia]); [done|].
  intros (x & s1 & _ & (bn & s2 & _ & (bp & s3 & _ & (d & s4 & _ & (u & s5 & _ & Eq)%kbind_inv)%kbind_inv)%kbind_inv)%kbind_inv)%kbind_inv Ht Hn Hl.
  apply IH in Eq; [done| |done|].
  - unfold Fs.chunk. rewrite u32_small by (unfold is_u32; lia). unfold BSIZE. pose proof (Z.mod_pos_bound off 512 ltac:(lia)). lia.
  - rewrite length_app. unfold slice. rewrite length_take, length_drop. unfold Fs.chunk in *. rewrite u32_small by (unfold is_u32; lia).
    pose proof (Z.mod_pos_bound off BSIZE ltac:(done)). unfold BSIZE in *. lia.
Qed.

Lemma readi_length ip off n s r bs s' : Fs.readi disksize pid devread ip off n s = Ok (r, bs) s' -> is_u32 off -> 0 <= n < 2 ^ 31 -> Z.of_nat (length bs) <= n.
Proof.
  intros E Hoff Hn. unfold Fs.readi in E. apply kbind_inv in E as (x & s1 & _ & E). destruct (Fs.i_type x =? Fs.T_DEV).
  - destruct ((Fs.i_major x <? 0) || (Fs.i_major x >=? Fs.NDEV)); [injection E as _ <- _; cbn; lia|].
    destruct (devread (Fs.i_major x)) as [f|] eqn:Ef; [|injection E as _ <- _; cbn; lia].
    apply (Hdev _ _ _ _ _ _ _ _ Ef) in E. rewrite s32_small in E by (unfold is_s32; lia). lia.
  - destruct ((off >? Fs.i_size x) || (u32 (off + n) <? off)) eqn:Eo; [injection E as _ <- _; cbn; lia|]. apply orb_false_iff in Eo as [E1 E2].
    apply kbind_inv in E as (l & s2 & El & E). injection E as _ <- _. rewrite Z.gtb_ltb, Z.ltb_ge in E1. rewrite Z.ltb_ge in E2.
    assert (Hle : forall n', n' = (if u32 (off + n) >? Fs.i_size x then u32 (Fs.i_size x - off) else n) -> 0 <= n' <= n).
    { intros n' ->. rewrite Z.gtb_ltb. destruct (Z.ltb_spec (Fs.i_size x) (u32 (off + n))) as [Hgt|?]; [|lia].
      assert (Hs : u32 (off + n) = off + n).
      { unfold is_u32 in Hoff. apply u32_small. split; [lia|]. destruct (Z.lt_ge_cases (off + n) (2 ^ 32)); [done|]. exfalso.
        unfold u32 in E2. replace (off + n) with (off + n - 2 ^ 32 + 1 * 2 ^ 32) in E2 by lia. rewrite Z.mod_add, Z.mod_small in E2; lia. }
      rewrite u32_small; unfold is_u32 in *; lia. }
    specialize (Hle _ eq_refl). apply readi_loop_length in El; [lia|lia|lia|done].
Qed.

(** Every outcome of the file system is allowed but a wrong result. *)
#[export] Program Instance xv6_laws : @FilesLaws Fs.fsys (xv6_files disksize pid cwd junk devread) (fun _ => True) True := {|
  idle _ := True; in_op _ := True; locked _ _ := True; named _ _ _ := False; content _ _ _ := False |}.
Next Obligation. intros s _. unfold allows. by destruct (begin_op s). Qed.
Next Obligation. intros s _. unfold allows. by destruct (end_op s). Qed.
Next Obligation. intros path s _. unfold allows. by destruct (namei path s). Qed.
Next Obligation. intros ip s _. unfold allows. by destruct (ilock ip s). Qed.
Next Obligation.
  intros ip off n s _ Hoff Hn. unfold allows. destruct (readi ip off n s) as [[r bs] s'| | |] eqn:E; try done. split; [done|]. split; [|done].
  by apply (readi_length ip off n s r bs s').
Qed.
Next Obligation. intros ip s _. unfold allows. by destruct (iunlockput ip s). Qed.
End xv6.

(** ** Files in memory *)

Section ram.
Context (disk : list (list Z * list Z)).

(** Outside a transaction, in one, and with the file [ip] locked. *)
Inductive phase := Idle | InOp | Locked (ip : nat).

Definition ram_named (path : list Z) (x : list Z * list Z) : bool := bool_decide (fst x = path).
Definition ram_read (c : list Z) (off n : Z) : Z * list Z :=
  if Z.of_nat (length c) <? off then (-1, [])
  else let l := slice c off n in (Z.of_nat (length l), l).

#[export] Instance ram_files : Files phase := {|
  begin_op := fun s => Ok tt InOp;
  end_op := fun s => Ok tt Idle;
  namei := fun path s => Ok (fst <$> list_find (ram_named path) disk) s;
  ilock := fun ip s => Ok tt (Locked ip);
  readi := fun ip off n s => Ok (match disk !! ip with Some x => ram_read (snd x) off n | None => (-1, []) end) s;
  iunlockput := fun ip s => Ok tt InOp |}.

Definition ram_content (ip : nat) (c : list Z) : Prop :=
  snd <$> disk !! ip = Some c /\ Forall is_byte c /\ Z.of_nat (length c) < 2 ^ 31.

Lemma slice_length c off n : Z.of_nat (length (slice c off n)) = Z.min (Z.max 0 n) (Z.of_nat (length c) - Z.min (Z.max 0 off) (Z.of_nat (length c))).
Proof. unfold slice. rewrite length_take, length_drop. lia. Qed.

#[export] Program Instance ram_laws : FilesLaws phase (fun _ => False) False := {|
  idle s := s = Idle; in_op s := s = InOp; locked ip s := s = Locked ip;
  named path c _ := exists ip, fst <$> list_find (ram_named path) disk = Some ip /\ ram_content ip c;
  content ip c _ := ram_content ip c |}.
Next Obligation. by intros s _. Qed.
Next Obligation. by intros s _. Qed.
Next Obligation. intros path s Hs. split; [done|]. intros c (ip & -> & Hc). by exists ip. Qed.
Next Obligation. by intros ip s _. Qed.
Next Obligation.
  intros ip off n s Hs Hoff Hn. cbn [readi ram_files allows]. unfold is_u32 in Hoff. unfold ram_content. destruct (disk !! ip) as [x|]; [|split; [done|]; split; [cbn; lia|]; by intros c [? _]].
  unfold ram_read. destruct (Z.ltb_spec (Z.of_nat (length (snd x))) off) as [Hlt|Hge].
  - split; [done|]. split; [cbn; lia|]. intros c (E & Hb & Hl). cbn in E. injection E as <-. split; [done|]. split; [done|]. split; [done|]. split; [|lia]. split; lia.
  - split; [done|]. rewrite slice_length. split; [lia|]. intros c (E & Hb & Hl). cbn in E. injection E as <-. split; [done|]. split; [done|]. split; [done|]. split; [|done]. split; lia.
Qed.
Next Obligation. by intros ip s _. Qed.
End ram.
