(* ===== verification/ExecRun.v ===== *)
(** * exec from the call to the new program (exec.c)

    The stack that exec builds, as main and the system calls of the new
    program see it, and the two theorems on the whole of exec: what can happen,
    and when it succeeds. *)

From S2P Require Import Prelude Mem Block Kalloc Vm VmFacts Uvm UvmCopy Exec ExecFacts ExecFiles.
From S2P Require Syscall Log LogFacts Fs File.
#[local] Open Scope Z_scope.
#[local] Open Scope kernel_scope.

(** ** The stack frame *)

(** The words at [a]. *)
Definition words_at (m : mem) (a : Z) (l : list Z) : Prop :=
  forall i w, l !! i = Some w -> load32 m (a + 4 * Z.of_nat i) = w.

Lemma words_length l : length (words l) = (4 * length l)%nat.
Proof. unfold words. induction l as [|w l IH]; [done|]. cbn. rewrite IH. lia. Qed.

Lemma byte_of_app_l l l' k : 0 <= k < Z.of_nat (length l) -> byte_of (l ++ l') k = byte_of l k.
Proof. intros Hk. unfold byte_of. by rewrite lookup_app_l by lia. Qed.

Lemma byte_of_app_r l l' k : Z.of_nat (length l) <= k -> byte_of (l ++ l') k = byte_of l' (k - Z.of_nat (length l)).
Proof. intros Hk. unfold byte_of. rewrite lookup_app_r by lia. do 3 f_equal. lia. Qed.

Lemma u8_u8 x : u8 (u8 x) = u8 x.
Proof. apply u8_small, u8_range. Qed.

(** The bytes of [words l] at [a] are the words [l]. *)
Lemma words_copied m a l : Forall is_u32 l -> (forall x, a <= x < a + Z.of_nat (length (words l)) -> m x = byte_of (words l) (x - a)) -> words_at m a l.
Proof.
  intros Hl. revert a. induction Hl as [|w l Hw _ IH]; intros a Hm i v Hi; [done|].
  change (words (w :: l)) with (word_bytes w ++ words l) in Hm. rewrite length_app in Hm. change (length (word_bytes w)) with 4%nat in Hm.
  destruct i as [|i].
  - injection Hi as <-. change (a + 4 * Z.of_nat 0) with (a + 0). rewrite Z.add_0_r.
    rewrite <- (u32_small w Hw) at 1. rewrite <- (load32_store32 (fun _ => 0) 0 w). unfold load32.
    rewrite !Hm by lia. rewrite !byte_of_app_l by (cbn; lia). destruct (store32_bytes (fun _ => 0) 0 w) as (-> & E1 & E2 & E3).
    change (0 + 1) with 1 in *. change (0 + 2) with 2 in *. change (0 + 3) with 3 in *. rewrite E1, E2, E3.
    replace (a - a) with 0 by lia. replace (a + 1 - a) with 1 by lia. replace (a + 2 - a) with 2 by lia. replace (a + 3 - a) with 3 by lia.
    unfold byte_of, word_bytes. change (Z.to_nat 0) with 0%nat. change (Z.to_nat 1) with 1%nat. change (Z.to_nat 2) with 2%nat. change (Z.to_nat 3) with 3%nat.
    cbn [lookup list_lookup default option_rect]. unfold default, id. by rewrite !u8_u8.
  - replace (a + 4 * Z.of_nat (S i)) with (a + 4 + 4 * Z.of_nat i) by lia. apply IH; [|done].
    intros x Hx. rewrite Hm by lia. rewrite byte_of_app_r by (cbn; lia). f_equal. cbn. lia.
Qed.

(** A program starts on this stack: the words that the code of main finds
    above [esp], the argument pointers and the strings. *)
Record frame (m : mem) (top esp : Z) (argv : list (list Z)) : Prop := {
  fr_range : top - PGSIZE <= esp /\ esp + 4 * (Z.of_nat (length argv) + 4) <= top;
  fr_argc : words_at m esp [0xffffffff; Z.of_nat (length argv); esp + 12];
  fr_argv : exists ptrs, strings_at m esp top ptrs argv /\ words_at m (esp + 12) (ptrs ++ [0]) }.

Lemma words_at_app m a l l' : words_at m a (l ++ l') <-> words_at m a l /\ words_at m (a + 4 * Z.of_nat (length l)) l'.
Proof.
  split.
  - intros Hw. split; intros i w Hi.
    + apply Hw. rewrite lookup_app_l; [done|]. by apply lookup_lt_Some in Hi.
    + rewrite <- (Hw (length l + i)%nat w); [f_equal; lia|]. rewrite lookup_app_r by lia. by replace (length l + i - length l)%nat with i by lia.
  - intros [H1 H2] i w Hi. destruct (decide (i < length l)%nat) as [Hlt|Hge].
    + apply H1. by rewrite lookup_app_l in Hi.
    + rewrite lookup_app_r in Hi by lia. rewrite <- (H2 _ _ Hi). f_equal. lia.
Qed.

(** ** The arguments as a system call of the program reads them *)

Lemma u32_s32 x : is_u32 x -> u32 (s32 x) = x.
Proof. intros H. unfold u32, s32, is_u32 in *. rewrite Zminus_mod_idemp_l. replace (x + 2 ^ 31 - 2 ^ 31) with x by lia. by apply Z.mod_small. Qed.

Lemma fetchstr_loop_string m p s n k : 0 <= k -> (forall x, s <= x < s + k -> m x <> 0) -> m (s + k) = 0 -> k < Z.of_nat n ->
  Syscall.fetchstr_loop m p s n = Some (s + k - p).
Proof.
  revert s k. induction n as [|n IH]; intros s k Hk Hx H0 Hn; [lia|]. cbn [Syscall.fetchstr_loop].
  destruct (Z.eqb_spec (m s) 0) as [E|E].
  - destruct (Z.eq_dec k 0) as [->|]; [by rewrite Z.add_0_r|]. exfalso. apply (Hx s); [lia|done].
  - destruct (Z.eq_dec k 0) as [->|]; [by rewrite Z.add_0_r in H0|]. rewrite (IH (s + 1) (k - 1)); try lia.
    + f_equal. lia.
    + intros x Hr. apply Hx. lia.
    + by replace (s + 1 + (k - 1)) with (s + k) by lia.
Qed.

(** A C string without its NUL. *)
Definition c_string (arg : list Z) : Prop := Forall (fun b => 0 < b < 256) arg.

Lemma string_at_byte m p arg k b : string_at m p arg -> c_string arg -> arg !! k = Some b -> m (p + Z.of_nat k) = b.
Proof.
  intros Hs Hc Hk. pose proof (lookup_lt_Some _ _ _ Hk). rewrite Hs by lia. unfold byte_of. rewrite Nat2Z.id, lookup_app_l, Hk by lia.
  cbn. apply u8_small. pose proof (Forall_lookup_1 _ _ _ _ Hc Hk) as Hb. cbn in Hb. lia.
Qed.

Lemma string_at_end m p arg : string_at m p arg -> m (p + Z.of_nat (length arg)) = 0.
Proof. intros Hs. rewrite Hs by lia. unfold byte_of. rewrite Nat2Z.id, lookup_app_r, Nat.sub_diag by lia. done. Qed.

Lemma fetchstr_string m u p arg : string_at m p arg -> c_string arg -> p + Z.of_nat (length arg) + 1 <= Syscall.u_sz u -> 0 <= p ->
  Syscall.fetchstr u m p = Some (Z.of_nat (length arg)) /\ File.load_bytes m p (Z.of_nat (length arg)) = arg.
Proof.
  intros Hs Hc Hsz H0. split.
  - unfold Syscall.fetchstr. rewrite Z.geb_leb, (proj2 (Z.leb_gt _ _)) by lia.
    rewrite (fetchstr_loop_string m p p _ (Z.of_nat (length arg))); [f_equal; lia|lia| |by apply string_at_end|lia].
    intros x Hx. destruct (lookup_lt_is_Some_2 arg (Z.to_nat (x - p))) as [b Hb]; [lia|].
    pose proof (Forall_lookup_1 _ _ _ _ Hc Hb) as Hnz. cbn in Hnz. apply (string_at_byte m p arg) in Hb; try done.
    rewrite Z2Nat.id in Hb by lia. replace (p + (x - p)) with x in Hb by lia. lia.
  - unfold File.load_bytes. rewrite Nat2Z.id. apply list_eq. intros i. rewrite list_lookup_fmap.
    destruct (decide (i < length arg)%nat) as [Hlt|Hge].
    + rewrite lookup_seq_lt by done. cbn. destruct (lookup_lt_is_Some_2 arg i Hlt) as [b Hb]. rewrite Hb. f_equal. by apply (string_at_byte m p arg).
    + rewrite lookup_seq_ge by lia. cbn. symmetry. apply lookup_ge_None. lia.
Qed.

Lemma exec_args_words m u lo ptrs argv i a todo :
  strings_at m lo (Syscall.u_sz u) ptrs argv -> Forall c_string argv -> 0 < lo -> Syscall.u_sz u < 2 ^ 32 ->
  words_at m (a + 4 * i) (ptrs ++ [0]) -> 0 <= a -> 0 <= i -> a + 4 * i + 4 * (Z.of_nat (length ptrs) + 1) <= Syscall.u_sz u -> (length argv < todo)%nat ->
  File.exec_args u m a i todo = Some argv.
Proof.
  intros Hs. revert i todo. induction Hs as [|p arg ptrs argv (Hlo & Hhi & Hst) Hs IH]; intros i todo Hc Hl0 Hsz Hw Ha Hi Hend Htodo;
    (destruct todo as [|todo]; [cbn in Htodo; lia|]); cbn [File.exec_args]; unfold Syscall.fetchint.
  - cbn in Hend. rewrite u32_small by (unfold is_u32; lia). rewrite (u32_small (a + 4 * i + 4)) by (unfold is_u32; lia).
    rewrite Z.geb_leb, Z.gtb_ltb, (proj2 (Z.leb_gt _ _)), (proj2 (Z.ltb_ge _ _)) by lia. cbn [orb].
    specialize (Hw 0%nat 0 eq_refl). change (4 * Z.of_nat 0) with 0 in Hw. rewrite Z.add_0_r in Hw. by rewrite Hw.
  - cbn [length] in Hend, Htodo. rewrite u32_small by (unfold is_u32; lia). rewrite (u32_small (a + 4 * i + 4)) by (unfold is_u32; lia).
    rewrite Z.geb_leb, Z.gtb_ltb, (proj2 (Z.leb_gt _ _)), (proj2 (Z.ltb_ge _ _)) by lia. cbn [orb].
    pose proof (Hw 0%nat p eq_refl) as Hp. change (4 * Z.of_nat 0) with 0 in Hp. rewrite Z.add_0_r in Hp. rewrite Hp.
    assert (Hu : is_u32 p) by (unfold is_u32; lia). rewrite (u32_s32 p Hu).
    destruct (Z.eqb_spec (s32 p) 0) as [E|_]; [pose proof (u32_s32 p Hu) as E'; rewrite E in E'; change (u32 0) with 0 in E'; lia|].
    inversion_clear Hc as [|? ? Harg Hrest]. destruct (fetchstr_string m u p arg Hst Harg ltac:(lia) ltac:(lia)) as [-> ->].
    rewrite (IH (i + 1) todo); try done; try lia.
    change ((p :: ptrs) ++ [0]) with ([p] ++ (ptrs ++ [0])) in Hw. apply words_at_app in Hw as [_ Hw]. cbn in Hw.
    by replace (a + 4 * (i + 1)) with (a + 4 * i + 4) by lia.
Qed.

(** ** From the image to the running program *)

(** What exec is to make of a file with the contents [c] and the arguments
    [argv]. *)
Record image := { i_entry : Z; i_top : Z; i_esp : Z; i_byte : Z -> Z }.
Definition stack_of (sz : Z) (argv : list (list Z)) : option (Z * Z) :=
  let top := PGROUNDUP sz + 2 * PGSIZE in
  let esp := snd (layout top argv) - 4 * (Z.of_nat (length argv) + 4) in
  if (KERNBASE <=? top) || (MAXARG <? Z.of_nat (length argv)) || (esp <? top - PGSIZE) then None else Some (top, esp).
Definition program (c : list Z) (argv : list (list Z)) : option image :=
  if Z.of_nat (length c) <? ELFHDR then None
  else
    let elf := read_elfhdr (slice c 0 ELFHDR) in
    if negb (e_magic elf =? ELF_MAGIC) then None
    else
      match segments c (Z.to_nat (e_phnum elf)) (e_phoff elf) 0 (fun _ => 0) with
      | None => None
      | Some (sz, img) =>
          match stack_of sz argv with
          | None => None
          | Some (top, esp) => Some {| i_entry := e_entry elf; i_top := top; i_esp := esp; i_byte := img |}
          end
      end.

Lemma full_roundup sz pm : full sz pm -> 0 <= sz <= KERNBASE -> full (PGROUNDUP sz) pm.
Proof.
  intros Hf Hsz i. rewrite (Hf i). destruct (PGROUNDUP_spec sz Hsz) as (Ha & Hb & _). split; intros Hi; [lia|]. split; [lia|].
  destruct (Z.lt_ge_cases (PGSIZE * i) sz); [done|]. exfalso. clear Hf. unfold PGSIZE in *. Z.div_mod_to_equations. lia.
Qed.

Section run.
Context {F : Type} `{Files F} (E : string -> Prop) (W : Prop) `{!FilesLaws F E W}.
Context (END DATA : Z) (HEND : KERNBASE < END) (HDATA : DATA mod PGSIZE = 0 /\ KERNLINK < DATA < KERNBASE + PHYSTOP).
Context (s0 : state F) (l0 : list Z).

#[local] Notation inv := (inv END DATA s0 l0).
#[local] Notation undone := (undone E W END s0 l0).

Lemma make_guard pgdir pm s top : inv pgdir pm s -> full top pm -> users pm -> top mod PGSIZE = 0 -> 2 * PGSIZE <= top < KERNBASE ->
  exists k pm', vm (clearpteu pgdir (u32 (top - 2 * PGSIZE))) s = Ok tt (set_pages k s) /\ inv pgdir pm' (set_pages k s) /\ stack_space top pm' /\
    (forall a, view (k_mem k) pm' a = view (k_mem (pages s)) pm a).
Proof.
  intros Hi Hf Hu Hal Ht. destruct (in_space _ _ _ _ _ _ _ Hi) as (l & Hs & Ho).
  set (g := top / PGSIZE - 2). assert (Hg : top - 2 * PGSIZE = PGSIZE * g) by (unfold g; clear -Hal; unfold PGSIZE in *; Z.div_mod_to_equations; lia).
  destruct (proj2 (Hf g)) as [e He]; [unfold PGSIZE in *; lia|].
  assert (Heu : is_u32 e).
  { destruct (entry_slot END (pages s) l pgdir pm g e Hs He) as (_ & _ & _ & _ & Hl & _). rewrite <- Hl. apply load32_range, (free_mem _ _ _ (sp_free _ _ _ _ _ Hs)). }
  destruct (no_user_ok e Heu) as (_ & _ & Hnu & Ht'). destruct (clearpteu_ok END (pages s) l pgdir pm g e Hs He) as (k & Ek & V & K).
  exists k, (<[g := no_user e]> pm). rewrite u32_small by (unfold is_u32, KERNBASE, PGSIZE in *; lia). rewrite Hg.
  split; [by apply vm_run|]. split; [by apply (inv_vstep _ _ _ _ pgdir pm _ s l k l)|]. split.
  - split; [done| |fold g; unfold user_pte; by rewrite lookup_insert_eq|].
    + intros i. rewrite <- (Hf i). rewrite lookup_insert_is_Some. split; [intros [<-|[_ ?]]; [by exists e|done]|].
      intros ?. destruct (decide (g = i)); [by left|by right].
    + intros i v Hi' Hne. fold g in Hne. rewrite lookup_insert_ne in Hi' by done. by apply (Hu i).
  - intros a. rewrite <- (keeps_view pm (pages s) k a K). unfold view. destruct (decide (g = a / PGSIZE)) as [Eg|Hne].
    + rewrite <- Eg, lookup_insert_eq, He. by rewrite Ht'.
    + by rewrite lookup_insert_ne by done.
Qed.

(** allocuvm and clearpteu: the guard page and the stack page. *)
Lemma make_stack pgdir pm s sz : inv pgdir pm s -> full sz pm -> users pm -> 0 <= sz < KERNBASE ->
  let top := PGROUNDUP sz + 2 * PGSIZE in
  exists r k pm', vm (allocuvm END pgdir (PGROUNDUP sz) (u32 top)) s = Ok r (set_pages k s) /\ inv pgdir pm' (set_pages k s) /\
    (r = 0 /\ (KERNBASE <= top \/ Z.of_nat (length l0) <= needed top + 1) \/
     r = top /\ full top pm' /\ users pm' /\ top mod PGSIZE = 0 /\ 2 * PGSIZE <= top < KERNBASE /\
       (forall a, view (k_mem k) pm' a = view (k_mem (pages s)) pm a)).
Proof.
  intros Hi Hf Hu Hsz top. destruct (PGROUNDUP_spec sz ltac:(lia)) as (Ha & Hb & Hc).
  assert (Ht : u32 top = top) by (apply u32_small; unfold is_u32, top, KERNBASE, PGSIZE in *; lia). rewrite Ht.
  destruct (alloc_step END DATA HEND s0 l0 pgdir pm s (PGROUNDUP sz) top (view (k_mem (pages s)) pm) Hi) as (r & k & pm' & Ek & Hi' & Hu' & Hv & Hr); try done.
  { by apply full_roundup; [|lia]. }
  { lia. }
  { unfold top, PGSIZE in *. lia. }
  exists r, k, pm'. split; [done|]. split; [done|]. destruct Hr as [(-> & Hk & Hf')|(-> & Hr)]; [right|left].
  - assert (Em : PGROUNDUP sz `max` top = top) by (unfold top, PGSIZE; lia). rewrite Em in Hf' |- *. split_and!; try done.
    + unfold top. rewrite Z.mul_comm, Z.add_comm, Z.mul_comm. clear -Ha. unfold PGSIZE in *. Z.div_mod_to_equations. lia.
    + unfold top. lia.
  - split; [done|]. destruct Hr as [?|[_ ?]]; [by left|by right].
Qed.
(** The words of [ustack] go below the strings. *)
Lemma push_frame pgdir pm s top sp ptrs argv : inv pgdir pm s -> stack_space top pm -> top - PGSIZE <= sp <= top ->
  Z.of_nat (length argv) <= MAXARG -> strings_at (view (k_mem (pages s)) pm) sp top ptrs argv ->
  let esp := sp - 4 * (Z.of_nat (length argv) + 4) in
  u32 (sp - 4 * Z.of_nat (length (ustack sp ptrs))) = esp /\
  exists r k, vm (copyout_bytes pgdir esp (words (ustack sp ptrs))) s = Ok r (set_pages k s) /\ inv pgdir pm (set_pages k s) /\
    (r = 0 /\ frame (view (k_mem k) pm) top esp argv /\ (forall a, ~ esp <= a < sp -> view (k_mem k) pm a = view (k_mem (pages s)) pm a) \/
     r = -1 /\ esp < top - PGSIZE).
Proof.
  intros Hi Hst Hsp Hmax Hs esp. destruct (st_top _ _ Hst) as [_ Ht]. unfold MAXARG in Hmax. pose proof (Forall2_length _ _ _ Hs) as Hlen.
  assert (Hl : Z.of_nat (length (ustack sp ptrs)) = Z.of_nat (length argv) + 4).
  { unfold ustack. cbn zeta. rewrite !length_app. cbn. lia. }
  assert (He : 0 <= esp) by (unfold esp, PGSIZE in *; lia).
  split; [rewrite Hl; apply u32_small; unfold is_u32, esp, KERNBASE in *; lia|].
  assert (Hw : Z.of_nat (length (words (ustack sp ptrs))) = sp - esp) by (rewrite words_length; unfold esp; lia).
  destruct (stack_copy END DATA HDATA s0 l0 pgdir pm top esp (words (ustack sp ptrs)) s Hi Hst He ltac:(lia)) as (r & k & Ek & Hi' & Hr).
  exists r, k. split; [done|]. split; [done|]. rewrite Hw in Hr. replace (esp + (sp - esp)) with sp in Hr by lia.
  destruct Hr as [(-> & HU & Hv)|(-> & Hlt)]; [left|by right]. split; [done|]. split; [|intros a Ha; by rewrite Hv, decide_False].
  assert (Hg : top - PGSIZE <= esp).
  { apply (above_guard pm top esp (sp - esp)); try done; [unfold esp; lia|unfold PGSIZE in *; lia|]. intros a Ha. apply HU. lia. }
  assert (Harg : u32 (sp - (Z.of_nat (length ptrs) + 1) * 4) = esp + 12).
  { rewrite Hlen, u32_small; unfold is_u32, esp, KERNBASE in *; lia. }
  assert (Hu : Forall is_u32 (ustack sp ptrs)).
  { unfold ustack. cbn zeta. rewrite Harg. repeat (apply Forall_cons; split); try (unfold is_u32, KERNBASE, esp in *; lia).
    apply Forall_app. split; [|by repeat constructor]. apply Forall_forall. intros p Hp. apply list_elem_of_lookup in Hp as [i Hp].
    destruct (Forall2_lookup_l _ _ _ _ _ Hs Hp) as (arg & _ & Hq & Hq' & _). unfold is_u32, KERNBASE, PGSIZE in *. lia. }
  apply (words_copied (view (k_mem k) pm) esp) in Hu; [|intros x Hx; rewrite Hv, decide_True by lia; done].
  unfold ustack in Hu. cbn zeta in Hu. rewrite Harg, Hlen in Hu. apply words_at_app in Hu as [H1 H2]. split; [unfold esp in *; lia|done|].
  exists ptrs. split; [|done]. eapply strings_at_mono; [exact Hs|unfold esp; lia|done|]. intros a Ha. by rewrite Hv, decide_False by lia.
Qed.

(** ** The commitment to the new space *)

(** The process runs the program [im], and the pages are accounted for: the
    free ones and those of the old space [old] are now the free ones and those
    of the new space. *)
Record running (old : gmap Z Z) (path : list Z) (argv : list (list Z)) (im : image) (s : state F) : Prop := {
  run_space : exists l pm, space END (pages s) l (Exec.pgdir (curproc s)) pm /\ stack_space (i_top im) pm /\
    owned (pages s) l (Exec.pgdir (curproc s)) pm ≡ₚ l0 ++ held (k_mem (pages s0)) (Exec.pgdir (curproc s0)) old /\
    frame (view (k_mem (pages s)) pm) (i_top im) (i_esp im) argv /\
    (forall a, ~ i_esp im <= a < i_top im -> view (k_mem (pages s)) pm a = i_byte im a);
  run_kernel : forall va, KERNBASE <= va < 2 ^ 32 -> entry (k_mem (pages s)) (Exec.pgdir (curproc s)) va = kernel_pte DATA va;
  run_cr3 : cr3 s = V2P (Exec.pgdir (curproc s));
  run_proc : sz (curproc s) = i_top im /\ eip (curproc s) = i_entry im /\ esp (curproc s) = i_esp im /\ kstack (curproc s) = kstack (curproc s0);
  run_name : name (curproc s) = safestrcpy_list (name (curproc s0)) (last_elem path path ++ [0]) 16 }.

Context (old : gmap Z Z) (HOLD : space END (pages s0) l0 (Exec.pgdir (curproc s0)) old).

(** The pages of the old space are freed, the new one is as it was. *)
Lemma free_old pgdir pm s : inv pgdir pm s ->
  exists k l, freevm END (Exec.pgdir (curproc s0)) (pages s) = Ok tt k /\ space END k l pgdir pm /\
    owned k l pgdir pm ≡ₚ l0 ++ held (k_mem (pages s0)) (Exec.pgdir (curproc s0)) old /\
    (forall va, is_u32 va -> entry (k_mem k) pgdir va = entry (k_mem (pages s)) pgdir va) /\
    (forall a, view (k_mem k) pm a = view (k_mem (pages s)) pm a).
Proof.
  intros Hi. destruct (in_space _ _ _ _ _ _ _ Hi) as (l1 & Hs & Ho). set (od := Exec.pgdir (curproc s0)) in *.
  pose proof (owned_pages _ _ _ _ _ HOLD) as Hpg. rewrite Forall_forall in Hpg. pose proof (sp_nodup _ _ _ _ _ HOLD) as Hnd.
  pose proof (NoDup_app l0 (held (k_mem (pages s0)) od old)) as [Hsplit _]. destruct (Hsplit Hnd) as (_ & Hdis & _). clear Hsplit.
  assert (Hnd1 : NoDup (l1 ++ held (k_mem (pages s0)) od old)).
  { rewrite <- Ho in Hnd. unfold owned in Hnd. rewrite <- app_assoc, (Permutation_app_comm (held (k_mem (pages s)) pgdir pm)), app_assoc in Hnd. by apply NoDup_app in Hnd as (? & _). }
  destruct (space_view END (pages s0) l0 od old (pages s) l1 HOLD (sp_free _ _ _ _ _ Hs) Hnd1) as (Hold & Hheld & _ & _).
  { intros x p Hp Hx. apply (in_mem _ _ _ _ _ _ _ Hi). intros q Hq Hqx. apply (Hdis q Hq). replace q with p; [done|].
    apply (apart END p q x); try done; apply Hpg; apply elem_of_app; auto. }
  destruct (freevm_ok END HEND (pages s) l1 od old Hold) as (k & l2 & Ek & Hf2 & Hl2 & Hm2). unfold owned in Hl2. rewrite Hheld in Hl2.
  assert (Hnd2 : NoDup (l1 ++ held (k_mem (pages s0)) od old ++ held (k_mem (pages s)) pgdir pm)).
  { rewrite <- Ho in Hnd. unfold owned in Hnd. rewrite (Permutation_app_comm (held (k_mem (pages s0)) od old)), app_assoc. done. }
  pose proof Hnd2 as Hnd3. rewrite app_assoc in Hnd3. apply NoDup_app in Hnd3 as (_ & Hdis2 & _).
  destruct (space_view END (pages s) l1 pgdir pm k l2 Hs Hf2) as (Hs2 & Hh2 & He2 & Hv2).
  { by rewrite Hl2, <- app_assoc. }
  { intros x p Hp Hx. apply Hm2. intros q Hq Hqx. unfold owned in Hq. rewrite Hheld in Hq. apply (Hdis2 q Hq). replace q with p; [done|].
    apply (apart END p q x); try done.
    - by apply (proj1 (Forall_forall _ _) (sp_pages _ _ _ _ _ Hs)).
    - apply Hpg, elem_of_app. apply elem_of_app in Hq as [Hq|Hq]; [left|by right]. rewrite <- Ho. apply elem_of_app. by left. }
  exists k, l2. split; [done|]. split; [done|]. split; [|done]. unfold owned. rewrite Hh2, Hl2, <- Ho. unfold owned.
  rewrite <- !app_assoc. apply Permutation_app_head, Permutation_app_comm.
Qed.

Context (HK : kstack (curproc s0) <> 0).

Lemma install_ok pgdir pm s im path argv : inv pgdir pm s -> stack_space (i_top im) pm -> frame (view (k_mem (pages s)) pm) (i_top im) (i_esp im) argv ->
  (forall a, ~ i_esp im <= a < i_top im -> view (k_mem (pages s)) pm a = i_byte im a) ->
  exists s', (p <- gets curproc ;;
    let name' := safestrcpy_list (name p) (last_elem path path ++ [0]) 16 in
    modify (set_curproc {| Exec.pgdir := pgdir; Exec.sz := i_top im; eip := i_entry im; Exec.esp := i_esp im; name := name'; kstack := kstack p |}) ;;;
    switchuvm ;;; vm (freevm END (Exec.pgdir p)) ;;; kret 0) s = Ok 0 s' /\ files s' = files s /\ running old path argv im s'.
Proof.
  intros Hi Hst Hf Hv. destruct (free_old pgdir pm s Hi) as (k & l & Ek & Hs & Ho & He & Hk). pose proof (inv_pgdir _ _ _ _ _ _ _ Hi) as Hp.
  unfold kbind at 1, gets at 1. cbv zeta. rewrite (in_proc _ _ _ _ _ _ _ Hi). unfold kbind at 1, modify at 1.
  unfold kbind at 1, switchuvm, kbind at 1, gets. cbn [curproc set_curproc kstack Exec.pgdir]. rewrite (proj2 (Z.eqb_neq _ _) HK), (proj2 (Z.eqb_neq _ _) Hp).
  unfold modify, kbind, vm, on. cbn [pages set_curproc set_cr3]. rewrite Ek. eexists. split; [reflexivity|]. split; [done|]. split; try done.
  - exists l, pm. cbn. split; [done|]. split; [done|]. split; [done|]. split.
    + destruct Hf as [F1 F2 (ptrs & F3 & F4)]. split; [done| |].
      * intros i w Hiw. rewrite <- (F2 i w Hiw). unfold load32. by rewrite !Hk.
      * exists ptrs. split; [eapply strings_at_mono; [exact F3|done|done|done]|]. intros i w Hiw. rewrite <- (F4 i w Hiw). unfold load32. by rewrite !Hk.
    + intros a Ha. rewrite Hk. by apply Hv.
  - intros va Hva. cbn. rewrite He by (unfold is_u32, KERNBASE in *; lia). by apply (in_kernel _ _ _ _ _ _ _ Hi).
Qed.

Lemma allows_fail_late pgdir pm s (Q : Z -> state F -> Prop) : inv pgdir pm s -> idle (files s) -> (forall s', undone (-1) s' -> Q (-1) s') ->
  allows E W Q (fail END pgdir None s).
Proof.
  intros Hi Hl HQ. eapply allows_mono; [eapply fail_late; [exact HEND|exact Hi|exact Hl]|]. intros r s' Hu. pose proof Hu as [-> _]. by apply HQ.
Qed.

(** From the arguments on, with an image of size [sz] and bytes [img]. *)
Definition stacked (path : list Z) (argv : list (list Z)) (entry sz : Z) (img : Z -> Z) (r : Z) (s : state F) : Prop :=
  undone r s /\ (forall top esp, stack_of sz argv = Some (top, esp) -> Z.of_nat (length l0) <= needed top + 1) \/
  r = 0 /\ idle (files s) /\ exists top esp, stack_of sz argv = Some (top, esp) /\
    running old path argv {| i_entry := entry; i_top := top; i_esp := esp; i_byte := img |} s.

Lemma exec_stack_ok pgdir pm s path argv entry sz : inv pgdir pm s -> idle (files s) -> full sz pm -> users pm -> 0 <= sz < KERNBASE ->
  Forall (fun arg => Z.of_nat (length arg) < 2 ^ 25) argv ->
  allows E W (stacked path argv entry sz (view (k_mem (pages s)) pm)) (exec_stack END path argv entry pgdir sz s).
Proof.
  intros Hi Hid Hf Hu Hsz Hargs. unfold exec_stack. cbv zeta. set (img := view _ pm).
  destruct (make_stack pgdir pm s sz Hi Hf Hu Hsz) as (r & k & pm1 & Ek & Hi1 & Hr). rewrite (kbind_ok _ _ _ _ _ Ek). clear Ek.
  destruct Hr as [(-> & Hno)|(-> & Hf1 & Hu1 & Hal & Ht & Hv1)]; cbn [Z.eqb].
  { eapply allows_fail_late; [exact Hi1|done|]. intros s' Hs'. left. split; [done|]. intros top esp. unfold stack_of. cbv zeta.
    destruct (Z.leb_spec KERNBASE (PGROUNDUP sz + 2 * PGSIZE)); [done|]. cbn [orb]. case_match; [done|]. intros [= <- _]. destruct Hno; [lia|done]. }
  set (top := PGROUNDUP sz + 2 * PGSIZE) in *. rewrite (proj2 (Z.eqb_neq top 0)) by (unfold PGSIZE in *; lia).
  destruct (make_guard pgdir pm1 _ top Hi1 Hf1 Hu1 Hal Ht) as (k2 & pm2 & Ek2 & Hi2 & Hst & Hv2). rewrite (kbind_ok _ _ _ _ _ Ek2). clear Ek2.
  set (s2 := set_pages k2 (set_pages k s)) in *.
  destruct (push_args_ok END DATA HDATA s0 l0 pgdir pm2 top argv 0 top s2 Hi2 Hst) as (r & k3 & Ek3 & Hi3 & Hr); try done.
  { unfold PGSIZE. lia. }
  { clear -Hal. unfold PGSIZE in *. Z.div_mod_to_equations. lia. }
  rewrite (kbind_ok _ _ _ _ _ Ek3). clear Ek3. destruct r as [[sp ptrs]|].
  2:{ eapply allows_fail_late; [exact Hi3|done|]. intros s' Hs'. left. split; [done|]. intros top' esp. unfold stack_of. cbv zeta. fold top.
      destruct (Z.ltb_spec MAXARG (Z.of_nat (length argv))); [by rewrite orb_true_r|]. rewrite (proj2 (Z.ltb_lt (_ - _) _)); [by rewrite orb_true_r|]. lia. }
  destruct Hr as (El & Hsp & Hmax & Hstr & Hv3). pose proof (layout_below top argv) as Hb. rewrite El in Hb. cbn [snd] in Hb. cbv zeta.
  assert (Hm : Z.of_nat (length argv) <= MAXARG) by (destruct Hmax as [->|]; [by vm_compute|lia]).
  destruct (push_frame pgdir pm2 (set_pages k3 s2) top sp ptrs argv Hi3 Hst ltac:(lia) Hm Hstr) as (Eesp & r & k4 & Ek4 & Hi4 & Hr). rewrite Eesp.
  set (esp := sp - 4 * (Z.of_nat (length argv) + 4)) in *. rewrite (kbind_ok _ _ _ _ _ Ek4). clear Ek4.
  assert (Hso : stack_of sz argv = if esp <? top - PGSIZE then None else Some (top, esp)).
  { unfold stack_of. cbv zeta. fold top. rewrite El. cbn [snd]. fold esp. by rewrite (proj2 (Z.leb_gt KERNBASE top)), (proj2 (Z.ltb_ge _ _) Hm) by lia. }
  destruct Hr as [(-> & Hfr & Hv4)|(-> & Hlow)]; cbn [Z.ltb Z.compare].
  2:{ eapply allows_fail_late; [exact Hi4|done|]. intros s' Hs'. left. split; [done|]. intros ? ?. by rewrite Hso, (proj2 (Z.ltb_lt _ _) Hlow). }
  destruct (install_ok pgdir pm2 (set_pages k4 (set_pages k3 s2)) {| i_entry := entry; i_top := top; i_esp := esp; i_byte := img |} path argv Hi4 Hst Hfr)
    as (s' & Ec & Hfs & Hrun).
  { intros a Ha. cbn in Ha |- *. rewrite Hv4, Hv3 by lia. rewrite Hv2. by rewrite Hv1. }
  eapply allows_run; [exact Ec|]. right. split; [done|]. rewrite Hfs. split; [done|]. exists top, esp. split; [|done].
  destruct Hfr as [[Hge _] _ _]. by rewrite Hso, (proj2 (Z.ltb_ge _ _) Hge).
Qed.

(** ** The whole of exec *)

Lemma running_ext path argv im img s : running old path argv im s -> (forall a, i_byte im a = img a) ->
  running old path argv {| i_entry := i_entry im; i_top := i_top im; i_esp := i_esp im; i_byte := img |} s.
Proof.
  intros [(l & pm & R1 & R2 & R3 & R4 & R5) RK RC RP RN] Him. split; try done. exists l, pm. split_and!; try done.
  intros a Ha. cbn. rewrite <- Him. by apply R5.
Qed.

(** exec failed, or the new program is the one that the file holds. *)
Definition executed (path : list Z) (argv : list (list Z)) (r : Z) (s : state F) : Prop :=
  undone r s /\ (forall c im, named path c (files s0) -> program c argv = Some im -> Z.of_nat (length l0) <= needed (i_top im) + 1) \/
  r = 0 /\ idle (files s) /\ (exists im, running old path argv im s) /\
    (forall c, named path c (files s0) -> exists im, program c argv = Some im /\ running old path argv im s).

Lemma undone_executed path argv s : undone (-1) s ->
  (forall c im, named path c (files s0) -> program c argv = Some im -> Z.of_nat (length l0) <= needed (i_top im) + 1) -> executed path argv (-1) s.
Proof. intros Hu Hn. by left. Qed.

Lemma released_start f : released END s0 l0 (set_files f s0).
Proof. split; try done. exists l0. split; [by apply (sp_free _ _ _ _ _ HOLD)|done]. Qed.

(** The directory of the new space, or no page for it. *)
Lemma new_space f : exists r k, vm (setupkvm END DATA) (set_files f s0) = Ok r (set_pages k (set_files f s0)) /\
  (r <> 0 /\ inv r ∅ (set_pages k (set_files f s0)) \/
   r = 0 /\ released END s0 l0 (set_pages k (set_files f s0)) /\ Z.of_nat (length l0) <= needed 0).
Proof.
  destruct (setupkvm_ok END HEND DATA HDATA (pages s0) l0 (sp_free _ _ _ _ _ HOLD)) as (r & k & l & Ek & Hm & Hr).
  exists r, k. split; [by apply vm_run|]. destruct Hr as [(Hne & Hs & Ho & He)|(-> & Hf & Hl & Hn)]; [left|right]; (split; [done|]).
  - split; try done; [by exists l|]. intros va Hva. apply He. unfold is_u32, KERNBASE in *. lia.
  - split; [|done]. split; try done. by exists l.
Qed.

Lemma needed_top sz argv top esp : stack_of sz argv = Some (top, esp) -> 0 <= sz <= KERNBASE -> needed sz <= needed top /\ needed 0 <= needed top.
Proof.
  unfold stack_of. cbv zeta. case_match; [done|]. intros [= <- _] Hsz. pose proof (PGROUNDUP_spec sz Hsz).
  split; apply needed_mono; unfold PGSIZE in *; lia.
Qed.

(** What a program in the file [c] has to be. *)
Lemma program_parts c argv im : program c argv = Some im ->
  ELFHDR <= Z.of_nat (length c) /\ let elf := read_elfhdr (slice c 0 ELFHDR) in e_magic elf = ELF_MAGIC /\
  exists sz img, segments c (Z.to_nat (e_phnum elf)) (e_phoff elf) 0 (fun _ => 0) = Some (sz, img) /\
    stack_of sz argv = Some (i_top im, i_esp im) /\ Z.max (needed sz) (needed 0) <= needed (i_top im).
Proof.
  unfold program. cbv zeta. destruct (Z.ltb_spec (Z.of_nat (length c)) ELFHDR); [done|]. destruct (Z.eqb_spec (e_magic (read_elfhdr (slice c 0 ELFHDR))) ELF_MAGIC); [|done].
  cbn [negb]. destruct (segments _ _ _ _ _) as [[sz img]|] eqn:Es; [|done]. destruct (stack_of sz argv) as [[top esp]|] eqn:Est; [|done].
  intros [= <-]. cbn. split; [done|]. split; [done|]. exists sz, img. split; [done|]. split; [done|].
  destruct (needed_top sz argv top esp Est); [|lia]. pose proof (segments_mono _ _ _ _ _ _ _ Es). pose proof (segments_below _ _ _ _ _ _ _ Es ltac:(done)). lia.
Qed.

Lemma program_run c argv sz img top esp (elf := read_elfhdr (slice c 0 ELFHDR)) : ELFHDR <= Z.of_nat (length c) -> e_magic elf = ELF_MAGIC ->
  segments c (Z.to_nat (e_phnum elf)) (e_phoff elf) 0 (fun _ => 0) = Some (sz, img) -> stack_of sz argv = Some (top, esp) ->
  program c argv = Some {| i_entry := e_entry elf; i_top := top; i_esp := esp; i_byte := img |}.
Proof.
  intros Hl Hm Es Est. unfold program. cbv zeta. fold elf. by rewrite (proj2 (Z.ltb_ge _ _) Hl), (proj2 (Z.eqb_eq _ _) Hm), Es, Est.
Qed.

(** After the ELF header: the space, the segments, the stack. *)
Lemma exec_load_ok ip path argv f elf : locked ip f -> Forall (fun arg => Z.of_nat (length arg) < 2 ^ 25) argv -> is_u32 (e_phoff elf) ->
  (forall c, named path c (files s0) -> content ip c f /\ ELFHDR <= Z.of_nat (length c) /\ elf = read_elfhdr (slice c 0 ELFHDR)) -> e_magic elf = ELF_MAGIC ->
  allows E W (executed path argv)
    ((pgdir <- vm (setupkvm END DATA) ;;
      if pgdir =? 0 then fail END pgdir (Some ip)
      else
        r <- load_segments END (Z.to_nat (e_phnum elf)) ip pgdir (e_phoff elf) 0 ;;
        match r with
        | None => fail END pgdir (Some ip)
        | Some sz => fs (iunlockput ip) ;;; fs end_op ;;; exec_stack END path argv (e_entry elf) pgdir sz
        end) (set_files f s0)).
Proof.
  intros Hl Hargs Hoff Hc Hmag. destruct (new_space f) as (pg & k & Ek & Hr). rewrite (kbind_ok _ _ _ _ _ Ek). clear Ek.
  destruct Hr as [(Hne & Hi)|(-> & Hrel & Hn)].
  2:{ cbn [Z.eqb]. eapply allows_mono; [eapply fail_early; [exact Hrel|exact Hl]|]. intros r s' Hu. pose proof Hu as [-> _]. apply undone_executed; [done|].
      intros c im _ (_ & _ & sz & img & _ & _ & Hx)%program_parts. lia. }
  rewrite (proj2 (Z.eqb_neq _ _) Hne). apply allows_bind.
  eapply allows_mono; [apply (load_segments_ok E W END DATA HEND s0 l0 (Z.to_nat (e_phnum elf)) ip pg (e_phoff elf) 0 ∅ _ (fun _ => 0) Hi Hl); try done|].
  { intros i. rewrite lookup_empty. split; [by intros []|lia]. }
  intros r s1 (Hl1 & pm1 & Hi1 & Hu1 & Hf1 & Hc1). destruct r as [sz|].
  2:{ eapply allows_mono; [eapply fail_locked; [exact HEND|exact Hi1|exact Hl1]|]. intros r s' Hu. pose proof Hu as [-> _]. apply undone_executed; [done|].
      intros c im Hnm (_ & _ & sz & img & Es & _ & Hx)%program_parts. destruct (Hc c Hnm) as (Hcc & _ & ->). apply Hc1 with (1 := Hcc) in Es. lia. }
  destruct (Hf1 sz eq_refl) as [Hfull Hsz].
  apply allows_bind, fs_allows. eapply allows_mono; [by apply iunlockput_ok|]. intros [] f2 Hf2.
  apply allows_bind, fs_allows. eapply allows_mono; [by apply end_op_ok|]. intros [] f3 Hf3.
  apply (inv_files _ _ _ _ _ _ _ f3) in Hi1 as Hi3.
  eapply allows_mono; [apply (exec_stack_ok pg pm1 (set_files f3 (set_files f2 s1)) path argv (e_entry elf) sz Hi3 Hf3 Hfull Hu1 Hsz Hargs)|].
  intros r s' [(Hu & Hn)|(-> & Hid & top & esp & Est & Hrun)].
  - pose proof Hu as [-> _]. apply undone_executed; [done|]. intros c im Hnm (_ & _ & sz' & img & Es & Est & _)%program_parts.
    destruct (Hc c Hnm) as (Hcc & _ & Eelf). destruct (Hc1 c Hcc) as (img' & Es' & _). rewrite <- Eelf, Es' in Es. injection Es as -> _. by apply (Hn _ _ Est).
  - right. split; [done|]. split; [done|]. split; [by eexists|]. intros c Hnm. destruct (Hc c Hnm) as (Hcc & Hlen & Eelf). destruct (Hc1 c Hcc) as (img' & Es' & Hv).
    eexists. split; [rewrite Eelf in Hmag, Es'; by apply (program_run c argv sz img' top esp)|]. rewrite <- Eelf. by apply (running_ext _ _ _ img' _ Hrun).
Qed.

Lemma exec_ok path argv : idle (files s0) -> Forall (fun arg => Z.of_nat (length arg) < 2 ^ 25) argv ->
  allows E W (executed path argv) (exec END DATA path argv s0).
Proof.
  intros Hid Hargs. unfold exec. apply allows_bind, fs_allows. eapply allows_mono; [by apply begin_op_ok|]. intros [] f1 [Hop Hnm1].
  apply allows_bind, fs_allows. eapply allows_mono; [by apply namei_ok|]. intros o f2 [Hop2 Hnm2]. destruct o as [ip|].
  2:{ apply allows_bind, fs_allows. eapply allows_mono; [by apply end_op_ok|]. intros [] f3 Hid3.
      destruct (cprintf_ok END "exec: fail" (pages s0) l0 _ old HOLD) as (k & Ek & [V1 _ _ _] & Hm).
      change (set_files f3 (set_files f2 (set_files f1 s0))) with (set_files f3 s0). rewrite (kbind_ok _ _ _ _ _ (vm_run _ (set_files f3 s0) _ _ Ek)).
      apply undone_executed.
      - split; [done|]. split; [|done]. split; try done; [exists l0; by split; [apply (sp_free _ _ _ _ _ V1)|]|]. intros x _. cbn. by rewrite Hm.
      - intros c im Hc. destruct (Hnm2 c) as (ip & ? & _); [by apply Hnm1|done]. }
  apply allows_bind, fs_allows. eapply allows_mono; [by apply ilock_ok|]. intros [] f3 [Hl3 Hc3].
  apply allows_bind, fs_allows. eapply allows_mono; [apply readi_ok; [done|done|by vm_compute]|]. intros [r b] f4 (Hl4 & _ & Hc4).
  set (s4 := set_files f4 _). assert (Hrel : released END s0 l0 s4) by apply (released_start f4).
  assert (Hhdr : forall c, named path c (files s0) -> content ip c f4 /\ (r = ELFHDR -> ELFHDR <= Z.of_nat (length c) /\ map u8 b = slice c 0 ELFHDR) /\
    (r <> ELFHDR -> Z.of_nat (length c) < ELFHDR)).
  { intros c Hn. destruct (Hnm2 c (Hnm1 _ _ Hn)) as (ip' & [= <-] & Hcc). destruct (Hc4 c (Hc3 c Hcc)) as [Hcc4 Hrd]. split; [done|].
    destruct (header_read c 0 ELFHDR r b Hrd) as [Hy Hno]; [done|]. split; [|done]. intros Er. destruct (Hy Er) as [? ?]. split; [lia|done]. }
  destruct (Z.eqb_spec r ELFHDR) as [Er|Er]; cbn [negb].
  2:{ eapply allows_mono; [eapply fail_early; [exact Hrel|exact Hl4]|]. intros r' s' Hu. pose proof Hu as [-> _]. apply undone_executed; [done|].
      intros c im Hn (Hlen & _)%program_parts. destruct (Hhdr c Hn) as (_ & _ & Hlt). specialize (Hlt Er). lia. }
  cbv zeta. destruct (Z.eqb_spec (e_magic (read_elfhdr (map u8 b))) ELF_MAGIC) as [Em|Em]; cbn [negb].
  2:{ eapply allows_mono; [eapply fail_early; [exact Hrel|exact Hl4]|]. intros r' s' Hu. pose proof Hu as [-> _]. apply undone_executed; [done|].
      intros c im Hn (_ & Hmag & _)%program_parts. destruct (Hhdr c Hn) as (_ & Hy & _). destruct (Hy Er) as [_ Eb]. by rewrite Eb in Em. }
  apply (exec_load_ok ip path argv f4 (read_elfhdr (map u8 b))); try done.
  - apply get32_u8.
  - intros c Hn. destruct (Hhdr c Hn) as (Hcc & Hy & _). destruct (Hy Er) as [Hle Eb]. split; [done|]. split; [done|]. by rewrite Eb.
Qed.

(** ** The theorems *)

Context (HIDLE : idle (files s0)).

(** The call failed: the process, its memory and the free pages are as they
    were. *)
Definition untouched (s : state F) : Prop :=
  curproc s = curproc s0 /\ cr3 s = cr3 s0 /\ exists l, space END (pages s) l (Exec.pgdir (curproc s)) old /\ l ≡ₚ l0 /\
    forall a, view (k_mem (pages s)) old a = view (k_mem (pages s0)) old a.

Lemma released_untouched s : released END s0 l0 s -> untouched s.
Proof.
  intros [(l & Hf & Hl) Hm Hp Hc]. split; [done|]. split; [done|]. exists l. rewrite Hp. pose proof (sp_nodup _ _ _ _ _ HOLD) as Hnd.
  pose proof (owned_pages _ _ _ _ _ HOLD) as Hpg. rewrite Forall_forall in Hpg. pose proof Hnd as Hsplit. apply NoDup_app in Hsplit as (_ & Hdis & _).
  destruct (space_view END (pages s0) l0 _ old (pages s) l HOLD Hf) as (Hs & _ & _ & Hv); [by rewrite Hl| |done].
  intros x p Hin Hx. apply Hm. intros q Hq Hqx. apply (Hdis q Hq). replace q with p; [done|]. apply (apart END p q x); try done; apply Hpg, elem_of_app; auto.
Qed.

(** C8: exec is all or nothing.  Started with the file system idle, a valid
    address space and argument strings of less than 2^25 bytes, it ends with the file system idle, and either the answer is
    -1, the process keeps its address space with every byte of it and the free
    pages are the same; or the answer is 0, the process has a fresh space, and
    each page that was free or of the old space is free or of the new one,
    and none is both. *)
Theorem exec_all_or_nothing path argv : Forall (fun arg => Z.of_nat (length arg) < 2 ^ 25) argv ->
  allows E W (fun r s => idle (files s) /\ (r = -1 /\ untouched s \/ r = 0 /\ exists im, running old path argv im s)) (exec END DATA path argv s0).
Proof.
  intros Hargs. eapply allows_mono; [by apply exec_ok|]. intros r s [((-> & Hr & Hid) & _)|(-> & Hid & Hrun & _)].
  - split; [done|]. left. split; [done|]. by apply released_untouched.
  - split; [done|]. by right.
Qed.

(** C9: exec runs the program that the file holds: when the path names a file
    that is a program for these arguments, each of them of less than 2^25 bytes, and
    the free pages are enough, the answer is 0, and the new space holds the segments of the file, the strings
    and pointers of the arguments and zeros everywhere else, with entry point,
    stack pointer and size as the ELF header and the arguments demand. *)
Theorem exec_runs_program path argv c im : Forall (fun arg => Z.of_nat (length arg) < 2 ^ 25) argv ->
  named path c (files s0) -> program c argv = Some im -> needed (i_top im) + 1 < Z.of_nat (length l0) ->
  allows E W (fun r s => r = 0 /\ running old path argv im s) (exec END DATA path argv s0).
Proof.
  intros Hargs Hn Hp Hlen. eapply allows_mono; [by apply exec_ok|]. intros r s [(_ & Hno)|(-> & _ & _ & Hrun)].
  - specialize (Hno c im Hn Hp). lia.
  - split; [done|]. destruct (Hrun c Hn) as (im' & Hp' & Hr). rewrite Hp in Hp'. by injection Hp' as <-.
Qed.

(** C30: exec refuses a file that is no program for these arguments (short, a
    bad magic number, a segment that is out of the file, of the user half or
    not on a page boundary, too many arguments or too long ones, still of less than 2^25 bytes each),
    and then the process is untouched. *)
Theorem exec_refuses path argv c : Forall (fun arg => Z.of_nat (length arg) < 2 ^ 25) argv ->
  named path c (files s0) -> program c argv = None ->
  allows E W (fun r s => r = -1 /\ untouched s) (exec END DATA path argv s0).
Proof.
  intros Hargs Hn Hp. eapply allows_mono; [by apply exec_ok|]. intros r s [((-> & Hr & _) & _)|(_ & _ & _ & Hrun)].
  - split; [done|]. by apply released_untouched.
  - destruct (Hrun c Hn) as (im' & Hp' & _). by rewrite Hp in Hp'.
Qed.

(** C29: The new program reads its arguments back, fewer than MAXARG C strings
    of less than 2^25 bytes: on the stack that exec made,
    argc is the number of arguments, and the loop of sys_exec over argv, run by
    the new program, gives the strings that exec was called with. *)
Theorem exec_passes_arguments path argv : Forall (fun arg => Z.of_nat (length arg) < 2 ^ 25) argv -> Forall c_string argv -> (length argv < File.MAXARG)%nat ->
  allows E W (fun r s => r = 0 -> exists l pm, space END (pages s) l (Exec.pgdir (curproc s)) pm /\
    let m := view (k_mem (pages s)) pm in let u := {| Syscall.u_esp := esp (curproc s); Syscall.u_sz := sz (curproc s) |} in
    load32 m (esp (curproc s) + 4) = Z.of_nat (length argv) /\
    File.exec_args u m (load32 m (esp (curproc s) + 8)) 0 File.MAXARG = Some argv) (exec END DATA path argv s0).
Proof.
  intros Hargs Hstr Hlen. eapply allows_mono; [by apply exec_ok|]. intros r s [((-> & _) & _)|(-> & _ & (im & Hrun) & _)] Hr0; [done|].
  destruct (run_space _ _ _ _ _ Hrun) as (l & pm & Hs & Hst & _ & [Hrg Hw (ptrs & Hp & Hpw)] & _). destruct (run_proc _ _ _ _ _ Hrun) as (-> & _ & -> & _).
  exists l, pm. split; [done|]. cbv zeta. destruct (st_top _ _ Hst) as [_ Ht].
  pose proof (Hw 1%nat _ eq_refl) as H1. pose proof (Hw 2%nat _ eq_refl) as H2. change (4 * Z.of_nat 1) with 4 in H1. change (4 * Z.of_nat 2) with 8 in H2.
  rewrite H1, H2. split; [done|]. pose proof (Forall2_length _ _ _ Hp) as Hpl.
  apply (exec_args_words _ {| Syscall.u_esp := i_esp im; Syscall.u_sz := i_top im |} (i_esp im) ptrs argv 0 (i_esp im + 12)); cbn [Syscall.u_sz]; try done; try (unfold KERNBASE, PGSIZE in *; lia).
  by rewrite Z.mul_0_r, Z.add_0_r.
Qed.
End run.

(** ** Examples *)

(** A file with one segment of four bytes at 0, for 100 bytes of memory. *)
Definition ex_elf : list Z :=
  [0x7F; 0x45; 0x4C; 0x46] ++ replicate 20 0 ++ [2; 0; 0; 0] ++ [52; 0; 0; 0] ++ replicate 12 0 ++ [1; 0] ++ replicate 6 0 ++
  [1; 0; 0; 0] ++ [84; 0; 0; 0] ++ replicate 4 0 ++ replicate 4 0 ++ [4; 0; 0; 0] ++ [100; 0; 0; 0] ++ replicate 8 0 ++ [0xEB; 0xFE; 0x90; 0x90].
Definition ex_path : list Z := [47; 105].
Definition ex_argv : list (list Z) := [[105]; [97; 98]].
Definition ex_files : list (list Z * list Z) := [([47; 97], [1; 2; 3]); (ex_path, ex_elf)].
#[local] Existing Instance ram_files.
#[local] Existing Instance ram_laws.
Definition ex_exec (s : kstate) (pg : Z) : state phase :=
  {| files := Idle; pages := s; curproc := {| Exec.pgdir := pg; sz := 0; eip := 0; esp := 0; name := replicate 16 0; kstack := 1 |}; cr3 := V2P pg |}.

Lemma ex_args : Forall (fun arg => Z.of_nat (length arg) < 2 ^ 25) ex_argv /\ Forall c_string ex_argv.
Proof. split; repeat constructor; cbn; lia. Qed.

Lemma ex_named s pg : @named _ (ram_files ex_files) _ _ (ram_laws ex_files) ex_path ex_elf (files (ex_exec s pg)).
Proof. exists 1%nat. split; [done|]. split; [done|]. split; [|done]. repeat constructor; unfold is_byte; lia. Qed.

Lemma ex_program : exists im, program ex_elf ex_argv = Some im /\ i_top im = 12288 /\ i_esp im = 12256 /\ i_entry im = 2.
Proof. eexists. split; [reflexivity|]. by vm_compute. Qed.

Lemma exec_all_or_nothing_witness : exists s l, 
  allows (fun _ => False) False (fun r s' => files s' = Idle /\ (r = -1 /\ untouched END0 s l ∅ s' \/ r = 0 /\ exists im, running END0 0x80108000 s l ∅ ex_path ex_argv im s'))
    (@exec _ (ram_files ex_files) END0 0x80108000 ex_path ex_argv s).
Proof.
  destruct ex_pages as (s & l & pg & Hs & _). exists (ex_exec s pg), l.
  apply (@exec_all_or_nothing _ (ram_files ex_files) _ _ (ram_laws ex_files) END0 0x80108000 ltac:(done) ltac:(done) (ex_exec s pg) l ∅ Hs ltac:(done) ltac:(done)).
  apply ex_args.
Defined.

Lemma exec_runs_program_witness : exists s l im, i_entry im = 2 /\
  allows (fun _ => False) False (fun r s' => r = 0 /\ running END0 0x80108000 s l ∅ ex_path ex_argv im s')
    (@exec _ (ram_files ex_files) END0 0x80108000 ex_path ex_argv s).
Proof.
  destruct ex_pages as (s & l & pg & Hs & Hl). destruct ex_program as (im & Him & Ht & _ & He). exists (ex_exec s pg), l, im. split; [done|].
  refine (@exec_runs_program _ (ram_files ex_files) _ _ (ram_laws ex_files) END0 0x80108000 _ _ (ex_exec s pg) l ∅ Hs _ _ ex_path ex_argv ex_elf im _ _ Him _).
  - clear. done.
  - clear. done.
  - clear. done.
  - clear. done.
  - apply ex_args.
  - apply (ex_named s pg).
  - rewrite Ht. change (needed 12288) with 1028. lia.
Defined.

Lemma exec_refuses_witness : exists s l,
  allows (fun _ => False) False (fun r s' => r = -1 /\ untouched END0 s l ∅ s') (@exec _ (ram_files ex_files) END0 0x80108000 [47; 97] [] s).
Proof.
  destruct ex_pages as (s & l & pg & Hs & _). exists (ex_exec s pg), l.
  apply (@exec_refuses _ (ram_files ex_files) _ _ (ram_laws ex_files) END0 0x80108000 ltac:(done) ltac:(done) (ex_exec s pg) l ∅ Hs ltac:(done) ltac:(done) [47; 97] [] [1; 2; 3]).
  - constructor.
  - exists 0%nat. split; [done|]. split; [done|]. split; [|done]. repeat constructor; unfold is_byte; lia.
  - done.
Defined.

Lemma exec_passes_arguments_witness : exists s,
  allows (fun _ => False) False (fun r s' => r = 0 -> exists l pm, space END0 (pages s') l (Exec.pgdir (curproc s')) pm /\
    let m := view (k_mem (pages s')) pm in let u := {| Syscall.u_esp := esp (curproc s'); Syscall.u_sz := sz (curproc s') |} in
    load32 m (esp (curproc s') + 4) = 2 /\
    File.exec_args u m (load32 m (esp (curproc s') + 8)) 0 File.MAXARG = Some ex_argv) (@exec _ (ram_files ex_files) END0 0x80108000 ex_path ex_argv s).
Proof.
  destruct ex_pages as (s & l & pg & Hs & _). exists (ex_exec s pg).
  apply (@exec_passes_arguments _ (ram_files ex_files) _ _ (ram_laws ex_files) END0 0x80108000 ltac:(done) ltac:(done) (ex_exec s pg) l ∅ Hs ltac:(done) ltac:(done)); [apply ex_args|apply ex_args|].
  unfold File.MAXARG. cbn. lia.
Defined.
