(* ===== verification/Shell.v ===== *)
(** * The shell's parser (sh.c)

    The line is the list [buf] of its bytes, without the NUL; a pointer into
    it is an index, and the index past the end reads as the NUL.  A command
    keeps the begin and end pointers of its words, as the code does, until
    nulterminate writes a NUL at each end.  The shell's panic, which prints
    and exits, is the panic of the model.  [malloc] is taken to succeed. *)

From S2P Require Import Prelude Mem.
#[local] Open Scope Z_scope.
#[local] Open Scope kernel_scope.

Definition MAXARGS : nat := 10.
Definition O_RDONLY : Z := 0.
Definition O_WRONLY : Z := 1.
Definition O_CREATE : Z := 0x200.

(** A word: its first byte and the byte after its last. *)
Definition word : Type := nat * nat.

(** [struct execcmd], [redircmd], [pipecmd], [listcmd] and [backcmd]. *)
Inductive cmd :=
| EXEC (argv : list word)
| REDIR (c : cmd) (file : word) (mode fd : Z)
| PIPE (left right : cmd)
| LIST (left right : cmd)
| BACK (c : cmd).

Definition whitespace : list Z := [32; 9; 13; 10; 11].
Definition symbols : list Z := [60; 124; 62; 38; 59; 40; 41].

(** [strchr(s, c)] of ulib.c as a truth value; the NUL is never found. *)
Definition strchr (s : list Z) (c : Z) : bool := bool_decide (c ∈ s).

(** The parser moves the pointer [*ps]. *)
Definition SP : Type -> Type := K nat.

Section parser.
Context (buf : list Z).

Definition es : nat := length buf.
Definition at_ (s : nat) : Z := default 0 (buf !! s).

(** [while (s < es && ok( *s)) s++]. *)
Fixpoint span (ok : Z -> bool) (s todo : nat) : nat :=
  match todo with
  | O => s
  | S todo => if ok (at_ s) then span ok (S s) todo else s
  end.
Definition skip_space (s : nat) : nat := span (strchr whitespace) s (es - s).
Definition word_end (s : nat) : nat := span (fun c => negb (strchr whitespace c) && negb (strchr symbols c)) s (es - s).

(** The result and the pointer after the token that starts at [s]. *)
Definition token (s : nat) : Z * nat :=
  let c := at_ s in
  if c =? 0 then (0, s)
  else if bool_decide (c ∈ [124; 40; 41; 59; 38; 60]) then (c, S s)
  else if c =? 62 then if at_ (S s) =? 62 then (43, S (S s)) else (c, S s)
  else (97, word_end s).

(** [gettoken(ps, es, &q, &eq)]: the token and the word. *)
Definition gettoken : SP (Z * word) :=
  s <- gets id ;;
  let q := skip_space s in
  let '(ret, eq) := token q in
  modify (fun _ => skip_space eq) ;;;
  kret (ret, (q, eq)).

Definition peek (toks : list Z) : SP bool :=
  s <- gets id ;;
  let s := skip_space s in
  modify (fun _ => s) ;;;
  kret (negb (at_ s =? 0) && strchr toks (at_ s)).

(** The arguments of redircmd after the command: file, mode and descriptor.
    parseredirs wraps its command in one redircmd after the other; since
    parseexec goes on filling the command inside, they are kept apart. *)
Definition redir : Type := word * Z * Z.
Definition wrap (c : cmd) (rs : list redir) : cmd := fold_left (fun c '(w, m, f) => REDIR c w m f) rs c.

Fixpoint parseredirs (fuel : nat) : SP (list redir) :=
  p <- peek [60; 62] ;;
  if negb p then kret []
  else
    match fuel with
    | O => nofuel
    | S fuel =>
        '(tok, _) <- gettoken ;;
        '(a, w) <- gettoken ;;
        if negb (a =? 97) then panic "missing file for redirection"
        else
          let r := if tok =? 60 then (w, O_RDONLY, 0) else (w, Z.lor O_WRONLY O_CREATE, 1) in
          rs <- parseredirs fuel ;;
          kret (r :: rs)
    end.

(** The loop of parseexec with [argv] filled so far: the arguments and the
    redirections met. *)
Fixpoint parseargs (fuel : nat) (argv : list word) : SP (list word * list redir) :=
  p <- peek [124; 41; 38; 59] ;;
  if p : bool then kret (argv, [])
  else
    match fuel with
    | O => nofuel
    | S fuel =>
        '(tok, w) <- gettoken ;;
        if tok =? 0 then kret (argv, [])
        else if negb (tok =? 97) then panic "syntax"
        else
          let argv := argv ++ [w] in
          if (MAXARGS <=? length argv)%nat then panic "too many args"
          else
            rs <- parseredirs es ;;
            '(argv, rs') <- parseargs fuel argv ;;
            kret (argv, rs ++ rs')
    end.

(** [while (peek(ps, es, "&")) { gettoken(ps, es, 0, 0); cmd = backcmd(cmd); }]. *)
Fixpoint parseback (fuel : nat) (c : cmd) : SP cmd :=
  p <- peek [38] ;;
  if negb p then kret c
  else
    match fuel with
    | O => nofuel
    | S fuel => gettoken ;;; parseback fuel (BACK c)
    end.

Fixpoint parseline (fuel : nat) : SP cmd :=
  match fuel with
  | O => nofuel
  | S fuel =>
      c <- parsepipe fuel ;;
      c <- parseback es c ;;
      p <- peek [59] ;;
      if p : bool then
        gettoken ;;;
        r <- parseline fuel ;;
        kret (LIST c r)
      else kret c
  end
with parsepipe (fuel : nat) : SP cmd :=
  match fuel with
  | O => nofuel
  | S fuel =>
      c <- parseexec fuel ;;
      p <- peek [124] ;;
      if p : bool then
        gettoken ;;;
        r <- parsepipe fuel ;;
        kret (PIPE c r)
      else kret c
  end
with parseblock (fuel : nat) : SP cmd :=
  match fuel with
  | O => nofuel
  | S fuel =>
      p <- peek [40] ;;
      if negb p then panic "parseblock"
      else
        gettoken ;;;
        c <- parseline fuel ;;
        p <- peek [41] ;;
        if negb p then panic "syntax - missing )"
        else
          gettoken ;;;
          rs <- parseredirs es ;;
          kret (wrap c rs)
  end
with parseexec (fuel : nat) : SP cmd :=
  match fuel with
  | O => nofuel
  | S fuel =>
      p <- peek [40] ;;
      if p : bool then parseblock fuel
      else
        rs <- parseredirs es ;;
        '(argv, rs') <- parseargs (S es) [] ;;
        kret (wrap (EXEC argv) (rs ++ rs'))
  end.

(** Four calls lead from one parseline to the next, which starts at least one
    byte further on. *)
Definition parse_fuel : nat := 4 * es + 4.

End parser.

(** [nulterminate(cmd)]: the bytes of the line, its NUL included, after it. *)
Fixpoint nulterminate (c : cmd) (b : list Z) : list Z :=
  match c with
  | EXEC argv => fold_left (fun b (w : word) => <[w.2 := 0]> b) argv b
  | REDIR c file _ _ => <[file.2 := 0]> (nulterminate c b)
  | PIPE l r | LIST l r => nulterminate r (nulterminate l b)
  | BACK c => nulterminate c b
  end.

(** [parsecmd(s)]: the command and the bytes of the line after it. *)
Definition parsecmd (buf : list Z) : outcome nat (cmd * list Z) :=
  (c <- parseline buf (parse_fuel buf) ;;
   peek buf [] ;;;
   s <- gets id ;;
   if negb (Nat.eqb s (es buf)) then panic "syntax"
   else kret (c, nulterminate c (buf ++ [0]))) 0%nat.

(** The words of a command. *)
Fixpoint words (c : cmd) : list word :=
  match c with
  | EXEC argv => argv
  | REDIR c file _ _ => words c ++ [file]
  | PIPE l r | LIST l r => words l ++ words r
  | BACK c => words c
  end.

(** The C string at [s]. *)
Fixpoint upto_nul (b : list Z) : list Z :=
  match b with
  | [] => []
  | c :: b => if c =? 0 then [] else c :: upto_nul b
  end.
Definition string_at (b : list Z) (s : nat) : list Z := upto_nul (drop s b).

(** ** Where the parser ends, and the words it finds *)

Section facts.
Context (buf : list Z).
#[local] Abbreviation es := (es buf).
#[local] Abbreviation at_ := (at_ buf).

Definition word_char (c : Z) : bool := negb (strchr whitespace c) && negb (strchr symbols c).

Record word_ok (w : word) : Prop := {
  wo_range : (w.1 < w.2 <= es)%nat;
  wo_chars : forall i, (w.1 <= i < w.2)%nat -> word_char (at_ i) = true;
  wo_end : w.2 = es \/ word_char (at_ w.2) = false }.

(** [m] at [s] ends without running out of bounds, and where it does not
    panic its result satisfies [Q]. *)
Definition ends {A} (m : SP A) (s : nat) (Q : A -> nat -> Prop) : Prop :=
  match m s with Ok a s' => Q a s' | Panic _ => True | Fault _ | NoFuel => False end.

Lemma ends_bind {A B} (m : SP A) (f : A -> SP B) s (Q : B -> nat -> Prop) :
  ends m s (fun a s' => ends (f a) s' Q) -> ends (kbind m f) s Q.
Proof. unfold ends, kbind. by destruct (m s). Qed.
Lemma ends_mono {A} (m : SP A) s (P Q : A -> nat -> Prop) : ends m s P -> (forall a s', P a s' -> Q a s') -> ends m s Q.
Proof. unfold ends. intros H HPQ. destruct (m s); auto. Qed.

Lemma at_in s : at_ s <> 0 -> (s < es)%nat.
Proof. unfold Shell.at_, Shell.es. intros H. destruct (buf !! s) eqn:E; [by eapply lookup_lt_Some|done]. Qed.

Lemma span_spec ok s todo : let e := span buf ok s todo in
  (s <= e <= s + todo)%nat /\ (forall i, (s <= i < e)%nat -> ok (at_ i) = true) /\ (e = (s + todo)%nat \/ ok (at_ e) = false).
Proof.
  revert s. induction todo as [|todo IH]; intros s; cbn [span]; [split; [lia|split; [lia|left; lia]]|].
  destruct (ok (at_ s)) eqn:Hs; [|split; [lia|split; [lia|by right]]].
  destruct (IH (S s)) as (I1 & I2 & I3). split; [lia|]. split.
  - intros i Hi. destruct (decide (i = s)) as [->|]; [done|]. apply I2. lia.
  - destruct I3 as [I3|I3]; [left; lia|by right].
Qed.

Lemma skip_space_spec s : (s <= es)%nat ->
  let e := skip_space buf s in (s <= e <= es)%nat /\ (e = es \/ strchr whitespace (at_ e) = false).
Proof.
  intros Hs. destruct (span_spec (strchr whitespace) s (es - s)) as (H1 & _ & H2).
  unfold skip_space. split; [lia|]. destruct H2 as [H2|H2]; [left; lia|by right].
Qed.

Lemma token_spec s : (s <= es)%nat -> s = es \/ strchr whitespace (at_ s) = false ->
  let '(r, e) := token buf s in
  (s <= e <= es)%nat /\ (r <> 0 -> (s < e)%nat) /\ (r = 0 -> s = e /\ at_ s = 0) /\ (r = 97 -> word_ok (s, e)).
Proof.
  intros Hs Hw. unfold token. destruct (Z.eqb_spec (at_ s) 0) as [H0|H0]; [repeat split; lia|].
  pose proof (at_in s H0) as Hlt. case_bool_decide as Hsym.
  { split; [lia|]. split; [lia|]. split; [lia|]. intros E. exfalso. rewrite E in Hsym. rewrite !elem_of_cons, elem_of_nil in Hsym. lia. }
  destruct (Z.eqb_spec (at_ s) 62) as [H62|H62].
  { destruct (Z.eqb_spec (at_ (S s)) 62) as [H1|H1]; [|split; [lia|]; split; [lia|]; split; lia].
    pose proof (at_in (S s) ltac:(lia)). split; [lia|]. split; [lia|]. split; lia. }
  assert (Hws : strchr whitespace (at_ s) = false) by (destruct Hw as [->|]; [lia|done]).
  assert (Hc : word_char (at_ s) = true).
  { unfold word_char. rewrite Hws. cbn. unfold strchr. rewrite bool_decide_eq_false_2; [done|]. intros H. apply Hsym.
    unfold symbols in H. rewrite !elem_of_cons in *. tauto. }
  destruct (span_spec word_char s (es - s)) as (S1 & S2 & S3). fold word_char in *. unfold word_end. fold word_char.
  set (e := span buf word_char s (es - s)) in *.
  assert (Hne : e <> s) by (intros ->; destruct S3 as [S3|S3]; [lia|congruence]).
  split; [lia|]. split; [lia|]. split; [done|]. intros _. split; cbn; [lia|done|].
  destruct S3 as [S3|S3]; [left; lia|by right].
Qed.

Lemma gettoken_ends s : (s <= es)%nat ->
  ends (gettoken buf) s (fun '(r, w) s' => (s <= s' <= es)%nat /\ (r <> 0 -> (s < s')%nat) /\ (r = 0 -> at_ (skip_space buf s) = 0) /\ (r = 97 -> word_ok w)).
Proof.
  intros Hs. destruct (skip_space_spec s Hs) as (H1 & H2).
  pose proof (token_spec (skip_space buf s) ltac:(lia) H2) as Ht. unfold ends, gettoken, kbind, gets, modify.
  cbn. destruct (token buf (skip_space buf s)) as [r e]. destruct Ht as (T1 & T2 & T3 & T4).
  destruct (skip_space_spec e ltac:(lia)) as (H3 & _). cbn. split; [lia|]. split; [intros Hr; specialize (T2 Hr); lia|].
  split; [|done]. intros Hr. by apply T3.
Qed.

Lemma peek_ends toks s : (s <= es)%nat ->
  ends (peek buf toks) s (fun b s' => (s <= s' <= es)%nat /\ s' = skip_space buf s /\ (b = true -> at_ s' <> 0 /\ strchr toks (at_ s') = true)
     /\ (b = false -> at_ s' = 0 \/ strchr toks (at_ s') = false)).
Proof.
  intros Hs. destruct (skip_space_spec s Hs) as (H1 & _). unfold ends, peek, kbind, gets, modify. cbn.
  split; [lia|]. split; [done|]. destruct (Z.eqb_spec (at_ (skip_space buf s)) 0) as [H0|H0]; cbn; [split; [done|by left]|].
  split; [done|]. intros H. by right.
Qed.

Lemma skip_space_here s : strchr whitespace (at_ s) = false -> skip_space buf s = s.
Proof. intros H. unfold skip_space. destruct (es - s)%nat; cbn [span]; [done|]. by rewrite H. Qed.

Lemma gettoken_after s : at_ s <> 0 -> strchr whitespace (at_ s) = false ->
  ends (gettoken buf) s (fun '(r, w) s' => (s < s' <= es)%nat /\ r <> 0 /\ (r = 97 -> word_ok w)).
Proof.
  intros H0 Hw. pose proof (at_in s H0). eapply ends_mono; [apply gettoken_ends; lia|].
  intros [r w] s' (H1 & H2 & H3 & H4). rewrite (skip_space_here s Hw) in H3.
  assert (r <> 0) by (intros ->; by apply H0, H3). specialize (H2 ltac:(done)). split; [lia|done].
Qed.

(** [peek] and then the continuation, at the pointer that peek leaves. *)
Lemma peek_then {B} toks (f : bool -> SP B) s Q : (s <= es)%nat ->
  (forall s', (s <= s' <= es)%nat -> at_ s' <> 0 -> strchr whitespace (at_ s') = false -> strchr toks (at_ s') = true -> ends (f true) s' Q) ->
  (forall s', (s <= s' <= es)%nat -> at_ s' = 0 \/ strchr whitespace (at_ s') = false /\ strchr toks (at_ s') = false -> ends (f false) s' Q) ->
  ends (kbind (peek buf toks) f) s Q.
Proof.
  intros Hs Ht Hf. apply ends_bind. eapply ends_mono; [by apply peek_ends|]. cbn beta.
  intros b s' (H1 & -> & H2 & H3). destruct (skip_space_spec s Hs) as (_ & H4). destruct b.
  - destruct (H2 eq_refl) as [H0 Hc]. pose proof (at_in _ H0). apply Ht; try done. destruct H4; [lia|done].
  - apply Hf; [done|]. destruct (H3 eq_refl) as [H0|H0]; [by left|]. destruct H4 as [H4|H4]; [|by right].
    left. rewrite H4. unfold Shell.at_. by rewrite lookup_ge_None_2 by (unfold Shell.es; lia).
Qed.

Definition redir_ok (r : redir) : Prop := word_ok r.1.1.

Lemma parseredirs_ends fuel s : (s <= es)%nat -> (es - s <= fuel)%nat ->
  ends (parseredirs buf fuel) s (fun rs s' => (s <= s' <= es)%nat /\ Forall redir_ok rs).
Proof.
  revert s. induction fuel as [|fuel IH]; intros s Hs Hf; cbn [parseredirs]; (apply peek_then; [done|intros s1 H1 H0 Hw Hc|intros s1 H1 _]); cbn [negb].
  - pose proof (at_in s1 H0). lia.
  - split; [lia|constructor].
  - apply ends_bind. eapply ends_mono; [by apply gettoken_after|]. intros [tok w0] s2 (H2 & _ & _). cbn.
    apply ends_bind. eapply ends_mono; [apply gettoken_ends; lia|]. intros [a w] s3 (H3 & _ & _ & Hw3). cbn.
    destruct (Z.eqb_spec a 97) as [->|]; [|exact I]. cbn. apply ends_bind.
    eapply ends_mono; [apply IH; lia|]. cbn. intros rs s4 (H4 & H5). split; [lia|]. constructor; [|done].
    unfold redir_ok. destruct (tok =? 60); by apply Hw3.
  - split; [lia|constructor].
Qed.

Lemma parseargs_ends fuel argv s : (s <= es)%nat -> (es - s < fuel)%nat -> Forall word_ok argv ->
  ends (parseargs buf fuel argv) s (fun '(argv, rs) s' => (s <= s' <= es)%nat /\ Forall word_ok argv /\ Forall redir_ok rs).
Proof.
  revert argv s. induction fuel as [|fuel IH]; intros argv s Hs Hf Ha; [lia|]. cbn [parseargs].
  apply peek_then; [done|intros s1 H1 H0 Hw Hc; split; [lia|by repeat constructor]|intros s1 H1 H0].
  apply ends_bind. eapply ends_mono; [apply gettoken_ends; lia|]. intros [tok w] s2 (H2 & Hpos & _ & Hw). cbn.
  destruct (Z.eqb_spec tok 0) as [->|Ht]; [split; [lia|by repeat constructor]|]. specialize (Hpos Ht).
  destruct (Z.eqb_spec tok 97) as [->|]; [|exact I]. cbn [negb]. match goal with |- ends (if ?b then _ else _) _ _ => destruct b; [exact I|] end.
  apply ends_bind. eapply ends_mono; [apply parseredirs_ends; lia|]. cbn. intros rs s3 (H3 & Hrs).
  apply ends_bind. eapply ends_mono; [apply IH; [lia|lia|]|].
  - apply Forall_app. split; [done|]. constructor; [by apply Hw|constructor].
  - intros [argv' rs'] s4 (H4 & H5 & H6). cbn. split; [lia|]. split; [done|]. by apply Forall_app.
Qed.

Lemma parseback_ends fuel c s : (s <= es)%nat -> (es - s <= fuel)%nat ->
  ends (parseback buf fuel c) s (fun c' s' => (s <= s' <= es)%nat /\ words c' = words c).
Proof.
  revert c s. induction fuel as [|fuel IH]; intros c s Hs Hf; cbn [parseback]; (apply peek_then; [done|intros s1 H1 H0 Hw Hc|intros s1 H1 _]); cbn [negb].
  - pose proof (at_in s1 H0). lia.
  - split; [lia|done].
  - apply ends_bind. eapply ends_mono; [by apply gettoken_after|]. intros [tok w0] s2 (H2 & _ & _). cbn.
    eapply ends_mono; [apply IH; lia|]. cbn. intros c' s3 (H3 & ->). split; [lia|done].
  - split; [lia|done].
Qed.

Lemma words_wrap c rs : words (wrap c rs) = words c ++ map (fun r => r.1.1) rs.
Proof.
  unfold wrap. revert c. induction rs as [|[[w m] f] rs IH]; intros c; cbn; [by rewrite app_nil_r|].
  rewrite IH. cbn. by rewrite <- app_assoc.
Qed.

Lemma wrap_ok c rs : Forall word_ok (words c) -> Forall redir_ok rs -> Forall word_ok (words (wrap c rs)).
Proof. intros Hc Hr. rewrite words_wrap. apply Forall_app. split; [done|]. by apply Forall_map. Qed.

(** What each of the four routines does from [s] on. *)
Definition parsed (s : nat) (c : cmd) (s' : nat) : Prop := (s <= s' <= es)%nat /\ Forall word_ok (words c).

Lemma parser_ends fuel :
  (forall s, (s <= es)%nat -> (4 * (es - s) + 4 <= fuel)%nat -> ends (parseline buf fuel) s (parsed s))
  /\ (forall s, (s <= es)%nat -> (4 * (es - s) + 3 <= fuel)%nat -> ends (parsepipe buf fuel) s (parsed s))
  /\ (forall s, (s <= es)%nat -> (4 * (es - s) + 1 <= fuel)%nat -> ends (parseblock buf fuel) s (parsed s))
  /\ (forall s, (s <= es)%nat -> (4 * (es - s) + 2 <= fuel)%nat -> ends (parseexec buf fuel) s (parsed s)).
Proof.
  induction fuel as [|fuel (IHl & IHp & IHb & IHe)]; [repeat split; lia|]. repeat split; intros s Hs Hf;
    cbn [parseline parsepipe parseblock parseexec].
  - apply ends_bind. eapply ends_mono; [apply IHp; lia|]. intros c s1 (H1 & Hc). apply ends_bind.
    eapply ends_mono; [apply parseback_ends; lia|]. cbn beta. intros c' s2 (H2 & Hc'). rewrite <- Hc' in Hc.
    apply peek_then; [lia|intros s3 H3 H0 Hw _|intros s3 H3 _; split; [lia|done]].
    apply ends_bind. eapply ends_mono; [by apply gettoken_after|]. intros [tok w] s4 (H4 & _). apply ends_bind.
    eapply ends_mono; [apply IHl; lia|]. intros r s5 (H5 & Hr). split; [lia|]. cbn. by apply Forall_app.
  - apply ends_bind. eapply ends_mono; [apply IHe; lia|]. intros c s1 (H1 & Hc).
    apply peek_then; [lia|intros s3 H3 H0 Hw _|intros s3 H3 _; split; [lia|done]].
    apply ends_bind. eapply ends_mono; [by apply gettoken_after|]. intros [tok w] s4 (H4 & _). apply ends_bind.
    eapply ends_mono; [apply IHp; lia|]. intros r s5 (H5 & Hr). split; [lia|]. cbn. by apply Forall_app.
  - apply peek_then; [lia|intros s1 H1 H0 Hw _|intros; exact I]. cbn [negb].
    apply ends_bind. eapply ends_mono; [by apply gettoken_after|]. intros [tok w] s2 (H2 & _). apply ends_bind.
    eapply ends_mono; [apply IHl; lia|]. intros c s3 (H3 & Hc).
    apply peek_then; [lia|intros s4 H4 H0' Hw' _|intros; exact I]. cbn [negb].
    apply ends_bind. eapply ends_mono; [by apply gettoken_after|]. intros [tok' w'] s5 (H5 & _). apply ends_bind.
    eapply ends_mono; [apply parseredirs_ends; lia|]. intros rs s6 (H6 & Hrs). split; [lia|]. by apply wrap_ok.
  - apply peek_then; [lia|intros s1 H1 H0 Hw _|intros s1 H1 _].
    + eapply ends_mono; [apply IHb; lia|]. intros c s2 (H2 & Hc). split; [lia|done].
    + apply ends_bind. eapply ends_mono; [apply parseredirs_ends; lia|]. intros rs s2 (H2 & Hrs). apply ends_bind.
      eapply ends_mono; [apply parseargs_ends; [lia|lia|constructor]|]. intros [argv rs'] s3 (H3 & Ha & Hrs').
      split; [lia|]. apply wrap_ok; [done|]. by apply Forall_app.
Qed.
End facts.

(** The writes of nulterminate. *)
Definition clear (b : list Z) (w : word) : list Z := <[w.2 := 0]> b.

Lemma nulterminate_words c b : nulterminate c b = fold_left clear (words c) b.
Proof.
  revert b. induction c as [argv|c IH w m f|l IHl r IHr|l IHl r IHr|c IH]; intros b; cbn; [done|..|by apply IH];
    rewrite fold_left_app; [by rewrite IH|by rewrite IHl, IHr..].
Qed.

Lemma clear_all l b i : length (fold_left clear l b) = length b
  /\ (i ∈ map snd l -> (i < length b)%nat -> fold_left clear l b !! i = Some 0)
  /\ (i ∉ map snd l -> fold_left clear l b !! i = b !! i).
Proof.
  revert b. induction l as [|w l IH]; intros b; cbn [fold_left map].
  { split; [done|]. split; [by intros H%elem_of_nil|done]. }
  destruct (IH (clear b w)) as (I1 & I2 & I3). unfold clear in *. rewrite length_insert in I1, I2. split; [done|]. split.
  - intros H Hi. destruct (decide (i ∈ map snd l)) as [Hl|Hl]; [by apply I2|]. rewrite I3 by done.
    apply elem_of_cons in H as [->|H]; [|done]. by apply list_lookup_insert_eq.
  - intros [H1 H2]%not_elem_of_cons. rewrite I3 by done. by rewrite list_lookup_insert_ne.
Qed.

Lemma upto_nul_prefix (b : list Z) n : (forall i, (i < n)%nat -> exists c, b !! i = Some c /\ c <> 0) -> b !! n = Some 0 -> upto_nul b = take n b.
Proof.
  revert n. induction b as [|c b IH]; intros [|n] H H0; cbn in *; try done.
  - by injection H0 as ->.
  - destruct (H 0%nat ltac:(lia)) as (c' & [= <-] & Hc). destruct (Z.eqb_spec c 0); [done|]. f_equal. apply IH; [|done].
    intros i Hi. by apply (H (S i) ltac:(lia)).
Qed.

(** The bytes of a word. *)
Definition text (buf : list Z) (w : word) : list Z := take (w.2 - w.1) (drop w.1 buf).

Lemma parsecmd_ends buf : match parsecmd buf with Ok _ _ | Panic _ => True | Fault _ | NoFuel => False end.
Proof.
  refine (_ : ends _ 0%nat (fun _ _ => True)). apply ends_bind. eapply ends_mono; [apply parser_ends; [lia|unfold parse_fuel; lia]|]. intros c s (H & _).
  apply ends_bind. eapply ends_mono; [apply peek_ends; lia|]. intros ? s' _. cbn. unfold ends, kbind, gets. by destruct (negb _).
Qed.

(** C37: The parser comes to an end on every line: with a command, or in its
    panic on a syntax error or too many arguments. *)
Theorem parsecmd_terminates buf : (exists c b s, parsecmd buf = Ok (c, b) s) \/ exists e, parsecmd buf = Panic e.
Proof. pose proof (parsecmd_ends buf) as H. destruct (parsecmd buf) as [[c b] s|e| |]; [left; eauto|right; eauto|done..]. Qed.

(** C23: Every word of a parsed line is a nonempty run of characters that are
    neither space nor symbol, delimited on both sides as far as it goes; and
    although nulterminate overwrites the byte after each word, every word
    reads back from the line as a C string unchanged. *)
Theorem parsecmd_words buf c b s : Forall (fun x => x <> 0) buf -> parsecmd buf = Ok (c, b) s ->
  length b = S (length buf) /\ Forall (fun w => text buf w <> [] /\ Forall (fun x => word_char x = true) (text buf w)
     /\ string_at b w.1 = text buf w) (words c).
Proof.
  intros Hnz H. unfold parsecmd in H. kinv H.
  pose proof (proj1 (parser_ends buf (parse_fuel buf)) 0%nat ltac:(lia) ltac:(unfold parse_fuel; lia)) as Hp.
  unfold ends in Hp. rewrite Hrun in Hp. destruct Hp as [_ Hw]. kinv H. kinv H. destruct (negb _); [discriminate|]. injection H as <- <- _.
  rewrite nulterminate_words. set (l := words a) in *. destruct (clear_all l (buf ++ [0]) 0%nat) as [Hlen _]. rewrite length_app in Hlen. cbn in Hlen.
  split; [lia|]. apply Forall_forall. intros w Hin. rewrite Forall_forall in Hw. destruct (Hw w Hin) as [W1 W2 W3]. unfold es in W1.
  assert (Hat : forall i, (w.1 <= i < w.2)%nat -> buf !! i = Some (at_ buf i)).
  { intros i Hi. unfold at_. destruct (buf !! i) eqn:E; [done|]. apply lookup_ge_None in E. lia. }
  assert (Hmid : forall i, (w.1 <= i < w.2)%nat -> i ∉ map snd l).
  { intros i Hi (w' & -> & Hw')%list_elem_of_fmap. destruct (Hw w' Hw') as [V1 V2 V3]. unfold es in V1.
    destruct V3 as [V3|V3]; [unfold es in V3; lia|]. rewrite (W2 _ Hi) in V3. done. }
  assert (Hlook : forall i, (w.1 <= i < w.2)%nat -> fold_left clear l (buf ++ [0]) !! i = Some (at_ buf i)).
  { intros i Hi. destruct (clear_all l (buf ++ [0]) i) as (_ & _ & Ec). rewrite (Ec (Hmid i Hi)). rewrite lookup_app_l by lia. by apply Hat. }
  assert (Hlt : length (text buf w) = (w.2 - w.1)%nat) by (unfold text; rewrite length_take, length_drop; lia).
  split; [intros E; rewrite E in Hlt; cbn in Hlt; lia|]. split.
  - apply Forall_lookup. intros i x Hi. pose proof (lookup_lt_Some _ _ _ Hi). unfold text in Hi.
    rewrite lookup_take_Some, lookup_drop in Hi. destruct Hi as [Hi _]. rewrite Hat in Hi by lia. injection Hi as <-. apply W2. lia.
  - unfold string_at. rewrite (upto_nul_prefix _ (w.2 - w.1)).
    + unfold text. apply list_eq. intros i. destruct (decide (i < w.2 - w.1)%nat) as [Hi|Hi].
      * rewrite !lookup_take_lt, !lookup_drop by done. rewrite Hlook, Hat by lia. done.
      * rewrite !lookup_take_ge by lia. done.
    + intros i Hi. rewrite lookup_drop, Hlook by lia. eexists. split; [done|].
      rewrite Forall_lookup in Hnz. by apply (Hnz (w.1 + i)%nat), Hat; lia.
    + rewrite lookup_drop. replace (w.1 + (w.2 - w.1))%nat with w.2 by lia.
      apply clear_all; [by apply list_elem_of_fmap_2|rewrite length_app; cbn; lia].
Qed.

(** "ls>x&" *)
Lemma parsecmd_words_witness : exists c b s,
  parsecmd [108; 115; 62; 120; 38] = Ok (c, b) s /\ string_at b 0 = [108; 115] /\ string_at b 3 = [120].
Proof.
  destruct (parsecmd [108; 115; 62; 120; 38]) as [[c b] s| | |] eqn:E; [|exfalso; vm_compute in E; discriminate..].
  destruct (parsecmd_words [108; 115; 62; 120; 38] c b s) as (_ & H); [repeat constructor; discriminate|exact E|].
  exists c, b, s. split; [reflexivity|]. assert (Hw : words c = [(0, 2); (3, 4)]%nat) by (vm_compute in E; injection E as <- _ _; reflexivity).
  rewrite Hw in H. apply Forall_cons in H as [(_ & _ & H1) H]. apply Forall_cons in H as [(_ & _ & H2) _].
  split; [exact H1|exact H2].
Defined.
