(* ===== verification/ShellRun.v ===== *)
(** * The shell as a program (sh.c: runcmd, main)

    What a process of the shell does is a tree of system calls: each call has
    the rest of the program for every answer of the kernel.  The tree is run in
    two ways.  [run] lets a forked child finish before its parent goes on, with
    calls that succeed or not as an oracle says: it is compared with the meaning
    of the command as a plan of programs and their files.  [step] interleaves
    any number of processes and lets every call fail.

    Of the kernel, only the descriptors matter here: File.v has the calls.
    A line is what gets leaves in the buffer up to the NUL.  The newline that
    ends each message, the prompt and the "leftovers" line are left out. *)

From S2P Require Import Prelude Mem Shell.
#[local] Open Scope Z_scope.

(** ** The program *)

Definition O_RDWR : Z := 2.

Inductive code :=
| Exit
| Diverge                                        (* a loop that was cut off *)
| Say (fd : Z) (fmt : string) (arg : list Z) (k : code)
| Close (fd : Z) (k : code)
| Dup (fd : Z) (k : code)
| Open (name : list Z) (mode : Z) (k : Z -> code)
| Pipe (k : option (Z * Z) -> code)              (* the two descriptors, or -1 *)
| Fork (k : Z -> code)
| Wait (k : code)
| Chdir (name : list Z) (k : Z -> code)
| Exec (path : list Z) (argv : list (list Z)) (k : code).

Definition panic (s : string) : code := Say 2 s [] Exit.

Definition fork1 (k : Z -> code) : code := Fork (fun pid => if pid =? -1 then panic "fork" else k pid).

(** [runcmd(cmd)], with the bytes [b] of the line. *)
Fixpoint runcmd (b : list Z) (c : cmd) : code :=
  match c with
  | EXEC argv =>
      match argv with
      | [] => Exit
      | w :: _ =>
          Exec (string_at b w.1) (map (fun w : word => string_at b w.1) argv)
            (Say 2 "exec %s failed" (string_at b w.1) Exit)
      end
  | REDIR c file mode fd =>
      Close fd (Open (string_at b file.1) mode (fun r =>
        if r <? 0 then Say 2 "open %s failed" (string_at b file.1) Exit else runcmd b c))
  | LIST l r =>
      fork1 (fun pid => if pid =? 0 then runcmd b l else Wait (runcmd b r))
  | PIPE l r =>
      Pipe (fun p =>
        match p with
        | None => panic "pipe"
        | Some (p0, p1) =>
            fork1 (fun pid =>
              if pid =? 0 then Close 1 (Dup p1 (Close p0 (Close p1 (runcmd b l))))
              else fork1 (fun pid =>
                if pid =? 0 then Close 0 (Dup p0 (Close p0 (Close p1 (runcmd b r))))
                else Close p0 (Close p1 (Wait (Wait Exit)))))
        end)
  | BACK c => fork1 (fun pid => if pid =? 0 then runcmd b c else Exit)
  end.

(** [runcmd(parsecmd(buf))]; the parser's panic prints and exits. *)
Definition runline (line : list Z) : code :=
  match parsecmd line with
  | Ok (c, b) _ => runcmd b c
  | Prelude.Panic e => panic e
  | Fault _ | NoFuel => Diverge
  end.

Definition is_cd (line : list Z) : bool := bool_decide (take 3 line = [99; 100; 32]).
(** [buf[strlen(buf) - 1] = 0], and [buf + 3]. *)
Definition cd_path (line : list Z) : list Z := drop 3 (removelast line).

(** The loop of main on the lines that gets delivers; an empty one is the end
    of the input. *)
Fixpoint commands (lines : list (list Z)) : code :=
  match lines with
  | [] | [] :: _ => Exit
  | line :: lines =>
      if is_cd line then
        Chdir (cd_path line) (fun r => if r <? 0 then Say 2 "cannot cd %s" (cd_path line) (commands lines) else commands lines)
      else fork1 (fun pid => if pid =? 0 then runline line else Wait (commands lines))
  end.

Definition console : list Z := [99; 111; 110; 115; 111; 108; 101].

(** [while ((fd = open("console", O_RDWR)) >= 0)]; an open takes the lowest
    descriptor, so the fourth answers at least 3. *)
Fixpoint ensure (todo : nat) (k : code) : code :=
  match todo with
  | O => Diverge
  | S todo => Open console O_RDWR (fun fd => if fd <? 0 then k else if 3 <=? fd then Close fd k else ensure todo k)
  end.

Definition main (lines : list (list Z)) : code := ensure 4 (commands lines).

(** ** The descriptors of a process *)

(** A file from before the shell, one that was opened, an end of a pipe. *)
Inductive open_file :=
| Given (n : nat)
| Opened (name : list Z) (mode : Z)
| PipeEnd (p : nat) (writing : bool).

Definition table : Type := list (option open_file).

Definition fdalloc (f : open_file) (t : table) : option (Z * table) :=
  match list_find (fun x => x = None) t with
  | Some (i, _) => Some (Z.of_nat i, <[i := Some f]> t)
  | None => None
  end.

Definition argfd (fd : Z) (t : table) : option open_file :=
  if fd <? 0 then None else match t !! Z.to_nat fd with Some x => x | None => None end.

Definition close (fd : Z) (t : table) : table :=
  match argfd fd t with Some _ => <[Z.to_nat fd := None]> t | None => t end.
Definition dup (fd : Z) (t : table) : table :=
  match argfd fd t with
  | Some f => match fdalloc f t with Some (_, t) => t | None => t end
  | None => t
  end.
Definition pipe (p : nat) (t : table) : option (Z * Z * table) :=
  match fdalloc (PipeEnd p false) t with
  | Some (r, t) => match fdalloc (PipeEnd p true) t with Some (w, t) => Some (r, w, t) | None => None end
  | None => None
  end.

(** Descriptors 0, 1 and 2 open and no other. *)
Definition std (i o e : open_file) : table := Some i :: Some o :: Some e :: replicate 13 None.
Definition is_std (t : table) : Prop := exists i o e, t = std i o e.

(** ** One run, child before parent *)

(** What can be seen of a run: a program starts with its arguments and its
    descriptors, or a message is printed on a file. *)
Inductive event :=
| Ran (argv : list (list Z)) (t : table)
| Said (f : option open_file) (fmt : string) (arg : list Z).

(** What the kernel answers. *)
Record kernel := {
  opens : list Z -> Z -> bool;
  execs : list Z -> bool;
  chdirs : list Z -> bool;
  forked : Z }.

Section run.
Context (K : kernel).

(** The events, and the number of the next pipe; [n] is that of the first. *)
Fixpoint run (c : code) (t : table) (n : nat) : list event * nat :=
  match c with
  | Exit | Diverge => ([], n)
  | Say fd fmt arg k => let '(es, n) := run k t n in (Said (argfd fd t) fmt arg :: es, n)
  | Close fd k => run k (close fd t) n
  | Dup fd k => run k (dup fd t) n
  | Open name mode k =>
      match (if opens K name mode then fdalloc (Opened name mode) t else None) with
      | Some (fd, t) => run (k fd) t n
      | None => run (k (-1)) t n
      end
  | Pipe k => match pipe n t with Some (r, w, t) => run (k (Some (r, w))) t (S n) | None => run (k None) t n end
  | Fork k =>
      let '(es1, n) := run (k 0) t n in
      let '(es2, n) := run (k (forked K)) t n in (es1 ++ es2, n)
  | Wait k => run k t n
  | Chdir name k => run (k (if chdirs K name then 0 else -1)) t n
  | Exec path argv k => if execs K path then ([Ran argv t], n) else run k t n
  end.

(** The meaning of a command whose input, output and errors are [i], [o] and
    [e]: the programs that run, each with its files. *)
Fixpoint meaning (b : list Z) (c : cmd) (i o e : open_file) (n : nat) : list event * nat :=
  match c with
  | EXEC [] => ([], n)
  | EXEC (w :: argv) =>
      let path := string_at b w.1 in
      (if execs K path then [Ran (path :: map (fun w : word => string_at b w.1) argv) (std i o e)]
       else [Said (Some e) "exec %s failed" path], n)
  | REDIR c file mode fd =>
      let name := string_at b file.1 in
      if opens K name mode then
        if fd =? 0 then meaning b c (Opened name mode) o e n else meaning b c i (Opened name mode) e n
      else ([Said (Some e) "open %s failed" name], n)
  | PIPE l r =>
      let '(es1, m) := meaning b l i (PipeEnd n true) e (S n) in
      let '(es2, m) := meaning b r (PipeEnd n false) o e m in (es1 ++ es2, m)
  | LIST l r =>
      let '(es1, n) := meaning b l i o e n in
      let '(es2, n) := meaning b r i o e n in (es1 ++ es2, n)
  | BACK c => meaning b c i o e n
  end.

(** The meaning of the lines: cd is done by the shell, a line that does not
    parse is reported, and an empty line is the end. *)
Definition line_meaning (line : list Z) (i o e : open_file) (n : nat) : list event * nat :=
  match parsecmd line with
  | Ok (c, b) _ => meaning b c i o e n
  | Panic m => ([Said (Some e) m []], n)
  | Fault _ | NoFuel => ([], n)
  end.
Fixpoint session (lines : list (list Z)) (i o e : open_file) (n : nat) : list event * nat :=
  match lines with
  | [] | [] :: _ => ([], n)
  | line :: lines =>
      let '(es1, n) :=
        if is_cd line then (if chdirs K (cd_path line) then [] else [Said (Some e) "cannot cd %s" (cd_path line)], n)
        else line_meaning line i o e n in
      let '(es2, n) := session lines i o e n in (es1 ++ es2, n)
  end.

(** ** The plumbing of runcmd *)

(** The redirections of a command are of descriptors 0 and 1. *)
Fixpoint redirs_ok (c : cmd) : Prop :=
  match c with
  | EXEC _ => True
  | REDIR c _ _ fd => (fd = 0 \/ fd = 1) /\ redirs_ok c
  | PIPE l r | LIST l r => redirs_ok l /\ redirs_ok r
  | BACK c => redirs_ok c
  end.

Context (Hpid : 0 < forked K).

Lemma run_fork1 k t n : run (fork1 k) t n = let '(es1, n) := run (k 0) t n in let '(es2, n) := run (k (forked K)) t n in (es1 ++ es2, n).
Proof. unfold fork1. cbn [run]. change (0 =? -1) with false. by rewrite (proj2 (Z.eqb_neq (forked K) (-1))) by lia. Qed.

Lemma forked_child : (forked K =? 0) = false.
Proof. apply Z.eqb_neq. lia. Qed.

Lemma runcmd_run b c : forall i o e n, redirs_ok c -> run (runcmd b c) (std i o e) n = meaning b c i o e n.
Proof.
  induction c as [argv|c IH file mode fd|l IHl r IHr|l IHl r IHr|c IH]; intros i o e n Hr; cbn [runcmd meaning redirs_ok] in *.
  - destruct argv as [|w argv]; [done|]. cbn [run]. by destruct (execs K _).
  - destruct Hr as [[-> | ->] Hr]; cbn [run]; (destruct (opens K _ _); [|done]).
    + exact (IH (Opened (string_at b file.1) mode) o e n Hr).
    + exact (IH i (Opened (string_at b file.1) mode) e n Hr).
  - destruct Hr as [Hl Hr]. cbn [run]. change (pipe n (std i o e)) with (Some (3, 4, <[4%nat := Some (PipeEnd n true)]> (<[3%nat := Some (PipeEnd n false)]> (std i o e)))).
    cbv iota beta. rewrite run_fork1. change (0 =? 0) with true. cbv iota. rewrite forked_child.
    change (run (Close 1 (Dup 4 (Close 3 (Close 4 (runcmd b l))))) _ (S n)) with (run (runcmd b l) (std i (PipeEnd n true) e) (S n)). rewrite IHl by done.
    destruct (meaning b l i (PipeEnd n true) e (S n)) as [es1 m]. rewrite run_fork1. change (0 =? 0) with true. cbv iota. rewrite forked_child.
    change (run (Close 0 (Dup 3 (Close 3 (Close 4 (runcmd b r))))) _ m) with (run (runcmd b r) (std (PipeEnd n false) o e) m). rewrite IHr by done.
    destruct (meaning b r (PipeEnd n false) o e m) as [es2 m2]. cbn [run]. by rewrite app_nil_r.
  - destruct Hr as [Hl Hr]. rewrite run_fork1. change (0 =? 0) with true. cbv iota. rewrite IHl, forked_child by done.
    destruct (meaning b l i o e n) as [es1 m]. cbn [run]. by rewrite IHr.
  - rewrite run_fork1. change (0 =? 0) with true. cbv iota. rewrite IH, forked_child by done.
    destruct (meaning b c i o e n) as [es1 m]. cbn [run]. by rewrite app_nil_r.
Qed.

(** The parser makes no other redirections. *)
Definition gives {A} (m : SP A) (Q : A -> Prop) : Prop := forall s a s', m s = Ok a s' -> Q a.

Lemma gives_bind {A B} (P : A -> Prop) (m : SP A) (f : A -> SP B) Q : gives m P -> (forall a, P a -> gives (f a) Q) -> gives (kbind m f) Q.
Proof. intros Hm Hf s b s' E. apply kbind_inv in E as (a & s1 & E1 & E2). by eapply Hf, E2; eapply Hm. Qed.

Lemma gives_any {A} (m : SP A) : gives m (fun _ => True).
Proof. by intros s a s' _. Qed.

(** The routine ends here. *)
Ltac ended := intros ? ? ? E; first [discriminate E | injection E as <- <-; first [done | by constructor]].

Definition good_redir (r : redir) : Prop := r.2 = 0 \/ r.2 = 1.

Lemma wrap_redirs c rs : redirs_ok c -> Forall good_redir rs -> redirs_ok (wrap c rs).
Proof.
  unfold wrap. intros Hc Hr. revert c Hc. induction Hr as [|[[w m] f] rs Hf _ IH]; intros c Hc; [done|]. cbn. apply IH. by split.
Qed.

Section parser.
Context (buf : list Z).

Lemma parseredirs_gives fuel : gives (parseredirs buf fuel) (Forall good_redir).
Proof.
  induction fuel as [|fuel IH]; cbn [parseredirs]; (eapply gives_bind; [apply gives_any|]); intros p _; destruct p; cbn [negb].
  1,2,4: ended.
  eapply gives_bind; [apply gives_any|]. intros [tok w0] _. eapply gives_bind; [apply gives_any|]. intros [a w] _.
  destruct (a =? 97); cbn [negb]; [|by intros s ? ? ?]. eapply gives_bind; [apply IH|]. intros rs Hrs s ? ? [= <- <-].
  constructor; [|done]. destruct (tok =? 60); [by left|by right].
Qed.

Lemma parseargs_gives fuel : forall argv, gives (parseargs buf fuel argv) (fun r => Forall good_redir r.2).
Proof.
  induction fuel as [|fuel IH]; intros argv; cbn [parseargs]; (eapply gives_bind; [apply gives_any|]); intros p _; destruct p.
  1,2,3: ended.
  eapply gives_bind; [apply gives_any|]. intros [tok w] _. destruct (tok =? 0); [by intros s ? ? [= <- <-]|].
  destruct (tok =? 97); cbn [negb]; [|by intros s ? ? ?]. cbv zeta. match goal with |- gives (if ?c then _ else _) _ => destruct c; [by intros s ? ? ?|] end.
  eapply gives_bind; [apply parseredirs_gives|]. intros rs Hrs. eapply gives_bind; [apply IH|]. intros [argv' rs'] Hrs' s ? ? [= <- <-]. by apply Forall_app.
Qed.

Lemma parseback_gives fuel : forall c, redirs_ok c -> gives (parseback buf fuel c) redirs_ok.
Proof.
  induction fuel as [|fuel IH]; intros c Hc; cbn [parseback]; (eapply gives_bind; [apply gives_any|]); intros p _; destruct p; cbn [negb].
  1,2,4: ended.
  eapply gives_bind; [apply gives_any|]. intros _ _. by apply (IH (BACK c)).
Qed.

Lemma parser_gives fuel :
  gives (parseline buf fuel) redirs_ok /\ gives (parsepipe buf fuel) redirs_ok /\ gives (parseblock buf fuel) redirs_ok /\ gives (parseexec buf fuel) redirs_ok.
Proof.
  induction fuel as [|fuel (IHl & IHp & IHb & IHe)]; [repeat split; by intros s ? ? ?|]. cbn [parseline parsepipe parseblock parseexec]. split_and!.
  - eapply gives_bind; [apply IHp|]. intros c Hc. eapply gives_bind; [by apply parseback_gives|]. intros c' Hc'.
    eapply gives_bind; [apply gives_any|]. intros p _. destruct p; [|by intros s ? ? [= <- <-]].
    eapply gives_bind; [apply gives_any|]. intros _ _. eapply gives_bind; [apply IHl|]. by intros r Hr s ? ? [= <- <-].
  - eapply gives_bind; [apply IHe|]. intros c Hc. eapply gives_bind; [apply gives_any|]. intros p _. destruct p; [|by intros s ? ? [= <- <-]].
    eapply gives_bind; [apply gives_any|]. intros _ _. eapply gives_bind; [apply IHp|]. by intros r Hr s ? ? [= <- <-].
  - eapply gives_bind; [apply gives_any|]. intros p _. destruct p; cbn [negb]; [|by intros s ? ? ?].
    eapply gives_bind; [apply gives_any|]. intros _ _. eapply gives_bind; [apply IHl|]. intros c Hc.
    eapply gives_bind; [apply gives_any|]. intros p _. destruct p; cbn [negb]; [|by intros s ? ? ?].
    eapply gives_bind; [apply gives_any|]. intros _ _. eapply gives_bind; [apply parseredirs_gives|]. intros rs Hrs s ? ? [= <- <-]. by apply wrap_redirs.
  - eapply gives_bind; [apply gives_any|]. intros p _. destruct p; [done|].
    eapply gives_bind; [apply parseredirs_gives|]. intros rs Hrs. eapply gives_bind; [apply parseargs_gives|]. intros [argv rs'] Hrs' s ? ? [= <- <-].
    apply wrap_redirs; [done|]. by apply Forall_app.
Qed.

Lemma parsecmd_redirs c b s : parsecmd buf = Ok (c, b) s -> redirs_ok c.
Proof.
  unfold parsecmd. intros E. apply kbind_inv in E as (c1 & s1 & E1 & E). apply kbind_inv in E as (p & s2 & _ & E). apply kbind_inv in E as (s3 & s4 & _ & E).
  destruct (negb _); [done|]. injection E as <- _ _. by apply (proj1 (parser_gives _) _ _ _ E1).
Qed.
End parser.

Lemma runline_run line i o e n : run (runline line) (std i o e) n = line_meaning line i o e n.
Proof.
  unfold runline, line_meaning. destruct (parsecmd line) as [[c b] s|m|w|] eqn:E; try done. apply runcmd_run. by apply (parsecmd_redirs line c b s).
Qed.

Lemma commands_run lines i o e : forall n, run (commands lines) (std i o e) n = session lines i o e n.
Proof.
  induction lines as [|[|c line] lines IH]; intros n; [done|done|]. cbn [commands session]. set (l := c :: line). destruct (is_cd l).
  - cbn [run]. destruct (chdirs K (cd_path l)).
    + change (0 <? 0) with false. cbv iota. rewrite IH. by destruct (session lines i o e n).
    + change (-1 <? 0) with true. cbv iota. cbn [run]. rewrite IH. by destruct (session lines i o e n).
  - rewrite run_fork1. change (0 =? 0) with true. cbv iota. rewrite runline_run, forked_child. destruct (line_meaning l i o e n) as [es1 m].
    cbn [run]. by rewrite IH.
Qed.

Lemma ensure_run k i o e n : run (ensure 4 k) (std i o e) n = run k (std i o e) n.
Proof. cbn [ensure run]. by destruct (opens K console O_RDWR). Qed.
End run.

(** C21: the shell carries out its commands: with descriptors 0, 1 and 2 open
    at the start, forks and pipes that succeed, other calls that fail only as the
    oracle says, and each child run before its parent goes on, the programs that
    run, with their arguments and their descriptors, and the messages are those
    that the commands mean: each program has its input, output and errors, as
    redirections and pipes connect them, and no other descriptor. *)
Theorem shell_runs_commands K lines i o e n : 0 < forked K ->
  run K (main lines) (std i o e) n = session K lines i o e n.
Proof. intros Hpid. unfold main. rewrite ensure_run. by apply commands_run. Qed.

(** ** Any number of processes *)

(** What a process is doing: shell code, a program that it became, nothing
    since its exit.  A program keeps the descriptors it started with. *)
Inductive doing := Shell (c : code) | Program (argv : list (list Z)) | Zombie.
Record process := { what : doing; fds : table; parent : Z }.
Record world := { procs : gmap Z process; pipes : nat }.

(** Process 1 is init. *)
Definition orphan (i : Z) (p : process) : process :=
  if parent p =? i then {| what := what p; fds := fds p; parent := 1 |} else p.

Definition at_process (w : world) (i : Z) (c : code) (t : table) (par : Z) : Prop :=
  procs w !! i = Some {| what := Shell c; fds := t; parent := par |}.
Definition set_process (i : Z) (d : doing) (t : table) (par : Z) (w : world) : world :=
  {| procs := <[i := {| what := d; fds := t; parent := par |}]> (procs w); pipes := pipes w |}.

(** A step of the process [i]; any call can fail. *)
Inductive step (w : world) : world -> Prop :=
| s_say i fd fmt arg k t par : at_process w i (Say fd fmt arg k) t par -> step w (set_process i (Shell k) t par w)
| s_close i fd k t par : at_process w i (Close fd k) t par -> step w (set_process i (Shell k) (close fd t) par w)
| s_dup i fd k t par : at_process w i (Dup fd k) t par -> step w (set_process i (Shell k) (dup fd t) par w)
| s_open i name mode k t par fd t' : at_process w i (Open name mode k) t par -> fdalloc (Opened name mode) t = Some (fd, t') ->
    step w (set_process i (Shell (k fd)) t' par w)
| s_open_fails i name mode k t par : at_process w i (Open name mode k) t par -> step w (set_process i (Shell (k (-1))) t par w)
| s_pipe i k t par r x t' : at_process w i (Pipe k) t par -> pipe (pipes w) t = Some (r, x, t') ->
    step w (set_process i (Shell (k (Some (r, x)))) t' par {| procs := procs w; pipes := S (pipes w) |})
| s_pipe_fails i k t par : at_process w i (Pipe k) t par -> step w (set_process i (Shell (k None)) t par w)
| s_fork i j k t par : at_process w i (Fork k) t par -> 0 < j -> procs w !! j = None ->
    step w (set_process j (Shell (k 0)) t i (set_process i (Shell (k j)) t par w))
| s_fork_fails i k t par : at_process w i (Fork k) t par -> step w (set_process i (Shell (k (-1))) t par w)
| s_wait i j k t par x : at_process w i (Wait k) t par -> procs w !! j = Some {| what := Zombie; fds := x; parent := i |} ->
    step w (set_process i (Shell k) t par {| procs := delete j (procs w); pipes := pipes w |})
| s_wait_none i k t par : at_process w i (Wait k) t par -> (forall j p, procs w !! j = Some p -> parent p <> i) ->
    step w (set_process i (Shell k) t par w)
| s_chdir i name k t par r : at_process w i (Chdir name k) t par -> step w (set_process i (Shell (k r)) t par w)
| s_exec i path argv k t par : at_process w i (Exec path argv k) t par -> step w (set_process i (Program argv) t par w)
| s_exec_fails i path argv k t par : at_process w i (Exec path argv k) t par -> step w (set_process i (Shell k) t par w)
| s_exit i t par : at_process w i Exit t par ->
    step w (set_process i Zombie [] par {| procs := orphan i <$> procs w; pipes := pipes w |})
| s_ends i argv t par : procs w !! i = Some {| what := Program argv; fds := t; parent := par |} ->
    step w (set_process i Zombie [] par {| procs := orphan i <$> procs w; pipes := pipes w |}).

(** Whatever the calls answer, the code starts a program, and waits, with the
    descriptors 0, 1 and 2 only, and no loop of it is cut off. *)
Fixpoint tidy (c : code) (t : table) : Prop :=
  match c with
  | Exit => True
  | Diverge => False
  | Say _ _ _ k => tidy k t
  | Close fd k => tidy k (close fd t)
  | Dup fd k => tidy k (dup fd t)
  | Open name mode k => tidy (k (-1)) t /\ forall fd t', fdalloc (Opened name mode) t = Some (fd, t') -> tidy (k fd) t'
  | Pipe k => tidy (k None) t /\ forall p r w t', pipe p t = Some (r, w, t') -> tidy (k (Some (r, w))) t'
  | Fork k => tidy (k (-1)) t /\ tidy (k 0) t /\ forall pid, 0 < pid -> tidy (k pid) t
  | Wait k => is_std t /\ tidy k t
  | Chdir _ k => forall r, tidy (k r) t
  | Exec _ _ k => is_std t /\ tidy k t
  end.

Lemma tidy_fork1 k t : tidy (k 0) t -> (forall pid, 0 < pid -> tidy (k pid) t) -> tidy (fork1 k) t.
Proof.
  intros H0 Hp. unfold fork1. cbn [tidy]. split; [exact I|]. split; [exact H0|]. intros pid Hpid.
  rewrite (proj2 (Z.eqb_neq pid (-1))) by lia. by apply Hp.
Qed.

(** A fork whose child and parent are told apart by the test for 0. *)
Lemma tidy_spawn child k t : tidy child t -> tidy k t -> tidy (fork1 (fun pid => if pid =? 0 then child else k)) t.
Proof. intros Hc Hk. apply tidy_fork1; [exact Hc|]. intros pid Hpid. by rewrite (proj2 (Z.eqb_neq pid 0)) by lia. Qed.

Lemma runcmd_tidy b c : forall i o e, redirs_ok c -> tidy (runcmd b c) (std i o e).
Proof.
  assert (Hstd : forall i o e, is_std (std i o e)) by (intros i o e; by exists i, o, e).
  induction c as [argv|c IH file mode fd|l IHl r IHr|l IHl r IHr|c IH]; intros i o e Hr; cbn [runcmd redirs_ok] in *.
  - destruct argv as [|w argv]; [done|]. by split.
  - destruct Hr as [[-> | ->] Hr]; (split; [exact I|]); intros fd t' [= <- <-].
    + exact (IH (Opened (string_at b file.1) mode) o e Hr).
    + exact (IH i (Opened (string_at b file.1) mode) e Hr).
  - destruct Hr as [Hl Hr]. split; [exact I|]. intros p r0 w t' [= <- <- <-].
    apply (tidy_spawn _ (fork1 _)); [exact (IHl i (PipeEnd p true) e Hl)|]. apply (tidy_spawn _ (Close 3 (Close 4 (Wait (Wait Exit)))));
      [exact (IHr (PipeEnd p false) o e Hr)|]. cbn [tidy]. change (close 4 (close 3 _)) with (std i o e). done.
  - destruct Hr as [Hl Hr]. apply tidy_spawn; [by apply IHl|]. split; [done|]. by apply IHr.
  - by apply tidy_spawn; [apply IH|].
Qed.

Lemma commands_tidy lines i o e : tidy (commands lines) (std i o e).
Proof.
  induction lines as [|[|c line] lines IH]; [done|done|]. cbn [commands]. set (l := c :: line) in *. destruct (is_cd l).
  - intros r. destruct (r <? 0); done.
  - apply tidy_spawn; [|split; [by exists i, o, e|done]]. unfold runline. pose proof (parsecmd_ends l) as Hp.
    destruct (parsecmd l) as [[c' b] s|m|w|] eqn:E; try done. apply runcmd_tidy. by apply (parsecmd_redirs l c' b s).
Qed.

Lemma ensure_tidy k i o e : tidy k (std i o e) -> tidy (ensure 4 k) (std i o e).
Proof. intros Hk. cbn [ensure]. split; [exact Hk|]. by intros fd t' [= <- <-]. Qed.

Definition process_ok (p : process) : Prop :=
  match what p with Shell c => tidy c (fds p) | Program _ => is_std (fds p) | Zombie => True end.

Lemma step_ok w w' : map_Forall (fun _ => process_ok) (procs w) -> step w w' -> map_Forall (fun _ => process_ok) (procs w').
Proof.
  assert (Ho : forall i (m : gmap Z process), map_Forall (fun _ => process_ok) m -> map_Forall (fun _ => process_ok) (orphan i <$> m)).
  { intros i m Hm j p. rewrite lookup_fmap. intros (q & Eq & ->)%fmap_Some. specialize (Hm j q Eq). unfold orphan. by case_match. }
  intros Hok Hs.
  assert (Hat : forall i c t par, at_process w i c t par -> tidy c t) by (intros i c t par E; exact (Hok i _ E)).
  inversion Hs; subst; cbn [procs set_process]; try (match goal with H : at_process w _ _ _ _ |- _ => apply Hat in H; cbn [tidy] in H end).
  all: repeat (apply map_Forall_insert_2; [|first [done | by apply Ho | by apply map_Forall_delete | idtac]]).
  all: unfold process_ok; cbn [what fds]; try done; try tauto; try (by naive_solver).
Qed.

(** The shell alone, started by init with descriptors 0, 1 and 2. *)
Definition start (lines : list (list Z)) (i o e : open_file) : world :=
  {| procs := {[ 2 := {| what := Shell (main lines); fds := std i o e; parent := 1 |} ]}; pipes := 0 |}.

(** C22: however the processes of the shell are interleaved and whichever of
    their calls fail, a program starts with the descriptors 0, 1 and 2 and no
    other, and a process of the shell that waits has none but these: no end of
    a pipe is left open where it would keep a reader from the end of its input.
    No loop of the shell is cut off by its bound. *)
Theorem no_descriptor_leaks lines i o e w : star step (start lines i o e) w ->
  forall j p, procs w !! j = Some p ->
  match what p with
  | Program _ | Shell (Wait _) => is_std (fds p)
  | Shell Diverge => False
  | Shell _ | Zombie => True
  end.
Proof.
  intros Hs j p Hj.
  assert (Hok : map_Forall (fun _ => process_ok) (procs w)).
  { refine (star_invariant step _ _ _ (fun x y H K => step_ok x y K H) Hs _). apply map_Forall_singleton. apply ensure_tidy, commands_tidy. }
  specialize (Hok j p Hj). unfold process_ok in Hok. destruct (what p) as [[]| |]; cbn [tidy] in Hok; tauto.
Qed.

(** "ls" and "a|b" *)
Lemma shell_runs_commands_witness : let K := {| opens := fun _ _ => true; execs := fun _ => true; chdirs := fun _ => true; forked := 3 |} in
  0 < forked K /\ run K (main [[97; 124; 98]]) (std (Given 0) (Given 0) (Given 0)) 0 =
    ([Ran [[97]] (std (Given 0) (PipeEnd 0 true) (Given 0)); Ran [[98]] (std (PipeEnd 0 false) (Given 0) (Given 0))], 1%nat).
Proof. intros K. split; [done|]. rewrite (shell_runs_commands K) by done. vm_compute. reflexivity. Defined.

Lemma no_descriptor_leaks_witness : exists w p, star step (start [[108; 115]] (Given 0) (Given 0) (Given 0)) w /\
  procs w !! 3 = Some p /\ what p = Program [[108; 115]] /\ is_std (fds p).
Proof.
  set (k0 := commands [[108; 115]]). set (t := std (Given 0) (Given 0) (Given 0)).
  set (w1 := set_process 2 (Shell k0) t 1 (start [[108; 115]] (Given 0) (Given 0) (Given 0))).
  set (w2 := set_process 3 (Shell (runline [108; 115])) t 2 (set_process 2 (Shell (Wait Exit)) t 1 w1)).
  set (w3 := set_process 3 (Program [[108; 115]]) t 2 w2).
  assert (Hs : star step (start [[108; 115]] (Given 0) (Given 0) (Given 0)) w3).
  { refine (star_step _ _ w1 _ (s_open_fails (start [[108; 115]] (Given 0) (Given 0) (Given 0)) 2 console O_RDWR (fun fd => if fd <? 0 then k0 else if 3 <=? fd then Close fd k0 else ensure 3 k0) t 1 eq_refl) _).
    refine (star_step _ _ w2 _ (s_fork w1 2 3 (fun pid => if pid =? -1 then panic "fork" else if pid =? 0 then runline [108; 115] else Wait Exit) t 1 eq_refl eq_refl eq_refl) _).
    refine (star_step _ _ w3 _ (s_exec w2 3 [108; 115] [[108; 115]] (Say 2 "exec %s failed" [108; 115] Exit) t 2 _) (star_refl _ _)). by vm_compute. }
  exists w3, {| what := Program [[108; 115]]; fds := t; parent := 2 |}. split; [exact Hs|]. split; [done|]. split; [done|].
  exact (no_descriptor_leaks _ _ _ _ w3 Hs 3 _ eq_refl).
Defined.
