(* ===== verification/Grep.v ===== *)
(** * Text tools (grep.c, wc.c)

    The regular expression matcher of grep against the language it is to
    recognise, grep's reading of lines through its buffer, and the counts of
    wc.  A C string is the list of its bytes without the NUL.  What read
    delivers is a list of chunks, one for each call, the empty list for the
    end of the input; a read of less than a chunk leaves the rest of it for
    the next. *)

From S2P Require Import Prelude.
#[local] Open Scope Z_scope.

Definition CARET : Z := 94.
Definition STAR : Z := 42.
Definition DOLLAR : Z := 36.
Definition DOT : Z := 46.
Definition NEWLINE : Z := 10.

(** ** The matcher *)

(** [matchstar(c, re, text)], [here] being [matchhere(re, .)]. *)
Fixpoint matchstar (here : list Z -> bool) (c : Z) (text : list Z) : bool :=
  if here text then true
  else
    match text with
    | x :: text => if (x =? c) || (c =? DOT) then matchstar here c text else false
    | [] => false
    end.

Fixpoint matchhere (re : list Z) (text : list Z) : bool :=
  match re with
  | [] => true
  | c :: re =>
      match re with
      | d :: re2 =>
          if d =? STAR then matchstar (matchhere re2) c text
          else
            match text with
            | x :: text => if (c =? DOT) || (c =? x) then matchhere re text else false
            | [] => false
            end
      | [] =>
          if c =? DOLLAR then match text with [] => true | _ => false end
          else
            match text with
            | x :: text => if (c =? DOT) || (c =? x) then matchhere re text else false
            | [] => false
            end
      end
  end.

(** The [do ... while] of match: every suffix of the text, the empty one too. *)
Fixpoint match_from (re : list Z) (text : list Z) : bool :=
  if matchhere re text then true
  else match text with [] => false | _ :: text => match_from re text end.

Definition match_ (re text : list Z) : bool :=
  match re with
  | c :: re' => if c =? CARET then matchhere re' text else match_from re text
  | [] => match_from re text
  end.

(** ** Lines *)

(** [strchr(p, NEWLINE)]: how far the newline is. *)
Fixpoint find_newline (text : list Z) : option nat :=
  match text with
  | [] => None
  | c :: text => if c =? 0 then None else if c =? NEWLINE then Some O else S <$> find_newline text
  end.

(** The inner loop of grep from [p] on: the lines written, and the text from
    the last [p] on. *)
Fixpoint grep_lines (fuel : nat) (pattern p : list Z) : list (list Z) * list Z :=
  match fuel with
  | O => ([], p)
  | S fuel =>
      match find_newline p with
      | None => ([], p)
      | Some q =>
          let '(out, rest) := grep_lines fuel pattern (drop (S q) p) in
          (if match_ pattern (take q p) then take (S q) p :: out else out, rest)
      end
  end.

Definition BUF : nat := 1024.

(** [read(fd, _, n)]. *)
Definition read_chunk (n : nat) (input : list (list Z)) : list Z * list (list Z) :=
  match input with
  | [] => ([], [])
  | c :: input => (take n c, if (length c <=? n)%nat then input else drop n c :: input)
  end.

(** grep with [held] in the buffer: what it writes.  Every read takes a byte
    or ends the loop. *)
Fixpoint grep_loop (fuel : nat) (pattern held : list Z) (input : list (list Z)) : list (list Z) :=
  match fuel with
  | O => []
  | S fuel =>
      let '(c, input) := read_chunk (BUF - length held - 1) input in
      match c with
      | [] => []
      | _ =>
          let text := held ++ c in
          let '(out, p) := grep_lines (length text) pattern text in
          out ++ grep_loop fuel pattern (if (length p =? length text)%nat then [] else p) input
      end
  end.

Definition grep (pattern : list Z) (input : list (list Z)) : list (list Z) :=
  grep_loop (S (length (concat input))) pattern [] input.

(** ** wc *)

Definition is_space (c : Z) : bool := existsb (Z.eqb c) [32; 13; 9; 10; 11].

(** The loop over one buffer, from the counts [(l, w, c)] and [inword]. *)
Fixpoint wc_buf (buf : list Z) (s : Z * Z * Z * bool) : Z * Z * Z * bool :=
  match buf with
  | [] => s
  | x :: buf =>
      let '(l, w, c, inword) := s in
      let c := s32 (c + 1) in
      let l := if x =? NEWLINE then s32 (l + 1) else l in
      wc_buf buf (if is_space x then (l, w, c, false) else if negb inword then (l, s32 (w + 1), c, true) else (l, w, c, inword))
  end.

(** wc of what the reads deliver, up to the first empty one. *)
Fixpoint wc_loop (input : list (list Z)) (s : Z * Z * Z * bool) : Z * Z * Z * bool :=
  match input with
  | [] => s
  | [] :: _ => s
  | b :: input => wc_loop input (wc_buf b s)
  end.

Definition wc (input : list (list Z)) : Z * Z * Z := fst (wc_loop input (0, 0, 0, false)).

(** ** The language of a pattern *)

(** An atom: a byte, or any byte; once or any number of times. *)
Inductive item := One (c : Z) | Many (c : Z).

(** The items of a pattern, and whether it ends in the anchor [$]. *)
Fixpoint parse (re : list Z) : list item * bool :=
  match re with
  | [] => ([], false)
  | c :: re' =>
      match re' with
      | d :: re2 => if d =? STAR then let '(its, a) := parse re2 in (Many c :: its, a) else let '(its, a) := parse re' in (One c :: its, a)
      | [] => if c =? DOLLAR then ([], true) else ([One c], false)
      end
  end.

Definition atom (c x : Z) : Prop := c = DOT \/ c = x.

Inductive in_lang : list item -> list Z -> Prop :=
| lang_nil : in_lang [] []
| lang_one c x its t : atom c x -> in_lang its t -> in_lang (One c :: its) (x :: t)
| lang_many c u its t : Forall (atom c) u -> in_lang its t -> in_lang (Many c :: its) (u ++ t).

(** [text] has, at its beginning, a string of the pattern's language, and
    nothing after it if the pattern is anchored. *)
Definition matches_here (re text : list Z) : Prop :=
  exists t rest, text = t ++ rest /\ in_lang (parse re).1 t /\ ((parse re).2 = true -> rest = []).

Lemma in_lang_nil t : in_lang [] t <-> t = [].
Proof. split; [by inversion 1|intros ->; constructor]. Qed.
Lemma in_lang_one c its t : in_lang (One c :: its) t <-> exists x t', t = x :: t' /\ atom c x /\ in_lang its t'.
Proof. split; [inversion 1; eauto|intros (x & t' & -> & H1 & H2); by constructor]. Qed.
Lemma in_lang_many c its t : in_lang (Many c :: its) t <-> exists u t', t = u ++ t' /\ Forall (atom c) u /\ in_lang its t'.
Proof. split; [inversion 1; eauto|intros (x & t' & -> & H1 & H2); by constructor]. Qed.

Lemma atom_bool c x : (c =? DOT) || (c =? x) = true <-> atom c x.
Proof. unfold atom. rewrite orb_true_iff, !Z.eqb_eq. done. Qed.

(** matchstar tries every number of repetitions. *)
Lemma matchstar_spec here c text :
  matchstar here c text = true <-> exists u rest, text = u ++ rest /\ Forall (atom c) u /\ here rest = true.
Proof.
  induction text as [|x text IH]; cbn [matchstar].
  - destruct (here []) eqn:E; split; try done; [intros _; by exists [], []|].
    intros (u & rest & Hu & _ & H). symmetry in Hu. apply app_nil in Hu as [-> ->]. congruence.
  - destruct (here (x :: text)) eqn:E; [split; [intros _; by exists [], (x :: text)|done]|].
    assert (Hat : (x =? c) || (c =? DOT) = true <-> atom c x) by (unfold atom; rewrite orb_true_iff, !Z.eqb_eq; intuition congruence).
    destruct ((x =? c) || (c =? DOT)).
    + rewrite IH. split.
      * intros (u & rest & -> & Hu & H). exists (x :: u), rest. split; [done|]. split; [constructor; [by apply Hat|done]|done].
      * intros ([|y u] & rest & Hu & Hall & H); cbn in Hu; [subst; congruence|]. injection Hu as -> ->. apply Forall_cons in Hall as [_ Hall]. by exists u, rest.
    + split; [done|]. intros ([|y u] & rest & Hu & Hall & H); cbn in Hu; [subst; congruence|]. injection Hu as -> ->.
      apply Forall_cons in Hall as [Ha _]. by apply Hat in Ha.
Qed.

Lemma matches_one c re text : parse (c :: re) = (One c :: (parse re).1, (parse re).2) ->
  (exists x text', text = x :: text' /\ atom c x /\ matches_here re text') <-> matches_here (c :: re) text.
Proof.
  intros Hp. unfold matches_here. rewrite Hp. cbn [fst snd]. split.
  - intros (x & text' & -> & Ha & (t & rest & -> & Ht & Hr)). exists (x :: t), rest. split; [done|]. split; [by constructor|done].
  - intros (t & rest & -> & (x & t' & -> & Ha & Ht)%in_lang_one & Hr). exists x, (t' ++ rest). split; [done|]. split; [done|]. by exists t', rest.
Qed.

Lemma matches_many c re text : parse (c :: STAR :: re) = (Many c :: (parse re).1, (parse re).2) ->
  (exists u rest, text = u ++ rest /\ Forall (atom c) u /\ matches_here re rest) <-> matches_here (c :: STAR :: re) text.
Proof.
  intros Hp. unfold matches_here. rewrite Hp. cbn [fst snd]. split.
  - intros (u & text' & -> & Ha & (t & rest & -> & Ht & Hr)). exists (u ++ t), rest. split; [by rewrite app_assoc|]. split; [by constructor|done].
  - intros (t & rest & -> & (u & t' & -> & Ha & Ht)%in_lang_many & Hr). exists u, (t' ++ rest). split; [by rewrite app_assoc|]. split; [done|]. by exists t', rest.
Qed.

Lemma step_one c (f : list Z -> bool) text :
  match text with x :: text => if (c =? DOT) || (c =? x) then f text else false | [] => false end = true
  <-> exists x text', text = x :: text' /\ atom c x /\ f text' = true.
Proof.
  destruct text as [|x text]; [split; [done|by intros (? & ? & ? & _)]|]. destruct ((c =? DOT) || (c =? x)) eqn:E.
  - apply atom_bool in E. split; [by intros H; exists x, text|by intros (? & ? & [= -> ->] & _ & H)].
  - split; [done|]. intros (? & ? & [= -> ->] & Ha & _). apply atom_bool in Ha. congruence.
Qed.

Lemma parse_cons c d re : parse (c :: d :: re) =
  if d =? STAR then let '(its, a) := parse re in (Many c :: its, a) else let '(its, a) := parse (d :: re) in (One c :: its, a).
Proof. done. Qed.

Lemma parse_one c re : hd 0 re <> STAR -> (re <> [] \/ c <> DOLLAR) -> parse (c :: re) = (One c :: (parse re).1, (parse re).2).
Proof.
  intros Hs Hd. destruct re as [|d re].
  - cbn [parse]. rewrite (proj2 (Z.eqb_neq _ _)); [done|]. by destruct Hd.
  - rewrite parse_cons. cbn in Hs. rewrite (proj2 (Z.eqb_neq _ _) Hs). by destruct (parse (d :: re)).
Qed.

Lemma parse_many c re : parse (c :: STAR :: re) = (Many c :: (parse re).1, (parse re).2).
Proof. rewrite parse_cons, Z.eqb_refl. by destruct (parse re). Qed.

Lemma matchhere_cons c d re text : matchhere (c :: d :: re) text =
  if d =? STAR then matchstar (matchhere re) c text
  else match text with x :: text => if (c =? DOT) || (c =? x) then matchhere (d :: re) text else false | [] => false end.
Proof. done. Qed.

Lemma matches_nil text : matches_here [] text.
Proof. exists [], text. split; [done|]. split; [apply lang_nil|done]. Qed.

Lemma matchhere_spec n : forall re text, (length re <= n)%nat -> matchhere re text = true <-> matches_here re text.
Proof.
  induction n as [|n IH]; intros re text Hn.
  all: destruct re as [|c re]; [split; [intros _; apply matches_nil|done]|]; cbn in Hn; try lia.
  destruct re as [|d re].
  - cbn [matchhere]. destruct (Z.eqb_spec c DOLLAR) as [->|Hc].
    + split.
      * destruct text; [|done]. intros _. exists [], []. split; [done|]. split; [apply lang_nil|done].
      * intros (t & rest & -> & Ht & Hr). cbn in Ht, Hr. apply in_lang_nil in Ht as ->. by rewrite Hr.
    + rewrite (step_one c (fun _ => true)), <- matches_one by (apply parse_one; [done|by right]). split; intros (x & text' & -> & Ha & H); exists x, text'; (split; [done|]); (split; [done|]); [|done].
      apply matches_nil.
  - rewrite matchhere_cons. cbn in Hn. destruct (Z.eqb_spec d STAR) as [->|Hd].
    + rewrite matchstar_spec, <- matches_many by apply parse_many. split; intros (u & rest & -> & Ha & H); exists u, rest; (split; [done|]); (split; [done|]); apply IH; (done || lia).
    + rewrite (step_one c (matchhere (d :: re))), <- matches_one by (apply parse_one; [done|by left]).
      split; intros (x & text' & -> & Ha & H); exists x, text'; (split; [done|]); (split; [done|]); apply IH; (done || (cbn; lia)).
Qed.

Lemma match_from_spec re text : match_from re text = true <-> exists pre post, text = pre ++ post /\ matches_here re post.
Proof.
  induction text as [|x text IH]; cbn [match_from].
  - destruct (matchhere re []) eqn:E.
    + split; [|done]. intros _. exists [], []. split; [done|]. by apply (matchhere_spec (length re)).
    + split; [done|]. intros (pre & post & Hp & H). symmetry in Hp. apply app_nil in Hp as [-> ->]. apply (matchhere_spec (length re)) in H; [congruence|done].
  - destruct (matchhere re (x :: text)) eqn:E.
    + split; [|done]. intros _. exists [], (x :: text). split; [done|]. by apply (matchhere_spec (length re)).
    + rewrite IH. split.
      * intros (pre & post & -> & H). by exists (x :: pre), post.
      * intros ([|y pre] & post & Hp & H); cbn in Hp; [subst post; apply (matchhere_spec (length re)) in H; [congruence|done]|].
        injection Hp as -> ->. by exists pre, post.
Qed.

(** C26: grep's matcher decides the language of the pattern: a pattern that begins
    with [^] matches at the beginning of the line, any other anywhere in it,
    and a last [$] asks for the end of the line. *)
Theorem match_language re text :
  match_ re text = true <->
  match re with
  | 94 :: re' => matches_here re' text
  | _ => exists pre post, text = pre ++ post /\ matches_here re post
  end.
Proof.
  unfold match_. destruct re as [|c re]; [apply match_from_spec|]. unfold CARET. destruct (Z.eqb_spec c 94) as [->|Hc].
  - by apply (matchhere_spec (length re)).
  - rewrite match_from_spec. repeat (case_match; try done).
Qed.

(** ** The lines of a text *)

(** The complete lines, without their newlines, when [cur] was read already;
    and what follows the last newline. *)
Fixpoint lines (cur text : list Z) : list (list Z) :=
  match text with
  | [] => []
  | c :: text => if c =? NEWLINE then cur :: lines [] text else lines (cur ++ [c]) text
  end.
Fixpoint last_part (cur text : list Z) : list Z :=
  match text with
  | [] => cur
  | c :: text => if c =? NEWLINE then last_part [] text else last_part (cur ++ [c]) text
  end.

(** The lines that match, with their newlines. *)
Definition matched (pattern text : list Z) : list (list Z) :=
  map (fun l => l ++ [NEWLINE]) (filter (fun l => match_ pattern l = true) (lines [] text)).

Lemma lines_app cur t1 t2 : lines cur (t1 ++ t2) = lines cur t1 ++ lines (last_part cur t1) t2.
Proof. revert cur. induction t1 as [|c t1 IH]; intros cur; [done|]. cbn. destruct (c =? NEWLINE); [cbn; by rewrite IH|apply IH]. Qed.

Lemma last_part_app cur t1 t2 : last_part cur (t1 ++ t2) = last_part (last_part cur t1) t2.
Proof. revert cur. induction t1 as [|c t1 IH]; intros cur; [done|]. cbn. destruct (c =? NEWLINE); apply IH. Qed.

Lemma no_newline cur l : NEWLINE ∉ l -> lines cur l = [] /\ last_part cur l = cur ++ l.
Proof.
  revert cur. induction l as [|c l IH]; intros cur Hn; [by rewrite app_nil_r|]. apply not_elem_of_cons in Hn as [Hc Hn]. cbn.
  rewrite (proj2 (Z.eqb_neq c NEWLINE)) by congruence. destruct (IH (cur ++ [c]) Hn) as [-> ->]. by rewrite <- app_assoc.
Qed.

Lemma find_newline_some text q : find_newline text = Some q ->
  text = take q text ++ NEWLINE :: drop (S q) text /\ NEWLINE ∉ take q text /\ (q < length text)%nat.
Proof.
  revert q. induction text as [|c text IH]; intros q; [done|]. cbn [find_newline]. destruct (Z.eqb_spec c 0); [done|].
  destruct (Z.eqb_spec c NEWLINE) as [->|Hc]; [intros [= <-]; cbn; split; [done|split; [apply not_elem_of_nil|lia]]|].
  intros (q' & Hq & ->)%fmap_Some. destruct (IH _ Hq) as (H1 & H2 & H3). cbn. split; [by rewrite <- H1|]. split; [|lia].
  apply not_elem_of_cons. split; [congruence|done].
Qed.

Lemma find_newline_none text : 0 ∉ text -> find_newline text = None -> NEWLINE ∉ text.
Proof.
  induction text as [|c text IH]; intros H0; [intros _; apply not_elem_of_nil|]. apply not_elem_of_cons in H0 as [Hc H0]. cbn.
  rewrite (proj2 (Z.eqb_neq c 0)) by congruence. destruct (Z.eqb_spec c NEWLINE); [done|]. intros H%fmap_None. apply not_elem_of_cons. split; [congruence|by apply IH].
Qed.

Lemma last_part_length cur text : (length (last_part cur text) <= length cur + length text)%nat.
Proof.
  revert cur. induction text as [|c text IH]; intros cur; cbn; [lia|]. destruct (c =? NEWLINE); [specialize (IH []); cbn in *; lia|].
  specialize (IH (cur ++ [c])). rewrite length_app in IH. cbn in IH. lia.
Qed.

Lemma last_part_shorter cur text : NEWLINE ∈ text -> (length (last_part cur text) < length text)%nat.
Proof.
  intros (l1 & l2 & ->)%list_elem_of_split. rewrite last_part_app. cbn. rewrite length_app. cbn. pose proof (last_part_length [] l2). cbn in *. lia.
Qed.

Lemma grep_lines_spec pattern fuel p : 0 ∉ p -> (length p <= fuel)%nat -> grep_lines fuel pattern p = (matched pattern p, last_part [] p).
Proof.
  revert p. induction fuel as [|fuel IH]; intros p H0 Hf.
  { destruct p; [done|cbn in Hf; lia]. }
  cbn [grep_lines]. destruct (find_newline p) as [q|] eqn:E.
  - apply find_newline_some in E as (Hp & Hn & Hq). set (l := take q p) in *. set (r := drop (S q) p) in *.
    assert (Hl : length l = q) by (unfold l; rewrite length_take; lia).
    assert (Htake : take (S q) p = l ++ [NEWLINE]).
    { rewrite Hp, <- Hl. replace (S (length l)) with (length l + 1)%nat by lia. by rewrite take_app_add. }
    rewrite Htake, IH; [| |unfold r; rewrite length_drop; lia].
    2: { intros H. apply H0. rewrite Hp. apply elem_of_app. right. by right. }
    unfold matched. replace (lines [] p) with (l :: lines [] r); [replace (last_part [] p) with (last_part [] r)|].
    + destruct (match_ pattern l) eqn:Em; [by rewrite filter_cons_True|by rewrite filter_cons_False by congruence].
    + rewrite Hp, last_part_app. by destruct (no_newline [] l Hn) as [_ ->].
    + rewrite Hp, lines_app. by destruct (no_newline [] l Hn) as [-> ->].
  - apply find_newline_none in E; [|done]. unfold matched. destruct (no_newline [] _ E) as [-> ->]. done.
Qed.

(** ** What grep prints *)

Lemma read_all n c input : (length c <= n)%nat -> read_chunk n (c :: input) = (c, input).
Proof. intros H. cbn. by rewrite take_ge, (proj2 (Nat.leb_le _ _)) by lia. Qed.

(** A read that fits the buffer, has a newline and leaves at most [L] bytes
    of an unfinished line. *)
Definition whole (L : nat) (c : list Z) : Prop :=
  NEWLINE ∈ c /\ 0 ∉ c /\ (length c + L < BUF)%nat /\ (length (last_part [] c) <= L)%nat.

Lemma last_part_newline cur c : NEWLINE ∈ c -> last_part cur c = last_part [] c.
Proof. intros (l1 & l2 & ->)%list_elem_of_split. by rewrite !last_part_app. Qed.

Lemma grep_loop_spec pattern L input : forall fuel held,
  Forall (whole L) input -> (length input < fuel)%nat -> (length held <= L)%nat -> 0 ∉ held -> NEWLINE ∉ held ->
  grep_loop fuel pattern held input = matched pattern (held ++ concat input).
Proof.
  induction input as [|c input IH]; intros fuel held Hw Hf Hh H0 Hn; (destruct fuel as [|fuel]; [cbn in Hf; lia|]).
  - cbn. unfold matched. rewrite app_nil_r. by destruct (no_newline [] held Hn) as [-> _].
  - apply Forall_cons in Hw as [(W1 & W2 & W3 & W4) Hw]. cbn [grep_loop]. rewrite read_all by lia.
    destruct c as [|x c]; [by apply not_elem_of_nil in W1|]. set (ch := x :: c) in *.
    rewrite (grep_lines_spec pattern _ (held ++ ch)) by (done || set_solver).
    assert (Hlp : last_part [] (held ++ ch) = last_part [] ch) by (rewrite last_part_app; by apply last_part_newline).
    assert (Hin : forall y, y ∈ last_part [] ch -> y ∈ ch /\ y <> NEWLINE).
    { clearbody ch. clear. intros y. assert (H : forall cur, y ∈ last_part cur ch -> (y ∈ cur -> y <> NEWLINE) -> (y ∈ cur \/ y ∈ ch) /\ y <> NEWLINE).
      { induction ch as [|z ch IH]; intros cur Hy Hc; cbn in Hy; [split; [by left|by apply Hc]|]. destruct (Z.eqb_spec z NEWLINE) as [->|Hz].
        - destruct (IH [] Hy ltac:(by intros ?%elem_of_nil)) as [[?%elem_of_nil|H] H']; [done|]. split; [right; by right|done].
        - destruct (IH _ Hy) as [[H|H] H'].
          + intros [?| ->%list_elem_of_singleton]%elem_of_app; [by apply Hc|done].
          + split; [|done]. apply elem_of_app in H as [?| ->%list_elem_of_singleton]; [by left|right; by left].
          + split; [right; by right|done]. }
      intros Hy. destruct (H [] Hy ltac:(by intros ?%elem_of_nil)) as [[?%elem_of_nil|?] ?]; done. }
    rewrite (proj2 (Nat.eqb_neq _ _)).
    2: { rewrite length_app. pose proof (last_part_shorter [] (held ++ ch) ltac:(set_solver)). rewrite length_app in *. lia. }
    rewrite Hlp, IH; [|done|cbn in Hf; lia|done|intros H; by apply Hin in H as [H _]|intros H; by apply Hin in H as [_ H]].
    unfold matched. cbn [concat]. rewrite app_assoc, (lines_app [] (held ++ ch)), Hlp. rewrite filter_app, map_app. do 2 f_equal.
    destruct (no_newline [] (last_part [] ch)) as [E1 E2]; [intros H; by apply Hin in H as [_ H]|]. by rewrite lines_app, E1, E2.
Qed.

Lemma length_concat_ge {A} (l : list (list A)) : Forall (fun x => x <> []) l -> (length l <= length (concat l))%nat.
Proof. induction 1 as [|x l Hx _ IH]; cbn; [done|]. rewrite length_app. destruct x; [done|cbn; lia]. Qed.

(** When every read has a newline and fits the buffer with the unfinished
    line before it, grep prints the lines that match, in order, however the
    input is cut into reads. *)
Theorem grep_prints pattern L input :
  Forall (whole L) input -> grep pattern input = matched pattern (concat input).
Proof.
  intros Hw. unfold grep. rewrite (grep_loop_spec pattern L); try done; [|cbn; lia|apply not_elem_of_nil..].
  apply Nat.lt_succ_r, length_concat_ge. eapply Forall_impl; [exact Hw|]. intros c (H & _) ->. by apply not_elem_of_nil in H.
Qed.

(** A read without a newline is thrown away with the part of a line that the
    buffer held: the rest of the line is printed, if at all, as a line of its
    own. *)
Theorem grep_drops_partial_line pattern c input :
  c <> [] -> NEWLINE ∉ c -> 0 ∉ c -> (length c < BUF)%nat ->
  exists fuel, grep pattern (c :: input) = grep_loop fuel pattern [] input /\ (length (concat input) < fuel)%nat.
Proof.
  intros Hc Hn H0 Hl. exists (length (concat (c :: input))). split.
  - unfold grep. cbn [grep_loop]. rewrite read_all by (change (length (@nil Z)) with 0%nat; lia). destruct c as [|x c]; [done|]. cbn [app].
    rewrite grep_lines_spec by done. destruct (no_newline [] (x :: c) Hn) as [E1 E2]. unfold matched. rewrite E1, E2. cbn [app filter map].
    by rewrite Nat.eqb_refl.
  - cbn [concat]. rewrite length_app. destruct c; [done|]. cbn [length]. lia.
Qed.

(** ** wc *)

(** The words of a text: the bytes that are no space after one that is, the
    first byte too unless the text goes on inside a word. *)
Fixpoint words (inword : bool) (text : list Z) : Z :=
  match text with
  | [] => 0
  | x :: text => (if is_space x then 0 else if inword then 0 else 1) + words (negb (is_space x)) text
  end.
Fixpoint ends_inword (inword : bool) (text : list Z) : bool :=
  match text with [] => inword | x :: text => ends_inword (negb (is_space x)) text end.
Fixpoint newlines (text : list Z) : Z :=
  match text with [] => 0 | x :: text => (if x =? NEWLINE then 1 else 0) + newlines text end.

Lemma s32_add a b : s32 (s32 a + b) = s32 (a + b).
Proof.
  unfold s32. f_equal. change (2 ^ 31) with 2147483648. change (2 ^ 32) with 4294967296. Z.to_euclidean_division_equations. lia.
Qed.

Lemma wc_buf_spec text l w c inword :
  wc_buf text (s32 l, s32 w, s32 c, inword) =
    (s32 (l + newlines text), s32 (w + words inword text), s32 (c + Z.of_nat (length text)), ends_inword inword text).
Proof.
  revert l w c inword. induction text as [|x text IH]; intros l w c inword; [cbn; by rewrite !Z.add_0_r|].
  cbn [wc_buf newlines words ends_inword length]. rewrite !s32_add.
  replace (if x =? NEWLINE then s32 (l + 1) else s32 l) with (s32 (l + if x =? NEWLINE then 1 else 0)) by (destruct (x =? NEWLINE); [done|by rewrite Z.add_0_r]).
  destruct (is_space x); [|destruct inword]; cbn [negb]; rewrite IH; repeat (f_equal; try lia).
Qed.

Lemma words_app inword t1 t2 : words inword (t1 ++ t2) = words inword t1 + words (ends_inword inword t1) t2.
Proof. revert inword. induction t1 as [|x t1 IH]; intros inword; [done|]. cbn. rewrite IH. lia. Qed.
Lemma newlines_app t1 t2 : newlines (t1 ++ t2) = newlines t1 + newlines t2.
Proof. induction t1 as [|x t1 IH]; [done|]. cbn. rewrite IH. lia. Qed.

Lemma wc_loop_spec input l w c inword : Forall (fun b => b <> []) input ->
  (wc_loop input (s32 l, s32 w, s32 c, inword)).1 =
    (s32 (l + newlines (concat input)), s32 (w + words inword (concat input)), s32 (c + Z.of_nat (length (concat input)))).
Proof.
  intros Hi. revert l w c inword. induction Hi as [|b input Hb _ IH]; intros l w c inword; [cbn; by rewrite !Z.add_0_r|].
  replace (wc_loop (b :: input) (s32 l, s32 w, s32 c, inword)) with (wc_loop input (wc_buf b (s32 l, s32 w, s32 c, inword))) by (by destruct b).
  rewrite wc_buf_spec, IH. cbn [concat]. rewrite newlines_app, words_app, length_app. repeat (f_equal; try lia).
Qed.

(** However the input is cut into reads, wc prints the number of newlines,
    of words and of bytes of the whole, as ints. *)
Theorem wc_counts input : Forall (fun b => b <> []) input ->
  wc input = (s32 (newlines (concat input)), s32 (words false (concat input)), s32 (Z.of_nat (length (concat input)))).
Proof. apply (wc_loop_spec input 0 0 0 false). Qed.

(** ** Examples *)

(** [a.*c$] *)
Lemma grep_prints_witness : grep [97; 46; 42; 99; 36] [[97; 120; 99; 10; 98]; [97; 99; 10]] = [[97; 120; 99; 10]; [98; 97; 99; 10]].
Proof.
  rewrite (grep_prints _ 1); [by vm_compute|]. repeat constructor; try (by vm_compute; lia); try set_solver.
Defined.

Lemma grep_drops_partial_line_witness : exists fuel, grep [97] [[97; 98]; [99; 10]] = grep_loop fuel [97] [] [[99; 10]].
Proof.
  destruct (grep_drops_partial_line [97] [97; 98] [[99; 10]]) as (fuel & E & _); [done|set_solver|set_solver|unfold BUF; cbn; lia|].
  exists fuel. exact E.
Defined.

Lemma wc_counts_witness : wc [[97; 32; 98]; [99; 10]] = (1, 2, 5).
Proof. rewrite wc_counts; [reflexivity|]. repeat constructor; discriminate. Defined.
