(* ===== verification/Kbd.v ===== *)
(** * The keyboard (kbd.c, kbd.h)

    kbdgetc reads one scan code and keeps the modifier keys in the static
    [shift].  The port reads are arguments: the status byte and the data
    byte.  The sparse tables of kbd.h are given by the entries written there,
    in order and by index; the others are 0. *)

From S2P Require Import Prelude.
#[local] Open Scope Z_scope.

Definition KBS_DIB : Z := 1.
Definition SHIFT : Z := 1.
Definition CTL : Z := 2.
Definition ALT : Z := 4.
Definition CAPSLOCK : Z := 8.
Definition NUMLOCK : Z := 16.
Definition SCROLLLOCK : Z := 32.
Definition E0ESC : Z := 64.

(** An array of 256 [uchar]s with its initialiser. *)
Definition table (dense : list Z) (indexed : list (Z * Z)) (i : Z) : Z :=
  match List.find (fun p => fst p =? i) indexed with
  | Some p => u8 (snd p)
  | None => u8 (default 0 (dense !! Z.to_nat i))
  end.

Definition shiftcode : Z -> Z :=
  table [] [(29, 2); (42, 1); (54, 1); (56, 4); (157, 2); (184, 4)].
Definition togglecode : Z -> Z :=
  table [] [(58, 8); (69, 16); (70, 32)].
Definition normalmap : Z -> Z :=
  table [0; 27; 49; 50; 51; 52; 53; 54; 55; 56; 57; 48; 45; 61; 8; 9;
    113; 119; 101; 114; 116; 121; 117; 105; 111; 112; 91; 93; 10; 0; 97; 115;
    100; 102; 103; 104; 106; 107; 108; 59; 39; 96; 0; 92; 122; 120; 99; 118;
    98; 110; 109; 44; 46; 47; 0; 42; 0; 32; 0; 0; 0; 0; 0; 0;
    0; 0; 0; 0; 0; 0; 0; 55; 56; 57; 45; 52; 53; 54; 43; 49;
    50; 51; 48; 46; 0; 0; 0; 0] [(156, 10); (181, 47); (200, 226); (208, 227); (201, 230); (209, 231); (203, 228); (205, 229); (151, 224); (207, 225); (210, 232); (211, 233)].
Definition shiftmap : Z -> Z :=
  table [0; 27; 33; 64; 35; 36; 37; 94; 38; 42; 40; 41; 95; 43; 8; 9;
    81; 87; 69; 82; 84; 89; 85; 73; 79; 80; 123; 125; 10; 0; 65; 83;
    68; 70; 71; 72; 74; 75; 76; 58; 34; 126; 0; 124; 90; 88; 67; 86;
    66; 78; 77; 60; 62; 63; 0; 42; 0; 32; 0; 0; 0; 0; 0; 0;
    0; 0; 0; 0; 0; 0; 0; 55; 56; 57; 45; 52; 53; 54; 43; 49;
    50; 51; 48; 46; 0; 0; 0; 0] [(156, 10); (181, 47); (200, 226); (208, 227); (201, 230); (209, 231); (203, 228); (205, 229); (151, 224); (207, 225); (210, 232); (211, 233)].
Definition ctlmap : Z -> Z :=
  table [0; 0; 0; 0; 0; 0; 0; 0; 0; 0; 0; 0; 0; 0; 0; 0;
    17; 23; 5; 18; 20; 25; 21; 9; 15; 16; 0; 0; 13; 0; 1; 19;
    4; 6; 7; 8; 10; 11; 12; 0; 0; 0; 0; 28; 26; 24; 3; 22;
    2; 14; 13; 0; 0; -17; 0; 0] [(156, 13); (181, -17); (200, 226); (208, 227); (201, 230); (209, 231); (203, 228); (205, 229); (151, 224); (207, 225); (210, 232); (211, 233)].

Definition charcode (k : Z) : Z -> Z :=
  if k =? 0 then normalmap else if k =? 1 then shiftmap else ctlmap.

(** kbdgetc with a byte in the buffer, from [shift]: its result and the new
    [shift]. *)
Definition kbd_data (shift data : Z) : Z * Z :=
  if data =? 224 then (0, Z.lor shift E0ESC)
  else if negb (Z.land data 128 =? 0) then
    let data := if negb (Z.land shift E0ESC =? 0) then data else Z.land data 127 in
    (0, Z.land shift (Z.lnot (Z.lor (shiftcode data) E0ESC)))
  else
    let '(data, shift) :=
      if negb (Z.land shift E0ESC =? 0) then (Z.lor data 128, Z.land shift (Z.lnot E0ESC)) else (data, shift) in
    let shift := Z.lor shift (shiftcode data) in
    let shift := Z.lxor shift (togglecode data) in
    let c := charcode (Z.land shift (Z.lor CTL SHIFT)) data in
    let c :=
      if negb (Z.land shift CAPSLOCK =? 0) then
        if (97 <=? c) && (c <=? 122) then c + (65 - 97)
        else if (65 <=? c) && (c <=? 90) then c + (97 - 65)
        else c
      else c in
    (c, shift).

Definition kbdgetc (status data shift : Z) : Z * Z :=
  if Z.land status KBS_DIB =? 0 then (-1, shift) else kbd_data shift data.

(** ** Every state and every byte *)

Definition all_below (n : nat) (p : Z -> bool) : bool := forallb (fun k => p (Z.of_nat k)) (seq 0 n).
Lemma all_below_spec n p x : all_below n p = true -> 0 <= x < Z.of_nat n -> p x = true.
Proof.
  unfold all_below. rewrite forallb_forall. intros H Hx. rewrite <- (Z2Nat.id x) by lia. apply H, in_seq. lia.
Qed.

(** kbdgetc stays inside its tables: the row index is at most 3, results are
    bytes, and [shift] keeps to its seven bits. *)
Theorem kbd_in_range shift data :
  0 <= shift < 128 -> 0 <= data < 256 ->
  let '(c, shift') := kbd_data shift data in 0 <= c < 256 /\ 0 <= shift' < 128.
Proof.
  intros Hs Hd. assert (H : all_below 128 (fun s => all_below 256 (fun d =>
    let '(c, s') := kbd_data s d in (0 <=? c) && (c <? 256) && (0 <=? s') && (s' <? 128))) = true) by (vm_compute; reflexivity).
  apply (all_below_spec _ _ shift) in H; [|done]. apply (all_below_spec _ _ data) in H; [|done].
  cbv beta in H. destruct (kbd_data shift data) as [c s']. bool_hyps. lia.
Qed.

(** The letter keys. *)
Definition letter (data : Z) : bool := (97 <=? normalmap data) && (normalmap data <=? 122).

(** A letter key gives its control character with CTL, and otherwise the
    letter, in upper case when exactly one of SHIFT and CAPS LOCK is on. *)
Theorem kbd_letters shift data :
  0 <= shift < 64 -> 0 <= data < 128 -> letter data = true ->
  kbd_data shift data =
    (let up := xorb (Z.testbit shift 0) (Z.testbit shift 3) in
     if Z.testbit shift 1 then normalmap data - 96 else if up then normalmap data - 32 else normalmap data, shift).
Proof.
  intros Hs Hd Hl. assert (H : all_below 64 (fun s => all_below 128 (fun d => negb (letter d) ||
    bool_decide (kbd_data s d = (let up := xorb (Z.testbit s 0) (Z.testbit s 3) in
     if Z.testbit s 1 then normalmap d - 96 else if up then normalmap d - 32 else normalmap d, s)))) = true) by (vm_compute; reflexivity).
  apply (all_below_spec _ _ shift) in H; [|done]. apply (all_below_spec _ _ data) in H; [|done].
  cbv beta in H. rewrite Hl in H. by apply bool_decide_eq_true in H.
Qed.

Lemma kbd_in_range_witness : kbd_data 0 30 = (97, 0) /\ 0 <= 97 < 256.
Proof. split; [reflexivity|]. apply (kbd_in_range 0 30); lia. Defined.

Lemma kbd_letters_witness : kbd_data 9 30 = (97, 9).
Proof. rewrite kbd_letters; [reflexivity|lia|lia|reflexivity]. Defined.
