(* ===== verification/Console.v ===== *)
(** * Console input (console.c)

    The circular buffer [input] between the interrupt handlers of the
    keyboard and the serial port and the readers of the console.  The code
    of consoleintr and consoleread is shown to be a line editor: what was
    typed since the last complete line can be edited, complete lines wait to
    be read.  Indices are [uint]s that wrap at 2^32; the buffer holds signed
    [char]s.  What is sent to consputc is a list. *)

From S2P Require Import Prelude.
#[local] Open Scope Z_scope.

Definition INPUT_BUF : Z := 128.
Definition BACKSPACE : Z := 256.
Definition CTRL_D : Z := 4.
Definition CTRL_H : Z := 8.
Definition CTRL_P : Z := 16.
Definition CTRL_U : Z := 21.
Definition NEWLINE : Z := 10.

Record input := { buf : Z -> Z; rd : Z; wr : Z; ed : Z }.
Definition set_rd (x : Z) (s : input) : input := {| buf := buf s; rd := x; wr := wr s; ed := ed s |}.
Definition set_wr (x : Z) (s : input) : input := {| buf := buf s; rd := rd s; wr := x; ed := ed s |}.
Definition set_ed (x : Z) (s : input) : input := {| buf := buf s; rd := rd s; wr := wr s; ed := x |}.
Definition put (i c : Z) (s : input) : input := {| buf := <[i := c]> (buf s); rd := rd s; wr := wr s; ed := ed s |}.

(** The loop of Control-U. *)
Fixpoint kill_line (fuel : nat) (s : input) : input * list Z :=
  match fuel with
  | O => (s, [])
  | S fuel =>
      if negb (ed s =? wr s) && negb (buf s (u32 (ed s - 1) mod INPUT_BUF) =? NEWLINE) then
        let '(s, out) := kill_line fuel (set_ed (u32 (ed s - 1)) s) in (s, BACKSPACE :: out)
      else (s, [])
  end.

(** The storing of a character that is not a command: the buffer, what goes
    to consputc, whether it wakes the readers, and whether it asks for
    procdump. *)
Definition store_char (c : Z) (s : input) : input * list Z * bool * bool :=
  let s := set_ed (u32 (ed s + 1)) (put (ed s mod INPUT_BUF) (s8 c) s) in
  if (c =? NEWLINE) || (c =? CTRL_D) || (ed s =? u32 (rd s + INPUT_BUF)) then (set_wr (ed s) s, [c], true, false)
  else (s, [c], false, false).

(** One round of the loop of consoleintr. *)
Definition consoleintr_char (c : Z) (s : input) : input * list Z * bool * bool :=
  if c =? CTRL_P then (s, [], false, true)
  else if c =? CTRL_U then
    let '(s, out) := kill_line (Z.to_nat INPUT_BUF) s in (s, out, false, false)
  else if (c =? CTRL_H) || (c =? 127) then
    if negb (ed s =? wr s) then (set_ed (u32 (ed s - 1)) s, [BACKSPACE], false, false)
    else (s, [], false, false)
  else if negb (c =? 0) && (u32 (ed s - rd s) <? INPUT_BUF) then
    store_char (if c =? 13 then NEWLINE else c) s
  else (s, [], false, false).

(** consoleintr: the characters that [getc] gives before a negative one. *)
Fixpoint consoleintr (cs : list Z) (s : input) : input * list Z * bool * bool :=
  match cs with
  | [] => (s, [], false, false)
  | c :: cs =>
      let '(s, out, wake, dump) := consoleintr_char c s in
      let '(s, out', wake', dump') := consoleintr cs s in
      (s, out ++ out', wake || wake', dump || dump')
  end.

(** consoleread between two sleeps: it returns the bytes stored, or sleeps on
    [&input.r] with [n] bytes still wanted. *)
Inductive read_end := Returns (v : Z) | Sleeps (n : nat).

Fixpoint consoleread (target n : nat) (killed : bool) (s : input) : input * list Z * read_end :=
  match n with
  | O => (s, [], Returns (Z.of_nat target))
  | S n' =>
      if rd s =? wr s then (s, [], if killed then Returns (-1) else Sleeps n)
      else
        let c := buf s (rd s mod INPUT_BUF) in
        let s' := set_rd (u32 (rd s + 1)) s in
        if c =? CTRL_D then
          ((if (n <? target)%nat then set_rd (u32 (rd s' - 1)) s' else s'), [], Returns (Z.of_nat target - Z.of_nat n))
        else if c =? NEWLINE then (s', [u8 c], Returns (Z.of_nat target - Z.of_nat n'))
        else
          let '(s', dst, e) := consoleread target n' killed s' in (s', u8 c :: dst, e)
  end.

(** consoleget on the results of kbdgetc: the character and the results that
    are left, or no result while none of them is a character.  After a 0 the
    next result is taken and forgotten. *)
Fixpoint consoleget (cs : list Z) : option (Z * list Z) :=
  match cs with
  | [] => None
  | c :: cs =>
      if c <=? 0 then
        if c =? 0 then match cs with [] => None | _ :: cs => consoleget cs end else consoleget cs
      else Some (c, cs)
  end.

(** A character that follows a 0, the result of a key release, is lost. *)
Lemma consoleget_forgets c c' cs : 0 < c' -> consoleget (0 :: c :: c' :: cs) = Some (c', cs).
Proof. intros H. cbn. by rewrite (proj2 (Z.leb_gt c' 0)). Qed.

(** consolewrite: what goes to consputc. *)
Definition consolewrite (bs : list Z) : list Z := map (fun b => Z.land b 255) bs.

(** ** The line editor *)

Record editor := { ready : list Z; line : list Z }.

Definition commits (c : Z) (e : editor) : bool :=
  (c =? NEWLINE) || (c =? CTRL_D) || (Z.of_nat (length (ready e) + length (line e)) + 1 =? INPUT_BUF).

Definition type_char (c : Z) (e : editor) : editor :=
  let line' := line e ++ [s8 c] in
  if commits c e then {| ready := ready e ++ line'; line := [] |} else {| ready := ready e; line := line' |}.

Definition edit (c : Z) (e : editor) : editor :=
  if c =? CTRL_P then e
  else if c =? CTRL_U then {| ready := ready e; line := [] |}
  else if (c =? CTRL_H) || (c =? 127) then {| ready := ready e; line := removelast (line e) |}
  else if negb (c =? 0) && (Z.of_nat (length (ready e) + length (line e)) <? INPUT_BUF) then
    type_char (if c =? 13 then NEWLINE else c) e
  else e.

(** What is echoed. *)
Definition echo (c : Z) (e : editor) : list Z :=
  if c =? CTRL_P then []
  else if c =? CTRL_U then replicate (length (line e)) BACKSPACE
  else if (c =? CTRL_H) || (c =? 127) then match line e with [] => [] | _ => [BACKSPACE] end
  else if negb (c =? 0) && (Z.of_nat (length (ready e) + length (line e)) <? INPUT_BUF) then [if c =? 13 then NEWLINE else c]
  else [].

(** A reader takes characters up to a newline or an end of file, which it
    leaves behind when it has taken something. *)
Fixpoint take_line (target n : nat) (killed : bool) (cs : list Z) : list Z * list Z * read_end :=
  match n with
  | O => (cs, [], Returns (Z.of_nat target))
  | S n' =>
      match cs with
      | [] => ([], [], if killed then Returns (-1) else Sleeps n)
      | c :: cs' =>
          if c =? CTRL_D then (if (n <? target)%nat then cs else cs', [], Returns (Z.of_nat target - Z.of_nat n))
          else if c =? NEWLINE then (cs', [u8 c], Returns (Z.of_nat target - Z.of_nat n'))
          else let '(cs', dst, e) := take_line target n' killed cs' in (cs', u8 c :: dst, e)
      end
  end.

(** ** The buffer as an editor *)

Definition span (s : input) (from : Z) (n : nat) : list Z :=
  map (fun i => buf s (u32 (from + Z.of_nat i) mod INPUT_BUF)) (seq 0 n).
Definition editor_of (s : input) : editor :=
  {| ready := span s (rd s) (Z.to_nat (u32 (wr s - rd s))); line := span s (wr s) (Z.to_nat (u32 (ed s - wr s))) |}.

Record ring_ok (s : input) : Prop := {
  ro_rd : is_u32 (rd s);
  ro_wr : is_u32 (wr s);
  ro_ed : is_u32 (ed s);
  ro_full : u32 (wr s - rd s) + u32 (ed s - wr s) <= INPUT_BUF;
  ro_line : NEWLINE ∉ line (editor_of s) }.

(** Arithmetic modulo 2^32 and 128. *)
Ltac ring_arith := unfold u32, is_u32, INPUT_BUF in *; change (2 ^ 32) with 4294967296 in *; Z.to_euclidean_division_equations; lia.

Lemma length_span s from n : length (span s from n) = n.
Proof. unfold span. by rewrite length_map, length_seq. Qed.

Lemma span_S s from n : span s from (S n) = span s from n ++ [buf s (u32 (from + Z.of_nat n) mod INPUT_BUF)].
Proof. unfold span. by rewrite seq_S, map_app. Qed.

Lemma u32_add a b : u32 (u32 a + b) = u32 (a + b).
Proof. unfold u32. apply Zplus_mod_idemp_l. Qed.

Lemma span_cons s from n : span s from (S n) = buf s (u32 from mod INPUT_BUF) :: span s (u32 (from + 1)) n.
Proof.
  unfold span. cbn [seq map]. rewrite Z.add_0_r. f_equal. rewrite <- seq_shift, map_map. apply map_ext. intros i.
  rewrite u32_add. do 3 f_equal. lia.
Qed.

Lemma span_put s i c from n :
  (forall k, (k < n)%nat -> u32 (from + Z.of_nat k) mod INPUT_BUF <> i) -> span (put i c s) from n = span s from n.
Proof. intros H. apply map_ext_in. intros k Hk%in_seq. cbn. apply fn_lookup_insert_ne. intros E. apply (H k); [lia|done]. Qed.

Lemma span_app s from a b : span s from (a + b) = span s from a ++ span s (u32 (from + Z.of_nat a)) b.
Proof.
  revert from. induction a as [|a IH]; intros from; cbn [Nat.add].
  { unfold span. apply map_ext. intros i. rewrite u32_add. do 3 f_equal. lia. }
  rewrite !span_cons, IH, u32_add. cbn [app]. do 4 f_equal. lia.
Qed.

(** The three indices and the lengths of the two parts. *)
Record ring_at (s : input) (a b : nat) : Prop := {
  ra_rd : is_u32 (rd s);
  ra_wr : wr s = u32 (rd s + Z.of_nat a);
  ra_ed : ed s = u32 (wr s + Z.of_nat b);
  ra_full : (a + b <= 128)%nat;
  ra_line : NEWLINE ∉ span s (wr s) b }.

Lemma ring_at_intro s : ring_ok s -> exists a b, ring_at s a b.
Proof.
  intros [H1 H2 H3 H4 H5]. exists (Z.to_nat (u32 (wr s - rd s))), (Z.to_nat (u32 (ed s - wr s))).
  split; [done|ring_arith|ring_arith|ring_arith|done].
Qed.

Lemma ring_at_editor s a b : ring_at s a b -> editor_of s = {| ready := span s (rd s) a; line := span s (wr s) b |}.
Proof.
  intros [H1 H2 H3 H4 _]. unfold editor_of. f_equal; f_equal; ring_arith.
Qed.

Lemma ring_at_ok s a b : ring_at s a b -> ring_ok s.
Proof.
  intros H. pose proof (ring_at_editor _ _ _ H) as E. destruct H as [H1 H2 H3 H4 H5].
  split; [done|ring_arith|ring_arith|ring_arith|by rewrite E].
Qed.

Lemma ring_at_pop s a b : ring_at s a (S b) ->
  ring_at (set_ed (u32 (ed s - 1)) s) a b /\ span s (wr s) (S b) = span s (wr s) b ++ [buf s (u32 (ed s - 1) mod INPUT_BUF)] /\
  ed s <> wr s.
Proof.
  intros [H1 H2 H3 H4 H5].
  assert (E : u32 (ed s - 1) = u32 (wr s + Z.of_nat b)) by ring_arith.
  split_and!; [|by rewrite span_S, E|ring_arith].
  split; cbn; [done|done|done|lia|]. rewrite span_S in H5. set_solver.
Qed.

Lemma kill_line_ok fuel s a b : ring_at s a b -> (b <= fuel)%nat ->
  exists s', kill_line fuel s = (s', replicate b BACKSPACE) /\ ring_at s' a 0 /\ buf s' = buf s /\ rd s' = rd s.
Proof.
  revert s b. induction fuel as [|fuel IH]; intros s b H Hb; cbn [kill_line].
  { replace b with 0%nat in * by lia. by exists s. }
  destruct b as [|b].
  { replace (ed s =? wr s) with true by (destruct H; symmetry; apply Z.eqb_eq; ring_arith). by exists s. }
  destruct (ring_at_pop _ _ _ H) as (H' & E & Hne).
  rewrite (proj2 (Z.eqb_neq _ _) Hne). cbn [negb andb].
  assert (Hc : buf s (u32 (ed s - 1) mod INPUT_BUF) <> NEWLINE) by (destruct H as [_ _ _ _ Hl]; rewrite E in Hl; set_solver).
  rewrite (proj2 (Z.eqb_neq _ _) Hc). cbn [negb].
  destruct (IH _ _ H') as (s' & -> & ? & ? & ?); [lia|]. by exists s'.
Qed.

Lemma ring_at_put s a b c : ring_at s a b -> (a + b < 128)%nat -> c <> NEWLINE ->
  let s' := set_ed (u32 (ed s + 1)) (put (ed s mod INPUT_BUF) c s) in
  ring_at s' a (S b).
Proof.
  intros [H1 H2 H3 H4 H5] Hf Hc. split; cbn; [done|done|ring_arith|lia|].
  change (NEWLINE ∉ span (put (ed s mod INPUT_BUF) c s) (wr s) (S b)).
  rewrite span_S, span_put.
  - intros [?|Hl]%elem_of_app; [done|]. apply Hc. apply list_elem_of_singleton in Hl. rewrite Hl. cbn. rewrite <- H3. by rewrite fn_lookup_insert.
  - intros k Hk. ring_arith.
Qed.

(** What [put] does to the two parts. *)
Lemma span_after_put s a b c : ring_at s a b -> (a + b < 128)%nat ->
  let s' := set_ed (u32 (ed s + 1)) (put (ed s mod INPUT_BUF) c s) in
  span s' (rd s) a = span s (rd s) a /\ span s' (wr s) (S b) = span s (wr s) b ++ [c].
Proof.
  intros [H1 H2 H3 H4 H5] Hf. split.
  - apply span_put. intros k Hk. ring_arith.
  - change (span (put (ed s mod INPUT_BUF) c s) (wr s) (S b) = span s (wr s) b ++ [c]).
    rewrite span_S, span_put; [|intros k Hk; ring_arith]. cbn. rewrite <- H3. by rewrite fn_lookup_insert.
Qed.

(** All typed characters become readable. *)
Lemma ring_at_commit s a b c :
  ring_at s a b -> (a + b < 128)%nat ->
  let s' := set_ed (u32 (ed s + 1)) (put (ed s mod INPUT_BUF) c s) in
  ring_at (set_wr (u32 (ed s + 1)) s') (a + S b) 0.
Proof. intros [H1 H2 H3 H4 H5] Hf. split; cbn; [done|ring_arith|ring_arith|lia|set_solver]. Qed.

Lemma ring_room s a b : ring_at s a b -> (u32 (ed s - rd s) <? INPUT_BUF) = (Z.of_nat (a + b) <? INPUT_BUF).
Proof. intros [H1 H2 H3 H4 H5]. apply Bool.eq_true_iff_eq. rewrite !Z.ltb_lt. ring_arith. Qed.

Lemma ring_fills s a b : ring_at s a b -> (a + b < 128)%nat ->
  (u32 (ed s + 1) =? u32 (rd s + INPUT_BUF)) = (Z.of_nat (a + b) + 1 =? INPUT_BUF).
Proof. intros [H1 H2 H3 H4 H5] Hf. apply Bool.eq_true_iff_eq. rewrite !Z.eqb_eq. ring_arith. Qed.

(** What one round of consoleintr does: the buffer stays well formed and the
    editor, the echo and the wakeup are as specified. *)
Definition steps_to (s s' : input) (e : editor) (wake : bool) : Prop :=
  ring_ok s' /\ editor_of s' = e /\ rd s' = rd s /\ (wake = true <-> ready e <> ready (editor_of s)).

Lemma s8_not_newline c : 0 <= c < 256 -> c <> NEWLINE -> s8 c <> NEWLINE.
Proof. unfold s8, NEWLINE. intros. Z.to_euclidean_division_equations. lia. Qed.

Lemma store_char_ok c s : ring_ok s -> 0 <= c < 256 -> (u32 (ed s - rd s) <? INPUT_BUF) = true ->
  exists s' wake, store_char c s = (s', [c], wake, false) /\ steps_to s s' (type_char c (editor_of s)) wake.
Proof.
  intros (a & b & H)%ring_at_intro Hc Hr.
  pose proof (ring_at_editor _ _ _ H) as He. rewrite (ring_room _ _ _ H) in Hr. apply Z.ltb_lt in Hr.
  assert (Hf : (a + b < 128)%nat) by (unfold INPUT_BUF in Hr; lia).
  unfold store_char, type_char, commits. cbn zeta. rewrite He. cbn [ready line ed set_ed rd put].
  rewrite !length_span, (ring_fills _ _ _ H Hf), Nat2Z.inj_add.
  destruct (span_after_put _ _ _ (s8 c) H Hf) as [Ea Eb].
  destruct (_ || _) eqn:Hd.
  - do 2 eexists. split; [done|]. pose proof (ring_at_commit _ _ _ (s8 c) H Hf) as H'. cbn zeta in H'.
    pose proof (ring_at_editor _ _ _ H') as He'. unfold steps_to. split; [by eapply ring_at_ok|].
    rewrite He, He'. split_and!; [|done|].
    + f_equal. cbn [rd set_wr set_ed put]. rewrite span_app. f_equal; [exact Ea|].
      destruct H as [? Hw ? ? ?]. rewrite <- Hw. exact Eb.
    + cbn [ready]. split; [intros _ E|done]. apply (f_equal length) in E. rewrite !length_app, !length_span in E. cbn in E. lia.
  - do 2 eexists. split; [done|]. apply orb_false_iff in Hd as [[Hn _]%orb_false_iff _]. apply Z.eqb_neq in Hn.
    pose proof (ring_at_put _ _ _ (s8 c) H Hf (s8_not_newline _ Hc Hn)) as H'. cbn zeta in H'.
    pose proof (ring_at_editor _ _ _ H') as He'. unfold steps_to. split; [by eapply ring_at_ok|].
    rewrite He, He'. split_and!; [by f_equal|done|]. cbn [ready]. split; [done|by intros []].
Qed.

Lemma steps_to_edits s s' a b : ring_at s' a b -> rd s' = rd s -> span s' (rd s') a = ready (editor_of s) ->
  steps_to s s' {| ready := ready (editor_of s); line := span s' (wr s') b |} false.
Proof.
  intros H Hr Hs. pose proof (ring_at_editor _ _ _ H) as He. split; [by eapply ring_at_ok|]. rewrite He, Hs.
  split_and!; [done..|]. split; [done|]. by intros [].
Qed.

Lemma steps_to_same s : ring_ok s -> steps_to s s (editor_of s) false.
Proof. intros H. split_and!; [done..|]. split; [done|]. by intros []. Qed.

Lemma consoleintr_char_ok c s : ring_ok s -> 0 <= c < 256 ->
  exists s' wake, consoleintr_char c s = (s', echo c (editor_of s), wake, c =? CTRL_P) /\ steps_to s s' (edit c (editor_of s)) wake.
Proof.
  intros Hok Hc. unfold consoleintr_char, echo, edit.
  destruct (c =? CTRL_P) eqn:HP. { exists s, false. split; [done|by apply steps_to_same]. }
  pose proof (ring_at_intro _ Hok) as (a & b & H). pose proof (ring_at_editor _ _ _ H) as He.
  destruct (c =? CTRL_U).
  { destruct (kill_line_ok (Z.to_nat INPUT_BUF) s a b H) as (s' & E & H' & Hb & Hr); [destruct H; unfold INPUT_BUF; lia|].
    exists s', false. rewrite E, He. cbn [line ready]. rewrite length_span. split; [done|].
    pose proof (steps_to_edits s s' a 0 H' Hr) as Hs. rewrite He in Hs. apply Hs. cbn [ready]. unfold span. by rewrite Hb, Hr. }
  destruct ((c =? CTRL_H) || (c =? 127)).
  { destruct b as [|b].
    - replace (ed s =? wr s) with true by (destruct H; symmetry; apply Z.eqb_eq; ring_arith). rewrite He. cbn.
      exists s, false. split; [done|]. pose proof (steps_to_same s Hok) as Hs. rewrite He in Hs. exact Hs.
    - destruct (ring_at_pop _ _ _ H) as (H' & E & Hne). rewrite (proj2 (Z.eqb_neq _ _) Hne). cbn [negb].
      do 2 eexists. split; [|].
      + rewrite He. cbn [line]. rewrite E. by destruct (span s (wr s) b).
      + pose proof (steps_to_edits s _ a b H') as Hs. rewrite He in *. cbn [line ready] in *. rewrite E, removelast_last.
        by apply Hs. }
  rewrite (ring_room _ _ _ H). replace (length (ready (editor_of s)) + length (line (editor_of s)))%nat with (a + b)%nat by (rewrite He; cbn [ready line]; by rewrite !length_span).
  destruct (negb (c =? 0) && (Z.of_nat (a + b) <? INPUT_BUF)) eqn:Hd.
  - apply andb_true_iff in Hd as [_ Hd].
    apply store_char_ok; [done|destruct (c =? 13); unfold NEWLINE; lia|]. by rewrite (ring_room _ _ _ H).
  - exists s, false. split; [done|]. by apply steps_to_same.
Qed.

(** ** A whole interrupt *)

Definition edits (cs : list Z) (e : editor) : editor := foldl (fun e c => edit c e) e cs.
Fixpoint echoes (cs : list Z) (e : editor) : list Z :=
  match cs with [] => [] | c :: cs => echo c e ++ echoes cs (edit c e) end.

Lemma consoleintr_ok cs s : ring_ok s -> Forall (fun c => 0 <= c < 256) cs ->
  exists s' wake, consoleintr cs s = (s', echoes cs (editor_of s), wake, existsb (Z.eqb CTRL_P) cs) /\
    ring_ok s' /\ editor_of s' = edits cs (editor_of s) /\ rd s' = rd s.
Proof.
  intros Hok HF. revert s Hok. induction HF as [|c cs Hc _ IH]; intros s Hok; cbn [consoleintr echoes existsb].
  { exists s, false. by split_and!. }
  destruct (consoleintr_char_ok c s Hok Hc) as (s1 & w1 & -> & Hok1 & He & Hr & _).
  destruct (IH s1 Hok1) as (s2 & w2 & -> & Hok2 & He2 & Hr2).
  exists s2, (w1 || w2). rewrite <- He, He2, Hr2, Hr, Z.eqb_sym. split_and!; [done|done| |done]. unfold edits. cbn [foldl]. by rewrite He.
Qed.

(** ** The reader *)

Lemma ring_at_take s a b : ring_at s (S a) b ->
  let s' := set_rd (u32 (rd s + 1)) s in
  ring_at s' a b /\ rd s <> wr s /\ u32 (rd s' - 1) = rd s /\
  span s (rd s) (S a) = buf s (rd s mod INPUT_BUF) :: span s' (rd s') a.
Proof.
  intros [H1 H2 H3 H4 H5]. cbn zeta. cbn [rd set_rd]. split_and!; [split; cbn; [ring_arith|ring_arith|done|lia|done]|ring_arith..|].
  rewrite span_cons. do 2 f_equal. ring_arith.
Qed.

Lemma consoleread_ok target n killed s : ring_ok s ->
  exists s' dst e, consoleread target n killed s = (s', dst, e) /\ ring_ok s' /\
    take_line target n killed (ready (editor_of s)) = (ready (editor_of s'), dst, e) /\
    line (editor_of s') = line (editor_of s).
Proof.
  revert s. induction n as [|n IH]; intros s Hok; cbn [consoleread take_line].
  { exists s, [], (Returns (Z.of_nat target)). by split_and!. }
  pose proof (ring_at_intro _ Hok) as (a & b & H). pose proof (ring_at_editor _ _ _ H) as He.
  destruct a as [|a].
  { replace (rd s =? wr s) with true by (destruct H; symmetry; apply Z.eqb_eq; ring_arith).
    do 3 eexists. split; [done|]. rewrite He. by split_and!. }
  destruct (ring_at_take _ _ _ H) as (H' & Hne & Hback & E). cbn zeta in *.
  rewrite (proj2 (Z.eqb_neq _ _) Hne), He. cbn [ready line]. rewrite E.
  pose proof (ring_at_editor _ _ _ H') as He'. pose proof (ring_at_ok _ _ _ H') as Hok'.
  set (s1 := set_rd (u32 (rd s + 1)) s) in *. set (c := buf s (rd s mod INPUT_BUF)) in *.
  assert (Hl : line (editor_of s1) = span s (wr s) b) by (by rewrite He').
  assert (Hr : ready (editor_of s1) = span s1 (rd s1) a) by (by rewrite He').
  destruct (c =? CTRL_D).
  { do 3 eexists. split; [done|]. destruct (S n <? target)%nat.
    - rewrite Hback. change (set_rd (rd s) s1) with (set_rd (rd s) s). replace (set_rd (rd s) s) with s by (by destruct s).
      rewrite He. cbn [ready line]. rewrite E. by split_and!.
    - rewrite Hr. by split_and!. }
  destruct (c =? NEWLINE).
  { do 3 eexists. split; [done|]. rewrite Hr. by split_and!. }
  destruct (IH s1 Hok') as (s' & dst & e & -> & Hok2 & Hread & Hline).
  exists s', (u8 c :: dst), e. split; [done|]. rewrite Hr in Hread. rewrite Hread, Hline. by split_and!.
Qed.

(** ** A line typed and read *)

Definition printable (c : Z) : Prop := 32 <= c < 127.

Lemma edit_printable c l : printable c -> Z.of_nat (length l) + 1 < INPUT_BUF ->
  edit c {| ready := []; line := l |} = {| ready := []; line := l ++ [c] |}.
Proof.
  intros Hc Hl. unfold printable, INPUT_BUF in *. unfold edit, type_char, commits, CTRL_P, CTRL_U, CTRL_H, CTRL_D, NEWLINE, INPUT_BUF. cbn [ready line length].
  repeat (rewrite (proj2 (Z.eqb_neq c _)) by lia). cbn [negb andb orb]. rewrite (proj2 (Z.ltb_lt _ _)) by lia. rewrite (proj2 (Z.eqb_neq _ _)) by lia. by rewrite s8_small by lia.
Qed.

Lemma edits_printable cs l : Forall printable cs -> Z.of_nat (length l + length cs) < INPUT_BUF ->
  edits cs {| ready := []; line := l |} = {| ready := []; line := l ++ cs |}.
Proof.
  intros HF. revert l. induction HF as [|c cs Hc _ IH]; intros l Hl; unfold edits; cbn [foldl length] in *; [by rewrite app_nil_r|].
  rewrite (edit_printable _ _ Hc) by lia. fold (edits cs {| ready := []; line := l ++ [c] |}).
  rewrite IH by (rewrite length_app; cbn; lia). by rewrite <- app_assoc.
Qed.

Lemma edit_enter l : Z.of_nat (length l) < INPUT_BUF ->
  edit 13 {| ready := []; line := l |} = {| ready := l ++ [NEWLINE]; line := [] |}.
Proof. intros Hl. unfold edit. cbn -[Z.of_nat Z.ltb]. by rewrite (proj2 (Z.ltb_lt _ _)) by lia. Qed.

Lemma echoes_printable cs l : Forall printable cs -> Z.of_nat (length l + length cs) < INPUT_BUF ->
  echoes (cs ++ [13]) {| ready := []; line := l |} = cs ++ [NEWLINE].
Proof.
  intros HF. revert l. induction HF as [|c cs Hc _ IH]; intros l Hl; cbn [echoes app length] in *.
  { unfold echo. cbn -[Z.of_nat Z.ltb]. by rewrite (proj2 (Z.ltb_lt _ _)) by lia. }
  rewrite (edit_printable _ _ Hc), IH by (try (rewrite length_app; cbn); lia).
  unfold printable, INPUT_BUF in *. unfold echo, CTRL_P, CTRL_U, CTRL_H, INPUT_BUF. cbn [ready line length].
  repeat (rewrite (proj2 (Z.eqb_neq c _)) by lia). cbn [negb andb orb]. by rewrite (proj2 (Z.ltb_lt _ _)) by lia.
Qed.

Lemma take_line_text target n killed cs : Forall printable cs -> (length cs < n)%nat -> (n <= target)%nat ->
  take_line target n killed (cs ++ [NEWLINE]) = ([], cs ++ [NEWLINE], Returns (Z.of_nat target - Z.of_nat n + Z.of_nat (length cs) + 1)).
Proof.
  intros HF. revert n. induction HF as [|c cs Hc _ IH]; intros [|n] Hn Ht; cbn [length app] in *; [lia| |lia|]; cbn [take_line].
  - change (NEWLINE =? CTRL_D) with false. change (NEWLINE =? NEWLINE) with true. cbn iota.
    do 2 f_equal. lia.
  - unfold printable in Hc. rewrite (proj2 (Z.eqb_neq c CTRL_D)), (proj2 (Z.eqb_neq c NEWLINE)) by (unfold CTRL_D, NEWLINE; lia).
    rewrite IH by lia. rewrite u8_small by lia. do 2 f_equal. lia.
Qed.

Definition zero_input : input := {| buf := fun _ => 0; rd := 0; wr := 0; ed := 0 |}.

Lemma zero_input_ok : ring_ok zero_input.
Proof. split; cbn; [split; vm_compute; congruence..|vm_compute; congruence|set_solver]. Qed.

(** C19: The console is a line editor: for any characters that the device gives,
    consoleintr leaves the ring of characters well formed and standing for
    what the editor makes of them, echoes what the editor echoes, and asks
    for the process listing exactly when Control-P is among them; and
    consoleread, for any count and any state, takes from the complete lines
    what the editor gives to a reader and leaves the unfinished line alone. *)
Theorem console_line_editor s : ring_ok s ->
  (forall cs, Forall (fun c => 0 <= c < 256) cs ->
     exists s' wake, consoleintr cs s = (s', echoes cs (editor_of s), wake, existsb (Z.eqb CTRL_P) cs) /\
       ring_ok s' /\ editor_of s' = edits cs (editor_of s)) /\
  (forall target n killed,
     exists s' dst e, consoleread target n killed s = (s', dst, e) /\ ring_ok s' /\
       take_line target n killed (ready (editor_of s)) = (ready (editor_of s'), dst, e) /\
       line (editor_of s') = line (editor_of s)).
Proof.
  intros Hok. split.
  - intros cs HF. destruct (consoleintr_ok cs s Hok HF) as (s' & wake & ? & ? & ? & _). by exists s', wake.
  - intros target n killed. by apply consoleread_ok.
Qed.

Lemma console_line_editor_witness : ring_ok zero_input /\
  exists s' wake, consoleintr [104; 105; 127; 13] zero_input = (s', [104; 105; BACKSPACE; NEWLINE], wake, false) /\
    ring_ok s' /\ ready (editor_of s') = [104; NEWLINE].
Proof.
  split; [apply zero_input_ok|].
  destruct (proj1 (console_line_editor zero_input zero_input_ok) [104; 105; 127; 13]) as (s' & wake & E & Hok & He); [repeat constructor; lia|].
  exists s', wake. split; [exact E|]. split; [exact Hok|]. rewrite He. reflexivity.
Defined.

(** A line typed on an idle console is what the reader gets: the text and a
    newline, whatever the state of the ring's indices, and the ring is empty
    again. *)
Theorem typed_line_is_read s text n killed :
  ring_ok s -> editor_of s = {| ready := []; line := [] |} ->
  Forall printable text -> Z.of_nat (length text) < INPUT_BUF -> (length text < n)%nat ->
  exists s' s'' wake dump,
    consoleintr (text ++ [13]) s = (s', text ++ [NEWLINE], wake, dump) /\
    consoleread n n killed s' = (s'', text ++ [NEWLINE], Returns (Z.of_nat (length text) + 1)) /\
    ring_ok s'' /\ editor_of s'' = {| ready := []; line := [] |}.
Proof.
  intros Hok He HF Hl Hn.
  destruct (consoleintr_ok (text ++ [13]) s Hok) as (s' & wake & E & Hok' & He' & _).
  { apply Forall_app. split; [|repeat constructor; lia]. eapply Forall_impl; [exact HF|]. unfold printable. lia. }
  unfold edits in He'. rewrite He, foldl_app in He'. cbn [foldl] in He'.
  fold (edits text {| ready := []; line := [] |}) in He'. rewrite edits_printable, edit_enter in He' by (cbn; done || lia).
  destruct (consoleread_ok n n killed s' Hok') as (s'' & dst & e & Er & Hok'' & Ht & Hline).
  rewrite He' in Ht, Hline. cbn [ready line app] in Ht, Hline. rewrite take_line_text in Ht by (done || lia). 
  assert (ready (editor_of s'') = []) as Hready by congruence.
  assert (dst = text ++ [NEWLINE]) as -> by congruence.
  assert (e = Returns (Z.of_nat (length text) + 1)) as -> by (replace (Z.of_nat (length text) + 1) with (Z.of_nat n - Z.of_nat n + Z.of_nat (length text) + 1) by lia; congruence).
  exists s', s'', wake, (existsb (Z.eqb CTRL_P) (text ++ [13])). rewrite E, Er. split_and!; [|done|done|].
  - by rewrite He, echoes_printable.
  - destruct (editor_of s'') as [r l]. cbn [ready line] in Hready, Hline. by rewrite Hready, Hline.
Qed.

Lemma typed_line_is_read_witness :
  (ring_ok zero_input /\ Forall printable [108; 115]) /\
  exists s' s'' wake dump,
    consoleintr [108; 115; 13] zero_input = (s', [108; 115; NEWLINE], wake, dump) /\
    consoleread 100 100 false s' = (s'', [108; 115; NEWLINE], Returns 3) /\
    ring_ok s'' /\ editor_of s'' = {| ready := []; line := [] |}.
Proof.
  assert (HF : Forall printable [108; 115]) by (repeat constructor; unfold printable; lia).
  split; [by split; [apply zero_input_ok|]|].
  exact (typed_line_is_read zero_input [108; 115] 100 false zero_input_ok eq_refl HF eq_refl ltac:(cbn; lia)).
Defined.
