(* ===== verification/Umalloc.v ===== *)
(** * The user allocator (umalloc.c)

    Kernighan and Ritchie's allocator: blocks of [Header]s of eight bytes,
    the free ones on a circular list in address order that starts at the
    static [base].  The fields of a header are kept by its address; headers
    never overlap partly, since every block starts a whole number of headers
    after another or after the end of the process as it was.  What the
    program itself stores in the blocks it holds is a change of the fields at
    addresses inside them.  sbrk is that of sysproc.c and proc.c; whether the
    kernel has the pages to grow is the parameter [memory]. *)

From S2P Require Import Prelude Kalloc.
#[local] Open Scope Z_scope.

Definition sizeof_Header : Z := 8.

Record heap := { ptr : Z -> Z; size : Z -> Z; freep : Z; brk : Z }.
Definition set_ptr (a x : Z) (h : heap) : heap := {| ptr := <[a := x]> (ptr h); size := size h; freep := freep h; brk := brk h |}.
Definition set_size (a x : Z) (h : heap) : heap := {| ptr := ptr h; size := <[a := x]> (size h); freep := freep h; brk := brk h |}.
Definition set_freep (x : Z) (h : heap) : heap := {| ptr := ptr h; size := size h; freep := x; brk := brk h |}.
Definition set_brk (x : Z) (h : heap) : heap := {| ptr := ptr h; size := size h; freep := freep h; brk := x |}.

(** [p + n] for a [Header *p]. *)
Definition hplus (p n : Z) : Z := u32 (p + n * sizeof_Header).

Section umalloc.
(** The address of [base]. *)
Variable base : Z.


(** allocuvm and deallocuvm as they set the size; [memory] is whether the
    kernel can grow the process from one size to another. *)
Definition alloc_size (memory : Z -> Z -> bool) (oldsz newsz : Z) : Z :=
  if KERNBASE <=? newsz then 0 else if newsz <? oldsz then oldsz else if memory oldsz newsz then newsz else 0.
Definition dealloc_size (oldsz newsz : Z) : Z := if oldsz <=? newsz then oldsz else newsz.

(** sbrk of an [int]: the address, -1 on failure. *)
Definition sbrk (memory : Z -> Z -> bool) (n : Z) (h : heap) : Z * heap :=
  let sz := brk h in
  if 0 <? n then
    let sz' := alloc_size memory sz (u32 (sz + n)) in
    if sz' =? 0 then (-1, h) else (sz, set_brk sz' h)
  else if n <? 0 then
    let sz' := dealloc_size sz (u32 (sz + n)) in
    if sz' =? 0 then (-1, h) else (sz, set_brk sz' h)
  else (sz, h).

(** The loop of free: the free block after which [bp] goes. *)
Definition fits_after (h : heap) (bp p : Z) : bool :=
  ((p <? bp) && (bp <? ptr h p)) || ((ptr h p <=? p) && ((p <? bp) || (bp <? ptr h p))).

Fixpoint find (fuel : nat) (h : heap) (bp p : Z) : option Z :=
  match fuel with
  | O => None
  | S fuel => if fits_after h bp p then Some p else find fuel h bp (ptr h p)
  end.

(** The joining with the block after [bp], then with the block before it. *)
Definition join_next (bp p : Z) (h : heap) : heap :=
  if hplus bp (size h bp) =? ptr h p then
    let h := set_size bp (u32 (size h bp + size h (ptr h p))) h in
    set_ptr bp (ptr h (ptr h p)) h
  else set_ptr bp (ptr h p) h.

Definition join_prev (bp p : Z) (h : heap) : heap :=
  if hplus p (size h p) =? bp then
    let h := set_size p (u32 (size h p + size h bp)) h in
    set_ptr p (ptr h bp) h
  else set_ptr p bp h.

Definition free_at (h : heap) (bp p : Z) : heap := set_freep p (join_prev bp p (join_next bp p h)).

(** More rounds than two turns of the list can take. *)
Definition fuel_of (h : heap) : nat := Z.to_nat (brk h) + 4.

Definition free (ap : Z) (h : heap) : option heap :=
  let bp := hplus ap (-1) in
  p ← find (fuel_of h) h bp (freep h); Some (free_at h bp p).

Definition morecore (memory : Z -> Z -> bool) (nu : Z) (h : heap) : option (Z * heap) :=
  let nu := if nu <? 4096 then 4096 else nu in
  let '(p, h) := sbrk memory (s32 (u32 (nu * sizeof_Header))) h in
  if p =? -1 then Some (0, h)
  else h ← free (hplus p 1) (set_size p nu h); Some (freep h, h).

(** The block [p] is taken, whole or its end. *)
Definition take (nunits prevp p : Z) (h : heap) : Z * heap :=
  let '(p, h) :=
    if size h p =? nunits then (p, set_ptr prevp (ptr h p) h)
    else
      let h := set_size p (u32 (size h p - nunits)) h in
      let p := hplus p (size h p) in
      (p, set_size p nunits h) in
  (hplus p 1, set_freep prevp h).

Fixpoint malloc_loop (memory : Z -> Z -> bool) (fuel : nat) (nunits prevp p : Z) (h : heap) : option (Z * heap) :=
  match fuel with
  | O => None
  | S fuel =>
      if nunits <=? size h p then Some (take nunits prevp p h)
      else if p =? freep h then
        r ← morecore memory nunits h;
        let '(p, h) := r in
        if p =? 0 then Some (0, h) else malloc_loop memory fuel nunits p (ptr h p) h
      else malloc_loop memory fuel nunits p (ptr h p) h
  end.

Definition units (nbytes : Z) : Z := u32 (u32 (nbytes + sizeof_Header - 1) / sizeof_Header + 1).

Definition malloc (memory : Z -> Z -> bool) (nbytes : Z) (h : heap) : option (Z * heap) :=
  let nunits := units nbytes in
  let h := if freep h =? 0 then set_size base 0 (set_freep base (set_ptr base base h)) else h in
  malloc_loop memory (fuel_of h) nunits (freep h) (ptr h (freep h)) h.

(** ** The free list *)

#[local] Notation block := (Z * Z)%type.
Definition end_of (b : block) : Z := fst b + snd b * sizeof_Header.

(** The headers at [l], each pointing to the next, the last one to [e]. *)
Fixpoint linked (h : heap) (l : list Z) (e : Z) : Prop :=
  match l with [] => True | a :: l => ptr h a = hd e l /\ linked h l e end.

(** Blocks in address order, no two of them touching. *)
Fixpoint apart (lo : Z) (l : list block) : Prop :=
  match l with [] => True | b :: l => lo < fst b /\ apart (end_of b) l end.

Definition sized (h : heap) (b : block) : Prop := size h (fst b) = snd b.

(** All the blocks of the list: [base], which has no units, and [fl]. *)
Definition all (fl : list block) : list block := (base, 0) :: fl.
Definition addrs (l : list block) : list Z := map fst l.

Record free_list (h : heap) (fl : list block) : Prop := {
  fl_linked : linked h (addrs (all fl)) base;
  fl_apart : apart base fl;
  fl_sized : Forall (sized h) (all fl);
  fl_units : Forall (fun b => 1 <= snd b) fl;
  fl_in : Forall (fun b => base + sizeof_Header <= fst b /\ end_of b <= brk h) fl;
  fl_freep : freep h ∈ addrs (all fl);
  fl_base : 0 < base;
  fl_brk : base + sizeof_Header <= brk h < KERNBASE }.

Lemma linked_app h l1 l2 e : linked h (l1 ++ l2) e <-> linked h l1 (hd e l2) /\ linked h l2 e.
Proof.
  induction l1 as [|a l1 IH]; cbn; [tauto|]. rewrite IH. destruct l1; cbn; tauto.
Qed.

Lemma linked_ext h h' l e : Forall (fun a => ptr h' a = ptr h a) l -> linked h l e -> linked h' l e.
Proof. induction 1 as [|a l Ha _ IH]; cbn; [done|]. intros [<- ?]. by split; [|apply IH]. Qed.

Lemma hd_app {A} (d : A) l1 l2 : hd d (l1 ++ l2) = hd (hd d l2) l1.
Proof. by destruct l1. Qed.

(** The last element of [l], or [d]. *)
Fixpoint final {A} (d : A) (l : list A) : A := match l with [] => d | x :: l => final x l end.

Lemma final_app {A} (d : A) l1 l2 : final d (l1 ++ l2) = final (final d l1) l2.
Proof. revert d. induction l1 as [|x l1 IH]; intros d; cbn; [done|apply IH]. Qed.

Lemma final_map {A B} (f : A -> B) d l : final (f d) (map f l) = f (final d l).
Proof. revert d. induction l as [|x l IH]; intros d; cbn; [done|apply IH]. Qed.

Lemma final_snoc {A} (d : A) l : l <> [] -> exists l', l = l' ++ [final d l].
Proof.
  intros Hne. destruct l as [|x l _] using rev_ind; [done|]. exists l. by rewrite final_app.
Qed.

(** What lies before and after a block of the list. *)
Lemma apart_app lo l1 l2 : apart lo (l1 ++ l2) <-> apart lo l1 /\ apart (final lo (map end_of l1)) l2.
Proof. revert lo. induction l1 as [|b l1 IH]; intros lo; cbn [app apart map final]; [tauto|]. rewrite IH. tauto. Qed.

Lemma apart_above lo l : Forall (fun b => 0 <= snd b) l -> apart lo l -> Forall (fun b => lo < fst b) l.
Proof.
  intros HF. revert lo. induction HF as [|b l Hb _ IH]; intros lo; cbn [apart]; [done|]. intros [H1 H2].
  constructor; [done|]. eapply Forall_impl; [exact (IH _ H2)|]. cbn. unfold end_of, sizeof_Header. lia.
Qed.

Lemma apart_below lo l : Forall (fun b => 0 <= snd b) l -> apart lo l ->
  lo + sizeof_Header * foldr (fun b n => snd b + n) 0 l <= final lo (map end_of l) /\
  Forall (fun b => end_of b <= final lo (map end_of l)) l.
Proof.
  intros HF. revert lo. induction HF as [|b l Hb HF IH]; intros lo; cbn [apart map final foldr]; [unfold sizeof_Header; split; [lia|done]|].
  intros [H1 H2]. destruct (IH _ H2) as [H3 H4]. unfold end_of, sizeof_Header in *.
  assert (0 <= foldr (fun b n => snd b + n) 0 l) by (clear -HF; induction HF; cbn; lia).
  split; [lia|]. constructor; [lia|done].
Qed.

Lemma apart_all h fl : free_list h fl -> apart (base - 1) (all fl).
Proof. intros [? H ? ? ? ? ?]. cbn. unfold end_of. cbn. rewrite Z.add_0_r. split; [lia|done]. Qed.

Lemma units_all fl : Forall (fun b => 1 <= snd b) fl -> Forall (fun b => 0 <= snd b) (all fl).
Proof. intros H. constructor; [done|]. eapply Forall_impl; [exact H|]. cbn. lia. Qed.

Lemma split_order h fl A b B : free_list h fl -> all fl = A ++ b :: B ->
  Forall (fun a => end_of a < fst b) A /\ Forall (fun c => end_of b < fst c) B.
Proof.
  intros H E. pose proof (apart_all _ _ H) as Hap. pose proof (units_all _ (fl_units _ _ H)) as Hu.
  rewrite E in Hap, Hu. apply apart_app in Hap as [Ha Hb]. cbn [apart] in Hb. destruct Hb as [Hb Hc].
  apply Forall_app in Hu as [Hua [Hub Huc]%Forall_cons].
  split; [|by apply apart_above].
  eapply Forall_impl; [exact (proj2 (apart_below _ _ Hua Ha))|]. cbn. lia.
Qed.

(** Where a block that overlaps none of the list goes. *)
Definition disj (b c : block) : Prop := end_of b <= fst c \/ end_of c <= fst b.

Lemma place b0 l bp n : 0 <= n -> Forall (fun b => 0 <= snd b) l -> apart (end_of b0) l -> end_of b0 <= bp -> Forall (disj (bp, n)) l ->
  exists A b B, b0 :: l = A ++ b :: B /\ end_of b <= bp /\ Forall (fun c => end_of (bp, n) <= fst c) B.
Proof.
  intros Hn HF. revert b0. induction HF as [|c l Hc HF IH]; intros b0 Hap Hb Hd.
  { by exists [], b0, []. }
  cbn [apart] in Hap. destruct Hap as [H1 H2]. apply Forall_cons in Hd as [[Hd|Hd] Hdl].
  - exists [], b0, (c :: l). split_and!; [done|done|]. constructor; [done|].
    eapply Forall_impl; [exact (apart_above _ _ HF H2)|]. intros d. unfold end_of, sizeof_Header in *. cbn in *. lia.
  - destruct (IH c H2 Hd Hdl) as (A & b & B & E & ? & ?). exists (b0 :: A), b, B. split; [exact (f_equal (cons b0) E)|done].
Qed.

Lemma find_skip h bp l e f : linked h l e -> Forall (fun a => fits_after h bp a = false) l ->
  find (length l + f) h bp (hd e l) = find f h bp e.
Proof.
  intros Hl HF. revert Hl. induction HF as [|a l Ha _ IH]; cbn [linked]; [done|].
  intros [E Hl]. cbn [length hd Nat.add find]. rewrite Ha, E. by apply IH.
Qed.

Lemma find_more f f' h bp p q : find f h bp p = Some q -> (f <= f')%nat -> find f' h bp p = Some q.
Proof.
  revert f' p. induction f as [|f IH]; intros [|f'] p; cbn [find]; [done|done|lia|]. intros H Hf.
  destruct (fits_after h bp p); [done|]. apply (IH f'); [done|lia].
Qed.

Section place.
Context (h : heap) (fl A B : list block) (b : block) (bp : Z).
Hypothesis Hfl : free_list h fl.
Hypothesis Hsplit : all fl = A ++ b :: B.
Hypothesis Hbefore : end_of b <= bp.
Hypothesis Hpos : 0 < snd b \/ fst b < bp.
Hypothesis Hafter : Forall (fun c => bp < fst c) B.

Lemma place_links : linked h (addrs A) (fst b) /\ ptr h (fst b) = hd base (addrs B) /\ linked h (addrs B) base.
Proof using Hfl Hsplit.
  clear - Hfl Hsplit.
  pose proof (fl_linked _ _ Hfl) as H. rewrite Hsplit in H. unfold addrs in H. rewrite map_app in H.
  apply linked_app in H as [H1 H2]. cbn [map linked hd] in H1, H2. tauto.
Qed.

Lemma place_units : Forall (fun b => 0 <= snd b) A /\ 0 <= snd b /\ Forall (fun b => 0 <= snd b) B.
Proof.
  pose proof (units_all _ (fl_units _ _ Hfl)) as H. rewrite Hsplit in H. apply Forall_app in H as [? [? ?]%Forall_cons]. tauto.
Qed.

Lemma base_least c : c ∈ all fl -> base <= fst c.
Proof.
  unfold all. intros [->|Hc]%elem_of_cons; [done|].
  pose proof (fl_in _ _ Hfl) as H. rewrite Forall_forall in H. destruct (H _ Hc). unfold sizeof_Header in *. lia.
Qed.

Lemma fits_at : fits_after h bp (fst b) = true.
Proof.
  unfold fits_after. destruct place_links as (_ & -> & _). destruct place_units as (_ & Hb & _).
  assert (Hp : fst b < bp) by (unfold end_of, sizeof_Header in *; destruct Hpos; lia).
  assert (Hle : base <= fst b) by (apply base_least; rewrite Hsplit; set_solver).
  revert Hafter. destruct B as [|c B']; intros Hafter'; cbn [addrs map hd].
  - rewrite (proj2 (Z.leb_le _ _)), (proj2 (Z.ltb_lt _ _)) by lia. cbn. by rewrite orb_true_r.
  - apply Forall_cons in Hafter' as [Hc _]. by rewrite !(proj2 (Z.ltb_lt _ _)) by lia.
Qed.

Lemma fits_before : Forall (fun a => fits_after h bp a = false) (addrs A).
Proof.
  apply Forall_forall. intros a (c & -> & (A1 & A2 & EA)%list_elem_of_split)%list_elem_of_fmap.
  destruct place_links as (Hl & _ & _). unfold addrs in Hl. rewrite EA, map_app in Hl. apply linked_app in Hl as [_ Hl].
  cbn [map linked] in Hl. destruct Hl as [Hl _].
  assert (E : all fl = A1 ++ c :: (A2 ++ b :: B)) by (rewrite Hsplit, EA, <- app_assoc; done).
  destruct (split_order _ _ _ _ _ Hfl E) as [_ Hc].
  destruct (split_order _ _ _ _ _ Hfl Hsplit) as [Ha _].
  destruct place_units as (HuA & Hub & _). rewrite EA in HuA, Ha. apply Forall_app in HuA as [_ [Huc HuA]%Forall_cons].
  apply Forall_app in Ha as [_ [Hcb Ha]%Forall_cons].
  assert (Hn : fst c < ptr h (fst c) <= bp).
  { rewrite Hl. destruct A2 as [|d A2]; cbn [map hd].
    - unfold end_of, sizeof_Header in *. lia.
    - apply Forall_cons in Hc as [Hcd _]. apply Forall_cons in Ha as [Hdb _]. apply Forall_cons in HuA as [Hud _].
      unfold end_of, sizeof_Header in *. lia. }
  unfold fits_after. rewrite (proj2 (Z.ltb_ge bp (ptr h (fst c)))), (proj2 (Z.leb_gt (ptr h (fst c)) (fst c))) by lia.
  by rewrite andb_false_r.
Qed.

Lemma fits_behind : Forall (fun a => fits_after h bp a = false) (addrs B).
Proof.
  apply Forall_forall. intros a (c & -> & Hc)%list_elem_of_fmap.
  assert (Hbc : bp < fst c) by (rewrite Forall_forall in Hafter; by apply Hafter).
  assert (Hbase : base < bp).
  { assert (base <= fst b) by (apply base_least; rewrite Hsplit; set_solver). destruct place_units as (_ & ? & _).
    unfold end_of, sizeof_Header in *. destruct Hpos; lia. }
  apply list_elem_of_split in Hc as (B1 & B2 & EB).
  destruct place_links as (_ & _ & Hl). unfold addrs in Hl. rewrite EB, map_app in Hl. apply linked_app in Hl as [_ Hl].
  cbn [map linked] in Hl. destruct Hl as [Hl _].
  assert (E : all fl = (A ++ b :: B1) ++ c :: B2) by (rewrite Hsplit, EB, <- app_assoc; done).
  destruct (split_order _ _ _ _ _ Hfl E) as [_ Hc].
  destruct place_units as (_ & _ & HuB). rewrite EB in HuB. apply Forall_app in HuB as [_ [Huc HuB]%Forall_cons].
  unfold fits_after. rewrite (proj2 (Z.ltb_ge (fst c) bp)) by lia. cbn.
  destruct B2 as [|d B2]; cbn [map hd] in Hl; rewrite Hl.
  - by rewrite (proj2 (Z.ltb_ge bp base)), andb_false_r by lia.
  - apply Forall_cons in Hc as [Hcd _]. unfold end_of, sizeof_Header in *. by rewrite (proj2 (Z.leb_gt (fst d) (fst c))) by lia.
Qed.

(** The search stops there, from wherever it starts. *)
Lemma find_ok f : (2 * length (all fl) <= f)%nat -> find f h bp (freep h) = Some (fst b).
Proof.
  intros Hf. apply (find_more (length (addrs B) + (length (addrs A) + 1) + length (addrs A))); [|rewrite Hsplit in Hf; unfold addrs; rewrite length_app in Hf; cbn in Hf; rewrite !length_map; lia].
  pose proof (fl_freep _ _ Hfl) as Hin. rewrite Hsplit in Hin. unfold addrs in Hin at 1. rewrite map_app in Hin.
  destruct place_links as (HlA & Hb & HlB).
  assert (Hstop : forall k, find (k + 1) h bp (fst b) = Some (fst b)).
  { intros k. rewrite Nat.add_comm. cbn [Nat.add find]. by rewrite fits_at. }
  assert (Hfirst : hd (fst b) (addrs A) = base).
  { assert (E : hd base (addrs (all fl)) = base) by done. rewrite Hsplit in E. unfold addrs in *. rewrite map_app, hd_app in E. done. }
  assert (HA : forall A1 A2 k, addrs A = A1 ++ A2 -> find (length A2 + 1 + k) h bp (hd (fst b) A2) = Some (fst b)).
  { intros A1 A2 k EA. rewrite <- Nat.add_assoc, find_skip.
    - rewrite Nat.add_comm. apply Hstop.
    - rewrite EA in HlA. apply linked_app in HlA as [_ ?]. done.
    - pose proof fits_before as H. rewrite EA in H. by apply Forall_app in H as [_ ?]. }
  apply elem_of_app in Hin as [Hin|Hin].
  - apply list_elem_of_split in Hin as (A1 & A2 & EA).
    change (addrs A = A1 ++ freep h :: A2) in EA.
    apply (find_more (length (freep h :: A2) + 1 + 0)); [apply (HA A1 (freep h :: A2) 0%nat EA)|]. rewrite EA, !length_app. cbn. lia.
  - cbn [map] in Hin. apply elem_of_cons in Hin as [->|Hin].
    { rewrite Nat.add_assoc. rewrite <- Nat.add_assoc, (Nat.add_comm 1), Nat.add_assoc. apply Hstop. }
    apply list_elem_of_split in Hin as (B1 & B2 & EB). change (addrs B = B1 ++ freep h :: B2) in EB.
    apply (find_more (length (freep h :: B2) + (length (addrs A) + 1 + 0))); [|rewrite EB, !length_app; cbn; lia].
    change (freep h) with (hd base (freep h :: B2)) at 2. rewrite find_skip.
    + rewrite <- Hfirst. apply (HA []). done.
    + rewrite EB in HlB. by apply linked_app in HlB as [_ ?].
    + pose proof fits_behind as H. rewrite EB in H. by apply Forall_app in H as [_ ?].
Qed.
End place.

(** ** Joining blocks *)

(** The bytes of the blocks of a list. *)
Definition covers (l : list block) (x : Z) : Prop := exists b, b ∈ l /\ fst b <= x < end_of b.

Lemma covers_nil x : covers [] x <-> False.
Proof. split; [|done]. intros (b & H & _). by apply elem_of_nil in H. Qed.

Lemma covers_cons b l x : covers (b :: l) x <-> fst b <= x < end_of b \/ covers l x.
Proof.
  unfold covers. split.
  - intros (c & [->|Hc]%elem_of_cons & H); [by left|]. right. by exists c.
  - intros [H|(c & Hc & H)]; [exists b|exists c]; (split; [|done]); apply elem_of_cons; tauto.
Qed.

Lemma covers_app l1 l2 x : covers (l1 ++ l2) x <-> covers l1 x \/ covers l2 x.
Proof. induction l1 as [|b l1 IH]; cbn [app]; rewrite ?covers_nil, ?covers_cons, ?IH; tauto. Qed.

Lemma hplus_small a n : 0 <= a -> 0 <= n -> a + n * sizeof_Header < KERNBASE -> hplus a n = a + n * sizeof_Header.
Proof. intros. unfold hplus. apply u32_small. unfold is_u32, sizeof_Header, KERNBASE in *. lia. Qed.

(** What a joining leaves alone. *)
Definition only_at (a : Z) (h h' : heap) : Prop :=
  (forall x, x <> a -> ptr h' x = ptr h x /\ size h' x = size h x) /\ freep h' = freep h /\ brk h' = brk h.

Lemma sized_only a h h' l : only_at a h h' -> a ∉ addrs l -> Forall (sized h) l -> Forall (sized h') l.
Proof.
  intros [H _] Hn HF. rewrite Forall_forall in *. intros b Hb. unfold sized.
  assert (Hne : fst b <> a) by (intros E; apply Hn; rewrite <- E; apply list_elem_of_fmap; by exists b).
  rewrite (proj2 (H _ Hne)). by apply HF.
Qed.

Lemma linked_only a h h' l e : only_at a h h' -> a ∉ l -> linked h l e -> linked h' l e.
Proof.
  intros [H _] Hn. apply linked_ext. apply Forall_forall. intros x Hx. apply (H x). by intros ->.
Qed.

Lemma join_next_only bp p h : only_at bp h (join_next bp p h).
Proof.
  unfold only_at, join_next. destruct (_ =? _); cbn; split_and!; try done; intros x Hx; rewrite ?fn_lookup_insert_ne by done; done.
Qed.

Lemma join_prev_only bp p h : only_at p h (join_prev bp p h).
Proof.
  unfold only_at, join_prev. destruct (_ =? _); cbn; split_and!; try done; intros x Hx; rewrite ?fn_lookup_insert_ne by done; done.
Qed.

(** A list of free blocks linked from the block [a] on to [base]. *)
Record chain (h : heap) (a n : Z) (B : list block) : Prop := {
  ch_size : size h a = n;
  ch_ptr : ptr h a = hd base (addrs B);
  ch_linked : linked h (addrs B) base;
  ch_sized : Forall (sized h) B;
  ch_apart : apart (a + n * sizeof_Header) B;
  ch_units : Forall (fun b => 1 <= snd b) B;
  ch_in : Forall (fun b => end_of b <= brk h) ((a, n) :: B) }.

Lemma above_notin a l : Forall (fun c => a < fst c) l -> a ∉ addrs l.
Proof. intros H (c & -> & Hc)%list_elem_of_fmap. rewrite Forall_forall in H. specialize (H _ Hc). lia. Qed.

Lemma join_next_ok h p bp n B :
  ptr h p = hd base (addrs B) -> size h bp = n -> 1 <= n -> base + sizeof_Header <= bp -> p <> bp -> 0 < base -> brk h < KERNBASE ->
  bp + n * sizeof_Header <= brk h ->
  linked h (addrs B) base -> Forall (sized h) B -> Forall (fun c => bp + n * sizeof_Header <= fst c) B ->
  (match B with [] => True | c :: B' => apart (end_of c) B' end) -> Forall (fun b => 1 <= snd b) B -> Forall (fun b => end_of b <= brk h) B ->
  exists n' B', chain (join_next bp p h) bp n' B' /\ n <= n' /\ (length B' <= length B)%nat /\
    (forall x, covers ((bp, n') :: B') x <-> bp <= x < bp + n * sizeof_Header \/ covers B x).
Proof.
  intros Hp Hs Hn Hbp Hne Hbase Hbrk Hend HL HS HA Hap HU HI.
  pose proof (join_next_only bp p h) as Ho.
  assert (Hfrom : forall B', Forall (fun c => bp + n * sizeof_Header <= fst c) B' -> bp ∉ addrs B').
  { intros B' HB. apply above_notin. eapply Forall_impl; [exact HB|]. unfold sizeof_Header. cbn. lia. }
  assert (E : hplus bp (size h bp) = bp + n * sizeof_Header) by (rewrite Hs; apply hplus_small; unfold sizeof_Header in *; lia).
  revert Ho. unfold join_next. rewrite E, Hp. destruct B as [|[q k] B]; cbn [addrs map hd fst].
  - rewrite (proj2 (Z.eqb_neq _ _)) by (unfold sizeof_Header in *; lia). intros Ho.
    exists n, []. split; [|split_and!; [lia|done|]].
    + split; try done; cbn; [by rewrite fn_lookup_insert|]. by constructor.
    + intros x. rewrite covers_cons. cbn. unfold end_of. cbn. tauto.
  - apply Forall_cons in HA as [Hq HA], HS as [Hk HS], HU as [Hk1 HU], HI as [Hqk HI]. cbn in Hq, Hap, Hk1. unfold sized in Hk. cbn in Hk.
    cbn [addrs map fst linked] in HL. destruct HL as [Hq' HL].
    assert (HA' : Forall (fun c => q < fst c) B).
    { eapply Forall_impl; [apply apart_above; [|exact Hap]|]; [eapply Forall_impl; [exact HU|cbn; lia]|]. unfold end_of, sizeof_Header. cbn. lia. }
    unfold end_of in *. cbn [fst snd] in *.
    destruct (_ =? _) eqn:D.
    + apply Z.eqb_eq in D. intros Ho. cbn [ptr set_size set_ptr size] in *. rewrite Hp in Ho |- *. cbn [addrs map hd fst] in *.
      exists (n + k), B. split; [|split_and!; [lia|cbn; lia|]].
      * split; try done.
        -- cbn. rewrite fn_lookup_insert, Hs, Hk. apply u32_small. unfold is_u32, sizeof_Header, KERNBASE in *. lia.
        -- cbn. rewrite fn_lookup_insert. by rewrite Hq'.
        -- eapply linked_only; [| |exact HL]; [exact Ho|by apply Hfrom].
        -- eapply sized_only; [| |exact HS]; [exact Ho|by apply Hfrom].
        -- replace (bp + (n + k) * sizeof_Header) with (q + k * sizeof_Header) by lia. done.
        -- constructor; [|done]. unfold end_of, sizeof_Header in *. cbn [fst snd brk set_ptr set_size] in *. lia.
      * intros x. rewrite !covers_cons. unfold end_of, sizeof_Header in *. cbn [fst snd].
        assert (bp <= x < bp + (n + k) * 8 <-> bp <= x < bp + n * 8 \/ q <= x < q + k * 8) by lia. tauto.
    + apply Z.eqb_neq in D. intros Ho. exists n, ((q, k) :: B). split; [|split_and!; [lia|done|]].
      * split; try done; cbn [addrs map hd fst].
        -- cbn. by rewrite fn_lookup_insert.
        -- eapply linked_only; [exact Ho| |by split]. rewrite not_elem_of_cons. split; [unfold sizeof_Header in *; lia|by apply Hfrom].
        -- eapply sized_only; [exact Ho| |by constructor]. cbn. rewrite not_elem_of_cons. split; [unfold sizeof_Header in *; lia|by apply Hfrom].
        -- cbn. unfold end_of. cbn. split; [lia|done].
        -- by constructor.
        -- by repeat constructor.
      * intros x. rewrite !covers_cons. unfold end_of. cbn [fst snd]. tauto.
Qed.

(** The list with [base] at its head is a free list. *)
Definition proper (hi : Z) (b : block) : Prop :=
  b = (base, 0) \/ (1 <= snd b /\ base + sizeof_Header <= fst b /\ end_of b <= hi).

Lemma proper_units hi l : Forall (proper hi) l -> Forall (fun b => 0 <= snd b) l.
Proof. intros H. eapply Forall_impl; [exact H|]. intros b [->|?]; cbn; lia. Qed.

Lemma free_list_all h l :
  hd_error l = Some (base, 0) -> linked h (addrs l) base -> apart (base - 1) l -> Forall (sized h) l -> Forall (proper (brk h)) l ->
  freep h ∈ addrs l -> 0 < base -> base + sizeof_Header <= brk h < KERNBASE ->
  exists fl, l = all fl /\ free_list h fl.
Proof.
  destruct l as [|b fl]; [done|]. intros [= ->] HL HA HS HP HF Hb Hk. exists fl. split; [done|].
  cbn [apart] in HA. unfold end_of in HA. cbn in HA. rewrite Z.add_0_r in HA. destruct HA as [_ HA].
  apply Forall_cons in HP as [_ HP]. pose proof (apart_above _ _ (proper_units _ _ HP) HA) as Hab.
  assert (HP' : Forall (fun b => 1 <= snd b /\ base + sizeof_Header <= fst b /\ end_of b <= brk h) fl).
  { rewrite Forall_forall in *. intros b Hin. destruct (HP b Hin) as [->|?]; [|done]. specialize (Hab _ Hin). cbn in Hab. lia. }
  split; try done; (eapply Forall_impl; [exact HP'|]; tauto).
Qed.

(** A free list put together from two parts, with [freep] set. *)
Lemma free_list_join h f A C p :
  hd_error (A ++ C) = Some (base, 0) -> linked h (addrs A) p -> hd base (addrs C) = p -> linked h (addrs C) base ->
  Forall (sized h) A -> Forall (sized h) C -> apart (base - 1) (A ++ C) -> Forall (proper (brk h)) A -> Forall (proper (brk h)) C ->
  f ∈ addrs (A ++ C) -> 0 < base -> base + sizeof_Header <= brk h < KERNBASE ->
  exists fl, A ++ C = all fl /\ free_list (set_freep f h) fl.
Proof.
  intros Hh HLA Hp HLC HSA HSC Hap HPA HPC Hf Hb Hk.
  apply (free_list_all (set_freep f h)); cbn; try done.
  - apply (linked_ext h); [by apply Forall_true|]. unfold addrs. rewrite map_app. apply linked_app. by subst p.
  - by apply Forall_app.
  - by apply Forall_app.
Qed.

Lemma free_list_proper h fl : free_list h fl -> Forall (proper (brk h)) (all fl).
Proof.
  intros H. constructor; [by left|]. pose proof (fl_units _ _ H). pose proof (fl_in _ _ H). rewrite !Forall_forall in *. right. split; auto.
Qed.

Lemma covers_all fl x : covers (all fl) x <-> covers fl x.
Proof. unfold all. rewrite covers_cons. unfold end_of. cbn. split; [intros [?|?]; [lia|done]|by right]. Qed.

(** After the joining with the next block: [b] is the free block before [bp],
    [A] and [B] are the blocks around them. *)
Record behind (h : heap) (A : list block) (b : block) (B : list block) (bp n : Z) : Prop := {
  be_head : forall C, hd_error (A ++ b :: C) = Some (base, 0);
  be_A : linked h (addrs A) (fst b);
  be_SA : Forall (sized h) A;
  be_Sb : sized h b;
  be_PA : Forall (proper (brk h)) A;
  be_Pb : proper (brk h) b;
  be_AA : apart (base - 1) A;
  be_Ab : final (base - 1) (map end_of A) < fst b;
  be_chain : chain h bp n B;
  be_PB : Forall (proper (brk h)) B;
  be_notin : fst b ∉ addrs A /\ fst b ∉ addrs B;
  be_order : fst b < bp /\ end_of b <= bp /\ base + sizeof_Header <= bp;
  be_fit : 1 <= n /\ bp + n * sizeof_Header <= brk h;
  be_base : 0 < base;
  be_brk : base + sizeof_Header <= brk h < KERNBASE }.

Lemma behind_intro h fl A b B bp n :
  free_list h fl -> all fl = A ++ b :: B -> size h bp = n -> 1 <= n -> base + sizeof_Header <= bp ->
  bp + n * sizeof_Header <= brk h -> end_of b <= bp -> Forall (fun c => bp + n * sizeof_Header <= fst c) B ->
  exists n' B', behind (join_next bp (fst b) h) A b B' bp n' /\ n <= n' /\ (length B' <= length B)%nat /\
    (forall x, covers ((bp, n') :: B') x <-> bp <= x < bp + n * sizeof_Header \/ covers B x).
Proof.
  intros Hfl E Hs Hn Hbp Hend Hb HB.
  pose proof (free_list_proper _ _ Hfl) as HP. rewrite E in HP. apply Forall_app in HP as [HPA [HPb HPB]%Forall_cons].
  pose proof (fl_sized _ _ Hfl) as HS. rewrite E in HS. apply Forall_app in HS as [HSA [HSb HSB]%Forall_cons].
  pose proof (apart_all _ _ Hfl) as HA. rewrite E in HA. apply apart_app in HA as [HAA HAb].
  destruct (split_order _ _ _ _ _ Hfl E) as [HoA HoB].
  destruct (place_links h fl A B b Hfl E) as (HLA & Hpb & HLB).
  pose proof (fl_base _ _ Hfl) as Hbase. pose proof (fl_brk _ _ Hfl) as Hbrk.
  pose proof (proper_units (brk h) [b] ltac:(by constructor)) as Hub%Forall_inv. cbn in Hub.
  assert (Hlt : fst b < bp) by (destruct HPb as [->|?]; unfold end_of, sizeof_Header in *; cbn in *; lia).
  assert (HPB' : Forall (fun c => 1 <= snd c /\ base + sizeof_Header <= fst c /\ end_of c <= brk h) B).
  { rewrite Forall_forall in *. intros c Hc. destruct (HPB c Hc) as [->|?]; [|done]. specialize (HB _ Hc). cbn in HB. unfold sizeof_Header in *. lia. }
  destruct (join_next_ok h (fst b) bp n B) as (n' & B' & Hch & Hn' & HlB & Hcov); try done; [lia|lia| |..].
  { destruct B; [done|]. cbn [apart] in HAb. tauto. }
  1,2: eapply Forall_impl; [exact HPB'|]; cbn; tauto.
  pose proof (join_next_only bp (fst b) h) as Ho1. set (h1 := join_next bp (fst b) h) in *. assert (Eb : brk h1 = brk h) by apply Ho1.
  assert (HnA : fst b ∉ addrs A /\ bp ∉ addrs A).
  { split; intros (a & Ea & Ha)%list_elem_of_fmap; rewrite Forall_forall in HoA; specialize (HoA _ Ha);
      assert (0 <= snd a) by (pose proof (proper_units _ _ HPA) as Hu; rewrite Forall_forall in Hu; by apply Hu);
      unfold end_of, sizeof_Header in *; lia. }
  assert (HPB2 : Forall (proper (brk h)) B').
  { pose proof (ch_units _ _ _ _ Hch) as HU. pose proof (Forall_inv_tail (ch_in _ _ _ _ Hch)) as HI.
    pose proof (apart_above _ _ ltac:(eapply Forall_impl; [exact HU|cbn; lia]) (ch_apart _ _ _ _ Hch)) as Hab.
    rewrite Eb in HI. rewrite Forall_forall in *. intros c Hc. right. specialize (Hab c Hc). split_and!; auto. unfold sizeof_Header in *. lia. }
  pose proof (Forall_inv (ch_in _ _ _ _ Hch)) as Hin'. unfold end_of in Hin'. cbn [fst snd] in Hin'.
  exists n', B'. split; [|done]. split; rewrite ?Eb in *; try done.
  - intros C. destruct A as [|a A']; [by injection E as <- _|]. by injection E as <- _.
  - eapply linked_only; [exact Ho1|tauto|exact HLA].
  - eapply sized_only; [exact Ho1|tauto|exact HSA].
  - unfold sized. rewrite (proj2 (proj1 Ho1 (fst b) ltac:(lia))). exact HSb.
  - by destruct HAb.
  - split; [tauto|]. apply above_notin. eapply Forall_impl; [exact (apart_above _ _ (proper_units _ _ HPB2) (ch_apart _ _ _ _ Hch))|]. cbn. unfold sizeof_Header. lia.
  - lia.
Qed.

(** The previous block ends where [bp] starts, and takes it in; or not. *)
Lemma join_touching h A b B bp n : behind h A b B bp n -> end_of b = bp ->
  exists fl', A ++ (fst b, snd b + n) :: B = all fl' /\ free_list (set_freep (fst b) (join_prev bp (fst b) h)) fl'.
Proof.
  intros [Hh HLA HSA HSb HPA HPb HAA HAb [C1 C2 C3 C4 C5 C6 C7] HPB [HnA HnB] (Hlt & He & Hbp) [Hn Hfit] Hbase Hbrk] D.
  assert (Hne : b <> (base, 0)) by (intros ->; unfold end_of, sizeof_Header in *; cbn in *; lia).
  destruct HPb as [|HPb]; [done|]. pose proof (join_prev_only bp (fst b) h) as Ho.
  assert (Eh : join_prev bp (fst b) h = set_ptr (fst b) (ptr h bp) (set_size (fst b) (u32 (size h (fst b) + size h bp)) h)).
  { unfold join_prev. assert (hplus (fst b) (size h (fst b)) = bp) as ->; [|by rewrite Z.eqb_refl].
    rewrite HSb. etransitivity; [|exact D]. apply hplus_small; unfold end_of, sizeof_Header in *; lia. }
  assert (Eb : brk (join_prev bp (fst b) h) = brk h) by apply Ho.
  apply (free_list_join _ (fst b) A _ (fst b)); rewrite ?Eb; try done.
  - pose proof (Hh []) as H0. destruct A as [|a A']; [by injection H0|exact H0].
  - eapply linked_only; [exact Ho|done|exact HLA].
  - split; [rewrite Eh; cbn; by rewrite fn_lookup_insert, C2|]. eapply linked_only; [exact Ho|done|exact C3].
  - eapply sized_only; [exact Ho|done|exact HSA].
  - constructor; [|eapply sized_only; [exact Ho|done|exact C4]]. unfold sized. rewrite Eh. cbn. rewrite fn_lookup_insert, HSb, C1.
    apply u32_small. unfold is_u32, end_of, sizeof_Header, KERNBASE in *. lia.
  - apply apart_app. split; [done|]. cbn [apart fst]. split; [done|]. unfold end_of in *. cbn [fst snd].
    replace (fst b + (snd b + n) * sizeof_Header) with (bp + n * sizeof_Header) by (unfold sizeof_Header in *; lia). done.
  - constructor; [|done]. right. unfold end_of in *. cbn [fst snd]. unfold sizeof_Header in *. lia.
  - unfold addrs. rewrite map_app. cbn. set_solver.
Qed.

Lemma join_separate h A b B bp n : behind h A b B bp n -> end_of b <> bp ->
  exists fl', A ++ b :: (bp, n) :: B = all fl' /\ free_list (set_freep (fst b) (join_prev bp (fst b) h)) fl'.
Proof.
  intros [Hh HLA HSA HSb HPA HPb HAA HAb [C1 C2 C3 C4 C5 C6 C7] HPB [HnA HnB] (Hlt & He & Hbp) [Hn Hfit] Hbase Hbrk] D.
  pose proof (join_prev_only bp (fst b) h) as Ho.
  assert (Eh : join_prev bp (fst b) h = set_ptr (fst b) bp h).
  { unfold join_prev. rewrite HSb, hplus_small by (destruct HPb as [->|?]; unfold end_of, sizeof_Header in *; cbn in *; lia).
    change (fst b + snd b * sizeof_Header) with (end_of b). by rewrite (proj2 (Z.eqb_neq _ bp) D). }
  assert (Eb : brk (join_prev bp (fst b) h) = brk h) by apply Ho.
  apply (free_list_join _ (fst b) A _ (fst b)); rewrite ?Eb; try done.
  - eapply linked_only; [exact Ho|done|exact HLA].
  - rewrite Eh. cbn. rewrite fn_lookup_insert, fn_lookup_insert_ne by lia. split_and!; [done|done|].
    rewrite Eh in Ho. eapply linked_only; [exact Ho|done|exact C3].
  - eapply sized_only; [exact Ho|done|exact HSA].
  - constructor; [|constructor; [|eapply sized_only; [exact Ho|done|exact C4]]]; unfold sized; rewrite Eh; cbn; [exact HSb|exact C1].
  - apply apart_app. split; [done|]. cbn [apart fst]. split_and!; [done|lia|exact C5].
  - constructor; [done|constructor; [|done]]. right. unfold end_of. cbn [fst snd]. lia.
  - unfold addrs. rewrite map_app. cbn. set_solver.
Qed.

Lemma free_at_ok h fl A b B bp n :
  free_list h fl -> all fl = A ++ b :: B -> size h bp = n -> 1 <= n -> base + sizeof_Header <= bp ->
  bp + n * sizeof_Header <= brk h -> end_of b <= bp -> Forall (fun c => bp + n * sizeof_Header <= fst c) B ->
  exists fl', free_list (free_at h bp (fst b)) fl' /\ (exists c, c ∈ fl' /\ n <= snd c) /\
    (forall x, covers fl' x <-> covers fl x \/ bp <= x < bp + n * sizeof_Header) /\ (length fl' <= S (length fl))%nat.
Proof.
  intros Hfl E Hs Hn Hbp Hend Hb HB.
  destruct (behind_intro h fl A b B bp n) as (n' & B' & Hbe & Hn' & HlB & Hcov); try done.
  assert (Hcovb : forall x, covers fl x <-> covers A x \/ fst b <= x < end_of b \/ covers B x).
  { intros x. rewrite <- covers_all, E, covers_app, covers_cons. tauto. }
  assert (HcovL : forall L fl', L = all fl' -> forall x, covers fl' x <-> covers L x) by (intros L fl' -> x; by rewrite covers_all).
  assert (Hlen : forall L fl', L = all fl' -> (length L <= length (A ++ b :: B) + 1)%nat -> (length fl' <= S (length fl))%nat).
  { intros L fl' -> HL. rewrite <- E in HL. cbn in HL. lia. }
  assert (Hlast : forall L fl' c, L = all fl' -> c ∈ L -> n <= snd c -> exists c, c ∈ fl' /\ n <= snd c).
  { intros L fl' c -> [->|Hc]%elem_of_cons Hnc; [cbn in Hnc; lia|eauto]. }
  assert (Hub : 0 <= snd b) by (destruct (be_Pb _ _ _ _ _ _ Hbe) as [->|?]; cbn; lia).
  unfold free_at. destruct (decide (end_of b = bp)) as [D|D].
  - destruct (join_touching _ _ _ _ _ _ Hbe D) as (fl' & EL & Hfl'). exists fl'. split; [done|]. split_and!; [| |apply (Hlen _ _ EL); rewrite !length_app; cbn; lia].
    + apply (Hlast _ _ (fst b, snd b + n') EL); [set_solver|cbn; lia].
    + intros x. rewrite (HcovL _ _ EL), Hcovb, covers_app. specialize (Hcov x). rewrite covers_cons in Hcov. rewrite covers_cons.
      unfold end_of, sizeof_Header in *. cbn [fst snd] in *.
      assert (fst b <= x < fst b + (snd b + n') * 8 <-> fst b <= x < fst b + snd b * 8 \/ bp <= x < bp + n' * 8) as Hx by lia.
      clear - Hcov Hx. tauto.
  - destruct (join_separate _ _ _ _ _ _ Hbe D) as (fl' & EL & Hfl'). exists fl'. split; [done|]. split_and!; [| |apply (Hlen _ _ EL); rewrite !length_app; cbn; lia].
    + apply (Hlast _ _ (bp, n') EL); [set_solver|cbn; lia].
    + intros x. rewrite (HcovL _ _ EL), Hcovb, covers_app. specialize (Hcov x). rewrite covers_cons in Hcov. rewrite !covers_cons. clear - Hcov. tauto.
Qed.

Lemma length_bound h fl : free_list h fl -> sizeof_Header * Z.of_nat (length fl) <= brk h.
Proof.
  intros H. destruct (apart_below base fl) as [Hb _]; [by apply (Forall_inv_tail (units_all _ (fl_units _ _ H)))|apply H|].
  assert (Hlen : Z.of_nat (length fl) <= foldr (fun b n => snd b + n) 0 fl).
  { pose proof (fl_units _ _ H) as HU. clear -HU. induction HU; cbn [length foldr]; lia. }
  assert (Hlast : final base (map end_of fl) <= brk h).
  { assert (HI : Forall (fun b => end_of b <= brk h) fl) by (eapply Forall_impl; [apply (fl_in _ _ H)|by intros b [_ ?]]).
    assert (Hbb : base <= brk h) by (pose proof (fl_brk _ _ H) as [? _]; unfold sizeof_Header in *; lia).
    clear -HI Hbb. revert Hbb. generalize base. induction HI as [|b fl Hb _ IH]; intros lo Hlo; cbn; [done|]. by apply IH. }
  pose proof (fl_base _ _ H). unfold sizeof_Header in *. lia.
Qed.

(** The bytes of a block. *)
Definition inside (a n x : Z) : Prop := a <= x < a + n * sizeof_Header.

Lemma disj_intro a n l : 1 <= n -> Forall (fun b => 1 <= snd b) l -> (forall x, covers l x -> ~ inside a n x) -> Forall (disj (a, n)) l.
Proof.
  intros Hn HU H. rewrite Forall_forall in *. intros b Hb. specialize (HU b Hb).
  destruct (decide (end_of (a, n) <= fst b)); [by left|]. destruct (decide (end_of b <= a)); [by right|].
  exfalso. apply (H (Z.max a (fst b))); unfold end_of, inside, sizeof_Header in *; cbn in *; [exists b; split; [done|]; unfold end_of, sizeof_Header; lia|lia].
Qed.

(** free of a block that overlaps no free block. *)
Lemma free_ok h fl bp n :
  free_list h fl -> size h bp = n -> 1 <= n -> base + sizeof_Header <= bp -> bp + n * sizeof_Header <= brk h ->
  (forall x, covers fl x -> ~ inside bp n x) ->
  exists h' fl', free (hplus bp 1) h = Some h' /\ free_list h' fl' /\ brk h' = brk h /\ (exists c, c ∈ fl' /\ n <= snd c) /\ (length fl' <= S (length fl))%nat /\
    (forall x, covers fl' x <-> covers fl x \/ inside bp n x) /\
    (forall x, x <> bp -> x ∉ addrs (all fl) -> ptr h' x = ptr h x /\ size h' x = size h x).
Proof.
  intros Hfl Hs Hn Hbp Hend Hd. pose proof (fl_brk _ _ Hfl) as Hbrk. pose proof (fl_base _ _ Hfl) as Hbase.
  assert (HU : Forall (fun b => 0 <= snd b) fl) by (apply (Forall_inv_tail (units_all _ (fl_units _ _ Hfl)))).
  destruct (place (base, 0) fl bp n) as (A & b & B & E & Hb & HB); [lia|done| | |by apply disj_intro; [|apply Hfl|]|].
  { unfold end_of. cbn. rewrite Z.add_0_r. apply Hfl. }
  { unfold end_of, sizeof_Header in *. cbn. lia. }
  change ((base, 0) :: fl) with (all fl) in E.
  assert (HB' : Forall (fun c => bp < fst c) B).
  { eapply Forall_impl; [exact HB|]. unfold end_of, sizeof_Header. cbn. lia. }
  assert (Hpos : 0 < snd b \/ fst b < bp).
  { pose proof (free_list_proper _ _ Hfl) as HP. rewrite E in HP. apply Forall_app in HP as [_ [[->|?] _]%Forall_cons]; [right; cbn; unfold sizeof_Header in *; lia|left; lia]. }
  destruct (free_at_ok h fl A b B bp n) as (fl' & Hfl' & Hbig & Hcov & Hlen); try done.
  exists (free_at h bp (fst b)), fl'. split_and!; try done.
  - unfold free. replace (hplus (hplus bp 1) (-1)) with bp.
    + rewrite (find_ok h fl A B b bp Hfl E Hb Hpos HB'); [done|].
      pose proof (length_bound _ _ Hfl). unfold fuel_of, all, sizeof_Header in *. cbn [length]. lia.
    + unfold hplus. rewrite (u32_small (bp + _)) by (unfold is_u32, sizeof_Header, KERNBASE in *; lia).
      rewrite u32_small by (unfold is_u32, sizeof_Header, KERNBASE in *; lia). unfold sizeof_Header. lia.
  - unfold free_at. cbn. rewrite (proj2 (proj2 (join_prev_only _ _ _))). apply join_next_only.
  - intros x Hx Hn'. assert (x <> fst b).
    { intros ->. apply Hn'. apply list_elem_of_fmap. exists b. split; [done|]. rewrite E. set_solver. }
    unfold free_at. cbn [set_freep ptr size].
    destruct (proj1 (join_prev_only bp (fst b) (join_next bp (fst b) h)) x) as [-> ->]; [done|]. by apply join_next_only.
Qed.

(** ** malloc: a turn of the list *)

Section turn.
Context (memory : Z -> Z -> bool) (nu : Z).

Lemma scan h l e prev f :
  linked h (addrs l) e -> Forall (sized h) l -> freep h ∉ addrs l ->
  (Forall (fun b => snd b < nu) l /\
     malloc_loop memory (length l + f) nu prev (hd e (addrs l)) h = malloc_loop memory f nu (final prev (addrs l)) e h) \/
  (exists l1 p l2, l = l1 ++ p :: l2 /\ nu <= snd p /\
     malloc_loop memory (length l + f) nu prev (hd e (addrs l)) h = Some (take nu (final prev (addrs l1)) (fst p) h)).
Proof.
  intros HL HS. revert prev HL. induction HS as [|b l Hb HS IH]; intros prev; [by left|].
  intros [Hp HL] [Hf Hfl]%not_elem_of_cons. fold (addrs l) in *. cbn in Hp, HL.
  assert (E : malloc_loop memory (length (b :: l) + f) nu prev (hd e (addrs (b :: l))) h =
    if nu <=? snd b then Some (take nu prev (fst b) h) else malloc_loop memory (length l + f) nu (fst b) (hd e (addrs l)) h).
  { cbn. rewrite Hb, Hp, (proj2 (Z.eqb_neq (fst b) _)) by congruence. done. }
  rewrite E. destruct (nu <=? snd b) eqn:D.
  - apply Z.leb_le in D. right. by exists [], b, l.
  - apply Z.leb_gt in D. destruct (IH (fst b) HL Hfl) as [[HF ->]|(l1 & p & l2 & -> & Hnu & ->)].
    + left. split; [by constructor|done].
    + right. by exists (b :: l1), p, l2.
Qed.

Lemma pred (b : block) l : exists l' q, b :: l = l' ++ [q] /\ fst q = final (fst b) (addrs l).
Proof.
  destruct (final_snoc b (b :: l)) as [l' E]; [done|]. exists l', (final b l). split; [exact E|]. unfold addrs. by rewrite final_map.
Qed.

Lemma turn h fl f : free_list h fl -> 1 <= nu ->
  (exists A q p B, all fl = A ++ q :: p :: B /\ nu <= snd p /\
     malloc_loop memory (length (all fl) + f) nu (freep h) (ptr h (freep h)) h = Some (take nu (fst q) (fst p) h)) \/
  (Forall (fun b => snd b < nu) (all fl) /\
     malloc_loop memory (length (all fl) + f) nu (freep h) (ptr h (freep h)) h =
       (r ← morecore memory nu h;
        let '(p, h) := r in if p =? 0 then Some (0, h) else malloc_loop memory f nu p (ptr h p) h)).
Proof.
  intros Hfl Hnu.
  pose proof (fl_freep _ _ Hfl) as (b & Eb & (A & B & E)%list_elem_of_split)%list_elem_of_fmap.
  destruct (place_links h fl A B b Hfl E) as (HLA & Hpb & HLB).
  destruct (split_order _ _ _ _ _ Hfl E) as [HoA HoB].
  pose proof (fl_sized _ _ Hfl) as HS. rewrite E in HS. apply Forall_app in HS as [HSA [HSb HSB]%Forall_cons].
  pose proof (units_all _ (fl_units _ _ Hfl)) as HU. rewrite E in HU. apply Forall_app in HU as [HUA [HUb HUB]%Forall_cons].
  assert (HnB : freep h ∉ addrs B).
  { rewrite Eb. apply above_notin. eapply Forall_impl; [exact HoB|]. cbn. unfold end_of, sizeof_Header. lia. }
  assert (HnA : freep h ∉ addrs A).
  { rewrite Eb. intros (a & Ea & Ha)%list_elem_of_fmap. rewrite Forall_forall in HoA, HUA. specialize (HoA a Ha). specialize (HUA a Ha).
    unfold end_of, sizeof_Header in *. cbn in HUA. lia. }
  assert (Hfirst : hd (fst b) (addrs A) = base).
  { assert (E0 : hd base (addrs (all fl)) = base) by done. rewrite E in E0. unfold addrs in *. rewrite map_app, hd_app in E0. done. }
  assert (Hhead : forall a A', A = a :: A' -> a = (base, 0)) by (intros a A' ->; by injection E).
  assert (Hlen : length (all fl) = (length B + (length A + 1))%nat) by (rewrite E, length_app; cbn; lia).
  rewrite Hlen, Eb, Hpb, <- Nat.add_assoc.
  destruct (scan h B base (fst b) (length A + 1 + f) HLB HSB HnB) as [[HFB ->]|(l1 & p & l2 & -> & Hp & ->)].
  2: { left. destruct (pred b l1) as (l' & q & El & <-). exists (A ++ l'), q, p, l2. split; [|done].
    rewrite E, <- app_assoc. f_equal. rewrite app_comm_cons, El, <- app_assoc. done. }
  rewrite <- Hfirst, <- Nat.add_assoc.
  destruct (scan h A (fst b) (final (fst b) (addrs B)) (1 + f) HLA HSA HnA) as [[HFA ->]|(l1 & p & l2 & EA & Hp & ->)].
  2: { left. destruct l1 as [|a l1]; [specialize (Hhead _ _ EA); subst p; cbn in Hp; lia|].
    cbn [addrs map final]. fold (addrs l1). destruct (pred a l1) as (l' & q & El & <-). exists l', q, p, (l2 ++ b :: B). split; [|done].
    rewrite E, EA, El, <- !app_assoc. done. }
  assert (Estep : forall prev, malloc_loop memory (1 + f) nu prev (fst b) h = if nu <=? snd b then Some (take nu prev (fst b) h) else
    (r ← morecore memory nu h;
     let '(p, h) := r in if p =? 0 then Some (0, h) else malloc_loop memory f nu p (ptr h p) h)).
  { intros prev. cbn [Nat.add malloc_loop]. by rewrite HSb, Eb, Z.eqb_refl. }
  rewrite Estep. destruct (nu <=? snd b) eqn:D.
  - left. apply Z.leb_le in D. destruct A as [|a A]; [injection E as <- _; cbn in D; lia|].
    cbn [addrs map final]. fold (addrs A). destruct (pred a A) as (l' & q & El & <-). exists l', q, b, B. split; [|done].
    rewrite E, El, <- app_assoc. done.
  - right. apply Z.leb_gt in D. rewrite E. split; [|done]. apply Forall_app. split; [done|]. by constructor.
Qed.
End turn.

(** Taking a block, whole or its end. *)
(** The list around two neighbours [q] and [p], the second not the head. *)
Record parted (h : heap) (fl A : list block) (q p : block) (B : list block) : Prop := {
  pt_LA : linked h (addrs A) (fst q);
  pt_q : ptr h (fst q) = fst p;
  pt_pp : ptr h (fst p) = hd base (addrs B);
  pt_LB : linked h (addrs B) base;
  pt_PA : Forall (proper (brk h)) A;
  pt_Pq : proper (brk h) q;
  pt_PB : Forall (proper (brk h)) B;
  pt_SA : Forall (sized h) A;
  pt_Sq : sized h q;
  pt_Sp : sized h p;
  pt_SB : Forall (sized h) B;
  pt_AA : apart (base - 1) A;
  pt_Aq : final (base - 1) (map end_of A) < fst q;
  pt_AB : apart (end_of p) B;
  pt_oA : Forall (fun a => end_of a < fst q) A;
  pt_qp : end_of q < fst p;
  pt_opB : Forall (fun c => end_of p < fst c) B;
  pt_base : 0 < base;
  pt_brk : base + sizeof_Header <= brk h < KERNBASE;
  pt_Pp : 1 <= snd p /\ base + sizeof_Header <= fst p /\ end_of p <= brk h;
  pt_uq : 0 <= snd q;
  pt_ne : fst q <> fst p;
  pt_qB : fst q ∉ addrs B;
  pt_pB : fst p ∉ addrs B;
  pt_qA : fst q ∉ addrs A /\ fst p ∉ addrs A;
  pt_hd : forall C, hd_error (A ++ q :: C) = Some (base, 0);
  pt_covb : forall x, covers fl x <-> covers A x \/ inside (fst q) (snd q) x \/ inside (fst p) (snd p) x \/ covers B x;
  pt_bB : forall x, covers B x -> end_of p < x;
  pt_bA : forall x, covers A x -> x < fst q }.

Lemma parted_intro h fl A q p B : free_list h fl -> all fl = A ++ q :: p :: B -> 1 <= snd p -> parted h fl A q p B.
Proof.
  intros Hfl E Hp. assert (E' : all fl = (A ++ [q]) ++ p :: B) by (rewrite E, <- app_assoc; done).
  destruct (place_links h fl _ _ _ Hfl E) as (HLA & Hq & _).
  destruct (place_links h fl _ _ _ Hfl E') as (_ & Hpp & HLB).
  pose proof (free_list_proper _ _ Hfl) as HP. rewrite E in HP. apply Forall_app in HP as [HPA [HPq [HPp HPB]%Forall_cons]%Forall_cons].
  pose proof (fl_sized _ _ Hfl) as HS. rewrite E in HS. apply Forall_app in HS as [HSA [HSq [HSp HSB]%Forall_cons]%Forall_cons].
  pose proof (apart_all _ _ Hfl) as HA. rewrite E in HA. apply apart_app in HA as [HAA [HAq [HAp HAB]]].
  destruct (split_order _ _ _ _ _ Hfl E) as [HoA [Hqp HoqB]%Forall_cons].
  destruct (split_order _ _ _ _ _ Hfl E') as [_ HopB].
  pose proof (fl_base _ _ Hfl) as Hbase. pose proof (fl_brk _ _ Hfl) as Hbrk.
  destruct HPp as [->|HPp]; [cbn in Hp; lia|].
  pose proof (proper_units (brk h) [q] ltac:(by constructor)) as Huq%Forall_inv. cbn in Huq.
  assert (Hne : fst q <> fst p) by (unfold end_of, sizeof_Header in *; lia).
  assert (HqB : fst q ∉ addrs B).
  { apply above_notin. eapply Forall_impl; [exact HopB|]. unfold end_of, sizeof_Header in *. cbn. lia. }
  assert (HpB : fst p ∉ addrs B).
  { apply above_notin. eapply Forall_impl; [exact HopB|]. unfold end_of, sizeof_Header in *. cbn. lia. }
  assert (HqA : fst q ∉ addrs A /\ fst p ∉ addrs A).
  { split; intros (a & Ea & Ha)%list_elem_of_fmap; rewrite Forall_forall in HoA; specialize (HoA _ Ha);
      assert (0 <= snd a) by (pose proof (proper_units _ _ HPA) as Hu; rewrite Forall_forall in Hu; by apply Hu);
      unfold end_of, sizeof_Header in *; lia. }
  assert (Hhd : forall C, hd_error (A ++ q :: C) = Some (base, 0)).
  { intros C. destruct A as [|a A]; [by injection E as <- _|]. by injection E as <- _. }
  assert (Hcovb : forall x, covers fl x <-> covers A x \/ inside (fst q) (snd q) x \/ inside (fst p) (snd p) x \/ covers B x).
  { intros x. rewrite <- covers_all, E, covers_app, !covers_cons. reflexivity. }
  assert (HbB : forall x, covers B x -> end_of p < x).
  { intros x (c & Hc & Hx). rewrite Forall_forall in HopB. specialize (HopB _ Hc). lia. }
  assert (HbA : forall x, covers A x -> x < fst q).
  { intros x (c & Hc & Hx). rewrite Forall_forall in HoA. specialize (HoA _ Hc). lia. }
  by split.
Qed.

(** A block of [nu] units came out of the list [fl]. *)
Definition taken (h : heap) (fl : list block) (nu : Z) (r : Z * heap) : Prop :=
  exists a h' fl', r = (hplus a 1, h') /\ free_list h' fl' /\ brk h' = brk h /\ size h' a = nu /\
    base + sizeof_Header <= a /\ a + nu * sizeof_Header <= brk h /\
    (forall x, covers fl x <-> covers fl' x \/ inside a nu x) /\ (forall x, covers fl' x -> ~ inside a nu x) /\
    (forall x, x <> a -> x ∉ addrs (all fl) -> ptr h' x = ptr h x /\ size h' x = size h x).

Lemma take_whole h fl A q p B : all fl = A ++ q :: p :: B -> parted h fl A q p B ->
  taken h fl (snd p) (hplus (fst p) 1, set_freep (fst q) (set_ptr (fst q) (ptr h (fst p)) h)).
Proof.
  intros E [HLA Hq Hpp HLB HPA HPq HPB HSA HSq HSp HSB HAA HAq HAB HoA Hqp HopB Hbase Hbrk HPp Huq Hne HqB HpB HqA Hhd Hcovb HbB HbA].
  set (h1 := set_ptr (fst q) (ptr h (fst p)) h).
  assert (Ho : only_at (fst q) h h1).
  { split_and!; [|done|done]. intros x Hx. cbn. by rewrite fn_lookup_insert_ne by done. }
  destruct (free_list_join h1 (fst q) A (q :: B) (fst q)) as (fl' & EL & Hfl'); try done.
  + eapply linked_only; [exact Ho|apply HqA|exact HLA].
  + split; [cbn; by rewrite fn_lookup_insert|]. eapply linked_only; [exact Ho|done|exact HLB].
  + by constructor.
  + apply apart_app. split; [done|]. cbn [apart]. split; [done|].
    destruct B; [done|]. cbn [apart] in HAB |- *. apply Forall_cons in HopB as [? _]. unfold end_of, sizeof_Header in *. split; [lia|by destruct HAB].
  + by constructor.
  + unfold addrs. rewrite map_app. cbn. set_solver.
  + exists (fst p), (set_freep (fst q) h1), fl'.
    assert (Hc : forall x, covers fl' x <-> covers A x \/ inside (fst q) (snd q) x \/ covers B x).
    { intros x. rewrite <- (covers_all fl'), <- EL, covers_app, covers_cons. done. }
    unfold end_of in *. split_and!; [done|done|done|exact HSp|lia|lia| | |].
    * intros x. rewrite Hc, Hcovb. clear. tauto.
    * intros x. rewrite Hc. intros [H|[H|H]]; [specialize (HbA _ H)|unfold inside in H|specialize (HbB _ H)]; unfold inside, sizeof_Header in *; lia.
    * intros x Hx Hn. cbn. rewrite fn_lookup_insert_ne; [done|]. intros <-. apply Hn. rewrite E. unfold addrs. rewrite map_app. cbn. set_solver.
Qed.

Lemma take_end h fl A q p B nu : all fl = A ++ q :: p :: B -> parted h fl A q p B -> 1 <= nu < snd p ->
  let a := hplus (fst p) (snd p - nu) in taken h fl nu (hplus a 1, set_freep (fst q) (set_size a nu (set_size (fst p) (snd p - nu) h))).
Proof.
  intros E [HLA Hq Hpp HLB HPA HPq HPB HSA HSq HSp HSB HAA HAq HAB HoA Hqp HopB Hbase Hbrk HPp Huq Hne HqB HpB HqA Hhd Hcovb HbB HbA] Hnu. cbv zeta.
  set (k := snd p - nu). set (a := fst p + k * sizeof_Header).
  assert (Ha : hplus (fst p) k = a) by (apply hplus_small; unfold k, end_of, sizeof_Header, KERNBASE in *; lia).
  rewrite Ha. set (h1 := set_size a nu (set_size (fst p) k h)).
  assert (Hap : a <> fst p) by (unfold a, k, sizeof_Header; lia).
  assert (Haq : fst q < a) by (unfold a, k, end_of, sizeof_Header in *; lia).
  assert (HaB : a ∉ addrs B).
  { apply above_notin. eapply Forall_impl; [exact HopB|]. unfold a, k, end_of, sizeof_Header in *. cbn. lia. }
  assert (HaA : a ∉ addrs A).
  { intros (c & Ec & Hc)%list_elem_of_fmap; rewrite Forall_forall in HoA; specialize (HoA _ Hc);
    assert (0 <= snd c) by (pose proof (proper_units _ _ HPA) as Hu; rewrite Forall_forall in Hu; by apply Hu);
    unfold end_of, sizeof_Header in *; lia. }
  assert (Hsz : forall l, a ∉ addrs l -> fst p ∉ addrs l -> Forall (sized h) l -> Forall (sized h1) l).
  { intros l H1 H2 H3. apply (sized_only a (set_size (fst p) k h) h1); [|done|].
    - split_and!; [|done|done]. intros x Hx. cbn. by rewrite fn_lookup_insert_ne by done.
    - apply (sized_only (fst p) h); [|done|done]. split_and!; [|done|done]. intros x Hx. cbn. by rewrite fn_lookup_insert_ne by done. }
  assert (Hlk : forall l e, linked h l e -> linked h1 l e) by (intros l e; apply linked_ext; by apply Forall_true).
  destruct (free_list_join h1 (fst q) A (q :: (fst p, k) :: B) (fst q)) as (fl' & EL & Hfl'); try done.
  + by apply Hlk.
  + cbn [addrs map linked fst hd]. split_and!; [exact Hq|done|by apply Hlk].
  + apply Hsz; [done|apply HqA|done].
  + constructor; [|constructor].
    * unfold sized. cbn. rewrite !fn_lookup_insert_ne by lia. exact HSq.
    * unfold sized. cbn. by rewrite fn_lookup_insert_ne, fn_lookup_insert by lia.
    * by apply Hsz.
  + apply apart_app. split; [done|]. cbn [apart fst]. split_and!; [done|done|].
    destruct B; [done|]. cbn [apart] in HAB |- *. unfold end_of, k, sizeof_Header in *. cbn [fst snd]. split; [lia|by destruct HAB].
  + constructor; [done|]. constructor; [|done]. right. unfold end_of, k, sizeof_Header in *. cbn [fst snd] in *. cbn [brk set_size h1]. lia.
  + unfold addrs. rewrite map_app. cbn. set_solver.
  + exists a, (set_freep (fst q) h1), fl'.
    assert (Hc : forall x, covers fl' x <-> covers A x \/ inside (fst q) (snd q) x \/ inside (fst p) k x \/ covers B x).
    { intros x. rewrite <- (covers_all fl'), <- EL, covers_app, !covers_cons. done. }
    unfold end_of in *. split_and!; [done|done|done|cbn; by rewrite fn_lookup_insert|unfold a, k, sizeof_Header in *; lia|unfold a, k, sizeof_Header in *; lia| | |].
    * intros x. rewrite Hc, Hcovb.
      assert (inside (fst p) (snd p) x <-> inside (fst p) k x \/ inside a nu x) as Hx by (unfold inside, a, k, sizeof_Header; lia). clear - Hx. tauto.
    * intros x. rewrite Hc. intros [H|[H|[H|H]]]; [specialize (HbA _ H)|unfold inside in H|unfold inside in H|specialize (HbB _ H)]; unfold inside, a, k, sizeof_Header in *; lia.
    * intros x Hx Hn. cbn. rewrite !fn_lookup_insert_ne; [done| |done]. intros <-. apply Hn. rewrite E. unfold addrs. rewrite map_app. cbn. set_solver.
Qed.

Lemma take_ok h fl A q p B nu :
  free_list h fl -> all fl = A ++ q :: p :: B -> 1 <= nu <= snd p -> taken h fl nu (take nu (fst q) (fst p) h).
Proof.
  intros Hfl E Hnu. pose proof (parted_intro h fl A q p B Hfl E ltac:(lia)) as Hp. pose proof (pt_Sp _ _ _ _ _ _ Hp) as HS.
  unfold sized in HS. unfold take. rewrite !HS. destruct (Z.eqb_spec (snd p) nu) as [<-|D]; [by apply (take_whole h fl A q p B)|]. cbn [size set_size].
  rewrite fn_lookup_insert, u32_small; [apply (take_end h fl A q p B); [done|done|lia]|].
  pose proof (pt_Pp _ _ _ _ _ _ Hp). pose proof (pt_brk _ _ _ _ _ _ Hp). pose proof (pt_base _ _ _ _ _ _ Hp). unfold end_of, is_u32, sizeof_Header, KERNBASE in *. lia.
Qed.

(** ** More memory from the kernel *)

Lemma sbrk_grows memory n h : 0 < n < 2 ^ 31 -> 0 < brk h < KERNBASE ->
  sbrk memory n h = if (brk h + n <? KERNBASE) && memory (brk h) (brk h + n) then (brk h, set_brk (brk h + n) h) else (-1, h).
Proof.
  intros Hn Hb. unfold sbrk, alloc_size. rewrite (proj2 (Z.ltb_lt 0 n)) by lia.
  rewrite u32_small by (unfold is_u32, KERNBASE in *; lia).
  destruct (brk h + n <? KERNBASE) eqn:D; cbn [andb].
  - apply Z.ltb_lt in D. rewrite (proj2 (Z.leb_gt _ _)), (proj2 (Z.ltb_ge _ _)) by lia.
    destruct (memory _ _); [|done]. by rewrite (proj2 (Z.eqb_neq _ _)) by lia.
  - apply Z.ltb_ge in D. by rewrite (proj2 (Z.leb_le _ _)) by lia.
Qed.

Lemma addrs_below h fl x : free_list h fl -> x ∈ addrs (all fl) -> base <= x < brk h.
Proof.
  intros H (b & -> & Hb)%list_elem_of_fmap. pose proof (free_list_proper _ _ H) as HP. rewrite Forall_forall in HP.
  pose proof (fl_brk _ _ H). destruct (HP b Hb) as [->|?]; cbn; unfold end_of, sizeof_Header in *; lia.
Qed.

Lemma free_list_grow h fl b n : free_list h fl -> brk h <= b < KERNBASE -> free_list (set_size (brk h) n (set_brk b h)) fl.
Proof.
  intros H Hb. assert (Hn : brk h ∉ addrs (all fl)) by (intros Hin%(addrs_below _ _ _ H); lia).
  destruct H as [H1 H2 H3 H4 H5 H6 H7 H8]. split; try done.
  - apply (linked_ext h); [by apply Forall_true|done].
  - apply (sized_only (brk h) (set_brk b h)); [|done|exact H3]. split_and!; [|done|done]. intros x Hx. cbn. by rewrite fn_lookup_insert_ne by done.
  - cbn. eapply Forall_impl; [exact H5|]. cbn. lia.
  - cbn. lia.
Qed.

Lemma morecore_ok memory h fl nu : free_list h fl -> 1 <= nu < 2 ^ 28 ->
  morecore memory nu h = Some (0, h) \/
  exists h' fl', morecore memory nu h = Some (freep h', h') /\ free_list h' fl' /\ brk h < brk h' /\ (exists c, c ∈ fl' /\ nu <= snd c) /\ (length fl' <= S (length fl))%nat /\
    (forall x, covers fl' x <-> covers fl x \/ brk h <= x < brk h') /\
    (forall x, x <> brk h -> x ∉ addrs (all fl) -> ptr h' x = ptr h x /\ size h' x = size h x).
Proof.
  intros Hfl Hnu. pose proof (fl_brk _ _ Hfl) as Hbrk. pose proof (fl_base _ _ Hfl) as Hbase.
  unfold morecore. set (k := if nu <? 4096 then 4096 else nu).
  assert (Hk : nu <= k /\ 4096 <= k < 2 ^ 28) by (unfold k; destruct (Z.ltb_spec nu 4096); lia).
  assert (E : s32 (u32 (k * sizeof_Header)) = k * sizeof_Header).
  { unfold sizeof_Header. rewrite u32_small, s32_small by (unfold is_u32, is_s32; lia). done. }
  rewrite E, sbrk_grows by (unfold sizeof_Header, KERNBASE in *; lia).
  destruct (_ && _) eqn:D; [|by left]. right. apply andb_true_iff in D as [D _]. apply Z.ltb_lt in D.
  assert (Hg : free_list (set_size (brk h) k (set_brk (brk h + k * sizeof_Header) h)) fl) by (apply free_list_grow; [done|unfold sizeof_Header in *; lia]).
  destruct (free_ok _ fl (brk h) k Hg) as (h' & fl' & Ef & Hfl' & Hb' & (c & Hc & Hck) & Hlen & Hcov & Hfr).
  { cbn. by rewrite fn_lookup_insert. }
  1-2: unfold sizeof_Header in *; lia.
  { cbn. lia. }
  { intros x (b & Hb & Hx) Hi. pose proof (fl_in _ _ Hfl) as HI. rewrite Forall_forall in HI. specialize (HI b Hb). unfold inside in Hi. lia. }
  rewrite (proj2 (Z.eqb_neq _ _)) by (unfold sizeof_Header in *; lia). rewrite Ef.
  exists h', fl'. split; [done|]. rewrite Hb'. cbn [brk set_size set_brk]. split_and!; [done|unfold sizeof_Header; lia|exists c; split; [done|lia]|done|exact Hcov|].
  intros x Hx Hn. destruct (Hfr x Hx Hn) as [-> ->]. cbn. by rewrite fn_lookup_insert_ne by done.
Qed.

(** malloc on a list that is set up. *)
Lemma malloc_loop_ok memory h fl nu : free_list h fl -> 1 <= nu < 2 ^ 28 ->
  (malloc_loop memory (fuel_of h) nu (freep h) (ptr h (freep h)) h = Some (0, h) /\ Forall (fun b => snd b < nu) fl) \/
  exists a h' fl', malloc_loop memory (fuel_of h) nu (freep h) (ptr h (freep h)) h = Some (hplus a 1, h') /\
    free_list h' fl' /\ brk h <= brk h' /\ size h' a = nu /\ base + sizeof_Header <= a /\ a + nu * sizeof_Header <= brk h' /\
    (forall x, covers fl' x \/ inside a nu x <-> covers fl x \/ brk h <= x < brk h') /\ (forall x, covers fl' x -> ~ inside a nu x) /\
    (forall x, base < x < brk h -> ~ covers fl x -> ~ inside a nu x -> ptr h' x = ptr h x /\ size h' x = size h x).
Proof.
  intros Hfl Hnu.
  assert (Hnot : forall h fl x, free_list h fl -> base < x -> ~ covers fl x -> x ∉ addrs (all fl)).
  { intros h0 fl0 x H0 Hb Hc (b & -> & [->|Hb2]%elem_of_cons)%list_elem_of_fmap; [cbn in Hb; lia|].
    apply Hc. exists b. split; [done|]. pose proof (fl_units _ _ H0) as HU. rewrite Forall_forall in HU. specialize (HU b Hb2).
    unfold end_of, sizeof_Header. lia. }
  assert (Hself : forall a, inside a nu a) by (unfold inside, sizeof_Header; lia).
  pose proof (length_bound _ _ Hfl) as Hlen. pose proof (fl_brk _ _ Hfl) as Hbrk.
  assert (Hf : exists f, fuel_of h = (length (all fl) + f)%nat /\ (length fl + 2 <= f)%nat).
  { exists (fuel_of h - length (all fl))%nat. unfold fuel_of, all, sizeof_Header in *. cbn [length]. lia. }
  destruct Hf as (f & -> & Hf).
  destruct (turn memory nu h fl f Hfl ltac:(lia)) as [(A & q & p & B & E & Hp & ->)|[HF ->]].
  - right. destruct (take_ok h fl A q p B nu Hfl E ltac:(lia)) as (a & h' & fl' & -> & H1 & H2 & H3 & H4 & H5 & H6 & H7 & H8).
    exists a, h', fl'. rewrite H2. split_and!; try done; [intros x; rewrite H6; split; [tauto|intros [?|?]; [tauto|lia]]|].
    intros x Hx Hc Hi. apply H8; [intros ->; by apply Hi|apply (Hnot h); [done|lia|done]].
  - destruct (morecore_ok memory h fl nu Hfl Hnu) as [->|(h1 & fl1 & -> & Hfl1 & Hb1 & (c & Hc & Hcn) & Hl1 & Hcov & Hfr)].
    { left. split; [done|]. by apply Forall_cons in HF as [_ ?]. }
    right. cbn [mbind option_bind].
    assert (Hz : freep h1 <> 0).
    { pose proof (addrs_below _ _ _ Hfl1 (fl_freep _ _ Hfl1)). pose proof (fl_base _ _ Hfl1). lia. }
    rewrite (proj2 (Z.eqb_neq _ _) Hz).
    replace f with (length (all fl1) + (f - length (all fl1)))%nat by (cbn; lia).
    destruct (turn memory nu h1 fl1 (f - length (all fl1)) Hfl1 ltac:(lia)) as [(A & q & p & B & E & Hp & ->)|[HF1 _]].
    2: { rewrite Forall_forall in HF1. specialize (HF1 c ltac:(by apply elem_of_cons; right)). cbn in HF1. lia. }
    destruct (take_ok h1 fl1 A q p B nu Hfl1 E ltac:(lia)) as (a & h' & fl' & -> & H1 & H2 & H3 & H4 & H5 & H6 & H7 & H8).
    exists a, h', fl'. rewrite H2. split_and!; try done; [lia|intros x; rewrite <- H6; apply Hcov|].
    intros x Hx Hc' Hi. destruct (H8 x) as [-> ->].
    + intros ->. by apply Hi.
    + apply (Hnot h1); [done|lia|]. rewrite Hcov. intros [?|?]; [done|lia].
    + apply Hfr; [lia|]. apply (Hnot h); [done|lia|done].
Qed.

(** ** The blocks that the program holds *)

(** [live] has the blocks handed out and not freed, by the address of their
    header. *)
Definition owns (live : gmap Z Z) (x : Z) : Prop := exists a n, live !! a = Some n /\ inside a n x.

Record heap_ok (h : heap) (fl : list block) (live : gmap Z Z) : Prop := {
  ho_list : free_list h fl;
  ho_live : forall a n, live !! a = Some n ->
    size h a = n /\ 1 <= n /\ base + sizeof_Header <= a /\ a + n * sizeof_Header <= brk h;
  ho_apart : forall a n b m x, live !! a = Some n -> live !! b = Some m -> inside a n x -> inside b m x -> a = b;
  ho_free : forall a n x, live !! a = Some n -> inside a n x -> ~ covers fl x }.

(** The fields of the headers inside the live blocks. *)
Definition keeps (live : gmap Z Z) (h h' : heap) : Prop :=
  forall x, owns live x -> ptr h' x = ptr h x /\ size h' x = size h x.

Lemma inside_start a n : 1 <= n -> inside a n a.
Proof. unfold inside, sizeof_Header. lia. Qed.

Lemma units_small nbytes : 0 <= nbytes <= 2 ^ 31 - 16 -> 1 <= units nbytes < 2 ^ 28 /\ nbytes <= (units nbytes - 1) * sizeof_Header.
Proof.
  intros H. unfold units, sizeof_Header. rewrite (u32_small (nbytes + 8 - 1)) by (unfold is_u32; lia).
  rewrite u32_small by (unfold is_u32; Z.to_euclidean_division_equations; lia). Z.to_euclidean_division_equations. lia.
Qed.

Lemma malloc_heap_ok memory h fl live nbytes : heap_ok h fl live -> 0 <= nbytes <= 2 ^ 31 - 16 ->
  (malloc memory nbytes h = Some (0, h) /\ Forall (fun b => snd b < units nbytes) fl) \/
  exists a h' fl', malloc memory nbytes h = Some (hplus a 1, h') /\ hplus a 1 = a + sizeof_Header /\ hplus (hplus a 1) (-1) = a /\
    live !! a = None /\ heap_ok h' fl' (<[a := units nbytes]> live) /\ keeps live h h' /\ brk h <= brk h' /\
    (forall x, covers fl' x \/ inside a (units nbytes) x <-> covers fl x \/ brk h <= x < brk h').
Proof.
  intros Hok Hn. pose proof (ho_list _ _ _ Hok) as Hfl. pose proof (fl_base _ _ Hfl) as Hbase.
  destruct (units_small _ Hn) as [Hu _].
  assert (Hz : freep h <> 0) by (pose proof (addrs_below _ _ _ Hfl (fl_freep _ _ Hfl)); lia).
  unfold malloc. rewrite (proj2 (Z.eqb_neq _ _) Hz).
  destruct (malloc_loop_ok memory h fl _ Hfl Hu) as [[-> HF]|(a & h' & fl' & -> & H1 & H2 & H3 & H4 & H5 & H6 & H7 & H8)]; [by left|].
  right. exists a, h', fl'. pose proof (fl_brk _ _ H1) as Hbrk.
  assert (Hp1 : hplus a 1 = a + sizeof_Header) by (rewrite hplus_small; unfold sizeof_Header in *; lia).
  assert (Hown : forall x, owns live x -> base < x < brk h /\ ~ covers fl x /\ ~ inside a (units nbytes) x).
  { intros x (b & m & Hb & Hx). destruct (ho_live _ _ _ Hok b m Hb) as (? & ? & ? & ?).
    assert (Hc : ~ covers fl x) by (by apply (ho_free _ _ _ Hok b m)).
    assert (base < x < brk h) by (unfold inside, sizeof_Header in *; lia).
    split_and!; try lia; try done. intros Hi. destruct (proj1 (H6 x) (or_intror Hi)) as [?|?]; [done|lia]. }
  assert (Hk : keeps live h h') by (intros x Hx; destruct (Hown x Hx) as (? & ? & ?); by apply H8).
  assert (Hnone : live !! a = None).
  { destruct (live !! a) as [m|] eqn:Ha; [|done]. destruct (ho_live _ _ _ Hok a m Ha) as (_ & ? & _).
    destruct (Hown a) as (_ & _ & Hi); [exists a, m; split; [done|by apply inside_start]|]. destruct Hi. apply inside_start. lia. }
  split_and!; try done.
  - rewrite Hp1. unfold hplus. rewrite u32_small by (unfold is_u32, sizeof_Header, KERNBASE in *; lia). unfold sizeof_Header. lia.
  - split; [done| | |].
    + intros b m [[<- <-]|[Hne Hb]]%lookup_insert_Some; [split_and!; [exact H3|lia|exact H4|exact H5]|].
      destruct (ho_live _ _ _ Hok b m Hb) as (Hs & Hm & ? & ?). split_and!; [|done|done|lia].
      rewrite <- Hs. apply Hk. exists b, m. split; [done|by apply inside_start].
    + intros b m c k x [[<- <-]|[Hne Hb]]%lookup_insert_Some [[<- <-]|[Hne' Hc]]%lookup_insert_Some Hxb Hxc; [done| | |by eapply (ho_apart _ _ _ Hok)].
      * destruct (Hown x) as (_ & _ & Hi); [by exists c, k|by destruct Hi].
      * destruct (Hown x) as (_ & _ & Hi); [by exists b, m|by destruct Hi].
    + intros b m x [[<- <-]|[Hne Hb]]%lookup_insert_Some Hx Hc; [by apply (H7 x)|].
      destruct (Hown x ltac:(by exists b, m)) as (Hx' & Hc' & _). destruct (proj1 (H6 x) (or_introl Hc)) as [?|?]; [done|lia].
Qed.

Lemma free_heap_ok h fl live a n : heap_ok h fl live -> live !! a = Some n ->
  exists h' fl', free (hplus a 1) h = Some h' /\ heap_ok h' fl' (delete a live) /\ keeps (delete a live) h h' /\ brk h' = brk h /\
    (forall x, covers fl' x <-> covers fl x \/ inside a n x).
Proof.
  intros Hok Ha. pose proof (ho_list _ _ _ Hok) as Hfl. destruct (ho_live _ _ _ Hok a n Ha) as (Hs & Hn & Hlo & Hhi).
  destruct (free_ok h fl a n Hfl Hs Hn Hlo Hhi) as (h' & fl' & E & Hfl' & Hb & _ & _ & Hcov & Hfr).
  { intros x Hc Hi. by apply (ho_free _ _ _ Hok a n x). }
  assert (Hk : keeps (delete a live) h h').
  { intros x (b & m & [Hne Hb']%lookup_delete_Some & Hx). destruct (ho_live _ _ _ Hok b m Hb') as (_ & Hm & ? & ?). apply Hfr.
    - intros ->. apply Hne. by apply (ho_apart _ _ _ Hok a n b m a); [done|done|apply inside_start|].
    - intros (c & -> & [->|Hc]%elem_of_cons)%list_elem_of_fmap; [unfold inside, sizeof_Header in *; cbn in Hx; lia|].
      apply (ho_free _ _ _ Hok b m (fst c) Hb' Hx). exists c. split; [done|].
      pose proof (fl_units _ _ Hfl) as HU. rewrite Forall_forall in HU. specialize (HU c Hc). unfold end_of, sizeof_Header. lia. }
  exists h', fl'. split_and!; try done. split; [done| | |].
  - intros b m Hbm. pose proof Hbm as [Hne Hb']%lookup_delete_Some. destruct (ho_live _ _ _ Hok b m Hb') as (Hsb & Hm & ? & ?). rewrite Hb.
    split_and!; try done. rewrite <- Hsb. apply Hk. exists b, m. split; [done|by apply inside_start].
  - intros b m c k x [_ ?]%lookup_delete_Some [_ ?]%lookup_delete_Some. by apply (ho_apart _ _ _ Hok).
  - intros b m x [Hne Hb']%lookup_delete_Some Hx [Hc|Hi]%Hcov; [by apply (ho_free _ _ _ Hok b m x)|].
    apply Hne. by apply (ho_apart _ _ _ Hok a n b m x).
Qed.

(** ** Programs *)

(** A program that calls malloc for less than 2 GB, free for a block it
    holds, stores in the blocks it holds, and sbrk to grow. *)
Inductive step (memory : Z -> Z -> bool) : heap * gmap Z Z -> heap * gmap Z Z -> Prop :=
| Malloc nbytes r h h' live :
    0 <= nbytes <= 2 ^ 31 - 16 -> malloc memory nbytes h = Some (r, h') ->
    step memory (h, live) (h', if r =? 0 then live else <[hplus r (-1) := units nbytes]> live)
| Free a n h h' live :
    live !! a = Some n -> free (hplus a 1) h = Some h' -> step memory (h, live) (h', delete a live)
| Store h h' live :
    freep h' = freep h -> brk h' = brk h ->
    (forall x, (forall a n, live !! a = Some n -> ~ a + sizeof_Header <= x < a + n * sizeof_Header) -> ptr h' x = ptr h x /\ size h' x = size h x) ->
    step memory (h, live) (h', live)
| Sbrk n h live :
    0 <= n < 2 ^ 31 -> step memory (h, live) (snd (sbrk memory n h), live).

Definition fresh (h : heap) : Prop := freep h = 0 /\ 0 < base /\ base + sizeof_Header <= brk h < KERNBASE.
Definition inv (s : heap * gmap Z Z) : Prop := (fresh (fst s) /\ snd s = ∅) \/ exists fl, heap_ok (fst s) fl (snd s).

Definition set_up (h : heap) : heap := set_size base 0 (set_freep base (set_ptr base base h)).

Lemma fresh_set_up h : fresh h -> heap_ok (set_up h) [] ∅ /\ forall memory nbytes, malloc memory nbytes h = malloc memory nbytes (set_up h).
Proof.
  intros (Hz & Hb & Hk). split.
  - split; [|by intros a n ?%lookup_empty_Some|by intros a n b m x ?%lookup_empty_Some|by intros a n x ?%lookup_empty_Some].
    split; cbn; try done; [by rewrite fn_lookup_insert|constructor; [|done]; unfold sized; cbn; by rewrite fn_lookup_insert|set_solver].
  - intros memory nbytes. unfold malloc. rewrite Hz. cbn [Z.eqb freep set_up set_size set_freep].
    by rewrite (proj2 (Z.eqb_neq base 0)) by lia.
Qed.

Lemma store_ok h h' fl live : heap_ok h fl live -> freep h' = freep h -> brk h' = brk h ->
  (forall x, (forall a n, live !! a = Some n -> ~ a + sizeof_Header <= x < a + n * sizeof_Header) -> ptr h' x = ptr h x /\ size h' x = size h x) ->
  heap_ok h' fl live.
Proof.
  intros Hok Hf Hb Hs. pose proof (ho_list _ _ _ Hok) as Hfl.
  assert (Hlist : forall x, x ∈ addrs (all fl) -> ptr h' x = ptr h x /\ size h' x = size h x).
  { intros x Hx. apply Hs. intros a n Ha Hi. destruct (ho_live _ _ _ Hok a n Ha) as (_ & Hn & Hlo & _).
    apply list_elem_of_fmap in Hx as (c & -> & [->|Hc]%elem_of_cons); [unfold sizeof_Header in *; cbn in Hi; lia|].
    apply (ho_free _ _ _ Hok a n (fst c) Ha); [unfold inside, sizeof_Header in *; lia|]. exists c. split; [done|].
    pose proof (fl_units _ _ Hfl) as HU. rewrite Forall_forall in HU. specialize (HU c Hc). unfold end_of, sizeof_Header. lia. }
  assert (Hlive : forall a n, live !! a = Some n -> size h' a = n).
  { intros a n Ha. destruct (ho_live _ _ _ Hok a n Ha) as (<- & Hn & _). apply Hs. intros b m Hbm Hi.
    assert (a = b); [|subst; unfold sizeof_Header in *; lia].
    apply (ho_apart _ _ _ Hok a (size h a) b m a); [done|done|by apply inside_start|unfold inside, sizeof_Header in *; lia]. }
  split; [|intros a n Ha; rewrite Hb; split; [by apply Hlive|by apply (ho_live _ _ _ Hok)]|apply Hok|apply Hok].
  destruct Hfl as [H1 H2 H3 H4 H5 H6 H7 H8]. split; rewrite ?Hb, ?Hf; try done.
  - eapply linked_ext; [|exact H1]. apply Forall_forall. intros x Hx. by apply Hlist.
  - rewrite Forall_forall in *. intros b Hin. unfold sized. rewrite (proj2 (Hlist (fst b) ltac:(apply list_elem_of_fmap; by exists b))). by apply H3.
Qed.

Lemma sbrk_brk memory n h : 0 <= n < 2 ^ 31 -> 0 < brk h < KERNBASE -> exists b, snd (sbrk memory n h) = set_brk b h /\ brk h <= b < KERNBASE.
Proof.
  intros Hn Hb. destruct (decide (n = 0)) as [->|]; [exists (brk h); split; [by destruct h|lia]|].
  rewrite sbrk_grows by lia. destruct (_ && _) eqn:D.
  - apply andb_true_iff in D as [D%Z.ltb_lt _]. exists (brk h + n). split; [done|lia].
  - exists (brk h). split; [by destruct h|lia].
Qed.

Lemma grow_ok h fl live b : heap_ok h fl live -> brk h <= b < KERNBASE -> heap_ok (set_brk b h) fl live.
Proof.
  intros [[H1 H2 H3 H4 H5 H6 H7 H8] Hl Ha Hf] Hb. split; [|intros a n Han; destruct (Hl a n Han) as (? & ? & ? & ?); cbn; split_and!; [done..|lia]|done|done].
  split; try done; [by apply (linked_ext h); [apply Forall_true|]|eapply Forall_impl; [exact H5|]; cbn; lia|cbn; lia].
Qed.

Lemma inv_malloc memory h live nbytes : inv (h, live) -> 0 <= nbytes <= 2 ^ 31 - 16 ->
  exists r h', malloc memory nbytes h = Some (r, h') /\ inv (h', if r =? 0 then live else <[hplus r (-1) := units nbytes]> live).
Proof.
  assert (Hmain : forall h fl live, heap_ok h fl live -> 0 <= nbytes <= 2 ^ 31 - 16 ->
    exists r h', malloc memory nbytes h = Some (r, h') /\ inv (h', if r =? 0 then live else <[hplus r (-1) := units nbytes]> live)).
  { clear h live. intros h fl live Hok Hn. destruct (malloc_heap_ok memory h fl live nbytes Hok Hn) as [[-> _]|(a & h' & fl' & -> & Hp & Hm & _ & Hok' & _)].
    - exists 0, h. split; [done|]. right. by exists fl.
    - exists (hplus a 1), h'. split; [done|]. rewrite Hm.
      destruct (ho_live _ _ _ Hok' a (units nbytes) ltac:(apply lookup_insert_eq)) as (_ & _ & ? & _). pose proof (fl_base _ _ (ho_list _ _ _ Hok')).
      rewrite (proj2 (Z.eqb_neq _ _)) by (rewrite Hp; unfold sizeof_Header in *; lia). right. by exists fl'. }
  intros [[Hf E]|[fl Hok]] Hn; cbn in *; [|by eapply Hmain].
  subst live. destruct (fresh_set_up h Hf) as [Hok ->]. by eapply Hmain.
Qed.

Lemma step_inv memory s s' : step memory s s' -> inv s -> inv s'.
Proof.
  destruct 1 as [nbytes r h h' live Hn E|a n h h' live Ha E|h h' live H1 H2 H3|n h live Hn]; intros Hinv.
  - destruct (inv_malloc memory h live nbytes Hinv Hn) as (r' & h'' & E' & Hinv'). rewrite E in E'. by injection E' as <- <-.
  - destruct Hinv as [[_ Hl]|[fl Hok]]; cbn in *; [by subst live; apply lookup_empty_Some in Ha|].
    destruct (free_heap_ok h fl live a n Hok Ha) as (h'' & fl' & E' & Hok' & _). rewrite E in E'. injection E' as <-. right. by exists fl'.
  - destruct Hinv as [[[Hz [Hb Hk]] Hl]|[fl Hok]]; cbn in *.
    + left. split; [|done]. unfold fresh. cbn. by rewrite H1, H2.
    + right. exists fl. by apply (store_ok h).
  - destruct Hinv as [[[Hz [Hb Hk]] Hl]|[fl Hok]]; cbn in *.
    + destruct (sbrk_brk memory n h Hn) as (b & -> & ?); [unfold sizeof_Header in *; lia|]. left. split; [|done]. split_and!; cbn; [done|done|lia|lia].
    + pose proof (fl_brk _ _ (ho_list _ _ _ Hok)). pose proof (fl_base _ _ (ho_list _ _ _ Hok)).
      destruct (sbrk_brk memory n h Hn) as (b & -> & ?); [unfold sizeof_Header in *; lia|]. right. exists fl. by apply grow_ok.
Qed.

(** C10: In any run of a program from a fresh process, which asks for less than
    2 GB at a time, the blocks it holds lie in
    the heap with their headers as they were, no two of them share a byte,
    and every call of malloc and every call of free for a block it holds
    comes to an end. *)
Theorem blocks_are_exclusive memory h0 h live :
  fresh h0 -> rtc (step memory) (h0, ∅) (h, live) ->
  (forall a n, live !! a = Some n -> size h a = n /\ base + sizeof_Header <= a /\ a + n * sizeof_Header <= brk h) /\
  (forall a n b m x, live !! a = Some n -> live !! b = Some m -> inside a n x -> inside b m x -> a = b) /\
  (forall nbytes, 0 <= nbytes <= 2 ^ 31 - 16 -> malloc memory nbytes h <> None) /\
  (forall a n, live !! a = Some n -> free (hplus a 1) h <> None).
Proof.
  intros Hf Hr. assert (Hinv : inv (h, live)).
  { eapply (rtc_ind_r inv (h0, ∅)); [by left| |exact Hr]. intros x y _ Hs Hi. by eapply step_inv. }
  pose proof Hinv as Hcase. unfold inv in Hcase. cbn [fst snd] in Hcase. split_and!.
  - destruct Hcase as [[_ ->]|[fl Hok]]; [by intros a n ?%lookup_empty_Some|]. intros a n Ha. destruct (ho_live _ _ _ Hok a n Ha). tauto.
  - destruct Hcase as [[_ ->]|[fl Hok]]; [by intros a n b m x ?%lookup_empty_Some|]. apply (ho_apart _ _ _ Hok).
  - intros nbytes Hn. by destruct (inv_malloc memory h live nbytes Hinv Hn) as (r & h' & -> & _).
  - intros a n Ha. destruct Hcase as [[_ ->]|[fl Hok]]; [by apply lookup_empty_Some in Ha|].
    by destruct (free_heap_ok h fl live a n Hok Ha) as (h' & fl' & -> & _).
Qed.

(** malloc of less than 2 GB on a heap in order answers with 0, changing
    nothing, only when no free block is large enough and the kernel gives no
    more; or with a block of at least that many bytes after its header that
    shares no byte with a block in use, leaves the blocks in use as they
    were, and takes its bytes from the free ones and the growth of the heap,
    losing none. *)
Theorem malloc_spec memory h fl live nbytes : heap_ok h fl live -> 0 <= nbytes <= 2 ^ 31 - 16 ->
  (malloc memory nbytes h = Some (0, h) /\ Forall (fun b => snd b < units nbytes) fl) \/
  exists a n h' fl', malloc memory nbytes h = Some (a + sizeof_Header, h') /\ nbytes <= (n - 1) * sizeof_Header < nbytes + sizeof_Header /\
    live !! a = None /\ heap_ok h' fl' (<[a := n]> live) /\ keeps live h h' /\ brk h <= brk h' /\
    (forall x, covers fl' x \/ inside a n x <-> covers fl x \/ brk h <= x < brk h').
Proof.
  intros Hok Hn. destruct (malloc_heap_ok memory h fl live nbytes Hok Hn) as [?|(a & h' & fl' & -> & -> & _ & H)]; [by left|].
  right. exists a, (units nbytes), h', fl'. split_and!; try tauto.
  - apply units_small; lia.
  - unfold units, sizeof_Header. rewrite (u32_small (nbytes + 8 - 1)) by (unfold is_u32; lia).
    rewrite u32_small by (unfold is_u32; Z.to_euclidean_division_equations; lia). Z.to_euclidean_division_equations. lia.
Qed.

(** C34: A block of less than 2 GB freed at once is back on the list: the heap is in order with the
    blocks held before, their contents as they were, and the same bytes are
    free, with those that the heap grew by. *)
Theorem free_undoes_malloc memory h fl live nbytes r h1 : heap_ok h fl live -> 0 <= nbytes <= 2 ^ 31 - 16 ->
  malloc memory nbytes h = Some (r, h1) -> r <> 0 ->
  exists h2 fl2, free r h1 = Some h2 /\ heap_ok h2 fl2 live /\ keeps live h h2 /\ brk h2 = brk h1 /\
    (forall x, covers fl2 x <-> covers fl x \/ brk h <= x < brk h1).
Proof.
  intros Hok Hn E Hr. destruct (malloc_heap_ok memory h fl live nbytes Hok Hn) as [[E' _]|(a & h' & fl' & E' & Hp & _ & Hnone & Hok' & Hk & _ & Hcov)];
    rewrite E in E'; [by injection E'|]. injection E' as -> ->.
  destruct (free_heap_ok h' fl' _ a (units nbytes) Hok' ltac:(apply lookup_insert_eq)) as (h2 & fl2 & E2 & Hok2 & Hk2 & Hb & Hcov2).
  rewrite delete_insert_id in Hok2, Hk2 by done. exists h2, fl2. split_and!; try done.
  - intros x Hx. destruct (Hk2 x Hx) as [-> ->]. by apply Hk.
  - intros x. rewrite Hcov2. apply Hcov.
Qed.

(** The count of units wraps: asked for one of the last seven sizes, malloc
    finds a single header enough and answers with a block that has no room
    for a byte. *)
Theorem malloc_wraps memory h fl live k : heap_ok h fl live -> fl <> [] -> 1 <= k <= 7 ->
  exists a h', malloc memory (2 ^ 32 - k) h = Some (a + sizeof_Header, h') /\ size h' a = 1.
Proof.
  intros Hok Hne Hk. pose proof (ho_list _ _ _ Hok) as Hfl. pose proof (fl_base _ _ Hfl) as Hbase.
  assert (Hu : units (2 ^ 32 - k) = 1).
  { assert (E : u32 (2 ^ 32 - k + 8 - 1) = 7 - k) by (unfold u32; change (2 ^ 32) with 4294967296; Z.to_euclidean_division_equations; lia).
    unfold units, sizeof_Header. rewrite E, Z.div_small by lia. done. }
  assert (Hz : freep h <> 0) by (pose proof (addrs_below _ _ _ Hfl (fl_freep _ _ Hfl)); lia).
  unfold malloc. rewrite (proj2 (Z.eqb_neq _ _) Hz), Hu.
  destruct (malloc_loop_ok memory h fl 1 Hfl ltac:(lia)) as [[_ HF]|(a & h' & fl' & -> & H1 & H2 & H3 & H4 & H5 & _)].
  { destruct fl as [|b fl]; [done|]. apply Forall_cons in HF as [? _]. pose proof (Forall_inv (fl_units _ _ Hfl)). cbn in *. lia. }
  exists a, h'. split; [|done]. rewrite hplus_small; [by rewrite Z.mul_1_l|..]; pose proof (fl_brk _ _ H1); unfold sizeof_Header in *; lia.
Qed.

End umalloc.

(** ** Concrete runs *)

Definition process (sz : Z) : heap := {| ptr := fun _ => 0; size := fun _ => 0; freep := 0; brk := sz |}.

(** Asked for 2 GB in a fresh process, malloc hands out an address although
    the process has not grown: sbrk takes the size for a negative number. *)
Lemma malloc_past_the_end memory :
  exists h', malloc 64 memory (2 ^ 31) (process 128) = Some (136, h') /\ brk h' = 128.
Proof. eexists. split; vm_compute; reflexivity. Qed.

Definition granted (_ _ : Z) : bool := true.
Definition after_malloc (nbytes : Z) (h : heap) : Z * heap := default (0, h) (malloc 64 granted nbytes h).
Definition one_block : heap := snd (after_malloc 100 (process 128)).
Definition two_blocks : heap := snd (after_malloc 24 one_block).

Lemma fresh_process : fresh 64 (process 128).
Proof. by vm_compute. Qed.

Lemma process_set_up : heap_ok 64 (set_up 64 (process 128)) [] ∅.
Proof. apply fresh_set_up, fresh_process. Qed.

Lemma after_malloc_eq nbytes h : is_Some (malloc 64 granted nbytes h) -> malloc 64 granted nbytes h = Some (after_malloc nbytes h).
Proof. unfold after_malloc. by intros [r ->]. Qed.

Lemma malloc_100 : malloc 64 granted 100 (process 128) = Some (32792, one_block).
Proof. rewrite after_malloc_eq by (vm_compute; eexists; reflexivity). reflexivity. Qed.

Lemma malloc_24 : malloc 64 granted 24 one_block = Some (32760, two_blocks).
Proof. rewrite after_malloc_eq by (vm_compute; eexists; reflexivity). reflexivity. Qed.

Lemma blocks_are_exclusive_witness :
  (fresh 64 (process 128) /\ rtc (step 64 granted) (process 128, ∅) (two_blocks, <[32752 := 4]> {[32784 := 14]})) /\
  size two_blocks 32784 = 14 /\ malloc 64 granted 60 two_blocks <> None.
Proof.
  assert (Hr : rtc (step 64 granted) (process 128, ∅) (two_blocks, <[32752 := 4]> {[32784 := 14]})).
  { eapply rtc_l; [exact (Malloc 64 granted 100 32792 _ _ _ ltac:(lia) malloc_100)|].
    apply rtc_once. exact (Malloc 64 granted 24 32760 _ _ _ ltac:(lia) malloc_24). }
  split; [by split; [apply fresh_process|]|].
  pose proof (blocks_are_exclusive 64 granted _ _ _ fresh_process Hr) as (H1 & _ & H3 & _).
  split; [apply (H1 32784 14); reflexivity|apply H3; lia].
Defined.

Lemma malloc_spec_witness :
  heap_ok 64 (set_up 64 (process 128)) [] ∅ /\
  ((malloc 64 granted 100 (set_up 64 (process 128)) = Some (0, set_up 64 (process 128)) /\ Forall (fun b : Z * Z => snd b < 14) []) \/
   exists a n h' fl', malloc 64 granted 100 (set_up 64 (process 128)) = Some (a + 8, h') /\ 100 <= (n - 1) * 8 < 108 /\
     heap_ok 64 h' fl' (<[a := n]> ∅)).
Proof.
  split; [exact process_set_up|].
  destruct (malloc_spec 64 granted _ _ _ 100 process_set_up ltac:(lia)) as [H|(a & n & h' & fl' & H1 & H2 & _ & H4 & _)]; [by left|].
  right. exists a, n, h', fl'. split; [exact H1|]. split; [exact H2|exact H4].
Defined.

Lemma free_undoes_malloc_witness :
  heap_ok 64 (set_up 64 (process 128)) [] ∅ /\
  exists h2 fl2, free 32792 one_block = Some h2 /\ heap_ok 64 h2 fl2 ∅ /\ brk h2 = 32896.
Proof.
  split; [exact process_set_up|].
  assert (E : malloc 64 granted 100 (set_up 64 (process 128)) = Some (32792, one_block)).
  { rewrite <- (proj2 (fresh_set_up 64 (process 128) fresh_process)). exact malloc_100. }
  destruct (free_undoes_malloc 64 granted _ _ _ 100 _ _ process_set_up ltac:(lia) E ltac:(lia)) as (h2 & fl2 & H1 & H2 & _ & H3 & _).
  exists h2, fl2. split; [exact H1|]. split; [exact H2|]. rewrite H3. vm_compute. reflexivity.
Defined.

Lemma one_block_ok : exists fl live, heap_ok 64 one_block fl live /\ fl <> [].
Proof.
  destruct (malloc_heap_ok 64 granted _ _ _ 100 process_set_up ltac:(lia)) as [[E _]|(a & h' & fl' & E & Hp & _ & _ & Hok & _)];
    rewrite <- (proj2 (fresh_set_up 64 (process 128) fresh_process)), malloc_100 in E; [by injection E|].
  injection E as _ <-. exists fl', (<[a := units 100]> ∅). split; [exact Hok|]. intros ->.
  pose proof (fl_linked _ _ _ (ho_list _ _ _ _ Hok)) as [HL _]. vm_compute in HL. discriminate.
Qed.

Lemma malloc_wraps_witness : exists a h', malloc 64 granted (2 ^ 32 - 1) one_block = Some (a + 8, h') /\ size h' a = 1.
Proof. destruct one_block_ok as (fl & live & Hok & Hne). exact (malloc_wraps 64 granted _ _ _ 1 Hok Hne ltac:(lia)). Defined.
