(* ===== verification/Ide.v ===== *)
(** * The disk driver (ide.c)

    The request queue of the IDE driver, with the controller behind its
    ports as an interface: [Ata] has the port operations, [AtaLaws] what the
    driver relies on of the ATA protocol, and [emulator] is a controller that
    keeps the laws.  The driver is shown to serve the requests in the order
    in which they came, each with the effect that the buffer cache expects of
    iderw (Bio.v); memide.c and ide.c are interchangeable there.  Buffers are
    those of Bio.v; qnext is a field of its own.  A wait for the disk that
    outlives its fuel has no result. *)

From S2P Require Import Prelude Mem Block Bio.
#[local] Open Scope Z_scope.
#[local] Open Scope kernel_scope.

Definition SECTOR_SIZE : Z := 512.
Definition IDE_BSY : Z := 0x80.
Definition IDE_DRDY : Z := 0x40.
Definition IDE_DF : Z := 0x20.
Definition IDE_ERR : Z := 0x01.
Definition IDE_CMD_READ : Z := 0x20.
Definition IDE_CMD_WRITE : Z := 0x30.
Definition IDE_CMD_RDMUL : Z := 0xc4.
Definition IDE_CMD_WRMUL : Z := 0xc5.
Definition FSSIZE : Z := 1000.

(** The ports of a controller.  [outsl] and [insl] move the BSIZE / 4 words
    of one block; [finish] is the controller's own work up to its interrupt. *)
Class Ata (D : Type) := {
  outb : Z -> Z -> D -> D;
  inb : Z -> D -> Z * D;
  outsl : Z -> block -> D -> D;
  insl : Z -> D -> block * D;
  finish : D -> D }.

Section driver.
Context {D : Type} `{Ata D}.

Record ide := {
  bufs : nat -> buf;
  qnext : nat -> option nat;
  idequeue : option nat;
  havedisk1 : bool;
  asleep : nat -> bool;    (* a process sleeps on the buffer in iderw *)
  port : D }.

Definition with_buf (i : nat) (b : buf) (s : ide) : ide :=
  {| bufs := <[i := b]> (bufs s); qnext := qnext s; idequeue := idequeue s; havedisk1 := havedisk1 s; asleep := asleep s; port := port s |}.
Definition with_qnext (i : nat) (x : option nat) (s : ide) : ide :=
  {| bufs := bufs s; qnext := <[i := x]> (qnext s); idequeue := idequeue s; havedisk1 := havedisk1 s; asleep := asleep s; port := port s |}.
Definition with_queue (x : option nat) (s : ide) : ide :=
  {| bufs := bufs s; qnext := qnext s; idequeue := x; havedisk1 := havedisk1 s; asleep := asleep s; port := port s |}.
Definition with_disk1 (x : bool) (s : ide) : ide :=
  {| bufs := bufs s; qnext := qnext s; idequeue := idequeue s; havedisk1 := x; asleep := asleep s; port := port s |}.
Definition with_asleep (i : nat) (x : bool) (s : ide) : ide :=
  {| bufs := bufs s; qnext := qnext s; idequeue := idequeue s; havedisk1 := havedisk1 s; asleep := <[i := x]> (asleep s); port := port s |}.
Definition with_port (d : D) (s : ide) : ide :=
  {| bufs := bufs s; qnext := qnext s; idequeue := idequeue s; havedisk1 := havedisk1 s; asleep := asleep s; port := d |}.

Definition I : Type -> Type := K ide.

Definition out (p v : Z) : I unit := modify (fun s => with_port (outb p v (port s)) s).
Definition in_ (p : Z) : I Z := fun s => let '(v, d) := inb p (port s) in Ok v (with_port d s).
Definition out_data (p : Z) (b : block) : I unit := modify (fun s => with_port (outsl p b (port s)) s).
Definition in_data (p : Z) : I block := fun s => let '(b, d) := insl p (port s) in Ok b (with_port d s).

(** The wait for DRDY without BSY; the bound is on the reads of the status. *)
Fixpoint idewait_loop (fuel : nat) (checkerr : bool) : I Z :=
  match fuel with
  | O => nofuel
  | S fuel =>
      r <- in_ 0x1f7 ;;
      if negb (Z.land r (Z.lor IDE_BSY IDE_DRDY) =? IDE_DRDY) then idewait_loop fuel checkerr
      else kret (if checkerr && negb (Z.land r (Z.lor IDE_DF IDE_ERR) =? 0) then -1 else 0)
  end.

Variable patience : nat.
Definition idewait (checkerr : bool) : I Z := idewait_loop patience checkerr.

(** The search for disk 1, then back to disk 0. *)
Fixpoint ideinit_loop (n : nat) : I unit :=
  match n with
  | O => kret tt
  | S n => r <- in_ 0x1f7 ;; if negb (r =? 0) then modify (with_disk1 true) else ideinit_loop n
  end.

Definition ideinit : I unit :=
  idewait false ;;;
  out 0x1f6 (Z.lor 0xe0 (Z.shiftl 1 4)) ;;;
  ideinit_loop 1000 ;;;
  out 0x1f6 (Z.lor 0xe0 (Z.shiftl 0 4)).

Definition sector_per_block : Z := BSIZE / SECTOR_SIZE.

Definition idestart (i : option nat) : I unit :=
  match i with
  | None => panic "idestart"
  | Some i =>
      b <- gets (fun s => bufs s i) ;;
      if FSSIZE <=? blockno b then panic "incorrect blockno"
      else
        let sector := s32 (u32 (blockno b * sector_per_block)) in
        let read_cmd := if sector_per_block =? 1 then IDE_CMD_READ else IDE_CMD_RDMUL in
        let write_cmd := if sector_per_block =? 1 then IDE_CMD_WRITE else IDE_CMD_WRMUL in
        if 7 <? sector_per_block then panic "idestart"
        else
          idewait false ;;;
          out 0x3f6 0 ;;;
          out 0x1f2 sector_per_block ;;;
          out 0x1f3 (Z.land sector 0xff) ;;;
          out 0x1f4 (Z.land (Z.shiftr sector 8) 0xff) ;;;
          out 0x1f5 (Z.land (Z.shiftr sector 16) 0xff) ;;;
          out 0x1f6 (u8 (Z.lor 0xe0 (Z.lor (Z.shiftl (Z.land (dev b) 1) 4) (Z.land (Z.shiftr sector 24) 0x0f)))) ;;;
          (if B_DIRTY b then
             out 0x1f7 write_cmd ;;;
             out_data 0x1f0 (bdata b)
           else out 0x1f7 read_cmd)
  end.

(** The interrupt handler, under idelock. *)
Definition ideintr : I unit :=
  q <- gets idequeue ;;
  match q with
  | None => kret tt
  | Some i =>
      n <- gets (fun s => qnext s i) ;;
      modify (with_queue n) ;;;
      b <- gets (fun s => bufs s i) ;;
      (if negb (B_DIRTY b) then
         r <- idewait true ;;
         if 0 <=? r then d <- in_data 0x1f0 ;; modify (fun s => with_buf i (set_data d (bufs s i)) s) else kret tt
       else kret tt) ;;;
      modify (fun s => with_buf i (set_flags true (B_DIRTY (bufs s i)) (bufs s i)) s) ;;;
      modify (fun s => with_buf i (set_flags (B_VALID (bufs s i)) false (bufs s i)) s) ;;;
      modify (with_asleep i false) ;;;
      q <- gets idequeue ;;
      match q with Some _ => idestart q | None => kret tt end
  end.

(** The link at the end of the queue: [None] is idequeue itself. *)
Definition link (s : ide) (pp : option nat) : option nat := match pp with None => idequeue s | Some x => qnext s x end.
Fixpoint queue_end (fuel : nat) (pp : option nat) : I (option nat) :=
  match fuel with
  | O => nofuel
  | S fuel => v <- gets (fun s => link s pp) ;; match v with None => kret pp | Some x => queue_end fuel (Some x) end
  end.
Definition set_link (pp v : option nat) : I unit :=
  modify (match pp with None => with_queue v | Some x => with_qnext x v end).

(** [b] at the end of the queue. *)
Definition append (i : nat) : I unit :=
  modify (with_qnext i None) ;;; pp <- queue_end (S NBUF) None ;; set_link pp (Some i).

Definition holdingsleep (pid : Z) (i : nat) : I bool :=
  l <- gets (fun s => lock (bufs s i)) ;; kret (sl_locked l && (sl_pid l =? pid)).

(** The condition of the loop at the end of iderw: true when it ends, false
    when the process sleeps (again). *)
Definition iderw_wait (i : nat) : I bool :=
  b <- gets (fun s => bufs s i) ;;
  if B_VALID b && negb (B_DIRTY b) then kret true else modify (with_asleep i true) ;;; kret false.

(** iderw up to its first test of the loop. *)
Definition iderw (pid : Z) (i : nat) : I bool :=
  h <- holdingsleep pid i ;;
  if negb h then panic "iderw: buf not locked"
  else
    b <- gets (fun s => bufs s i) ;;
    if B_VALID b && negb (B_DIRTY b) then panic "iderw: nothing to do"
    else
      d1 <- gets havedisk1 ;;
      if negb (dev b =? 0) && negb d1 then panic "iderw: ide disk 1 not present"
      else
        append i ;;;
        q <- gets idequeue ;;
        (if bool_decide (q = Some i) then idestart (Some i) else kret tt) ;;;
        iderw_wait i.
End driver.

Arguments ide D : clear implicits.

(** ** The protocol *)

Inductive request := Read (dr lba : Z) | Write (dr lba : Z) (data : block).

(** The registers that name a sector, and the two ways to go on. *)
Definition select {D} `{Ata D} (dr lba : Z) (d : D) : D :=
  outb 0x1f6 (u8 (Z.lor 0xe0 (Z.lor (Z.shiftl dr 4) (Z.land (Z.shiftr lba 24) 0x0f))))
    (outb 0x1f5 (Z.land (Z.shiftr lba 16) 0xff) (outb 0x1f4 (Z.land (Z.shiftr lba 8) 0xff) (outb 0x1f3 (Z.land lba 0xff)
      (outb 0x1f2 1 (outb 0x3f6 0 d))))).
Definition command {D} `{Ata D} (r : request) (d : D) : D :=
  match r with
  | Read dr lba => outb 0x1f7 IDE_CMD_READ (select dr lba d)
  | Write dr lba data => outsl 0x1f0 data (outb 0x1f7 IDE_CMD_WRITE (select dr lba d))
  end.

Definition ready (r : Z) : Prop := Z.land r (Z.lor IDE_BSY IDE_DRDY) = IDE_DRDY.
Definition failed (r : Z) : Prop := Z.land r (Z.lor IDE_DF IDE_ERR) <> 0.

Definition after (r : request) (disk : Z -> Z -> block) (dr lba : Z) : block :=
  match r with
  | Read _ _ => disk dr lba
  | Write dr' lba' data => if (dr =? dr') && (lba =? lba') then data else disk dr lba
  end.

(** What the driver relies on: an idle controller is ready and takes a
    command; it works on it up to its interrupt; a write is then done; after
    a read the status tells whether the sector could be read, and if so insl
    delivers it. *)
Class AtaLaws (D : Type) `{Ata D} := {
  sectors : D -> Z -> Z -> block;
  unreadable : D -> Z -> Z -> bool;
  idle : D -> Prop;
  working : D -> request -> Prop;
  done_with : D -> request -> Prop;
  idle_status d : idle d -> exists r d', inb 0x1f7 d = (r, d') /\ ready r /\ idle d' /\
    (forall dr lba, sectors d' dr lba = sectors d dr lba) /\ (forall dr lba, unreadable d' dr lba = unreadable d dr lba);
  command_accepted d r : idle d -> (match r with Read dr lba | Write dr lba _ => 0 <= dr <= 1 /\ 0 <= lba < 2 ^ 28 end) ->
    working (command r d) r /\ (forall dr lba, sectors (command r d) dr lba = sectors d dr lba) /\
    (forall dr lba, unreadable (command r d) dr lba = unreadable d dr lba);
  work_done d r : working d r -> done_with (finish d) r /\ (forall dr lba, sectors (finish d) dr lba = after r (sectors d) dr lba) /\
    (forall dr lba, unreadable (finish d) dr lba = unreadable d dr lba);
  write_done d dr lba data : done_with d (Write dr lba data) -> idle d;
  read_done d dr lba : done_with d (Read dr lba) ->
    exists r d', inb 0x1f7 d = (r, d') /\ ready r /\ (forall dr lba, sectors d' dr lba = sectors d dr lba) /\
      (forall dr lba, unreadable d' dr lba = unreadable d dr lba) /\
      if unreadable d dr lba then failed r /\ idle d' else
        ~ failed r /\ exists d'', insl 0x1f0 d' = (sectors d dr lba, d'') /\ idle d'' /\
          (forall dr lba, sectors d'' dr lba = sectors d dr lba) /\ (forall dr lba, unreadable d'' dr lba = unreadable d dr lba) }.

(** ** The promise: a queue of requests served one at a time *)

Record service := { sbufs : nat -> buf; sdisk : Z -> Z -> block; squeue : list nat }.

Definition request_of (b : buf) : request :=
  if B_DIRTY b then Write (dev b) (blockno b) (bdata b) else Read (dev b) (blockno b).
Definition served (disk : Z -> Z -> block) (b : buf) : buf :=
  set_flags true false (if B_DIRTY b then b else set_data (disk (dev b) (blockno b)) b).

Definition submit (i : nat) (a : service) : service := {| sbufs := sbufs a; sdisk := sdisk a; squeue := squeue a ++ [i] |}.
Definition serve (a : service) : service :=
  match squeue a with
  | [] => a
  | i :: q => {| sbufs := <[i := served (sdisk a) (sbufs a i)]> (sbufs a); sdisk := after (request_of (sbufs a i)) (sdisk a); squeue := q |}
  end.

(** A buffer with which iderw may be called. *)
Definition request_ok (b : buf) : Prop :=
  0 <= dev b <= 1 /\ 0 <= blockno b < FSSIZE /\ B_VALID b && negb (B_DIRTY b) = false.

Section refinement.
Context {D : Type} `{AtaLaws D}.

Fixpoint qlist (s : ide D) (x : option nat) (l : list nat) : Prop :=
  match l with [] => x = None | i :: l => x = Some i /\ qlist s (qnext s i) l end.

Record refines (s : ide D) (a : service) : Prop := {
  rf_bufs : forall i, bufs s i = sbufs a i;
  rf_queue : qlist s (idequeue s) (squeue a);
  rf_nodup : NoDup (squeue a);
  rf_range : Forall (fun i => (i < NBUF)%nat) (squeue a);
  rf_ok : Forall (fun i => request_ok (sbufs a i)) (squeue a);
  rf_disk : forall dr lba, sectors (port s) dr lba = sdisk a dr lba;
  rf_port : match squeue a with [] => idle (port s) | i :: _ => working (port s) (request_of (sbufs a i)) end;
  rf_asleep : forall i, asleep s i = true -> i ∈ squeue a }.

Context (patience : nat) (Hpatience : (1 <= patience)%nat).

Lemma idewait_ready checkerr s r d : inb 0x1f7 (port s) = (r, d) -> ready r ->
  idewait patience checkerr s = Ok (if checkerr && negb (Z.land r (Z.lor IDE_DF IDE_ERR) =? 0) then -1 else 0) (with_port d s).
Proof.
  intros E Hr. unfold idewait. destruct patience as [|n]; [lia|]. cbn [idewait_loop]. unfold kbind, in_. rewrite E.
  unfold ready in Hr. by rewrite Hr.
Qed.

Lemma sector_small bn : 0 <= bn < FSSIZE -> s32 (u32 (bn * sector_per_block)) = bn.
Proof.
  intros Hb. change sector_per_block with 1. rewrite Z.mul_1_r. unfold FSSIZE in Hb.
  rewrite u32_small, s32_small by (unfold is_u32, is_s32; lia). done.
Qed.

Lemma land_dev v : 0 <= v <= 1 -> Z.land v 1 = v.
Proof. intros Hv. by assert (v = 0 \/ v = 1) as [-> | ->] by lia. Qed.

(** idestart on an idle controller hands it the request of the buffer. *)
Lemma idestart_ok i s : idle (port s) -> request_ok (bufs s i) ->
  exists d, idestart patience (Some i) s = Ok tt (with_port d s) /\ working d (request_of (bufs s i)) /\
    (forall dr lba, sectors d dr lba = sectors (port s) dr lba) /\ (forall dr lba, unreadable d dr lba = unreadable (port s) dr lba).
Proof.
  intros Hi (Hd & Hb & _). destruct (idle_status _ Hi) as (r & d1 & Ein & Hr & Hi1 & Hs1 & Hu1).
  destruct (command_accepted d1 (request_of (bufs s i)) Hi1) as (Hw & Hs2 & Hu2).
  { unfold request_of. unfold FSSIZE in Hb. destruct (B_DIRTY _); lia. }
  exists (command (request_of (bufs s i)) d1). split_and!; [|done|intros; by rewrite Hs2|intros; by rewrite Hu2].
  unfold idestart. rewrite (kbind_ok _ _ s (bufs s i) s) by done.
  rewrite (proj2 (Z.leb_gt _ _)), sector_small by lia. change (7 <? sector_per_block) with false. change (sector_per_block =? 1) with true. cbn iota.
  rewrite (kbind_ok _ _ s 0 (with_port d1 s)) by exact (idewait_ready false s r d1 Ein Hr).
  unfold kbind, out, out_data, modify, request_of, command, select. rewrite land_dev by lia. cbn [port with_port].
  destruct (B_DIRTY (bufs s i)); done.
Qed.

(** ** The list of requests *)

Lemma qlist_ext s s' x l : (forall i, i ∈ l -> qnext s' i = qnext s i) -> qlist s x l -> qlist s' x l.
Proof.
  revert x. induction l as [|i l IH]; intros x Hq; cbn; [done|]. intros [-> Hl]. split; [done|].
  rewrite Hq by set_solver. apply IH; [|done]. intros j Hj. apply Hq. set_solver.
Qed.

Lemma queue_end_ok s l fuel pp : qlist s (link s pp) l -> (length l < fuel)%nat ->
  queue_end fuel pp s = Ok (match last l with Some x => Some x | None => pp end) s.
Proof.
  revert pp l. induction fuel as [|fuel IH]; intros pp l Hq Hl; [lia|]. cbn [queue_end].
  rewrite (kbind_ok _ _ s (link s pp) s) by done. destruct l as [|i l]; cbn [qlist] in Hq.
  - by rewrite Hq.
  - destruct Hq as [-> Hq]. cbn [length] in Hl. rewrite (IH (Some i) l Hq) by lia. destruct l as [|j l]; [done|]. change (last (i :: j :: l)) with (last (j :: l)).
    destruct (last (j :: l)) eqn:E; [done|]. by apply last_None in E.
Qed.

Lemma qlist_append s x y l i : qlist s x (l ++ [y]) -> NoDup (l ++ [y]) -> qnext s i = None -> i ∉ l ++ [y] ->
  qlist (with_qnext y (Some i) s) x ((l ++ [y]) ++ [i]).
Proof.
  revert x. induction l as [|j l IH]; intros x; cbn [app qlist].
  - intros [-> _] _ Hi Hn. cbn. rewrite fn_lookup_insert, fn_lookup_insert_ne by set_solver. done.
  - intros [-> Hq] [Hj Hnd]%NoDup_cons Hi Hn. split; [done|]. cbn [qnext with_qnext].
    rewrite fn_lookup_insert_ne by set_solver. apply IH; [done|done|done|set_solver].
Qed.

Lemma short_queue l : NoDup l -> Forall (fun i => (i < NBUF)%nat) l -> (length l < S NBUF)%nat.
Proof.
  intros Hnd Hr. apply Nat.lt_succ_r. replace NBUF with (length (seq 0 NBUF)) by apply length_seq. apply submseteq_length, NoDup_submseteq; [done|].
  intros i Hi. rewrite Forall_forall in Hr. apply elem_of_seq. specialize (Hr i Hi). lia.
Qed.

Lemma append_ok s l i : qlist s (idequeue s) l -> NoDup l -> Forall (fun i => (i < NBUF)%nat) l -> i ∉ l ->
  exists s', append i s = Ok tt s' /\ qlist s' (idequeue s') (l ++ [i]) /\ bufs s' = bufs s /\ havedisk1 s' = havedisk1 s /\
    asleep s' = asleep s /\ port s' = port s.
Proof.
  intros Hq Hnd Hr Hi. unfold append. set (s1 := with_qnext i None s).
  assert (Hq1 : qlist s1 (link s1 None) l).
  { apply (qlist_ext s); [|done]. intros j Hj. cbn. rewrite fn_lookup_insert_ne; [done|]. by intros ->. }
  rewrite (kbind_ok _ _ s tt s1) by done.
  rewrite (kbind_ok _ _ _ _ _ (queue_end_ok s1 l (S NBUF) None Hq1 (short_queue l Hnd Hr))).
  assert (Hn : qnext s1 i = None) by apply fn_lookup_insert.
  destruct l as [|y l _] using rev_ind.
  - exists (with_queue (Some i) s1). by split_and!.
  - rewrite last_snoc. exists (with_qnext y (Some i) s1). split_and!; try done. by apply qlist_append.
Qed.

(** ** Each operation does its part of the service *)

Lemma iderw_refines pid i s a : refines s a -> request_ok (bufs s i) -> (i < NBUF)%nat -> i ∉ squeue a ->
  sl_locked (lock (bufs s i)) = true -> sl_pid (lock (bufs s i)) = pid -> dev (bufs s i) = 0 \/ havedisk1 s = true ->
  exists s', iderw patience pid i s = Ok false s' /\ refines s' (submit i a) /\ havedisk1 s' = havedisk1 s /\
    (forall dr lba, unreadable (port s') dr lba = unreadable (port s) dr lba).
Proof.
  intros Hrf Hok Hi Hn Hl Hp Hd. pose proof Hrf as [Hb Hq Hnd Hr Hks Hdisk Hport Ha].
  destruct (append_ok s (squeue a) i Hq Hnd Hr Hn) as (s1 & Eapp & Hq1 & Hb1 & Hd1 & Ha1 & Hp1).
  assert (Hok2 := Hok). destruct Hok2 as (_ & _ & Hneed).
  unfold iderw, holdingsleep. rewrite (kbind_ok _ _ s true s).
  2: { unfold kbind, gets, kret. by rewrite Hl, Hp, Z.eqb_refl. }
  cbn [negb]. rewrite (kbind_ok _ _ s (bufs s i) s) by done. rewrite Hneed. rewrite (kbind_ok _ _ s (havedisk1 s) s) by done.
  replace (negb (dev (bufs s i) =? 0) && negb (havedisk1 s)) with false by (destruct Hd as [-> | ->]; cbn; [done|by rewrite andb_false_r]).
  rewrite (kbind_ok _ _ _ _ _ Eapp), (kbind_ok _ _ s1 (idequeue s1) s1) by done.
  assert (Hmid : exists d, (if bool_decide (idequeue s1 = Some i) then idestart patience (Some i) else kret tt) s1 = Ok tt (with_port d s1) /\
    (match squeue a ++ [i] with [] => idle d | j :: _ => working d (request_of (sbufs a j)) end) /\
    (forall dr lba, sectors d dr lba = sectors (port s) dr lba) /\ (forall dr lba, unreadable d dr lba = unreadable (port s) dr lba)).
  { destruct (squeue a) as [|j l]; cbn [app qlist] in *.
    - destruct Hq1 as [-> _]. rewrite bool_decide_eq_true_2 by done. rewrite <- Hp1, <- Hb, <- Hb1. apply idestart_ok; [by rewrite Hp1|by rewrite Hb1].
    - destruct Hq1 as [-> _]. rewrite bool_decide_eq_false_2 by (intros [= ->]; set_solver).
      exists (port s). split_and!; [|done|done|done]. rewrite <- Hp1. by destruct s1. }
  destruct Hmid as (d & Es & Hw & Hs & Hu). rewrite (kbind_ok _ _ _ _ _ Es).
  exists (with_asleep i true (with_port d s1)). split_and!; [|split|done|done].
  - unfold iderw_wait, kbind, gets. cbn [bufs with_port]. rewrite Hb1, Hneed. done.
  - cbn. intros j. by rewrite Hb1.
  - cbn [submit squeue]. eapply qlist_ext; [|exact Hq1]. done.
  - cbn [submit squeue]. apply NoDup_app. split; [done|]. split; [set_solver|]. apply NoDup_singleton.
  - cbn [submit squeue]. apply Forall_app. split; [done|]. by constructor.
  - cbn [submit squeue sbufs]. apply Forall_app. split; [done|]. constructor; [by rewrite <- Hb|done].
  - cbn [submit sdisk]. intros dr lba. cbn. by rewrite Hs.
  - exact Hw.
  - cbn [submit squeue asleep with_asleep with_port]. intros j. rewrite Ha1. destruct (decide (j = i)) as [->|Hne]; [set_solver|].
    rewrite fn_lookup_insert_ne by done. intros ?%Ha. set_solver.
Qed.

Definition can_read (s : ide D) (i : nat) : Prop :=
  B_DIRTY (bufs s i) = true \/ unreadable (port s) (dev (bufs s i)) (blockno (bufs s i)) = false.

(** The transfer at the head of ideintr. *)
Definition transfer (i : nat) (b : buf) : K (ide D) unit :=
  if negb (B_DIRTY b) then
    r <- idewait patience true ;;
    if 0 <=? r then d <- in_data 0x1f0 ;; modify (fun s => with_buf i (set_data d (bufs s i)) s) else kret tt
  else kret tt.

Lemma transfer_ok s i : done_with (port s) (request_of (bufs s i)) -> can_read s i ->
  exists d, transfer i (bufs s i) s = Ok tt (with_port d (if B_DIRTY (bufs s i) then s else
      with_buf i (set_data (sectors (port s) (dev (bufs s i)) (blockno (bufs s i))) (bufs s i)) s)) /\ idle d /\
    (forall dr lba, sectors d dr lba = sectors (port s) dr lba) /\ (forall dr lba, unreadable d dr lba = unreadable (port s) dr lba).
Proof.
  unfold transfer, request_of, can_read. destruct (B_DIRTY (bufs s i)); cbn [negb].
  - intros Hw%write_done _. exists (port s). split_and!; try done. by destruct s.
  - intros Hr [|Hu]; [done|]. destruct (read_done _ _ _ Hr) as (r & d1 & E1 & Hrd & Hs1 & Hu1 & Hk). rewrite Hu in Hk.
    destruct Hk as (Hnf & d2 & E2 & Hi & Hs2 & Hu2). exists d2. split_and!; try done.
    rewrite (kbind_ok _ _ _ _ _ (idewait_ready true s r d1 E1 Hrd)).
    replace (negb (Z.land r (Z.lor IDE_DF IDE_ERR) =? 0)) with false by (symmetry; apply negb_false_iff, Z.eqb_eq; unfold failed in Hnf; lia).
    cbn [andb]. change (0 <=? 0) with true. cbn iota. unfold kbind, in_data. cbn [port with_port]. by rewrite E2.
Qed.

Lemma transfer_failed s i : done_with (port s) (request_of (bufs s i)) -> ~ can_read s i ->
  exists d, transfer i (bufs s i) s = Ok tt (with_port d s) /\ idle d /\
    (forall dr lba, sectors d dr lba = sectors (port s) dr lba) /\ (forall dr lba, unreadable d dr lba = unreadable (port s) dr lba).
Proof.
  unfold transfer, request_of, can_read. intros Hr Hc. destruct (B_DIRTY (bufs s i)); cbn [negb]; [by destruct Hc; left|].
  destruct (unreadable _ _ _) eqn:Hu; [|by destruct Hc; right].
  destruct (read_done _ _ _ Hr) as (r & d1 & E1 & Hrd & Hs1 & Hu1 & Hk). rewrite Hu in Hk. destruct Hk as [Hf Hi].
  exists d1. split_and!; try done. rewrite (kbind_ok _ _ _ _ _ (idewait_ready true s r d1 E1 Hrd)).
  replace (negb (Z.land r (Z.lor IDE_DF IDE_ERR) =? 0)) with true by (symmetry; apply negb_true_iff, Z.eqb_neq; exact Hf).
  done.
Qed.

Lemma kbind_modify {A} (f : ide D -> ide D) (k : unit -> K (ide D) A) s : kbind (modify f) k s = k tt (f s).
Proof. done. Qed.

(** What ideintr does after the transfer. *)
Definition complete (i : nat) : K (ide D) unit :=
  modify (fun s => with_buf i (set_flags true (B_DIRTY (bufs s i)) (bufs s i)) s) ;;;
  modify (fun s => with_buf i (set_flags (B_VALID (bufs s i)) false (bufs s i)) s) ;;;
  modify (with_asleep i false) ;;;
  q <- gets idequeue ;;
  match q with Some _ => idestart patience q | None => kret tt end.

Lemma ideintr_eq s i : idequeue s = Some i ->
  ideintr patience s = (transfer i (bufs s i) ;;; complete i) (with_queue (qnext s i) s).
Proof. intros E. unfold ideintr. rewrite (kbind_ok _ _ s (Some i) s); [done|]. unfold gets. by rewrite E. Qed.

Lemma complete_ok s i b l : idle (port s) -> bufs s i = b ->
  qlist s (idequeue s) l -> Forall (fun j => request_ok (bufs s j)) l -> i ∉ l ->
  exists s', complete i s = Ok tt s' /\ (forall j, bufs s' j = (<[i := set_flags true false b]> (bufs s)) j) /\
    qnext s' = qnext s /\ idequeue s' = idequeue s /\ havedisk1 s' = havedisk1 s /\ asleep s' = <[i := false]> (asleep s) /\
    (match l with [] => idle (port s') | j :: _ => working (port s') (request_of (bufs s j)) end) /\
    (forall dr lba, sectors (port s') dr lba = sectors (port s) dr lba) /\ (forall dr lba, unreadable (port s') dr lba = unreadable (port s) dr lba).
Proof.
  intros Hid Hb Hq Hok Hn. unfold complete. rewrite !kbind_modify.
  set (s1 := with_asleep i false _). rewrite (kbind_ok _ _ s1 (idequeue s) s1) by done.
  assert (Hb1 : forall j, bufs s1 j = (<[i := set_flags true false b]> (bufs s)) j).
  { intros j. cbn. destruct (decide (j = i)) as [->|Hne]; [|by rewrite !fn_lookup_insert_ne by done].
    rewrite !fn_lookup_insert. by rewrite Hb. }
  assert (Hsame : forall j, j ∈ l -> bufs s1 j = bufs s j).
  { intros j Hj. rewrite Hb1, fn_lookup_insert_ne; [done|]. by intros ->. }
  destruct l as [|j l]; cbn [qlist] in Hq.
  - rewrite Hq. exists s1. split_and!; done.
  - destruct Hq as [Hj Hq]. rewrite Hj. rewrite Forall_cons in Hok. destruct Hok as [Hok _].
    destruct (idestart_ok j s1) as (d & Ed & Hw & Hs & Hu); [done|by rewrite Hsame by set_solver|].
    exists (with_port d s1). rewrite Hsame in Hw by set_solver. split_and!; done.
Qed.

(** The controller finishes the request it works on and raises its
    interrupt. *)
Definition interrupt : K (ide D) unit := fun s => ideintr patience (with_port (finish (port s)) s).

(** How one interrupt runs, the sector readable or not. *)
Lemma interrupt_runs s a i q : refines s a -> squeue a = i :: q ->
  exists s', interrupt s = Ok tt s' /\ refines s' {|
      sbufs := <[i := set_flags true false (if bool_decide (can_read s i) then served (sdisk a) (sbufs a i) else sbufs a i)]> (sbufs a);
      sdisk := after (request_of (sbufs a i)) (sdisk a); squeue := q |} /\
    asleep s' i = false /\ havedisk1 s' = havedisk1 s /\ (forall dr lba, unreadable (port s') dr lba = unreadable (port s) dr lba).
Proof.
  intros Hrf Eq. destruct Hrf as [Hb Hq Hnd Hr Hks Hdisk Hport Ha]. rewrite Eq in *. cbn [qlist] in Hq. destruct Hq as [Hq1 Hq].
  apply NoDup_cons in Hnd as [Hni Hnd]. apply Forall_cons in Hr as [Hi Hr]. apply Forall_cons in Hks as [Hoki Hks].
  destruct (work_done _ _ Hport) as (Hdone & Hsec & Hun).
  set (s1 := with_queue (qnext s i) (with_port (finish (port s)) s)).
  assert (Hcr : can_read s1 i <-> can_read s i) by (unfold can_read; cbn; by rewrite Hun).
  rewrite <- Hb in Hdone.
  assert (Hmid : exists s2, transfer i (bufs s1 i) s1 = Ok tt s2 /\ idle (port s2) /\
      (forall dr lba, sectors (port s2) dr lba = sectors (port s1) dr lba) /\ (forall dr lba, unreadable (port s2) dr lba = unreadable (port s1) dr lba) /\
      (forall j, bufs s2 j = (<[i := if bool_decide (can_read s i) && negb (B_DIRTY (bufs s i))
        then set_data (sectors (port s1) (dev (bufs s i)) (blockno (bufs s i))) (bufs s i) else bufs s i]> (bufs s)) j) /\
      qnext s2 = qnext s1 /\ idequeue s2 = idequeue s1 /\ havedisk1 s2 = havedisk1 s1 /\ asleep s2 = asleep s1).
  { case_bool_decide as Hc; cbn [andb].
    - destruct (transfer_ok s1 i Hdone (proj2 Hcr Hc)) as (d & Et & Hid & Hs & Hu). eexists. split; [exact Et|].
      change (bufs s1 i) with (bufs s i). destruct (B_DIRTY (bufs s i)); cbn [negb]; (split_and!; [done|done|done| |done..]).
      + intros j. cbn. destruct (decide (j = i)) as [->|]; [by rewrite fn_lookup_insert|by rewrite fn_lookup_insert_ne].
      + done.
    - destruct (transfer_failed s1 i Hdone (fun h => Hc (proj1 Hcr h))) as (d & Et & Hid & Hs & Hu). eexists. split; [exact Et|].
      split_and!; [done|done|done| |done..].
      intros j. cbn. destruct (decide (j = i)) as [->|]; [by rewrite fn_lookup_insert|by rewrite fn_lookup_insert_ne]. }
  destruct Hmid as (s2 & Et & Hid2 & Hs2 & Hu2 & Hb2 & Hn2 & Hq2 & Hd2 & Ha2).
  assert (Hother : forall j, j ∈ q -> bufs s2 j = bufs s j).
  { intros j Hj. rewrite Hb2, fn_lookup_insert_ne; [done|]. by intros ->. }
  destruct (complete_ok s2 i (bufs s2 i) q Hid2 eq_refl) as (s' & Ec & Hb' & Hn' & Hq' & Hd' & Ha' & Hp' & Hs' & Hu').
  { rewrite Hq2. eapply qlist_ext; [|exact Hq]. intros j _. by rewrite Hn2. }
  { rewrite Forall_forall in *. intros j Hj. rewrite Hother, Hb by done. by apply Hks. }
  { done. }
  exists s'. split_and!.
  - unfold interrupt. rewrite (ideintr_eq _ i) by exact Hq1. rewrite (kbind_ok _ _ _ _ _ Et). exact Ec.
  - split; cbn [sbufs sdisk squeue].
    + intros j. rewrite Hb'. destruct (decide (j = i)) as [->|Hne]; [|rewrite !fn_lookup_insert_ne by done; rewrite Hb2, fn_lookup_insert_ne by done; apply Hb].
      rewrite !fn_lookup_insert, Hb2, fn_lookup_insert. unfold served. rewrite <- !Hb.
      cbn [s1 port with_queue with_port]. rewrite Hsec. unfold after, request_of. rewrite <- !Hb.
      case_bool_decide; destruct (B_DIRTY (bufs s i)) eqn:Ed; cbn [andb negb]; rewrite ?Hdisk; done.
    + rewrite Hq', Hq2. eapply qlist_ext; [|exact Hq]. intros j _. by rewrite Hn', Hn2.
    + done.
    + done.
    + rewrite Forall_forall in *. intros j Hj. rewrite fn_lookup_insert_ne by (by intros ->). by apply Hks.
    + intros dr lba. rewrite Hs', Hs2. cbn [s1 port with_queue with_port]. rewrite Hsec. unfold after. destruct (request_of _); rewrite ?Hdisk; done.
    + destruct q as [|j q]; [done|]. rewrite Hother, Hb in Hp' by set_solver. rewrite fn_lookup_insert_ne by set_solver. done.
    + intros j. rewrite Ha', Ha2. destruct (decide (j = i)) as [->|]; [by rewrite fn_lookup_insert|].
      rewrite fn_lookup_insert_ne by done. intros Hj%Ha. set_solver.
  - rewrite Ha'. by rewrite fn_lookup_insert.
  - by rewrite Hd', Hd2.
  - intros dr lba. rewrite Hu', Hu2. cbn. apply Hun.
Qed.

(** C14: The driver implements the service: a call of iderw for a buffer that
    needs work queues the request and puts the caller to sleep; the next
    interrupt serves the oldest request, if this is a write or its sector can
    be read, wakes its process, and starts the disk on the request after it. *)
Theorem ide_refines_service s a : refines s a ->
  (forall pid i, request_ok (bufs s i) -> (i < NBUF)%nat -> i ∉ squeue a ->
     sl_locked (lock (bufs s i)) = true -> sl_pid (lock (bufs s i)) = pid -> dev (bufs s i) = 0 \/ havedisk1 s = true ->
     exists s', iderw patience pid i s = Ok false s' /\ refines s' (submit i a)) /\
  (forall i q, squeue a = i :: q -> can_read s i ->
     exists s' a', interrupt s = Ok tt s' /\ refines s' a' /\ asleep s' i = false /\
       squeue a' = squeue (serve a) /\ sdisk a' = sdisk (serve a) /\ forall j, sbufs a' j = sbufs (serve a) j).
Proof.
  intros Hrf. split.
  - intros pid i ? ? ? ? ? ?. destruct (iderw_refines pid i s a) as (s' & ? & ? & _); try done. by exists s'.
  - intros i q Eq Hc. destruct (interrupt_runs s a i q Hrf Eq) as (s' & E & Hrf' & Has & _).
    exists s'. eexists. split; [exact E|]. split; [exact Hrf'|]. split; [exact Has|]. unfold serve. rewrite Eq. cbn. split_and!; [done|done|].
    intros j. rewrite bool_decide_eq_true_2 by done. done.
Qed.

Fixpoint interrupts (n : nat) : K (ide D) unit := match n with O => kret tt | S n => interrupt ;;; interrupts n end.

Lemma served_flags disk b : B_VALID (served disk b) = true /\ B_DIRTY (served disk b) = false.
Proof. done. Qed.

(** Every accepted request is served: with readable sectors, as many
    interrupts as there are requests empty the queue, in whatever order the
    requests came; every buffer that waited is valid and clean and no process
    sleeps in iderw any more. *)
Theorem ide_serves_all s a : refines s a -> (forall dr lba, unreadable (port s) dr lba = false) ->
  exists s' a', interrupts (length (squeue a)) s = Ok tt s' /\ refines s' a' /\ squeue a' = [] /\ idle (port s') /\
    (forall i, i ∈ squeue a -> B_VALID (bufs s' i) = true /\ B_DIRTY (bufs s' i) = false) /\
    (forall i, i ∉ squeue a -> bufs s' i = bufs s i) /\ (forall i, asleep s' i = false).
Proof.
  assert (Hgen : forall l s a, squeue a = l -> refines s a -> (forall dr lba, unreadable (port s) dr lba = false) ->
    exists s' a', interrupts (length l) s = Ok tt s' /\ refines s' a' /\ squeue a' = [] /\
      (forall i, i ∈ l -> B_VALID (bufs s' i) = true /\ B_DIRTY (bufs s' i) = false) /\ (forall i, i ∉ l -> bufs s' i = bufs s i)).
  { clear s a. induction l as [|i q IH]; intros s a Eq Hrf Hun.
    - exists s, a. split_and!; try done. intros i Hi. by apply elem_of_nil in Hi.
    - destruct (interrupt_runs s a i q Hrf Eq) as (s1 & E & Hrf1 & _ & _ & Hu1).
      edestruct (IH s1) as (s' & a' & E' & Hrf' & Hnil & Hin & Hout); [|exact Hrf1|intros; by rewrite Hu1|]; [done|].
      cbn [squeue] in *. pose proof (rf_nodup _ _ Hrf) as Hnd. rewrite Eq in Hnd. apply NoDup_cons in Hnd as [Hni _].
      exists s', a'. cbn [length interrupts]. rewrite (kbind_ok _ _ _ _ _ E). split_and!; try done.
      + intros j [->|Hj]%elem_of_cons; [|by apply Hin]. rewrite Hout by done. rewrite (rf_bufs _ _ Hrf1). cbn. by rewrite fn_lookup_insert.
      + intros j [Hne Hj]%not_elem_of_cons. rewrite Hout by done. rewrite (rf_bufs _ _ Hrf1). cbn. rewrite fn_lookup_insert_ne by done.
        by rewrite (rf_bufs _ _ Hrf). }
  intros Hrf Hun. destruct (Hgen _ s a eq_refl Hrf Hun) as (s' & a' & E & Hrf' & Hnil & Hin & Hout).
  exists s', a'. split_and!; try done.
  - pose proof (rf_port _ _ Hrf') as Hp. by rewrite Hnil in Hp.
  - intros i. pose proof (rf_asleep _ _ Hrf' i) as Ha. destruct (asleep s' i); [|done]. rewrite Hnil in Ha. specialize (Ha eq_refl). by apply elem_of_nil in Ha.
Qed.

(** A sector that cannot be read: the handler does not store anything in the
    buffer, and marks it valid all the same, so that the reader takes what
    the buffer held before for the contents of the block. *)
Theorem read_error_marks_valid s a i q : refines s a -> squeue a = i :: q ->
  B_DIRTY (bufs s i) = false -> unreadable (port s) (dev (bufs s i)) (blockno (bufs s i)) = true ->
  exists s', interrupt s = Ok tt s' /\ bufs s' i = set_flags true false (bufs s i) /\ asleep s' i = false.
Proof.
  intros Hrf Eq Hd Hu. destruct (interrupt_runs s a i q Hrf Eq) as (s' & E & Hrf' & Has & _).
  exists s'. split_and!; [done| |done]. rewrite (rf_bufs _ _ Hrf'). cbn. rewrite fn_lookup_insert.
  rewrite bool_decide_eq_false_2; [by rewrite (rf_bufs _ _ Hrf)|]. intros [?|?]; congruence.
Qed.

(** C27: On an idle driver a request and its interrupt leave the buffers and the
    blocks of disk 1 as the memory disk of memide.c leaves them. *)
Theorem ide_agrees_with_memide disksize pid i s a c c' :
  refines s a -> squeue a = [] -> havedisk1 s = true -> can_read s i -> (i < NBUF)%nat -> request_ok (bufs s i) ->
  (forall j, Bio.bufs c j = bufs s j) -> (forall bn, disk c bn = sdisk a 1 bn) ->
  is_block (bdata (bufs s i)) -> (forall bn, is_block (disk c bn)) ->
  Bio.iderw disksize pid i c = Ok tt c' ->
  exists s1 s2 a2, iderw patience pid i s = Ok false s1 /\ interrupt s1 = Ok tt s2 /\ refines s2 a2 /\
    iderw_wait i s2 = Ok true s2 /\ (forall j, Bio.bufs c' j = bufs s2 j) /\ (forall bn, disk c' bn = sdisk a2 1 bn).
Proof.
  intros Hrf Eq Hd1 Hcr Hi Hok Hb Hdk Hblk Hblks E.
  unfold Bio.iderw in E. apply kbind_inv in E as (h & c1 & E1 & E).
  unfold Bio.holdingsleep, Bio.get, kbind, gets, kret in E1. injection E1 as E1 <-.
  destruct h; cbn [negb] in E; [|done]. apply andb_true_iff in E1 as [Hl Hp]. rewrite Hb in Hl, Hp. apply Z.eqb_eq in Hp.
  apply kbind_inv in E as (b & c1 & E1 & E). injection E1 as <- <-. rewrite !Hb in E.
  destruct Hok as (Hdev & Hbn & Hneed). rewrite Hneed in E.
  destruct (dev (bufs s i) =? 1) eqn:D1; cbn [negb] in E; [|done]. apply Z.eqb_eq in D1.
  destruct (blockno (bufs s i) >=? disksize); [done|].
  destruct (iderw_refines pid i s a) as (s1 & Ei & Hrf1 & Hd' & Hu1); try done; [by rewrite Eq; apply not_elem_of_nil|by right|].
  destruct (interrupt_runs s1 (submit i a) i []) as (s2 & E2 & Hrf2 & _ & _ & _); [done|by cbn; rewrite Eq|].
  assert (Hb1 : forall j, bufs s1 j = bufs s j) by (intros j; rewrite (rf_bufs _ _ Hrf1), (rf_bufs _ _ Hrf); done).
  exists s1, s2. eexists. split; [done|]. split; [done|]. split; [exact Hrf2|].
  assert (Hc1 : bool_decide (can_read s1 i) = true).
  { apply bool_decide_eq_true_2. unfold can_read in *. by rewrite Hb1, Hu1. }
  rewrite Hc1 in *. pose proof (rf_bufs _ _ Hrf2) as Hb2. cbn [sbufs sdisk submit] in *.
  split_and!.
  - unfold iderw_wait, kbind, gets. rewrite Hb2, fn_lookup_insert. done.
  - intros j. rewrite Hb2. unfold served. rewrite <- !(rf_bufs _ _ Hrf). unfold kbind, upd_buf, modify in E.
    destruct (B_DIRTY (bufs s i)) eqn:Ed; injection E as <-; cbn [Bio.bufs Bio.with_buf with_disk];
      (destruct (decide (j = i)) as [->|Hne]; [|rewrite !fn_lookup_insert_ne by done; by rewrite Hb, (rf_bufs _ _ Hrf)]);
      rewrite !fn_lookup_insert, Hb; [done|]. unfold set_flags, set_data. cbn. by rewrite Ed, copy_block_eq, Hdk, D1 by done.
  - intros bn. rewrite <- !(rf_bufs _ _ Hrf). unfold after, request_of. unfold kbind, upd_buf, modify in E.
    destruct (B_DIRTY (bufs s i)) eqn:Ed; injection E as <-; cbn [Bio.disk Bio.with_buf with_disk]; [|apply Hdk].
    rewrite D1. cbn [Z.eqb Pos.eqb andb]. destruct (Z.eqb_spec bn (blockno (bufs s i))) as [->|Hne]; [by rewrite fn_lookup_insert|by rewrite fn_lookup_insert_ne].
Qed.
End refinement.

(** ** A controller *)

Inductive phase := Idle | GotRead (dr lba : Z) | WantData (dr lba : Z) | GotData (dr lba : Z) (data : block) | ReadDone (dr lba : Z) | ReadFailed.
Record controller := { regs : Z -> Z; disks : Z -> Z -> block; defects : Z -> Z -> bool; ph : phase }.
Definition in_phase (p : phase) (d : controller) : controller := {| regs := regs d; disks := disks d; defects := defects d; ph := p |}.

Definition reg_lba (r : Z -> Z) : Z := r 0x1f3 + 256 * r 0x1f4 + 65536 * r 0x1f5 + 16777216 * Z.land (r 0x1f6) 15.
Definition reg_drive (r : Z -> Z) : Z := Z.land (Z.shiftr (r 0x1f6) 4) 1.

#[export] Instance emulator : Ata controller := {
  outb p v d :=
    if p =? 0x1f7 then
      if v =? IDE_CMD_READ then in_phase (GotRead (reg_drive (regs d)) (reg_lba (regs d))) d
      else if v =? IDE_CMD_WRITE then in_phase (WantData (reg_drive (regs d)) (reg_lba (regs d))) d else d
    else {| regs := <[p := v]> (regs d); disks := disks d; defects := defects d; ph := ph d |};
  inb p d :=
    if p =? 0x1f7 then
      match ph d with
      | Idle => (0x40, d)
      | ReadDone _ _ => (0x48, d)
      | ReadFailed => (0x41, in_phase Idle d)
      | _ => (0x80, d)
      end
    else (regs d p, d);
  outsl p data d := match ph d with WantData dr lba => in_phase (GotData dr lba data) d | _ => d end;
  insl p d := match ph d with ReadDone dr lba => (disks d dr lba, in_phase Idle d) | _ => ([], d) end;
  finish d :=
    match ph d with
    | GotRead dr lba => in_phase (if defects d dr lba then ReadFailed else ReadDone dr lba) d
    | GotData dr lba data =>
        {| regs := regs d; disks := fun dr' lba' => if (dr' =? dr) && (lba' =? lba) then data else disks d dr' lba'; defects := defects d; ph := Idle |}
    | _ => d
    end }.

Lemma drive_reg dr x : 0 <= dr <= 1 -> 0 <= x < 16 ->
  Z.land (Z.shiftr (u8 (Z.lor 0xe0 (Z.lor (Z.shiftl dr 4) x))) 4) 1 = dr /\ Z.land (u8 (Z.lor 0xe0 (Z.lor (Z.shiftl dr 4) x))) 15 = x.
Proof.
  intros Hd Hx.
  assert (Hall : forallb (fun d => forallb (fun x => (Z.land (Z.shiftr (u8 (Z.lor 0xe0 (Z.lor (Z.shiftl d 4) x))) 4) 1 =? d) &&
    (Z.land (u8 (Z.lor 0xe0 (Z.lor (Z.shiftl d 4) x))) 15 =? x)) (seqZ 0 16)) (seqZ 0 2) = true) by reflexivity.
  rewrite forallb_forall in Hall. specialize (Hall dr ltac:(apply list_elem_of_In, elem_of_seqZ; lia)).
  rewrite forallb_forall in Hall. specialize (Hall x ltac:(apply list_elem_of_In, elem_of_seqZ; lia)).
  apply andb_true_iff in Hall. by rewrite !Z.eqb_eq in Hall.
Qed.

Lemma lba_split x : 0 <= x < 2 ^ 28 ->
  Z.land x 0xff + 256 * Z.land (Z.shiftr x 8) 0xff + 65536 * Z.land (Z.shiftr x 16) 0xff + 16777216 * Z.land (Z.shiftr x 24) 0x0f = x /\
  0 <= Z.land (Z.shiftr x 24) 0x0f < 16.
Proof.
  intros Hx. change 0xff with (Z.ones 8). change 0x0f with (Z.ones 4). rewrite !Z.land_ones, !Z.shiftr_div_pow2 by lia.
  change (2 ^ 8) with 256. change (2 ^ 4) with 16. change (2 ^ 16) with 65536. change (2 ^ 24) with 16777216. change (2 ^ 28) with 268435456 in Hx.
  split; [|Z.to_euclidean_division_equations; lia]. Z.to_euclidean_division_equations. lia.
Qed.

Lemma select_regs dr lba d : 0 <= dr <= 1 -> 0 <= lba < 2 ^ 28 ->
  reg_drive (regs (select dr lba d)) = dr /\ reg_lba (regs (select dr lba d)) = lba /\
  disks (select dr lba d) = disks d /\ defects (select dr lba d) = defects d.
Proof.
  intros Hd Hl. destruct (lba_split lba Hl) as [Hs Hr]. destruct (drive_reg dr _ Hd Hr) as [H1 H2].
  split_and!; [exact H1| |done|done]. refine (eq_trans _ Hs). rewrite <- H2. reflexivity.
Qed.

#[export, refine] Instance emulator_laws : AtaLaws controller := {
  sectors := disks;
  unreadable := defects;
  idle d := ph d = Idle;
  working d r := match r with Read dr lba => ph d = GotRead dr lba | Write dr lba data => ph d = GotData dr lba data end;
  done_with d r := match r with Read dr lba => ph d = if defects d dr lba then ReadFailed else ReadDone dr lba | Write _ _ _ => ph d = Idle end }.
Proof.
  - intros d Hi. cbn. rewrite Hi. by exists 0x40, d.
  - intros d r Hi Hr. destruct r as [dr lba|dr lba data]; destruct Hr as [Hd Hl]; destruct (select_regs dr lba d Hd Hl) as (E1 & E2 & E3 & E4);
      cbn [command]; cbn -[select]; rewrite E1, E2, ?E3, ?E4; done.
  - intros d r Hw. destruct r as [dr lba|dr lba data]; cbn in *; rewrite Hw; cbn; done.
  - intros d dr lba data Hd. exact Hd.
  - intros d dr lba Hd. cbn in *. destruct (defects d dr lba) eqn:E; rewrite Hd.
    + exists 0x41, (in_phase Idle d). split_and!; done.
    + exists 0x48, d. split; [done|]. split; [done|]. split; [done|]. split; [done|]. split; [by intros []|].
      exists (in_phase Idle d). by rewrite Hd.
Defined.

(** ** Concrete requests *)

Definition bytes_of (x : Z) : block := replicate 512 x.
Definition a_buf (dirty : bool) (bn x : Z) : buf :=
  {| B_VALID := false; B_DIRTY := dirty; dev := 1; blockno := bn; lock := {| sl_locked := true; sl_pid := 7 |}; refcnt := 1; bdata := bytes_of x |}.
Definition a_disk (dr lba : Z) : block := bytes_of (u8 lba).
Definition some_bufs (i : nat) : buf := if (i =? 3)%nat then a_buf true 9 77 else a_buf false 5 0.
Definition quiet (defect : Z -> Z -> bool) : ide controller :=
  {| bufs := some_bufs; qnext := fun _ => None; idequeue := None; havedisk1 := true; asleep := fun _ => false;
     port := {| regs := fun _ => 0; disks := a_disk; defects := defect; ph := Idle |} |}.
Definition nothing_asked : service := {| sbufs := some_bufs; sdisk := a_disk; squeue := [] |}.
Definition sound (_ _ : Z) : bool := false.
Definition broken (_ lba : Z) : bool := lba =? 5.

Lemma quiet_refines defect : refines (quiet defect) nothing_asked.
Proof. split; try done. constructor. Qed.

Lemma some_bufs_ok i : request_ok (some_bufs i).
Proof. unfold some_bufs. destruct (i =? 3)%nat; unfold request_ok, FSSIZE; cbn; split_and!; (lia || done). Qed.

Lemma some_bufs_held i : sl_locked (lock (some_bufs i)) = true /\ sl_pid (lock (some_bufs i)) = 7.
Proof. unfold some_bufs. by destruct (i =? 3)%nat. Qed.

(** One request queued on the quiet driver, a read of block 5. *)
Lemma one_asked defect : exists s', iderw 1 7 4 (quiet defect) = Ok false s' /\ refines s' (submit 4 nothing_asked) /\
  (forall dr lba, unreadable (port s') dr lba = defect dr lba).
Proof.
  destruct (iderw_refines 1 ltac:(lia) 7 4 (quiet defect) nothing_asked) as (s' & E & Hr & _ & Hu);
    [apply quiet_refines|apply some_bufs_ok|unfold NBUF; lia|apply not_elem_of_nil|done|done|by right|].
  by exists s'.
Qed.

Lemma ide_refines_service_witness :
  refines (quiet sound) nothing_asked /\
  exists s', iderw 1 7 3 (quiet sound) = Ok false s' /\ refines s' (submit 3 nothing_asked).
Proof.
  split; [apply quiet_refines|].
  apply (proj1 (ide_refines_service 1 ltac:(lia) _ _ (quiet_refines sound)));
    [apply some_bufs_ok|unfold NBUF; lia|apply not_elem_of_nil|done|done|by right].
Defined.

Lemma ide_serves_all_witness :
  exists s s' a', refines s (submit 4 nothing_asked) /\ interrupts 1 1 s = Ok tt s' /\ refines s' a' /\ squeue a' = [] /\ B_VALID (bufs s' 4) = true.
Proof.
  destruct (one_asked sound) as (s & _ & Hr & Hu).
  destruct (ide_serves_all 1 ltac:(lia) s (submit 4 nothing_asked) Hr Hu) as (s' & a' & E & Hr' & Hn & _ & Hin & _).
  exists s, s', a'. split; [exact Hr|]. split; [exact E|]. split; [exact Hr'|]. split; [exact Hn|].
  apply Hin. cbn. apply list_elem_of_singleton. reflexivity.
Defined.

Lemma read_error_marks_valid_witness :
  exists s s', refines s (submit 4 nothing_asked) /\ interrupt 1 s = Ok tt s' /\ B_VALID (bufs s' 4) = true /\ bdata (bufs s' 4) = bytes_of 0.
Proof.
  destruct (one_asked broken) as (s & _ & Hr & Hu).
  assert (Hb : bufs s 4 = some_bufs 4) by exact (rf_bufs _ _ Hr 4).
  destruct (read_error_marks_valid 1 ltac:(lia) s (submit 4 nothing_asked) 4 [] Hr eq_refl) as (s' & E & Hv & _);
    [by rewrite Hb|by rewrite Hu, Hb|].
  exists s, s'. split; [exact Hr|]. split; [exact E|]. rewrite Hv, Hb. split; reflexivity.
Defined.

Definition a_cache : cache :=
  {| Bio.bufs := some_bufs; next := fun i => i; prev := fun i => i; bc_locked := false; disk := a_disk 1; writes := [] |}.

Lemma ide_agrees_with_memide_witness :
  exists c' s1 s2, Bio.iderw 1000 7 4 a_cache = Ok tt c' /\ iderw 1 7 4 (quiet sound) = Ok false s1 /\ interrupt 1 s1 = Ok tt s2 /\
    bdata (bufs s2 4) = bdata (Bio.bufs c' 4) /\ bdata (Bio.bufs c' 4) = bytes_of 5.
Proof.
  assert (Hblk : forall x, is_byte x -> is_block (bytes_of x)) by (intros x Hx; split; [reflexivity|by apply Forall_replicate]).
  assert (E' : match Bio.iderw 1000 7 4 a_cache with Ok _ c => bdata (Bio.bufs c 4) | _ => [] end = bytes_of 5) by (vm_compute; reflexivity).
  destruct (Bio.iderw 1000 7 4 a_cache) as [[] c'| | |] eqn:E; [|discriminate E'..].
  destruct (ide_agrees_with_memide 1 ltac:(lia) 1000 7 4 (quiet sound) nothing_asked a_cache c') as (s1 & s2 & a2 & E1 & E2 & _ & _ & Hb & _);
    [apply quiet_refines|reflexivity|reflexivity|by right|unfold NBUF; lia|apply some_bufs_ok|reflexivity|reflexivity|
     apply Hblk; unfold is_byte; cbn; lia|intros bn; apply Hblk, u8_range|exact E|].
  exists c', s1, s2. split; [exact eq_refl|]. split; [exact E1|]. split; [exact E2|]. rewrite <- Hb. split; [reflexivity|].
  exact E'.
Defined.
