(* ===== verification/Vga.v ===== *)
(** * The VGA registers (vga.c)

    The routines of vga.c that program the display: the mode tables, the
    selection of a plane and the font.  The ports are an interface, [Ports];
    what vga.c relies on of a VGA behind them is [VgaLaws], which says that
    the ports act on the registers as [vga_out] and [vga_in] say: index and
    data ports for the sequencer, the graphics controller and the CRTC, one
    port with a flip-flop for the attribute controller, and the protection of
    the first CRTC registers. *)

From S2P Require Import Prelude.
#[local] Open Scope Z_scope.

Class Ports (D : Type) := { outb : Z -> Z -> D -> D; inb : Z -> D -> Z * D }.

Definition VGA_AC_INDEX : Z := 0x3C0.
Definition VGA_AC_WRITE : Z := 0x3C0.
Definition VGA_MISC_WRITE : Z := 0x3C2.
Definition VGA_SEQ_INDEX : Z := 0x3C4.
Definition VGA_SEQ_DATA : Z := 0x3C5.
Definition VGA_GC_INDEX : Z := 0x3CE.
Definition VGA_GC_DATA : Z := 0x3CF.
Definition VGA_CRTC_INDEX : Z := 0x3D4.
Definition VGA_CRTC_DATA : Z := 0x3D5.
Definition VGA_INSTAT_READ : Z := 0x3DA.
Definition VGA_NUM_SEQ_REGS : nat := 5.
Definition VGA_NUM_CRTC_REGS : nat := 25.
Definition VGA_NUM_GC_REGS : nat := 9.
Definition VGA_NUM_AC_REGS : nat := 21.

(** ** The tables *)

Definition registers_80x25_text : list Z :=
  [103; 3; 0; 3; 0; 2; 95; 79; 80; 130; 85; 129; 191; 31; 0; 79;
   13; 14; 0; 0; 0; 80; 156; 14; 143; 40; 31; 150; 185; 163; 255; 0;
   0; 0; 0; 0; 16; 14; 0; 255; 0; 1; 2; 3; 4; 5; 20; 7;
   56; 57; 58; 59; 60; 61; 62; 63; 12; 0; 15; 8; 0].

Definition registers_320x200x256 : list Z :=
  [99; 3; 1; 15; 0; 14; 95; 79; 80; 130; 84; 128; 191; 31; 0; 65;
   0; 0; 0; 0; 0; 0; 156; 14; 143; 40; 64; 150; 185; 163; 255; 0;
   0; 0; 0; 0; 64; 5; 15; 255; 0; 1; 2; 3; 4; 5; 6; 7;
   8; 9; 10; 11; 12; 13; 14; 15; 65; 0; 15; 0; 0].

Definition registers_640x480x16 : list Z :=
  [227; 3; 1; 8; 0; 6; 95; 79; 80; 130; 84; 128; 11; 62; 0; 64;
   0; 0; 0; 0; 0; 0; 234; 12; 223; 40; 0; 231; 4; 227; 255; 0;
   0; 0; 0; 3; 0; 5; 15; 255; 0; 1; 2; 3; 4; 5; 20; 7;
   56; 57; 58; 59; 60; 61; 62; 63; 1; 0; 15; 0; 0].

Definition font_8x16 : list Z :=
  [0; 0; 0; 0; 0; 0; 0; 0; 0; 0; 0; 0; 0; 0; 0; 0;
   0; 0; 126; 129; 165; 129; 129; 189; 153; 129; 129; 126; 0; 0; 0; 0;
   0; 0; 126; 255; 219; 255; 255; 195; 231; 255; 255; 126; 0; 0; 0; 0;
   0; 0; 0; 0; 108; 254; 254; 254; 254; 124; 56; 16; 0; 0; 0; 0;
   0; 0; 0; 0; 16; 56; 124; 254; 124; 56; 16; 0; 0; 0; 0; 0;
   0; 0; 0; 24; 60; 60; 231; 231; 231; 153; 24; 60; 0; 0; 0; 0;
   0; 0; 0; 24; 60; 126; 255; 255; 126; 24; 24; 60; 0; 0; 0; 0;
   0; 0; 0; 0; 0; 0; 24; 60; 60; 24; 0; 0; 0; 0; 0; 0;
   255; 255; 255; 255; 255; 255; 231; 195; 195; 231; 255; 255; 255; 255; 255; 255;
   0; 0; 0; 0; 0; 60; 102; 66; 66; 102; 60; 0; 0; 0; 0; 0;
   255; 255; 255; 255; 255; 195; 153; 189; 189; 153; 195; 255; 255; 255; 255; 255;
   0; 0; 30; 14; 26; 50; 120; 204; 204; 204; 204; 120; 0; 0; 0; 0;
   0; 0; 60; 102; 102; 102; 102; 60; 24; 126; 24; 24; 0; 0; 0; 0;
   0; 0; 63; 51; 63; 48; 48; 48; 48; 112; 240; 224; 0; 0; 0; 0;
   0; 0; 127; 99; 127; 99; 99; 99; 99; 103; 231; 230; 192; 0; 0; 0;
   0; 0; 0; 24; 24; 219; 60; 231; 60; 219; 24; 24; 0; 0; 0; 0;
   0; 128; 192; 224; 240; 248; 254; 248; 240; 224; 192; 128; 0; 0; 0; 0;
   0; 2; 6; 14; 30; 62; 254; 62; 30; 14; 6; 2; 0; 0; 0; 0;
   0; 0; 24; 60; 126; 24; 24; 24; 24; 126; 60; 24; 0; 0; 0; 0;
   0; 0; 102; 102; 102; 102; 102; 102; 102; 0; 102; 102; 0; 0; 0; 0;
   0; 0; 127; 219; 219; 219; 123; 27; 27; 27; 27; 27; 0; 0; 0; 0;
   0; 124; 198; 96; 56; 108; 198; 198; 108; 56; 12; 198; 124; 0; 0; 0;
   0; 0; 0; 0; 0; 0; 0; 0; 254; 254; 254; 254; 0; 0; 0; 0;
   0; 0; 24; 60; 126; 24; 24; 24; 24; 126; 60; 24; 126; 0; 0; 0;
   0; 0; 24; 60; 126; 24; 24; 24; 24; 24; 24; 24; 0; 0; 0; 0;
   0; 0; 24; 24; 24; 24; 24; 24; 24; 126; 60; 24; 0; 0; 0; 0;
   0; 0; 0; 0; 0; 24; 12; 254; 12; 24; 0; 0; 0; 0; 0; 0;
   0; 0; 0; 0; 0; 48; 96; 254; 96; 48; 0; 0; 0; 0; 0; 0;
   0; 0; 0; 0; 0; 192; 192; 192; 192; 254; 0; 0; 0; 0; 0; 0;
   0; 0; 0; 0; 0; 40; 108; 254; 108; 40; 0; 0; 0; 0; 0; 0;
   0; 0; 0; 0; 16; 56; 56; 124; 124; 254; 254; 0; 0; 0; 0; 0;
   0; 0; 0; 0; 254; 254; 124; 124; 56; 56; 16; 0; 0; 0; 0; 0;
   0; 0; 0; 0; 0; 0; 0; 0; 0; 0; 0; 0; 0; 0; 0; 0;
   0; 0; 24; 60; 60; 60; 24; 24; 24; 0; 24; 24; 0; 0; 0; 0;
   0; 102; 102; 102; 36; 0; 0; 0; 0; 0; 0; 0; 0; 0; 0; 0;
   0; 0; 0; 108; 108; 254; 108; 108; 108; 254; 108; 108; 0; 0; 0; 0;
   24; 24; 124; 198; 194; 192; 124; 6; 134; 198; 124; 24; 24; 0; 0; 0;
   0; 0; 0; 0; 194; 198; 12; 24; 48; 96; 198; 134; 0; 0; 0; 0;
   0; 0; 56; 108; 108; 56; 118; 220; 204; 204; 204; 118; 0; 0; 0; 0;
   0; 48; 48; 48; 96; 0; 0; 0; 0; 0; 0; 0; 0; 0; 0; 0;
   0; 0; 12; 24; 48; 48; 48; 48; 48; 48; 24; 12; 0; 0; 0; 0;
   0; 0; 48; 24; 12; 12; 12; 12; 12; 12; 24; 48; 0; 0; 0; 0;
   0; 0; 0; 0; 0; 102; 60; 255; 60; 102; 0; 0; 0; 0; 0; 0;
   0; 0; 0; 0; 0; 24; 24; 126; 24; 24; 0; 0; 0; 0; 0; 0;
   0; 0; 0; 0; 0; 0; 0; 0; 0; 24; 24; 24; 48; 0; 0; 0;
   0; 0; 0; 0; 0; 0; 0; 254; 0; 0; 0; 0; 0; 0; 0; 0;
   0; 0; 0; 0; 0; 0; 0; 0; 0; 0; 24; 24; 0; 0; 0; 0;
   0; 0; 0; 0; 2; 6; 12; 24; 48; 96; 192; 128; 0; 0; 0; 0;
   0; 0; 124; 198; 198; 206; 214; 214; 230; 198; 198; 124; 0; 0; 0; 0;
   0; 0; 24; 56; 120; 24; 24; 24; 24; 24; 24; 126; 0; 0; 0; 0;
   0; 0; 124; 198; 6; 12; 24; 48; 96; 192; 198; 254; 0; 0; 0; 0;
   0; 0; 124; 198; 6; 6; 60; 6; 6; 6; 198; 124; 0; 0; 0; 0;
   0; 0; 12; 28; 60; 108; 204; 254; 12; 12; 12; 30; 0; 0; 0; 0;
   0; 0; 254; 192; 192; 192; 252; 14; 6; 6; 198; 124; 0; 0; 0; 0;
   0; 0; 56; 96; 192; 192; 252; 198; 198; 198; 198; 124; 0; 0; 0; 0;
   0; 0; 254; 198; 6; 6; 12; 24; 48; 48; 48; 48; 0; 0; 0; 0;
   0; 0; 124; 198; 198; 198; 124; 198; 198; 198; 198; 124; 0; 0; 0; 0;
   0; 0; 124; 198; 198; 198; 126; 6; 6; 6; 12; 120; 0; 0; 0; 0;
   0; 0; 0; 0; 24; 24; 0; 0; 0; 24; 24; 0; 0; 0; 0; 0;
   0; 0; 0; 0; 24; 24; 0; 0; 0; 24; 24; 48; 0; 0; 0; 0;
   0; 0; 0; 6; 12; 24; 48; 96; 48; 24; 12; 6; 0; 0; 0; 0;
   0; 0; 0; 0; 0; 0; 254; 0; 0; 254; 0; 0; 0; 0; 0; 0;
   0; 0; 0; 96; 48; 24; 12; 6; 12; 24; 48; 96; 0; 0; 0; 0;
   0; 0; 124; 198; 198; 12; 24; 24; 24; 0; 24; 24; 0; 0; 0; 0;
   0; 0; 0; 124; 198; 198; 222; 222; 222; 220; 192; 124; 0; 0; 0; 0;
   0; 0; 16; 56; 108; 198; 198; 254; 198; 198; 198; 198; 0; 0; 0; 0;
   0; 0; 252; 102; 102; 102; 124; 102; 102; 102; 102; 252; 0; 0; 0; 0;
   0; 0; 60; 102; 194; 192; 192; 192; 192; 194; 102; 60; 0; 0; 0; 0;
   0; 0; 248; 108; 102; 102; 102; 102; 102; 102; 108; 248; 0; 0; 0; 0;
   0; 0; 254; 102; 98; 104; 120; 104; 96; 98; 102; 254; 0; 0; 0; 0;
   0; 0; 254; 102; 98; 104; 120; 104; 96; 96; 96; 240; 0; 0; 0; 0;
   0; 0; 60; 102; 194; 192; 192; 222; 198; 198; 102; 58; 0; 0; 0; 0;
   0; 0; 198; 198; 198; 198; 254; 198; 198; 198; 198; 198; 0; 0; 0; 0;
   0; 0; 60; 24; 24; 24; 24; 24; 24; 24; 24; 60; 0; 0; 0; 0;
   0; 0; 30; 12; 12; 12; 12; 12; 204; 204; 204; 120; 0; 0; 0; 0;
   0; 0; 230; 102; 108; 108; 120; 120; 108; 102; 102; 230; 0; 0; 0; 0;
   0; 0; 240; 96; 96; 96; 96; 96; 96; 98; 102; 254; 0; 0; 0; 0;
   0; 0; 198; 238; 254; 254; 214; 198; 198; 198; 198; 198; 0; 0; 0; 0;
   0; 0; 198; 230; 246; 254; 222; 206; 198; 198; 198; 198; 0; 0; 0; 0;
   0; 0; 56; 108; 198; 198; 198; 198; 198; 198; 108; 56; 0; 0; 0; 0;
   0; 0; 252; 102; 102; 102; 124; 96; 96; 96; 96; 240; 0; 0; 0; 0;
   0; 0; 124; 198; 198; 198; 198; 198; 198; 214; 222; 124; 12; 14; 0; 0;
   0; 0; 252; 102; 102; 102; 124; 108; 102; 102; 102; 230; 0; 0; 0; 0;
   0; 0; 124; 198; 198; 96; 56; 12; 6; 198; 198; 124; 0; 0; 0; 0;
   0; 0; 126; 126; 90; 24; 24; 24; 24; 24; 24; 60; 0; 0; 0; 0;
   0; 0; 198; 198; 198; 198; 198; 198; 198; 198; 198; 124; 0; 0; 0; 0;
   0; 0; 198; 198; 198; 198; 198; 198; 198; 108; 56; 16; 0; 0; 0; 0;
   0; 0; 198; 198; 198; 198; 198; 214; 214; 254; 108; 108; 0; 0; 0; 0;
   0; 0; 198; 198; 108; 108; 56; 56; 108; 108; 198; 198; 0; 0; 0; 0;
   0; 0; 102; 102; 102; 102; 60; 24; 24; 24; 24; 60; 0; 0; 0; 0;
   0; 0; 254; 198; 134; 12; 24; 48; 96; 194; 198; 254; 0; 0; 0; 0;
   0; 0; 60; 48; 48; 48; 48; 48; 48; 48; 48; 60; 0; 0; 0; 0;
   0; 0; 0; 128; 192; 224; 112; 56; 28; 14; 6; 2; 0; 0; 0; 0;
   0; 0; 60; 12; 12; 12; 12; 12; 12; 12; 12; 60; 0; 0; 0; 0;
   16; 56; 108; 198; 0; 0; 0; 0; 0; 0; 0; 0; 0; 0; 0; 0;
   0; 0; 0; 0; 0; 0; 0; 0; 0; 0; 0; 0; 0; 255; 0; 0;
   48; 48; 24; 0; 0; 0; 0; 0; 0; 0; 0; 0; 0; 0; 0; 0;
   0; 0; 0; 0; 0; 120; 12; 124; 204; 204; 204; 118; 0; 0; 0; 0;
   0; 0; 224; 96; 96; 120; 108; 102; 102; 102; 102; 220; 0; 0; 0; 0;
   0; 0; 0; 0; 0; 124; 198; 192; 192; 192; 198; 124; 0; 0; 0; 0;
   0; 0; 28; 12; 12; 60; 108; 204; 204; 204; 204; 118; 0; 0; 0; 0;
   0; 0; 0; 0; 0; 124; 198; 254; 192; 192; 198; 124; 0; 0; 0; 0;
   0; 0; 56; 108; 100; 96; 240; 96; 96; 96; 96; 240; 0; 0; 0; 0;
   0; 0; 0; 0; 0; 118; 204; 204; 204; 204; 204; 124; 12; 204; 120; 0;
   0; 0; 224; 96; 96; 108; 118; 102; 102; 102; 102; 230; 0; 0; 0; 0;
   0; 0; 24; 24; 0; 56; 24; 24; 24; 24; 24; 60; 0; 0; 0; 0;
   0; 0; 6; 6; 0; 14; 6; 6; 6; 6; 6; 6; 102; 102; 60; 0;
   0; 0; 224; 96; 96; 102; 108; 120; 120; 108; 102; 230; 0; 0; 0; 0;
   0; 0; 56; 24; 24; 24; 24; 24; 24; 24; 24; 60; 0; 0; 0; 0;
   0; 0; 0; 0; 0; 236; 254; 214; 214; 214; 214; 214; 0; 0; 0; 0;
   0; 0; 0; 0; 0; 220; 102; 102; 102; 102; 102; 102; 0; 0; 0; 0;
   0; 0; 0; 0; 0; 124; 198; 198; 198; 198; 198; 124; 0; 0; 0; 0;
   0; 0; 0; 0; 0; 220; 102; 102; 102; 102; 102; 124; 96; 96; 240; 0;
   0; 0; 0; 0; 0; 118; 204; 204; 204; 204; 204; 124; 12; 12; 30; 0;
   0; 0; 0; 0; 0; 220; 118; 98; 96; 96; 96; 240; 0; 0; 0; 0;
   0; 0; 0; 0; 0; 124; 198; 96; 56; 12; 198; 124; 0; 0; 0; 0;
   0; 0; 16; 48; 48; 252; 48; 48; 48; 48; 54; 28; 0; 0; 0; 0;
   0; 0; 0; 0; 0; 204; 204; 204; 204; 204; 204; 118; 0; 0; 0; 0;
   0; 0; 0; 0; 0; 102; 102; 102; 102; 102; 60; 24; 0; 0; 0; 0;
   0; 0; 0; 0; 0; 198; 198; 198; 214; 214; 254; 108; 0; 0; 0; 0;
   0; 0; 0; 0; 0; 198; 108; 56; 56; 56; 108; 198; 0; 0; 0; 0;
   0; 0; 0; 0; 0; 198; 198; 198; 198; 198; 198; 126; 6; 12; 248; 0;
   0; 0; 0; 0; 0; 254; 204; 24; 48; 96; 198; 254; 0; 0; 0; 0;
   0; 0; 14; 24; 24; 24; 112; 24; 24; 24; 24; 14; 0; 0; 0; 0;
   0; 0; 24; 24; 24; 24; 0; 24; 24; 24; 24; 24; 0; 0; 0; 0;
   0; 0; 112; 24; 24; 24; 14; 24; 24; 24; 24; 112; 0; 0; 0; 0;
   0; 0; 118; 220; 0; 0; 0; 0; 0; 0; 0; 0; 0; 0; 0; 0;
   0; 0; 0; 0; 16; 56; 108; 198; 198; 198; 254; 0; 0; 0; 0; 0;
   0; 0; 60; 102; 194; 192; 192; 192; 194; 102; 60; 12; 6; 124; 0; 0;
   0; 0; 204; 204; 0; 204; 204; 204; 204; 204; 204; 118; 0; 0; 0; 0;
   0; 12; 24; 48; 0; 124; 198; 254; 192; 192; 198; 124; 0; 0; 0; 0;
   0; 16; 56; 108; 0; 120; 12; 124; 204; 204; 204; 118; 0; 0; 0; 0;
   0; 0; 204; 204; 0; 120; 12; 124; 204; 204; 204; 118; 0; 0; 0; 0;
   0; 96; 48; 24; 0; 120; 12; 124; 204; 204; 204; 118; 0; 0; 0; 0;
   0; 56; 108; 56; 0; 120; 12; 124; 204; 204; 204; 118; 0; 0; 0; 0;
   0; 0; 0; 0; 60; 102; 96; 96; 102; 60; 12; 6; 60; 0; 0; 0;
   0; 16; 56; 108; 0; 124; 198; 254; 192; 192; 198; 124; 0; 0; 0; 0;
   0; 0; 198; 198; 0; 124; 198; 254; 192; 192; 198; 124; 0; 0; 0; 0;
   0; 96; 48; 24; 0; 124; 198; 254; 192; 192; 198; 124; 0; 0; 0; 0;
   0; 0; 102; 102; 0; 56; 24; 24; 24; 24; 24; 60; 0; 0; 0; 0;
   0; 24; 60; 102; 0; 56; 24; 24; 24; 24; 24; 60; 0; 0; 0; 0;
   0; 96; 48; 24; 0; 56; 24; 24; 24; 24; 24; 60; 0; 0; 0; 0;
   0; 198; 198; 16; 56; 108; 198; 198; 254; 198; 198; 198; 0; 0; 0; 0;
   56; 108; 56; 0; 56; 108; 198; 198; 254; 198; 198; 198; 0; 0; 0; 0;
   24; 48; 96; 0; 254; 102; 96; 124; 96; 96; 102; 254; 0; 0; 0; 0;
   0; 0; 0; 0; 0; 204; 118; 54; 126; 216; 216; 110; 0; 0; 0; 0;
   0; 0; 62; 108; 204; 204; 254; 204; 204; 204; 204; 206; 0; 0; 0; 0;
   0; 16; 56; 108; 0; 124; 198; 198; 198; 198; 198; 124; 0; 0; 0; 0;
   0; 0; 198; 198; 0; 124; 198; 198; 198; 198; 198; 124; 0; 0; 0; 0;
   0; 96; 48; 24; 0; 124; 198; 198; 198; 198; 198; 124; 0; 0; 0; 0;
   0; 48; 120; 204; 0; 204; 204; 204; 204; 204; 204; 118; 0; 0; 0; 0;
   0; 96; 48; 24; 0; 204; 204; 204; 204; 204; 204; 118; 0; 0; 0; 0;
   0; 0; 198; 198; 0; 198; 198; 198; 198; 198; 198; 126; 6; 12; 120; 0;
   0; 198; 198; 0; 56; 108; 198; 198; 198; 198; 108; 56; 0; 0; 0; 0;
   0; 198; 198; 0; 198; 198; 198; 198; 198; 198; 198; 124; 0; 0; 0; 0;
   0; 24; 24; 60; 102; 96; 96; 96; 102; 60; 24; 24; 0; 0; 0; 0;
   0; 56; 108; 100; 96; 240; 96; 96; 96; 96; 230; 252; 0; 0; 0; 0;
   0; 0; 102; 102; 60; 24; 126; 24; 126; 24; 24; 24; 0; 0; 0; 0;
   0; 248; 204; 204; 248; 196; 204; 222; 204; 204; 204; 198; 0; 0; 0; 0;
   0; 14; 27; 24; 24; 24; 126; 24; 24; 24; 24; 24; 216; 112; 0; 0;
   0; 24; 48; 96; 0; 120; 12; 124; 204; 204; 204; 118; 0; 0; 0; 0;
   0; 12; 24; 48; 0; 56; 24; 24; 24; 24; 24; 60; 0; 0; 0; 0;
   0; 24; 48; 96; 0; 124; 198; 198; 198; 198; 198; 124; 0; 0; 0; 0;
   0; 24; 48; 96; 0; 204; 204; 204; 204; 204; 204; 118; 0; 0; 0; 0;
   0; 0; 118; 220; 0; 220; 102; 102; 102; 102; 102; 102; 0; 0; 0; 0;
   118; 220; 0; 198; 230; 246; 254; 222; 206; 198; 198; 198; 0; 0; 0; 0;
   0; 60; 108; 108; 62; 0; 126; 0; 0; 0; 0; 0; 0; 0; 0; 0;
   0; 56; 108; 108; 56; 0; 124; 0; 0; 0; 0; 0; 0; 0; 0; 0;
   0; 0; 48; 48; 0; 48; 48; 96; 192; 198; 198; 124; 0; 0; 0; 0;
   0; 0; 0; 0; 0; 0; 254; 192; 192; 192; 192; 0; 0; 0; 0; 0;
   0; 0; 0; 0; 0; 0; 254; 6; 6; 6; 6; 0; 0; 0; 0; 0;
   0; 192; 192; 194; 198; 204; 24; 48; 96; 206; 147; 6; 12; 31; 0; 0;
   0; 192; 192; 194; 198; 204; 24; 48; 102; 206; 154; 63; 6; 15; 0; 0;
   0; 0; 24; 24; 0; 24; 24; 24; 60; 60; 60; 24; 0; 0; 0; 0;
   0; 0; 0; 0; 0; 51; 102; 204; 102; 51; 0; 0; 0; 0; 0; 0;
   0; 0; 0; 0; 0; 204; 102; 51; 102; 204; 0; 0; 0; 0; 0; 0;
   17; 68; 17; 68; 17; 68; 17; 68; 17; 68; 17; 68; 17; 68; 17; 68;
   85; 170; 85; 170; 85; 170; 85; 170; 85; 170; 85; 170; 85; 170; 85; 170;
   221; 119; 221; 119; 221; 119; 221; 119; 221; 119; 221; 119; 221; 119; 221; 119;
   24; 24; 24; 24; 24; 24; 24; 24; 24; 24; 24; 24; 24; 24; 24; 24;
   24; 24; 24; 24; 24; 24; 24; 248; 24; 24; 24; 24; 24; 24; 24; 24;
   24; 24; 24; 24; 24; 248; 24; 248; 24; 24; 24; 24; 24; 24; 24; 24;
   54; 54; 54; 54; 54; 54; 54; 246; 54; 54; 54; 54; 54; 54; 54; 54;
   0; 0; 0; 0; 0; 0; 0; 254; 54; 54; 54; 54; 54; 54; 54; 54;
   0; 0; 0; 0; 0; 248; 24; 248; 24; 24; 24; 24; 24; 24; 24; 24;
   54; 54; 54; 54; 54; 246; 6; 246; 54; 54; 54; 54; 54; 54; 54; 54;
   54; 54; 54; 54; 54; 54; 54; 54; 54; 54; 54; 54; 54; 54; 54; 54;
   0; 0; 0; 0; 0; 254; 6; 246; 54; 54; 54; 54; 54; 54; 54; 54;
   54; 54; 54; 54; 54; 246; 6; 254; 0; 0; 0; 0; 0; 0; 0; 0;
   54; 54; 54; 54; 54; 54; 54; 254; 0; 0; 0; 0; 0; 0; 0; 0;
   24; 24; 24; 24; 24; 248; 24; 248; 0; 0; 0; 0; 0; 0; 0; 0;
   0; 0; 0; 0; 0; 0; 0; 248; 24; 24; 24; 24; 24; 24; 24; 24;
   24; 24; 24; 24; 24; 24; 24; 31; 0; 0; 0; 0; 0; 0; 0; 0;
   24; 24; 24; 24; 24; 24; 24; 255; 0; 0; 0; 0; 0; 0; 0; 0;
   0; 0; 0; 0; 0; 0; 0; 255; 24; 24; 24; 24; 24; 24; 24; 24;
   24; 24; 24; 24; 24; 24; 24; 31; 24; 24; 24; 24; 24; 24; 24; 24;
   0; 0; 0; 0; 0; 0; 0; 255; 0; 0; 0; 0; 0; 0; 0; 0;
   24; 24; 24; 24; 24; 24; 24; 255; 24; 24; 24; 24; 24; 24; 24; 24;
   24; 24; 24; 24; 24; 31; 24; 31; 24; 24; 24; 24; 24; 24; 24; 24;
   54; 54; 54; 54; 54; 54; 54; 55; 54; 54; 54; 54; 54; 54; 54; 54;
   54; 54; 54; 54; 54; 55; 48; 63; 0; 0; 0; 0; 0; 0; 0; 0;
   0; 0; 0; 0; 0; 63; 48; 55; 54; 54; 54; 54; 54; 54; 54; 54;
   54; 54; 54; 54; 54; 247; 0; 255; 0; 0; 0; 0; 0; 0; 0; 0;
   0; 0; 0; 0; 0; 255; 0; 247; 54; 54; 54; 54; 54; 54; 54; 54;
   54; 54; 54; 54; 54; 55; 48; 55; 54; 54; 54; 54; 54; 54; 54; 54;
   0; 0; 0; 0; 0; 255; 0; 255; 0; 0; 0; 0; 0; 0; 0; 0;
   54; 54; 54; 54; 54; 247; 0; 247; 54; 54; 54; 54; 54; 54; 54; 54;
   24; 24; 24; 24; 24; 255; 0; 255; 0; 0; 0; 0; 0; 0; 0; 0;
   54; 54; 54; 54; 54; 54; 54; 255; 0; 0; 0; 0; 0; 0; 0; 0;
   0; 0; 0; 0; 0; 255; 0; 255; 24; 24; 24; 24; 24; 24; 24; 24;
   0; 0; 0; 0; 0; 0; 0; 255; 54; 54; 54; 54; 54; 54; 54; 54;
   54; 54; 54; 54; 54; 54; 54; 63; 0; 0; 0; 0; 0; 0; 0; 0;
   24; 24; 24; 24; 24; 31; 24; 31; 0; 0; 0; 0; 0; 0; 0; 0;
   0; 0; 0; 0; 0; 31; 24; 31; 24; 24; 24; 24; 24; 24; 24; 24;
   0; 0; 0; 0; 0; 0; 0; 63; 54; 54; 54; 54; 54; 54; 54; 54;
   54; 54; 54; 54; 54; 54; 54; 255; 54; 54; 54; 54; 54; 54; 54; 54;
   24; 24; 24; 24; 24; 255; 24; 255; 24; 24; 24; 24; 24; 24; 24; 24;
   24; 24; 24; 24; 24; 24; 24; 248; 0; 0; 0; 0; 0; 0; 0; 0;
   0; 0; 0; 0; 0; 0; 0; 31; 24; 24; 24; 24; 24; 24; 24; 24;
   255; 255; 255; 255; 255; 255; 255; 255; 255; 255; 255; 255; 255; 255; 255; 255;
   0; 0; 0; 0; 0; 0; 0; 255; 255; 255; 255; 255; 255; 255; 255; 255;
   240; 240; 240; 240; 240; 240; 240; 240; 240; 240; 240; 240; 240; 240; 240; 240;
   15; 15; 15; 15; 15; 15; 15; 15; 15; 15; 15; 15; 15; 15; 15; 15;
   255; 255; 255; 255; 255; 255; 255; 0; 0; 0; 0; 0; 0; 0; 0; 0;
   0; 0; 0; 0; 0; 118; 220; 216; 216; 216; 220; 118; 0; 0; 0; 0;
   0; 0; 0; 0; 0; 252; 198; 252; 198; 198; 252; 192; 192; 192; 0; 0;
   0; 0; 254; 198; 198; 192; 192; 192; 192; 192; 192; 192; 0; 0; 0; 0;
   0; 0; 0; 0; 128; 254; 108; 108; 108; 108; 108; 108; 0; 0; 0; 0;
   0; 0; 0; 254; 198; 96; 48; 24; 48; 96; 198; 254; 0; 0; 0; 0;
   0; 0; 0; 0; 0; 126; 216; 216; 216; 216; 216; 112; 0; 0; 0; 0;
   0; 0; 0; 0; 102; 102; 102; 102; 102; 124; 96; 96; 192; 0; 0; 0;
   0; 0; 0; 0; 118; 220; 24; 24; 24; 24; 24; 24; 0; 0; 0; 0;
   0; 0; 0; 126; 24; 60; 102; 102; 102; 60; 24; 126; 0; 0; 0; 0;
   0; 0; 0; 56; 108; 198; 198; 254; 198; 198; 108; 56; 0; 0; 0; 0;
   0; 0; 56; 108; 198; 198; 198; 108; 108; 108; 108; 238; 0; 0; 0; 0;
   0; 0; 30; 48; 24; 12; 62; 102; 102; 102; 102; 60; 0; 0; 0; 0;
   0; 0; 0; 0; 0; 126; 219; 219; 219; 126; 0; 0; 0; 0; 0; 0;
   0; 0; 0; 3; 6; 126; 207; 219; 243; 126; 96; 192; 0; 0; 0; 0;
   0; 0; 28; 48; 96; 96; 124; 96; 96; 96; 48; 28; 0; 0; 0; 0;
   0; 0; 0; 124; 198; 198; 198; 198; 198; 198; 198; 198; 0; 0; 0; 0;
   0; 0; 0; 0; 254; 0; 0; 254; 0; 0; 254; 0; 0; 0; 0; 0;
   0; 0; 0; 0; 24; 24; 126; 24; 24; 0; 0; 255; 0; 0; 0; 0;
   0; 0; 0; 48; 24; 12; 6; 12; 24; 48; 0; 126; 0; 0; 0; 0;
   0; 0; 0; 12; 24; 48; 96; 48; 24; 12; 0; 126; 0; 0; 0; 0;
   0; 0; 14; 27; 27; 24; 24; 24; 24; 24; 24; 24; 24; 24; 24; 24;
   24; 24; 24; 24; 24; 24; 24; 24; 216; 216; 216; 112; 0; 0; 0; 0;
   0; 0; 0; 0; 24; 24; 0; 126; 0; 24; 24; 0; 0; 0; 0; 0;
   0; 0; 0; 0; 0; 118; 220; 0; 118; 220; 0; 0; 0; 0; 0; 0;
   0; 56; 108; 108; 56; 0; 0; 0; 0; 0; 0; 0; 0; 0; 0; 0;
   0; 0; 0; 0; 0; 0; 0; 24; 24; 0; 0; 0; 0; 0; 0; 0;
   0; 0; 0; 0; 0; 0; 0; 0; 24; 0; 0; 0; 0; 0; 0; 0;
   0; 15; 12; 12; 12; 12; 12; 236; 108; 108; 60; 28; 0; 0; 0; 0;
   0; 216; 108; 108; 108; 108; 108; 0; 0; 0; 0; 0; 0; 0; 0; 0;
   0; 112; 152; 48; 96; 200; 248; 0; 0; 0; 0; 0; 0; 0; 0; 0;
   0; 0; 0; 0; 124; 124; 124; 124; 124; 124; 124; 0; 0; 0; 0; 0;
   0; 0; 0; 0; 0; 0; 0; 0; 0; 0; 0; 0; 0; 0; 0; 0].

(** ** The registers of a VGA *)

Inductive group := Misc | Seq | Crtc | Gc | Ac.
#[export] Instance group_eq : EqDecision group.
Proof. solve_decision. Defined.

Record registers := { reg : group -> Z -> Z; idx : group -> Z; acdata : bool }.
Definition set_reg (g : group) (i v : Z) (r : registers) : registers :=
  {| reg := <[g := <[i := v]> (reg r g)]> (reg r); idx := idx r; acdata := acdata r |}.
Definition set_idx (g : group) (v : Z) (r : registers) : registers :=
  {| reg := reg r; idx := <[g := v]> (idx r); acdata := acdata r |}.
Definition set_acdata (x : bool) (r : registers) : registers := {| reg := reg r; idx := idx r; acdata := x |}.

(** Bit 7 of the CRTC register 0x11 protects the registers 0 to 7. *)
Definition protected (r : registers) (g : group) (i : Z) : bool :=
  match g with Crtc => (i <=? 7) && Z.testbit (reg r Crtc 0x11) 7 | _ => false end.
Definition set_data (g : group) (v : Z) (r : registers) : registers :=
  if protected r g (idx r g) then r else set_reg g (idx r g) (u8 v) r.

Definition vga_out (p v : Z) (r : registers) : registers :=
  if p =? 0x3C2 then set_reg Misc 0 (u8 v) r
  else if p =? 0x3C4 then set_idx Seq v r
  else if p =? 0x3C5 then set_data Seq v r
  else if p =? 0x3CE then set_idx Gc v r
  else if p =? 0x3CF then set_data Gc v r
  else if p =? 0x3D4 then set_idx Crtc v r
  else if p =? 0x3D5 then set_data Crtc v r
  else if p =? 0x3C0 then
    if acdata r then set_acdata false (set_data Ac v r) else set_acdata true (set_idx Ac v r)
  else r.

(** What the data ports read. *)
Definition vga_in (p : Z) (r : registers) : option Z :=
  if p =? 0x3C5 then Some (reg r Seq (idx r Seq))
  else if p =? 0x3CF then Some (reg r Gc (idx r Gc))
  else if p =? 0x3D5 then Some (reg r Crtc (idx r Crtc))
  else None.

Class VgaLaws (D : Type) `{Ports D} := {
  view : D -> registers;
  view_out p v d : view (outb p v d) = vga_out p v (view d);
  view_in p d v : vga_in p (view d) = Some v -> fst (inb p d) = v /\ view (snd (inb p d)) = view d;
  view_status d : view (snd (inb 0x3DA d)) = set_acdata false (view d) }.

Section vga.
Context {D : Type} `{Ports D}.

(** [outb(index, i); outb(data, *regs); regs++] for i from [i]. *)
Fixpoint write_indexed (index data i : Z) (regs : list Z) (d : D) : D :=
  match regs with
  | [] => d
  | v :: regs => write_indexed index data (i + 1) regs (outb data v (outb index i d))
  end.

Fixpoint write_ac (i : Z) (regs : list Z) (d : D) : D :=
  match regs with
  | [] => d
  | v :: regs =>
      let '(_, d) := inb VGA_INSTAT_READ d in
      write_ac (i + 1) regs (outb VGA_AC_WRITE v (outb VGA_AC_INDEX i d))
  end.

(** [outb(VGA_CRTC_INDEX, i); outb(VGA_CRTC_DATA, f(inb(VGA_CRTC_DATA)))]. *)
Definition update_crtc (i : Z) (f : Z -> Z) (d : D) : D :=
  let d := outb VGA_CRTC_INDEX i d in
  let '(x, d) := inb VGA_CRTC_DATA d in outb VGA_CRTC_DATA (u8 (f x)) d.

(** The change that writevgaregisters makes to the CRTC part of the table. *)
Definition unlock (crtc : list Z) : list Z :=
  let crtc := alter (fun x => u8 (Z.lor x 0x80)) 0x03%nat crtc in
  alter (fun x => u8 (Z.land x (Z.lnot 0x80))) 0x11%nat crtc.

Definition writevgaregisters (regs : list Z) (d : D) : D :=
  let d := outb VGA_MISC_WRITE (default 0 (regs !! 0%nat)) d in
  let regs := drop 1 regs in
  let d := write_indexed VGA_SEQ_INDEX VGA_SEQ_DATA 0 (take VGA_NUM_SEQ_REGS regs) d in
  let regs := drop VGA_NUM_SEQ_REGS regs in
  let d := update_crtc 0x03 (fun x => Z.lor x 0x80) d in
  let d := update_crtc 0x11 (fun x => Z.land x (Z.lnot 0x80)) d in
  let regs := unlock regs in
  let d := write_indexed VGA_CRTC_INDEX VGA_CRTC_DATA 0 (take VGA_NUM_CRTC_REGS regs) d in
  let regs := drop VGA_NUM_CRTC_REGS regs in
  let d := write_indexed VGA_GC_INDEX VGA_GC_DATA 0 (take VGA_NUM_GC_REGS regs) d in
  let regs := drop VGA_NUM_GC_REGS regs in
  let d := write_ac 0 (take VGA_NUM_AC_REGS regs) d in
  let '(_, d) := inb VGA_INSTAT_READ d in
  outb VGA_AC_INDEX 0x20 d.

Definition setplane (plane : Z) (d : D) : D :=
  let plane := Z.land plane 3 in
  let planeMask := u8 (Z.shiftl 1 plane) in
  outb VGA_SEQ_DATA planeMask (outb VGA_SEQ_INDEX 2 (outb VGA_GC_DATA plane (outb VGA_GC_INDEX 4 d))).

(** The window address, before P2V. *)
Definition getframebufferBase (d : D) : Z * D :=
  let d := outb VGA_GC_INDEX 6 d in
  let '(plane, d) := inb VGA_GC_DATA d in
  let plane := Z.land (Z.shiftr plane 2) 3 in
  (if plane <=? 1 then 0xA0000 else if plane =? 2 then 0xB0000 else 0xB8000, d).

Definition read_indexed (index data i : Z) (d : D) : Z * D := inb data (outb index i d).
Definition write_one (index data i v : Z) (d : D) : D := outb data v (outb index i d).

(** The 256 copies of writefont into plane 2, by their offset in it. *)
Fixpoint write_glyphs (n : nat) (fontBase : Z) (fontBuffer : list Z) (fontHeight : nat) (plane2 : Z -> Z) : Z -> Z :=
  match n with
  | O => plane2
  | S n =>
      write_glyphs n (fontBase + 32) (drop fontHeight fontBuffer) fontHeight
        (fun a => if (fontBase <=? a) && (a <? fontBase + Z.of_nat fontHeight)
                  then default 0 (fontBuffer !! Z.to_nat (a - fontBase)) else plane2 a)
  end.

Definition writefont (fontBuffer : list Z) (fontHeight : nat) (plane2 : Z -> Z) (d : D) : (Z -> Z) * D :=
  let '(seq2, d) := read_indexed VGA_SEQ_INDEX VGA_SEQ_DATA 2 d in
  let '(seq4, d) := read_indexed VGA_SEQ_INDEX VGA_SEQ_DATA 4 d in
  let d := outb VGA_SEQ_DATA (u8 (Z.lor seq4 0x04)) d in
  let '(gc4, d) := read_indexed VGA_GC_INDEX VGA_GC_DATA 4 d in
  let '(gc5, d) := read_indexed VGA_GC_INDEX VGA_GC_DATA 5 d in
  let d := outb VGA_GC_DATA (u8 (Z.land gc5 (Z.lnot 0x10))) d in
  let '(gc6, d) := read_indexed VGA_GC_INDEX VGA_GC_DATA 6 d in
  let d := outb VGA_GC_DATA (u8 (Z.land gc6 (Z.lnot 0x02))) d in
  let d := setplane 2 d in
  let plane2 := write_glyphs 256 0 fontBuffer fontHeight plane2 in
  let d := write_one VGA_SEQ_INDEX VGA_SEQ_DATA 2 seq2 d in
  let d := write_one VGA_SEQ_INDEX VGA_SEQ_DATA 4 seq4 d in
  let d := write_one VGA_GC_INDEX VGA_GC_DATA 4 gc4 d in
  let d := write_one VGA_GC_INDEX VGA_GC_DATA 5 gc5 d in
  let d := write_one VGA_GC_INDEX VGA_GC_DATA 6 gc6 d in
  (plane2, d).
End vga.

(** ** What the sequences of port operations do *)

(** Equalities of groups are computed. *)
Ltac decide_groups :=
  repeat match goal with
  | |- context [bool_decide (?a = ?b :> group)] => let x := eval vm_compute in (bool_decide (a = b)) in change (bool_decide (a = b)) with x
  end.

Section laws.
Context {D : Type} `{VgaLaws D}.

Definition ports (g : group) (index data : Z) : Prop :=
  match g with
  | Seq => index = VGA_SEQ_INDEX /\ data = VGA_SEQ_DATA
  | Gc => index = VGA_GC_INDEX /\ data = VGA_GC_DATA
  | Crtc => index = VGA_CRTC_INDEX /\ data = VGA_CRTC_DATA
  | _ => False
  end.

Lemma ports_index g index data v r : ports g index data -> vga_out index v r = set_idx g v r.
Proof. destruct g; cbn; try done; by intros [-> ->]. Qed.
Lemma ports_data g index data v r : ports g index data -> vga_out data v r = set_data g v r.
Proof. destruct g; cbn; try done; by intros [-> ->]. Qed.
Lemma ports_in g index data r : ports g index data -> vga_in data r = Some (reg r g (idx r g)).
Proof. destruct g; cbn; try done; by intros [-> ->]. Qed.

Definition unprotected (r : registers) : Prop := Z.testbit (reg r Crtc 0x11) 7 = false.

Lemma unprotected_data g v r : (g = Crtc -> unprotected r) -> set_data g v r = set_reg g (idx r g) (u8 v) r.
Proof. unfold unprotected, set_data, protected. intros E. destruct g; try done. by rewrite E, andb_false_r. Qed.

(** One register written. *)
Lemma write_one_view g index data i v d : ports g index data -> (g = Crtc -> unprotected (view d)) ->
  view (write_one index data i v d) = set_reg g i (u8 v) (set_idx g i (view d)).
Proof.
  intros Hp Hu. unfold write_one. rewrite !view_out, (ports_data g index data) by done. rewrite (ports_index g index data) by done.
  rewrite unprotected_data by done. cbn. by rewrite fn_lookup_insert.
Qed.

Lemma read_indexed_view g index data i d : ports g index data ->
  exists d', read_indexed index data i d = (reg (view d) g i, d') /\ view d' = set_idx g i (view d).
Proof.
  intros Hp. unfold read_indexed. destruct (inb data (outb index i d)) as [v d'] eqn:E.
  destruct (view_in data (outb index i d) (reg (view d) g i)) as [Hv Hd].
  { rewrite view_out, (ports_index g index data), (ports_in g index data) by done. cbn. by rewrite fn_lookup_insert. }
  rewrite E in Hv, Hd. cbn in Hv, Hd. exists d'. rewrite Hv. split; [done|].
  by rewrite Hd, view_out, (ports_index g index data).
Qed.

(** The registers of [g] from [from] on hold [vals]; nothing else changed but
    the index. *)
Record loaded (g : group) (from : Z) (vals : list Z) (r r' : registers) : Prop := {
  ld_in : forall i, (i < length vals)%nat -> reg r' g (from + Z.of_nat i) = default 0 (vals !! i);
  ld_out : forall i, i < from \/ from + Z.of_nat (length vals) <= i -> reg r' g i = reg r g i;
  ld_other : forall g', g' <> g -> reg r' g' = reg r g';
  ld_ac : acdata r' = acdata r }.

Lemma loaded_nil g from r : loaded g from [] r r.
Proof. split; try done. cbn. lia. Qed.

Lemma loaded_cons g from v vals r r1 r' :
  reg r1 g from = v -> (forall i, i <> from -> reg r1 g i = reg r g i) -> (forall g', g' <> g -> reg r1 g' = reg r g') -> acdata r1 = acdata r ->
  loaded g (from + 1) vals r1 r' -> loaded g from (v :: vals) r r'.
Proof.
  intros H1 H2 H3 H4 [L1 L2 L3 L4]. split.
  - intros [|i] Hi; cbn [length] in Hi.
    + rewrite Z.add_0_r. cbn. rewrite L2 by lia. done.
    + replace (from + Z.of_nat (S i)) with (from + 1 + Z.of_nat i) by lia. cbn. apply L1. lia.
  - intros i Hi. cbn [length] in Hi. rewrite L2 by lia. apply H2. lia.
  - intros g' Hg. rewrite L3 by done. by apply H3.
  - by rewrite L4.
Qed.

Definition keeps_unlocked (g : group) (from : Z) (vals : list Z) : Prop :=
  g = Crtc -> forall i v, vals !! i = Some v -> from + Z.of_nat i = 0x11 -> Z.testbit v 7 = false.

Lemma write_indexed_ok g index data vals from d : ports g index data -> Forall is_byte vals -> (g = Crtc -> unprotected (view d)) -> keeps_unlocked g from vals ->
  loaded g from vals (view d) (view (write_indexed index data from vals d)).
Proof.
  intros Hp HF. revert from d. induction HF as [|v vals Hv _ IH]; intros from d Hu Hk; cbn [write_indexed]; [apply loaded_nil|].
  change (outb data v (outb index from d)) with (write_one index data from v d).
  pose proof (write_one_view g index data from v d Hp Hu) as E. rewrite (u8_small v) in E by done.
  assert (Hu1 : g = Crtc -> unprotected (view (write_one index data from v d))).
  { intros ->. specialize (Hu eq_refl). rewrite E. unfold unprotected. cbn.
    rewrite fn_lookup_insert. destruct (decide (from = 17)) as [->|Hf]; [|by rewrite fn_lookup_insert_ne].
    rewrite fn_lookup_insert. apply (Hk eq_refl 0%nat v); [done|lia]. }
  pose proof (IH (from + 1) (write_one index data from v d) Hu1) as HL. ospecialize (HL _).
  { intros -> i x Hi Hx. apply (Hk eq_refl (S i) x); [done|lia]. }
  eapply loaded_cons; [| | | |exact HL]; rewrite E; cbn; rewrite ?fn_lookup_insert; try done.
  - intros i Hi. by rewrite fn_lookup_insert_ne.
  - intros g' Hg. by rewrite fn_lookup_insert_ne.
Qed.

Lemma write_ac_ok vals from d : Forall is_byte vals ->
  reg (view (write_ac from vals d)) = reg (view (write_ac from vals d)) /\
  (forall i, (i < length vals)%nat -> reg (view (write_ac from vals d)) Ac (from + Z.of_nat i) = default 0 (vals !! i)) /\
  (forall i, i < from -> reg (view (write_ac from vals d)) Ac i = reg (view d) Ac i) /\
  (forall g', g' <> Ac -> reg (view (write_ac from vals d)) g' = reg (view d) g').
Proof.
  intros HF. revert from d. induction HF as [|v vals Hv _ IH]; intros from d; cbn [write_ac]; [split_and!; try done; cbn; lia|].
  destruct (inb VGA_INSTAT_READ d) as [x d1] eqn:E1.
  assert (Hd1 : view d1 = set_acdata false (view d)) by (pose proof (view_status d) as Hs; change 0x3DA with VGA_INSTAT_READ in Hs; by rewrite E1 in Hs).
  set (d2 := outb VGA_AC_WRITE v (outb VGA_AC_INDEX from d1)).
  assert (Hd2 : view d2 = set_acdata false (set_reg Ac from v (set_acdata true (set_idx Ac from (view d1))))).
  { unfold d2. rewrite !view_out. unfold vga_out. cbn [Z.eqb Pos.eqb VGA_AC_WRITE VGA_AC_INDEX]. rewrite Hd1. cbn [acdata set_acdata set_idx].
    unfold set_data, protected. cbn [idx set_acdata set_idx]. rewrite fn_lookup_insert. by rewrite u8_small. }
  destruct (IH (from + 1) d2) as (_ & L1 & L2 & L3). split_and!; [done| | |].
  - intros [|i] Hi; cbn [length] in Hi.
    + rewrite Z.add_0_r, L2 by lia. rewrite Hd2. cbn. by rewrite !fn_lookup_insert.
    + replace (from + Z.of_nat (S i)) with (from + 1 + Z.of_nat i) by lia. cbn. apply L1. lia.
  - intros i Hi. rewrite L2 by lia. rewrite Hd2, Hd1. cbn. rewrite fn_lookup_insert, fn_lookup_insert_ne by lia. done.
  - intros g' Hg. rewrite L3 by done. rewrite Hd2, Hd1. cbn. by rewrite fn_lookup_insert_ne.
Qed.

Lemma update_crtc_view i f d : exists v, view (update_crtc i f d) = set_data Crtc v (set_idx Crtc i (view d)) /\ v = u8 (f (reg (view d) Crtc i)).
Proof.
  unfold update_crtc. destruct (read_indexed_view Crtc VGA_CRTC_INDEX VGA_CRTC_DATA i d) as (d1 & E1 & E2); [done|].
  unfold read_indexed in E1. rewrite E1. eexists. split; [|done].
  by rewrite view_out, (ports_data Crtc VGA_CRTC_INDEX VGA_CRTC_DATA), E2.
Qed.

Lemma unlocked d : unprotected (view (update_crtc 0x11 (fun x => Z.land x (Z.lnot 0x80)) d)).
Proof.
  destruct (update_crtc_view 0x11 (fun x => Z.land x (Z.lnot 0x80)) d) as (v & -> & ->).
  unfold unprotected, set_data, protected. cbn [idx set_idx]. rewrite fn_lookup_insert. cbn [Z.leb Z.compare Pos.compare Pos.compare_cont andb].
  cbn [reg set_reg]. rewrite fn_lookup_insert, fn_lookup_insert. unfold u8. rewrite !Z.mod_pow2_bits_low by lia.
  rewrite Z.land_spec. by rewrite andb_false_r.
Qed.

Lemma set_data_other g g' v r : g' <> g -> reg (set_data g v r) g' = reg r g'.
Proof. intros Hg. unfold set_data. destruct (protected _ _ _); [done|]. cbn. by rewrite fn_lookup_insert_ne. Qed.

Definition table_ok (regs : list Z) : Prop := length regs = 61%nat /\ Forall is_byte regs.

Lemma u8_byte x : is_byte (u8 x).
Proof. apply u8_range. Qed.

Lemma unlock_ok crtc : Forall is_byte crtc -> Forall is_byte (unlock crtc) /\ length (unlock crtc) = length crtc /\
  forall v, unlock crtc !! 17%nat = Some v -> Z.testbit v 7 = false.
Proof.
  intros HF. unfold unlock. split_and!.
  - apply Forall_alter; [apply Forall_alter; [done|]|]; intros; apply u8_byte.
  - by rewrite !length_alter.
  - intros v. rewrite list_lookup_alter. destruct (alter _ 3%nat crtc !! 17%nat) as [x|]; [|done]. intros Hv. injection Hv as <-.
    unfold u8. rewrite Z.mod_pow2_bits_low by lia. rewrite Z.land_spec. by rewrite andb_false_r.
Qed.

(** [default 0 (regs !! i)] *)
Definition nth_reg (regs : list Z) (i : nat) : Z := default 0 (regs !! i).

(** writevgaregisters loads the whole table: when it returns the VGA has in
    each group the bytes of the table, the CRTC unlocked, and the attribute
    controller shows the picture (index 0x20), whatever the state and the
    protection of the registers before. *)
Theorem writevgaregisters_loads regs d : table_ok regs ->
  let r := view (writevgaregisters regs d) in
  reg r Misc 0 = nth_reg regs 0 /\
  (forall i, (i < 5)%nat -> reg r Seq (Z.of_nat i) = nth_reg regs (1 + i)) /\
  (forall i, (i < 25)%nat -> reg r Crtc (Z.of_nat i) = nth_reg (unlock (drop 6 regs)) i) /\
  (forall i, (i < 9)%nat -> reg r Gc (Z.of_nat i) = nth_reg regs (31 + i)) /\
  (forall i, (i < 21)%nat -> reg r Ac (Z.of_nat i) = nth_reg regs (40 + i)) /\
  unprotected r /\ idx r Ac = 0x20 /\ acdata r = true.
Proof.
  intros [Hlen HF]. unfold writevgaregisters. cbn zeta.
  assert (Hn : forall (l : list Z) i, Forall is_byte l -> u8 (default 0 (l !! i)) = default 0 (l !! i)).
  { intros l i Hl. destruct (l !! i) as [x|] eqn:E; [|done]. apply u8_small. by apply (Forall_lookup_1 _ _ _ _ Hl E). }
  set (d1 := outb VGA_MISC_WRITE (default 0 (regs !! 0%nat)) d).
  assert (V1 : view d1 = set_reg Misc 0 (nth_reg regs 0) (view d)).
  { unfold d1. rewrite view_out. unfold vga_out. cbn [Z.eqb Pos.eqb VGA_MISC_WRITE]. unfold nth_reg. by rewrite Hn. }
  set (d2 := write_indexed VGA_SEQ_INDEX VGA_SEQ_DATA 0 _ d1).
  assert (L2 : loaded Seq 0 (take 5 (drop 1 regs)) (view d1) (view d2)).
  { apply write_indexed_ok; [done|by apply Forall_take, Forall_drop|done|done]. }
  set (d3 := update_crtc 0x03 _ d2). set (d4 := update_crtc 0x11 _ d3).
  assert (O4 : forall g, g <> Crtc -> reg (view d4) g = reg (view d2) g).
  { intros g Hg. unfold d4. destruct (update_crtc_view 0x11 (fun x => Z.land x (Z.lnot 0x80)) d3) as (v & -> & _). rewrite set_data_other by done. cbn [reg set_idx].
    unfold d3. destruct (update_crtc_view 0x03 (fun x => Z.lor x 0x80) d2) as (v' & -> & _). by rewrite set_data_other by done. }
  pose proof (unlocked d3) as U4. fold d4 in U4.
  replace (drop VGA_NUM_SEQ_REGS (drop 1 regs)) with (drop 6 regs) by (by rewrite drop_drop).
  destruct (unlock_ok (drop 6 regs)) as (HFu & Hlu & Hku); [by apply Forall_drop|]. rewrite length_drop, Hlen in Hlu.
  set (crtc := unlock (drop 6 regs)) in *.
  set (d5 := write_indexed VGA_CRTC_INDEX VGA_CRTC_DATA 0 _ d4).
  assert (L5 : loaded Crtc 0 (take 25 crtc) (view d4) (view d5)).
  { apply write_indexed_ok; [done|by apply Forall_take|done|]. intros _ i v Hi E. apply Hku. replace i with 17%nat in Hi by lia.
    change VGA_NUM_CRTC_REGS with 25%nat in Hi. rewrite lookup_take_lt in Hi by lia. done. }
  set (d6 := write_indexed VGA_GC_INDEX VGA_GC_DATA 0 _ d5).
  assert (L6 : loaded Gc 0 (take 9 (drop 25 crtc)) (view d5) (view d6)).
  { apply write_indexed_ok; [done|by apply Forall_take, Forall_drop|done|done]. }
  set (d7 := write_ac 0 _ d6).
  destruct (write_ac_ok (take 21 (drop 9 (drop 25 crtc))) 0 d6) as (_ & A1 & _ & A3); [by apply Forall_take, Forall_drop, Forall_drop|].
  change (write_ac 0 (take 21 (drop 9 (drop 25 crtc))) d6) with d7 in A1, A3.
  destruct (inb VGA_INSTAT_READ d7) as [x d8] eqn:E8.
  assert (V8 : view d8 = set_acdata false (view d7)) by (pose proof (view_status d7) as Hs; change 0x3DA with VGA_INSTAT_READ in Hs; by rewrite E8 in Hs).
  assert (Hdrop : forall i, (18 <= i)%nat -> crtc !! i = regs !! (6 + i)%nat).
  { intros i Hi. unfold crtc, unlock. rewrite !list_lookup_alter_ne by lia. by rewrite lookup_drop. }
  rewrite view_out. unfold vga_out. cbn [Z.eqb Pos.eqb VGA_AC_INDEX]. rewrite V8. cbn [acdata set_acdata set_idx reg idx].
  rewrite fn_lookup_insert.
  assert (Htake : forall (l : list Z) n i, (i < n)%nat -> default 0 (take n l !! i) = default 0 (l !! i)) by (intros l n i Hi; by rewrite lookup_take_lt).
  assert (HC : forall i, (i < 25)%nat -> reg (view d7) Crtc (Z.of_nat i) = nth_reg crtc i).
  { intros i Hi. pose proof (ld_in _ _ _ _ _ L5 i) as E. rewrite length_take, Z.add_0_l in E. rewrite A3, (ld_other _ _ _ _ _ L6), E, Htake by (done || lia). done. }
  split_and!.
  - rewrite A3, (ld_other _ _ _ _ _ L6), (ld_other _ _ _ _ _ L5), O4, (ld_other _ _ _ _ _ L2), V1 by done. cbn. by rewrite !fn_lookup_insert.
  - intros i Hi. rewrite A3, (ld_other _ _ _ _ _ L6), (ld_other _ _ _ _ _ L5), O4 by done.
    pose proof (ld_in _ _ _ _ _ L2 i) as E. rewrite length_take, length_drop in E. rewrite Z.add_0_l in E. rewrite E, Htake, lookup_drop by lia. done.
  - exact HC.
  - intros i Hi. rewrite A3 by done. pose proof (ld_in _ _ _ _ _ L6 i) as E. rewrite length_take, length_drop, Z.add_0_l in E.
    rewrite E, Htake, lookup_drop, Hdrop by lia. done.
  - intros i Hi. rewrite <- (Z.add_0_l (Z.of_nat i)), A1 by (rewrite length_take, !length_drop; lia).
    rewrite Htake, !lookup_drop, Hdrop by lia. done.
  - unfold unprotected. cbn [reg set_acdata set_idx]. change 0x11 with (Z.of_nat 17). rewrite HC by lia. unfold nth_reg.
    destruct (crtc !! 17%nat) as [v|] eqn:E; [by apply Hku|done].
  - done.
  - done.
Qed.

Lemma set_data_plain g v r : g <> Crtc -> set_data g v r = set_reg g (idx r g) (u8 v) r.
Proof. intros Hg. by apply unprotected_data. Qed.

Lemma reg_set_reg g i v r g' i' : reg (set_reg g i v r) g' i' = if bool_decide (g' = g) && (i' =? i) then v else reg r g' i'.
Proof.
  cbn. destruct (decide (g' = g)) as [->|Hg]; [rewrite bool_decide_eq_true_2, fn_lookup_insert by done|by rewrite bool_decide_eq_false_2, fn_lookup_insert_ne].
  destruct (Z.eqb_spec i' i) as [->|Hi]; [by rewrite fn_lookup_insert|by rewrite fn_lookup_insert_ne].
Qed.

Lemma reg_set_idx g i r g' i' : reg (set_idx g i r) g' i' = reg r g' i'.
Proof. done. Qed.

(** Two files of registers with the same contents. *)
Definition same_regs (r r' : registers) : Prop := forall g i, reg r' g i = reg r g i.

Lemma write_glyphs_below n base buf h p a : a < base -> write_glyphs n base buf h p a = p a.
Proof.
  revert base buf p. induction n as [|n IH]; intros base buf p Ha; cbn [write_glyphs]; [done|].
  rewrite IH by lia. rewrite (proj2 (Z.leb_gt base a)) by lia. done.
Qed.

Lemma write_glyphs_ok n base buf h p c k : (c < n)%nat -> (k < h)%nat -> (h <= 32)%nat ->
  write_glyphs n base buf h p (base + 32 * Z.of_nat c + Z.of_nat k) = default 0 (buf !! (h * c + k)%nat).
Proof.
  revert base buf p c. induction n as [|n IH]; intros base buf p c Hc Hk Hh; [lia|]. cbn [write_glyphs]. destruct c as [|c].
  - rewrite write_glyphs_below by lia. rewrite (proj2 (Z.leb_le _ _)), (proj2 (Z.ltb_lt _ _)) by lia. cbn [andb].
    do 2 f_equal. lia.
  - replace (base + 32 * Z.of_nat (S c) + Z.of_nat k) with (base + 32 + 32 * Z.of_nat c + Z.of_nat k) by lia.
    rewrite IH by lia. rewrite lookup_drop. do 2 f_equal. lia.
Qed.

(** writefont puts row [k] of glyph [c] at offset [32 c + k] of plane 2 and
    gives every register back the value it had. *)
Theorem writefont_restores buf h plane2 d : (h <= 32)%nat -> (forall g i, is_byte (reg (view d) g i)) ->
  let '(plane2', d') := writefont buf h plane2 d in
  (forall c k, (c < 256)%nat -> (k < h)%nat -> plane2' (32 * Z.of_nat c + Z.of_nat k) = nth_reg buf (h * c + k)) /\
  same_regs (view d) (view d').
Proof.
  intros Hh Hb. unfold writefont.
  destruct (read_indexed_view Seq VGA_SEQ_INDEX VGA_SEQ_DATA 2 d) as (d1 & -> & V1); [done|].
  destruct (read_indexed_view Seq VGA_SEQ_INDEX VGA_SEQ_DATA 4 d1) as (d2 & -> & V2); [done|].
  set (d3 := outb VGA_SEQ_DATA _ d2).
  assert (V3 : exists v, view d3 = set_reg Seq 4 v (view d2)).
  { eexists. unfold d3. rewrite view_out, (ports_data Seq VGA_SEQ_INDEX VGA_SEQ_DATA), set_data_plain, V2 by done. cbn [idx set_idx]. by rewrite fn_lookup_insert. }
  destruct V3 as [v3 V3].
  destruct (read_indexed_view Gc VGA_GC_INDEX VGA_GC_DATA 4 d3) as (d4 & -> & V4); [done|].
  destruct (read_indexed_view Gc VGA_GC_INDEX VGA_GC_DATA 5 d4) as (d5 & -> & V5); [done|].
  set (d6 := outb VGA_GC_DATA _ d5).
  assert (V6 : exists v, view d6 = set_reg Gc 5 v (view d5)).
  { eexists. unfold d6. rewrite view_out, (ports_data Gc VGA_GC_INDEX VGA_GC_DATA), set_data_plain, V5 by done. cbn [idx set_idx]. by rewrite fn_lookup_insert. }
  destruct V6 as [v6 V6].
  destruct (read_indexed_view Gc VGA_GC_INDEX VGA_GC_DATA 6 d6) as (d7 & -> & V7); [done|].
  set (d8 := outb VGA_GC_DATA _ d7).
  assert (V8 : exists v, view d8 = set_reg Gc 6 v (view d7)).
  { eexists. unfold d8. rewrite view_out, (ports_data Gc VGA_GC_INDEX VGA_GC_DATA), set_data_plain, V7 by done. cbn [idx set_idx]. by rewrite fn_lookup_insert. }
  destruct V8 as [v8 V8].
  set (d9 := setplane 2 d8).
  assert (V9 : exists v w, view d9 = set_reg Seq 2 v (set_idx Seq 2 (set_reg Gc 4 w (set_idx Gc 4 (view d8))))).
  { do 2 eexists. unfold d9, setplane.
    change (outb VGA_SEQ_DATA ?v (outb VGA_SEQ_INDEX 2 ?d)) with (write_one VGA_SEQ_INDEX VGA_SEQ_DATA 2 v d).
    change (outb VGA_GC_DATA ?v (outb VGA_GC_INDEX 4 ?d)) with (write_one VGA_GC_INDEX VGA_GC_DATA 4 v d).
    rewrite (write_one_view Seq), (write_one_view Gc) by done. done. }
  destruct V9 as (v9 & w9 & V9).
  split.
  { intros c k Hc Hk. rewrite <- (Z.add_0_l (32 * Z.of_nat c)). by apply write_glyphs_ok. }
  rewrite (write_one_view Gc VGA_GC_INDEX VGA_GC_DATA 6), (write_one_view Gc VGA_GC_INDEX VGA_GC_DATA 5), (write_one_view Gc VGA_GC_INDEX VGA_GC_DATA 4),
    (write_one_view Seq VGA_SEQ_INDEX VGA_SEQ_DATA 4), (write_one_view Seq VGA_SEQ_INDEX VGA_SEQ_DATA 2) by done.
  rewrite V9, V8, V7, V6, V5, V4, V3, V2, V1. intros g i.
  repeat (rewrite reg_set_idx || rewrite reg_set_reg). rewrite !(u8_small (reg (view d) _ _)) by apply Hb.
  destruct g; decide_groups; cbn [andb]; try done;
    (destruct (Z.eqb_spec i 2) as [->|]; [by rewrite ?u8_small by apply Hb|]);
    (destruct (Z.eqb_spec i 4) as [->|]; [by rewrite ?u8_small by apply Hb|]);
    (destruct (Z.eqb_spec i 5) as [->|]; [by rewrite ?u8_small by apply Hb|]);
    (destruct (Z.eqb_spec i 6) as [->|]; [by rewrite ?u8_small by apply Hb|]); done.
Qed.
End laws.

(** ** A VGA, and the tables *)

#[export] Instance vga_ports : Ports registers := {
  outb := vga_out;
  inb p r := match vga_in p r with Some v => (v, r) | None => (0, if p =? VGA_INSTAT_READ then set_acdata false r else r) end }.

#[export, refine] Instance vga_laws : VgaLaws registers := { view r := r }.
Proof.
  - done.
  - intros p r v E. cbn. by rewrite E.
  - done.
Defined.

Lemma bytes_check l : forallb (fun x => (0 <=? x) && (x <? 256)) l = true -> Forall is_byte l.
Proof.
  intros H. apply Forall_forall. intros x Hx. rewrite forallb_forall in H. specialize (H x (proj1 (list_elem_of_In _ _) Hx)).
  apply andb_true_iff in H as [?%Z.leb_le ?%Z.ltb_lt]. done.
Qed.

Lemma mode_tables_ok : Forall table_ok [registers_80x25_text; registers_320x200x256; registers_640x480x16].
Proof. repeat (constructor; [split; [reflexivity|by apply bytes_check]|]). constructor. Qed.

(** The changes that writevgaregisters makes to the tables in place are
    none, so a table can be loaded again. *)
Lemma mode_tables_fixed :
  Forall (fun t => unlock (drop 6 t) = drop 6 t) [registers_80x25_text; registers_320x200x256; registers_640x480x16].
Proof. repeat (constructor; [reflexivity|]). constructor. Qed.

Lemma font_ok : length font_8x16 = 4096%nat /\ Forall is_byte font_8x16.
Proof. split; [reflexivity|]. by apply bytes_check. Qed.

Definition power_on : registers := {| reg := fun g i => if bool_decide (g = Crtc) then 255 else 0; idx := fun _ => 0; acdata := true |}.

Lemma writevgaregisters_loads_witness :
  table_ok registers_80x25_text /\ reg (view (writevgaregisters registers_80x25_text power_on)) Crtc 1 = 79.
Proof.
  assert (Ht : table_ok registers_80x25_text) by exact (Forall_inv mode_tables_ok).
  split; [exact Ht|]. destruct (writevgaregisters_loads registers_80x25_text power_on Ht) as (_ & _ & H & _).
  exact (H 1%nat ltac:(lia)).
Defined.

Lemma writefont_restores_witness :
  same_regs power_on (snd (writefont font_8x16 16 (fun _ => 0) power_on)) /\ fst (writefont font_8x16 16 (fun _ => 0) power_on) (32 * 65 + 7) = 254.
Proof.
  assert (Hb : forall g i, is_byte (reg (view power_on) g i)) by (intros g i; cbn; destruct (bool_decide _); unfold is_byte; lia).
  pose proof (writefont_restores font_8x16 16 (fun _ => 0) power_on ltac:(lia) Hb) as H.
  destruct (writefont font_8x16 16 (fun _ => 0) power_on) as [p d]. destruct H as [H1 H2]. split; [exact H2|].
  change (32 * 65 + 7) with (32 * Z.of_nat 65 + Z.of_nat 7). rewrite H1 by lia. reflexivity.
Defined.
