(* ===== verification/Screen.v ===== *)
(** * Console output and the display modes (console.c, vga.c)

    cgaputc on the text memory, or on the buffer that stands for it while a
    graphics mode is shown, and videosetmode with the switch between the two.
    The text memory and the buffer have 2000 cells; an access outside them is
    a fault.  The cursor of the text memory is in the CRTC registers 14 and
    15 of the VGA (Vga.v).  What goes to the serial port is a list; the
    console lock and the graphics memory are kept by name only. *)

From S2P Require Import Prelude Vga.
#[local] Open Scope Z_scope.
#[local] Open Scope kernel_scope.

Definition BACKSPACE : Z := 0x100.
Definition CRTPORT : Z := 0x3d4.
Definition CELLS : Z := 80 * 25.

Section screen.
Context {D : Type} `{Ports D}.

Record screen := {
  crt : Z -> Z;              (* the text memory *)
  videobuffer : Z -> Z;      (* consbuffer *)
  cursorposition : Z;
  textdisplayed : bool;
  conslocked : bool;
  serial : list Z;           (* the bytes sent to the serial port *)
  currentVideoMode : Z;
  vram : Z -> Z;             (* the graphics memory from 0xA0000 on *)
  plane2 : Z -> Z;           (* the font memory *)
  vga : D }.

Definition set_crt (f : Z -> Z) (s : screen) : screen :=
  {| crt := f; videobuffer := videobuffer s; cursorposition := cursorposition s; textdisplayed := textdisplayed s; conslocked := conslocked s;
     serial := serial s; currentVideoMode := currentVideoMode s; vram := vram s; plane2 := plane2 s; vga := vga s |}.
Definition set_videobuffer (f : Z -> Z) (s : screen) : screen :=
  {| crt := crt s; videobuffer := f; cursorposition := cursorposition s; textdisplayed := textdisplayed s; conslocked := conslocked s;
     serial := serial s; currentVideoMode := currentVideoMode s; vram := vram s; plane2 := plane2 s; vga := vga s |}.
Definition set_cursorposition (x : Z) (s : screen) : screen :=
  {| crt := crt s; videobuffer := videobuffer s; cursorposition := x; textdisplayed := textdisplayed s; conslocked := conslocked s;
     serial := serial s; currentVideoMode := currentVideoMode s; vram := vram s; plane2 := plane2 s; vga := vga s |}.
Definition set_textdisplayed (x : bool) (s : screen) : screen :=
  {| crt := crt s; videobuffer := videobuffer s; cursorposition := cursorposition s; textdisplayed := x; conslocked := conslocked s;
     serial := serial s; currentVideoMode := currentVideoMode s; vram := vram s; plane2 := plane2 s; vga := vga s |}.
Definition set_conslocked (x : bool) (s : screen) : screen :=
  {| crt := crt s; videobuffer := videobuffer s; cursorposition := cursorposition s; textdisplayed := textdisplayed s; conslocked := x;
     serial := serial s; currentVideoMode := currentVideoMode s; vram := vram s; plane2 := plane2 s; vga := vga s |}.
Definition add_serial (l : list Z) (s : screen) : screen :=
  {| crt := crt s; videobuffer := videobuffer s; cursorposition := cursorposition s; textdisplayed := textdisplayed s; conslocked := conslocked s;
     serial := serial s ++ l; currentVideoMode := currentVideoMode s; vram := vram s; plane2 := plane2 s; vga := vga s |}.
Definition set_currentVideoMode (x : Z) (s : screen) : screen :=
  {| crt := crt s; videobuffer := videobuffer s; cursorposition := cursorposition s; textdisplayed := textdisplayed s; conslocked := conslocked s;
     serial := serial s; currentVideoMode := x; vram := vram s; plane2 := plane2 s; vga := vga s |}.
Definition set_vram (f : Z -> Z) (s : screen) : screen :=
  {| crt := crt s; videobuffer := videobuffer s; cursorposition := cursorposition s; textdisplayed := textdisplayed s; conslocked := conslocked s;
     serial := serial s; currentVideoMode := currentVideoMode s; vram := f; plane2 := plane2 s; vga := vga s |}.
Definition set_font (f : Z -> Z) (d : D) (s : screen) : screen :=
  {| crt := crt s; videobuffer := videobuffer s; cursorposition := cursorposition s; textdisplayed := textdisplayed s; conslocked := conslocked s;
     serial := serial s; currentVideoMode := currentVideoMode s; vram := vram s; plane2 := f; vga := d |}.
Definition set_vga (d : D) (s : screen) : screen := set_font (plane2 s) d s.

(** ** The cursor *)

Definition sethardwarecursorposition (position : Z) (d : D) : D :=
  let d := outb (CRTPORT + 1) (Z.land (Z.shiftr position 8) 0xFF) (outb CRTPORT 14 d) in
  outb (CRTPORT + 1) (Z.land position 0xFF) (outb CRTPORT 15 d).

Definition gethardwarecursorposition (d : D) : Z * D :=
  let '(hi, d) := inb (CRTPORT + 1) (outb CRTPORT 14 d) in
  let '(lo, d) := inb (CRTPORT + 1) (outb CRTPORT 15 d) in
  (Z.lor (Z.shiftl hi 8) lo, d).

(** ** The switch between the text memory and the buffer *)

(** [memmove(dst, src, sizeof(ushort) * 80 * 25)]. *)
Definition copy_cells (dst src : Z -> Z) (i : Z) : Z := if (0 <=? i) && (i <? CELLS) then src i else dst i.

Definition grabscreentobuffer (s : screen) : screen :=
  let s := set_videobuffer (copy_cells (videobuffer s) (crt s)) s in
  let '(pos, d) := gethardwarecursorposition (vga s) in
  set_textdisplayed false (set_cursorposition pos (set_vga d s)).

Definition outputbuffertoscreen (s : screen) : screen :=
  let s := set_crt (copy_cells (crt s) (videobuffer s)) s in
  set_textdisplayed true (set_vga (sethardwarecursorposition (cursorposition s) (vga s)) s).

(** ** cgaputc *)

Definition videomemory (s : screen) : Z -> Z := if textdisplayed s then crt s else videobuffer s.
Definition set_videomemory (f : Z -> Z) (s : screen) : screen := if textdisplayed s then set_crt f s else set_videobuffer f s.

Definition store (i v : Z) : K screen unit :=
  if (0 <=? i) && (i <? CELLS) then modify (fun s => set_videomemory (<[i := v]> (videomemory s)) s) else fault "videomemory".

(** The memmove of 23 lines and the memset up to line 24. *)
Definition scroll_cells (f : Z -> Z) (i : Z) : Z := if (0 <=? i) && (i <? 23 * 80) then f (i + 80) else f i.
Definition clear_cells (pos : Z) (f : Z -> Z) (i : Z) : Z := if (pos <=? i) && (i <? 24 * 80) then 0 else f i.

Definition read_pos : K screen Z := fun s =>
  if textdisplayed s then let '(p, d) := gethardwarecursorposition (vga s) in Ok p (set_vga d s) else Ok (cursorposition s) s.
Definition write_pos (pos : Z) : K screen unit :=
  modify (fun s => if textdisplayed s then set_vga (sethardwarecursorposition pos (vga s)) s else set_cursorposition pos s).

Definition cgaputc (c : Z) : K screen unit :=
  pos <- read_pos ;;
  pos <- (if c =? 10 then kret (pos + (80 - Z.rem pos 80))
          else if c =? BACKSPACE then kret (if 0 <? pos then pos - 1 else pos)
          else store pos (Z.lor (Z.land c 0xff) 0x0700) ;;; kret (pos + 1)) ;;
  if (pos <? 0) || (25 * 80 <? pos) then panic "pos under/overflow"
  else
    pos <- (if 24 <=? Z.quot pos 80 then
              modify (fun s => set_videomemory (scroll_cells (videomemory s)) s) ;;;
              modify (fun s => set_videomemory (clear_cells (pos - 80) (videomemory s)) s) ;;;
              kret (pos - 80)
            else kret pos) ;;
    write_pos pos ;;;
    store pos (Z.lor 32 0x0700).

Definition uartputc (c : Z) : K screen unit := modify (add_serial [u8 c]).

Definition consputc (c : Z) : K screen unit :=
  (if c =? BACKSPACE then uartputc 8 ;;; uartputc 32 ;;; uartputc 8 else uartputc c) ;;;
  cgaputc c.

(** ** Display modes *)

Definition acquireconslock : K screen unit :=
  l <- gets conslocked ;; if l : bool then panic "acquire" else modify (set_conslocked true).
Definition releaseconslock : K screen unit :=
  l <- gets conslocked ;; if l : bool then modify (set_conslocked false) else panic "release".

Definition clear320x200x256 (s : screen) : screen := set_vram (fun i => if (0 <=? i) && (i <? 320 * 200) then 0 else vram s i) s.
Definition loadregisters (regs : list Z) (s : screen) : screen := set_vga (writevgaregisters regs (vga s)) s.
Definition loadfont (s : screen) : screen := let '(f, d) := writefont font_8x16 16 (plane2 s) (vga s) in set_font f d s.

Definition videosetmode (mode : Z) : K screen Z :=
  currentmode <- gets currentVideoMode ;;
  if currentmode =? mode then kret 0
  else
    acquireconslock ;;;
    (if currentmode =? 0x03 then modify grabscreentobuffer else kret tt) ;;;
    returnValue <-
      (if mode =? 0x03 then
         modify (loadregisters registers_80x25_text) ;;;
         modify loadfont ;;;
         modify (set_currentVideoMode 0x03) ;;;
         modify outputbuffertoscreen ;;; kret 0
       else if mode =? 0x12 then
         modify (loadregisters registers_640x480x16) ;;;
         modify (set_currentVideoMode 0x12) ;;; kret 0
       else if mode =? 0x13 then
         modify (loadregisters registers_320x200x256) ;;;
         modify (set_currentVideoMode 0x13) ;;;
         modify clear320x200x256 ;;; kret 0
       else kret (-1)) ;;
    releaseconslock ;;;
    kret returnValue.

(** The argument of the system call becomes an [uchar]; [None] when argint
    fails. *)
Definition sys_setvideomode (arg : option Z) : K screen Z :=
  match arg with None => kret (-1) | Some mode => videosetmode (u8 mode) end.
End screen.

Arguments screen D : clear implicits.

(** ** The terminal that the code implements *)

Record term := { cells : Z -> Z; cur : Z }.

Definition term_put (c : Z) (t : term) : term :=
  let f := if (c =? 10) || (c =? BACKSPACE) then cells t else <[cur t := Z.lor (Z.land c 0xff) 0x0700]> (cells t) in
  let pos := if c =? 10 then cur t + (80 - Z.rem (cur t) 80) else if c =? BACKSPACE then (if 0 <? cur t then cur t - 1 else cur t) else cur t + 1 in
  let f' := if 24 * 80 <=? pos then clear_cells (pos - 80) (scroll_cells f) else f in
  let pos' := if 24 * 80 <=? pos then pos - 80 else pos in
  {| cells := <[pos' := Z.lor 32 0x0700]> f'; cur := pos' |}.

(** The same text on the screen. *)
Definition same_text (t t' : term) : Prop := cur t = cur t' /\ forall i, 0 <= i < CELLS -> cells t i = cells t' i.

#[export] Instance same_text_equivalence : Equivalence same_text.
Proof.
  split.
  - by intros t.
  - intros t t' [H1 H2]. split; [done|]. intros i Hi. by rewrite H2.
  - intros t1 t2 t3 [H1 H2] [H3 H4]. split; [congruence|]. intros i Hi. by rewrite H2, H4.
Qed.

Definition in_screen (t : term) : Prop := 0 <= cur t < CELLS.

Lemma insert_id_fn (f g : Z -> Z) p v : (forall i, 0 <= i < CELLS -> f i = g i) -> forall i, 0 <= i < CELLS -> (<[p := v]> f) i = (<[p := v]> g) i.
Proof.
  intros H i Hi. destruct (decide (i = p)) as [->|]; [by rewrite !fn_lookup_insert|]. rewrite !fn_lookup_insert_ne by done. by apply H.
Qed.

#[export] Instance term_put_proper c : Proper (same_text ==> same_text) (term_put c).
Proof.
  intros t t' [H1 H2]. unfold term_put, same_text. cbn [cur cells]. rewrite H1. split; [done|].
  apply insert_id_fn. destruct (_ <=? _).
  - intros i Hi. unfold clear_cells, scroll_cells. destruct (_ && _); [done|].
    assert (Hf : forall j, 0 <= j < CELLS ->
      (if (c =? 10) || (c =? BACKSPACE) then cells t else <[cur t' := Z.lor (Z.land c 255) 0x0700]> (cells t)) j =
      (if (c =? 10) || (c =? BACKSPACE) then cells t' else <[cur t' := Z.lor (Z.land c 255) 0x0700]> (cells t')) j).
    { destruct (_ || _); [done|]. by apply insert_id_fn. }
    destruct (_ && _) eqn:E; apply Hf; [|done]. apply andb_true_iff in E as [?%Z.leb_le ?%Z.ltb_lt]. unfold CELLS. lia.
  - destruct (_ || _); [done|]. by apply insert_id_fn.
Qed.

Lemma term_put_in c t : in_screen t -> in_screen (term_put c t).
Proof.
  unfold in_screen, term_put, CELLS. cbn [cur]. intros H.
  assert (Hp : 0 <= (if c =? 10 then cur t + (80 - Z.rem (cur t) 80) else if c =? BACKSPACE then (if 0 <? cur t then cur t - 1 else cur t) else cur t + 1) <= 2000).
  { destruct (c =? 10); [Z.to_euclidean_division_equations; lia|]. destruct (c =? BACKSPACE); [|lia]. destruct (Z.ltb_spec 0 (cur t)); lia. }
  destruct (Z.leb_spec (24 * 80) (if c =? 10 then cur t + (80 - Z.rem (cur t) 80) else if c =? BACKSPACE then (if 0 <? cur t then cur t - 1 else cur t) else cur t + 1)); lia.
Qed.

Section refinement.
Context {D : Type} `{VgaLaws D}.

(** ** The cursor registers *)

Lemma cursor_write i v d : 7 < i -> view (outb (CRTPORT + 1) v (outb CRTPORT i d)) = set_reg Crtc i (u8 v) (set_idx Crtc i (view d)).
Proof.
  intros Hi. rewrite !view_out. change (vga_out CRTPORT i (view d)) with (set_idx Crtc i (view d)).
  change (vga_out (CRTPORT + 1) v (set_idx Crtc i (view d))) with (set_data Crtc v (set_idx Crtc i (view d))).
  unfold set_data, protected. cbn [idx set_idx]. rewrite fn_lookup_insert. by rewrite (proj2 (Z.leb_gt i 7)).
Qed.

Definition hwcursor (d : D) : Z := Z.lor (Z.shiftl (reg (view d) Crtc 14) 8) (reg (view d) Crtc 15).

Lemma gethardware_eq d : exists d', gethardwarecursorposition d = (hwcursor d, d') /\ forall g i, reg (view d') g i = reg (view d) g i.
Proof.
  unfold gethardwarecursorposition.
  destruct (read_indexed_view Crtc VGA_CRTC_INDEX VGA_CRTC_DATA 14 d) as (d1 & E1 & V1); [done|].
  destruct (read_indexed_view Crtc VGA_CRTC_INDEX VGA_CRTC_DATA 15 d1) as (d2 & E2 & V2); [done|].
  unfold read_indexed in *. change VGA_CRTC_INDEX with CRTPORT in *. change VGA_CRTC_DATA with (CRTPORT + 1) in *.
  rewrite E1, E2, V1. exists d2. split; [done|]. intros g i. by rewrite V2, V1.
Qed.

Lemma lor_byte a b : 0 <= b < 256 -> Z.lor (Z.shiftl a 8) b = a * 256 + b.
Proof.
  intros Hb. pose proof (Z.add_lor_land (Z.shiftl a 8) b) as E. revert E. rewrite Z.shiftl_mul_pow2 by lia. change (2 ^ 8) with 256.
  enough (Z.land (a * 256) b = 0) by lia. apply Z.bits_inj'. intros n Hn. rewrite Z.land_spec, Z.bits_0.
  change 256 with (2 ^ 8). rewrite Z.mul_pow2_bits by lia. destruct (Z.ltb_spec n 8) as [Hlt|Hge].
  - by rewrite Z.testbit_neg_r by lia.
  - rewrite <- (Z.mod_small b (2 ^ 8)) by (change (2 ^ 8) with 256; lia). by rewrite Z.mod_pow2_bits_high, andb_false_r by lia.
Qed.

Lemma sethardware_regs p d i : reg (view (sethardwarecursorposition p d)) Crtc i =
  if i =? 15 then u8 (Z.land p 0xFF) else if i =? 14 then u8 (Z.land (Z.shiftr p 8) 0xFF) else reg (view d) Crtc i.
Proof.
  unfold sethardwarecursorposition. rewrite !cursor_write by lia. rewrite !reg_set_reg, !reg_set_idx, reg_set_reg, reg_set_idx.
  decide_groups. reflexivity.
Qed.

Lemma sethardware_eq p d : 0 <= p < 65536 -> hwcursor (sethardwarecursorposition p d) = p.
Proof.
  intros Hp. unfold hwcursor. rewrite !sethardware_regs. cbn [Z.eqb Pos.eqb].
  change 0xFF with (Z.ones 8). rewrite !Z.land_ones, Z.shiftr_div_pow2 by lia. unfold u8. rewrite !Z.mod_mod by lia.
  change (2 ^ 8) with 256. rewrite lor_byte by (Z.to_euclidean_division_equations; lia). Z.to_euclidean_division_equations. lia.
Qed.

(** ** cgaputc puts a character on the terminal *)

Definition display (s : screen D) : term :=
  {| cells := videomemory s; cur := if textdisplayed s then hwcursor (vga s) else cursorposition s |}.

(** What printing leaves alone: everything but the side that is written. *)
Record same_rest (s s' : screen D) : Prop := {
  sr_displayed : textdisplayed s' = textdisplayed s;
  sr_locked : conslocked s' = conslocked s;
  sr_mode : currentVideoMode s' = currentVideoMode s;
  sr_vram : vram s' = vram s;
  sr_text : textdisplayed s = true -> videobuffer s' = videobuffer s /\ cursorposition s' = cursorposition s;
  sr_graphics : textdisplayed s = false -> crt s' = crt s /\ vga s' = vga s }.

#[local] Instance same_rest_preorder : PreOrder same_rest.
Proof.
  split; [done|]. intros s1 s2 s3 [H1 H2 H3 H4 H5 H6] [K1 K2 K3 K4 K5 K6]. split; try congruence.
  - intros E. destruct (H5 E) as [<- <-]. apply K5. congruence.
  - intros E. destruct (H6 E) as [<- <-]. apply K6. congruence.
Qed.

Ltac same_rest_by_fields := split; cbn; intros; first [done | congruence | by split].

Lemma read_pos_ok s : exists s', read_pos s = Ok (cur (display s)) s' /\ display s' = display s /\ same_rest s s' /\ serial s' = serial s.
Proof.
  unfold read_pos, display, videomemory. destruct (textdisplayed s) eqn:E.
  - destruct (gethardware_eq (vga s)) as (d' & -> & Hd). eexists. split; [done|]. cbn. rewrite E. split_and!; [|same_rest_by_fields|done].
    unfold hwcursor. by rewrite !Hd.
  - exists s. rewrite E. by split_and!.
Qed.

Lemma store_cell_ok i v s : 0 <= i < CELLS ->
  exists s', store i v s = Ok tt s' /\ display s' = {| cells := <[i := v]> (cells (display s)); cur := cur (display s) |} /\ same_rest s s' /\ serial s' = serial s.
Proof.
  intros Hi. unfold store. rewrite (proj2 (Z.leb_le _ _)), (proj2 (Z.ltb_lt _ _)) by lia. cbn [andb]. eexists. split; [reflexivity|].
  unfold display, set_videomemory, videomemory. destruct (textdisplayed s) eqn:E; cbn; rewrite E; split_and!; first [done | same_rest_by_fields].
Qed.

Lemma put_cells f s : exists s', modify (fun s => set_videomemory (f (videomemory s)) s) s = Ok tt s' /\
  display s' = {| cells := f (cells (display s)); cur := cur (display s) |} /\ same_rest s s' /\ serial s' = serial s.
Proof.
  eexists. split; [reflexivity|].
  unfold display, set_videomemory, videomemory. destruct (textdisplayed s) eqn:E; cbn; rewrite E; split_and!; first [done | same_rest_by_fields].
Qed.

Lemma write_pos_ok pos s : 0 <= pos < 65536 -> exists s', write_pos pos s = Ok tt s' /\
  display s' = {| cells := cells (display s); cur := pos |} /\ same_rest s s' /\ serial s' = serial s.
Proof.
  intros Hp. eexists. split; [reflexivity|].
  unfold display, videomemory. destruct (textdisplayed s) eqn:E; cbn; rewrite E; split_and!; first [done | by rewrite sethardware_eq | same_rest_by_fields].
Qed.

Lemma cgaputc_ok c s : in_screen (display s) ->
  exists s', cgaputc c s = Ok tt s' /\ display s' = term_put c (display s) /\ same_rest s s' /\ serial s' = serial s.
Proof.
  intros Hin. unfold in_screen in Hin. unfold cgaputc. destruct (read_pos_ok s) as (s1 & E1 & D1 & R1 & S1). rewrite (kbind_ok _ _ _ _ _ E1).
  set (p := cur (display s)) in *.
  set (p1 := if c =? 10 then p + (80 - Z.rem p 80) else if c =? BACKSPACE then (if 0 <? p then p - 1 else p) else p + 1).
  set (f1 := if (c =? 10) || (c =? BACKSPACE) then cells (display s) else <[p := Z.lor (Z.land c 255) 0x0700]> (cells (display s))).
  assert (Hp1 : 0 <= p1 <= 2000).
  { unfold p1, CELLS in *. destruct (c =? 10); [Z.to_euclidean_division_equations; lia|]. destruct (c =? BACKSPACE); [|lia]. destruct (Z.ltb_spec 0 p); lia. }
  assert (Hmid : exists s2, (if c =? 10 then kret (p + (80 - Z.rem p 80)) else if c =? BACKSPACE then kret (if 0 <? p then p - 1 else p)
      else store p (Z.lor (Z.land c 255) 0x0700) ;;; kret (p + 1)) s1 = Ok p1 s2 /\ display s2 = {| cells := f1; cur := p |} /\ same_rest s1 s2 /\ serial s2 = serial s1).
  { unfold p1, f1. destruct (c =? 10); cbn [orb]; [exists s1; by split_and!|]. destruct (c =? BACKSPACE); [exists s1; by split_and!|].
    destruct (store_cell_ok p (Z.lor (Z.land c 255) 0x0700) s1) as (s2 & E2 & D2 & R2 & S2); [done|]. exists s2. rewrite (kbind_ok _ _ _ _ _ E2), D2, D1. by split_and!. }
  destruct Hmid as (s2 & E2 & D2 & R2 & S2). rewrite (kbind_ok _ _ _ _ _ E2).
  rewrite (proj2 (Z.ltb_ge p1 0)), (proj2 (Z.ltb_ge (25 * 80) p1)) by lia. cbn [orb].
  set (p2 := if 24 * 80 <=? p1 then p1 - 80 else p1).
  set (f2 := if 24 * 80 <=? p1 then clear_cells (p1 - 80) (scroll_cells f1) else f1).
  assert (Hq : (24 <=? Z.quot p1 80) = (24 * 80 <=? p1)).
  { apply Bool.eq_true_iff_eq. rewrite !Z.leb_le. Z.to_euclidean_division_equations. lia. }
  assert (Hp2 : 0 <= p2 < CELLS) by (unfold p2, CELLS; destruct (Z.leb_spec (24 * 80) p1); lia).
  assert (Hmid : exists s3, (if 24 <=? Z.quot p1 80 then
      modify (fun s => set_videomemory (scroll_cells (videomemory s)) s) ;;;
      modify (fun s => set_videomemory (clear_cells (p1 - 80) (videomemory s)) s) ;;; kret (p1 - 80) else kret p1) s2 = Ok p2 s3 /\
      cells (display s3) = f2 /\ same_rest s2 s3 /\ serial s3 = serial s2).
  { rewrite Hq. unfold p2, f2. destruct (24 * 80 <=? p1); [|exists s2; rewrite D2; by split_and!].
    destruct (put_cells scroll_cells s2) as (s3 & E3 & D3 & R3 & S3). rewrite (kbind_ok _ _ _ _ _ E3).
    destruct (put_cells (clear_cells (p1 - 80)) s3) as (s4 & E4 & D4 & R4 & S4). rewrite (kbind_ok _ _ _ _ _ E4).
    exists s4. split_and!; [done|by rewrite D4, D3, D2|by etransitivity|congruence]. }
  destruct Hmid as (s3 & E3 & D3 & R3 & S3). rewrite (kbind_ok _ _ _ _ _ E3).
  destruct (write_pos_ok p2 s3) as (s4 & E4 & D4 & R4 & S4); [unfold CELLS in Hp2; lia|]. rewrite (kbind_ok _ _ _ _ _ E4).
  destruct (store_cell_ok p2 (Z.lor 32 0x0700) s4) as (s5 & E5 & D5 & R5 & S5); [done|].
  exists s5. split; [done|]. split_and!.
  - rewrite D5, D4. cbn [cells cur]. rewrite D3. reflexivity.
  - do 4 (etransitivity; [eassumption|]). done.
  - congruence.
Qed.

Lemma consputc_ok c s : in_screen (display s) ->
  exists s', consputc c s = Ok tt s' /\ display s' = term_put c (display s) /\ same_rest s s'.
Proof.
  intros Hin. unfold consputc.
  assert (Hs : exists l, (if c =? BACKSPACE then uartputc 8 ;;; uartputc 32 ;;; uartputc 8 else uartputc c) s = Ok tt (add_serial l s)).
  { destruct (c =? BACKSPACE); [|by eexists]. exists [u8 8; u8 32; u8 8]. unfold uartputc, kbind, modify, add_serial. cbn. by rewrite <- !app_assoc. }
  destruct Hs as [l Hs]. rewrite (kbind_ok _ _ _ _ _ Hs).
  destruct (cgaputc_ok c (add_serial l s)) as (s' & E & Hd & Hr & _); [exact Hin|]. exists s'. split_and!; [done|exact Hd|].
  destruct Hr as [H1 H2 H3 H4 H5 H6]. by split.
Qed.

Definition cputs (cs : list Z) : K (screen D) unit := for_each cs consputc.
Definition term_puts (cs : list Z) (t : term) : term := foldl (fun t c => term_put c t) t cs.

Lemma cputs_ok cs s : in_screen (display s) ->
  exists s', cputs cs s = Ok tt s' /\ display s' = term_puts cs (display s) /\ same_rest s s'.
Proof.
  revert s. induction cs as [|c cs IH]; intros s Hin; [by exists s|].
  destruct (consputc_ok c s Hin) as (s1 & E1 & D1 & R1).
  destruct (IH s1) as (s2 & E2 & D2 & R2); [rewrite D1; by apply term_put_in|].
  exists s2. unfold cputs in *. cbn [for_each]. rewrite (kbind_ok _ _ _ _ _ E1). split_and!; [done| |by etransitivity].
  rewrite D2, D1. done.
Qed.

#[local] Instance term_puts_proper cs : Proper (same_text ==> same_text) (term_puts cs).
Proof. induction cs as [|c cs IH]; intros t t' Ht; [done|]. apply IH. by apply term_put_proper. Qed.

Lemma term_puts_in cs t : in_screen t -> in_screen (term_puts cs t).
Proof. revert t. induction cs as [|c cs IH]; intros t Ht; [done|]. apply IH. by apply term_put_in. Qed.

(** ** Modes *)

(** The text that the buffer and the text memory hold. *)
Definition buffered (s : screen D) : term := {| cells := videobuffer s; cur := cursorposition s |}.
Definition on_crt (s : screen D) : term := {| cells := crt s; cur := hwcursor (vga s) |}.

Lemma grab_ok s : let s' := grabscreentobuffer s in
  same_text (buffered s') (on_crt s) /\ textdisplayed s' = false /\ conslocked s' = conslocked s /\ currentVideoMode s' = currentVideoMode s /\
  crt s' = crt s /\ hwcursor (vga s') = hwcursor (vga s).
Proof.
  unfold grabscreentobuffer. cbn zeta. cbn [vga set_videobuffer]. destruct (gethardware_eq (vga s)) as (d' & -> & Hd).
  split_and!; try done.
  - split; [done|]. intros i Hi. cbn. unfold copy_cells. rewrite (proj2 (Z.leb_le _ _)), (proj2 (Z.ltb_lt _ _)) by lia. done.
  - cbn. unfold hwcursor. by rewrite !Hd.
Qed.

Lemma output_ok s : in_screen (buffered s) -> let s' := outputbuffertoscreen s in
  same_text (on_crt s') (buffered s) /\ textdisplayed s' = true /\ conslocked s' = conslocked s /\ currentVideoMode s' = currentVideoMode s.
Proof.
  intros Hin. unfold in_screen, CELLS in Hin. cbn in Hin. unfold outputbuffertoscreen. cbn zeta. split_and!; try done.
  split; [apply sethardware_eq; cbn; lia|]. intros i Hi. cbn. unfold copy_cells. rewrite (proj2 (Z.leb_le _ _)), (proj2 (Z.ltb_lt _ _)) by lia. done.
Qed.

Definition graphics (m : Z) : Prop := m = 0x12 \/ m = 0x13.

Lemma acquireconslock_ok (s : screen D) : conslocked s = false -> acquireconslock s = Ok tt (set_conslocked true s).
Proof. intros E. unfold acquireconslock, kbind, gets. by rewrite E. Qed.
Lemma releaseconslock_ok (s : screen D) : conslocked s = true -> releaseconslock s = Ok tt (set_conslocked false s).
Proof. intros E. unfold releaseconslock, kbind, gets. by rewrite E. Qed.

(** From the text mode to another one, known or not. *)
Lemma leave_text m (s : screen D) : currentVideoMode s = 3 -> m <> 3 -> conslocked s = false ->
  exists s', videosetmode m s = Ok (if bool_decide (graphics m) then 0 else -1) s' /\
    same_text (buffered s') (on_crt s) /\ textdisplayed s' = false /\ conslocked s' = false /\
    currentVideoMode s' = (if bool_decide (graphics m) then m else 3) /\ crt s' = crt s /\
    (~ graphics m -> hwcursor (vga s') = hwcursor (vga s)).
Proof.
  intros Hm Hne Hl. unfold videosetmode. rewrite (kbind_ok _ _ s 3 s) by (unfold gets; by rewrite Hm).
  rewrite (proj2 (Z.eqb_neq 3 m)) by lia. rewrite (kbind_ok _ _ _ _ _ (acquireconslock_ok s Hl)).
  change (3 =? 3) with true. cbn iota. set (s1 := set_conslocked true s).
  rewrite (kbind_ok _ _ s1 tt (grabscreentobuffer s1)) by done.
  destruct (grab_ok s1) as (G1 & G2 & G3 & G4 & G5 & G6). set (s2 := grabscreentobuffer s1) in *.
  rewrite (proj2 (Z.eqb_neq m 3)) by done. unfold graphics.
  destruct (Z.eqb_spec m 0x12) as [->|H12]; [|destruct (Z.eqb_spec m 0x13) as [->|H13]].
  - rewrite bool_decide_eq_true_2 by by left.
    set (s3 := set_currentVideoMode 0x12 (loadregisters registers_640x480x16 s2)). rewrite (kbind_ok _ _ s2 0 s3) by done.
    rewrite (kbind_ok _ _ _ _ _ (releaseconslock_ok s3 G3)). eexists. split; [reflexivity|]. split_and!; try done.
    intros Hn. destruct Hn. by left.
  - rewrite bool_decide_eq_true_2 by by right.
    set (s3 := clear320x200x256 (set_currentVideoMode 0x13 (loadregisters registers_320x200x256 s2))). rewrite (kbind_ok _ _ s2 0 s3) by done.
    rewrite (kbind_ok _ _ _ _ _ (releaseconslock_ok s3 G3)). eexists. split; [reflexivity|]. split_and!; try done.
    intros Hn. destruct Hn. by right.
  - rewrite bool_decide_eq_false_2 by tauto. rewrite (kbind_ok _ _ s2 (-1) s2) by done.
    rewrite (kbind_ok _ _ _ _ _ (releaseconslock_ok s2 ltac:(by rewrite G3))). eexists. split; [reflexivity|]. split_and!; try done. cbn. by rewrite G4.
Qed.

(** Back to the text mode. *)
Lemma enter_text (s : screen D) : currentVideoMode s <> 3 -> conslocked s = false -> in_screen (buffered s) ->
  exists s', videosetmode 3 s = Ok 0 s' /\ same_text (on_crt s') (buffered s) /\ textdisplayed s' = true /\ conslocked s' = false /\ currentVideoMode s' = 3.
Proof.
  intros Hm Hl Hin. unfold videosetmode. rewrite (kbind_ok _ _ s (currentVideoMode s) s) by done.
  rewrite (proj2 (Z.eqb_neq _ 3)) by done. rewrite (kbind_ok _ _ _ _ _ (acquireconslock_ok s Hl)), (kbind_ok _ _ _ tt _ eq_refl). cbn [Z.eqb Pos.eqb].
  set (s1 := set_conslocked true s). set (s2 := loadfont (loadregisters registers_80x25_text s1)).
  assert (H2 : buffered s2 = buffered s /\ conslocked s2 = true).
  { unfold s2, loadfont. by destruct (writefont _ _ _ _). }
  destruct H2 as [H2 H2l]. set (s3 := set_currentVideoMode 3 s2).
  destruct (output_ok s3) as (O1 & O2 & O3 & O4); [change (buffered s3) with (buffered s2); by rewrite H2|].
  rewrite (kbind_ok _ _ s1 0 (outputbuffertoscreen s3)) by done.
  rewrite (kbind_ok _ _ _ _ _ (releaseconslock_ok (outputbuffertoscreen s3) ltac:(by rewrite O3))).
  eexists. split; [reflexivity|]. split_and!; try done. change (buffered s3) with (buffered s2) in O1. rewrite H2 in O1. exact O1.
Qed.

(** Between two graphics modes, and the mode that is set already. *)
Lemma other_modes m (s : screen D) : currentVideoMode s = m \/ (currentVideoMode s <> 3 /\ m <> 3) -> conslocked s = false ->
  exists r s', videosetmode m s = Ok r s' /\ buffered s' = buffered s /\ textdisplayed s' = textdisplayed s /\ conslocked s' = false /\
    (currentVideoMode s' = 3 -> currentVideoMode s = 3) /\ (currentVideoMode s = m -> s' = s).
Proof.
  intros Hm Hl. unfold videosetmode. rewrite (kbind_ok _ _ s (currentVideoMode s) s) by done.
  destruct (Z.eqb_spec (currentVideoMode s) m) as [E|E]; [exists 0, s; by split_and!|]. destruct Hm as [|[H3 Hm]]; [done|].
  rewrite (kbind_ok _ _ _ _ _ (acquireconslock_ok s Hl)). rewrite (proj2 (Z.eqb_neq _ 3)) by done. rewrite (kbind_ok _ _ _ tt _ eq_refl).
  rewrite (proj2 (Z.eqb_neq m 3)) by done.
  destruct (Z.eqb_spec m 0x12) as [->|H12]; [|destruct (Z.eqb_spec m 0x13) as [->|H13]]; do 2 eexists; (split; [reflexivity|]); by split_and!.
Qed.

(** ** Runs of output and mode switches *)

(** What happens to the screen: printing, the mode system call with any
    argument, and drawing, which changes the graphics memory and, in a
    graphics mode, whatever the text memory shows there. *)
Inductive op := Print (cs : list Z) | SetMode (arg : option Z) | Draw (f v : Z -> Z).

Definition run_op (o : op) : K (screen D) unit :=
  match o with
  | Print cs => cputs cs
  | SetMode arg => sys_setvideomode arg ;;; kret tt
  | Draw f v => modify (fun s => set_vram v (if currentVideoMode s =? 3 then s else set_crt f s))
  end.
Definition run_ops (l : list op) : K (screen D) unit := for_each l run_op.

Definition in_range (x : Z) : Prop := 0 <= x < CELLS.
Record screen_wf (s : screen D) : Prop := {
  wf_unlocked : conslocked s = false;
  wf_text : textdisplayed s = true -> currentVideoMode s = 3;
  wf_buffer : textdisplayed s = false -> in_range (cursorposition s);
  wf_cursor : currentVideoMode s = 3 -> in_range (hwcursor (vga s)) }.

Lemma wf_display s : screen_wf s -> in_screen (display s).
Proof. intros [H1 H2 H3 H4]. unfold in_screen, display. cbn. destruct (textdisplayed s); [apply H4, H2; done|by apply H3]. Qed.

Lemma same_text_cur t t' : same_text t t' -> cur t = cur t'.
Proof. by intros [? _]. Qed.

Lemma setmode_wf m s : screen_wf s -> exists r s', videosetmode m s = Ok r s' /\ screen_wf s'.
Proof.
  intros Hwf. pose proof Hwf as [H1 H2 H3 H4].
  destruct (decide (currentVideoMode s = m)) as [Hm|Hm].
  { destruct (other_modes m s (or_introl Hm) H1) as (r & s' & E & _ & _ & _ & _ & Hs). rewrite (Hs Hm) in E. by exists r, s. }
  destruct (decide (currentVideoMode s = 3)) as [H3m|H3m].
  - destruct (leave_text m s H3m ltac:(congruence) H1) as (s' & E & Ht & Hd & Hl & Hmode & _ & Hc).
    do 2 eexists. split; [exact E|]. apply same_text_cur in Ht. cbn in Ht. split; [done|congruence|intros _; rewrite Ht; by apply H4|].
    rewrite Hmode. case_bool_decide as Hg; [|intros _; rewrite Hc by done; by apply H4]. intros ->. destruct Hg; lia.
  - assert (Htd : textdisplayed s = false) by (destruct (textdisplayed s); [by destruct H3m; apply H2|done]).
    destruct (decide (m = 3)) as [->|Hm3].
    + destruct (enter_text s H3m H1 (H3 Htd)) as (s' & E & Ht & Hd & Hl & Hmode). do 2 eexists. split; [exact E|].
      apply same_text_cur in Ht. cbn in Ht. split; [done|done|congruence|intros _; rewrite Ht; by apply H3].
    + destruct (other_modes m s (or_intror (conj H3m Hm3)) H1) as (r & s' & E & Hb & Hd & Hl & Hmode & _). do 2 eexists. split; [exact E|].
      split; [done|rewrite Hd; congruence| |intros K; by apply Hmode in K]. intros _. apply (f_equal cur) in Hb. cbn in Hb. rewrite Hb. by apply H3.
Qed.

(** C38: The screen keeps its form and the console never panics on it: from a
    well-formed screen any sequence of printing, mode changes with good and
    bad arguments, and drawing runs to its end, inside the text memory and
    its buffer, and leaves a well-formed screen. *)
Theorem screen_well_formed l s : screen_wf s -> exists s', run_ops l s = Ok tt s' /\ screen_wf s'.
Proof.
  revert s. induction l as [|o l IH]; intros s Hwf; [by exists s|].
  assert (Ho : exists s1, run_op o s = Ok tt s1 /\ screen_wf s1).
  { destruct o as [cs|arg|f v].
    - destruct (cputs_ok cs s (wf_display s Hwf)) as (s1 & E & Hd & [R1 R2 R3 R4 R5 R6]). exists s1. split; [done|].
      pose proof (term_puts_in cs _ (wf_display s Hwf)) as Hin. rewrite <- Hd in Hin. unfold in_screen, display in Hin. cbn in Hin.
      destruct Hwf as [H1 H2 H3 H4]. rewrite R1 in Hin. split; rewrite ?R1, ?R2, ?R3; try done.
      + intros E1. by rewrite E1 in Hin.
      + intros E3. destruct (textdisplayed s) eqn:Et; [done|]. destruct (R6 eq_refl) as [_ ->]. by apply H4.
    - destruct arg as [m|]; cbn [run_op sys_setvideomode]; [|by exists s].
      destruct (setmode_wf (u8 m) s Hwf) as (r & s1 & E & Hwf1). exists s1. by rewrite (kbind_ok _ _ _ _ _ E).
    - eexists. split; [reflexivity|]. destruct Hwf as [H1 H2 H3 H4]. by destruct (currentVideoMode s =? 3). }
  destruct Ho as (s1 & E1 & Hwf1). destruct (IH s1 Hwf1) as (s' & E' & Hwf'). exists s'. split; [|done].
  unfold run_ops in *. cbn [for_each]. by rewrite (kbind_ok _ _ _ _ _ E1).
Qed.

(** Console output is that of the terminal: it runs without panic, the shown
    side, text memory or buffer, becomes what the terminal makes of the
    characters, and the other side is untouched. *)
Theorem console_output cs s : in_screen (display s) ->
  exists s', cputs cs s = Ok tt s' /\ display s' = term_puts cs (display s) /\ in_screen (display s') /\ same_rest s s'.
Proof.
  intros Hin. destruct (cputs_ok cs s Hin) as (s' & E & Hd & Hr). exists s'. split_and!; try done. rewrite Hd. by apply term_puts_in.
Qed.

(** C24: A visit to a graphics mode does not show in the text: what is printed
    meanwhile, and whatever the drawing does to the text memory and the VGA
    registers, the text and the cursor after the return to the text mode are
    those of printing on the text screen all along. *)
Theorem mode_switch_transparent m cs f v d s s0 :
  screen_wf s -> textdisplayed s = true -> graphics m -> cputs cs s = Ok tt s0 ->
  exists s1 s2 s3, videosetmode m s = Ok 0 s1 /\
    cputs cs (set_crt f (set_vram v (set_vga d s1))) = Ok tt s2 /\
    videosetmode 3 s2 = Ok 0 s3 /\ same_text (display s3) (display s0) /\ textdisplayed s3 = true /\ currentVideoMode s3 = 3.
Proof.
  intros Hwf Ht Hg E0. pose proof (wf_display s Hwf) as Hin. destruct Hwf as [H1 H2 H3 H4]. specialize (H2 Ht).
  destruct (cputs_ok cs s Hin) as (s0' & E0' & Hd0 & _). rewrite E0 in E0'. injection E0' as <-.
  destruct (leave_text m s H2 ltac:(destruct Hg; lia) H1) as (s1 & E1 & Hs1 & Hd1 & Hl1 & Hm1 & _ & _).
  rewrite bool_decide_eq_true_2 in E1, Hm1 by done.
  set (s1' := set_crt f (set_vram v (set_vga d s1))).
  assert (Hdisp1 : display s1' = buffered s1) by (unfold display, videomemory; cbn; by rewrite Hd1).
  assert (Hdisp : display s = on_crt s) by (unfold display, videomemory; by rewrite Ht).
  assert (Hin1 : in_screen (display s1')).
  { rewrite Hdisp1. unfold in_screen. rewrite (same_text_cur _ _ Hs1). by apply H4. }
  destruct (cputs_ok cs s1' Hin1) as (s2 & E2 & Hd2 & [R1 R2 R3 R4 R5 R6]).
  assert (Ht2 : textdisplayed s2 = false) by (rewrite R1; exact Hd1).
  assert (Hb2 : buffered s2 = term_puts cs (buffered s1)).
  { rewrite <- Hdisp1, <- Hd2. unfold display, videomemory. by rewrite Ht2. }
  destruct (enter_text s2) as (s3 & E3 & Hs3 & Hd3 & Hl3 & Hm3).
  { rewrite R3. change (currentVideoMode s1 <> 3). rewrite Hm1. destruct Hg; lia. }
  { rewrite R2. exact Hl1. }
  { rewrite Hb2. apply term_puts_in. by rewrite <- Hdisp1. }
  exists s1, s2, s3. split_and!; try done.
  replace (display s3) with (on_crt s3) by (unfold display, videomemory; by rewrite Hd3).
  rewrite Hs3, Hb2, Hd0, Hdisp. by rewrite Hs1.
Qed.

(** A mode that does not exist: the call fails, yet the console has turned to
    its buffer.  The mode is the text mode still, and nothing printed from
    then on reaches the screen. *)
Theorem unknown_mode_hides_output m cs s : screen_wf s -> textdisplayed s = true -> m <> 3 -> ~ graphics m ->
  exists s1 s2, videosetmode m s = Ok (-1) s1 /\ cputs cs s1 = Ok tt s2 /\
    currentVideoMode s2 = 3 /\ textdisplayed s2 = false /\ crt s2 = crt s /\ hwcursor (vga s2) = hwcursor (vga s).
Proof.
  intros Hwf Ht Hm Hg. pose proof Hwf as [H1 H2 H3 H4].
  destruct (leave_text m s (H2 Ht) Hm H1) as (s1 & E1 & Hs1 & Hd1 & Hl1 & Hm1 & Hc1 & Hv1).
  rewrite bool_decide_eq_false_2 in E1, Hm1 by done.
  destruct (cputs_ok cs s1) as (s2 & E2 & _ & [R1 R2 R3 R4 R5 R6]).
  { unfold in_screen, display. cbn. rewrite Hd1. apply same_text_cur in Hs1. cbn in Hs1. rewrite Hs1. by apply H4, H2. }
  destruct (R6 Hd1) as [Hcrt Hvga]. exists s1, s2. split_and!; [done|done|congruence|congruence|congruence|]. rewrite Hvga. by apply Hv1.
Qed.
End refinement.

(** ** A text screen *)

Definition boot_screen : screen registers :=
  {| crt := fun _ => 0; videobuffer := fun _ => 0; cursorposition := 0; textdisplayed := true; conslocked := false; serial := [];
     currentVideoMode := 3; vram := fun _ => 0; plane2 := fun _ => 0; vga := power_on |}.
Definition text_screen : screen registers := set_vga (sethardwarecursorposition 160 power_on) boot_screen.

Lemma text_screen_wf : screen_wf text_screen.
Proof.
  split; [done|done|done|]. intros _. unfold in_range, CELLS. cbn [vga text_screen set_vga set_font]. rewrite sethardware_eq; lia.
Qed.

Lemma screen_well_formed_witness :
  screen_wf text_screen /\ exists s', run_ops [Print [104; 10]; SetMode (Some 0x13); Draw (fun _ => 7) (fun _ => 9); Print [105]; SetMode (Some 3)] text_screen = Ok tt s' /\ screen_wf s'.
Proof. split; [exact text_screen_wf|]. exact (screen_well_formed _ text_screen text_screen_wf). Defined.

Lemma console_output_witness : exists s', cputs [104; 105] text_screen = Ok tt s' /\ cells (display s') 161 = 0x0769.
Proof.
  destruct (console_output [104; 105] text_screen (wf_display _ text_screen_wf)) as (s' & E & Hd & _).
  exists s'. split; [exact E|]. rewrite Hd. vm_compute. reflexivity.
Defined.

Lemma mode_switch_transparent_witness : exists s0 s3, cputs [104; 105] text_screen = Ok tt s0 /\ same_text (display s3) (display s0) /\ textdisplayed s3 = true.
Proof.
  destruct (cputs_ok [104; 105] text_screen (wf_display _ text_screen_wf)) as (s0 & E & _).
  destruct (mode_switch_transparent 0x13 [104; 105] (fun _ => 7) (fun _ => 9) power_on text_screen s0 text_screen_wf eq_refl (or_intror eq_refl) E)
    as (s1 & s2 & s3 & _ & _ & _ & Hs & Ht & _).
  exists s0, s3. split; [exact E|]. split; [exact Hs|exact Ht].
Defined.

Lemma unknown_mode_hides_output_witness : exists s1 s2, videosetmode 5 text_screen = Ok (-1) s1 /\ cputs [104; 105] s1 = Ok tt s2 /\ crt s2 = crt text_screen.
Proof.
  destruct (unknown_mode_hides_output 5 [104; 105] text_screen text_screen_wf eq_refl ltac:(lia) ltac:(unfold graphics; lia))
    as (s1 & s2 & E1 & E2 & _ & _ & Hc & _).
  exists s1, s2. split; [exact E1|]. split; [exact E2|exact Hc].
Defined.
